(* ===== verification/_CoqProject ===== *)
-Q . S2P
Prelude.v
BitField.v
HandleTable.v
IntervalSet.v
MemoryRegion.v
PageTable.v
Memory.v
MemoryCopy.v
VMManager.v
ThreadQueueList.v
CoreTiming.v
ResourceLimit.v
Process.v
SharedMemory.v
IPC.v
MappedBuffer.v
HLEContext.v
Kernel.v
WaitSynch.v
Session.v
SessionInv.v
RPC.v
HLECall.v
AddressArbiter.v
Scheduler.v
ArmSupp.v
ArmState.v
ArmOperands.v
ArmExec.v
ArmDecode.v
ArmThumb.v
ArmTyped.v
ArmLoop.v
ArmSpec.v
