(* ===== verification/Prelude.v ===== *)
(** * Azahar: a verification library for the emulated 3DS kernel and its interpreter

    Azahar emulates the Nintendo 3DS.  Its own core logic, as opposed to the reimplemented system
    services, the GPU and the frontends, is the emulated kernel under
    [src/src/core/hle/kernel/] with the memory system ([src/src/core/memory.cpp]) and the event
    scheduler ([src/src/core/core_timing.cpp]) it runs on, and the ARM interpreter under
    [src/src/core/arm/] that runs the guest.  This library translates that core and proves it correct.

    ** The parts and how they interact

    The guest runs on up to four cores.  Each core has a timer ([CoreTiming]) that calls back
    into the kernel when an event is due, and a thread manager ([Scheduler]) that picks the next
    thread from a ready queue ([ThreadQueueList]).  Threads wait for mutexes, semaphores, events,
    timers and other threads ([Kernel], [WaitSynch]) or on a word of memory ([AddressArbiter]).
    A guest names kernel objects by handles ([HandleTable]).  A process ([Process]) owns an
    address space ([VMManager]) whose areas are mirrored in a page table ([PageTable]), through
    which guest accesses reach host memory ([Memory]); physical memory comes from three regions
    of FCRAM ([MemoryRegion], over the container interface [IntervalSet]), and what it uses is
    charged to a resource limit ([ResourceLimit]), and blocks of it are shared between processes
    ([SharedMemory]).  Processes call each other through sessions ([Session]): the kernel moves a
    command buffer from the client to the server and back ([IPC], [MappedBuffer]); a service that
    the emulator implements itself works on a copy of the command ([HLEContext]).  Errors are
    packed result codes ([BitField]).

    The interpreter decodes a word of the guest ([ArmDecode]), after a translation if it is a Thumb
    instruction ([ArmThumb]), and runs the routine of the instruction ([ArmExec]) on the state of
    the processor ([ArmState]): the routine tests its condition and takes its operands
    ([ArmOperands]), computes ([ArmSupp]), and reaches guest memory through an interface
    that the accesses of [Memory] implement.

    ** The files

    - [Prelude] (this file): the control-flow notation, machine integers, tactics, the hint
      database [az] and lemmas that the components share.
    - [BitField]: [common/bit_field.h], [hle/result.h], [kernel/errors.h].
    - [HandleTable]: [kernel/handle_table.*]; the arrays refine a finite map, and a closed handle
      stays invalid for 32766 creations.
    - [IntervalSet], [MemoryRegion]: [kernel/memory.*]; the allocators against the laws of
      [boost::icl::interval_set], which a concrete list container satisfies: the heap allocator
      takes the highest free bytes, the linear ones the best fit, [MemoryInit] tiles FCRAM.
    - [PageTable]: [common/memory_ref.h] and the page table of [core/memory.h]; what every entry
      holds after a run of pages is mapped or unmapped.
    - [Memory]: the accesses of [core/memory.cpp]: values, blocks, physical lookups, watchpoints
      and the marks of the rasterizer.  Block accesses are equivalent to accesses byte by byte;
      what is written is read back; the lookup cache is transparent; marking keeps the page
      tables in agreement with the marks.
    - [MemoryCopy]: [CopyBlock] of [core/memory.cpp], which is a read followed by a write.
    - [VMManager]: [kernel/vm_manager.*]; the abstract view is what each address is mapped to,
      every operation changes it exactly on its range, on every branch, and keeps the invariant.
    - [ThreadQueueList]: [common/thread_queue_list.h] with its pointers; on every trace it
      refines a list of lists.
    - [CoreTiming]: [core_timing.*]; [Advance] returns and runs exactly the due events, slices
      never pass an event, periodic events do not drift, the accuracy of the time units.
    - [ResourceLimit]: [kernel/resource_limit.*] and the system calls on it.
    - [Process]: memory management of [kernel/process.cpp], the capabilities of an executable
      and [ControlMemory] of [kernel/svc.cpp].  These theorems compose the allocator, the address
      space, host memory and the resource limit: no physical page is owned twice, allocations
      are cleared, mapped and charged or change nothing, aliases share host memory, and a process
      that ends gives back what it owned.
    - [SharedMemory]: [kernel/shared_memory.*] and the system calls on blocks, over the state of
      all the processes; two processes that map a block see one memory, and creating, mapping,
      unmapping and destroying a block leaves no trace.
    - [IPC]: [hle/ipc.h] and [kernel/ipc.cpp]: headers, descriptors and the translation of a command
      buffer between two processes; handles and static buffers arrive, the loop ends.
    - [MappedBuffer]: a mapped buffer goes to the server and comes back.
    - [HLEContext]: [kernel/hle_ipc.*], [hle/ipc_helpers.h] and the dispatch of
      [service/service.cpp]: a handler pops what the client sent, the client finds what it pushed.
    - [Kernel]: threads and wait objects as one store of shared objects, every operation of
      [wait_object.cpp], [mutex.cpp], [semaphore.cpp], [event.cpp], [timer.cpp] and the thread
      operations they call.
    - [WaitSynch]: the invariant of the object graph; waking terminates and leaves nobody behind
      who could run; mutexes and events hand over as they should; priority inheritance.
    - [Session]: client and server ports and sessions, and the system calls of [kernel/svc.cpp]
      that connect, send, receive, reply and wait, over the state of [Kernel].
    - [SessionInv]: the ends of a session and the counts of the ports agree in every reachable state.
    - [RPC], [HLECall]: a whole call of a server process and of an emulated service, composed of
      sessions, translation, the memory of the processes, the ready queues and the event scheduler.
    - [AddressArbiter]: [kernel/address_arbiter.cpp]; signals wake by priority and arrival.
    - [Scheduler]: [ThreadManager] and [CpuLimiterMulti] of [kernel/thread.cpp] and the system
      call [CreateThread]; after [Reschedule] the best schedulable thread runs and none is lost.
    - [ArmSupp]: [arm/skyeye_common/armsupp.*]; sums with carry and overflow, saturation.
    - [ArmState]: [armstate.*], [arm_regformat.h], [arm_dyncom_run.h]; a change of mode keeps the
      banks, a program in user mode reaches only its own coprocessor registers.
    - [ArmOperands], [ArmExec]: [dyncom/arm_dyncom_interpreter.cpp] and [arm_dyncom_trans.cpp]: conditions,
      shifter, addressing modes, which compute what the manual of the architecture says, and one routine per label.
    - [ArmDecode], [ArmThumb]: [arm_dyncom_dec.cpp] and [arm_dyncom_thumb.cpp]; every diagram of the manual is
      decoded to its instruction, every Thumb instruction is translated to its equivalent.
    - [ArmTyped]: every instruction keeps the state of the processor well formed.

    Each component file has the state as records, one definition per function of the source
    under the function's name (prefixed with the class where names collide), an invariant or an
    abstract view, lemmas, and theorems.  Concrete states at the end of a file (modules
    [Examples]) show that the hypotheses can be met; some theorems there prove that the code
    misbehaves on a concrete input.

    ** Conventions

    A definition returns [None] for a run the program does not survive: a failed [ASSERT] or
    [UNREACHABLE] (both end the program in every build), or undefined behaviour such as a read
    through [end()] or outside a host block.  [DEBUG_ASSERT] does nothing in a release build and is left out.
    Error codes are values.  Integers keep their width: [u32] and the like write the wrap-around
    out, signed overflow is [None].

    Loops that are not structural take fuel.  Wherever a theorem is about such a loop it proves
    that the loop returns: [VMManager] loops with one round per area, block accesses with one
    round per page, [WakeupAllWaitingThreads] with one per waiter, [Advance] with one per due
    event, the searches of the ready queue with one per ready thread (and no retry on a core
    without a CPU limiter).  [RegisterWatchpoint] is the exception, and a theorem says when it does not end.

    Code outside the repository is a parameter: the interval set of Boost (a class with laws),
    the renderer (what it writes back on a flush), GPU registers, the callbacks of timing events.
    So are the handlers of the emulated services and the callbacks they leave (a function on the state
    of the kernel; [SessionInv] assumes that they leave sessions alone), the indeterminate words of
    an array that the source does not initialize, and where the host allocates a new buffer,
    object or context; theorems that need a fresh place say so.  Processes do not share a
    resource limit in [SharedMemory].  The manual of the architecture is a specification of the library: the diagrams of
    [ArmDecode] and [ArmThumb], the shifts and addresses of [ArmOperands].

    ** Not modelled

    Logging, serialization, the notifications of the plugin loader and of the debugger, the flush
    of the rasterizer cache in [MapPages], the register contexts of threads, the process list and
    [Process::Run], the recorder of IPC, the asynchronous work of services on host threads, and
    the system calls other than those named above.  Objects are not counted references: the
    destructors of sessions, ports and blocks are operations that a step calls.
    Of the interpreter, the floating-point instructions and the hooks of the debugger are left out, and a word that does
    not decode has no routine.  Whole parts are outside the library: the handlers of the HLE services and applets, the JIT, [video_core], [audio_core], file systems and loaders, save states, cheats, movies,
    the frontends, input, network and web services. *)

From stdpp Require Export base list gmap numbers option sorting.
From Stdlib Require Export ZArith Lia.

#[export] Set Default Goal Selector "!".

Declare Scope az_scope.
Delimit Scope az_scope with az.
Global Open Scope Z_scope.
Global Open Scope az_scope.

(** ** Control flow

    [option] is the result of running a piece of C++: [None] stands for a run that the program
    does not survive, an [ASSERT]/[UNREACHABLE] of [src/src/common/assert.h] that fails (both
    call [Crash()] in every build type) or an access the language leaves undefined (a null
    pointer, an index outside a [std::array]).  Error codes are not [None]: they are values of
    [Result] (file [BitField]). *)

Definition assert_ (b : bool) : option unit := if b then Some tt else None.

Notation "'ASSERT' b ;; k" := (assert_ b ≫= λ _, k)
  (at level 100, b at level 99, k at level 200, right associativity) : az_scope.

(** ** Machine integers

    A w-bit unsigned value is a [Z] in [0, 2^w); conversions reduce modulo 2^w, as C++ does. *)

Definition u8 (z : Z) : Z := z `mod` 2 ^ 8.
Definition u16 (z : Z) : Z := z `mod` 2 ^ 16.
Definition u32 (z : Z) : Z := z `mod` 2 ^ 32.
Definition u64 (z : Z) : Z := z `mod` 2 ^ 64.

Definition swrap (w : Z) (z : Z) : Z := (z + 2 ^ (w - 1)) `mod` 2 ^ w - 2 ^ (w - 1).
Definition s16 (z : Z) : Z := swrap 16 z.
Definition s32 (z : Z) : Z := swrap 32 z.
Definition s64 (z : Z) : Z := swrap 64 z.

(** [x] lies in the half-open interval [lo, hi). *)
Definition in_range (lo hi x : Z) : bool := (lo <=? x) && (x <? hi).

(** A bit field of [width] bits that starts at bit [pos], as [src/src/common/bit_field.h] reads
    one from its storage. *)
Definition bits (pos width x : Z) : Z := Z.land (Z.shiftr x pos) (Z.ones width).

(** ** Tactics *)

Ltac destruct_bools :=
  repeat match goal with
  | H : _ && _ = true |- _ => apply andb_true_iff in H; destruct H
  | H : _ || _ = false |- _ => apply orb_false_iff in H; destruct H
  | H : negb _ = true |- _ => apply negb_true_iff in H
  | H : negb _ = false |- _ => apply negb_false_iff in H
  | H : bool_decide _ = true |- _ => apply bool_decide_eq_true in H
  | H : bool_decide _ = false |- _ => apply bool_decide_eq_false in H
  end.

(** [inv_opt] opens the monadic hypotheses of the context: a bind that returned [Some] ran both
    of its halves. *)
Ltac inv_opt_step :=
  match goal with
  | H : Some _ = Some _ |- _ => injection H as H
  | H : assert_ ?b = Some _ |- _ => destruct b eqn:?; simpl in H; [clear H | discriminate H]
  | H : ?m ≫= _ = Some _ |- _ =>
      let E := fresh "E" in destruct m eqn:E; simpl in H; [| discriminate H]
  end.
Ltac inv_opt := repeat (inv_opt_step; simplify_eq); destruct_bools.

Create HintDb az discriminated.

Section Integers.

Lemma u32_range z : 0 <= u32 z < 2 ^ 32.
Proof. apply Z.mod_pos_bound. lia. Qed.

Lemma u16_range z : 0 <= u16 z < 2 ^ 16.
Proof. apply Z.mod_pos_bound. lia. Qed.

Lemma u64_range z : 0 <= u64 z < 2 ^ 64.
Proof. apply Z.mod_pos_bound. lia. Qed.

Lemma u32_id z : 0 <= z < 2 ^ 32 → u32 z = z.
Proof. apply Z.mod_small. Qed.

Lemma u16_id z : 0 <= z < 2 ^ 16 → u16 z = z.
Proof. apply Z.mod_small. Qed.

Lemma u64_id z : 0 <= z < 2 ^ 64 → u64 z = z.
Proof. apply Z.mod_small. Qed.

Lemma pow2_double w : 0 < w → 2 ^ w = 2 * 2 ^ (w - 1).
Proof. intros Hw. rewrite <- Z.pow_succ_r by lia. f_equal. lia. Qed.

Lemma swrap_id w z : 0 < w → - 2 ^ (w - 1) <= z < 2 ^ (w - 1) → swrap w z = z.
Proof.
  intros Hw Hz. unfold swrap.
  pose proof (pow2_double w Hw). rewrite Z.mod_small by lia. lia.
Qed.

Lemma swrap_range w z : 0 < w → - 2 ^ (w - 1) <= swrap w z < 2 ^ (w - 1).
Proof.
  intros Hw. unfold swrap.
  pose proof (pow2_double w Hw).
  pose proof (Z.mod_pos_bound (z + 2 ^ (w - 1)) (2 ^ w)). lia.
Qed.

(** Two's complement: the upper half of the range is negative. *)
Lemma swrap_cases w z :
  0 < w → 0 <= z < 2 ^ w → swrap w z = if z <? 2 ^ (w - 1) then z else z - 2 ^ w.
Proof.
  intros Hw Hz. unfold swrap. pose proof (pow2_double w Hw) as E.
  destruct (Z.ltb_spec z (2 ^ (w - 1))).
  - rewrite Z.mod_small by lia. lia.
  - rewrite <- (Z.mod_add _ (-1)) by lia. rewrite Z.mod_small by lia. lia.
Qed.

Lemma mod_pow2_testbit v n i :
  0 <= n → 0 <= i → Z.testbit (v `mod` 2 ^ n) i = (i <? n) && Z.testbit v i.
Proof.
  intros. rewrite <- Z.land_ones by done. rewrite Z.land_spec, Z.testbit_ones_nonneg by lia.
  by rewrite andb_comm.
Qed.

(** Packing a low field and a shifted one: the "or" of disjoint fields is their sum. *)
Lemma lor_shiftl_add a b n : 0 <= n → 0 <= a < 2 ^ n → Z.lor a (Z.shiftl b n) = a + b * 2 ^ n.
Proof.
  intros Hn Ha. rewrite <- Z.shiftl_mul_pow2 by done. symmetry. apply Z.add_nocarry_lor.
  apply Z.bits_inj'. intros i Hi. rewrite Z.land_spec, Z.bits_0.
  destruct (Z.ltb_spec i n) as [Hlt|Hge].
  - rewrite (Z.shiftl_spec_low _ _ _ Hlt). by rewrite andb_false_r.
  - rewrite <- (Z.mod_small a (2 ^ n)) by done. rewrite mod_pow2_testbit by lia.
    by destruct (Z.ltb_spec i n); [lia|].
Qed.

Lemma in_range_iff lo hi x : in_range lo hi x = true ↔ lo <= x < hi.
Proof. unfold in_range. rewrite andb_true_iff, Z.leb_le, Z.ltb_lt. lia. Qed.

Lemma in_range_false lo hi x : in_range lo hi x = false ↔ ~ (lo <= x < hi).
Proof. rewrite <- in_range_iff. destruct (in_range lo hi x); naive_solver. Qed.

End Integers.

#[export] Hint Resolve u32_range u16_range u64_range : az.

Section Lists.
Context {A : Type}.

Lemma insert_Some_length (l : list A) i x y :
  l !! i = Some y → length (<[i := x]> l) = length l.
Proof. intros. apply length_insert. Qed.

Lemma lookup_insert_case (l : list A) i j x y :
  <[i := x]> l !! j = Some y →
  (i = j ∧ y = x ∧ (i < length l)%nat) ∨ (i ≠ j ∧ l !! j = Some y).
Proof.
  intros H. destruct (decide (i = j)) as [<-|Hne].
  - left. apply lookup_lt_Some in H as Hlt. rewrite length_insert in Hlt.
    rewrite list_lookup_insert_eq in H by done. naive_solver.
  - right. rewrite list_lookup_insert_ne in H by done. done.
Qed.

End Lists.
