(* ===== verification/BitField.v ===== *)
(** * Bit fields and result codes
    ([src/src/common/bit_field.h], [src/src/core/hle/result.h],
    [src/src/core/hle/kernel/errors.h])

    [BitField<Position, Bits, T>] is translated over a storage word of [W = 8 * sizeof(T)] bits;
    [Result] packs the four parts of a 3DS result code into such fields.  The theorems give the
    get/set laws of a field (also the signed one, which sign-extends) and the round trip of the
    result codes. *)

From S2P Require Import Prelude.

(** ** [BitField] *)

Section BitFieldOps.
(** [8 * sizeof(T)], [Position], [Bits]. *)
Context (W position bits_ : Z).

Definition bf_mask : Z :=
  Z.shiftl (Z.shiftr (2 ^ W - 1) (W - bits_)) position `mod` 2 ^ W.

Definition FormatValue (value : Z) : Z :=
  Z.land (Z.shiftl (value `mod` 2 ^ W) position `mod` 2 ^ W) bf_mask.

(** [ExtractValue] for an unsigned underlying type. *)
Definition ExtractValue (storage : Z) : Z := Z.shiftr (Z.land storage bf_mask) position.

(** [ExtractValue] for a signed underlying type: shift the field to the top of the word, convert
    to the signed type and shift back arithmetically. *)
Definition ExtractValue_signed (storage : Z) : Z :=
  let shift := W - bits_ in
  Z.shiftr (swrap W (Z.shiftl storage (shift - position) `mod` 2 ^ W)) shift.

Definition Assign (value : Z) (storage : Z) : Z :=
  Z.lor (Z.land storage (Z.lnot bf_mask `mod` 2 ^ W)) (FormatValue value).

End BitFieldOps.

(** ** [Result] *)

Definition description_of (raw : Z) : Z := ExtractValue 32 0 10 raw.
Definition module_of (raw : Z) : Z := ExtractValue 32 10 8 raw.
Definition summary_of (raw : Z) : Z := ExtractValue 32 21 6 raw.
Definition level_of (raw : Z) : Z := ExtractValue 32 27 5 raw.

Definition mkResult (description module summary level : Z) : Z :=
  Z.lor (Z.lor (Z.lor (FormatValue 32 0 10 description) (FormatValue 32 10 8 module))
           (FormatValue 32 21 6 summary)) (FormatValue 32 27 5 level).

Definition IsSuccess (raw : Z) : bool := ExtractValue 32 31 1 raw =? 0.
Definition IsError (raw : Z) : bool := ExtractValue 32 31 1 raw =? 1.

Definition ResultSuccess : Z := 0.
Definition ResultUnknown : Z := 2 ^ 32 - 1.

(** The error modules, summaries and levels the kernel uses. *)
Definition ErrorModule_Kernel : Z := 1.
Definition ErrorModule_OS : Z := 6.
Definition ErrorModule_FND : Z := 36.
Definition ErrorSummary_WouldBlock : Z := 2.
Definition ErrorSummary_OutOfResource : Z := 3.
Definition ErrorSummary_NotFound : Z := 4.
Definition ErrorSummary_InvalidState : Z := 5.
Definition ErrorSummary_InvalidArgument : Z := 7.
Definition ErrorSummary_WrongArgument : Z := 8.
Definition ErrorSummary_Canceled : Z := 9.
Definition ErrorSummary_StatusChanged : Z := 10.
Definition ErrorLevel_Info : Z := 1.
Definition ErrorLevel_Status : Z := 25.
Definition ErrorLevel_Temporary : Z := 26.
Definition ErrorLevel_Permanent : Z := 27.
Definition ErrorLevel_Usage : Z := 28.

Definition ResultOutOfHandles : Z :=
  mkResult 19 ErrorModule_Kernel ErrorSummary_OutOfResource ErrorLevel_Permanent.
Definition ResultSessionClosed : Z :=
  mkResult 26 ErrorModule_OS ErrorSummary_Canceled ErrorLevel_Status.
Definition ResultPortNameTooLong : Z :=
  mkResult 30 ErrorModule_OS ErrorSummary_InvalidArgument ErrorLevel_Usage.
Definition ResultMaxConnectionsReached : Z :=
  mkResult 52 ErrorModule_OS ErrorSummary_WouldBlock ErrorLevel_Temporary.
Definition ResultNotAuthorized : Z :=
  mkResult 1002 ErrorModule_OS ErrorSummary_WrongArgument ErrorLevel_Permanent.
Definition ResultInvalidEnumValueFnd : Z :=
  mkResult 1005 ErrorModule_FND ErrorSummary_InvalidArgument ErrorLevel_Permanent.
Definition ResultCommandTooLarge : Z :=
  mkResult 54 ErrorModule_OS ErrorSummary_InvalidState ErrorLevel_Status.
Definition ResultWrongPermission : Z :=
  mkResult 46 ErrorModule_OS ErrorSummary_WrongArgument ErrorLevel_Permanent.
Definition ResultInvalidCombination : Z :=
  mkResult 1006 ErrorModule_OS ErrorSummary_InvalidArgument ErrorLevel_Usage.
Definition ResultInvalidCombinationKernel : Z :=
  mkResult 1006 ErrorModule_Kernel ErrorSummary_WrongArgument ErrorLevel_Permanent.
Definition ResultMisalignedAddress : Z :=
  mkResult 1009 ErrorModule_OS ErrorSummary_InvalidArgument ErrorLevel_Usage.
Definition ResultMisalignedSize : Z :=
  mkResult 1010 ErrorModule_OS ErrorSummary_InvalidArgument ErrorLevel_Usage.
Definition ResultOutOfMemory : Z :=
  mkResult 1011 ErrorModule_Kernel ErrorSummary_OutOfResource ErrorLevel_Permanent.
Definition ResultOutOfHeapMemory : Z :=
  mkResult 1011 ErrorModule_OS ErrorSummary_OutOfResource ErrorLevel_Status.
Definition ResultInvalidAddress : Z :=
  mkResult 1013 ErrorModule_OS ErrorSummary_InvalidArgument ErrorLevel_Usage.
Definition ResultInvalidAddressState : Z :=
  mkResult 1013 ErrorModule_OS ErrorSummary_InvalidState ErrorLevel_Usage.
Definition ResultInvalidPointer : Z :=
  mkResult 1014 ErrorModule_Kernel ErrorSummary_InvalidArgument ErrorLevel_Permanent.
Definition ResultInvalidHandle : Z :=
  mkResult 1015 ErrorModule_Kernel ErrorSummary_InvalidArgument ErrorLevel_Permanent.
Definition ResultNotFound : Z :=
  mkResult 1018 ErrorModule_Kernel ErrorSummary_NotFound ErrorLevel_Permanent.
Definition ResultOutOfRange : Z :=
  mkResult 1021 ErrorModule_OS ErrorSummary_InvalidArgument ErrorLevel_Usage.
Definition ResultOutOfRangeKernel : Z :=
  mkResult 1021 ErrorModule_Kernel ErrorSummary_InvalidArgument ErrorLevel_Permanent.
Definition ResultTimeout : Z :=
  mkResult 1022 ErrorModule_OS ErrorSummary_StatusChanged ErrorLevel_Info.
Definition ResultNoPendingSessions : Z :=
  mkResult 35 ErrorModule_OS ErrorSummary_WouldBlock ErrorLevel_Permanent.

(** [ResultVal<T>]: a value, or the raw code of an error ([Common::Expected]). *)
Definition ResultVal (A : Type) : Type := Z + A.

(** ** Proofs *)

Section BitFieldProofs.
Context (W position bits_ : Z).
Context (Hpos : 0 <= position) (Hbits : 0 < bits_) (Hfit : position + bits_ <= W).

Lemma bf_mask_testbit i :
  0 <= i → Z.testbit (bf_mask W position bits_) i = in_range position (position + bits_) i.
Proof.
  intros Hi. unfold bf_mask.
  replace (2 ^ W - 1) with (Z.ones W) by (rewrite Z.ones_equiv; lia).
  rewrite <- Z.land_ones by lia. rewrite Z.land_spec, Z.testbit_ones_nonneg by lia.
  destruct (Z.ltb_spec i W); [rewrite andb_true_r|].
  - destruct (Z.ltb_spec i position).
    + rewrite Z.shiftl_spec_low by lia. symmetry. apply in_range_false. lia.
    + rewrite Z.shiftl_spec by lia. rewrite Z.shiftr_spec by lia.
      rewrite Z.testbit_ones_nonneg by lia. apply Bool.eq_iff_eq_true.
      rewrite in_range_iff, Z.ltb_lt. lia.
  - rewrite andb_false_r. symmetry. apply in_range_false. lia.
Qed.

Lemma FormatValue_testbit v i :
  0 <= i →
  Z.testbit (FormatValue W position bits_ v) i =
  in_range position (position + bits_) i && Z.testbit v (i - position).
Proof.
  intros Hi. unfold FormatValue. rewrite Z.land_spec, bf_mask_testbit by done.
  rewrite mod_pow2_testbit by lia. destruct (in_range position (position + bits_) i) eqn:E;
    [|by rewrite andb_false_r].
  apply in_range_iff in E. rewrite andb_true_r, Z.shiftl_spec by lia.
  rewrite mod_pow2_testbit by lia.
  destruct (Z.ltb_spec i W); [|lia]. destruct (Z.ltb_spec (i - position) W); [done|lia].
Qed.

Lemma ExtractValue_testbit s i :
  0 <= i →
  Z.testbit (ExtractValue W position bits_ s) i = (i <? bits_) && Z.testbit s (i + position).
Proof.
  intros Hi. unfold ExtractValue. rewrite Z.shiftr_spec, Z.land_spec, bf_mask_testbit by lia.
  rewrite andb_comm. f_equal. apply Bool.eq_iff_eq_true. rewrite in_range_iff, Z.ltb_lt. lia.
Qed.

(** The field as a number: [Bits] bits of the storage from [Position]. *)
Lemma ExtractValue_spec s : ExtractValue W position bits_ s = Z.shiftr s position `mod` 2 ^ bits_.
Proof.
  apply Z.bits_inj'. intros i Hi. rewrite ExtractValue_testbit, mod_pow2_testbit by lia.
  by rewrite Z.shiftr_spec.
Qed.

Lemma Assign_testbit v s i :
  0 <= i → 0 <= s < 2 ^ W →
  Z.testbit (Assign W position bits_ v s) i =
  if in_range position (position + bits_) i then Z.testbit v (i - position) else Z.testbit s i.
Proof.
  intros Hi Hs. unfold Assign.
  rewrite Z.lor_spec, Z.land_spec, FormatValue_testbit, mod_pow2_testbit by lia.
  rewrite Z.lnot_spec, bf_mask_testbit by lia.
  destruct (in_range position (position + bits_) i) eqn:E; simpl.
  - by rewrite andb_false_r, andb_false_r.
  - rewrite andb_true_r, orb_false_r. destruct (Z.ltb_spec i W) as [|Hge]; [by rewrite andb_true_r|].
    rewrite andb_false_r. symmetry. rewrite <- (Z.mod_small s (2 ^ W)) by done.
    rewrite mod_pow2_testbit by lia. by destruct (Z.ltb_spec i W); [lia|].
Qed.

Lemma ExtractValue_Assign v s :
  0 <= s < 2 ^ W → ExtractValue W position bits_ (Assign W position bits_ v s) = v `mod` 2 ^ bits_.
Proof.
  intros Hs. apply Z.bits_inj'. intros i Hi.
  rewrite ExtractValue_testbit, Assign_testbit, mod_pow2_testbit by lia.
  destruct (Z.ltb_spec i bits_); [|done]. simpl.
  rewrite (proj2 (in_range_iff _ _ _)) by lia. f_equal. lia.
Qed.

(** The signed field is the unsigned one, sign extended. *)
Lemma ExtractValue_signed_spec s :
  ExtractValue_signed W position bits_ s = swrap bits_ (ExtractValue W position bits_ s).
Proof.
  unfold ExtractValue_signed. set (shift := W - bits_).
  set (X := Z.shiftl s (shift - position) `mod` 2 ^ W).
  assert (Z.shiftr X shift = ExtractValue W position bits_ s) as EX.
  { apply Z.bits_inj'. intros i Hi. rewrite ExtractValue_testbit, Z.shiftr_spec by lia.
    unfold X. rewrite mod_pow2_testbit by lia. rewrite Z.shiftl_spec by lia.
    f_equal; [apply Bool.eq_iff_eq_true; rewrite !Z.ltb_lt; lia|f_equal; lia]. }
  assert (0 <= X < 2 ^ W) as HX by (apply Z.mod_pos_bound; lia).
  assert (0 <= ExtractValue W position bits_ s < 2 ^ bits_) as HV
    by (rewrite ExtractValue_spec; apply Z.mod_pos_bound; lia).
  rewrite (swrap_cases W X), (swrap_cases bits_) by lia.
  rewrite Z.shiftr_div_pow2 in * by lia.
  assert (2 ^ W = 2 ^ bits_ * 2 ^ shift) as EW.
  { rewrite <- Z.pow_add_r by lia. f_equal. lia. }
  assert (2 ^ (W - 1) = 2 ^ (bits_ - 1) * 2 ^ shift) as EH.
  { rewrite <- Z.pow_add_r by lia. f_equal. lia. }
  assert (0 < 2 ^ shift) by lia.
  assert (X < 2 ^ (W - 1) ↔ ExtractValue W position bits_ s < 2 ^ (bits_ - 1)) as Hsign.
  { rewrite <- EX, EH. rewrite (Z.mul_comm _ (2 ^ shift)). split; intros.
    - by apply Z.div_lt_upper_bound.
    - apply Z.nle_gt. intros Hle. apply Z.div_le_lower_bound in Hle; lia. }
  destruct (Z.ltb_spec X (2 ^ (W - 1))), (Z.ltb_spec (ExtractValue W position bits_ s) (2 ^ (bits_ - 1)));
    try lia.
  rewrite EW. replace (X - 2 ^ bits_ * 2 ^ shift) with (X + (- 2 ^ bits_) * 2 ^ shift) by lia.
  rewrite Z.div_add by lia. lia.
Qed.

End BitFieldProofs.

Lemma ExtractValue_Assign_other W p b p' b' v s :
  0 <= p → 0 < b → p + b <= W → 0 <= p' → 0 < b' → p' + b' <= W →
  p + b <= p' ∨ p' + b' <= p → 0 <= s < 2 ^ W →
  ExtractValue W p' b' (Assign W p b v s) = ExtractValue W p' b' s.
Proof.
  intros ? ? ? ? ? ? Hdisj Hs. apply Z.bits_inj'. intros i Hi.
  rewrite !ExtractValue_testbit by lia. destruct (Z.ltb_spec i b'); [|done]. simpl.
  rewrite Assign_testbit by lia. rewrite (proj2 (in_range_false _ _ _)) by lia. done.
Qed.

(** A field read back from a union of formatted fields. *)
Lemma ExtractValue_lor W p b x y :
  0 <= p → 0 < b → p + b <= W →
  ExtractValue W p b (Z.lor x y) = Z.lor (ExtractValue W p b x) (ExtractValue W p b y).
Proof.
  intros. apply Z.bits_inj'. intros i Hi. rewrite Z.lor_spec, !ExtractValue_testbit by lia.
  rewrite Z.lor_spec. by destruct (i <? b).
Qed.

Lemma ExtractValue_Format_same W p b v :
  0 <= p → 0 < b → p + b <= W → ExtractValue W p b (FormatValue W p b v) = v `mod` 2 ^ b.
Proof.
  intros. apply Z.bits_inj'. intros i Hi. rewrite ExtractValue_testbit, FormatValue_testbit by lia.
  rewrite mod_pow2_testbit by lia. destruct (Z.ltb_spec i b); [|done].
  rewrite (proj2 (in_range_iff _ _ _)) by lia. simpl. f_equal. lia.
Qed.

Lemma ExtractValue_Format_other W p b p' b' v :
  0 <= p → 0 < b → p + b <= W → 0 <= p' → 0 < b' → p' + b' <= W →
  p + b <= p' ∨ p' + b' <= p → ExtractValue W p' b' (FormatValue W p b v) = 0.
Proof.
  intros. apply Z.bits_inj'. intros i Hi. rewrite ExtractValue_testbit, FormatValue_testbit by lia.
  rewrite Z.bits_0. destruct (Z.ltb_spec i b'); [|done].
  rewrite (proj2 (in_range_false _ _ _)) by lia. done.
Qed.

(** ** Theorems *)

(** The get/set laws of [BitField]: after [Assign] the field reads back the assigned value
    truncated to its width, sign-extended when its type is signed, and every other field that
    does not overlap it reads as before. *)
Theorem bitfield_get_set W p b v s :
  0 <= p → 0 < b → p + b <= W → 0 <= s < 2 ^ W →
  ExtractValue W p b (Assign W p b v s) = v `mod` 2 ^ b ∧
  ExtractValue_signed W p b (Assign W p b v s) = swrap b (v `mod` 2 ^ b) ∧
  ∀ p' b', 0 <= p' → 0 < b' → p' + b' <= W → p + b <= p' ∨ p' + b' <= p →
    ExtractValue W p' b' (Assign W p b v s) = ExtractValue W p' b' s.
Proof.
  intros. split_and!.
  - by apply ExtractValue_Assign.
  - rewrite ExtractValue_signed_spec by lia. by rewrite ExtractValue_Assign.
  - intros. by apply ExtractValue_Assign_other.
Qed.

(** A result code built from its four parts reads back those parts, and it is an error
    exactly when its level is 16 or more, the levels from [Status] to [Fatal]. *)
Theorem result_code_roundtrip d m s l :
  0 <= d < 2 ^ 10 → 0 <= m < 2 ^ 8 → 0 <= s < 2 ^ 6 → 0 <= l < 2 ^ 5 →
  description_of (mkResult d m s l) = d ∧ module_of (mkResult d m s l) = m ∧
  summary_of (mkResult d m s l) = s ∧ level_of (mkResult d m s l) = l ∧
  IsError (mkResult d m s l) = (16 <=? l) ∧
  IsSuccess (mkResult d m s l) = negb (IsError (mkResult d m s l)).
Proof.
  intros Hd Hm Hs Hl. unfold description_of, module_of, summary_of, level_of, mkResult.
  rewrite !ExtractValue_lor by lia. rewrite !ExtractValue_Format_same by lia.
  rewrite !Z.mod_small by lia.
  rewrite (ExtractValue_Format_other 32 0 10 10 8), (ExtractValue_Format_other 32 0 10 21 6),
    (ExtractValue_Format_other 32 0 10 27 5), (ExtractValue_Format_other 32 10 8 0 10),
    (ExtractValue_Format_other 32 10 8 21 6), (ExtractValue_Format_other 32 10 8 27 5),
    (ExtractValue_Format_other 32 21 6 0 10), (ExtractValue_Format_other 32 21 6 10 8),
    (ExtractValue_Format_other 32 21 6 27 5), (ExtractValue_Format_other 32 27 5 0 10),
    (ExtractValue_Format_other 32 27 5 10 8), (ExtractValue_Format_other 32 27 5 21 6) by lia.
  unfold IsError, IsSuccess. rewrite !ExtractValue_lor by lia.
  rewrite (ExtractValue_Format_other 32 0 10 31 1), (ExtractValue_Format_other 32 10 8 31 1),
    (ExtractValue_Format_other 32 21 6 31 1) by lia.
  rewrite !Z.lor_0_l, !Z.lor_0_r.
  assert (ExtractValue 32 31 1 (FormatValue 32 27 5 l) = l / 16) as ->.
  { rewrite ExtractValue_spec by lia. replace (FormatValue 32 27 5 l) with (l * 2 ^ 27).
    - rewrite Z.shiftr_div_pow2 by lia. change (2 ^ 31) with (16 * 2 ^ 27).
      rewrite Z.div_mul_cancel_r by lia. apply Z.mod_small.
      split; [apply Z.div_pos; lia|]. apply Z.div_lt_upper_bound; lia.
    - rewrite <- Z.shiftl_mul_pow2 by lia. apply Z.bits_inj'. intros i Hi.
      rewrite FormatValue_testbit by lia. destruct (Z.ltb_spec i 27).
      + rewrite Z.shiftl_spec_low by lia. by rewrite (proj2 (in_range_false _ _ _)) by lia.
      + rewrite Z.shiftl_spec by lia. destruct (in_range 27 (27 + 5) i) eqn:E; [done|].
        apply in_range_false in E. rewrite <- (Z.mod_small l (2 ^ 5)) by lia.
        rewrite mod_pow2_testbit by lia. by destruct (Z.ltb_spec (i - 27) 5); [lia|]. }
  split_and!; try done.
  - apply Bool.eq_iff_eq_true. rewrite Z.eqb_eq, Z.leb_le.
    pose proof (Z.div_mod l 16). pose proof (Z.mod_pos_bound l 16). lia.
  - apply Bool.eq_iff_eq_true. rewrite negb_true_iff, Z.eqb_eq, Z.eqb_neq.
    pose proof (Z.div_mod l 16). pose proof (Z.mod_pos_bound l 16). lia.
Qed.

(** The kernel's result codes have the raw values the comments of errors.h give, except
    [ResultOutOfHeapMemory]: its comment says 0xC860180A and the constant is 0xC8601BF3, because
    it is built from the common description [OutOfMemory] (1011) and not from 10. *)
Theorem kernel_result_codes :
  [ResultOutOfHandles; ResultSessionClosed; ResultPortNameTooLong; ResultMaxConnectionsReached;
   ResultNotAuthorized; ResultInvalidEnumValueFnd; ResultInvalidCombination;
   ResultInvalidCombinationKernel; ResultMisalignedAddress; ResultMisalignedSize;
   ResultOutOfMemory; ResultInvalidAddress; ResultInvalidAddressState; ResultInvalidPointer; ResultInvalidHandle;
   ResultNotFound; ResultOutOfRange; ResultOutOfRangeKernel; ResultNoPendingSessions] =
  [0xD8600413; 0xC920181A; 0xE0E0181E; 0xD0401834; 0xD9001BEA; 0xD8E093ED; 0xE0E01BEE;
   0xD90007EE; 0xE0E01BF1; 0xE0E01BF2; 0xD86007F3; 0xE0E01BF5; 0xE0A01BF5; 0xD8E007F6; 0xD8E007F7;
   0xD88007FA; 0xE0E01BFD; 0xD8E007FD; 0xD8401823] ∧
  ResultOutOfHeapMemory = 0xC8601BF3 ∧ ResultOutOfHeapMemory ≠ 0xC860180A ∧
  IsSuccess ResultTimeout = true.
Proof. vm_compute. done. Qed.

(** ** Witnesses *)

Lemma bitfield_get_set_witness :
  ExtractValue 32 27 5 (Assign 32 27 5 27 0xE0E01BF5) = 27 ∧
  ExtractValue 32 0 10 (Assign 32 27 5 27 0xE0E01BF5) = 1013.
Proof.
  destruct (bitfield_get_set 32 27 5 27 0xE0E01BF5) as (H1 & _ & H3); try lia.
  split; [exact H1|]. rewrite H3; [reflexivity|lia..].
Defined.

Lemma result_code_roundtrip_witness :
  module_of (mkResult 1013 6 7 28) = 6 ∧ IsError (mkResult 1013 6 7 28) = true.
Proof.
  destruct (result_code_roundtrip 1013 6 7 28) as (_ & H & _ & _ & E & _); try lia.
  split; [exact H|exact E].
Defined.
