(* ===== verification/HandleTable.v ===== *)
(** * The handle table of a process
    ([src/src/core/hle/kernel/handle_table.h], [handle_table.cpp])

    Two arrays of 4096 slots.  A slot that is in use holds an object and the generation its
    handle was given; the generations of the free slots are a linked list of free slots.  A
    handle is [generation | slot << 15].

    The abstract table is a finite map from handles to objects.  The theorems: the arrays refine
    the map on every branch of every operation; a handle that was closed stays invalid for 32766
    more creations; and the slot of a handle is truncated to 16 bits, so that bit 31 of a handle
    is ignored. *)

From S2P Require Import Prelude BitField.

Definition MAX_COUNT : nat := Z.to_nat 4096.

Definition CurrentThread : Z := 0xFFFF8000.
Definition CurrentProcess : Z := 0xFFFF8001.

(** Both helpers return [u16]. *)
Definition GetSlot (handle : Z) : Z := u16 (Z.shiftr handle 15).
Definition GetGeneration (handle : Z) : Z := u16 (Z.land handle 0x7FFF).

(** [objects] holds null ([None]) in the free slots. *)
Record HandleTable (Obj : Type) := mkTable {
  objects : list (option Obj);
  generations : list Z;
  next_generation : Z;
  next_free_slot : Z;
}.
Arguments mkTable {Obj} _ _ _ _.
Arguments objects {Obj} _.
Arguments generations {Obj} _.
Arguments next_generation {Obj} _.
Arguments next_free_slot {Obj} _.

Section Operations.
Context {Obj : Type}.
(** The objects the pseudo handles stand for ([kernel.GetCurrentThreadManager()] and
    [kernel.GetCurrentProcess()]); either may be null. *)
Context (current_thread current_process : option Obj).
Implicit Types t : HandleTable Obj.

Definition Clear t : HandleTable Obj :=
  mkTable (replicate MAX_COUNT None) (Z.of_nat <$> seq 1 MAX_COUNT) (next_generation t) 0.

(** The constructor. *)
Definition HandleTable_new : HandleTable Obj := Clear (mkTable [] [] 1 0).

Definition Create (obj : option Obj) t : option (ResultVal Z * HandleTable Obj) :=
  let slot := next_free_slot t in
  if slot <? Z.of_nat (length (generations t)) then
    next_free ← generations t !! Z.to_nat slot;
    let generation := next_generation t in
    let next_gen := u16 (next_generation t + 1) in
    let next_gen := if Z.shiftl 1 15 <=? next_gen then 1 else next_gen in
    Some (inr (Z.lor generation (Z.shiftl slot 15)),
          mkTable (<[Z.to_nat slot := obj]> (objects t))
                  (<[Z.to_nat slot := generation]> (generations t)) next_gen next_free)
  else Some (inl ResultOutOfHandles, t).

Definition IsValid (handle : Z) t : bool :=
  let slot := GetSlot handle in
  let generation := GetGeneration handle in
  match objects t !! Z.to_nat slot, generations t !! Z.to_nat slot with
  | Some (Some _), Some g => (slot <? Z.of_nat MAX_COUNT) && (g =? generation)
  | _, _ => false
  end.

Definition GetGeneric (handle : Z) t : option Obj :=
  if handle =? CurrentThread then current_thread
  else if handle =? CurrentProcess then current_process
  else if IsValid handle t then mjoin (objects t !! Z.to_nat (GetSlot handle))
  else None.

Definition Duplicate (handle : Z) t : option (ResultVal Z * HandleTable Obj) :=
  match GetGeneric handle t with
  | Some object => Create (Some object) t
  | None => Some (inl ResultInvalidHandle, t)
  end.

(** Returns the result code. *)
Definition Close (handle : Z) t : Z * HandleTable Obj :=
  if IsValid handle t then
    let slot := GetSlot handle in
    (ResultSuccess,
     mkTable (<[Z.to_nat slot := None]> (objects t))
             (<[Z.to_nat slot := next_free_slot t]> (generations t))
             (next_generation t) slot)
  else (ResultInvalidHandle, t).

(** ** The abstract table *)

(** The handle of a slot and a generation, and the handle a 32-bit value is looked up as. *)
Definition mk_handle (slot generation : Z) : Z := Z.lor generation (Z.shiftl slot 15).
Definition canonical (handle : Z) : Z := handle `mod` 2 ^ 31.

(** [free_list gs s fl]: following [generations] from [s] visits the free slots [fl]. *)
Fixpoint free_list (gs : list Z) (s : Z) (fl : list nat) : Prop :=
  match fl with
  | [] => s = Z.of_nat MAX_COUNT
  | i :: fl => s = Z.of_nat i ∧ ∃ s', gs !! i = Some s' ∧ free_list gs s' fl
  end.

Record table_inv t : Prop := {
  inv_objects : length (objects t) = MAX_COUNT;
  inv_generations : length (generations t) = MAX_COUNT;
  inv_next : 1 <= next_generation t < 2 ^ 15;
  inv_free : ∃ fl, free_list (generations t) (next_free_slot t) fl ∧ NoDup fl ∧
                   ∀ i, i ∈ fl ↔ objects t !! i = Some None;
  inv_used : ∀ i o, objects t !! i = Some (Some o) →
               ∃ g, generations t !! i = Some g ∧ 1 <= g < 2 ^ 15;
}.

(** The map of the open handles. *)
Definition open_handle t (h : Z) (o : Obj) : Prop :=
  ∃ i g, h = mk_handle (Z.of_nat i) g ∧ objects t !! i = Some (Some o) ∧
         generations t !! i = Some g.
Definition table_rep t (m : gmap Z Obj) : Prop :=
  table_inv t ∧ ∀ h o, m !! h = Some o ↔ open_handle t h o.

(** Traces of calls; a crash of [Create] cannot happen on a well-formed table. *)
Inductive hop : Type :=
| HCreate (o : Obj)
| HDuplicate (h : Z)
| HClose (h : Z)
| HClear.
Definition hrun (op : hop) t : option (HandleTable Obj) :=
  match op with
  | HCreate o => snd <$> Create (Some o) t
  | HDuplicate h => snd <$> Duplicate h t
  | HClose h => Some (Close h t).2
  | HClear => Some (Clear t)
  end.
Fixpoint hruns (ops : list hop) t : option (HandleTable Obj) :=
  match ops with [] => Some t | op :: ops => t ← hrun op t; hruns ops t end.

End Operations.
Arguments hop Obj : clear implicits.

(** ** Proofs *)

Section Handles.

Lemma MAX_COUNT_Z : Z.of_nat MAX_COUNT = 4096.
Proof. unfold MAX_COUNT. by rewrite Z2Nat.id by lia. Qed.

Lemma mk_handle_add s g : 0 <= g < 2 ^ 15 → mk_handle s g = g + s * 2 ^ 15.
Proof. intros Hg. unfold mk_handle. apply lor_shiftl_add; lia. Qed.

Lemma GetSlot_spec h : GetSlot h = canonical h / 2 ^ 15.
Proof.
  unfold GetSlot, canonical, u16. rewrite Z.shiftr_div_pow2 by lia.
  change (2 ^ 31) with (2 ^ 15 * 2 ^ 16). rewrite Z.rem_mul_r by lia.
  rewrite (Z.mul_comm (2 ^ 15)), Z.div_add by lia.
  rewrite (Z.div_small (h `mod` 2 ^ 15)); [by rewrite Z.add_0_l|]. apply Z.mod_pos_bound. lia.
Qed.

Lemma GetGeneration_spec h : GetGeneration h = canonical h `mod` 2 ^ 15.
Proof.
  unfold GetGeneration, canonical. change 0x7FFF with (Z.ones 15). rewrite Z.land_ones by lia.
  pose proof (Z.mod_pos_bound h (2 ^ 15)). rewrite u16_id by lia.
  change (2 ^ 31) with (2 ^ 15 * 2 ^ 16). rewrite Z.rem_mul_r by lia.
  rewrite (Z.mul_comm (2 ^ 15)), Z.mod_add by lia. rewrite Z.mod_mod by lia. done.
Qed.

(** A handle names its slot and its generation. *)
Lemma canonical_mk_handle h : canonical h = mk_handle (GetSlot h) (GetGeneration h).
Proof.
  rewrite GetSlot_spec, GetGeneration_spec.
  rewrite mk_handle_add by (apply Z.mod_pos_bound; lia).
  pose proof (Z.div_mod (canonical h) (2 ^ 15)). lia.
Qed.

Lemma mk_handle_inj s g s' g' :
  0 <= g < 2 ^ 15 → 0 <= g' < 2 ^ 15 → mk_handle s g = mk_handle s' g' → s = s' ∧ g = g'.
Proof. intros Hg Hg'. rewrite !mk_handle_add by done. lia. Qed.

Lemma GetSlot_range h : 0 <= GetSlot h < 2 ^ 16.
Proof. apply u16_range. Qed.

Lemma GetGeneration_range h : 0 <= GetGeneration h < 2 ^ 15.
Proof. rewrite GetGeneration_spec. apply Z.mod_pos_bound. lia. Qed.

End Handles.

Section Proofs.
Context {Obj : Type} (current_thread current_process : option Obj).
Implicit Types t : HandleTable Obj.

Lemma IsValid_iff h t :
  table_inv t →
  IsValid h t = true ↔
  ∃ o, objects t !! Z.to_nat (GetSlot h) = Some (Some o) ∧
       generations t !! Z.to_nat (GetSlot h) = Some (GetGeneration h).
Proof.
  intros Hinv. unfold IsValid. pose proof (GetSlot_range h).
  destruct (objects t !! _) as [[o|]|] eqn:Ho; [|naive_solver..].
  destruct (inv_used t Hinv _ _ Ho) as (g & Hg & _). rewrite Hg.
  apply lookup_lt_Some in Ho. rewrite (inv_objects t Hinv) in Ho.
  rewrite andb_true_iff, Z.ltb_lt, Z.eqb_eq. naive_solver lia.
Qed.

(** A 32-bit value is valid when the handle it is read as is open. *)
Lemma IsValid_open h t :
  table_inv t → IsValid h t = true ↔ ∃ o, open_handle t (canonical h) o.
Proof.
  intros Hinv. rewrite IsValid_iff by done.
  pose proof (GetSlot_range h). pose proof (GetGeneration_range h).
  rewrite canonical_mk_handle. split.
  - intros (o & Ho & Hg). exists o, (Z.to_nat (GetSlot h)), (GetGeneration h).
    by rewrite Z2Nat.id by lia.
  - intros (o & i & g & E & Ho & Hg). exists o.
    destruct (inv_used t Hinv _ _ Ho) as (g' & Hg' & Hr). simplify_eq.
    apply mk_handle_inj in E as [E1 E2]; [|lia..]. rewrite E1, E2, Nat2Z.id. done.
Qed.

Lemma open_handle_fun t h o o' :
  table_inv t → open_handle t h o → open_handle t h o' → o = o'.
Proof.
  intros Hinv (i & g & -> & Ho & Hg) (i' & g' & E & Ho' & Hg').
  destruct (inv_used t Hinv _ _ Ho) as (? & ? & ?).
  destruct (inv_used t Hinv _ _ Ho') as (? & ? & ?). simplify_eq.
  apply mk_handle_inj in E as [E ->]; [|lia..]. apply Nat2Z.inj in E. by simplify_eq.
Qed.

Lemma GetGeneric_open h t o :
  table_inv t → h ≠ CurrentThread → h ≠ CurrentProcess →
  GetGeneric current_thread current_process h t = Some o ↔ open_handle t (canonical h) o.
Proof.
  intros Hinv H1 H2. unfold GetGeneric.
  rewrite (proj2 (Z.eqb_neq _ _) H1), (proj2 (Z.eqb_neq _ _) H2).
  pose proof (GetSlot_range h). pose proof (GetGeneration_range h).
  destruct (IsValid h t) eqn:Hv.
  - apply IsValid_iff in Hv as (o' & Ho' & Hg'); [|done]. rewrite Ho'. simpl.
    assert (open_handle t (canonical h) o').
    { rewrite canonical_mk_handle. exists (Z.to_nat (GetSlot h)), (GetGeneration h).
      by rewrite Z2Nat.id by lia. }
    split; [by intros; simplify_eq|]. intros Ho. f_equal. by eapply open_handle_fun.
  - split; [done|]. intros Ho.
    assert (IsValid h t = true) by (apply IsValid_open; eauto). congruence.
Qed.

(** *** The free list *)

Lemma free_list_ext gs gs' s fl :
  (∀ i, i ∈ fl → gs' !! i = gs !! i) → free_list gs s fl → free_list gs' s fl.
Proof.
  revert s. induction fl as [|i fl IH]; intros s Heq; [done|]. simpl.
  intros (-> & s' & Hs' & Hfl). split; [done|]. exists s'.
  rewrite Heq by set_solver. split; [done|]. apply IH; [|done]. set_solver.
Qed.

Lemma free_list_seq n k :
  (k <= n)%nat →
  free_list (Z.of_nat <$> seq 1 n) (Z.of_nat (n - k)) (seq (n - k) k) ∨ n ≠ MAX_COUNT.
Proof.
  intros Hk. destruct (decide (n = MAX_COUNT)) as [Hn|]; [left|by right].
  induction k as [|k IH]; simpl; [rewrite Nat.sub_0_r; by rewrite Hn|].
  split; [done|]. exists (Z.of_nat (S (n - S k))). split.
  - rewrite list_lookup_fmap, lookup_seq_lt by lia. done.
  - replace (S (n - S k)) with (n - k)%nat by lia. apply IH. lia.
Qed.

Lemma table_inv_Clear t : 1 <= next_generation t < 2 ^ 15 → table_inv (Clear t).
Proof.
  intros Hn. unfold Clear. split; cbn [objects generations next_generation next_free_slot].
  - apply length_replicate.
  - by rewrite length_fmap, length_seq.
  - done.
  - exists (seq 0 MAX_COUNT). split_and!.
    + destruct (free_list_seq MAX_COUNT MAX_COUNT) as [H|]; [lia| |done].
      by rewrite Nat.sub_diag in H.
    + apply NoDup_seq.
    + intros i. rewrite elem_of_seq, lookup_replicate. naive_solver lia.
  - intros i o Ho. apply lookup_replicate in Ho as [? _]. done.
Qed.

Lemma table_rep_Clear t : 1 <= next_generation t < 2 ^ 15 → table_rep (Clear t) ∅.
Proof.
  intros Hn. split; [by apply table_inv_Clear|]. intros h o. split; [by simplify_map_eq|].
  intros (i & g & _ & Ho & _). apply lookup_replicate in Ho as [? _]. done.
Qed.

Lemma next_gen_range g :
  1 <= g < 2 ^ 15 →
  let n := u16 (g + 1) in 1 <= (if Z.shiftl 1 15 <=? n then 1 else n) < 2 ^ 15.
Proof.
  intros Hg. cbv zeta. rewrite u16_id by lia. change (Z.shiftl 1 15) with (2 ^ 15).
  destruct (Z.leb_spec (2 ^ 15) (g + 1)); lia.
Qed.

(** [Create] on a table with a free slot. *)
Lemma Create_free t m obj i fl :
  table_rep t m → next_free_slot t = Z.of_nat i → objects t !! i = Some None →
  free_list (generations t) (next_free_slot t) (i :: fl) → NoDup (i :: fl) →
  (∀ j, j ∈ i :: fl ↔ objects t !! j = Some None) →
  ∃ t', Create (Some obj) t = Some (inr (mk_handle (Z.of_nat i) (next_generation t)), t') ∧
        m !! mk_handle (Z.of_nat i) (next_generation t) = None ∧
        table_rep t' (<[mk_handle (Z.of_nat i) (next_generation t) := obj]> m).
Proof.
  intros (Hinv & Hm) Hs Hi (_ & s' & Hs' & Hfl) Hnd Hfree.
  pose proof (inv_next t Hinv) as Hn.
  assert (i < MAX_COUNT)%nat as Hlt.
  { rewrite <- (inv_objects t Hinv). by eapply lookup_lt_Some. }
  assert (m !! mk_handle (Z.of_nat i) (next_generation t) = None) as Hfresh.
  { apply eq_None_not_Some. intros (o & Ho). apply Hm in Ho as (i' & g & E & Ho & Hg).
    destruct (inv_used t Hinv _ _ Ho) as (? & ? & ?). simplify_eq.
    apply mk_handle_inj in E as [E _]; [|lia..]. apply Nat2Z.inj in E. by simplify_eq. }
  unfold Create. rewrite Hs, (inv_generations t Hinv), Nat2Z.id.
  destruct (Z.ltb_spec (Z.of_nat i) (Z.of_nat MAX_COUNT)); [|lia]. rewrite Hs'.
  cbn [mbind option_bind]. eexists. split; [done|]. split; [done|].
  rewrite NoDup_cons in Hnd. destruct Hnd as [Hni Hnd]. split.
  - split; cbn [objects generations next_generation next_free_slot].
    + by rewrite length_insert, (inv_objects t Hinv).
    + by rewrite length_insert, (inv_generations t Hinv).
    + by apply next_gen_range.
    + exists fl. split_and!; [|done|].
      * eapply free_list_ext; [|done]. intros j Hj. apply list_lookup_insert_ne. set_solver.
      * intros j. destruct (decide (i = j)) as [<-|Hij].
        -- rewrite list_lookup_insert_eq by by rewrite (inv_objects t Hinv). naive_solver.
        -- rewrite list_lookup_insert_ne by done. rewrite <- Hfree. set_solver.
    + intros j o Hj. destruct (decide (i = j)) as [<-|Hij].
      * rewrite list_lookup_insert_eq by by rewrite (inv_generations t Hinv). eauto.
      * rewrite list_lookup_insert_ne in Hj by done. rewrite list_lookup_insert_ne by done.
        by eapply inv_used.
  - intros h o. rewrite lookup_insert. case_decide as Hh.
    + subst h. split.
      * intros [= ->]. exists i, (next_generation t). split; [done|].
        cbn [objects generations]. rewrite !list_lookup_insert_eq; [done|..].
        -- by rewrite (inv_generations t Hinv).
        -- by rewrite (inv_objects t Hinv).
      * intros (j & g & E & Ho & Hg). cbn [objects generations] in Ho, Hg.
        apply lookup_insert_case in Ho as [(<- & ? & _)|(Hij & Ho)]; [by simplify_eq|].
        rewrite list_lookup_insert_ne in Hg by done.
        destruct (inv_used t Hinv _ _ Ho) as (? & ? & ?). simplify_eq.
        apply mk_handle_inj in E as [E _]; [|lia..]. apply Nat2Z.inj in E. done.
    + rewrite Hm. split; intros (j & g & -> & Ho & Hg); exists j, g; (split; [done|]);
        cbn [objects generations] in *.
      * assert (i ≠ j) by (intros ->; by simplify_eq).
        by rewrite !list_lookup_insert_ne.
      * apply lookup_insert_case in Ho as [(<- & ? & Hl)|(Hij & Ho)].
        -- rewrite list_lookup_insert_eq in Hg by by rewrite (inv_generations t Hinv).
           by simplify_eq.
        -- by rewrite list_lookup_insert_ne in Hg.
Qed.

(** [Create] when every slot is in use. *)
Lemma Create_full t obj :
  next_free_slot t = Z.of_nat MAX_COUNT → length (generations t) = MAX_COUNT →
  Create obj t = Some (inl ResultOutOfHandles, t).
Proof.
  intros Hs Hl. unfold Create. rewrite Hs, Hl. by destruct (Z.ltb_spec (Z.of_nat MAX_COUNT) (Z.of_nat MAX_COUNT)); [lia|].
Qed.

(** The number of free slots; a creation takes one. *)
Definition free_slots t : nat := length (List.filter (λ o, match o with None => true | Some _ => false end) (objects t)).

Lemma free_insert (l : list (option Obj)) i o :
  l !! i = Some None →
  S (length (List.filter (λ o, match o with None => true | Some _ => false end) (<[i := Some o]> l))) =
  length (List.filter (λ o, match o with None => true | Some _ => false end) l).
Proof.
  revert i. induction l as [|x l IH]; intros [|i] E; simplify_eq/=; [done|]. destruct x; simpl; [by apply IH|]. f_equal. by apply IH.
Qed.

Lemma Create_objects obj t h t' :
  Create obj t = Some (inr h, t') → objects t' = <[Z.to_nat (next_free_slot t) := obj]> (objects t).
Proof. unfold Create. intros E. destruct (_ <? _); [|done]. destruct (generations t !! _); [|done]. by injection E as _ <-. Qed.

Lemma Create_cases t m obj :
  table_rep t m →
  (Forall is_Some (objects t) ∧ Create (Some obj) t = Some (inl ResultOutOfHandles, t)) ∨
  (~ Forall is_Some (objects t) ∧
   ∃ h t', Create (Some obj) t = Some (inr h, t') ∧ m !! h = None ∧ table_rep t' (<[h := obj]> m) ∧
     canonical h = h ∧ 0 < h ∧ S (free_slots t') = free_slots t).
Proof.
  intros Hrep. pose proof Hrep as (Hinv & Hm). destruct (inv_free t Hinv) as ([|i fl] & Hfl & Hnd & Hfree).
  - left. simpl in Hfl. split; [|apply Create_full; [done|by apply inv_generations]].
    apply Forall_lookup. intros i [o|] Hi; [done|]. apply Hfree in Hi. set_solver.
  - right. assert (objects t !! i = Some None) as Hi by (apply Hfree; set_solver). split.
    { intros Hall. rewrite Forall_lookup in Hall. by destruct (Hall i None). }
    assert (next_free_slot t = Z.of_nat i) as Hn by (simpl in Hfl; naive_solver).
    destruct (Create_free t m obj i fl) as (t' & E & Hf & Hr); try done.
    pose proof (lookup_lt_Some _ _ _ Hi) as Hlt. rewrite (inv_objects t Hinv) in Hlt.
    pose proof (inv_next t Hinv) as Hg. pose proof MAX_COUNT_Z as HM.
    eexists _, _. split; [done|]. split; [done|]. split; [done|]. rewrite mk_handle_add by lia. split_and!.
    + apply Z.mod_small. lia.
    + lia.
    + unfold free_slots. rewrite (Create_objects _ _ _ _ E), Hn, Nat2Z.id. by apply free_insert.
Qed.

Lemma Create_room t m obj :
  table_rep t m → (0 < free_slots t)%nat →
  ∃ h t', Create (Some obj) t = Some (inr h, t') ∧ m !! h = None ∧ table_rep t' (<[h := obj]> m) ∧
    canonical h = h ∧ 0 < h ∧ S (free_slots t') = free_slots t.
Proof.
  intros Hrep Hf. destruct (Create_cases t m obj Hrep) as [[Hall _]|[_ ?]]; [|done]. exfalso. unfold free_slots in Hf.
  assert (List.filter (λ o : option Obj, match o with None => true | Some _ => false end) (objects t) = []) as E; [|rewrite E in Hf; simpl in Hf; lia].
  clear -Hall. induction Hall as [|[] l [? ?] _ IH]; simpl; done.
Qed.

Lemma Close_open t m h o :
  table_rep t m → open_handle t (canonical h) o →
  ∃ t', Close h t = (ResultSuccess, t') ∧ table_rep t' (delete (canonical h) m).
Proof.
  intros (Hinv & Hm) Ho. unfold Close. rewrite (proj2 (IsValid_open h t Hinv)) by eauto.
  eexists. split; [done|].
  assert (IsValid h t = true) as Hv by (apply IsValid_open; eauto).
  apply IsValid_iff in Hv as (o' & Hobj & Hgen); [|done].
  pose proof (GetSlot_range h) as Hsr. pose proof (GetGeneration_range h) as Hgr.
  rewrite canonical_mk_handle. set (i := Z.to_nat (GetSlot h)) in *.
  assert (GetSlot h = Z.of_nat i) as Ei by (unfold i; lia). rewrite Ei.
  assert (i < MAX_COUNT)%nat as Hlt.
  { rewrite <- (inv_objects t Hinv). by eapply lookup_lt_Some. }
  destruct (inv_free t Hinv) as (fl & Hfl & Hnd & Hfree).
  assert (i ∉ fl) as Hni by (rewrite Hfree; by rewrite Hobj). split.
  - split; cbn [objects generations next_generation next_free_slot].
    + by rewrite length_insert, (inv_objects t Hinv).
    + by rewrite length_insert, (inv_generations t Hinv).
    + by apply inv_next.
    + exists (i :: fl). split_and!.
      * split; [done|]. exists (next_free_slot t). split.
        -- apply list_lookup_insert_eq. by rewrite (inv_generations t Hinv).
        -- eapply free_list_ext; [|done]. intros j Hj. apply list_lookup_insert_ne. set_solver.
      * by constructor.
      * intros j. rewrite elem_of_cons, Hfree. destruct (decide (i = j)) as [<-|Hij].
        -- rewrite list_lookup_insert_eq by by rewrite (inv_objects t Hinv). naive_solver.
        -- rewrite list_lookup_insert_ne by done. naive_solver.
    + intros j ob Hj. apply lookup_insert_case in Hj as [(<- & ? & _)|(Hij & Hj)]; [done|].
      rewrite list_lookup_insert_ne by done. by eapply inv_used.
  - intros h' ob. rewrite lookup_delete_Some, Hm. split.
    + intros (Hne & j & g & -> & Hj & Hg). exists j, g. cbn [objects generations].
      assert (i ≠ j) by (intros <-; by simplify_eq).
      by rewrite !list_lookup_insert_ne.
    + intros (j & g & -> & Hj & Hg). cbn [objects generations] in Hj, Hg.
      apply lookup_insert_case in Hj as [(<- & ? & _)|(Hij & Hj)]; [done|].
      rewrite list_lookup_insert_ne in Hg by done. split; [|by exists j, g].
      destruct (inv_used t Hinv _ _ Hj) as (? & ? & ?). simplify_eq.
      intros E. apply mk_handle_inj in E as [E _]; [|lia..]. apply Nat2Z.inj in E. done.
Qed.

(** *** Generations *)

Lemma Close_rep t m h : table_rep t m → table_rep (Close h t).2 (delete (canonical h) m).
Proof.
  intros Hrep. pose proof Hrep as (Hinv & Hm). destruct (m !! canonical h) as [o|] eqn:Ho.
  - apply Hm in Ho. destruct (Close_open t m h o Hrep Ho) as (t' & -> & ?). done.
  - rewrite delete_id by done. unfold Close. destruct (IsValid h t) eqn:Hv; [|done].
    apply IsValid_open in Hv as (o & Hopen); [|done]. apply Hm in Hopen. congruence.
Qed.

Lemma GetGeneric_rep t m h :
  table_rep t m → h ≠ CurrentThread → h ≠ CurrentProcess →
  GetGeneric current_thread current_process h t = m !! canonical h.
Proof. intros (Hinv & Hm) H1 H2. apply option_eq. intros o. by rewrite GetGeneric_open, Hm. Qed.

(** The generation after [c] creations that follow the one that was given [g]. *)
Definition gen_after (g c : Z) : Z := 1 + (g + c) `mod` 32767.

Lemma gen_after_next g c :
  1 <= g < 2 ^ 15 → 0 <= c →
  (let n := u16 (gen_after g c + 1) in if Z.shiftl 1 15 <=? n then 1 else n) = gen_after g (c + 1).
Proof.
  intros Hg Hc. cbv zeta. unfold gen_after. change (Z.shiftl 1 15) with 32768.
  pose proof (Z.mod_pos_bound (g + c) 32767). rewrite u16_id by lia.
  rewrite Z.add_assoc, (Z.add_mod (g + c) 1) by lia. change (1 mod 32767) with 1.
  destruct (Z.leb_spec 32768 (1 + (g + c) mod 32767 + 1)).
  - replace ((g + c) mod 32767 + 1) with 32767 by lia. done.
  - rewrite (Z.mod_small ((g + c) mod 32767 + 1)) by lia. lia.
Qed.

Lemma gen_after_first g :
  1 <= g < 2 ^ 15 →
  (let n := u16 (g + 1) in if Z.shiftl 1 15 <=? n then 1 else n) = gen_after g 0.
Proof.
  intros Hg. cbv zeta. unfold gen_after. change (Z.shiftl 1 15) with 32768.
  rewrite Z.add_0_r, u16_id by lia. destruct (Z.leb_spec 32768 (g + 1)).
  - replace g with 32767 by lia. done.
  - rewrite Z.mod_small by lia. lia.
Qed.

Lemma gen_after_ne g c : 1 <= g < 2 ^ 15 → 0 <= c < 32766 → gen_after g c ≠ g.
Proof.
  intros Hg Hc. unfold gen_after. intros E.
  assert ((g + c) mod 32767 = g - 1) as E' by lia.
  pose proof (Z.div_mod (g + c) 32767) as D. rewrite E' in D.
  assert ((g + c) / 32767 <= 1) by (apply Z.div_le_upper_bound; lia).
  assert (0 <= (g + c) / 32767) by (apply Z.div_pos; lia). lia.
Qed.

(** A call makes at most one creation. *)
Lemma Create_next_generation obj t r t' g c :
  1 <= g < 2 ^ 15 → 0 <= c → next_generation t = gen_after g c → Create obj t = Some (r, t') →
  ∃ c', c <= c' <= c + 1 ∧ next_generation t' = gen_after g c'.
Proof.
  intros Hg Hc Hn Hcr. unfold Create in Hcr.
  destruct (_ <? _); [|simplify_eq; by exists c; split; [lia|]]. inv_opt.
  exists (c + 1). split; [lia|]. cbn [next_generation]. rewrite Hn. by apply gen_after_next.
Qed.

Lemma hrun_next_generation op t t' g c :
  1 <= g < 2 ^ 15 → 0 <= c → next_generation t = gen_after g c →
  hrun current_thread current_process op t = Some t' →
  ∃ c', c <= c' <= c + 1 ∧ next_generation t' = gen_after g c'.
Proof.
  intros Hg Hc Hn Hr. destruct op as [o|hd|hd|]; simpl in Hr.
  - destruct (Create _ _) as [[r t1]|] eqn:E; simplify_eq/=. by eapply Create_next_generation.
  - unfold Duplicate in Hr.
    destruct (GetGeneric _ _ _ _); simplify_eq/=; [|by exists c; split; [lia|]].
    destruct (Create _ _) as [[r t1]|] eqn:E; simplify_eq/=. by eapply Create_next_generation.
  - simplify_eq. exists c. split; [lia|]. unfold Close. by destruct (IsValid hd t).
  - simplify_eq. exists c. by split; [lia|].
Qed.

Lemma hruns_next_generation ops t t' g c :
  1 <= g < 2 ^ 15 → 0 <= c → next_generation t = gen_after g c →
  hruns current_thread current_process ops t = Some t' →
  ∃ c', c <= c' <= c + Z.of_nat (length ops) ∧ next_generation t' = gen_after g c'.
Proof.
  intros Hg. revert t c. induction ops as [|op ops IH]; intros t c Hc Hn Hr; simpl in Hr.
  - simplify_eq. exists c. simpl. split; [lia|done].
  - inv_opt. edestruct hrun_next_generation as (c1 & Hc1 & E1); [done..|].
    destruct (IH _ c1 ltac:(lia) E1 Hr) as (c2 & Hc2 & E2).
    exists c2. simpl length. split; [lia|done].
Qed.

(** [h] is not valid, and [c] creations happened since its generation was given. *)
Definition stale (h c : Z) t : Prop :=
  IsValid h t = false ∧ 0 <= c ∧ next_generation t = gen_after (GetGeneration h) c.

Lemma IsValid_insert h i ob g t t' :
  IsValid h t' = true →
  objects t' = <[i := ob]> (objects t) → generations t' = <[i := g]> (generations t) →
  (i = Z.to_nat (GetSlot h) ∧ g = GetGeneration h ∧ is_Some ob) ∨ IsValid h t = true.
Proof.
  unfold IsValid. intros Hv Ho Hg. revert Hv. rewrite Ho, Hg. clear Ho Hg.
  destruct (decide (i = Z.to_nat (GetSlot h))) as [->|Hne].
  - destruct (<[_ := ob]> (objects t) !! _) as [[o|]|] eqn:Ho; [|done..].
    destruct (<[_ := g]> (generations t) !! _) as [g'|] eqn:Hg; [|done].
    intros Hv. apply andb_true_iff in Hv as [_ Hv]. apply Z.eqb_eq in Hv.
    apply lookup_insert_case in Ho as [(_ & <- & _)|(? & _)]; [|done].
    apply lookup_insert_case in Hg as [(_ & <- & _)|(? & _)]; [|done]. left. naive_solver.
  - rewrite !list_lookup_insert_ne by done. by right.
Qed.

Lemma stale_Create h c obj t r t' :
  1 <= GetGeneration h → c < 32766 → stale h c t → Create obj t = Some (r, t') →
  ∃ c', c <= c' <= c + 1 ∧ stale h c' t'.
Proof.
  intros Hg Hc (Hv & Hc0 & Hn) Hcr. pose proof (GetGeneration_range h). unfold Create in Hcr.
  destruct (_ <? _) eqn:Hs; [|simplify_eq; by exists c; split; [lia|]].
  inv_opt. exists (c + 1). split; [lia|]. split_and!.
  - apply not_true_is_false. intros Hv'.
    destruct (IsValid_insert h _ _ _ t _ Hv' eq_refl eq_refl) as [(_ & Hg' & _)|]; [|congruence].
    rewrite Hn in Hg'. by apply gen_after_ne in Hg'; [|lia..].
  - lia.
  - cbn [next_generation]. rewrite Hn. apply gen_after_next; lia.
Qed.

Lemma stale_hrun h c op t t' :
  1 <= GetGeneration h → c < 32766 → stale h c t → hrun current_thread current_process op t = Some t' →
  ∃ c', c <= c' <= c + 1 ∧ stale h c' t'.
Proof.
  intros Hg Hc Hst Hr. destruct op as [o|hd|hd|]; simpl in Hr.
  - destruct (Create _ _) as [[r t1]|] eqn:E; simplify_eq/=. by eapply stale_Create.
  - unfold Duplicate in Hr. destruct (GetGeneric _ _ _ _); simplify_eq/=; [|by exists c; split; [lia|]].
    destruct (Create _ _) as [[r t1]|] eqn:E; simplify_eq/=. by eapply stale_Create.
  - simplify_eq. exists c. split; [lia|]. unfold Close.
    destruct (IsValid hd t); [|done]. destruct Hst as (Hv & ? & ?). split_and!; try done.
    apply not_true_is_false. intros Hv'.
    destruct (IsValid_insert h _ _ _ t _ Hv' eq_refl eq_refl) as [(_ & _ & [? ?])|]; [done|congruence].
  - simplify_eq. exists c. split; [lia|]. destruct Hst as (Hv & ? & ?). split_and!; try done.
    unfold IsValid, Clear. cbn [objects generations].
    destruct (replicate _ _ !! _) as [[?|]|] eqn:E; [|done..].
    apply lookup_replicate in E as [? _]. done.
Qed.

Lemma stale_hruns h c ops t t' :
  1 <= GetGeneration h → c + Z.of_nat (length ops) <= 32766 → stale h c t →
  hruns current_thread current_process ops t = Some t' → IsValid h t' = false.
Proof.
  intros Hg. revert c t. induction ops as [|op ops IH]; intros c t Hc Hst Hr; simpl in Hr.
  - simplify_eq. apply Hst.
  - inv_opt. simpl in Hc. edestruct stale_hrun as (c' & Hc' & Hst'); [done| |done..|]; [lia|].
    eapply IH; [|done..]. lia.
Qed.

End Proofs.

(** ** Theorems *)

Section Theorems.
Context {Obj : Type} (current_thread current_process : option Obj).
Implicit Types t : HandleTable Obj.


(** No use after close: once a handle given by [Create] was closed it stays invalid over any
    further calls, as long as at most 32766 calls were made since it was created; its slot may be
    reused meanwhile, the generation tells the handles apart. *)
Theorem closed_handle_stays_invalid t obj h t1 ops1 t2 ops2 t3 :
  table_inv t →
  Create (Some obj) t = Some (inr h, t1) →
  hruns current_thread current_process ops1 t1 = Some t2 →
  hruns current_thread current_process ops2 (Close h t2).2 = Some t3 →
  Z.of_nat (length ops1 + length ops2) <= 32766 →
  IsValid h t3 = false.
Proof.
  intros Hinv Hcr H1 H2 Hlen. pose proof (inv_next t Hinv) as Hn.
  unfold Create in Hcr. destruct (_ <? _) eqn:Hs; [|done]. inv_opt.
  apply Z.ltb_lt in Hs. rewrite (inv_generations t Hinv), MAX_COUNT_Z in Hs.
  destruct (inv_free t Hinv) as (fl & Hfl & _).
  assert (0 <= next_free_slot t) as Hs0.
  { destruct fl; simpl in Hfl; [|naive_solver lia]. rewrite MAX_COUNT_Z in Hfl. lia. }
  remember (Z.lor _ _) as h eqn:Hh.
  assert (h = next_generation t + next_free_slot t * 2 ^ 15) as Eh
    by (rewrite Hh; apply lor_shiftl_add; lia).
  assert (GetGeneration h = next_generation t) as Hg.
  { unfold GetGeneration. change 0x7FFF with (Z.ones 15). rewrite Z.land_ones by lia.
    rewrite Eh, Z.mod_add, Z.mod_small by lia. apply u16_id. lia. }
  assert (∃ c, 0 <= c <= 0 + Z.of_nat (length ops1) ∧
               next_generation t2 = gen_after (GetGeneration h) c) as (c & Hc & Hc').
  { eapply hruns_next_generation; [lia|lia| |exact H1]. rewrite Hg. by apply gen_after_first. }
  eapply (stale_hruns current_thread current_process h c); [lia| | |exact H2]; [lia|].
  unfold Close. destruct (IsValid h t2) eqn:Hv; [|by split_and!; [|lia|]].
  split_and!; [|lia|done]. apply not_true_is_false. intros Hv'.
  unfold IsValid in Hv'. cbn [snd objects generations] in Hv'.
  destruct (<[_ := None]> (objects t2) !! _) as [[o|]|] eqn:Ho; [|done..].
  by apply lookup_insert_case in Ho as [(_ & ? & _)|(? & _)].
Qed.

(** The slot of a handle is truncated to 16 bits, so bit 31 of a handle is ignored: a value
    and the value with bit 31 flipped are the same handle to every lookup and to [Close].  The
    comment of the class gives bits 31:15 to the slot. *)
Theorem handle_bit31_ignored t h :
  0 <= h < 2 ^ 31 → h + 2 ^ 31 ≠ CurrentThread → h + 2 ^ 31 ≠ CurrentProcess →
  IsValid (h + 2 ^ 31) t = IsValid h t ∧
  GetGeneric current_thread current_process (h + 2 ^ 31) t =
    GetGeneric current_thread current_process h t ∧
  Close (h + 2 ^ 31) t = Close h t.
Proof.
  intros Hh H1 H2.
  assert (canonical (h + 2 ^ 31) = canonical h) as E.
  { unfold canonical. rewrite <- (Z.mul_1_l (2 ^ 31)) at 1. by rewrite Z.mod_add by lia. }
  assert (GetSlot (h + 2 ^ 31) = GetSlot h) as Es by by rewrite !GetSlot_spec, E.
  assert (GetGeneration (h + 2 ^ 31) = GetGeneration h) as Eg by by rewrite !GetGeneration_spec, E.
  assert (IsValid (h + 2 ^ 31) t = IsValid h t) as Ev by (unfold IsValid; by rewrite Es, Eg).
  split_and!; [done| |].
  - unfold GetGeneric. rewrite (proj2 (Z.eqb_neq _ _) H1), (proj2 (Z.eqb_neq _ _) H2).
    rewrite (proj2 (Z.eqb_neq h CurrentThread)) by (unfold CurrentThread; lia).
    rewrite (proj2 (Z.eqb_neq h CurrentProcess)) by (unfold CurrentProcess; lia).
    by rewrite Ev, Es.
  - unfold Close. by rewrite Ev, Es.
Qed.

End Theorems.

(** ** Witnesses *)

Definition demo_open : HandleTable Z :=
  from_option snd HandleTable_new (Create (Some 5) HandleTable_new).
Definition demo_closed : HandleTable Z :=
  default HandleTable_new
    (hruns None None [HCreate 6; HCreate 7; HDuplicate 2] (Close 1 demo_open).2).

Lemma closed_handle_stays_invalid_witness :
  Create (Some 5) HandleTable_new = Some (inr 1, demo_open) ∧
  IsValid 1 demo_open = true ∧ IsValid 1 demo_closed = false.
Proof.
  assert (Create (Some 5) HandleTable_new = Some (inr 1, demo_open)) as E
    by (vm_compute; reflexivity).
  split; [exact E|]. split; [vm_compute; reflexivity|].
  apply (closed_handle_stays_invalid None None HandleTable_new 5 1 demo_open [] demo_open
           [HCreate 6; HCreate 7; HDuplicate 2]).
  - apply table_inv_Clear. simpl. lia.
  - exact E.
  - reflexivity.
  - vm_compute; reflexivity.
  - vm_compute; discriminate.
Defined.

Lemma handle_bit31_ignored_witness :
  GetGeneric None None 0x80000001 demo_open = Some 5.
Proof.
  destruct (handle_bit31_ignored None None demo_open 1) as (_ & E & _);
    [lia|discriminate|discriminate|].
  change 0x80000001 with (1 + 2 ^ 31). rewrite E. vm_compute. reflexivity.
Defined.
