(* ===== verification/IntervalSet.v ===== *)
(** * The interval-set interface of the physical memory allocator

    [Kernel::MemoryRegionInfo] keeps its free memory in a [boost::icl::interval_set<u32>].  Boost
    is not part of this repository, so the container is an interface: [IntervalSet] lists the
    calls the allocator makes, [IntervalSetLaws] the documented behaviour it relies on (an
    interval set is a set of integers, iterated as maximal right-open segments in increasing
    order).  The allocator's theorems (file [MemoryRegion]) are proved against the interface;
    [list_IntervalSet] is a container that satisfies it. *)

From S2P Require Import Prelude.

(** A right-open interval [lo, hi), empty when [hi <= lo]. *)
Definition interval : Type := Z * Z.

Definition in_interval (x : Z) (i : interval) : Prop := i.1 <= x < i.2.

Definition in_segments (x : Z) (l : list interval) : Prop := ∃ i, i ∈ l ∧ in_interval x i.

(** Segments as [boost::icl] iterates them: not empty, increasing, and never touching, because
    [interval_set] joins neighbours. *)
Inductive segmented : list interval → Prop :=
| segmented_nil : segmented []
| segmented_cons lo hi l :
    lo < hi → (∀ i, i ∈ l → hi < i.1) → segmented l → segmented ((lo, hi) :: l).

Class IntervalSet (IS : Type) := {
  iset_empty : IS;
  (** [begin() .. end()] *)
  iset_segments : IS → list interval;
  (** [set += interval], [set -= interval] *)
  iset_add : interval → IS → IS;
  iset_sub : interval → IS → IS;
  (** [boost::icl::contains(set, interval)], [boost::icl::intersects(set, interval)] *)
  iset_contains : IS → interval → bool;
  iset_intersects : IS → interval → bool;
}.

Section Elements.
Context `{IntervalSet IS}.

Definition iset_elem (x : Z) (s : IS) : Prop := in_segments x (iset_segments s).

(** [set -= other_set]: every segment of the other set is subtracted. *)
Definition iset_diff (s other : IS) : IS := foldr iset_sub s (iset_segments other).

(** The number of integers in a set. *)
Definition segments_total (l : list interval) : Z := foldr (λ i n, i.2 - i.1 + n) 0 l.
Definition iset_total (s : IS) : Z := segments_total (iset_segments s).

End Elements.

Class IntervalSetLaws (IS : Type) `{IntervalSet IS} := {
  iset_segmented s : segmented (iset_segments s);
  iset_empty_spec : iset_segments (IS := IS) iset_empty = [];
  iset_add_spec i s x : iset_elem x (iset_add i s) ↔ in_interval x i ∨ iset_elem x s;
  iset_sub_spec i s x : iset_elem x (iset_sub i s) ↔ iset_elem x s ∧ ~ in_interval x i;
  iset_contains_spec s i :
    iset_contains s i = true ↔ ∀ x, in_interval x i → iset_elem x s;
  iset_intersects_spec s i :
    iset_intersects s i = true ↔ ∃ x, in_interval x i ∧ iset_elem x s;
}.

(** ** A container with the interface: a sorted list of segments *)

Fixpoint seg_add (i : interval) (l : list interval) : list interval :=
  match l with
  | [] => if i.1 <? i.2 then [i] else []
  | j :: l =>
      if i.2 <=? i.1 then j :: l
      else if i.2 <? j.1 then i :: j :: l
      else if j.2 <? i.1 then j :: seg_add i l
      else seg_add (Z.min i.1 j.1, Z.max i.2 j.2) l
  end.

Definition seg_piece (lo hi : Z) : list interval := if lo <? hi then [(lo, hi)] else [].
Fixpoint seg_sub (i : interval) (l : list interval) : list interval :=
  match l with
  | [] => []
  | j :: l =>
      if i.2 <=? i.1 then j :: l
      else seg_piece j.1 (Z.min j.2 i.1) ++ seg_piece (Z.max j.1 i.2) j.2 ++ seg_sub i l
  end.

Definition seg_contains (l : list interval) (i : interval) : bool :=
  (i.2 <=? i.1) || existsb (λ j, (j.1 <=? i.1) && (i.2 <=? j.2)) l.
Definition seg_intersects (l : list interval) (i : interval) : bool :=
  existsb (λ j, Z.max i.1 j.1 <? Z.min i.2 j.2) l.

(** ** Facts about segments *)

Section Segments.

Lemma in_segments_cons x i l : in_segments x (i :: l) ↔ in_interval x i ∨ in_segments x l.
Proof. unfold in_segments. set_solver. Qed.

Lemma in_segments_app x l k : in_segments x (l ++ k) ↔ in_segments x l ∨ in_segments x k.
Proof. unfold in_segments. set_solver. Qed.

Lemma in_segments_nil x : ~ in_segments x [].
Proof. unfold in_segments. set_solver. Qed.

Lemma segmented_inv i l :
  segmented (i :: l) → i.1 < i.2 ∧ (∀ j, j ∈ l → i.2 < j.1) ∧ segmented l.
Proof. intros Hs. inv Hs. done. Qed.

Lemma segmented_nonempty l i : segmented l → i ∈ l → i.1 < i.2.
Proof.
  induction 1 as [|lo hi l Hlt Hgap Hs IH]; [set_solver|].
  intros [->|Hi]%elem_of_cons; [done|auto].
Qed.

Lemma in_segments_above l i x : (∀ j, j ∈ l → i < j.1) → in_segments x l → i < x.
Proof. intros Hgap (j & Hj & Hx). specialize (Hgap j Hj). destruct Hx. lia. Qed.

(** A segment list is determined by its elements. *)
Lemma segmented_head_min i l x : segmented (i :: l) → in_segments x (i :: l) → i.1 <= x.
Proof.
  intros (Hlt & Hgap & Hs)%segmented_inv [Hx|Hx]%in_segments_cons.
  - destruct Hx. lia.
  - apply (in_segments_above l i.2) in Hx; [lia|done].
Qed.

Lemma segmented_head_gap i l : segmented (i :: l) → ~ in_segments i.2 (i :: l).
Proof.
  intros (Hlt & Hgap & Hs)%segmented_inv [Hx|Hx]%in_segments_cons.
  - destruct Hx. lia.
  - apply (in_segments_above l i.2) in Hx; [lia|done].
Qed.

Lemma segmented_sub_cons i l : segmented l → (∀ j, j ∈ l → i.2 < j.1) → i.1 < i.2 → segmented (i :: l).
Proof. destruct i. by constructor. Qed.

Lemma seg_piece_in x lo hi : in_segments x (seg_piece lo hi) ↔ lo <= x < hi.
Proof.
  unfold seg_piece. destruct (Z.ltb_spec lo hi).
  - rewrite in_segments_cons. unfold in_interval. simpl. pose proof (in_segments_nil x). tauto.
  - pose proof (in_segments_nil x). split; [done|lia].
Qed.

Lemma seg_add_in x i l :
  segmented l → in_segments x (seg_add i l) ↔ in_interval x i ∨ in_segments x l.
Proof.
  intros Hs. revert i. induction l as [|j l IH]; intros i; simpl.
  - pose proof (in_segments_nil x). destruct (Z.ltb_spec i.1 i.2).
    + rewrite in_segments_cons. tauto.
    + unfold in_interval. split; [tauto|]. intros [|]; [lia|done].
  - apply segmented_inv in Hs as (Hj & Hgap & Hs). destruct (Z.leb_spec i.2 i.1).
    { unfold in_interval. split; [tauto|]. intros [|]; [lia|done]. }
    destruct (Z.ltb_spec i.2 j.1); [by rewrite (in_segments_cons x i)|].
    destruct (Z.ltb_spec j.2 i.1); rewrite !in_segments_cons, (IH Hs).
    + tauto.
    + unfold in_interval. simpl.
      assert (Z.min i.1 j.1 <= x < Z.max i.2 j.2 ↔ i.1 <= x < i.2 ∨ j.1 <= x < j.2) by lia.
      tauto.
Qed.

Lemma seg_add_first i l j : j ∈ seg_add i l → i.1 < i.2 → Z.min i.1 j.1 = i.1 ∨ ∃ k, k ∈ l ∧ k.1 <= j.1.
Proof.
  revert i. induction l as [|k l IH]; intros i; simpl.
  - destruct (Z.ltb_spec i.1 i.2); set_unfold; [|tauto]. intros [->|[]] _. left. lia.
  - destruct (Z.leb_spec i.2 i.1); [lia|].
    destruct (Z.ltb_spec i.2 k.1).
    { intros [->|Hj]%elem_of_cons _; [left; lia|]. right. exists j. split; [set_solver|lia]. }
    destruct (Z.ltb_spec k.2 i.1).
    + intros [->|Hj]%elem_of_cons Hi; [right; exists k; split; [set_solver|lia]|].
      destruct (IH i Hj Hi) as [|(k' & Hk' & Hle)]; [by left|right]. exists k'. split; [set_solver|lia].
    + intros Hj Hi. destruct (IH _ Hj) as [E|(k' & Hk' & Hle)]; simpl in *; [lia| |].
      * destruct (decide (i.1 <= k.1)); [left; lia|]. right. exists k. split; [set_solver|lia].
      * right. exists k'. split; [set_solver|lia].
Qed.

Lemma seg_add_segmented i l : segmented l → segmented (seg_add i l).
Proof.
  intros Hs. revert i. induction l as [|j l IH]; intros i; simpl.
  - destruct (Z.ltb_spec i.1 i.2); [|constructor]. destruct i. constructor; [done|set_solver|constructor].
  - pose proof Hs as (Hj & Hgap & Hs')%segmented_inv. destruct (Z.leb_spec i.2 i.1); [done|].
    destruct (Z.ltb_spec i.2 j.1).
    { apply segmented_sub_cons; [done| |done]. intros k [->|Hk]%elem_of_cons; [lia|].
      specialize (Hgap k Hk). lia. }
    destruct (Z.ltb_spec j.2 i.1); [|by apply IH].
    apply segmented_sub_cons; [by apply IH| |done]. intros k Hk.
    destruct (seg_add_first i l k Hk ltac:(lia)) as [|(k' & Hk' & Hle)]; [lia|].
    specialize (Hgap k' Hk'). lia.
Qed.

Lemma seg_sub_in x i l : in_segments x (seg_sub i l) ↔ in_segments x l ∧ ~ in_interval x i.
Proof.
  induction l as [|j l IH]; simpl.
  - pose proof (in_segments_nil x). tauto.
  - destruct (Z.leb_spec i.2 i.1).
    { unfold in_interval. split; [intros ?; split; [done|lia]|tauto]. }
    rewrite !in_segments_app, !seg_piece_in, in_segments_cons, IH. unfold in_interval.
    assert (j.1 <= x < j.2 ∧ ~ (i.1 <= x < i.2) ↔
            j.1 <= x < Z.min j.2 i.1 ∨ Z.max j.1 i.2 <= x < j.2) by lia.
    tauto.
Qed.

Lemma seg_piece_elem j lo hi : j ∈ seg_piece lo hi → j = (lo, hi) ∧ lo < hi.
Proof. unfold seg_piece. destruct (Z.ltb_spec lo hi); set_solver. Qed.

Lemma seg_sub_first i l j : j ∈ seg_sub i l → ∃ k, k ∈ l ∧ k.1 <= j.1.
Proof.
  induction l as [|k l IH]; simpl; [set_solver|].
  destruct (Z.leb_spec i.2 i.1); [exists j; split; [done|lia]|].
  rewrite !elem_of_app. intros [H1|[H2|H3]].
  - apply seg_piece_elem in H1 as (-> & _). exists k. simpl. split; [set_solver|lia].
  - apply seg_piece_elem in H2 as (-> & _). exists k. simpl. split; [set_solver|lia].
  - destruct (IH H3) as (k' & Hk' & Hle). exists k'. split; [set_solver|lia].
Qed.

Lemma segmented_piece_app lo hi l :
  segmented l → (∀ j, j ∈ l → hi < j.1) → segmented (seg_piece lo hi ++ l).
Proof.
  intros Hs Hgap. unfold seg_piece. destruct (Z.ltb_spec lo hi); [|done]. by constructor.
Qed.

Lemma seg_sub_segmented i l : segmented l → segmented (seg_sub i l).
Proof.
  induction l as [|j l IH]; intros Hs; simpl; [constructor|].
  pose proof Hs as (Hj & Hgap & Hs')%segmented_inv. destruct (Z.leb_spec i.2 i.1); [done|].
  assert (∀ k, k ∈ seg_sub i l → j.2 < k.1) as Hgap'.
  { intros k Hk. apply seg_sub_first in Hk as (k' & Hk' & Hle). specialize (Hgap k' Hk'). lia. }
  apply segmented_piece_app; [apply segmented_piece_app; [by apply IH|done]|].
  intros k [Hk|Hk]%elem_of_app.
  - apply seg_piece_elem in Hk as (-> & ?). simpl. lia.
  - specialize (Hgap' k Hk). lia.
Qed.

(** An interval inside a segmented set lies in one segment. *)
Lemma segment_of_interval l i :
  segmented l → i.1 < i.2 → (∀ x, in_interval x i → in_segments x l) →
  ∃ j, j ∈ l ∧ j.1 <= i.1 ∧ i.2 <= j.2.
Proof.
  intros Hs Hi Hsub. induction l as [|j l IH].
  - destruct (Hsub i.1) as (? & ?%elem_of_nil & _); [split; lia|done].
  - pose proof Hs as (Hj & Hgap & Hs')%segmented_inv.
    destruct (decide (j.2 <= i.1)) as [Hle|Hgt].
    + destruct IH as (k & Hk & ?); [done| |exists k; split; [set_solver|done]].
      intros x Hx. destruct (proj1 (in_segments_cons _ _ _) (Hsub x Hx)) as [Hx'|]; [|done].
      unfold in_interval in *. lia.
    + exists j. split; [set_solver|].
      pose proof (segmented_head_min j l i.1 Hs (Hsub i.1 ltac:(split; lia))).
      split; [done|]. destruct (decide (i.2 <= j.2)); [done|].
      exfalso. apply (segmented_head_gap j l Hs). apply Hsub. split; lia.
Qed.

Lemma existsb_elem {A} (f : A → bool) l : existsb f l = true ↔ ∃ x, x ∈ l ∧ f x = true.
Proof. rewrite existsb_exists. by setoid_rewrite <- list_elem_of_In. Qed.

Lemma seg_contains_spec l i :
  segmented l → seg_contains l i = true ↔ ∀ x, in_interval x i → in_segments x l.
Proof.
  intros Hs. unfold seg_contains. rewrite orb_true_iff, Z.leb_le, existsb_elem. split.
  - intros [He|(j & Hj & Hb)] x Hx; [destruct Hx; lia|].
    apply andb_true_iff in Hb as [H1%Z.leb_le H2%Z.leb_le].
    exists j. split; [done|]. destruct Hx. split; lia.
  - intros Hsub. destruct (decide (i.2 <= i.1)); [by left|right].
    destruct (segment_of_interval l i) as (j & Hj & H1 & H2); [done|lia|done|].
    exists j. split; [done|]. apply andb_true_iff. by rewrite !Z.leb_le.
Qed.

Lemma seg_intersects_spec l i :
  seg_intersects l i = true ↔ ∃ x, in_interval x i ∧ in_segments x l.
Proof.
  unfold seg_intersects. rewrite existsb_elem. split.
  - intros (j & Hj & Hb%Z.ltb_lt). exists (Z.max i.1 j.1). split; [split; lia|].
    exists j. split; [done|]. split; lia.
  - intros (x & Hx & j & Hj & Hx'). exists j. split; [done|]. apply Z.ltb_lt.
    unfold in_interval in *. lia.
Qed.

End Segments.

(** Sorted segment lists with the invariant. *)
Record seg_set := mkSeg { segs : list interval; segs_ok : segmented segs }.

#[export] Instance list_IntervalSet : IntervalSet seg_set := {
  iset_empty := mkSeg [] segmented_nil;
  iset_segments := segs;
  iset_add i s := mkSeg (seg_add i (segs s)) (seg_add_segmented i _ (segs_ok s));
  iset_sub i s := mkSeg (seg_sub i (segs s)) (seg_sub_segmented i _ (segs_ok s));
  iset_contains s i := seg_contains (segs s) i;
  iset_intersects s i := seg_intersects (segs s) i;
}.

#[export] Instance list_IntervalSetLaws : IntervalSetLaws seg_set.
Proof.
  split.
  - intros s. apply segs_ok.
  - done.
  - intros i s x. apply seg_add_in, segs_ok.
  - intros i s x. apply seg_sub_in.
  - intros s i. apply seg_contains_spec, segs_ok.
  - intros s i. apply seg_intersects_spec.
Qed.

(** ** Counting *)

Section Counting.

(** [count l lo n]: how many of the integers [lo .. lo + n) lie in the segments. *)
Definition in_segmentsb (l : list interval) (x : Z) : bool :=
  existsb (λ i, in_range i.1 i.2 x) l.

Lemma in_segmentsb_iff l x : in_segmentsb l x = true ↔ in_segments x l.
Proof.
  unfold in_segmentsb, in_segments. rewrite existsb_elem. by setoid_rewrite in_range_iff.
Qed.

Fixpoint count (P : Z → bool) (lo : Z) (n : nat) : Z :=
  match n with O => 0 | S n => Z.b2z (P lo) + count P (lo + 1) n end.

Lemma count_ext P Q lo n :
  (∀ x, lo <= x < lo + Z.of_nat n → P x = Q x) → count P lo n = count Q lo n.
Proof.
  revert lo. induction n as [|n IH]; intros lo Heq; simpl; [done|].
  rewrite Heq by lia. f_equal. apply IH. intros x Hx. apply Heq. lia.
Qed.

Lemma count_orb P Q lo n :
  (∀ x, lo <= x < lo + Z.of_nat n → ~ (P x = true ∧ Q x = true)) →
  count (λ x, P x || Q x) lo n = count P lo n + count Q lo n.
Proof.
  revert lo. induction n as [|n IH]; intros lo Hd; simpl; [done|].
  rewrite IH by (intros x Hx; apply Hd; lia). specialize (Hd lo ltac:(lia)).
  destruct (P lo), (Q lo); simpl; naive_solver lia.
Qed.

Lemma count_range a b lo n :
  count (in_range a b) lo n = Z.max 0 (Z.min b (lo + Z.of_nat n) - Z.max a lo).
Proof.
  revert lo. induction n as [|n IH]; intros lo; simpl count; [lia|].
  rewrite IH. destruct (in_range a b lo) eqn:E.
  - apply in_range_iff in E. simpl Z.b2z. lia.
  - apply in_range_false in E. simpl Z.b2z. lia.
Qed.

Lemma segments_total_count l lo n :
  segmented l → (∀ i, i ∈ l → lo <= i.1 ∧ i.2 <= lo + Z.of_nat n) →
  segments_total l = count (in_segmentsb l) lo n.
Proof.
  induction 1 as [|a b l Hab Hgap Hs IH]; intros Hin.
  - simpl. clear. revert lo. induction n as [|n IH]; intros lo; simpl; [done|].
    by rewrite <- IH.
  - change (segments_total ((a, b) :: l)) with (b - a + segments_total l).
    rewrite IH by set_solver.
    change (in_segmentsb ((a, b) :: l)) with (λ x, in_range a b x || in_segmentsb l x).
    rewrite count_orb.
    + rewrite count_range. specialize (Hin (a, b) ltac:(set_solver)). simpl in Hin. lia.
    + intros x _ [Hx Hl]. apply in_range_iff in Hx. apply in_segmentsb_iff in Hl.
      apply (in_segments_above l b) in Hl; [lia|done].
Qed.

(** A window that covers a list of segments. *)
Lemma segments_window (l : list interval) : ∃ lo n, ∀ i, i ∈ l → lo <= i.1 ∧ i.2 <= lo + Z.of_nat n.
Proof.
  set (m := foldr (λ i m, Z.max m (Z.max (Z.abs i.1) (Z.abs i.2))) 0 l).
  assert (∀ i, i ∈ l → Z.abs i.1 <= m ∧ Z.abs i.2 <= m) as Hm.
  { unfold m. clear. induction l as [|j r IH]; [set_solver|]. simpl.
    intros i [->|Hi]%elem_of_cons; [lia|]. specialize (IH i Hi). lia. }
  exists (- m), (Z.to_nat (2 * m)). intros i Hi. destruct (Hm i Hi). lia.
Qed.

(** The total of a disjoint union is the sum of the totals. *)
Lemma segments_total_union l k r :
  segmented l → segmented k → segmented r →
  (∀ x, in_segments x r ↔ in_segments x l ∨ in_segments x k) →
  (∀ x, in_segments x l → ~ in_segments x k) →
  segments_total r = segments_total l + segments_total k.
Proof.
  intros Hl Hk Hr Heq Hdis. destruct (segments_window (l ++ k ++ r)) as (lo & n & Hw).
  rewrite (segments_total_count l lo n), (segments_total_count k lo n),
    (segments_total_count r lo n) by set_solver.
  rewrite <- count_orb.
  - apply count_ext. intros x _. apply Bool.eq_iff_eq_true.
    rewrite orb_true_iff, !in_segmentsb_iff. apply Heq.
  - intros x _. rewrite !in_segmentsb_iff. naive_solver.
Qed.

Lemma segments_total_nonneg l : segmented l → 0 <= segments_total l.
Proof. induction 1; simpl; [lia|]. unfold segments_total in *. lia. Qed.

Lemma seg_piece_segmented lo hi : segmented (seg_piece lo hi).
Proof.
  unfold seg_piece. destruct (Z.ltb_spec lo hi); [|constructor].
  constructor; [done|set_solver|constructor].
Qed.

Lemma seg_piece_total lo hi : lo <= hi → segments_total (seg_piece lo hi) = hi - lo.
Proof. intros. unfold seg_piece. destruct (Z.ltb_spec lo hi); simpl; lia. Qed.

End Counting.

Section Totals.
Context {IS : Type} `{IntervalSetLaws IS}.
Implicit Types s : IS.

Lemma iset_elem_empty x : ~ iset_elem x (iset_empty (IS := IS)).
Proof. unfold iset_elem. rewrite iset_empty_spec. apply in_segments_nil. Qed.

(** Adding an interval that does not meet the set adds its length. *)
Lemma iset_total_add s i :
  i.1 <= i.2 → (∀ x, in_interval x i → ~ iset_elem x s) →
  iset_total (iset_add i s) = iset_total s + (i.2 - i.1).
Proof.
  intros Hi Hdis. unfold iset_total. rewrite <- (seg_piece_total i.1 i.2) by done.
  apply segments_total_union;
    [apply iset_segmented|apply seg_piece_segmented|apply iset_segmented| |].
  - intros x. rewrite seg_piece_in. pose proof (iset_add_spec i s x) as E.
    unfold iset_elem, in_interval in *. tauto.
  - intros x Hx. rewrite seg_piece_in. intros Hin. by apply (Hdis x).
Qed.

(** Removing an interval of the set removes its length. *)
Lemma iset_total_sub s i :
  i.1 <= i.2 → (∀ x, in_interval x i → iset_elem x s) →
  iset_total (iset_sub i s) = iset_total s - (i.2 - i.1).
Proof.
  intros Hi Hsub. unfold iset_total. rewrite <- (seg_piece_total i.1 i.2) by done.
  rewrite (segments_total_union (iset_segments (iset_sub i s)) (seg_piece i.1 i.2)
             (iset_segments s)); [lia|..];
    [apply iset_segmented|apply seg_piece_segmented|apply iset_segmented| |];
    intros x; rewrite seg_piece_in; pose proof (iset_sub_spec i s x) as E;
    specialize (Hsub x); unfold iset_elem, in_interval in *;
    destruct (decide (i.1 <= x < i.2)); tauto.
Qed.

Lemma iset_diff_spec s o x : iset_elem x (iset_diff s o) ↔ iset_elem x s ∧ ~ iset_elem x o.
Proof.
  unfold iset_diff. unfold iset_elem at 3. induction (iset_segments o) as [|i l IH]; simpl.
  - pose proof (in_segments_nil x). tauto.
  - rewrite iset_sub_spec, IH, in_segments_cons. tauto.
Qed.

(** Subtracting a subset subtracts its total. *)
Lemma iset_total_diff s o :
  (∀ x, iset_elem x o → iset_elem x s) →
  iset_total (iset_diff s o) = iset_total s - iset_total o.
Proof.
  intros Hsub. unfold iset_total.
  rewrite (segments_total_union (iset_segments (iset_diff s o)) (iset_segments o)
             (iset_segments s)); [lia|apply iset_segmented..| |];
    intros x; pose proof (iset_diff_spec s o x) as E; specialize (Hsub x);
    unfold iset_elem in *; [|tauto].
  split; [|tauto]. intros Hx. destruct (in_segmentsb (iset_segments o) x) eqn:Eo.
  - right. by apply in_segmentsb_iff.
  - left. apply E. split; [done|]. rewrite <- in_segmentsb_iff. congruence.
Qed.

Lemma iset_total_nonneg s : 0 <= iset_total s.
Proof. apply segments_total_nonneg, iset_segmented. Qed.

End Totals.
