(* ===== verification/MemoryRegion.v ===== *)
(** * The physical memory allocator
    ([src/src/core/hle/kernel/memory.h], [memory.cpp])

    A [MemoryRegionInfo] hands out ranges of FCRAM.  The heap allocator takes the highest free
    bytes, in as many blocks as it needs; the linear allocators take one block, from the lowest
    or the highest address that fits.  The free memory is an [IntervalSet] (file [IntervalSet]);
    all the theorems hold for any container with its laws.

    The invariant [region_inv]: the free memory lies in the region and [used] is the rest. *)

From S2P Require Import Prelude IntervalSet.

Definition FCRAM_SIZE : Z := 0x08000000.
Definition FCRAM_N3DS_SIZE : Z := 0x10000000.

(** Rows: system memory configuration; columns: APPLICATION, SYSTEM and BASE. *)
Definition memory_region_sizes : list (list Z) := [
  [0x04000000; 0x02C00000; 0x01400000];
  [0; 0; 0];
  [0x06000000; 0x00C00000; 0x01400000];
  [0x05000000; 0x01C00000; 0x01400000];
  [0x04800000; 0x02400000; 0x01400000];
  [0x02000000; 0x04C00000; 0x01400000];
  [0x07C00000; 0x06400000; 0x02000000];
  [0x0B200000; 0x02E00000; 0x02000000]].

Record MemoryRegionInfo (IS : Type) := mkRegion {
  region_base : Z;
  region_size : Z;
  used : Z;
  free_blocks : IS;
  is_locked : bool;
}.
Arguments mkRegion {IS} _ _ _ _ _.
Arguments region_base {IS} _.
Arguments region_size {IS} _.
Arguments used {IS} _.
Arguments free_blocks {IS} _.
Arguments is_locked {IS} _.

Section Operations.
Context {IS : Type} `{IntervalSet IS}.
Implicit Types r : MemoryRegionInfo IS.

Definition Reset (base size : Z) r : option (MemoryRegionInfo IS) :=
  ASSERT (negb (is_locked r)) ;;
  Some (mkRegion base size 0 (iset_add (base, u32 (base + size)) iset_empty) (is_locked r)).

(** [free_blocks -= taken; used += size]. *)
Definition take_blocks (taken : IS) (size : Z) r : MemoryRegionInfo IS :=
  mkRegion (region_base r) (region_size r) (u32 (used r + size))
           (iset_diff (free_blocks r) taken) (is_locked r).
Definition take_interval (i : interval) (size : Z) r : MemoryRegionInfo IS :=
  mkRegion (region_base r) (region_size r) (u32 (used r + size))
           (iset_sub i (free_blocks r)) (is_locked r).

(** The loop of [HeapAllocate] over the blocks, from the last one; returns [result] and [rest]. *)
Fixpoint heap_loop (blocks : list interval) (result : IS) (rest : Z) : IS * Z :=
  match blocks with
  | [] => (result, rest)
  | i :: blocks =>
      if rest <=? u32 (i.2 - i.1) then (iset_add (u32 (i.2 - rest), i.2) result, 0)
      else heap_loop blocks (iset_add i result) (u32 (rest - (i.2 - i.1)))
  end.

Definition HeapAllocate (size : Z) r : option (IS * MemoryRegionInfo IS) :=
  ASSERT (negb (is_locked r)) ;;
  let '(result, rest) := heap_loop (reverse (iset_segments (free_blocks r))) iset_empty size in
  if negb (rest =? 0) then Some (iset_empty, r)
  else Some (result, take_blocks result size r).

(** [bool LinearAllocate(u32 offset, u32 size)]. *)
Definition LinearAllocateAt (offset size : Z) r : option (bool * MemoryRegionInfo IS) :=
  ASSERT (negb (is_locked r)) ;;
  let interval := (offset, u32 (offset + size)) in
  if negb (iset_contains (free_blocks r) interval) then Some (false, r)
  else Some (true, take_interval interval size r).

(** [std::optional<u32> LinearAllocate(u32 size)]: the loops over the blocks. *)
Fixpoint linear_loop (blocks : list interval) (size : Z) : option interval :=
  match blocks with
  | [] => None
  | i :: blocks =>
      if size <=? u32 (i.2 - i.1) then Some (i.1, u32 (i.1 + size)) else linear_loop blocks size
  end.
Fixpoint rlinear_loop (blocks : list interval) (size : Z) : option interval :=
  match blocks with
  | [] => None
  | i :: blocks =>
      if size <=? u32 (i.2 - i.1) then Some (u32 (i.2 - size), i.2) else rlinear_loop blocks size
  end.

Definition LinearAllocate (size : Z) r : option (option Z * MemoryRegionInfo IS) :=
  ASSERT (negb (is_locked r)) ;;
  match linear_loop (iset_segments (free_blocks r)) size with
  | Some allocated => Some (Some allocated.1, take_interval allocated size r)
  | None => Some (None, r)
  end.

Definition RLinearAllocate (size : Z) r : option (option Z * MemoryRegionInfo IS) :=
  ASSERT (negb (is_locked r)) ;;
  match rlinear_loop (reverse (iset_segments (free_blocks r))) size with
  | Some allocated => Some (Some allocated.1, take_interval allocated size r)
  | None => Some (None, r)
  end.

Definition Free (offset size : Z) r : option (MemoryRegionInfo IS) :=
  if is_locked r then Some r
  else
    let interval := (offset, u32 (offset + size)) in
    ASSERT (negb (iset_intersects (free_blocks r) interval)) ;;
    Some (mkRegion (region_base r) (region_size r) (u32 (used r - size))
                   (iset_add interval (free_blocks r)) (is_locked r)).

Definition Unlock r : MemoryRegionInfo IS :=
  mkRegion (region_base r) (region_size r) (used r) (free_blocks r) false.

(** [KernelSystem::MemoryInit]: the loop that lays the regions out, and the check that they
    cover FCRAM. *)
Fixpoint reset_regions (regions : list (MemoryRegionInfo IS)) (sizes : list Z) (base : Z)
  : option (list (MemoryRegionInfo IS) * Z) :=
  match regions, sizes with
  | r :: regions, size :: sizes =>
      r ← Reset base size r;
      '(rs, base) ← reset_regions regions sizes (u32 (base + region_size r));
      Some (r :: rs, base)
  | _, _ => Some ([], base)
  end.
Definition MemoryInit (is_new_3ds : bool) (memory_mode : nat) (regions : list (MemoryRegionInfo IS))
  : option (list (MemoryRegionInfo IS)) :=
  sizes ← memory_region_sizes !! memory_mode;
  '(regions, base) ← reset_regions regions sizes 0;
  ASSERT (base =? (if is_new_3ds then FCRAM_N3DS_SIZE else FCRAM_SIZE)) ;;
  Some regions.

(** ** The invariant *)

Record region_inv r : Prop := {
  inv_bounds : 0 <= region_base r ∧ 0 <= region_size r ∧ region_base r + region_size r < 2 ^ 32;
  inv_inside : ∀ x, iset_elem x (free_blocks r) →
                 region_base r <= x < region_base r + region_size r;
  inv_used_total : used r = region_size r - iset_total (free_blocks r);
}.

(** [size] bytes are free from [offset]. *)
Definition free_range r (offset size : Z) : Prop :=
  ∀ x, offset <= x < offset + size → iset_elem x (free_blocks r).

End Operations.

(** ** Proofs *)

Section Proofs.
Context {IS : Type} `{IntervalSetLaws IS}.
Implicit Types r : MemoryRegionInfo IS.

Lemma segment_elems r i :
  i ∈ iset_segments (free_blocks r) →
  i.1 < i.2 ∧ ∀ x, i.1 <= x < i.2 → iset_elem x (free_blocks r).
Proof.
  intros Hi. pose proof (segmented_nonempty _ _ (iset_segmented _) Hi). split; [done|].
  intros x Hx. by exists i.
Qed.

(** Every block lies in the region, so its ends and its length are 32-bit numbers. *)
Lemma segment_bounds r i :
  region_inv r → i ∈ iset_segments (free_blocks r) →
  region_base r <= i.1 ∧ i.1 < i.2 ∧ i.2 <= region_base r + region_size r ∧
  u32 (i.2 - i.1) = i.2 - i.1.
Proof.
  intros Hinv Hi. destruct (segment_elems r i Hi) as [Hlt Hel]. pose proof (inv_bounds r Hinv).
  pose proof (inv_inside r Hinv _ (Hel i.1 ltac:(lia))).
  pose proof (inv_inside r Hinv _ (Hel (i.2 - 1) ltac:(lia))).
  rewrite u32_id by lia. lia.
Qed.

Lemma count_le P lo n : 0 <= count P lo n <= Z.of_nat n.
Proof.
  revert lo. induction n as [|n IH]; intros lo; simpl count; [lia|].
  specialize (IH (lo + 1)). destruct (P lo); simpl Z.b2z; lia.
Qed.

Lemma total_le_size r : region_inv r → 0 <= iset_total (free_blocks r) <= region_size r.
Proof.
  intros Hinv. pose proof (inv_bounds r Hinv). unfold iset_total.
  rewrite (segments_total_count _ (region_base r) (Z.to_nat (region_size r))).
  - pose proof (count_le (in_segmentsb (iset_segments (free_blocks r))) (region_base r)
                  (Z.to_nat (region_size r))). lia.
  - apply iset_segmented.
  - intros i Hi. destruct (segment_bounds r i Hinv Hi) as (? & ? & ? & _). lia.
Qed.

Lemma used_range r : region_inv r → 0 <= used r <= region_size r.
Proof. intros Hinv. rewrite (inv_used_total r Hinv). pose proof (total_le_size r Hinv). lia. Qed.

(** Taking a set of free bytes keeps the invariant when [used] grows by its total. *)
Lemma region_inv_take_blocks r taken size :
  region_inv r → (∀ x, iset_elem x taken → iset_elem x (free_blocks r)) →
  iset_total taken = size → region_inv (take_blocks taken size r) ∧
  used (take_blocks taken size r) = used r + size.
Proof.
  intros Hinv Hsub Htot. pose proof (inv_bounds r Hinv). pose proof (used_range r Hinv).
  pose proof (iset_total_diff (free_blocks r) taken Hsub) as Hd.
  pose proof (iset_total_nonneg taken). pose proof (iset_total_nonneg (iset_diff (free_blocks r) taken)).
  assert (u32 (used r + size) = used r + size) as Hu.
  { apply u32_id. rewrite (inv_used_total r Hinv) in *. lia. }
  split; [|done]. split; simpl.
  - done.
  - intros x Hx. apply iset_diff_spec in Hx as [Hx _]. by apply inv_inside.
  - rewrite Hu, Hd, (inv_used_total r Hinv). lia.
Qed.

Lemma region_inv_take_interval r lo size :
  region_inv r → 0 <= size → free_range r lo size →
  region_inv (take_interval (lo, lo + size) size r) ∧
  used (take_interval (lo, lo + size) size r) = used r + size ∧
  ∀ x, iset_elem x (free_blocks (take_interval (lo, lo + size) size r)) ↔
       iset_elem x (free_blocks r) ∧ ~ (lo <= x < lo + size).
Proof.
  intros Hinv Hsz Hfree. pose proof (inv_bounds r Hinv). pose proof (used_range r Hinv).
  pose proof (iset_total_sub (free_blocks r) (lo, lo + size)) as Hd. simpl in Hd.
  specialize (Hd ltac:(lia) Hfree).
  pose proof (iset_total_nonneg (iset_sub (lo, lo + size) (free_blocks r))).
  assert (u32 (used r + size) = used r + size) as Hu.
  { apply u32_id. rewrite (inv_used_total r Hinv) in *. lia. }
  split_and!; [|done|]; [split; simpl|].
  - done.
  - intros x Hx. apply iset_sub_spec in Hx as [Hx _]. by apply inv_inside.
  - rewrite Hu, Hd, (inv_used_total r Hinv). lia.
  - intros x. simpl. by rewrite iset_sub_spec.
Qed.

(** *** The heap allocator *)

Lemma segmented_app_inv l k :
  segmented (l ++ k) → segmented l ∧ segmented k ∧
  ∀ i j, i ∈ l → j ∈ k → i.2 < j.1.
Proof.
  induction l as [|i l IH]; simpl; intros Hs; [split_and!; [constructor|done|set_solver]|].
  apply segmented_inv in Hs as (Hlt & Hgap & Hs). destruct (IH Hs) as (H1 & H2 & H3).
  split_and!; [|done|].
  - apply segmented_sub_cons; [done| |done]. set_solver.
  - intros i' j [->|Hi]%elem_of_cons Hj; [|auto]. apply Hgap. set_solver.
Qed.

(** The loop after the blocks [suf] were taken whole: [all = reverse bs ++ suf]. *)
Lemma heap_loop_spec bs suf (result : IS) rest :
  segmented (reverse bs ++ suf) →
  (∀ i, i ∈ bs → 0 <= i.1 ∧ i.2 < 2 ^ 32) →
  (∀ x, iset_elem x result ↔ in_segments x suf) → 0 <= rest < 2 ^ 32 →
  (segments_total bs < rest ∧ 0 < (heap_loop bs result rest).2) ∨
  (rest <= segments_total bs ∧ (heap_loop bs result rest).2 = 0 ∧
   iset_total (heap_loop bs result rest).1 = iset_total result + rest ∧
   (∀ x, iset_elem x (heap_loop bs result rest).1 → in_segments x (reverse bs ++ suf)) ∧
   (∀ x y, iset_elem x (heap_loop bs result rest).1 → in_segments y (reverse bs ++ suf) →
           ~ iset_elem y (heap_loop bs result rest).1 → y < x)).
Proof.
  revert suf result rest. induction bs as [|i bs IH]; intros suf result rest Hs Hb Hel Hr; simpl.
  - destruct (decide (rest = 0)) as [->|]; [right|left; lia].
    split_and!; [lia|done|lia|intros x; by rewrite Hel|]. intros x y _ Hy Hny. by rewrite Hel in Hny.
  - rewrite reverse_cons, <- app_assoc in Hs |- *. simpl in Hs.
    apply segmented_app_inv in Hs as Hs'. destruct Hs' as (Hrev & Hs1 & Hgap).
    apply segmented_inv in Hs1 as (Hi & Hgapi & _).
    destruct (Hb i ltac:(set_solver)) as [H1 H2]. rewrite (u32_id (i.2 - i.1)) by lia.
    assert (0 <= segments_total bs) as Hnn.
    { clear -Hb Hrev. assert (∀ j, j ∈ bs → j.1 < j.2) as Hall.
      { intros j Hj. eapply segmented_nonempty; [done|]. by rewrite elem_of_reverse. }
      clear -Hall. induction bs as [|j bs IH]; simpl; [lia|].
      pose proof (Hall j ltac:(set_solver)). specialize (IH ltac:(set_solver)). lia. }
    destruct (Z.leb_spec rest (i.2 - i.1)) as [Hle|Hgt].
    + right. simpl. rewrite u32_id by lia.
      assert (∀ x, iset_elem x result → i.2 < x) as Habove.
      { intros x Hx. apply Hel in Hx. by apply (in_segments_above suf). }
      split_and!; [lia|done| | |].
      * rewrite iset_total_add; simpl; [lia|lia|].
        intros x Hx Hx'. apply Habove in Hx'. unfold in_interval in Hx. simpl in Hx. lia.
      * intros x Hx. apply in_segments_app. right. apply in_segments_cons.
        apply iset_add_spec in Hx as [Hx|Hx]; [left|right; by apply Hel].
        unfold in_interval in *. simpl in Hx. lia.
      * intros x y Hx Hy Hny. rewrite iset_add_spec in Hx, Hny. unfold in_interval in Hx, Hny.
        simpl in Hx, Hny. apply in_segments_app in Hy as [Hy|Hy].
        -- destruct Hy as (j & Hj & Hjy). unfold in_interval in Hjy.
           specialize (Hgap j i Hj ltac:(set_solver)).
           destruct Hx as [Hx|Hx]; [lia|]. specialize (Habove x Hx). lia.
        -- apply in_segments_cons in Hy as [Hy|Hy]; [|exfalso; apply Hny; right; by apply Hel].
           unfold in_interval in Hy. destruct Hx as [Hx|Hx]; [lia|]. specialize (Habove x Hx). lia.
    + rewrite (u32_id (rest - (i.2 - i.1))) by lia.
      destruct (IH (i :: suf) (iset_add i result) (rest - (i.2 - i.1)))
        as [(Hlt & Hpos)|(Hle & Hz & Htot & Hin & Hmax)].
      * done.
      * set_solver.
      * intros x. rewrite iset_add_spec, in_segments_cons, Hel. done.
      * lia.
      * left. split; [lia|done].
      * right. split_and!; [lia|done| |done|done].
        rewrite Htot, iset_total_add; [lia|lia|]. intros x Hx Hx'. apply Hel in Hx'.
        apply (in_segments_above suf i.2) in Hx'; [unfold in_interval in Hx; lia|done].
Qed.

Lemma segments_total_reverse l : segments_total (reverse l) = segments_total l.
Proof.
  assert (∀ l k, segments_total (l ++ k) = segments_total l + segments_total k) as Happ.
  { clear. induction l as [|i l IH]; intros k; [done|]. unfold segments_total in *. simpl.
    rewrite IH. lia. }
  induction l as [|i l IH]; [done|]. rewrite reverse_cons, Happ, IH. unfold segments_total.
  simpl. lia.
Qed.

(** *** The linear allocators *)

Lemma linear_loop_spec l size :
  (∀ i, i ∈ l → i.1 < i.2 ∧ 0 <= i.1 ∧ i.2 < 2 ^ 32) → 0 <= size < 2 ^ 32 → segmented l →
  (∃ i, i ∈ l ∧ size <= i.2 - i.1 ∧ linear_loop l size = Some (i.1, i.1 + size) ∧
        ∀ j, j ∈ l → size <= j.2 - j.1 → i.1 <= j.1) ∨
  (linear_loop l size = None ∧ ∀ j, j ∈ l → j.2 - j.1 < size).
Proof.
  induction l as [|i l IH]; intros Hb Hsz Hs; simpl; [right; set_solver|].
  apply segmented_inv in Hs as (Hi & Hgap & Hs). destruct (Hb i ltac:(set_solver)) as (_ & H1 & H2).
  rewrite (u32_id (i.2 - i.1)) by lia. destruct (Z.leb_spec size (i.2 - i.1)).
  - left. exists i. split_and!; [set_solver|done|by rewrite u32_id by lia|].
    intros j [->|Hj]%elem_of_cons _; [lia|]. specialize (Hgap j Hj). lia.
  - destruct IH as [(k & Hk & Hks & E & Hmin)|(E & Hall)]; [set_solver|done|done|left|right].
    + exists k. split_and!; [set_solver|done|done|].
      intros j [->|Hj]%elem_of_cons Hjs; [lia|auto].
    + split; [done|]. intros j [->|Hj]%elem_of_cons; [lia|auto].
Qed.

Lemma rlinear_loop_spec bs size :
  (∀ i, i ∈ bs → i.1 < i.2 ∧ 0 <= i.1 ∧ i.2 < 2 ^ 32) → 0 <= size < 2 ^ 32 →
  segmented (reverse bs) →
  (∃ i, i ∈ bs ∧ size <= i.2 - i.1 ∧ rlinear_loop bs size = Some (i.2 - size, i.2) ∧
        ∀ j, j ∈ bs → size <= j.2 - j.1 → j.2 <= i.2) ∨
  (rlinear_loop bs size = None ∧ ∀ j, j ∈ bs → j.2 - j.1 < size).
Proof.
  induction bs as [|i bs IH]; intros Hb Hsz Hs; simpl; [right; set_solver|].
  rewrite reverse_cons in Hs. apply segmented_app_inv in Hs as (Hs & _ & Hgap).
  destruct (Hb i ltac:(set_solver)) as (Hi & H1 & H2).
  rewrite (u32_id (i.2 - i.1)) by lia. destruct (Z.leb_spec size (i.2 - i.1)).
  - left. exists i. split_and!; [set_solver|done|by rewrite u32_id by lia|].
    intros j [->|Hj]%elem_of_cons _; [lia|].
    specialize (Hgap j i ltac:(by rewrite elem_of_reverse) ltac:(set_solver)). lia.
  - destruct IH as [(k & Hk & Hks & E & Hmax)|(E & Hall)]; [set_solver|done|done|left|right].
    + exists k. split_and!; [set_solver|done|done|].
      intros j [->|Hj]%elem_of_cons Hjs; [lia|auto].
    + split; [done|]. intros j [->|Hj]%elem_of_cons; [lia|auto].
Qed.

(** [size] free bytes in a row lie in one block. *)
Lemma free_range_segment r off size :
  0 < size → free_range r off size →
  ∃ j, j ∈ iset_segments (free_blocks r) ∧ j.1 <= off ∧ off + size <= j.2.
Proof.
  intros Hsz Hfree. apply (segment_of_interval _ (off, off + size)); simpl.
  - apply iset_segmented.
  - lia.
  - intros x Hx. by apply Hfree.
Qed.

Lemma segments_ok r :
  region_inv r → ∀ i, i ∈ iset_segments (free_blocks r) → i.1 < i.2 ∧ 0 <= i.1 ∧ i.2 < 2 ^ 32.
Proof.
  intros Hinv i Hi. destruct (segment_bounds r i Hinv Hi) as (? & ? & ? & _).
  pose proof (inv_bounds r Hinv). lia.
Qed.

End Proofs.

(** ** Theorems *)

Section Theorems.
Context {IS : Type} `{IntervalSetLaws IS}.
Implicit Types r : MemoryRegionInfo IS.

Lemma HeapAllocate_ok r size :
  region_inv r → is_locked r = false → 0 <= size < 2 ^ 32 →
  (size <= iset_total (free_blocks r) ∧
   ∃ result r', HeapAllocate size r = Some (result, r') ∧
     iset_total result = size ∧
     (∀ x, iset_elem x result → iset_elem x (free_blocks r)) ∧
     (∀ x, iset_elem x (free_blocks r') ↔ iset_elem x (free_blocks r) ∧ ~ iset_elem x result) ∧
     (∀ x y, iset_elem x result → iset_elem y (free_blocks r') → y < x) ∧
     region_inv r' ∧ used r' = used r + size) ∨
  (iset_total (free_blocks r) < size ∧ HeapAllocate size r = Some (iset_empty, r)).
Proof.
  intros Hinv Hlock Hsz. unfold HeapAllocate. rewrite Hlock. simpl.
  set (l := iset_segments (free_blocks r)).
  destruct (heap_loop_spec (reverse l) [] iset_empty size)
    as [(Hlt & Hpos)|(Hle & Hz & Htot & Hin & Hmax)].
  - rewrite reverse_involutive, app_nil_r. apply iset_segmented.
  - intros i Hi. rewrite elem_of_reverse in Hi. apply (segments_ok r Hinv) in Hi. lia.
  - intros x. pose proof (iset_elem_empty (IS := IS) x). pose proof (in_segments_nil x). tauto.
  - done.
  - right. rewrite segments_total_reverse in Hlt. split; [exact Hlt|].
    destruct (heap_loop (reverse l) iset_empty size) as [res rest]. simpl in *.
    destruct (Z.eqb_spec rest 0); [lia|done].
  - left. rewrite segments_total_reverse in Hle. split; [exact Hle|].
    rewrite reverse_involutive, app_nil_r in Hin, Hmax.
    destruct (heap_loop (reverse l) iset_empty size) as [res rest]. simpl in *. subst rest. simpl.
    assert (iset_total (iset_empty (IS := IS)) = 0) as He
      by (unfold iset_total; by rewrite iset_empty_spec).
    destruct (region_inv_take_blocks r res size Hinv Hin) as [Hinv' Hused]; [lia|].
    exists res, (take_blocks res size r). split_and!; try done; [lia| |].
    + intros x. apply iset_diff_spec.
    + intros x y Hx Hy. apply iset_diff_spec in Hy as [Hy Hny]. by eapply Hmax.
Qed.

(** The heap allocator.  On an unlocked region, a request for at most the free total is
    granted with a set of exactly [size] bytes that were free and that lie above all the bytes
    that stay free; [used] grows by [size] and the invariant is kept.  A larger request returns
    the empty set and changes nothing. *)
Theorem heap_allocate_spec r size :
  region_inv r → is_locked r = false → 0 <= size < 2 ^ 32 →
  (size <= iset_total (free_blocks r) ∧
   ∃ result r', HeapAllocate size r = Some (result, r') ∧
     iset_total result = size ∧
     (∀ x, iset_elem x result → iset_elem x (free_blocks r)) ∧
     (∀ x, iset_elem x (free_blocks r') ↔ iset_elem x (free_blocks r) ∧ ~ iset_elem x result) ∧
     (∀ x y, iset_elem x result → iset_elem y (free_blocks r') → y < x) ∧
     region_inv r' ∧ used r' = used r + size) ∨
  (iset_total (free_blocks r) < size ∧ HeapAllocate size r = Some (iset_empty, r)).
Proof. apply HeapAllocate_ok. Qed.

Lemma LinearAllocate_ok r size :
  region_inv r → is_locked r = false → 0 < size < 2 ^ 32 →
  (∃ i, i ∈ iset_segments (free_blocks r) ∧
     LinearAllocate size r = Some (Some i.1, take_interval (i.1, i.1 + size) size r) ∧
     free_range r i.1 size ∧ (∀ off', free_range r off' size → i.1 <= off') ∧
     region_inv (take_interval (i.1, i.1 + size) size r)) ∨
  (LinearAllocate size r = Some (None, r) ∧ ∀ off', ~ free_range r off' size).
Proof.
  intros Hinv Hlock Hsz. unfold LinearAllocate. rewrite Hlock. simpl.
  pose proof (segments_ok r Hinv) as Hok.
  destruct (linear_loop_spec (iset_segments (free_blocks r)) size)
    as [(i & Hi & His & E & Hmin)|(E & Hall)]; [done|lia|apply iset_segmented|left|right]; rewrite E.
  - assert (free_range r i.1 size) as Hfree.
    { intros x Hx. apply (segment_elems r i Hi). lia. }
    exists i. split_and!; [done|done|done| |by apply region_inv_take_interval; [|lia|]].
    intros off' Hf. destruct (free_range_segment r off' size) as (j & Hj & ? & ?); [lia|done|].
    specialize (Hmin j Hj ltac:(lia)). lia.
  - split; [done|]. intros off' Hf.
    destruct (free_range_segment r off' size) as (j & Hj & ? & ?); [lia|done|].
    specialize (Hall j Hj). lia.
Qed.

(** The linear allocators find the lowest ([LinearAllocate]) and the highest
    ([RLinearAllocate]) address from which [size] bytes are free, take exactly those bytes, and
    fail without a change exactly when there is no such address. *)
Theorem linear_allocate_best_fit r size :
  region_inv r → is_locked r = false → 0 < size < 2 ^ 32 →
  ((∃ off, LinearAllocate size r = Some (Some off, take_interval (off, off + size) size r) ∧
      free_range r off size ∧ (∀ off', free_range r off' size → off <= off') ∧
      region_inv (take_interval (off, off + size) size r)) ∨
   (LinearAllocate size r = Some (None, r) ∧ ∀ off', ~ free_range r off' size)) ∧
  ((∃ off, RLinearAllocate size r = Some (Some off, take_interval (off, off + size) size r) ∧
      free_range r off size ∧ (∀ off', free_range r off' size → off' <= off) ∧
      region_inv (take_interval (off, off + size) size r)) ∨
   (RLinearAllocate size r = Some (None, r) ∧ ∀ off', ~ free_range r off' size)).
Proof.
  intros Hinv Hlock Hsz. split.
  { destruct (LinearAllocate_ok r size) as [(i & _ & ?)|?]; try done; [left; by exists i.1|by right]. }
  unfold RLinearAllocate. rewrite Hlock. simpl. pose proof (segments_ok r Hinv) as Hok.
  destruct (rlinear_loop_spec (reverse (iset_segments (free_blocks r))) size)
    as [(i & Hi & His & E & Hmax)|(E & Hall)].
  - intros i Hi. apply Hok. by rewrite elem_of_reverse in Hi.
  - lia.
  - rewrite reverse_involutive. apply iset_segmented.
  - left. rewrite E. rewrite elem_of_reverse in Hi.
    assert (free_range r (i.2 - size) size) as Hfree.
    { intros x Hx. apply (segment_elems r i Hi). lia. }
    destruct (region_inv_take_interval r (i.2 - size) size) as [Hinv' _]; [done|lia|done|].
    exists (i.2 - size). replace (i.2 - size + size) with i.2 in * by lia.
    split_and!; [done|done| |done].
    intros off' Hf. destruct (free_range_segment r off' size) as (j & Hj & ? & ?); [lia|done|].
    specialize (Hmax j ltac:(by rewrite elem_of_reverse) ltac:(lia)). lia.
  - right. rewrite E. split; [done|]. intros off' Hf.
    destruct (free_range_segment r off' size) as (j & Hj & ? & ?); [lia|done|].
    specialize (Hall j ltac:(by rewrite elem_of_reverse)). lia.
Qed.

(** Freeing a range of the region none of whose bytes is free. *)
Lemma Free_ok r offset size :
  region_inv r → is_locked r = false → region_base r <= offset → 0 <= size →
  offset + size <= region_base r + region_size r →
  (∀ x, offset <= x < offset + size → ~ iset_elem x (free_blocks r)) →
  ∃ r', Free offset size r = Some r' ∧ region_inv r' ∧ is_locked r' = false ∧
    region_base r' = region_base r ∧ region_size r' = region_size r ∧ used r' = used r - size ∧
    ∀ x, iset_elem x (free_blocks r') ↔ offset <= x < offset + size ∨ iset_elem x (free_blocks r).
Proof.
  intros Hinv Hl Hlo Hs Hhi Hfree. pose proof (inv_bounds r Hinv). unfold Free. rewrite Hl, (u32_id (offset + size)) by lia.
  assert (iset_intersects (free_blocks r) (offset, offset + size) = false) as ->.
  { apply not_true_is_false. rewrite iset_intersects_spec. intros (x & Hx & Hx1). by apply (Hfree x). }
  cbn [negb assert_ mbind option_bind].
  set (f := iset_add (offset, offset + size) (free_blocks r)).
  assert (iset_total f = iset_total (free_blocks r) + size) as Htot.
  { unfold f. rewrite iset_total_add; simpl; [lia|lia|]. intros x Hx. by apply Hfree. }
  assert (region_inv (mkRegion (region_base r) (region_size r) (region_size r - iset_total f) f false)) as Hinv'.
  { split; simpl; [done| |done]. intros x Hx. apply iset_add_spec in Hx as [[? ?]|Hx]; [simpl in *; lia|by apply inv_inside]. }
  assert (u32 (used r - size) = region_size r - iset_total f) as ->.
  { pose proof (total_le_size _ Hinv') as Hle. simpl in Hle. rewrite (inv_used_total r Hinv). rewrite u32_id; lia. }
  eexists. split; [done|]. split; [exact Hinv'|]. split_and!; try done; simpl.
  - rewrite (inv_used_total r Hinv). lia.
  - intros x. unfold f. rewrite iset_add_spec. done.
Qed.

(** Allocating a given range and freeing it again gives back the same free set and the same
    [used]; the assertion of [Free] holds, and a second [Free] of the range is an assertion
    failure.  The request fails, without a change, exactly when some byte of the range is taken. *)
Theorem linear_allocate_free_roundtrip r offset size :
  region_inv r → is_locked r = false → 0 <= offset → 0 < size → offset + size < 2 ^ 32 →
  (free_range r offset size ∧
   ∃ r1 r2, LinearAllocateAt offset size r = Some (true, r1) ∧ region_inv r1 ∧
     Free offset size r1 = Some r2 ∧ region_inv r2 ∧ used r2 = used r ∧
     (∀ x, iset_elem x (free_blocks r2) ↔ iset_elem x (free_blocks r)) ∧
     Free offset size r2 = None) ∨
  (~ free_range r offset size ∧ LinearAllocateAt offset size r = Some (false, r)).
Proof.
  intros Hinv Hlock Hoff Hsz Hend. unfold LinearAllocateAt. rewrite Hlock, u32_id by lia. simpl.
  destruct (iset_contains (free_blocks r) (offset, offset + size)) eqn:Hc; simpl;
    [left|right; split; [|done]].
  2:{ intros Hf. assert (iset_contains (free_blocks r) (offset, offset + size) = true); [|congruence].
      apply iset_contains_spec. intros x Hx. by apply Hf. }
  pose proof (proj1 (iset_contains_spec _ _) Hc) as Hfree.
  destruct (region_inv_take_interval r offset size Hinv ltac:(lia) Hfree) as (Hinv1 & Hu1 & Hel1).
  set (r1 := take_interval (offset, offset + size) size r) in *.
  assert (is_locked r1 = false ∧ region_base r1 = region_base r ∧ region_size r1 = region_size r)
    as (Hl1 & Hb1 & Hs1) by done.
  clearbody r1.
  split; [done|]. pose proof (inv_inside r Hinv _ (Hfree offset ltac:(split; simpl; lia))).
  pose proof (inv_inside r Hinv _ (Hfree (offset + size - 1) ltac:(split; simpl; lia))).
  destruct (Free_ok r1 offset size) as (r2 & E2 & Hinv2 & Hl2 & _ & _ & Hu2 & Hel2); try done; try lia.
  { intros x Hx Hx'. apply Hel1 in Hx' as [_ Hx']. lia. }
  exists r1, r2. split_and!; [done|done|done|done|lia| |].
  - intros x. rewrite Hel2, Hel1. split; [intros [Hx|[Hx _]]; [by apply Hfree|done]|].
    intros Hx. destruct (decide (offset <= x < offset + size)); [by left|by right].
  - unfold Free. rewrite Hl2, (u32_id (offset + size)) by lia.
    rewrite (proj2 (iset_intersects_spec _ _)); [done|]. exists offset.
    split; [split; simpl; lia|]. apply Hel2. lia.
Qed.

(** [MemoryInit] lays out the three regions for exactly the memory modes of the console it
    runs on: the Old 3DS modes 0, 2, 3, 4 and 5 without the New 3DS setting, the modes 6 and 7
    with it; every other combination hits the assertion on the FCRAM size.  The regions it makes
    are empty, adjacent, and cover FCRAM. *)
Theorem memory_init_tiles_fcram (is_new : bool) (mode : nat) r0 r1 r2 :
  is_locked r0 = false → is_locked r1 = false → is_locked r2 = false →
  let total := if is_new then FCRAM_N3DS_SIZE else FCRAM_SIZE in
  if bool_decide (mode ∈ (if is_new then [6; 7] else [0; 2; 3; 4; 5])%nat) then
    ∃ a b c, MemoryInit is_new mode [r0; r1; r2] = Some [a; b; c] ∧
      Forall region_inv [a; b; c] ∧ Forall (λ r : MemoryRegionInfo IS, used r = 0) [a; b; c] ∧
      region_base a = 0 ∧ region_base b = region_size a ∧
      region_base c = region_base b + region_size b ∧ region_base c + region_size c = total
  else MemoryInit is_new mode [r0; r1; r2] = None.
Proof.
  intros H0' H1 H2. unfold MemoryInit, reset_regions, Reset. rewrite H0', H1, H2.
  assert (∀ b s lk, 0 <= b → 0 <= s → b + s < 2 ^ 32 →
            region_inv (mkRegion b s 0 (iset_add (b, u32 (b + s)) (iset_empty (IS := IS))) lk)) as Hfresh.
  { intros b s lk Hb Hs He. rewrite u32_id by lia. split; simpl; [lia| |].
    - intros x Hx. apply iset_add_spec in Hx as [Hx|Hx]; [done|by apply iset_elem_empty in Hx].
    - rewrite iset_total_add; simpl; [|lia|intros x _; apply iset_elem_empty].
      unfold iset_total. rewrite iset_empty_spec. simpl. lia. }
  destruct is_new; destruct mode as [|[|[|[|[|[|[|[|mode]]]]]]]]; simpl; try done;
    (eexists _, _, _; split; [reflexivity|]); rewrite !Forall_cons, !Forall_nil;
    split_and!; try done; by apply Hfresh.
Qed.

End Theorems.

(** ** Witnesses: the list container *)

Definition demo_region : MemoryRegionInfo seg_set :=
  mkRegion 0 0x1000 0 (iset_add (0, 0x1000) iset_empty) false.

Lemma demo_region_inv : region_inv demo_region.
Proof.
  split; simpl; [lia| |reflexivity]. intros x (i & Hi & Hx).
  apply list_elem_of_singleton in Hi. subst. done.
Qed.

Lemma heap_allocate_spec_witness :
  ∃ r', (∃ s, HeapAllocate 0x400 demo_region = Some (s, r')) ∧ used r' = 0x400.
Proof.
  destruct (heap_allocate_spec demo_region 0x400)
    as [(_ & s & r' & E & _ & _ & _ & _ & _ & Hu)|(Hlt & _)].
  - exact demo_region_inv.
  - reflexivity.
  - lia.
  - exists r'. split; [exists s; exact E|]. rewrite Hu. reflexivity.
  - vm_compute in Hlt. discriminate Hlt.
Defined.

Lemma linear_allocate_best_fit_witness :
  free_range demo_region 0 0x400 ∧
  ∃ off r', LinearAllocate 0x400 demo_region = Some (Some off, r').
Proof.
  assert (free_range demo_region 0 0x400) as Hf.
  { intros x Hx. exists (0, 0x1000). split; [apply list_elem_of_here|split; simpl; lia]. }
  split; [exact Hf|].
  destruct (linear_allocate_best_fit demo_region 0x400) as [[(off & E & _)|(_ & Hn)] _].
  - exact demo_region_inv.
  - reflexivity.
  - lia.
  - exists off, (take_interval (off, off + 0x400) 0x400 demo_region). exact E.
  - destruct (Hn 0 Hf).
Defined.

Lemma linear_allocate_free_roundtrip_witness :
  ∃ r1 r2, LinearAllocateAt 0x100 0x200 demo_region = Some (true, r1) ∧
           Free 0x100 0x200 r1 = Some r2 ∧ used r2 = 0.
Proof.
  destruct (linear_allocate_free_roundtrip demo_region 0x100 0x200)
    as [(_ & r1 & r2 & E1 & _ & E2 & _ & Hu & _)|(Hn & _)].
  - exact demo_region_inv.
  - reflexivity.
  - lia.
  - lia.
  - lia.
  - exists r1, r2. split; [exact E1|]. split; [exact E2|]. rewrite Hu. reflexivity.
  - destruct Hn. intros x Hx. exists (0, 0x1000). split; [apply list_elem_of_here|split; simpl; lia].
Defined.

Lemma memory_init_tiles_fcram_witness :
  ∃ a b c, MemoryInit true 6 [demo_region; demo_region; demo_region] = Some [a; b; c] ∧
           region_base c + region_size c = FCRAM_N3DS_SIZE.
Proof.
  destruct (memory_init_tiles_fcram true 6 demo_region demo_region demo_region)
    as (a & b & c & E & _ & _ & _ & _ & _ & Ht); [reflexivity..|].
  exists a, b, c. split; [exact E|exact Ht].
Defined.
