(* ===== verification/PageTable.v ===== *)
(** * Host memory references and page tables
    ([src/src/common/memory_ref.h], [src/src/core/memory.h], [src/src/core/memory.cpp])

    [MemoryRef] is a managed pointer into a host block; a [PageTable] maps each 4 KiB page of an
    address space to a page type and a pointer.  [MapPages] fills a run of pages.  The theorem
    at the end says what every entry holds afterwards, and that an entry whose type is not
    [Memory] has a null pointer, as the comment of [PageTable::attributes] demands. *)

From S2P Require Import Prelude.

Definition CITRA_PAGE_SIZE : Z := 0x1000.
Definition CITRA_PAGE_MASK : Z := CITRA_PAGE_SIZE - 1.
Definition CITRA_PAGE_BITS : Z := 12.
Definition PAGE_TABLE_NUM_ENTRIES : Z := Z.shiftl 1 (32 - CITRA_PAGE_BITS).

(** ** [BackingMem] and [MemoryRef] *)

(** A host block: the address [GetPtr()] returns and [GetSize()]. *)
Record BackingMem := mkBacking { bm_ptr : Z; bm_size : Z }.

#[export] Instance BackingMem_eq_dec : EqDecision BackingMem.
Proof. solve_decision. Defined.

(** [backing_mem] may be null; [cptr] and [csize] are cached from the other two fields. *)
Record MemoryRef := mkRef { backing_mem : option BackingMem; offset : Z }.

#[export] Instance MemoryRef_eq_dec : EqDecision MemoryRef.
Proof. solve_decision. Defined.

Definition null_ref : MemoryRef := mkRef None 0.

(** [cptr] and [csize] as [Init] computes them. *)
Definition GetPtr (m : MemoryRef) : Z :=
  match backing_mem m with Some b => bm_ptr b + offset m | None => 0 end.
Definition GetSize (m : MemoryRef) : Z :=
  match backing_mem m with Some b => u64 (bm_size b - offset m) | None => 0 end.

(** [operator+=] and [operator+]. *)
Definition ref_add (m : MemoryRef) (offset_by : Z) : option MemoryRef :=
  ASSERT (offset_by <? GetSize m) ;;
  Some (mkRef (backing_mem m) (u64 (offset m + offset_by))).

(** ** The page table *)

Inductive PageType : Type :=
| PageUnmapped
| PageMemory
| PageRasterizerCachedMemory
| PageMemoryWatchpoint
| PageRasterizerCachedMemoryWatchpoint.

#[export] Instance PageType_eq_dec : EqDecision PageType.
Proof. solve_decision. Defined.

(** [attributes] and [pointers] together; an absent page holds [(Unmapped, nullptr)]. *)
Abbreviation PageTable := (gmap Z (PageType * MemoryRef)).

Definition page_entry (pt : PageTable) (page : Z) : PageType * MemoryRef :=
  default (PageUnmapped, null_ref) (pt !! page).

(** [PageTable::Clear]. *)
Definition PageTable_Clear (pt : PageTable) : PageTable := ∅.

Section MapPages.
(** [impl->cache_marker.IsCached] of the page: whether the rasterizer caches it. *)
Context (is_cached : Z → bool).

(** The loop of [MapPages]; [n] is [end - base]. *)
Fixpoint map_pages_loop (n : nat) (base : Z) (memory : MemoryRef) (type : PageType)
    (pt : PageTable) : option PageTable :=
  match n with
  | O => Some pt
  | S n =>
      ASSERT (base <? PAGE_TABLE_NUM_ENTRIES) ;;
      let entry :=
        if bool_decide (type = PageMemory) && is_cached base
        then (PageRasterizerCachedMemory, null_ref) else (type, memory) in
      memory ← (if negb (GetPtr memory =? 0) && (CITRA_PAGE_SIZE <? GetSize memory)
                then ref_add memory CITRA_PAGE_SIZE else Some memory);
      map_pages_loop n (base + 1) memory type (<[base := entry]> pt)
  end.
Definition MapPages (pt : PageTable) (base size : Z) (memory : MemoryRef) (type : PageType)
  : option PageTable := map_pages_loop (Z.to_nat size) base memory type pt.

Definition MapMemoryRegion (pt : PageTable) (base size : Z) (target : MemoryRef)
  : option PageTable :=
  ASSERT (Z.land size CITRA_PAGE_MASK =? 0) ;;
  ASSERT (Z.land base CITRA_PAGE_MASK =? 0) ;;
  MapPages pt (base / CITRA_PAGE_SIZE) (size / CITRA_PAGE_SIZE) target PageMemory.

Definition UnmapRegion (pt : PageTable) (base size : Z) : option PageTable :=
  ASSERT (Z.land size CITRA_PAGE_MASK =? 0) ;;
  ASSERT (Z.land base CITRA_PAGE_MASK =? 0) ;;
  MapPages pt (base / CITRA_PAGE_SIZE) (size / CITRA_PAGE_SIZE) null_ref PageUnmapped.

(** ** What a mapped page holds *)

(** A reference to [n] bytes of a block. *)
Definition ref_holds (m : MemoryRef) (n : Z) : Prop :=
  ∃ b, backing_mem m = Some b ∧ 0 < bm_ptr b ∧ 0 <= offset m ∧ offset m + n <= bm_size b ∧
       bm_size b < 2 ^ 64.

(** The entry of page [k] of a region of memory. *)
Definition memory_page (m : MemoryRef) (base k : Z) : PageType * MemoryRef :=
  if is_cached (base + k) then (PageRasterizerCachedMemory, null_ref)
  else (PageMemory, mkRef (backing_mem m) (offset m + k * CITRA_PAGE_SIZE)).

End MapPages.

(** ** Proofs *)

Section Proofs.
Context (is_cached : Z → bool).

Lemma page_aligned x : Z.land x CITRA_PAGE_MASK = x `mod` CITRA_PAGE_SIZE.
Proof. unfold CITRA_PAGE_MASK. change (CITRA_PAGE_SIZE - 1) with (Z.ones 12). by rewrite Z.land_ones. Qed.

Lemma PAGE_TABLE_NUM_ENTRIES_val : PAGE_TABLE_NUM_ENTRIES = 2 ^ 20.
Proof. done. Qed.

Lemma GetSize_holds m n : 0 <= n → ref_holds m n → n <= GetSize m ∧ 0 < GetPtr m.
Proof.
  intros Hn (b & Hb & Hp & Ho & Hs & H64). unfold GetSize, GetPtr. rewrite Hb.
  rewrite u64_id by lia. lia.
Qed.

Lemma ref_add_holds m n k :
  0 <= k → 0 < n → ref_holds m (k + n) →
  ref_add m k = Some (mkRef (backing_mem m) (offset m + k)) ∧
  ref_holds (mkRef (backing_mem m) (offset m + k)) n.
Proof.
  intros Hk Hn Hm. pose proof (GetSize_holds m (k + n) ltac:(lia) Hm) as [Hsz _].
  destruct Hm as (b & Hb & Hp & Ho & Hs & H64). unfold ref_add.
  destruct (Z.ltb_spec k (GetSize m)); [|lia]. simpl. rewrite u64_id by lia.
  split; [done|]. exists b. simpl. split_and!; [done|lia..].
Qed.

Lemma map_unmapped_loop n base pt :
  0 <= base → base + Z.of_nat n <= PAGE_TABLE_NUM_ENTRIES →
  ∃ pt', map_pages_loop is_cached n base null_ref PageUnmapped pt = Some pt' ∧
    ∀ p, page_entry pt' p =
         if in_range base (base + Z.of_nat n) p then (PageUnmapped, null_ref) else page_entry pt p.
Proof.
  revert base pt. induction n as [|n IH]; intros base pt Hb He; simpl map_pages_loop.
  - exists pt. split; [done|]. intros p. rewrite (proj2 (in_range_false _ _ _)) by lia. done.
  - destruct (Z.ltb_spec base PAGE_TABLE_NUM_ENTRIES); [|lia]. simpl.
    destruct (IH (base + 1) (<[base := (PageUnmapped, null_ref)]> pt)) as (pt' & -> & Hpt');
      [lia|lia|].
    exists pt'. split; [done|]. intros p. rewrite Hpt'. unfold page_entry.
    rewrite lookup_insert. destruct (in_range base (base + Z.of_nat (S n)) p) eqn:E1;
      destruct (in_range (base + 1) (base + 1 + Z.of_nat n) p) eqn:E2;
      rewrite ?in_range_iff, ?in_range_false in *; try lia; try case_decide; try lia; done.
Qed.

Lemma map_memory_loop n base m pt :
  0 <= base → base + Z.of_nat n <= PAGE_TABLE_NUM_ENTRIES →
  ref_holds m (Z.of_nat n * CITRA_PAGE_SIZE) →
  ∃ pt', map_pages_loop is_cached n base m PageMemory pt = Some pt' ∧
    ∀ p, page_entry pt' p =
         if in_range base (base + Z.of_nat n) p then memory_page is_cached m base (p - base)
         else page_entry pt p.
Proof.
  revert base m pt. induction n as [|n IH]; intros base m pt Hb He Hm; simpl map_pages_loop.
  - exists pt. split; [done|]. intros p. rewrite (proj2 (in_range_false _ _ _)) by lia. done.
  - destruct (Z.ltb_spec base PAGE_TABLE_NUM_ENTRIES); [|lia].
    cbn [assert_ mbind option_bind].
    assert ((if is_cached base then (PageRasterizerCachedMemory, null_ref) else (PageMemory, m))
            = memory_page is_cached m base 0) as ->.
    { unfold memory_page. rewrite Z.add_0_r. simpl.
      destruct (is_cached base); [done|]. rewrite Z.add_0_r. by destruct m. }
    pose proof (GetSize_holds m (Z.of_nat (S n) * CITRA_PAGE_SIZE) ltac:(unfold CITRA_PAGE_SIZE; lia) Hm)
      as [Hsz Hptr].
    destruct (Z.eqb_spec (GetPtr m) 0); [lia|]. cbn [negb andb].
    (* the reference moves on, except on the last page of a block that ends with it *)
    assert (n = 0%nat ∨ (0 < n)%nat) as [->|Hn] by lia.
    + assert (∃ m', (if CITRA_PAGE_SIZE <? GetSize m then ref_add m CITRA_PAGE_SIZE else Some m) = Some m')
        as (m' & ->).
      { destruct (Z.ltb_spec CITRA_PAGE_SIZE (GetSize m)) as [Hl|]; [|eauto].
        unfold ref_add. destruct (Z.ltb_spec CITRA_PAGE_SIZE (GetSize m)); [simpl; eauto|lia]. }
      simpl. eexists. split; [done|]. intros p. unfold page_entry. rewrite lookup_insert.
      case_decide as Hp.
      * subst. rewrite (proj2 (in_range_iff _ _ _)) by lia. by rewrite Z.sub_diag.
      * rewrite (proj2 (in_range_false _ _ _)) by lia. done.
    + assert (CITRA_PAGE_SIZE < GetSize m) as Hbig by (unfold CITRA_PAGE_SIZE in *; lia).
      destruct (Z.ltb_spec CITRA_PAGE_SIZE (GetSize m)); [|lia].
      destruct (ref_add_holds m (Z.of_nat n * CITRA_PAGE_SIZE) CITRA_PAGE_SIZE) as [-> Hm'].
      * done.
      * unfold CITRA_PAGE_SIZE. lia.
      * replace (CITRA_PAGE_SIZE + Z.of_nat n * CITRA_PAGE_SIZE)
          with (Z.of_nat (S n) * CITRA_PAGE_SIZE) by lia. done.
      * cbn [mbind option_bind].
        edestruct (IH (base + 1)) as (pt' & -> & Hpt'); [lia|lia|exact Hm'|].
        exists pt'. split; [done|]. intros p. rewrite Hpt'. unfold page_entry.
        rewrite lookup_insert. destruct (in_range base (base + Z.of_nat (S n)) p) eqn:E1;
          destruct (in_range (base + 1) (base + 1 + Z.of_nat n) p) eqn:E2;
          rewrite ?in_range_iff, ?in_range_false in *; try lia.
        -- unfold memory_page. simpl. replace (base + 1 + (p - (base + 1))) with p by lia.
           replace (base + (p - base)) with p by lia. destruct (is_cached p); [done|].
           do 2 f_equal. lia.
        -- rewrite decide_True by lia. simpl. replace (p - base) with 0 by lia. done.
        -- rewrite decide_False by lia. done.
Qed.

Lemma div_page x : 0 <= x → x `mod` CITRA_PAGE_SIZE = 0 → x = CITRA_PAGE_SIZE * (x / CITRA_PAGE_SIZE).
Proof. intros Hx Hm. pose proof (Z.div_mod x CITRA_PAGE_SIZE). unfold CITRA_PAGE_SIZE in *. lia. Qed.

(** [MapMemoryRegion] and [UnmapRegion] on a page-aligned region of the table. *)
Lemma UnmapRegion_spec pt base size :
  0 <= base → 0 <= size → base `mod` CITRA_PAGE_SIZE = 0 → size `mod` CITRA_PAGE_SIZE = 0 →
  base + size <= 2 ^ 32 →
  ∃ pt', UnmapRegion is_cached pt base size = Some pt' ∧
    ∀ p, page_entry pt' p =
         if in_range base (base + size) (p * CITRA_PAGE_SIZE) then (PageUnmapped, null_ref)
         else page_entry pt p.
Proof.
  intros Hb Hs Hba Hsa He. unfold UnmapRegion. rewrite !page_aligned, Hba, Hsa. simpl.
  pose proof (div_page base Hb Hba) as Eb. pose proof (div_page size Hs Hsa) as Es.
  unfold MapPages. unfold CITRA_PAGE_SIZE in Eb, Es.
  destruct (map_unmapped_loop (Z.to_nat (size / CITRA_PAGE_SIZE)) (base / CITRA_PAGE_SIZE) pt)
    as (pt' & -> & Hpt'); unfold CITRA_PAGE_SIZE in *.
  - apply Z.div_pos; lia.
  - rewrite Z2Nat.id by (apply Z.div_pos; lia). rewrite PAGE_TABLE_NUM_ENTRIES_val. lia.
  - exists pt'. split; [done|]. intros p. rewrite Hpt'.
    rewrite Z2Nat.id by (apply Z.div_pos; lia).
    destruct (in_range base (base + size) (p * 4096)) eqn:E1;
      destruct (in_range (base / 4096) (base / 4096 + size / 4096) p) eqn:E2;
      rewrite ?in_range_iff, ?in_range_false in *; try lia; done.
Qed.

Lemma MapMemoryRegion_spec pt base size m :
  0 <= base → 0 <= size → base `mod` CITRA_PAGE_SIZE = 0 → size `mod` CITRA_PAGE_SIZE = 0 →
  base + size <= 2 ^ 32 → ref_holds m size →
  ∃ pt', MapMemoryRegion is_cached pt base size m = Some pt' ∧
    ∀ p, page_entry pt' p =
         if in_range base (base + size) (p * CITRA_PAGE_SIZE)
         then (if is_cached p then (PageRasterizerCachedMemory, null_ref)
               else (PageMemory, mkRef (backing_mem m) (offset m + (p * CITRA_PAGE_SIZE - base))))
         else page_entry pt p.
Proof.
  intros Hb Hs Hba Hsa He Hm. unfold MapMemoryRegion. rewrite !page_aligned, Hba, Hsa. simpl.
  pose proof (div_page base Hb Hba) as Eb. pose proof (div_page size Hs Hsa) as Es.
  unfold MapPages. unfold CITRA_PAGE_SIZE in Eb, Es.
  assert (0 <= size / 4096) by (apply Z.div_pos; lia).
  assert (0 <= base / 4096) by (apply Z.div_pos; lia).
  destruct (map_memory_loop (Z.to_nat (size / CITRA_PAGE_SIZE)) (base / CITRA_PAGE_SIZE) m pt)
    as (pt' & -> & Hpt'); unfold CITRA_PAGE_SIZE in *.
  - done.
  - rewrite Z2Nat.id by done. rewrite PAGE_TABLE_NUM_ENTRIES_val. lia.
  - rewrite Z2Nat.id by done. by rewrite Z.mul_comm, <- Es.
  - exists pt'. split; [done|]. intros p. rewrite Hpt', Z2Nat.id by done.
    destruct (in_range base (base + size) (p * 4096)) eqn:E1;
      destruct (in_range (base / 4096) (base / 4096 + size / 4096) p) eqn:E2;
      rewrite ?in_range_iff, ?in_range_false in *; try lia; [|done].
    unfold memory_page, CITRA_PAGE_SIZE. replace (base / 4096 + (p - base / 4096)) with p by lia.
    destruct (is_cached p); [done|]. do 2 f_equal. lia.
Qed.

End Proofs.
