(* ===== verification/Memory.v ===== *)
(** * Guest memory accesses ([src/src/core/memory.h], [src/src/core/memory.cpp])

    [MemorySystem] reads and writes the address space of a process through its page table.  Host
    memory is a map from host addresses to bytes; an access outside every host block is undefined
    ([None]).  A page that the rasterizer caches has no pointer: the access first asks the renderer
    to flush or invalidate the range and then goes to FCRAM or VRAM directly.  What the renderer
    writes back is a parameter; the accesses to GPU registers are a parameter (reads) and a log
    (writes).

    The theorems compare the accesses that work page by page with a reference that translates
    every byte address on its own, and follow the watchpoints and the rasterizer's page marks. *)

From S2P Require Import Prelude PageTable MemoryRegion.

(** ** The memory map *)

Definition VRAM_PADDR : Z := 0x18000000.
Definition VRAM_SIZE : Z := 0x00600000.
Definition VRAM_PADDR_END : Z := VRAM_PADDR + VRAM_SIZE.
Definition N3DS_EXTRA_RAM_PADDR : Z := 0x1F000000.
Definition N3DS_EXTRA_RAM_SIZE : Z := 0x00400000.
Definition DSP_RAM_PADDR : Z := 0x1FF00000.
Definition DSP_RAM_SIZE : Z := 0x00080000.
Definition IO_AREA_PADDR : Z := 0x10100000.
Definition FCRAM_PADDR : Z := 0x20000000.
Definition FCRAM_PADDR_END : Z := FCRAM_PADDR + FCRAM_SIZE.
Definition FCRAM_N3DS_PADDR_END : Z := FCRAM_PADDR + FCRAM_N3DS_SIZE.

Definition PROCESS_IMAGE_VADDR : Z := 0x00100000.
Definition IPC_MAPPING_VADDR : Z := 0x04000000.
Definition IPC_MAPPING_SIZE : Z := 0x04000000.
Definition HEAP_VADDR : Z := 0x08000000.
Definition HEAP_SIZE : Z := 0x08000000.
Definition HEAP_VADDR_END : Z := HEAP_VADDR + HEAP_SIZE.
Definition SHARED_MEMORY_VADDR : Z := 0x10000000.
Definition SHARED_MEMORY_SIZE : Z := 0x04000000.
Definition SHARED_MEMORY_VADDR_END : Z := SHARED_MEMORY_VADDR + SHARED_MEMORY_SIZE.
Definition LINEAR_HEAP_VADDR : Z := 0x14000000.
Definition LINEAR_HEAP_SIZE : Z := 0x08000000.
Definition LINEAR_HEAP_VADDR_END : Z := LINEAR_HEAP_VADDR + LINEAR_HEAP_SIZE.
Definition VRAM_VADDR : Z := 0x1F000000.
Definition VRAM_VADDR_END : Z := VRAM_VADDR + VRAM_SIZE.
Definition TLS_AREA_VADDR : Z := 0x1FF82000.
Definition TLS_ENTRY_SIZE : Z := 0x200.
Definition NEW_LINEAR_HEAP_VADDR : Z := 0x30000000.
Definition NEW_LINEAR_HEAP_SIZE : Z := 0x10000000.
Definition NEW_LINEAR_HEAP_VADDR_END : Z := NEW_LINEAR_HEAP_VADDR + NEW_LINEAR_HEAP_SIZE.
Definition PLUGIN_3GX_FB_VADDR : Z := 0x06000000.
Definition PLUGIN_3GX_FB_SIZE : Z := 0x000A9000.
Definition PLUGIN_3GX_FB_VADDR_END : Z := PLUGIN_3GX_FB_VADDR + PLUGIN_3GX_FB_SIZE.

Inductive FlushMode : Type := Flush | Invalidate | FlushAndInvalidate.

(** ** State *)

(** [PhysMemRegionInfo]; no block means [valid()] is false. *)
Record PhysMemRegionInfo := mkRegionInfo {
  info_backing : option BackingMem;
  info_start : Z;
  info_end : Z }.

(** The four arrays of [RasterizerCacheMarker]. *)
Inductive marker_area : Type := MarkVram | MarkLinearHeap | MarkNewLinearHeap | MarkPluginFb.

#[export] Instance marker_area_eq_dec : EqDecision marker_area.
Proof. solve_decision. Defined.
#[export] Instance marker_area_countable : Countable marker_area.
Proof.
  refine (inj_countable'
            (λ a, match a with MarkVram => 0 | MarkLinearHeap => 1 | MarkNewLinearHeap => 2 | MarkPluginFb => 3 end)
            (λ n : Z, match n with 0 => MarkVram | 1 => MarkLinearHeap | 2 => MarkNewLinearHeap | _ => MarkPluginFb end)
            _). by intros [].
Defined.

Record MemorySystem := mkMemory {
  fcram_mem : BackingMem;
  vram_mem : BackingMem;
  n3ds_extra_ram_mem : BackingMem;
  dsp_mem : BackingMem;
  other_mem : list BackingMem;
  host : gmap Z Z;
  plugin_fb_address : Z;
  cache_marker : gset (marker_area * Z);
  phys_mem_region_info_cache : PhysMemRegionInfo;
  gpu_writes : list (Z * Z) }.

Definition set_host (ms : MemorySystem) (h : gmap Z Z) : MemorySystem :=
  mkMemory (fcram_mem ms) (vram_mem ms) (n3ds_extra_ram_mem ms) (dsp_mem ms) (other_mem ms) h
    (plugin_fb_address ms) (cache_marker ms) (phys_mem_region_info_cache ms) (gpu_writes ms).
Definition set_marker (ms : MemorySystem) (c : gset (marker_area * Z)) : MemorySystem :=
  mkMemory (fcram_mem ms) (vram_mem ms) (n3ds_extra_ram_mem ms) (dsp_mem ms) (other_mem ms) (host ms)
    (plugin_fb_address ms) c (phys_mem_region_info_cache ms) (gpu_writes ms).
Definition set_region_cache (ms : MemorySystem) (i : PhysMemRegionInfo) : MemorySystem :=
  mkMemory (fcram_mem ms) (vram_mem ms) (n3ds_extra_ram_mem ms) (dsp_mem ms) (other_mem ms) (host ms)
    (plugin_fb_address ms) (cache_marker ms) i (gpu_writes ms).
Definition WriteReg (addr data : Z) (ms : MemorySystem) : MemorySystem :=
  mkMemory (fcram_mem ms) (vram_mem ms) (n3ds_extra_ram_mem ms) (dsp_mem ms) (other_mem ms) (host ms)
    (plugin_fb_address ms) (cache_marker ms) (phys_mem_region_info_cache ms) (gpu_writes ms ++ [(addr, data)]).

(** A page table with its watchpoints: the count and the memory of every page that has some. *)
Record Pages := mkPages {
  entries : PageTable;
  watchpoint_pages_map : gmap Z (Z * MemoryRef) }.

(** ** Host memory *)

Definition host_blocks (ms : MemorySystem) : list BackingMem :=
  fcram_mem ms :: vram_mem ms :: n3ds_extra_ram_mem ms :: dsp_mem ms :: other_mem ms.

(** [n] bytes from [p] lie in one host block. *)
Definition host_valid (ms : MemorySystem) (p n : Z) : bool :=
  existsb (λ b, (bm_ptr b <=? p) && (p + n <=? bm_ptr b + bm_size b)) (host_blocks ms).

Definition host_byte (h : gmap Z Z) (a : Z) : Z := default 0 (h !! a).
Definition host_bytes (h : gmap Z Z) (p : Z) (n : nat) : list Z := host_byte h <$> seqZ p (Z.of_nat n).
Fixpoint host_set (p : Z) (l : list Z) (h : gmap Z Z) : gmap Z Z :=
  match l with
  | [] => h
  | x :: l => host_set (p + 1) l (<[p := x]> h)
  end.

(** [std::memcpy] from and to host memory. *)
Definition load_bytes (ms : MemorySystem) (p n : Z) : option (list Z) :=
  ASSERT (host_valid ms p n) ;; Some (host_bytes (host ms) p (Z.to_nat n)).
Definition store_bytes (ms : MemorySystem) (p : Z) (l : list Z) : option MemorySystem :=
  ASSERT (host_valid ms p (Z.of_nat (length l))) ;; Some (set_host ms (host_set p l (host ms))).

(** Little-endian values. *)
Fixpoint le_value (l : list Z) : Z :=
  match l with
  | [] => 0
  | x :: l => x + 2 ^ 8 * le_value l
  end.
Fixpoint le_bytes (n : nat) (v : Z) : list Z :=
  match n with
  | O => []
  | S n => v `mod` 2 ^ 8 :: le_bytes n (v / 2 ^ 8)
  end.

(** ** Pages of the rasterizer *)

(** [RasterizerCacheMarker]. *)
Definition At (addr : Z) : option (marker_area * Z) :=
  if in_range VRAM_VADDR VRAM_VADDR_END addr then Some (MarkVram, (addr - VRAM_VADDR) / CITRA_PAGE_SIZE)
  else if in_range LINEAR_HEAP_VADDR LINEAR_HEAP_VADDR_END addr
  then Some (MarkLinearHeap, (addr - LINEAR_HEAP_VADDR) / CITRA_PAGE_SIZE)
  else if in_range NEW_LINEAR_HEAP_VADDR NEW_LINEAR_HEAP_VADDR_END addr
  then Some (MarkNewLinearHeap, (addr - NEW_LINEAR_HEAP_VADDR) / CITRA_PAGE_SIZE)
  else if in_range PLUGIN_3GX_FB_VADDR PLUGIN_3GX_FB_VADDR_END addr
  then Some (MarkPluginFb, (addr - PLUGIN_3GX_FB_VADDR) / CITRA_PAGE_SIZE)
  else None.
Definition Mark (addr : Z) (cached : bool) (ms : MemorySystem) : MemorySystem :=
  match At addr with
  | Some p => set_marker ms (if cached then {[ p ]} ∪ cache_marker ms else cache_marker ms ∖ {[ p ]})
  | None => ms
  end.
Definition IsCached (addr : Z) (ms : MemorySystem) : bool :=
  match At addr with
  | Some p => bool_decide (p ∈ cache_marker ms)
  | None => false
  end.

(** [MemoryRef(backing_mem, offset)]. *)
Definition make_ref (b : BackingMem) (offset : Z) : option MemoryRef :=
  ASSERT (offset <=? bm_size b) ;; Some (mkRef (Some b) offset).

Definition GetPointerForRasterizerCache (addr : Z) (ms : MemorySystem) : option MemoryRef :=
  if in_range LINEAR_HEAP_VADDR LINEAR_HEAP_VADDR_END addr
  then make_ref (fcram_mem ms) (addr - LINEAR_HEAP_VADDR)
  else if in_range NEW_LINEAR_HEAP_VADDR NEW_LINEAR_HEAP_VADDR_END addr
  then make_ref (fcram_mem ms) (addr - NEW_LINEAR_HEAP_VADDR)
  else if in_range VRAM_VADDR VRAM_VADDR_END addr
  then make_ref (vram_mem ms) (addr - VRAM_VADDR)
  else if in_range PLUGIN_3GX_FB_VADDR PLUGIN_3GX_FB_VADDR_END addr && negb (plugin_fb_address ms =? 0)
  then make_ref (fcram_mem ms) (u32 (addr - PLUGIN_3GX_FB_VADDR + plugin_fb_address ms - FCRAM_PADDR))
  else None.

(** [GetFCRAMRef], [GetFCRAMPointer] and [GetFCRAMOffset]. *)
Definition GetFCRAMRef (offset : Z) (ms : MemorySystem) : option MemoryRef :=
  ASSERT (offset <=? FCRAM_N3DS_SIZE) ;; make_ref (fcram_mem ms) offset.
Definition GetFCRAMPointer (offset : Z) (ms : MemorySystem) : option Z :=
  ASSERT (offset <=? FCRAM_N3DS_SIZE) ;; Some (bm_ptr (fcram_mem ms) + offset).
Definition GetFCRAMOffset (pointer : Z) (ms : MemorySystem) : option Z :=
  ASSERT ((bm_ptr (fcram_mem ms) <=? pointer) && (pointer <=? bm_ptr (fcram_mem ms) + FCRAM_N3DS_SIZE)) ;;
  Some (u32 (pointer - bm_ptr (fcram_mem ms))).

(** ** Accesses *)

Section Accesses.
(** What [FlushRegion], [InvalidateRegion] and [FlushAndInvalidateRegion] of the renderer do to
    host memory, for a physical range; what [GPU::ReadReg] returns. *)
Context (rasterizer : FlushMode → Z → Z → gmap Z Z → gmap Z Z) (ReadReg : Z → Z).

(** The lambda [CheckRegion] of [RasterizerFlushVirtualRegion]. *)
Definition CheckRegion (start end_ : Z) (mode : FlushMode) (region_start region_end paddr_region_start : Z)
    (ms : MemorySystem) : MemorySystem :=
  if (region_end <=? start) || (end_ <=? region_start) then ms
  else
    let overlap_start := Z.max start region_start in
    let overlap_end := Z.min end_ region_end in
    let physical_start := u32 (paddr_region_start + (overlap_start - region_start)) in
    let overlap_size := u32 (overlap_end - overlap_start) in
    set_host ms (rasterizer mode physical_start overlap_size (host ms)).
Definition RasterizerFlushVirtualRegion (start size : Z) (mode : FlushMode) (ms : MemorySystem) : MemorySystem :=
  let end_ := u32 (start + size) in
  let ms := CheckRegion start end_ mode LINEAR_HEAP_VADDR LINEAR_HEAP_VADDR_END FCRAM_PADDR ms in
  let ms := CheckRegion start end_ mode NEW_LINEAR_HEAP_VADDR NEW_LINEAR_HEAP_VADDR_END FCRAM_PADDR ms in
  let ms := CheckRegion start end_ mode VRAM_VADDR VRAM_VADDR_END VRAM_PADDR ms in
  if plugin_fb_address ms =? 0 then ms
  else CheckRegion start end_ mode PLUGIN_3GX_FB_VADDR PLUGIN_3GX_FB_VADDR_END (plugin_fb_address ms) ms.

(** The pointer a page access uses, by the type of the page; [None] inside the result is an
    unmapped page.  [mode] is the flush of a cached page, absent in the unsafe variants. *)
Definition page_pointer (pages : Pages) (page_index page_offset amount : Z) (mode : option FlushMode)
    (ms : MemorySystem) : option (MemorySystem * option Z) :=
  ASSERT (page_index <? PAGE_TABLE_NUM_ENTRIES) ;;
  let '(type, ref) := page_entry (entries pages) page_index in
  match type with
  | PageUnmapped => Some (ms, None)
  | PageMemory => Some (ms, Some (GetPtr ref + page_offset))
  | PageMemoryWatchpoint =>
      '(_, memory) ← watchpoint_pages_map pages !! page_index;
      Some (ms, Some (GetPtr memory + page_offset))
  | PageRasterizerCachedMemory | PageRasterizerCachedMemoryWatchpoint =>
      let current_vaddr := u32 (Z.shiftl page_index CITRA_PAGE_BITS + page_offset) in
      let ms := match mode with
                | Some mode => RasterizerFlushVirtualRegion current_vaddr amount mode ms
                | None => ms
                end in
      ref ← GetPointerForRasterizerCache current_vaddr ms;
      Some (ms, Some (GetPtr ref))
  end.

(** The loop that [ReadBlockImpl], [WriteBlockImpl], [ZeroBlock] and [CopyBlock] share. *)
Fixpoint block_loop {S} (body : Z → Z → Z → S → option S) (fuel : nat)
    (page_index page_offset remaining_size : Z) (s : S) : option S :=
  if remaining_size =? 0 then Some s
  else match fuel with
       | O => None
       | S fuel =>
           let copy_amount := Z.min (CITRA_PAGE_SIZE - page_offset) remaining_size in
           s ← body page_index page_offset copy_amount s;
           block_loop body fuel (page_index + 1) 0 (remaining_size - copy_amount) s
       end.
(** A block touches at most two pages more than it fills. *)
Definition block_fuel (size : Z) : nat := Z.to_nat (size / CITRA_PAGE_SIZE + 2).
Definition for_pages {S} (body : Z → Z → Z → S → option S) (addr size : Z) (s : S) : option S :=
  block_loop body (block_fuel size) (Z.shiftr addr CITRA_PAGE_BITS) (Z.land addr CITRA_PAGE_MASK) size s.

Definition read_page (unsafe : bool) (pages : Pages) (page_index page_offset copy_amount : Z)
    (s : MemorySystem * list Z) : option (MemorySystem * list Z) :=
  let '(ms, dest_buffer) := s in
  '(ms, src_ptr) ← page_pointer pages page_index page_offset copy_amount
                     (if unsafe then None else Some Flush) ms;
  data ← (match src_ptr with
          | None => Some (replicate (Z.to_nat copy_amount) 0)
          | Some src_ptr => load_bytes ms src_ptr copy_amount
          end);
  Some (ms, dest_buffer ++ data).
Definition ReadBlockImpl (unsafe : bool) (pages : Pages) (src_addr size : Z) (ms : MemorySystem)
  : option (MemorySystem * list Z) := for_pages (read_page unsafe pages) src_addr size (ms, []).
Definition ReadBlock (pages : Pages) (src_addr size : Z) (ms : MemorySystem) :=
  ReadBlockImpl false pages src_addr size ms.

(** [src_buffer]: a buffer of the host program, or a pointer into the memory of the guest.
    [memcpy] between overlapping ranges is undefined. *)
Inductive source : Type := FromBuffer (l : list Z) | FromHost (p : Z).
Definition source_take (src : source) (n : Z) (dest_ptr : Z) (ms : MemorySystem) : option (list Z) :=
  match src with
  | FromBuffer l => Some (take (Z.to_nat n) l)
  | FromHost p => ASSERT ((p + n <=? dest_ptr) || (dest_ptr + n <=? p)) ;; load_bytes ms p n
  end.
Definition source_drop (src : source) (n : Z) : source :=
  match src with
  | FromBuffer l => FromBuffer (drop (Z.to_nat n) l)
  | FromHost p => FromHost (p + n)
  end.

Definition write_page (unsafe : bool) (pages : Pages) (page_index page_offset copy_amount : Z)
    (s : MemorySystem * source) : option (MemorySystem * source) :=
  let '(ms, src_buffer) := s in
  '(ms, dest_ptr) ← page_pointer pages page_index page_offset copy_amount
                      (if unsafe then None else Some Invalidate) ms;
  ms ← (match dest_ptr with
        | None => Some ms
        | Some dest_ptr => data ← source_take src_buffer copy_amount dest_ptr ms; store_bytes ms dest_ptr data
        end);
  Some (ms, source_drop src_buffer copy_amount).
Definition WriteBlockImpl (unsafe : bool) (pages : Pages) (dest_addr : Z) (src_buffer : source) (size : Z)
    (ms : MemorySystem) : option MemorySystem :=
  '(ms, _) ← for_pages (write_page unsafe pages) dest_addr size (ms, src_buffer); Some ms.
Definition WriteBlock (pages : Pages) (dest_addr : Z) (src_buffer : source) (size : Z) (ms : MemorySystem) :=
  WriteBlockImpl false pages dest_addr src_buffer size ms.

Definition zero_page (pages : Pages) (page_index page_offset copy_amount : Z) (ms : MemorySystem)
  : option MemorySystem :=
  '(ms, dest_ptr) ← page_pointer pages page_index page_offset copy_amount (Some Invalidate) ms;
  match dest_ptr with
  | None => Some ms
  | Some dest_ptr => store_bytes ms dest_ptr (replicate (Z.to_nat copy_amount) 0)
  end.
Definition ZeroBlock (pages : Pages) (dest_addr size : Z) (ms : MemorySystem) : option MemorySystem :=
  for_pages (zero_page pages) dest_addr size ms.

(** [CopyBlock] between two processes: every chunk of a source page goes through [WriteBlock]. *)
Definition copy_page (dest_pages src_pages : Pages) (page_index page_offset copy_amount : Z)
    (s : MemorySystem * Z) : option (MemorySystem * Z) :=
  let '(ms, dest_addr) := s in
  '(ms, src_ptr) ← page_pointer src_pages page_index page_offset copy_amount (Some Flush) ms;
  ms ← (match src_ptr with
        | None => ZeroBlock dest_pages dest_addr copy_amount ms
        | Some src_ptr => WriteBlock dest_pages dest_addr (FromHost src_ptr) copy_amount ms
        end);
  Some (ms, u32 (dest_addr + copy_amount)).
Definition CopyBlock (dest_pages src_pages : Pages) (dest_addr src_addr size : Z) (ms : MemorySystem)
  : option MemorySystem :=
  '(ms, _) ← for_pages (copy_page dest_pages src_pages) src_addr size (ms, dest_addr); Some ms.

(** ** Single values *)

Definition LUMA_ALIAS_BIT : Z := 0x80000000.

(** [std::memcpy] of one value. *)
Definition load_value (ms : MemorySystem) (p n : Z) : option Z :=
  l ← load_bytes ms p n; Some (le_value l).
Definition store_value (ms : MemorySystem) (p n data : Z) : option MemorySystem :=
  store_bytes ms p (le_bytes (Z.to_nat n) data).

(** [Read<T>] for a value of [n] bytes; the value is absent on an unmapped page, where [T{}] is
    zero and [Read<std::optional<T>>] is empty.  The fast path reads through the page pointer; an
    access that leaves the page goes on in the host block. *)
Definition Read (n : Z) (pages : Pages) (vaddr : Z) (ms : MemorySystem) : option (MemorySystem * option Z) :=
  let page_index := Z.shiftr vaddr CITRA_PAGE_BITS in
  let '(type, ref) := page_entry (entries pages) page_index in
  if negb (GetPtr ref =? 0) then
    value ← load_value ms (GetPtr ref + Z.land vaddr CITRA_PAGE_MASK) n; Some (ms, Some value)
  else
    let paddr := Z.land vaddr (Z.lnot LUMA_ALIAS_BIT) in
    let alias := negb (Z.land vaddr LUMA_ALIAS_BIT =? 0) in
    if alias && (Z.land paddr 0xF0000000 =? FCRAM_PADDR) then
      p ← GetFCRAMPointer (paddr - FCRAM_PADDR) ms;
      value ← load_value ms p n; Some (ms, Some value)
    else if alias && (Z.land paddr 0xF0000000 =? 0x10000000) && (IO_AREA_PADDR <=? paddr) then
      Some (ms, Some (ReadReg (u32 (paddr - IO_AREA_PADDR + 0x1EC00000)) `mod` 2 ^ (8 * n)))
    else
      match type with
      | PageUnmapped => Some (ms, None)
      | PageMemory => None
      | PageMemoryWatchpoint =>
          '(_, memory) ← watchpoint_pages_map pages !! page_index;
          value ← load_value ms (GetPtr memory + Z.land vaddr CITRA_PAGE_MASK) n; Some (ms, Some value)
      | PageRasterizerCachedMemory | PageRasterizerCachedMemoryWatchpoint =>
          let ms := RasterizerFlushVirtualRegion vaddr n Flush ms in
          ref ← GetPointerForRasterizerCache vaddr ms;
          value ← load_value ms (GetPtr ref) n; Some (ms, Some value)
      end.
Definition Read8 (pages : Pages) (addr : Z) (ms : MemorySystem) : option (MemorySystem * Z) :=
  '(ms, v) ← Read 1 pages addr ms; Some (ms, default 0 v).
Definition Read16 (pages : Pages) (addr : Z) (ms : MemorySystem) : option (MemorySystem * Z) :=
  '(ms, v) ← Read 2 pages addr ms; Some (ms, default 0 v).
Definition Read32 (pages : Pages) (addr : Z) (ms : MemorySystem) : option (MemorySystem * Z) :=
  '(ms, v) ← Read 4 pages addr ms; Some (ms, default 0 v).
Definition Read64 (pages : Pages) (addr : Z) (ms : MemorySystem) : option (MemorySystem * Z) :=
  '(ms, v) ← Read 8 pages addr ms; Some (ms, default 0 v).
Definition Read32OrNullopt (pages : Pages) (addr : Z) (ms : MemorySystem) : option (MemorySystem * option Z) :=
  Read 4 pages addr ms.

(** [Write<T>]. *)
Definition Write (n : Z) (pages : Pages) (vaddr data : Z) (ms : MemorySystem) : option MemorySystem :=
  let page_index := Z.shiftr vaddr CITRA_PAGE_BITS in
  let '(type, ref) := page_entry (entries pages) page_index in
  if negb (GetPtr ref =? 0) then store_value ms (GetPtr ref + Z.land vaddr CITRA_PAGE_MASK) n data
  else
    let paddr := Z.land vaddr (Z.lnot LUMA_ALIAS_BIT) in
    let alias := negb (Z.land vaddr LUMA_ALIAS_BIT =? 0) in
    if alias && (Z.land paddr 0xF0000000 =? FCRAM_PADDR) then
      p ← GetFCRAMPointer (paddr - FCRAM_PADDR) ms;
      store_value ms p n data
    else if alias && (Z.land paddr 0xF0000000 =? 0x10000000) && (IO_AREA_PADDR <=? paddr) then
      ASSERT (n =? 4) ;;
      Some (WriteReg (u32 (paddr - IO_AREA_PADDR + 0x1EC00000)) (u32 data) ms)
    else
      match type with
      | PageUnmapped => Some ms
      | PageMemory => None
      | PageMemoryWatchpoint =>
          '(_, memory) ← watchpoint_pages_map pages !! page_index;
          store_value ms (GetPtr memory + Z.land vaddr CITRA_PAGE_MASK) n data
      | PageRasterizerCachedMemory | PageRasterizerCachedMemoryWatchpoint =>
          let ms := RasterizerFlushVirtualRegion vaddr n Invalidate ms in
          ref ← GetPointerForRasterizerCache vaddr ms;
          store_value ms (GetPtr ref) n data
      end.
Definition Write8 := Write 1.
Definition Write16 := Write 2.
Definition Write32 := Write 4.
Definition Write64 := Write 8.

(** [AtomicCompareAndSwap]: whether the value was the expected one and is replaced. *)
Definition AtomicCompareAndSwap (n p data expected : Z) (ms : MemorySystem) : option (MemorySystem * bool) :=
  value ← load_value ms p n;
  if value =? expected then ms ← store_value ms p n data; Some (ms, true) else Some (ms, false).

Definition WriteExclusive (n : Z) (pages : Pages) (vaddr data expected : Z) (ms : MemorySystem)
  : option (MemorySystem * bool) :=
  let page_index := Z.shiftr vaddr CITRA_PAGE_BITS in
  let '(type, ref) := page_entry (entries pages) page_index in
  if negb (GetPtr ref =? 0)
  then AtomicCompareAndSwap n (GetPtr ref + Z.land vaddr CITRA_PAGE_MASK) data expected ms
  else
    match type with
    | PageUnmapped => Some (ms, true)
    | PageMemory => None
    | PageMemoryWatchpoint =>
        '(_, memory) ← watchpoint_pages_map pages !! page_index;
        AtomicCompareAndSwap n (GetPtr memory + Z.land vaddr CITRA_PAGE_MASK) data expected ms
    | PageRasterizerCachedMemory | PageRasterizerCachedMemoryWatchpoint =>
        let ms := RasterizerFlushVirtualRegion vaddr n Invalidate ms in
        ref ← GetPointerForRasterizerCache vaddr ms;
        AtomicCompareAndSwap n (GetPtr ref) data expected ms
    end.

Definition IsValidVirtualAddress (pages : Pages) (vaddr : Z) : bool :=
  let '(type, ref) := page_entry (entries pages) (Z.shiftr vaddr CITRA_PAGE_BITS) in
  negb (GetPtr ref =? 0) || negb (bool_decide (type = PageUnmapped)).

(** [GetPointer]; zero is the null pointer. *)
Definition GetPointer (pages : Pages) (vaddr : Z) (ms : MemorySystem) : option Z :=
  let '(type, ref) := page_entry (entries pages) (Z.shiftr vaddr CITRA_PAGE_BITS) in
  if negb (GetPtr ref =? 0) then Some (GetPtr ref + Z.land vaddr CITRA_PAGE_MASK)
  else match type with
       | PageRasterizerCachedMemory | PageRasterizerCachedMemoryWatchpoint =>
           ref ← GetPointerForRasterizerCache vaddr ms; Some (GetPtr ref)
       | _ => Some 0
       end.

(** [ReadCString]: characters up to a zero, at most [max_length]. *)
Fixpoint ReadCString (pages : Pages) (vaddr : Z) (max_length : nat) (ms : MemorySystem)
  : option (MemorySystem * list Z) :=
  match max_length with
  | O => Some (ms, [])
  | S max_length =>
      '(ms, c) ← Read8 pages vaddr ms;
      if c =? 0 then Some (ms, [])
      else '(ms, string) ← ReadCString pages (u32 (vaddr + 1)) max_length ms; Some (ms, c :: string)
  end.

End Accesses.

(** ** Watchpoints *)

(** [pointers[page] = ref] and [attributes[page] = type]. *)
Definition set_page (page : Z) (type : PageType) (ref : MemoryRef) (pages : Pages) : Pages :=
  mkPages (<[page := (type, ref)]> (entries pages)) (watchpoint_pages_map pages).
Definition set_watch (page : Z) (info : option (Z * MemoryRef)) (pages : Pages) : Pages :=
  mkPages (entries pages) (partial_alter (λ _, info) page (watchpoint_pages_map pages)).

(** One page of [RegisterWatchpoint]; [None] inside the result is the [continue] that leaves
    [current] where it is. *)
Definition register_page (page_base : Z) (ms : MemorySystem) (pages : Pages) : option (option Pages) :=
  let page_index := Z.shiftr page_base CITRA_PAGE_BITS in
  match watchpoint_pages_map pages !! page_index with
  | Some (watchpoint_count, memory) =>
      Some (Some (set_watch page_index (Some (u32 (watchpoint_count + 1), memory)) pages))
  | None =>
      let '(type, ref) := page_entry (entries pages) page_index in
      match type with
      | PageMemory =>
          Some (Some (set_watch page_index (Some (1, ref))
                        (set_page page_index PageMemoryWatchpoint null_ref pages)))
      | PageRasterizerCachedMemory =>
          mem ← GetPointerForRasterizerCache page_base ms;
          Some (Some (set_watch page_index (Some (1, mem))
                        (set_page page_index PageRasterizerCachedMemoryWatchpoint ref pages)))
      | _ => Some None
      end
  end.

(** One page of [UnregisterWatchpoint]. *)
Definition unregister_page (page_base : Z) (ms : MemorySystem) (pages : Pages) : option (option Pages) :=
  let page_index := Z.shiftr page_base CITRA_PAGE_BITS in
  match watchpoint_pages_map pages !! page_index with
  | None => Some (Some pages)
  | Some (watchpoint_count, memory) =>
      let watchpoint_count := u32 (watchpoint_count - 1) in
      if negb (watchpoint_count =? 0)
      then Some (Some (set_watch page_index (Some (watchpoint_count, memory)) pages))
      else
        let '(type, ref) := page_entry (entries pages) page_index in
        let pages :=
          match type with
          | PageMemoryWatchpoint => set_page page_index PageMemory memory pages
          | PageRasterizerCachedMemoryWatchpoint => set_page page_index PageRasterizerCachedMemory ref pages
          | _ => pages
          end in
        Some (Some (set_watch page_index None pages))
  end.

(** The loop of both; running out of fuel is [None] like a run that never ends. *)
Fixpoint watch_loop (page : Z → MemorySystem → Pages → option (option Pages)) (fuel : nat)
    (current end_ : Z) (ms : MemorySystem) (pages : Pages) : option Pages :=
  if end_ <=? current then Some pages
  else match fuel with
       | O => None
       | S fuel =>
           let page_base := Z.land current (Z.lnot CITRA_PAGE_MASK) in
           r ← page page_base ms pages;
           match r with
           | Some pages => watch_loop page fuel (u32 (page_base + CITRA_PAGE_SIZE)) end_ ms pages
           | None => watch_loop page fuel current end_ ms pages
           end
       end.
Definition RegisterWatchpoint (fuel : nat) (addr size : Z) (ms : MemorySystem) (pages : Pages) : option Pages :=
  watch_loop register_page fuel addr (u32 (addr + size)) ms pages.
Definition UnregisterWatchpoint (fuel : nat) (addr size : Z) (ms : MemorySystem) (pages : Pages) : option Pages :=
  watch_loop unregister_page fuel addr (u32 (addr + size)) ms pages.

(** ** Physical addresses *)

Definition memory_areas (ms : MemorySystem) : list (Z * Z * BackingMem) := [
  (VRAM_PADDR, VRAM_SIZE, vram_mem ms);
  (DSP_RAM_PADDR, DSP_RAM_SIZE, dsp_mem ms);
  (FCRAM_PADDR, FCRAM_N3DS_SIZE, fcram_mem ms);
  (N3DS_EXTRA_RAM_PADDR, N3DS_EXTRA_RAM_SIZE, n3ds_extra_ram_mem ms)].

(** The search behind the cache of [GetPhysMemRegionInfo]; the end of an area is included. *)
Definition find_area (address : Z) (ms : MemorySystem) : PhysMemRegionInfo :=
  match list_find (λ area, area.1.1 <= address <= area.1.1 + area.1.2) (memory_areas ms) with
  | Some (_, (start, size, mem)) => mkRegionInfo (Some mem) start (start + size)
  | None => mkRegionInfo None 0 0
  end.
Definition GetPhysMemRegionInfo (address : Z) (ms : MemorySystem) : MemorySystem * PhysMemRegionInfo :=
  let cache := phys_mem_region_info_cache ms in
  if in_range (info_start cache) (info_end cache) address then (ms, cache)
  else let info := find_area address ms in (set_region_cache ms info, info).

Definition GetPhysicalPointer (address : Z) (ms : MemorySystem) : MemorySystem * Z :=
  let '(ms, target_mem) := GetPhysMemRegionInfo address ms in
  (ms, match info_backing target_mem with
       | None => 0
       | Some b => bm_ptr b + u32 (address - info_start target_mem)
       end).
Definition GetPhysicalRef (address : Z) (ms : MemorySystem) : MemorySystem * option MemoryRef :=
  let '(ms, target_mem) := GetPhysMemRegionInfo address ms in
  (ms, match info_backing target_mem with
       | None => Some null_ref
       | Some b => make_ref b (u32 (address - info_start target_mem))
       end).

Definition PhysicalToVirtualAddressForRasterizer (addr : Z) (ms : MemorySystem) : list Z :=
  let plg_fb_addr := plugin_fb_address ms in
  if in_range VRAM_PADDR VRAM_PADDR_END addr then [addr - VRAM_PADDR + VRAM_VADDR]
  else if negb (plg_fb_addr =? 0) && in_range plg_fb_addr (u32 (plg_fb_addr + PLUGIN_3GX_FB_SIZE)) addr
  then [addr - plg_fb_addr + PLUGIN_3GX_FB_VADDR]
  else if in_range FCRAM_PADDR FCRAM_PADDR_END addr
  then [addr - FCRAM_PADDR + LINEAR_HEAP_VADDR; addr - FCRAM_PADDR + NEW_LINEAR_HEAP_VADDR]
  else if in_range FCRAM_PADDR_END FCRAM_N3DS_PADDR_END addr
  then [addr - FCRAM_PADDR + NEW_LINEAR_HEAP_VADDR]
  else [].

(** ** Marking pages for the rasterizer *)

(** One page of one page table of [RasterizerMarkRegionCached]; the [default] cases are
    [UNREACHABLE]. *)
Definition mark_page (cached : bool) (vaddr : Z) (ms : MemorySystem) (pages : Pages) : option Pages :=
  let page := Z.shiftr vaddr CITRA_PAGE_BITS in
  let '(type, ref) := page_entry (entries pages) page in
  if cached then
    match type with
    | PageUnmapped => Some pages
    | PageMemory => Some (set_page page PageRasterizerCachedMemory null_ref pages)
    | PageMemoryWatchpoint => Some (set_page page PageRasterizerCachedMemoryWatchpoint null_ref pages)
    | _ => None
    end
  else
    match type with
    | PageUnmapped => Some pages
    | PageRasterizerCachedMemory =>
        ref ← GetPointerForRasterizerCache (Z.land vaddr (Z.lnot CITRA_PAGE_MASK)) ms;
        Some (set_page page PageMemory ref pages)
    | PageRasterizerCachedMemoryWatchpoint => Some (set_page page PageMemoryWatchpoint ref pages)
    | _ => None
    end.

(** The loops over the virtual addresses of a physical page and over the page tables. *)
Fixpoint mark_vaddrs (cached : bool) (vaddrs : list Z) (ms : MemorySystem) (page_table_list : list Pages)
  : option (MemorySystem * list Pages) :=
  match vaddrs with
  | [] => Some (ms, page_table_list)
  | vaddr :: vaddrs =>
      let ms := Mark vaddr cached ms in
      page_table_list ← mapM (mark_page cached vaddr ms) page_table_list;
      mark_vaddrs cached vaddrs ms page_table_list
  end.
Fixpoint mark_loop (cached : bool) (num_pages : nat) (paddr : Z) (ms : MemorySystem) (page_table_list : list Pages)
  : option (MemorySystem * list Pages) :=
  match num_pages with
  | O => Some (ms, page_table_list)
  | S num_pages =>
      '(ms, page_table_list) ←
        mark_vaddrs cached (PhysicalToVirtualAddressForRasterizer paddr ms) ms page_table_list;
      mark_loop cached num_pages (u32 (paddr + CITRA_PAGE_SIZE)) ms page_table_list
  end.
Definition RasterizerMarkRegionCached (start size : Z) (cached : bool) (ms : MemorySystem)
    (page_table_list : list Pages) : option (MemorySystem * list Pages) :=
  if start =? 0 then Some (ms, page_table_list)
  else
    let num_pages := u32 (Z.shiftr (u32 (start + size - 1)) CITRA_PAGE_BITS
                          - Z.shiftr start CITRA_PAGE_BITS + 1) in
    mark_loop cached (Z.to_nat num_pages) start ms page_table_list.

(** ** The reference: one byte at a time *)

(** A reference to a whole page of a host block. *)
Definition page_ref_ok (ms : MemorySystem) (ref : MemoryRef) : Prop :=
  ∃ b, backing_mem ref = Some b ∧ b ∈ host_blocks ms ∧ 0 < bm_ptr b ∧
       0 <= offset ref ∧ offset ref + CITRA_PAGE_SIZE <= bm_size b ∧ bm_size b < 2 ^ 32.

(** What a page of an address space is backed by: [Some None] is an unmapped page. *)
Definition page_backing (pages : Pages) (ms : MemorySystem) (page : Z) (r : option MemoryRef) : Prop :=
  match (page_entry (entries pages) page).1, r with
  | PageUnmapped, None => GetPtr (page_entry (entries pages) page).2 = 0
  | PageMemory, Some ref => ref = (page_entry (entries pages) page).2 ∧ page_ref_ok ms ref
  | PageMemoryWatchpoint, Some ref =>
      GetPtr (page_entry (entries pages) page).2 = 0 ∧
      (∃ count, watchpoint_pages_map pages !! page = Some (count, ref)) ∧ page_ref_ok ms ref
  | PageRasterizerCachedMemory, Some ref | PageRasterizerCachedMemoryWatchpoint, Some ref =>
      GetPtr (page_entry (entries pages) page).2 = 0 ∧
      GetPointerForRasterizerCache (page * CITRA_PAGE_SIZE) ms = Some ref ∧ page_ref_ok ms ref
  | _, _ => False
  end.

(** Every page of a range of addresses is unmapped or backed by host memory. *)
Definition range_ok (pages : Pages) (ms : MemorySystem) (lo hi : Z) : Prop :=
  ∀ a, lo <= a < hi → ∃ r, page_backing pages ms (a / CITRA_PAGE_SIZE) r.

(** ** Proofs *)

Section Host.
Implicit Types ms : MemorySystem.

Lemma set_host_id ms : set_host ms (host ms) = ms.
Proof. by destruct ms. Qed.

Lemma host_bytes_length h p n : length (host_bytes h p n) = n.
Proof. unfold host_bytes. rewrite length_fmap, length_seqZ. lia. Qed.

Lemma host_bytes_app h p n m :
  host_bytes h p (n + m) = host_bytes h p n ++ host_bytes h (p + Z.of_nat n) m.
Proof.
  unfold host_bytes. rewrite Nat2Z.inj_add, seqZ_app by lia. by rewrite fmap_app.
Qed.

Lemma host_bytes_cons h p n : host_bytes h p (S n) = host_byte h p :: host_bytes h (p + 1) n.
Proof. unfold host_bytes. rewrite seqZ_cons by lia. cbn. do 2 f_equal. f_equal; lia. Qed.

Lemma host_bytes_lookup h p n i x :
  host_bytes h p n !! i = Some x ↔ (i < n)%nat ∧ x = host_byte h (p + Z.of_nat i).
Proof.
  unfold host_bytes. rewrite list_lookup_fmap. split.
  - intros (y & Hy & ->)%fmap_Some. apply lookup_seqZ in Hy as [-> ?]. split; [lia|done].
  - intros [Hi ->]. rewrite lookup_seqZ_lt by lia. done.
Qed.

Lemma host_set_app p l k h : host_set p (l ++ k) h = host_set (p + Z.of_nat (length l)) k (host_set p l h).
Proof.
  revert p h. induction l as [|x l IH]; intros p h; simpl.
  - by rewrite Z.add_0_r.
  - rewrite IH. f_equal. lia.
Qed.

Lemma host_byte_set p l h a :
  host_byte (host_set p l h) a =
    if in_range p (p + Z.of_nat (length l)) a then default 0 (l !! Z.to_nat (a - p)) else host_byte h a.
Proof.
  revert p h. induction l as [|x l IH]; intros p h; cbn [host_set length].
  - by rewrite (proj2 (in_range_false _ _ _)) by lia.
  - rewrite IH. destruct (in_range (p + 1) _ a) eqn:E.
    + apply in_range_iff in E. rewrite (proj2 (in_range_iff _ _ _)) by lia.
      replace (Z.to_nat (a - p)) with (S (Z.to_nat (a - (p + 1)))) by lia. done.
    + apply in_range_false in E. unfold host_byte. destruct (decide (a = p)) as [->|].
      * rewrite (proj2 (in_range_iff _ _ _)), Z.sub_diag, lookup_insert_eq by lia. done.
      * rewrite (proj2 (in_range_false _ _ _)), lookup_insert_ne by lia. done.
Qed.

Lemma le_value_range l : Forall (λ x, 0 <= x < 2 ^ 8) l → 0 <= le_value l < 2 ^ (8 * Z.of_nat (length l)).
Proof.
  induction 1 as [|x l Hx Hl IH]; cbn [le_value length]; [lia|].
  replace (8 * Z.of_nat (S (length l))) with (8 + 8 * Z.of_nat (length l)) by lia.
  rewrite Z.pow_add_r by lia. nia.
Qed.

Lemma le_bytes_length n v : length (le_bytes n v) = n.
Proof. revert v. induction n; intros v; simpl; congruence. Qed.

(** The bytes of a value give the value back. *)
Lemma le_value_bytes n v : 0 <= v < 2 ^ (8 * Z.of_nat n) → le_value (le_bytes n v) = v.
Proof.
  revert v. induction n as [|n IH]; intros v Hv; cbn [le_value le_bytes].
  - simpl in Hv. lia.
  - replace (8 * Z.of_nat (S n)) with (8 + 8 * Z.of_nat n) in Hv by lia.
    rewrite Z.pow_add_r in Hv by lia. rewrite IH.
    + pose proof (Z.div_mod v (2 ^ 8)). lia.
    + split; [apply Z.div_pos; lia|]. apply Z.div_lt_upper_bound; lia.
Qed.

Lemma page_ref_valid ms ref off n :
  page_ref_ok ms ref → 0 <= off → 0 <= n → off + n <= CITRA_PAGE_SIZE →
  host_valid ms (GetPtr ref + off) n = true ∧ GetPtr ref ≠ 0.
Proof.
  intros (b & Eb & Hb & Hp & H0 & H1 & _) Ho Hn Hp1. unfold GetPtr. rewrite Eb. split; [|lia].
  unfold host_valid. apply existsb_exists. exists b. split; [by apply list_elem_of_In|].
  apply andb_true_iff. rewrite !Z.leb_le. lia.
Qed.

(** A range of whole pages holds a page or does not. *)
Lemma in_range_page A B page off :
  A `mod` CITRA_PAGE_SIZE = 0 → B `mod` CITRA_PAGE_SIZE = 0 → 0 <= off < CITRA_PAGE_SIZE →
  in_range A B (page * CITRA_PAGE_SIZE + off) = in_range A B (page * CITRA_PAGE_SIZE).
Proof.
  intros HA HB Ho. apply eq_true_iff_eq. rewrite !in_range_iff.
  apply Z.div_exact in HA, HB; [|done..]. unfold CITRA_PAGE_SIZE in *. lia.
Qed.

(** The pointer for the rasterizer moves with the address inside a page. *)
Lemma rasterizer_pointer_shift ms page off ref :
  GetPointerForRasterizerCache (page * CITRA_PAGE_SIZE) ms = Some ref → page_ref_ok ms ref →
  0 <= off < CITRA_PAGE_SIZE →
  ∃ ref', GetPointerForRasterizerCache (page * CITRA_PAGE_SIZE + off) ms = Some ref' ∧
    GetPtr ref' = GetPtr ref + off.
Proof.
  intros E (b & Eb & Hb & Hp & H0 & H1 & H2) Ho. unfold GetPointerForRasterizerCache in *.
  rewrite (in_range_page LINEAR_HEAP_VADDR LINEAR_HEAP_VADDR_END), (in_range_page NEW_LINEAR_HEAP_VADDR NEW_LINEAR_HEAP_VADDR_END),
    (in_range_page VRAM_VADDR VRAM_VADDR_END), (in_range_page PLUGIN_3GX_FB_VADDR PLUGIN_3GX_FB_VADDR_END) by done.
  assert (∀ b' o, make_ref b' o = Some ref → b' = b ∧ o = offset ref ∧
            ∃ ref', make_ref b' (o + off) = Some ref' ∧ GetPtr ref' = GetPtr ref + off) as Hm.
  { intros b' o Hm. unfold make_ref in Hm. inv_opt. simpl in *. simplify_eq.
    split; [done|]. split; [done|]. unfold make_ref.
    destruct (Z.leb_spec (o + off) (bm_size b)); [|unfold CITRA_PAGE_SIZE in *; lia].
    eexists. split; [done|]. unfold GetPtr. simpl. lia. }
  repeat match goal with |- context [if ?c then _ else _] => destruct c end; try done;
    destruct (Hm _ _ E) as (-> & Eo & Hex).
  - by replace (page * CITRA_PAGE_SIZE + off - LINEAR_HEAP_VADDR)
      with (page * CITRA_PAGE_SIZE - LINEAR_HEAP_VADDR + off) by lia.
  - by replace (page * CITRA_PAGE_SIZE + off - NEW_LINEAR_HEAP_VADDR)
      with (page * CITRA_PAGE_SIZE - NEW_LINEAR_HEAP_VADDR + off) by lia.
  - by replace (page * CITRA_PAGE_SIZE + off - VRAM_VADDR)
      with (page * CITRA_PAGE_SIZE - VRAM_VADDR + off) by lia.
  - rewrite <- Eo in *. set (x := page * CITRA_PAGE_SIZE - PLUGIN_3GX_FB_VADDR + plugin_fb_address ms - FCRAM_PADDR) in *.
    replace (u32 (page * CITRA_PAGE_SIZE + off - PLUGIN_3GX_FB_VADDR + plugin_fb_address ms - FCRAM_PADDR))
      with (u32 x + off); [done|].
    unfold u32 in *. replace (page * CITRA_PAGE_SIZE + off - PLUGIN_3GX_FB_VADDR + plugin_fb_address ms - FCRAM_PADDR)
      with (x + off) by lia.
    rewrite <- Z.add_mod_idemp_l by lia. symmetry. apply Z.mod_small. lia.
Qed.

End Host.

Section Blocks.
Context (rasterizer : FlushMode → Z → Z → gmap Z Z → gmap Z Z) (ReadReg : Z → Z).
Implicit Types (ms : MemorySystem) (pages : Pages).

(** The renderer leaves host memory alone in mode [mode]. *)
Definition no_writeback (mode : FlushMode) (h : gmap Z Z) : Prop := ∀ p n, rasterizer mode p n h = h.

Lemma flush_id mode start size ms :
  no_writeback mode (host ms) → RasterizerFlushVirtualRegion rasterizer start size mode ms = ms.
Proof.
  intros Hn. assert (∀ a b c d e, CheckRegion rasterizer a b mode c d e ms = ms) as Hc.
  { intros. unfold CheckRegion. destruct (_ || _); [done|]. by rewrite Hn, set_host_id. }
  unfold RasterizerFlushVirtualRegion. rewrite !Hc. by destruct (_ =? 0).
Qed.

Lemma addr_split a : 0 <= a →
  Z.shiftr a CITRA_PAGE_BITS = a / CITRA_PAGE_SIZE ∧ Z.land a CITRA_PAGE_MASK = a `mod` CITRA_PAGE_SIZE ∧
  a = a / CITRA_PAGE_SIZE * CITRA_PAGE_SIZE + a `mod` CITRA_PAGE_SIZE ∧
  0 <= a `mod` CITRA_PAGE_SIZE < CITRA_PAGE_SIZE.
Proof.
  intros Ha. split_and!.
  - rewrite Z.shiftr_div_pow2 by done. done.
  - unfold CITRA_PAGE_MASK. change (CITRA_PAGE_SIZE - 1) with (Z.ones 12). by rewrite Z.land_ones.
  - pose proof (Z.div_mod a CITRA_PAGE_SIZE ltac:(done)). lia.
  - apply Z.mod_pos_bound. done.
  - apply Z.mod_pos_bound. done.
Qed.

(** Invariants of the loop over the pages: each step covers the part of one page. *)
Lemma block_loop_inv {S} (body : Z → Z → Z → S → option S) (I : Z → S → Prop) (e : Z) :
  (∀ a n s, I a s → 0 <= a → 0 < n → a + n <= e → a `mod` CITRA_PAGE_SIZE + n <= CITRA_PAGE_SIZE →
     ∃ s', body (a / CITRA_PAGE_SIZE) (a `mod` CITRA_PAGE_SIZE) n s = Some s' ∧ I (a + n) s') →
  ∀ fuel a p off s, 0 <= a <= e → I a s →
    a = e ∨ (p = a / CITRA_PAGE_SIZE ∧ off = a `mod` CITRA_PAGE_SIZE ∧
             e - a + off <= Z.of_nat fuel * CITRA_PAGE_SIZE) →
    ∃ s', block_loop body fuel p off (e - a) s = Some s' ∧ I e s'.
Proof.
  intros Hbody. induction fuel as [|fuel IH]; intros a p off s Ha HI Hor.
  - assert (a = e) as -> by (destruct (decide (a = e)); [done|]; destruct Hor as [|(-> & -> & Hm)]; [done|];
      pose proof (Z.mod_pos_bound a CITRA_PAGE_SIZE ltac:(done)); lia).
    rewrite Z.sub_diag. simpl. eauto.
  - cbn [block_loop]. destruct (Z.eqb_spec (e - a) 0) as [E0|Hne].
    { assert (a = e) as -> by lia. eauto. }
    destruct Hor as [|(-> & -> & Hm)]; [lia|].
    destruct (addr_split a ltac:(lia)) as (_ & _ & Ea & Hmod). set (n := Z.min _ _).
    destruct (Hbody a n s) as (s' & -> & HI'); try done; try lia. cbn [mbind option_bind].
    replace (e - a - n) with (e - (a + n)) by lia. apply IH; [lia|done|].
    destruct (decide (a + n = e)); [by left|right].
    assert (n = CITRA_PAGE_SIZE - a `mod` CITRA_PAGE_SIZE) as En by lia.
    assert (a + n = (a / CITRA_PAGE_SIZE + 1) * CITRA_PAGE_SIZE) as -> by lia.
    rewrite Z.div_mul, Z.mod_mul by done. lia.
Qed.

Lemma block_fuel_enough a size :
  0 <= size → size + a `mod` CITRA_PAGE_SIZE <= Z.of_nat (block_fuel size) * CITRA_PAGE_SIZE.
Proof.
  intros Hs. unfold block_fuel. pose proof (Z.div_mod size CITRA_PAGE_SIZE ltac:(done)).
  pose proof (Z.mod_pos_bound size CITRA_PAGE_SIZE ltac:(done)).
  pose proof (Z.mod_pos_bound a CITRA_PAGE_SIZE ltac:(done)).
  assert (0 <= size / CITRA_PAGE_SIZE) by (by apply Z.div_pos). unfold CITRA_PAGE_SIZE in *. lia.
Qed.

Lemma for_pages_inv {S} (body : Z → Z → Z → S → option S) (I : Z → S → Prop) (a0 size : Z) (s0 : S) :
  0 <= a0 → 0 <= size → I a0 s0 →
  (∀ a n s, I a s → a0 <= a → 0 < n → a + n <= a0 + size → a `mod` CITRA_PAGE_SIZE + n <= CITRA_PAGE_SIZE →
     ∃ s', body (a / CITRA_PAGE_SIZE) (a `mod` CITRA_PAGE_SIZE) n s = Some s' ∧ I (a + n) s') →
  ∃ s', for_pages body a0 size s0 = Some s' ∧ I (a0 + size) s'.
Proof.
  intros H0 Hs HI Hbody. unfold for_pages. destruct (addr_split a0 H0) as (-> & -> & _ & Hmod).
  destruct (block_loop_inv body (λ a s, a0 <= a ∧ I a s) (a0 + size)
              ltac:(intros a n s [Hle HIa] _ Hn Hne Hpg; destruct (Hbody a n s) as (s' & E & HI'); try done;
                    exists s'; split_and!; [done|lia|done])
              (block_fuel size) a0 (a0 / CITRA_PAGE_SIZE) (a0 `mod` CITRA_PAGE_SIZE) s0)
    as (s' & E & _ & HI');
    [lia|done| |replace (a0 + size - a0) with size in E by lia; by exists s'].
  right. split; [done|]. split; [done|]. pose proof (block_fuel_enough a0 size). lia.
Qed.

(** A page that is backed, or unmapped, gives its pointer and changes nothing. *)
Lemma page_pointer_ok pages ms mode page off n r :
  page_backing pages ms page r → page < PAGE_TABLE_NUM_ENTRIES → 0 <= page →
  0 <= off → 0 < n → off + n <= CITRA_PAGE_SIZE →
  (∀ m, mode = Some m → no_writeback m (host ms)) →
  page_pointer rasterizer pages page off n mode ms = Some (ms, (λ ref, GetPtr ref + off) <$> r) ∧
  (∀ ref, r = Some ref → host_valid ms (GetPtr ref + off) n = true).
Proof.
  intros Hb Hp Hp0 Ho Hn Hon Hm. split.
  2: { intros ref ->. unfold page_backing in Hb.
       destruct (_ .1); try done; apply (page_ref_valid ms ref off n); try lia; tauto. }
  unfold page_pointer, page_backing in *. rewrite (proj2 (Z.ltb_lt _ _)) by done. cbn [assert_ mbind option_bind].
  assert (∀ ref, GetPointerForRasterizerCache (page * CITRA_PAGE_SIZE) ms = Some ref → page_ref_ok ms ref →
    (let ms' := match mode with
      | Some m => RasterizerFlushVirtualRegion rasterizer (u32 (Z.shiftl page CITRA_PAGE_BITS + off)) n m ms
      | None => ms end in
     ref ← GetPointerForRasterizerCache (u32 (Z.shiftl page CITRA_PAGE_BITS + off)) ms'; Some (ms', Some (GetPtr ref)))
    = Some (ms, Some (GetPtr ref + off))) as Hcached.
  { intros ref Er Hok. destruct (rasterizer_pointer_shift ms page off ref Er Hok) as (ref' & Er' & Ep); [lia|].
    assert (u32 (Z.shiftl page CITRA_PAGE_BITS + off) = page * CITRA_PAGE_SIZE + off) as ->.
    { rewrite Z.shiftl_mul_pow2 by done. apply u32_id. unfold PAGE_TABLE_NUM_ENTRIES, CITRA_PAGE_SIZE, CITRA_PAGE_BITS in *.
      change (Z.shiftl 1 (32 - 12)) with (2 ^ 20) in Hp. lia. }
    destruct mode as [m|]; cbn zeta; [rewrite flush_id by auto|]; rewrite Er'; simpl; by rewrite Ep. }
  destruct (page_entry (entries pages) page) as [type ref]. simpl in Hb.
  destruct type, r as [ref'|]; try done.
  - by destruct Hb as [-> _].
  - destruct Hb as (_ & H1 & H2). by apply Hcached.
  - destruct Hb as (_ & (c & Ec) & _). by rewrite Ec.
  - destruct Hb as (_ & H1 & H2). by apply Hcached.
Qed.

Lemma alias_bit_clear a : 0 <= a < 2 ^ 31 → Z.land a LUMA_ALIAS_BIT = 0.
Proof.
  intros Ha. apply Z.bits_inj'. intros i Hi. rewrite Z.land_spec, Z.bits_0.
  change LUMA_ALIAS_BIT with (2 ^ 31). rewrite Z.pow2_bits_eqb by lia.
  destruct (Z.eqb_spec 31 i) as [<-|]; [|by rewrite andb_false_r].
  rewrite <- (Z.mod_small a (2 ^ 31)) by lia. by rewrite mod_pow2_testbit by lia.
Qed.

(** The byte of an address. *)
Definition backing_byte (h : gmap Z Z) (r : option MemoryRef) (off : Z) : Z :=
  match r with Some ref => host_byte h (GetPtr ref + off) | None => 0 end.

(** A value that lies in one page is read from the bytes behind the page.  (Addresses with the
    Luma3DS alias bit take another way.) *)
Lemma Read_ok pages ms n a r :
  0 <= a < 2 ^ 31 → 0 < n → a `mod` CITRA_PAGE_SIZE + n <= CITRA_PAGE_SIZE →
  page_backing pages ms (a / CITRA_PAGE_SIZE) r → no_writeback Flush (host ms) →
  Read rasterizer ReadReg n pages a ms =
    Some (ms, (λ ref, le_value (host_bytes (host ms) (GetPtr ref + a `mod` CITRA_PAGE_SIZE) (Z.to_nat n))) <$> r).
Proof.
  intros Ha Hn Hpg Hb Hw. destruct (addr_split a ltac:(lia)) as (E1 & E2 & Ea & Hmod). unfold Read.
  rewrite E1, E2. set (page := a / CITRA_PAGE_SIZE) in *. set (off := a `mod` CITRA_PAGE_SIZE) in *.
  rewrite alias_bit_clear by done. cbn [Z.eqb negb andb].
  assert (∀ ref, page_ref_ok ms ref →
            load_value ms (GetPtr ref + off) n = Some (le_value (host_bytes (host ms) (GetPtr ref + off) (Z.to_nat n)))
            ∧ (GetPtr ref =? 0) = false) as Hl.
  { intros ref Hok. destruct (page_ref_valid ms ref off n Hok) as [Hv Hne]; [lia..|].
    split; [|by apply Z.eqb_neq]. unfold load_value, load_bytes. by rewrite Hv. }
  unfold page_backing in Hb. destruct (page_entry (entries pages) page) as [type ref]. simpl in Hb.
  destruct type, r as [ref'|]; try done.
  - rewrite Hb. done.
  - destruct Hb as [-> Hok]. destruct (Hl _ Hok) as [-> ->]. done.
  - destruct Hb as (-> & Er & Hok). rewrite flush_id by done. cbn [Z.eqb negb].
    destruct (rasterizer_pointer_shift ms page off ref' Er Hok) as (ref2 & Er2 & Ep); [lia|].
    rewrite Ea, Er2. cbn [mbind option_bind]. rewrite Ep. by destruct (Hl _ Hok) as [-> _].
  - destruct Hb as (-> & (c & Ec) & Hok). cbn [Z.eqb negb]. rewrite Ec. cbn [mbind option_bind].
    by destruct (Hl _ Hok) as [-> _].
  - destruct Hb as (-> & Er & Hok). rewrite flush_id by done. cbn [Z.eqb negb].
    destruct (rasterizer_pointer_shift ms page off ref' Er Hok) as (ref2 & Er2 & Ep); [lia|].
    rewrite Ea, Er2. cbn [mbind option_bind]. rewrite Ep. by destruct (Hl _ Hok) as [-> _].
Qed.

(** [Read8] is the reference for a single byte. *)
Lemma Read8_ok pages ms a r :
  0 <= a < 2 ^ 31 → page_backing pages ms (a / CITRA_PAGE_SIZE) r → no_writeback Flush (host ms) →
  Read8 rasterizer ReadReg pages a ms = Some (ms, backing_byte (host ms) r (a `mod` CITRA_PAGE_SIZE)).
Proof.
  intros Ha Hb Hw. unfold Read8. destruct (addr_split a ltac:(lia)) as (_ & _ & _ & Hmod).
  rewrite (Read_ok pages ms 1 a r) by (done || lia). destruct r as [ref|]; [|done].
  cbn [fmap option_fmap option_map mbind option_bind default]. do 2 f_equal.
  change (Z.to_nat 1) with 1%nat. rewrite host_bytes_cons. change (host_bytes _ _ 0) with (@nil Z). 
  cbn [le_value backing_byte]. unfold id. lia.
Qed.

(** *** Reading *)

Lemma chunk_split a n i :
  0 <= a → 0 <= i < n → a `mod` CITRA_PAGE_SIZE + n <= CITRA_PAGE_SIZE →
  (a + i) / CITRA_PAGE_SIZE = a / CITRA_PAGE_SIZE ∧ (a + i) `mod` CITRA_PAGE_SIZE = a `mod` CITRA_PAGE_SIZE + i.
Proof.
  intros Ha Hi Hn. destruct (addr_split a Ha) as (_ & _ & Ea & Hmod).
  assert (a + i = a `mod` CITRA_PAGE_SIZE + i + a / CITRA_PAGE_SIZE * CITRA_PAGE_SIZE) as -> by lia.
  rewrite Z.div_add, Z.mod_add by done. rewrite Z.div_small, Z.mod_small by lia. lia.
Qed.

Lemma page_index_bound a : 0 <= a < 2 ^ 32 → a / CITRA_PAGE_SIZE < PAGE_TABLE_NUM_ENTRIES ∧ 0 <= a / CITRA_PAGE_SIZE.
Proof.
  intros Ha. split; [|by apply Z.div_pos; [lia|]]. rewrite PAGE_TABLE_NUM_ENTRIES_val.
  apply Z.div_lt_upper_bound; [done|]. unfold CITRA_PAGE_SIZE. lia.
Qed.

Lemma read_page_ok pages ms a n r buf :
  page_backing pages ms (a / CITRA_PAGE_SIZE) r → no_writeback Flush (host ms) → 0 <= a < 2 ^ 32 →
  0 < n → a `mod` CITRA_PAGE_SIZE + n <= CITRA_PAGE_SIZE →
  ∃ data, read_page rasterizer false pages (a / CITRA_PAGE_SIZE) (a `mod` CITRA_PAGE_SIZE) n (ms, buf) =
            Some (ms, buf ++ data) ∧ length data = Z.to_nat n ∧
    ∀ i x, data !! i = Some x → x = backing_byte (host ms) r (a `mod` CITRA_PAGE_SIZE + Z.of_nat i).
Proof.
  intros Hb Hw Ha Hn Hon. destruct (addr_split a ltac:(lia)) as (_ & _ & _ & Hmod).
  destruct (page_index_bound a Ha) as [Hp Hp0].
  destruct (page_pointer_ok pages ms (Some Flush) _ (a `mod` CITRA_PAGE_SIZE) n r Hb Hp Hp0) as [E Hv]; try lia.
  { by intros m [= <-]. }
  unfold read_page. rewrite E. cbn [mbind option_bind]. destruct r as [ref|]; simpl fmap.
  - unfold load_bytes. rewrite (Hv ref eq_refl). cbn [assert_ mbind option_bind]. eexists. split; [done|].
    split; [apply host_bytes_length|]. intros i x [_ ->]%host_bytes_lookup. simpl. f_equal. lia.
  - eexists. split; [done|]. split; [apply length_replicate|]. by intros i x [-> _]%lookup_replicate.
Qed.

(** A range that ends above the address space runs into the end of the page table. *)
Lemma block_loop_overrun {S} (body : Z → Z → Z → S → option S) fuel p off n s :
  (∀ p off n s, PAGE_TABLE_NUM_ENTRIES <= p → body p off n s = None) →
  0 <= off < CITRA_PAGE_SIZE → 0 < n → p <= PAGE_TABLE_NUM_ENTRIES →
  2 ^ 32 < p * CITRA_PAGE_SIZE + off + n → block_loop body fuel p off n s = None.
Proof.
  intros Hbody. revert p off n s. induction fuel as [|fuel IH]; intros p off n s Ho Hn Hp Hsum;
    cbn [block_loop]; rewrite (proj2 (Z.eqb_neq n 0)) by lia; [done|].
  destruct (body _ _ _ s) as [s'|] eqn:Eb; [|done]. cbn [mbind option_bind].
  assert (p < PAGE_TABLE_NUM_ENTRIES) as Hp'.
  { destruct (Z.lt_ge_cases p PAGE_TABLE_NUM_ENTRIES); [done|]. by rewrite Hbody in Eb. }
  rewrite PAGE_TABLE_NUM_ENTRIES_val in *. unfold CITRA_PAGE_SIZE in *.
  apply IH; lia.
Qed.

Lemma read_block_ok pages ms src size :
  0 <= src → 0 <= size → src + size <= 2 ^ 31 → range_ok pages ms src (src + size) → no_writeback Flush (host ms) →
  ∃ data, ReadBlock rasterizer pages src size ms = Some (ms, data) ∧ length data = Z.to_nat size ∧
    ∀ i x, data !! i = Some x → Read8 rasterizer ReadReg pages (src + Z.of_nat i) ms = Some (ms, x).
Proof.
  intros H0 Hs H31 Hok Hw.
  destruct (for_pages_inv (read_page rasterizer false pages)
    (λ a s, ∃ data, s = (ms, data) ∧ length data = Z.to_nat (a - src) ∧
       ∀ i x, data !! i = Some x → Read8 rasterizer ReadReg pages (src + Z.of_nat i) ms = Some (ms, x))
    src size (ms, [])) as (s' & E & data & -> & Hlen & Hd); try lia.
  - exists []. split; [done|]. split; [simpl; lia|]. by intros i x Hx; rewrite lookup_nil in Hx.
  - intros a n s (data & -> & Hlen & Hd) Ha Hn Hae Hpg. destruct (Hok a ltac:(lia)) as (r & Hr).
    destruct (read_page_ok pages ms a n r data Hr Hw) as (chunk & -> & Hcl & Hc); try lia.
    eexists. split; [done|]. eexists. split; [done|]. split; [rewrite length_app; lia|].
    intros i x [Hx|[Hle Hx]]%lookup_app_Some; [by apply Hd|].
    apply Hc in Hx as Hx'. apply lookup_lt_Some in Hx. subst x.
    destruct (chunk_split a n (Z.of_nat (i - length data))) as [Ed Em]; [lia..|].
    replace (src + Z.of_nat i) with (a + Z.of_nat (i - length data)) by lia.
    rewrite (Read8_ok pages ms _ r), Em; [done|lia| |done]. by rewrite Ed.
  - exists data. unfold ReadBlock, ReadBlockImpl. rewrite E. split_and!; [done|lia|done].
Qed.


(** *** Writing *)

Lemma page_backing_set_host pages ms h page r :
  page_backing pages (set_host ms h) page r ↔ page_backing pages ms page r.
Proof. done. Qed.

Lemma host_valid_set_host ms h p n : host_valid (set_host ms h) p n = host_valid ms p n.
Proof. done. Qed.

(** The memory after the bytes [l] are written from offset [off] of a page. *)
Definition put (ms : MemorySystem) (r : option MemoryRef) (off : Z) (l : list Z) : MemorySystem :=
  match r with
  | Some ref => set_host ms (host_set (GetPtr ref + off) l (host ms))
  | None => ms
  end.

Lemma put_set_host ms r off l : ∃ h, put ms r off l = set_host ms h.
Proof. destruct r; simpl; [by eauto|]. exists (host ms). by rewrite set_host_id. Qed.

Lemma put_cons ms r off x l : put (put ms r off [x]) r (off + 1) l = put ms r off (x :: l).
Proof. destruct r; simpl; [|done]. by rewrite Z.add_assoc. Qed.

Context (Hinv : ∀ h, no_writeback Invalidate h).

Lemma Write_ok pages ms n a x r :
  0 <= a < 2 ^ 31 → 0 < n → a `mod` CITRA_PAGE_SIZE + n <= CITRA_PAGE_SIZE →
  page_backing pages ms (a / CITRA_PAGE_SIZE) r →
  Write rasterizer n pages a x ms = Some (put ms r (a `mod` CITRA_PAGE_SIZE) (le_bytes (Z.to_nat n) x)).
Proof.
  intros Ha Hn Hpg Hb. destruct (addr_split a ltac:(lia)) as (E1 & E2 & Ea & Hmod). unfold Write.
  rewrite E1, E2. set (page := a / CITRA_PAGE_SIZE) in *. set (off := a `mod` CITRA_PAGE_SIZE) in *.
  rewrite alias_bit_clear by done. cbn [Z.eqb negb andb].
  assert (∀ ref, page_ref_ok ms ref →
            store_value ms (GetPtr ref + off) n x = Some (put ms (Some ref) off (le_bytes (Z.to_nat n) x))
            ∧ (GetPtr ref =? 0) = false) as Hl.
  { intros ref Hok. destruct (page_ref_valid ms ref off n Hok) as [Hv Hne]; [lia..|].
    split; [|by apply Z.eqb_neq]. unfold store_value, store_bytes. rewrite le_bytes_length, Z2Nat.id by lia. by rewrite Hv. }
  unfold page_backing in Hb. destruct (page_entry (entries pages) page) as [type ref]. simpl in Hb.
  destruct type, r as [ref'|]; try done.
  - rewrite Hb. done.
  - destruct Hb as [-> Hok]. destruct (Hl _ Hok) as [-> ->]. done.
  - destruct Hb as (-> & Er & Hok). rewrite flush_id by done. cbn [Z.eqb negb].
    destruct (rasterizer_pointer_shift ms page off ref' Er Hok) as (ref2 & Er2 & Ep); [lia|].
    rewrite Ea, Er2. cbn [mbind option_bind]. rewrite Ep. by destruct (Hl _ Hok) as [-> _].
  - destruct Hb as (-> & (c & Ec) & Hok). cbn [Z.eqb negb]. rewrite Ec. cbn [mbind option_bind].
    by destruct (Hl _ Hok) as [-> _].
  - destruct Hb as (-> & Er & Hok). rewrite flush_id by done. cbn [Z.eqb negb].
    destruct (rasterizer_pointer_shift ms page off ref' Er Hok) as (ref2 & Er2 & Ep); [lia|].
    rewrite Ea, Er2. cbn [mbind option_bind]. rewrite Ep. by destruct (Hl _ Hok) as [-> _].
Qed.

Lemma Write8_ok pages ms a x r :
  0 <= a < 2 ^ 31 → 0 <= x < 2 ^ 8 → page_backing pages ms (a / CITRA_PAGE_SIZE) r →
  Write8 rasterizer pages a x ms = Some (put ms r (a `mod` CITRA_PAGE_SIZE) [x]).
Proof.
  intros Ha Hx Hb. destruct (addr_split a ltac:(lia)) as (_ & _ & _ & Hmod). unfold Write8.
  rewrite (Write_ok pages ms 1 a x r) by (done || lia). change (Z.to_nat 1) with 1%nat. cbn [le_bytes].
  by rewrite (Z.mod_small x).
Qed.

(** The reference for writes: [Write8] on every address in turn. *)
Fixpoint write_each (pages : Pages) (a : Z) (data : list Z) (ms : MemorySystem) : option MemorySystem :=
  match data with
  | [] => Some ms
  | x :: data => ms ← Write8 rasterizer pages a x ms; write_each pages (a + 1) data ms
  end.

Lemma write_each_app pages a l k ms ms1 :
  write_each pages a l ms = Some ms1 →
  write_each pages a (l ++ k) ms = write_each pages (a + Z.of_nat (length l)) k ms1.
Proof.
  revert a ms. induction l as [|x l IH]; intros a ms; simpl.
  - intros [= ->]. by rewrite Z.add_0_r.
  - destruct (Write8 _ _ _ _ _) as [ms'|]; [|done]. simpl. intros E. rewrite (IH _ _ E). f_equal. lia.
Qed.

Lemma write_each_page pages ms a l r :
  page_backing pages ms (a / CITRA_PAGE_SIZE) r → 0 <= a → a + Z.of_nat (length l) <= 2 ^ 31 →
  Forall (λ x, 0 <= x < 2 ^ 8) l → a `mod` CITRA_PAGE_SIZE + Z.of_nat (length l) <= CITRA_PAGE_SIZE →
  write_each pages a l ms = Some (put ms r (a `mod` CITRA_PAGE_SIZE) l).
Proof.
  intros Hb Ha H31 Hl. revert ms a Hb Ha H31. induction Hl as [|x l Hx Hl IH]; intros ms a Hb Ha H31 Hpg.
  - simpl. f_equal. destruct r; simpl; [|done]. by rewrite set_host_id.
  - cbn [write_each]. cbn [length] in *. rewrite (Write8_ok pages ms a x r) by (done || lia).
    cbn [mbind option_bind]. destruct l as [|y l]; [done|]. cbn [length] in *.
    destruct (chunk_split a (Z.of_nat (S (S (length l)))) 1) as [Ed Em]; [lia..|].
    rewrite IH; [by rewrite Em, put_cons| |lia..].
    destruct (put_set_host ms r (a `mod` CITRA_PAGE_SIZE) [x]) as [h ->]. by rewrite page_backing_set_host, Ed.
Qed.

(** A loop over the pages that puts the next bytes into every page is [write_each]. *)
Lemma for_pages_write {S} (body : Z → Z → Z → MemorySystem * S → option (MemorySystem * S))
    (src : nat → S) pages dest data ms :
  0 <= dest → dest + Z.of_nat (length data) <= 2 ^ 31 → range_ok pages ms dest (dest + Z.of_nat (length data)) →
  Forall (λ x, 0 <= x < 2 ^ 8) data →
  (∀ a n h r (k : nat), k = Z.to_nat (a - dest) → dest <= a → 0 < n →
     page_backing pages ms (a / CITRA_PAGE_SIZE) r → (k + Z.to_nat n <= length data)%nat → a < 2 ^ 32 →
     a `mod` CITRA_PAGE_SIZE + n <= CITRA_PAGE_SIZE →
     body (a / CITRA_PAGE_SIZE) (a `mod` CITRA_PAGE_SIZE) n (set_host ms h, src k) =
       Some (put (set_host ms h) r (a `mod` CITRA_PAGE_SIZE) (take (Z.to_nat n) (drop k data)), src (k + Z.to_nat n)%nat)) →
  ∃ h, for_pages body dest (Z.of_nat (length data)) (ms, src 0%nat) = Some (set_host ms h, src (length data)) ∧
    write_each pages dest data ms = Some (set_host ms h).
Proof.
  intros H0 H31 Hok Hbytes Hbody.
  destruct (for_pages_inv body
    (λ a s, ∃ h, s = (set_host ms h, src (Z.to_nat (a - dest))) ∧
       write_each pages dest (take (Z.to_nat (a - dest)) data) ms = Some (set_host ms h))
    dest (Z.of_nat (length data)) (ms, src 0%nat)) as (s' & E & h & -> & Hw); try lia.
  - exists (host ms). rewrite Z.sub_diag, set_host_id. done.
  - intros a n s (h & -> & Hw) Ha Hn Hae Hpg. destruct (Hok a ltac:(lia)) as (r & Hr).
    set (k := Z.to_nat (a - dest)) in *. rewrite (Hbody a n h r k) by (done || lia).
    destruct (put_set_host (set_host ms h) r (a `mod` CITRA_PAGE_SIZE) (take (Z.to_nat n) (drop k data))) as [h' Eh].
    change (set_host (set_host ms h) h') with (set_host ms h') in Eh. rewrite Eh.
    eexists. split; [done|]. exists h'. replace (Z.to_nat (a + n - dest)) with (k + Z.to_nat n)%nat by lia.
    split; [done|]. rewrite <- take_take_drop.
    rewrite (write_each_app _ _ _ _ _ _ Hw), length_take, Nat.min_l by lia.
    replace (dest + Z.of_nat k) with a by lia. rewrite <- Eh. apply write_each_page; try done; try lia.
    + rewrite length_take, length_drop. lia.
    + by apply Forall_take, Forall_drop.
    + rewrite length_take, length_drop. lia.
  - exists h. replace (Z.to_nat (dest + Z.of_nat (length data) - dest)) with (length data) in * by lia.
    rewrite firstn_all in Hw. done.
Qed.

(** A loop without a second component of its state. *)
Lemma block_loop_unit {S} (body : Z → Z → Z → S → option S) fuel p off n s :
  block_loop body fuel p off n s =
    fst <$> block_loop (λ p off n s, r ← body p off n s.1; Some (r, tt)) fuel p off n (s, tt).
Proof.
  revert p off n s. induction fuel as [|fuel IH]; intros p off n s; cbn [block_loop]; destruct (n =? 0); try done.
  cbn [fst]. destruct (body p off _ s) as [s'|]; [|done]. cbn [mbind option_bind]. apply IH.
Qed.

(** Storing a chunk through the pointer of its page. *)
Lemma store_chunk pages ms a n r l :
  page_backing pages ms (a / CITRA_PAGE_SIZE) r → 0 <= a < 2 ^ 32 → 0 < n → length l = Z.to_nat n →
  a `mod` CITRA_PAGE_SIZE + n <= CITRA_PAGE_SIZE →
  page_pointer rasterizer pages (a / CITRA_PAGE_SIZE) (a `mod` CITRA_PAGE_SIZE) n (Some Invalidate) ms =
    Some (ms, (λ ref, GetPtr ref + a `mod` CITRA_PAGE_SIZE) <$> r) ∧
  match r with
  | Some ref => store_bytes ms (GetPtr ref + a `mod` CITRA_PAGE_SIZE) l = Some (put ms r (a `mod` CITRA_PAGE_SIZE) l)
  | None => put ms r (a `mod` CITRA_PAGE_SIZE) l = ms
  end.
Proof.
  intros Hb Ha Hn Hl Hpg. destruct (addr_split a ltac:(lia)) as (_ & _ & _ & Hmod).
  destruct (page_index_bound a Ha) as [Hp Hp0].
  destruct (page_pointer_ok pages ms (Some Invalidate) _ (a `mod` CITRA_PAGE_SIZE) n r Hb Hp Hp0) as [E Hv]; try lia.
  { by intros m [= <-]. }
  split; [done|]. destruct r as [ref|]; [|done]. unfold store_bytes. rewrite Hl, Z2Nat.id by lia.
  by rewrite (Hv ref eq_refl).
Qed.

Lemma write_block_ok pages ms dest data :
  0 <= dest → dest + Z.of_nat (length data) <= 2 ^ 31 → Forall (λ x, 0 <= x < 2 ^ 8) data →
  range_ok pages ms dest (dest + Z.of_nat (length data)) →
  ∃ h, WriteBlock rasterizer pages dest (FromBuffer data) (Z.of_nat (length data)) ms = Some (set_host ms h) ∧
     write_each pages dest data ms = Some (set_host ms h).
Proof.
  intros H0 H31 Hbytes Hok.
  destruct (for_pages_write (write_page rasterizer false pages) (λ k, FromBuffer (drop k data)) pages dest data ms)
    as (h & E & Hw); try done.
  - intros a n h r k Hk Ha Hn Hr Hlen H32 Hpg.
    destruct (store_chunk pages (set_host ms h) a n r (take (Z.to_nat n) (drop k data))) as [E Hst]; try done; try lia.
    { rewrite length_take, length_drop. lia. }
    unfold write_page. rewrite E. cbn [mbind option_bind]. destruct r as [ref|]; simpl fmap; cbn [source_take mbind option_bind].
    * rewrite Hst. simpl. by rewrite drop_drop.
    * simpl. by rewrite drop_drop.
  - exists h. unfold WriteBlock, WriteBlockImpl. rewrite drop_0 in E. rewrite E. done.
Qed.

Lemma zero_block_ok pages ms dest (size : nat) :
  0 <= dest → dest + Z.of_nat size <= 2 ^ 31 → range_ok pages ms dest (dest + Z.of_nat size) →
  ∃ h, ZeroBlock rasterizer pages dest (Z.of_nat size) ms = Some (set_host ms h) ∧
     write_each pages dest (replicate size 0) ms = Some (set_host ms h).
Proof.
  intros H0 H31 Hok.
  destruct (for_pages_write (λ p off n s, ms ← zero_page rasterizer pages p off n s.1; Some (ms, tt)) (λ _, tt)
              pages dest (replicate size 0) ms) as (h & E & Hw); try rewrite length_replicate; try done.
  - by apply Forall_replicate.
  - intros a n h r k Hk Ha Hn Hr Hlen H32 Hpg. cbn [fst]. rewrite drop_replicate, take_replicate, Nat.min_l by lia.
    destruct (store_chunk pages (set_host ms h) a n r (replicate (Z.to_nat n) 0)) as [E Hst]; try done; try lia.
    { apply length_replicate. }
    unfold zero_page. rewrite E. cbn [mbind option_bind]. destruct r as [ref|]; simpl fmap; cbv iota beta.
    * by rewrite Hst.
    * done.
  - exists h. split; [|done]. rewrite length_replicate in E. unfold ZeroBlock, for_pages in *.
    by rewrite block_loop_unit, E.
Qed.


(** *** Reading back *)

Lemma page_backing_det pages ms page r r' :
  page_backing pages ms page r → page_backing pages ms page r' → r = r'.
Proof.
  unfold page_backing. destruct (_ .1), r, r'; try done.
  - intros [-> _] [-> _]. done.
  - intros (_ & E & _) (_ & E' & _). congruence.
  - intros (_ & (c & E) & _) (_ & (c' & E') & _). congruence.
  - intros (_ & E & _) (_ & E' & _). congruence.
Qed.

(** The pages of the range are mapped, and no two of its addresses share a host byte. *)
Definition separate_range (pages : Pages) (ms : MemorySystem) (lo hi : Z) : Prop :=
  (∀ a, lo <= a < hi → ∃ ref, page_backing pages ms (a / CITRA_PAGE_SIZE) (Some ref)) ∧
  ∀ a b ra rb, lo <= a < hi → lo <= b < hi →
    page_backing pages ms (a / CITRA_PAGE_SIZE) (Some ra) → page_backing pages ms (b / CITRA_PAGE_SIZE) (Some rb) →
    GetPtr ra + a `mod` CITRA_PAGE_SIZE = GetPtr rb + b `mod` CITRA_PAGE_SIZE → a = b.

Lemma write_each_bytes pages dest data ms ms' :
  0 <= dest → dest + Z.of_nat (length data) <= 2 ^ 31 → Forall (λ x, 0 <= x < 2 ^ 8) data →
  separate_range pages ms dest (dest + Z.of_nat (length data)) → write_each pages dest data ms = Some ms' →
  (∃ h, ms' = set_host ms h) ∧
  (∀ i x ref, data !! i = Some x → page_backing pages ms ((dest + Z.of_nat i) / CITRA_PAGE_SIZE) (Some ref) →
     host_byte (host ms') (GetPtr ref + (dest + Z.of_nat i) `mod` CITRA_PAGE_SIZE) = x) ∧
  (∀ p, (∀ a ref, dest <= a < dest + Z.of_nat (length data) → page_backing pages ms (a / CITRA_PAGE_SIZE) (Some ref) →
           p ≠ GetPtr ref + a `mod` CITRA_PAGE_SIZE) → host_byte (host ms') p = host_byte (host ms) p).
Proof.
  intros H0 H31 Hb. revert dest ms H0 H31. induction Hb as [|x l Hx Hl IH]; intros dest ms H0 H31 [Hmap Hsep] E.
  - injection E as <-. split; [exists (host ms); by rewrite set_host_id|]. split; [|done].
    intros i y ref Hy. by rewrite lookup_nil in Hy.
  - cbn [write_each length] in *. destruct (Hmap dest ltac:(lia)) as (r & Hr).
    rewrite (Write8_ok pages ms dest x (Some r)) in E by (done || lia). cbn [mbind option_bind] in E.
    set (ms1 := put ms (Some r) (dest `mod` CITRA_PAGE_SIZE) [x]) in *.
    destruct (IH (dest + 1) ms1) as ((h & ->) & Hread & Hother); try lia; try done.
    { split; [intros a Ha; apply Hmap; lia|]. intros a b ra rb Ha Hb'. apply Hsep; lia. }
    split; [by exists h|]. split.
    + intros [|i] y ref Hy Href.
      * simpl in Hy. injection Hy as ->. rewrite Z.add_0_r in Href |- *.
        rewrite Hother; [|intros a ra Ha Hra Heq].
        -- assert (ref = r) as -> by (pose proof (page_backing_det _ _ _ _ _ Hr Href); congruence).
           simpl. unfold host_byte. by rewrite lookup_insert_eq.
        -- assert (a = dest); [|lia]. by eapply Hsep; [lia|lia|exact Hra|exact Href|].
      * simpl in Hy. specialize (Hread i y ref Hy).
        replace (dest + 1 + Z.of_nat i) with (dest + Z.of_nat (S i)) in Hread by lia. by apply Hread.
    + intros p Hp. rewrite Hother.
      * simpl. unfold host_byte. rewrite lookup_insert_ne; [done|]. intros <-. apply (Hp dest r); [lia|done|done].
      * intros a ra Ha Hra. apply Hp; [lia|done].
Qed.

(** Writing a block through one set of pages and reading it through another one behind which the same
    host bytes lie, address for address. *)
Lemma write_read_across pages pages' ms dest src data :
  (∀ h, no_writeback Flush h) → 0 <= dest → dest + Z.of_nat (length data) <= 2 ^ 31 →
  0 <= src → src + Z.of_nat (length data) <= 2 ^ 31 →
  Forall (λ x, 0 <= x < 2 ^ 8) data → separate_range pages ms dest (dest + Z.of_nat (length data)) →
  (∀ i, 0 <= i < Z.of_nat (length data) → ∃ r r',
     page_backing pages ms ((dest + i) / CITRA_PAGE_SIZE) (Some r) ∧
     page_backing pages' ms ((src + i) / CITRA_PAGE_SIZE) (Some r') ∧
     GetPtr r + (dest + i) `mod` CITRA_PAGE_SIZE = GetPtr r' + (src + i) `mod` CITRA_PAGE_SIZE) →
  ∃ h, WriteBlock rasterizer pages dest (FromBuffer data) (Z.of_nat (length data)) ms = Some (set_host ms h) ∧
    ReadBlock rasterizer pages' src (Z.of_nat (length data)) (set_host ms h) = Some (set_host ms h, data) ∧
    ∀ p, (∀ a ref, dest <= a < dest + Z.of_nat (length data) → page_backing pages ms (a / CITRA_PAGE_SIZE) (Some ref) →
            p ≠ GetPtr ref + a `mod` CITRA_PAGE_SIZE) → host_byte h p = host_byte (host ms) p.
Proof.
  intros Hw H0 H31 H0' H31' Hb Hsep Hsame.
  assert (range_ok pages ms dest (dest + Z.of_nat (length data))) as Hok.
  { intros a Ha. destruct (proj1 Hsep a Ha) as (r & Hr). by exists (Some r). }
  destruct (write_block_ok pages ms dest data H0 H31 Hb Hok) as (h & E & Hwe).
  destruct (write_each_bytes pages dest data ms _ H0 H31 Hb Hsep Hwe) as (_ & Hread & Hother).
  exists h. split; [done|]. split; [|done].
  destruct (read_block_ok pages' (set_host ms h) src (Z.of_nat (length data))) as (out & -> & Hlen & Hout);
    try done; try lia.
  { intros a Ha. destruct (Hsame (a - src) ltac:(lia)) as (_ & r' & _ & Hr' & _).
    replace (src + (a - src)) with a in Hr' by lia. by exists (Some r'). }
  f_equal. f_equal. apply list_eq_same_length with (n := length data); try done; [lia|].
  intros i x y Hi Hx Hy. apply Hout in Hx. destruct (Hsame (Z.of_nat i) ltac:(lia)) as (r & r' & Hr & Hr' & Eq).
  rewrite (Read8_ok pages' (set_host ms h) _ (Some r')) in Hx; [|lia|done|done].
  injection Hx as <-. simpl. rewrite <- Eq. exact (Hread i y r Hy Hr).
Qed.


(** A value that lies in one mapped page is the value of its bytes in little-endian order, so that
    [Read] delivers what [ReadBlock] delivers, and a value that was written is read back. *)
Theorem value_access_in_page pages ms n a v ref :
  (∀ h, no_writeback Flush h) → 0 <= a < 2 ^ 31 → 0 < n → a + n <= 2 ^ 31 → 0 <= v < 2 ^ (8 * n) →
  a `mod` CITRA_PAGE_SIZE + n <= CITRA_PAGE_SIZE → page_backing pages ms (a / CITRA_PAGE_SIZE) (Some ref) →
  (∃ data, ReadBlock rasterizer pages a n ms = Some (ms, data) ∧
     Read rasterizer ReadReg n pages a ms = Some (ms, Some (le_value data))) ∧
  ∃ ms', Write rasterizer n pages a v ms = Some ms' ∧
    Read rasterizer ReadReg n pages a ms' = Some (ms', Some v).
Proof.
  intros Hw Ha Hn H31 Hv Hpg Hb. destruct (addr_split a ltac:(lia)) as (_ & _ & Ea & Hmod). split.
  - destruct (read_block_ok pages ms a n) as (data & -> & Hlen & Hd); try done; try lia.
    { intros b Hb'. exists (Some ref). destruct (chunk_split a n (b - a)) as [Ed _]; [lia..|].
      by replace (a + (b - a)) with b in Ed by lia; rewrite Ed. }
    exists data. split; [done|]. rewrite (Read_ok pages ms n a (Some ref)) by done. cbn [fmap option_fmap option_map].
    do 4 f_equal. apply list_eq_same_length with (n := Z.to_nat n); [done|apply host_bytes_length|].
    intros i x y Hi [_ ->]%host_bytes_lookup Hy%Hd. destruct (chunk_split a n (Z.of_nat i)) as [Ed Em]; [lia..|].
    rewrite (Read8_ok pages ms _ (Some ref)) in Hy; [|lia|by rewrite Ed|done]. injection Hy as <-.
    simpl. rewrite Em. f_equal. lia.
  - rewrite (Write_ok pages ms n a v (Some ref)) by done. eexists. split; [done|].
    rewrite (Read_ok pages _ n a (Some ref)) by done. cbn [fmap option_fmap option_map put].
    do 3 f_equal. rewrite <- (le_value_bytes (Z.to_nat n) v) at 2 by (by rewrite Z2Nat.id by lia). f_equal.
    apply list_eq_same_length with (n := Z.to_nat n); [apply le_bytes_length|apply host_bytes_length|].
    intros i x y Hi [_ ->]%host_bytes_lookup Hy. simpl. rewrite host_byte_set, le_bytes_length.
    rewrite (proj2 (in_range_iff _ _ _)) by lia. replace (Z.to_nat _) with i by lia. by rewrite Hy.
Qed.

End Blocks.

(** ** Watchpoints *)

Section Watchpoints.
Implicit Types (ms : MemorySystem) (pages : Pages).

Lemma page_entry_insert (pt : PageTable) p q x :
  page_entry (<[p := x]> pt) q = if decide (p = q) then x else page_entry pt q.
Proof.
  unfold page_entry. destruct (decide (p = q)) as [->|]; [by rewrite lookup_insert_eq|].
  by rewrite lookup_insert_ne.
Qed.

Lemma page_index_of page : Z.shiftr (page * CITRA_PAGE_SIZE) CITRA_PAGE_BITS = page.
Proof. rewrite Z.shiftr_div_pow2 by done. by apply Z.div_mul. Qed.

(** A page that [RegisterWatchpoint] can put a watchpoint on. *)
Definition can_watch ms pages (page : Z) : Prop :=
  is_Some (watchpoint_pages_map pages !! page) ∨
  (page_entry (entries pages) page).1 = PageMemory ∨
  ((page_entry (entries pages) page).1 = PageRasterizerCachedMemory ∧
   is_Some (GetPointerForRasterizerCache (page * CITRA_PAGE_SIZE) ms)).

Lemma page_base_of a : 0 <= a →
  Z.land a (Z.lnot CITRA_PAGE_MASK) = a / CITRA_PAGE_SIZE * CITRA_PAGE_SIZE ∧
  Z.shiftr (a / CITRA_PAGE_SIZE * CITRA_PAGE_SIZE) CITRA_PAGE_BITS = a / CITRA_PAGE_SIZE.
Proof.
  intros Ha. split; [|apply page_index_of].
  rewrite <- Z.ldiff_land. change CITRA_PAGE_MASK with (Z.ones 12). rewrite Z.ldiff_ones_r by done.
  rewrite Z.shiftl_mul_pow2, Z.shiftr_div_pow2 by done. done.
Qed.

(** One page of the loop changes that page alone. *)
Lemma register_page_other ms pages pages' page :
  0 <= page → register_page (page * CITRA_PAGE_SIZE) ms pages = Some (Some pages') →
  ∀ q, q ≠ page → page_entry (entries pages') q = page_entry (entries pages) q ∧
                  watchpoint_pages_map pages' !! q = watchpoint_pages_map pages !! q.
Proof.
  intros Hp Er q Hq. unfold register_page in Er. rewrite page_index_of in Er by done.
  destruct (watchpoint_pages_map pages !! page) as [[c m]|].
  - simplify_eq. simpl. by rewrite lookup_partial_alter_ne.
  - destruct (page_entry (entries pages) page) as [[] ref]; simplify_eq; inv_opt; simplify_eq; simpl;
      by rewrite page_entry_insert, decide_False, lookup_partial_alter_ne.
Qed.

(** The round on a page that cannot be watched fails or leaves everything as it is. *)
Lemma register_page_cases ms pages page :
  0 <= page →
  (can_watch ms pages page → ∃ pages', register_page (page * CITRA_PAGE_SIZE) ms pages = Some (Some pages')) ∧
  (~ can_watch ms pages page → register_page (page * CITRA_PAGE_SIZE) ms pages = None ∨
                               register_page (page * CITRA_PAGE_SIZE) ms pages = Some None).
Proof.
  intros Hp. unfold register_page, can_watch. rewrite page_index_of by done.
  destruct (watchpoint_pages_map pages !! page) as [[c m]|]; [naive_solver|].
  destruct (page_entry (entries pages) page) as [type ref]. simpl.
  destruct type; try (split; [intros [[? ?]|[?|[? ?]]]; by eauto || done|by auto]).
  - split; [by eauto|]. intros []. auto.
  - destruct (GetPointerForRasterizerCache _ _) as [mem|]; simpl; split; eauto.
    + intros []. eauto 10.
    + intros [[? ?]|[?|[_ [? ?]]]]; done.
Qed.

Lemma can_watch_other ms pages pages' page q :
  0 <= page → register_page (page * CITRA_PAGE_SIZE) ms pages = Some (Some pages') → q ≠ page →
  can_watch ms pages' q ↔ can_watch ms pages q.
Proof.
  intros Hp Er Hne. unfold can_watch. by destruct (register_page_other ms pages pages' page Hp Er q Hne) as [-> ->].
Qed.

(** The end of the page of an address. *)
Lemma next_page a e :
  0 <= a < e → e <= 2 ^ 32 - CITRA_PAGE_SIZE →
  u32 (a / CITRA_PAGE_SIZE * CITRA_PAGE_SIZE + CITRA_PAGE_SIZE) = (a / CITRA_PAGE_SIZE + 1) * CITRA_PAGE_SIZE ∧
  a < (a / CITRA_PAGE_SIZE + 1) * CITRA_PAGE_SIZE ∧ 0 <= a / CITRA_PAGE_SIZE ∧
  (a / CITRA_PAGE_SIZE + 1) * CITRA_PAGE_SIZE = a + (CITRA_PAGE_SIZE - a `mod` CITRA_PAGE_SIZE).
Proof.
  intros Ha He. destruct (addr_split a ltac:(lia)) as (_ & _ & E & Hm).
  rewrite u32_id; unfold CITRA_PAGE_SIZE in *; lia.
Qed.

Lemma same_page_lt a b : 0 <= a → 0 <= b → b < (a / CITRA_PAGE_SIZE + 1) * CITRA_PAGE_SIZE → a <= b →
  b / CITRA_PAGE_SIZE = a / CITRA_PAGE_SIZE.
Proof.
  intros Ha Hb Hlt Hle. destruct (addr_split a Ha) as (_ & _ & Ea & Hma).
  destruct (addr_split b Hb) as (_ & _ & Eb & Hmb). unfold CITRA_PAGE_SIZE in *. lia.
Qed.

Lemma register_ends ms fuel e a pages :
  0 <= a → e <= 2 ^ 32 - CITRA_PAGE_SIZE →
  (∀ b, a <= b < e → can_watch ms pages (b / CITRA_PAGE_SIZE)) →
  e - a + a `mod` CITRA_PAGE_SIZE <= Z.of_nat fuel * CITRA_PAGE_SIZE →
  is_Some (watch_loop register_page fuel a e ms pages).
Proof.
  intros H0 He. revert a pages H0. induction fuel as [|fuel IH]; intros a pages H0 Hw Hf;
    cbn [watch_loop]; destruct (Z.leb_spec e a) as [|Hlt]; try done.
  { pose proof (Z.mod_pos_bound a CITRA_PAGE_SIZE ltac:(done)). lia. }
  destruct (page_base_of a H0) as [-> _]. destruct (next_page a e) as (En & Hgt & Hp & Es); [lia..|].
  destruct (proj1 (register_page_cases ms pages (a / CITRA_PAGE_SIZE) Hp)) as (pages' & Er); [apply Hw; lia|].
  rewrite Er. cbn [mbind option_bind]. rewrite En. apply IH; [lia| |].
  - intros b Hb. rewrite (can_watch_other ms pages pages' _ _ Hp Er); [apply Hw; lia|].
    intros Heq. destruct (addr_split b ltac:(lia)) as (_ & _ & Eb & Hm). lia.
  - rewrite Z.mod_mul by done. lia.
Qed.

Lemma register_hangs ms fuel e a b pages :
  0 <= a → e <= 2 ^ 32 - CITRA_PAGE_SIZE → a <= b < e → ~ can_watch ms pages (b / CITRA_PAGE_SIZE) →
  watch_loop register_page fuel a e ms pages = None.
Proof.
  intros H0 He. revert a pages H0. induction fuel as [|fuel IH]; intros a pages H0 Hb Hbad; cbn [watch_loop];
    (destruct (Z.leb_spec e a) as [|Hlt]; [lia|]); [done|].
  destruct (page_base_of a H0) as [-> _]. destruct (next_page a e) as (En & Hgt & Hp & Es); [lia..|].
  destruct (decide (b / CITRA_PAGE_SIZE = a / CITRA_PAGE_SIZE)) as [Heq|Hne].
  - rewrite Heq in Hbad. destruct (proj2 (register_page_cases ms pages _ Hp) Hbad) as [-> | ->]; [done|].
    cbn [mbind option_bind]. apply IH; [done|done|]. by rewrite Heq.
  - destruct (register_page _ ms pages) as [[pages'|]|] eqn:Er; [|by apply IH|done]. cbn [mbind option_bind].
    rewrite En. apply IH; [lia| |by rewrite (can_watch_other ms pages pages' _ _ Hp Er)].
    split; [|lia]. apply Z.nlt_ge. intros Hlt'. apply Hne. apply same_page_lt; lia.
Qed.

(** Setting a watchpoint ends exactly when every page of the range can be watched: then one round
    for every page is enough; a page that is not mapped is skipped without moving on, and the loop
    goes round on it for ever. *)
Theorem register_watchpoint_termination ms pages addr size :
  0 <= addr → 0 < size → addr + size <= 2 ^ 32 - CITRA_PAGE_SIZE →
  ((∀ a, addr <= a < addr + size → can_watch ms pages (a / CITRA_PAGE_SIZE)) →
   is_Some (RegisterWatchpoint (block_fuel size) addr size ms pages)) ∧
  ((∃ a, addr <= a < addr + size ∧ ~ can_watch ms pages (a / CITRA_PAGE_SIZE)) →
   ∀ fuel, RegisterWatchpoint fuel addr size ms pages = None).
Proof.
  intros H0 Hs Hmax. unfold RegisterWatchpoint. rewrite u32_id by (unfold CITRA_PAGE_SIZE in *; lia). split.
  - intros Hw. apply register_ends; try done. pose proof (block_fuel_enough addr size). lia.
  - intros (b & Hb & Hbad) fuel. by apply (register_hangs ms fuel _ _ b).
Qed.

End Watchpoints.

(** ** Physical addresses *)

Section Physical.
Implicit Types ms : MemorySystem.

(** The cache is empty or holds one of the areas. *)
Definition cache_ok ms : Prop :=
  phys_mem_region_info_cache ms = mkRegionInfo None 0 0 ∨
  ∃ start size mem, (start, size, mem) ∈ memory_areas ms ∧
    phys_mem_region_info_cache ms = mkRegionInfo (Some mem) start (start + size).

Definition lookups (l : list Z) (ms : MemorySystem) : MemorySystem * list PhysMemRegionInfo :=
  foldl (λ '(ms, out) a, let '(ms, info) := GetPhysMemRegionInfo a ms in (ms, out ++ [info])) (ms, []) l.

Lemma find_area_inside ms a start size mem :
  (start, size, mem) ∈ memory_areas ms → start <= a < start + size →
  find_area a ms = mkRegionInfo (Some mem) start (start + size).
Proof.
  intros Hin Ha. unfold find_area, memory_areas in *.
  rewrite !elem_of_cons, elem_of_nil in Hin.
  destruct Hin as [E|[E|[E|[E|[]]]]]; injection E as -> -> ->; simpl;
    repeat (rewrite decide_False by (simpl; unfold VRAM_PADDR, VRAM_SIZE, DSP_RAM_PADDR, DSP_RAM_SIZE, FCRAM_PADDR,
      FCRAM_N3DS_SIZE, N3DS_EXTRA_RAM_PADDR, N3DS_EXTRA_RAM_SIZE in *; lia); simpl);
    by rewrite decide_True by (simpl; lia).
Qed.

Lemma find_area_cache ms a : cache_ok (set_region_cache ms (find_area a ms)).
Proof.
  unfold cache_ok, find_area. destruct (list_find _ _) as [[i [[start size] mem]]|] eqn:E; simpl.
  - right. apply list_find_Some in E as (Hi & _). exists start, size, mem. split; [|done].
    by eapply list_elem_of_lookup_2.
  - by left.
Qed.

Lemma GetPhysMemRegionInfo_ok ms a :
  cache_ok ms → (GetPhysMemRegionInfo a ms).2 = find_area a ms ∧ cache_ok (GetPhysMemRegionInfo a ms).1 ∧
  ∀ b, find_area b (GetPhysMemRegionInfo a ms).1 = find_area b ms.
Proof.
  intros Hc. unfold GetPhysMemRegionInfo.
  destruct (in_range _ _ a) eqn:E; simpl; [|split_and!; [done|apply find_area_cache|done]].
  apply in_range_iff in E. split_and!; [|done|done]. destruct Hc as [Hc|(start & size & mem & Hin & Hc)]; rewrite Hc in *; simpl in E.
  - lia.
  - symmetry. by apply find_area_inside.
Qed.

(** The cached area does not change any answer: whatever physical addresses were looked up before,
    and in whatever order, [GetPhysMemRegionInfo] returns what the search over the areas returns. *)
Theorem phys_region_cache_transparent ms l :
  cache_ok ms → (lookups l ms).2 = (λ a, find_area a ms) <$> l.
Proof.
  intros Hc. assert (∀ ms0 out, cache_ok ms0 → (∀ b, find_area b ms0 = find_area b ms) →
    (foldl (λ '(ms, out) a, let '(ms, info) := GetPhysMemRegionInfo a ms in (ms, out ++ [info])) (ms0, out) l).2
      = out ++ ((λ a, find_area a ms) <$> l)) as H; [|by apply (H ms [])].
  clear Hc. induction l as [|a l IH]; intros ms0 out Hc Hf; [by rewrite app_nil_r|]. cbn [foldl fmap list_fmap].
  destruct (GetPhysMemRegionInfo_ok ms0 a Hc) as (E & Hc' & Hf'). destruct (GetPhysMemRegionInfo a ms0) as [ms1 info].
  simpl in *. rewrite IH; [|done|intros b; by rewrite Hf', Hf]. by rewrite E, Hf, <- app_assoc.
Qed.

End Physical.

(** ** Pages marked for the rasterizer *)

Section Marks.
Implicit Types (ms : MemorySystem) (pages : Pages).

Definition cached_type (t : PageType) : bool :=
  match t with PageRasterizerCachedMemory | PageRasterizerCachedMemoryWatchpoint => true | _ => false end.

(** The type of every mapped page agrees with the marks, as [MapPages] sets it. *)
Definition marks_agree ms pages : Prop :=
  ∀ page, 0 <= page → (page_entry (entries pages) page).1 ≠ PageUnmapped →
    cached_type (page_entry (entries pages) page).1 = IsCached (page * CITRA_PAGE_SIZE) ms.

Ltac unfold_map :=
  unfold VRAM_VADDR_END, LINEAR_HEAP_VADDR_END, NEW_LINEAR_HEAP_VADDR_END, PLUGIN_3GX_FB_VADDR_END, VRAM_PADDR_END,
    FCRAM_PADDR_END, FCRAM_N3DS_PADDR_END, VRAM_VADDR, LINEAR_HEAP_VADDR, NEW_LINEAR_HEAP_VADDR, PLUGIN_3GX_FB_VADDR,
    VRAM_SIZE, LINEAR_HEAP_SIZE, NEW_LINEAR_HEAP_SIZE, PLUGIN_3GX_FB_SIZE, VRAM_PADDR, FCRAM_PADDR, FCRAM_SIZE,
    FCRAM_N3DS_SIZE, CITRA_PAGE_SIZE in *.
Ltac case_ranges :=
  repeat match goal with
  | H : context [in_range ?a ?b ?c] |- _ => destruct (in_range a b c) eqn:?
  | |- context [in_range ?a ?b ?c] => destruct (in_range a b c) eqn:?
  end;
  repeat match goal with
  | H : in_range _ _ _ = true |- _ => apply in_range_iff in H
  | H : in_range _ _ _ = false |- _ => apply in_range_false in H
  end.

(** The marks are kept by page, and different pages have different marks. *)
Lemma At_page a : 0 <= a → At a = At (a / CITRA_PAGE_SIZE * CITRA_PAGE_SIZE).
Proof.
  intros Ha. destruct (addr_split a Ha) as (_ & _ & Ea & Hm). rewrite Ea at 1. clear Ea.
  assert (∀ p X off, X `mod` CITRA_PAGE_SIZE = 0 → 0 <= off < CITRA_PAGE_SIZE →
            (p * CITRA_PAGE_SIZE + off - X) / CITRA_PAGE_SIZE = (p * CITRA_PAGE_SIZE - X) / CITRA_PAGE_SIZE) as Hd.
  { intros p X off HX Ho. apply Z.div_exact in HX; [|done]. set (k := X / CITRA_PAGE_SIZE) in *.
    replace (p * CITRA_PAGE_SIZE + off - X) with (off + (p - k) * CITRA_PAGE_SIZE) by lia.
    replace (p * CITRA_PAGE_SIZE - X) with ((p - k) * CITRA_PAGE_SIZE) by lia.
    rewrite Z.div_add, Z.div_mul, Z.div_small by done. lia. }
  unfold At. rewrite (in_range_page LINEAR_HEAP_VADDR LINEAR_HEAP_VADDR_END),
    (in_range_page NEW_LINEAR_HEAP_VADDR NEW_LINEAR_HEAP_VADDR_END), (in_range_page VRAM_VADDR VRAM_VADDR_END),
    (in_range_page PLUGIN_3GX_FB_VADDR PLUGIN_3GX_FB_VADDR_END), !Hd by done.
  done.
Qed.

Definition area_base (m : marker_area) : Z :=
  match m with
  | MarkVram => VRAM_VADDR | MarkLinearHeap => LINEAR_HEAP_VADDR
  | MarkNewLinearHeap => NEW_LINEAR_HEAP_VADDR | MarkPluginFb => PLUGIN_3GX_FB_VADDR
  end.
Lemma At_index a m : At a = Some m → a / CITRA_PAGE_SIZE = m.2 + area_base m.1 / CITRA_PAGE_SIZE.
Proof.
  assert (∀ X, X `mod` CITRA_PAGE_SIZE = 0 →
            a / CITRA_PAGE_SIZE = (a - X) / CITRA_PAGE_SIZE + X / CITRA_PAGE_SIZE) as Hd.
  { intros X HX. apply Z.div_exact in HX; [|done]. rewrite <- Z.div_add by done. f_equal. lia. }
  unfold At. repeat (destruct (in_range _ _ a); [intros [= <-]; simpl; by apply Hd|]). done.
Qed.

Lemma At_inj a b m : At a = Some m → At b = Some m → a / CITRA_PAGE_SIZE = b / CITRA_PAGE_SIZE.
Proof. intros ->%At_index ->%At_index. done. Qed.

Lemma IsCached_Mark v w cached ms :
  0 <= v → 0 <= w → is_Some (At v) →
  IsCached w (Mark v cached ms) = if decide (w / CITRA_PAGE_SIZE = v / CITRA_PAGE_SIZE) then cached else IsCached w ms.
Proof.
  intros Hv Hw [m Em]. unfold IsCached, Mark. rewrite Em.
  destruct (decide (w / CITRA_PAGE_SIZE = v / CITRA_PAGE_SIZE)) as [Heq|Hne].
  - assert (At w = Some m) as -> by (rewrite At_page, Heq, <- At_page by done; done). simpl.
    destruct cached; [apply bool_decide_true|apply bool_decide_false]; set_solver.
  - destruct (At w) as [m'|] eqn:Ew; [|done]. assert (m' ≠ m) as Hmm.
    { intros ->. by apply Hne, (At_inj w v m). }
    simpl. destruct cached; apply bool_decide_ext; set_solver.
Qed.

(** A virtual address of the rasterizer has a mark, and uncaching a page finds its pointer. *)
Definition rasterizer_vaddr ms (v : Z) : Prop :=
  0 <= v ∧ is_Some (At v) ∧ is_Some (GetPointerForRasterizerCache (v / CITRA_PAGE_SIZE * CITRA_PAGE_SIZE) ms).

Lemma mark_page_ok ms pages v cached :
  rasterizer_vaddr ms v → marks_agree ms pages → IsCached v ms = negb cached →
  ∃ pages', mark_page cached v (Mark v cached ms) pages = Some pages' ∧ marks_agree (Mark v cached ms) pages'.
Proof.
  intros (Hv & Hat & Hptr) Hag Hc. set (ms' := Mark v cached ms). set (page := v / CITRA_PAGE_SIZE).
  assert (0 <= page) as Hp by (by apply Z.div_pos).
  assert (IsCached (page * CITRA_PAGE_SIZE) ms = negb cached) as Hpc.
  { unfold IsCached, page in *. by rewrite <- At_page. }
  assert (∀ q, 0 <= q → q ≠ page → IsCached (q * CITRA_PAGE_SIZE) ms' = IsCached (q * CITRA_PAGE_SIZE) ms) as Hoth.
  { intros q Hq Hne. unfold ms'. rewrite IsCached_Mark, Z.div_mul by (done || (unfold CITRA_PAGE_SIZE; lia)).
    by rewrite decide_False. }
  assert (IsCached (page * CITRA_PAGE_SIZE) ms' = cached) as Hpc'.
  { unfold ms'. rewrite IsCached_Mark, Z.div_mul by (done || (unfold CITRA_PAGE_SIZE; lia)). by rewrite decide_True. }
  assert (∀ type ref, cached_type type = cached → marks_agree ms' (set_page page type ref pages)) as Hset.
  { intros type ref Ht q Hq. simpl. rewrite page_entry_insert. destruct (decide (page = q)) as [<-|Hne]; simpl.
    - by rewrite Hpc'.
    - intros Hn. rewrite Hoth by done. by apply Hag. }
  assert ((page_entry (entries pages) page).1 = PageUnmapped → marks_agree ms' pages) as Hun.
  { intros Hu q Hq Hn. destruct (decide (q = page)) as [->|Hne]; [done|]. rewrite Hoth by done. by apply Hag. }
  specialize (Hag page Hp). rewrite Hpc in Hag. unfold mark_page.
  destruct (addr_split v Hv) as (-> & _). destruct (page_base_of v Hv) as [-> _]. fold page.
  destruct Hptr as [r Er].
  assert (GetPointerForRasterizerCache (page * CITRA_PAGE_SIZE) ms' = Some r) as Er'.
  { unfold ms', Mark. destruct (At v); done. }
  destruct (page_entry (entries pages) page) as [type ref]. simpl in Hag, Hun.
  destruct cached, type; simpl in Hag; try (by specialize (Hag ltac:(done))); try rewrite Er'; eexists; (split; [done|]); auto.
Qed.

Lemma mark_tables_ok ms tables v cached :
  rasterizer_vaddr ms v → Forall (marks_agree ms) tables → IsCached v ms = negb cached →
  ∃ tables', mapM (mark_page cached v (Mark v cached ms)) tables = Some tables' ∧
    Forall (marks_agree (Mark v cached ms)) tables'.
Proof.
  intros Hv Hall Hc. induction Hall as [|pages tables Hp Hall IH]; [by exists []|].
  destruct (mark_page_ok ms pages v cached Hv Hp Hc) as (pages' & E & Hp').
  destruct IH as (tables' & E' & Hall'). exists (pages' :: tables'). simpl. rewrite E. simpl. rewrite E'. simpl.
  split; [done|]. by constructor.
Qed.

Lemma rasterizer_vaddr_Mark ms v w cached : rasterizer_vaddr (Mark w cached ms) v ↔ rasterizer_vaddr ms v.
Proof. unfold rasterizer_vaddr, Mark. by destruct (At w). Qed.

Lemma mark_vaddrs_ok ms tables cached vaddrs :
  Forall (rasterizer_vaddr ms) vaddrs → NoDup ((λ v, v / CITRA_PAGE_SIZE) <$> vaddrs) →
  Forall (marks_agree ms) tables → Forall (λ v, IsCached v ms = negb cached) vaddrs →
  ∃ ms' tables', mark_vaddrs cached vaddrs ms tables = Some (ms', tables') ∧ Forall (marks_agree ms') tables' ∧
    (∀ v, rasterizer_vaddr ms' v ↔ rasterizer_vaddr ms v) ∧ plugin_fb_address ms' = plugin_fb_address ms ∧
    ∀ w, 0 <= w → IsCached w ms' =
      if decide (w / CITRA_PAGE_SIZE ∈ ((λ v, v / CITRA_PAGE_SIZE) <$> vaddrs)) then cached else IsCached w ms.
Proof.
  revert ms tables. induction vaddrs as [|v vaddrs IH]; intros ms tables Hr Hnd Hag Hc.
  - exists ms, tables. by split_and!.
  - apply Forall_cons in Hr as [H1 H2]. apply Forall_cons in Hc as [H3 H4].
    rewrite fmap_cons in Hnd |- *. apply NoDup_cons in Hnd as [Hnv Hnd]. cbn [mark_vaddrs].
    destruct (mark_tables_ok ms tables v cached) as (tables1 & -> & Hag1); try done. cbn [mbind option_bind].
    assert (∀ w, 0 <= w → IsCached w (Mark v cached ms) =
              if decide (w / CITRA_PAGE_SIZE = v / CITRA_PAGE_SIZE) then cached else IsCached w ms) as Hm.
    { intros w Hw. destruct H1 as (? & ? & _). by apply IsCached_Mark. }
    destruct (IH (Mark v cached ms) tables1) as (ms' & tables' & -> & Hag' & Hrv & Hpl & Hw'); try done.
    + eapply Forall_impl; [exact H2|]. intros x. by rewrite rasterizer_vaddr_Mark.
    + apply Forall_forall. intros x Hx. rewrite Forall_forall in H2, H4.
      rewrite Hm by (by destruct (H2 x Hx)). rewrite decide_False; [by apply H4|].
      intros Heq. apply Hnv. rewrite <- Heq. by apply (list_elem_of_fmap_2 (λ v, v / CITRA_PAGE_SIZE)).
    + exists ms', tables'. split_and!; try done.
      * intros x. by rewrite Hrv, rasterizer_vaddr_Mark.
      * rewrite Hpl. unfold Mark. by destruct (At v).
      * intros w Hw. rewrite Hw', Hm by done.
        repeat destruct (decide _); try done; set_solver.
Qed.

(** The host blocks have the sizes of the console's memories, and a plugin framebuffer lies in
    FCRAM on a page boundary. *)
Definition layout_ok ms : Prop :=
  bm_size (fcram_mem ms) = FCRAM_N3DS_SIZE ∧ bm_size (vram_mem ms) = VRAM_SIZE ∧
  (plugin_fb_address ms = 0 ∨
   (plugin_fb_address ms `mod` CITRA_PAGE_SIZE = 0 ∧ FCRAM_PADDR <= plugin_fb_address ms ∧
    plugin_fb_address ms + PLUGIN_3GX_FB_SIZE <= FCRAM_N3DS_PADDR_END)).

Definition phys_base (m : marker_area) ms : Z :=
  match m with
  | MarkVram => VRAM_PADDR | MarkLinearHeap => FCRAM_PADDR
  | MarkNewLinearHeap => FCRAM_PADDR | MarkPluginFb => plugin_fb_address ms
  end.

Definition area_end (m : marker_area) : Z :=
  match m with
  | MarkVram => VRAM_VADDR_END | MarkLinearHeap => LINEAR_HEAP_VADDR_END
  | MarkNewLinearHeap => NEW_LINEAR_HEAP_VADDR_END | MarkPluginFb => PLUGIN_3GX_FB_VADDR_END
  end.

(** Every address of an area has a mark, and its page a pointer. *)
Lemma area_vaddr m ms x :
  layout_ok ms → area_base m <= x < area_end m → (m = MarkPluginFb → plugin_fb_address ms ≠ 0) →
  rasterizer_vaddr ms x ∧ ∃ i, At x = Some (m, i).
Proof.
  intros (Hf & Hv & Hpl) Hx Hm.
  assert (At x = Some (m, (x - area_base m) / CITRA_PAGE_SIZE)) as Hat.
  { unfold At. destruct m; simpl in *; unfold_map;
      repeat (rewrite (proj2 (in_range_false _ _ x)) by lia); by rewrite (proj2 (in_range_iff _ _ x)) by lia. }
  split; [|by eauto]. assert (0 <= x) as H0 by (destruct m; simpl in *; unfold_map; lia).
  split; [done|]. split; [by eauto|].
  destruct (addr_split x H0) as (_ & _ & Ex & Hm0). set (b := x / CITRA_PAGE_SIZE * CITRA_PAGE_SIZE) in *.
  assert (area_base m <= b < area_end m) as Hb.
  { assert (in_range (area_base m) (area_end m) b = true) as Hr; [|by apply in_range_iff in Hr].
    unfold b. rewrite <- (in_range_page _ _ _ (x `mod` CITRA_PAGE_SIZE)) by (by destruct m || done).
    fold b. rewrite <- Ex. by apply in_range_iff. }
  unfold GetPointerForRasterizerCache, make_ref. rewrite Hf, Hv. clear Hat Hx Ex. clearbody b.
  destruct m; simpl in Hb; unfold_map; repeat (rewrite (proj2 (in_range_false _ _ b)) by lia);
    rewrite (proj2 (in_range_iff _ _ b)) by lia; simpl.
  1-3: match goal with |- context [?x <=? ?y] => destruct (Z.leb_spec x y); [by eexists|lia] end.
  destruct Hpl as [|(_ & Hlo & Hhi)]; [naive_solver|]. rewrite (proj2 (Z.eqb_neq _ 0)) by naive_solver. simpl.
  rewrite u32_id by lia. match goal with |- context [?x <=? ?y] => destruct (Z.leb_spec x y); [by eexists|lia] end.
Qed.

(** The addresses the rasterizer knows a physical address by. *)
Lemma p2v_area ms paddr v :
  layout_ok ms → 0 <= paddr → v ∈ PhysicalToVirtualAddressForRasterizer paddr ms →
  rasterizer_vaddr ms v ∧ ∃ m i, At v = Some (m, i) ∧ v - paddr = area_base m - phys_base m ms.
Proof.
  intros Hlay H0 Hin.
  assert (∃ m, area_base m <= v < area_end m ∧ (m = MarkPluginFb → plugin_fb_address ms ≠ 0) ∧
               v - paddr = area_base m - phys_base m ms) as (m & Hv & Hm & Hd).
  { unfold PhysicalToVirtualAddressForRasterizer in Hin. destruct (in_range VRAM_PADDR _ paddr) eqn:E1.
    { apply list_elem_of_singleton in Hin as ->. apply in_range_iff in E1. exists MarkVram. simpl.
      split; [|split; [done|lia]]. unfold_map. lia. }
    destruct (negb _ && _) eqn:E2.
    { apply list_elem_of_singleton in Hin as ->. destruct_bools. apply Z.eqb_neq in H.
      apply in_range_iff in H1. exists MarkPluginFb. simpl. split; [|split; [done|lia]].
      destruct Hlay as (_ & _ & [|(_ & ? & ?)]); [done|]. rewrite u32_id in H1 by (unfold_map; lia). unfold_map. lia. }
    destruct (in_range FCRAM_PADDR _ paddr) eqn:E3; [|destruct (in_range FCRAM_PADDR_END _ paddr) eqn:E4].
    - apply in_range_iff in E3. apply elem_of_cons in Hin as [->|Hin]; [|apply list_elem_of_singleton in Hin as ->].
      + exists MarkLinearHeap. simpl. split; [|split; [done|lia]]. unfold_map. lia.
      + exists MarkNewLinearHeap. simpl. split; [|split; [done|lia]]. unfold_map. lia.
    - apply list_elem_of_singleton in Hin as ->. apply in_range_iff in E4. exists MarkNewLinearHeap. simpl.
      split; [|split; [done|lia]]. unfold_map. lia.
    - by apply elem_of_nil in Hin. }
  destruct (area_vaddr m ms v Hlay Hv Hm) as [Hr [i Hi]]. split; [done|]. by exists m, i.
Qed.

(** Addresses of two physical addresses a page or more apart lie in different pages, and so do the
    two addresses of one physical address. *)
Lemma p2v_same_page ms p q v w :
  layout_ok ms → 0 <= p → 0 <= q → v ∈ PhysicalToVirtualAddressForRasterizer p ms →
  w ∈ PhysicalToVirtualAddressForRasterizer q ms → v / CITRA_PAGE_SIZE = w / CITRA_PAGE_SIZE →
  v - w = p - q ∧ Z.abs (p - q) < CITRA_PAGE_SIZE.
Proof.
  intros Hl Hp Hq Hv Hw Heq. destruct (p2v_area ms p v Hl Hp Hv) as ((Hv0 & _) & m & i & Em & Ed).
  destruct (p2v_area ms q w Hl Hq Hw) as ((Hw0 & _) & m' & i' & Em' & Ed').
  rewrite (At_page v), Heq, <- At_page in Em by done. assert (m' = m) as -> by congruence.
  destruct (addr_split v Hv0) as (_ & _ & ? & ?). destruct (addr_split w Hw0) as (_ & _ & ? & ?). lia.
Qed.

Lemma p2v_nodup ms p :
  layout_ok ms → 0 <= p → NoDup ((λ v, v / CITRA_PAGE_SIZE) <$> PhysicalToVirtualAddressForRasterizer p ms).
Proof.
  intros Hl Hp. apply NoDup_fmap_2_strong.
  - intros v w Hv Hw Heq. destruct (p2v_same_page ms p p v w) as [? _]; try done. lia.
  - unfold PhysicalToVirtualAddressForRasterizer. repeat destruct (in_range _ _ p); rewrite ?andb_true_r, ?andb_false_r;
      destruct (negb (plugin_fb_address ms =? 0)); repeat constructor; try (by apply not_elem_of_nil); rewrite list_elem_of_singleton; unfold_map; lia.
Qed.

Lemma p2v_plugin ms ms' p :
  plugin_fb_address ms' = plugin_fb_address ms →
  PhysicalToVirtualAddressForRasterizer p ms' = PhysicalToVirtualAddressForRasterizer p ms.
Proof. intros E. unfold PhysicalToVirtualAddressForRasterizer. by rewrite E. Qed.

(** The addresses in the pages from [paddr] on. *)
Definition region_vaddr ms (paddr : Z) (n : nat) (v : Z) : Prop :=
  ∃ k : nat, (k < n)%nat ∧ v ∈ PhysicalToVirtualAddressForRasterizer (paddr + Z.of_nat k * CITRA_PAGE_SIZE) ms.

Lemma mark_vaddrs_layout cached vaddrs ms tables ms' tables' :
  mark_vaddrs cached vaddrs ms tables = Some (ms', tables') → layout_ok ms → layout_ok ms'.
Proof.
  revert ms tables. induction vaddrs as [|v vaddrs IH]; intros ms tables E Hl; cbn [mark_vaddrs] in E; [by simplify_eq|].
  destruct (mapM _ _) as [tables1|]; [|done]. apply (IH _ _ E). unfold Mark. by destruct (At v).
Qed.

Lemma mark_loop_ok cached n : ∀ paddr ms tables,
  0 <= paddr → paddr + Z.of_nat n * CITRA_PAGE_SIZE < 2 ^ 32 → layout_ok ms → Forall (marks_agree ms) tables →
  (∀ v, region_vaddr ms paddr n v → IsCached v ms = negb cached) →
  ∃ ms' tables', mark_loop cached n paddr ms tables = Some (ms', tables') ∧ Forall (marks_agree ms') tables' ∧
    (∀ v, region_vaddr ms paddr n v → IsCached v ms' = cached) ∧
    (∀ w, 0 <= w → (∀ v, region_vaddr ms paddr n v → v / CITRA_PAGE_SIZE ≠ w / CITRA_PAGE_SIZE) →
          IsCached w ms' = IsCached w ms).
Proof.
  induction n as [|n IH]; intros paddr ms tables H0 Hmax Hl Hag Hc.
  { exists ms, tables. split_and!; try done. by intros v (k & ? & _); lia. }
  assert (0 < CITRA_PAGE_SIZE) as HP by done. cbn [mark_loop].
  set (vs := PhysicalToVirtualAddressForRasterizer paddr ms).
  assert (∀ v, v ∈ vs → region_vaddr ms paddr (S n) v) as Hfirst.
  { intros v Hv. exists 0%nat. split; [lia|]. by rewrite Z.mul_0_l, Z.add_0_r. }
  destruct (mark_vaddrs_ok ms tables cached vs) as (ms1 & tables1 & E1 & Hag1 & Hrv & Hpl & Hw1); try done.
  { apply Forall_forall. intros v Hv. by apply (p2v_area ms paddr). }
  { by apply p2v_nodup. }
  { apply Forall_forall. intros v Hv. by apply Hc, Hfirst. }
  rewrite E1. cbn [mbind option_bind]. rewrite u32_id by nia.
  pose proof (mark_vaddrs_layout _ _ _ _ _ _ E1 Hl) as Hl1.
  assert (∀ v, region_vaddr ms1 (paddr + CITRA_PAGE_SIZE) n v ↔ region_vaddr ms (paddr + CITRA_PAGE_SIZE) n v) as Hreg.
  { intros v. unfold region_vaddr. setoid_rewrite (p2v_plugin ms ms1); done. }
  assert (∀ v, region_vaddr ms (paddr + CITRA_PAGE_SIZE) n v → region_vaddr ms paddr (S n) v ∧ 0 <= v ∧
               (v / CITRA_PAGE_SIZE ∉ ((λ v, v / CITRA_PAGE_SIZE) <$> vs))) as Hnext.
  { intros v (k & Hk & Hv). split; [exists (S k); split; [lia|]; by replace (paddr + Z.of_nat (S k) * CITRA_PAGE_SIZE)
      with (paddr + CITRA_PAGE_SIZE + Z.of_nat k * CITRA_PAGE_SIZE) by lia|].
    split; [destruct (p2v_area ms (paddr + CITRA_PAGE_SIZE + Z.of_nat k * CITRA_PAGE_SIZE) v Hl ltac:(lia) Hv) as [[? _] _]; done|].
    intros (w & Heq & Hw)%list_elem_of_fmap_1.
    assert (0 <= paddr + CITRA_PAGE_SIZE + Z.of_nat k * CITRA_PAGE_SIZE) as Hpos by lia.
    destruct (p2v_same_page ms _ paddr v w Hl Hpos H0 Hv Hw Heq) as [_ Habs].
    rewrite Z.abs_lt in Habs. nia. }
  destruct (IH (paddr + CITRA_PAGE_SIZE) ms1 tables1) as (ms' & tables' & -> & Hag' & Hin & Hout); try done; try lia.
  { intros v Hv%Hreg. destruct (Hnext v Hv) as (Hr & Hv0 & Hnin). rewrite Hw1, decide_False by done. by apply Hc. }
  exists ms', tables'. split_and!; try done.
  - intros v (k & Hk & Hv). destruct k as [|k].
    + rewrite Z.mul_0_l, Z.add_0_r in Hv. fold vs in Hv.
      destruct (p2v_area ms paddr v Hl H0 Hv) as [[Hv0 _] _].
      rewrite Hout; [|done|].
      * rewrite Hw1, decide_True; [done| |done]. by apply (list_elem_of_fmap_2 (λ v, v / CITRA_PAGE_SIZE)).
      * intros u Hu%Hreg Heq. destruct (Hnext u Hu) as (_ & _ & Hnin). apply Hnin. rewrite Heq.
        by apply (list_elem_of_fmap_2 (λ v, v / CITRA_PAGE_SIZE)).
    + apply Hin, Hreg. exists k. split; [lia|]. by replace (paddr + CITRA_PAGE_SIZE + Z.of_nat k * CITRA_PAGE_SIZE)
        with (paddr + Z.of_nat (S k) * CITRA_PAGE_SIZE) by lia.
  - intros w Hw0 Hw. rewrite Hout; [|done|].
    + rewrite Hw1, decide_False; [done| |done]. intros (v & Heq & Hv)%list_elem_of_fmap_1.
      by apply (Hw v); [apply Hfirst|].
    + intros u Hu%Hreg. apply Hw. by apply Hnext.
Qed.

(** Marking a region of physical memory as cached, or uncaching it.  If the page tables agree with
    the marks and no page of the region has the mark already, the call reaches none of its
    [UNREACHABLE] cases, whatever the process has mapped there; afterwards every page of the region
    has the mark, no other mark has changed, and the page tables agree with the marks again. *)
Theorem mark_region_keeps_agreement ms tables start size cached :
  0 < start → 0 < size → start + size + CITRA_PAGE_SIZE < 2 ^ 32 → layout_ok ms → Forall (marks_agree ms) tables →
  let n := Z.to_nat ((start + size - 1) / CITRA_PAGE_SIZE - start / CITRA_PAGE_SIZE + 1) in
  (∀ v, region_vaddr ms start n v → IsCached v ms = negb cached) →
  ∃ ms' tables', RasterizerMarkRegionCached start size cached ms tables = Some (ms', tables') ∧
    Forall (marks_agree ms') tables' ∧
    (∀ v, region_vaddr ms start n v → IsCached v ms' = cached) ∧
    (∀ w, 0 <= w → (∀ v, region_vaddr ms start n v → v / CITRA_PAGE_SIZE ≠ w / CITRA_PAGE_SIZE) →
          IsCached w ms' = IsCached w ms).
Proof.
  intros H0 Hs Hmax Hl Hag n Hc. unfold RasterizerMarkRegionCached. rewrite (proj2 (Z.eqb_neq start 0)) by lia.
  assert (CITRA_PAGE_SIZE = 4096) as HP by done.
  rewrite (u32_id (start + size - 1)) by lia. rewrite !Z.shiftr_div_pow2 by done.
  change (2 ^ CITRA_PAGE_BITS) with CITRA_PAGE_SIZE.
  destruct (addr_split start ltac:(lia)) as (_ & _ & E1 & M1).
  destruct (addr_split (start + size - 1) ltac:(lia)) as (_ & _ & E2 & M2).
  assert (0 <= (start + size - 1) / CITRA_PAGE_SIZE - start / CITRA_PAGE_SIZE <= size) by nia.
  rewrite u32_id by lia. apply mark_loop_ok; try done; [lia|]. unfold n. nia.
Qed.

End Marks.

(** ** Concrete memories *)

Module Examples.

Definition fcram : BackingMem := mkBacking 0x100000000 FCRAM_N3DS_SIZE.
Definition vram : BackingMem := mkBacking 0x200000000 VRAM_SIZE.

(** The first bytes of the second, third and seventh page of FCRAM are set. *)
Definition demo_memory : MemorySystem :=
  mkMemory fcram vram (mkBacking 0x300000000 N3DS_EXTRA_RAM_SIZE) (mkBacking 0x400000000 DSP_RAM_SIZE) []
    (list_to_map [(0x100001FFE, 0x11); (0x100001FFF, 0x22); (0x100002000, 0x33); (0x100002001, 0x44);
                  (0x100007000, 0x55); (0x100007001, 0x66)])
    0 ∅ (mkRegionInfo None 0 0) [].

(** Two pages of the heap that are not neighbours in FCRAM, and a page of the linear heap that the
    rasterizer caches. *)
Definition demo_pages : Pages :=
  mkPages (list_to_map [(0x8000, (PageMemory, mkRef (Some fcram) 0x1000));
                        (0x8001, (PageMemory, mkRef (Some fcram) 0x7000));
                        (0x14003, (PageRasterizerCachedMemory, null_ref))]) ∅.

(** A renderer that never writes back, as the software rasterizer. *)
Definition no_cache (mode : FlushMode) (p n : Z) (h : gmap Z Z) : gmap Z Z := h.
Definition no_register (a : Z) : Z := 0.

Lemma demo_ref off : 0 <= off → off + CITRA_PAGE_SIZE <= FCRAM_N3DS_SIZE → page_ref_ok demo_memory (mkRef (Some fcram) off).
Proof. intros. exists fcram. split_and!; try done. apply elem_of_cons. by left. Qed.

Lemma demo_backing :
  page_backing demo_pages demo_memory 0x8000 (Some (mkRef (Some fcram) 0x1000)) ∧
  page_backing demo_pages demo_memory 0x8001 (Some (mkRef (Some fcram) 0x7000)) ∧
  page_backing demo_pages demo_memory 0x8002 None ∧
  page_backing demo_pages demo_memory 0x14003 (Some (mkRef (Some fcram) 0x3000)).
Proof.
  split; [|split; [|split]].
  - split; [done|by apply demo_ref].
  - split; [done|by apply demo_ref].
  - done.
  - split; [done|]. split; [done|]. by apply demo_ref.
Qed.

Lemma demo_range : range_ok demo_pages demo_memory 0x8000FFE 0x8002004.
Proof.
  destruct demo_backing as (H1 & H2 & H3 & _). intros a Ha. destruct (addr_split a ltac:(lia)) as (_ & _ & Ea & Hm).
  assert (a / CITRA_PAGE_SIZE = 0x8000 ∨ a / CITRA_PAGE_SIZE = 0x8001 ∨ a / CITRA_PAGE_SIZE = 0x8002)
    as [-> | [-> | ->]] by (unfold CITRA_PAGE_SIZE in *; lia); by eexists.
Qed.




Lemma value_access_witness :
  ∃ ms', Write no_cache 4 demo_pages 0x14003010 0x12345678 demo_memory = Some ms' ∧
    Read no_cache no_register 4 demo_pages 0x14003010 ms' = Some (ms', Some 0x12345678).
Proof.
  apply (value_access_in_page no_cache no_register ltac:(done) demo_pages demo_memory 4 0x14003010 0x12345678
           (mkRef (Some fcram) 0x3000)); try done. apply demo_backing.
Defined.

Lemma register_watchpoint_witness :
  is_Some (RegisterWatchpoint 3 0x8000FFE 4 demo_memory demo_pages) ∧
  RegisterWatchpoint 1000 0x8001FFE 4 demo_memory demo_pages = None.
Proof.
  split.
  - apply (register_watchpoint_termination demo_memory demo_pages 0x8000FFE 4); [lia|lia|done|]. intros a Ha. right. left.
    destruct (addr_split a ltac:(lia)) as (_ & _ & Ea & Hm).
    assert (a / CITRA_PAGE_SIZE = 0x8000 ∨ a / CITRA_PAGE_SIZE = 0x8001) as [-> | ->]
      by (unfold CITRA_PAGE_SIZE in *; lia); done.
  - apply (register_watchpoint_termination demo_memory demo_pages 0x8001FFE 4); [lia|lia|done|]. exists 0x8002000.
    split; [lia|]. intros [[? ?]|[?|[? _]]]; done.
Defined.

Lemma phys_region_cache_witness :
  (lookups [0x18600000; 0x1F000000; 0x20000004; 0x18600000] demo_memory).2 =
    (λ a, find_area a demo_memory) <$> [0x18600000; 0x1F000000; 0x20000004; 0x18600000].
Proof. apply (phys_region_cache_transparent demo_memory). by left. Defined.

(** FCRAM page 3 becomes cached for both address spaces. *)
Lemma mark_region_witness :
  let uncached := mkPages (list_to_map [(0x14003, (PageMemory, mkRef (Some fcram) 0x3000))]) ∅ in
  ∃ ms' tables', RasterizerMarkRegionCached 0x20003000 0x800 true demo_memory [uncached; uncached] = Some (ms', tables').
Proof.
  intros uncached.
  destruct (mark_region_keeps_agreement demo_memory [uncached; uncached] 0x20003000 0x800 true)
    as (ms' & tables' & E & _); [lia|lia|done|split_and!; [done|done|by left]| | |by eauto].
  - assert (marks_agree demo_memory uncached) as Hag; [|by repeat constructor].
    intros page Hp Hn. unfold IsCached. destruct (At _) as [m|]; [rewrite bool_decide_false by set_solver|];
      (destruct (decide (page = 0x14003)) as [->|Hne]; [done|exfalso; apply Hn]; unfold page_entry, uncached; simpl;
       by rewrite lookup_insert_ne by done).
  - intros v _. unfold IsCached. destruct (At v); [|done]. by rewrite bool_decide_false by set_solver.
Defined.

End Examples.

(** A value that leaves its page does not go on in the next page of the address space.  Two heap
    pages that are neighbours for the program and lie apart in FCRAM: the two low bytes of the
    word at the page boundary come from the first page, the high ones from the FCRAM page behind
    it, while [ReadBlock] takes them from the second page.  And a word that begins at the last two
    bytes of the uncached FCRAM window is read past the end of the host block. *)
Theorem value_access_leaves_page :
  Read Examples.no_cache Examples.no_register 4 Examples.demo_pages 0x8000FFE Examples.demo_memory =
    Some (Examples.demo_memory, Some 0x44332211) ∧
  ReadBlock Examples.no_cache Examples.demo_pages 0x8000FFE 4 Examples.demo_memory =
    Some (Examples.demo_memory, [0x11; 0x22; 0x55; 0x66]) ∧
  Read Examples.no_cache Examples.no_register 4 Examples.demo_pages 0xAFFFFFFC Examples.demo_memory =
    Some (Examples.demo_memory, Some 0) ∧
  Read Examples.no_cache Examples.no_register 4 Examples.demo_pages 0xAFFFFFFE Examples.demo_memory = None.
Proof. split_and!; vm_compute; reflexivity. Qed.
