(* ===== verification/MemoryCopy.v ===== *)
(** * Copies between address spaces ([MemorySystem::CopyBlock] of [src/src/core/memory.cpp])

    [CopyBlock] walks over the pages of the source and writes each piece through the pages of the
    destination, straight from host memory.  The theorem: as long as the two ranges do not share a
    host byte, that is [ReadBlock] followed by [WriteBlock]. *)

From S2P Require Import Prelude BitField MemoryRegion PageTable Memory.

Section Copy.
Context (rasterizer : FlushMode → Z → Z → gmap Z Z → gmap Z Z).
Context (Hflush : ∀ h, no_writeback rasterizer Flush h) (Hinvalidate : ∀ h, no_writeback rasterizer Invalidate h).
Implicit Types (pages : Pages) (ms : MemorySystem).

(** The host addresses behind a range. *)
Definition behind pages ms (lo hi x : Z) : Prop :=
  ∃ a ref, lo <= a < hi ∧ page_backing pages ms (a / CITRA_PAGE_SIZE) (Some ref) ∧ x = GetPtr ref + a `mod` CITRA_PAGE_SIZE.

Lemma behind_mono pages ms lo hi lo' hi' x : lo <= lo' → hi' <= hi → behind pages ms lo' hi' x → behind pages ms lo hi x.
Proof. intros Hlo Hhi (a & ref & Ha & Hp & ->). exists a, ref. split_and!; (done || lia). Qed.

Lemma behind_chunk pages ms lo hi a n ref x :
  0 <= a → lo <= a → a + n <= hi → a `mod` CITRA_PAGE_SIZE + n <= CITRA_PAGE_SIZE →
  page_backing pages ms (a / CITRA_PAGE_SIZE) (Some ref) →
  GetPtr ref + a `mod` CITRA_PAGE_SIZE <= x < GetPtr ref + a `mod` CITRA_PAGE_SIZE + n → behind pages ms lo hi x.
Proof.
  intros H0 Hlo Hhi Hpg Hr Hx. destruct (chunk_split a n (x - (GetPtr ref + a `mod` CITRA_PAGE_SIZE))) as [Ed Em]; [lia..|].
  eexists (a + _), ref. rewrite Ed, Em. split_and!; (done || lia).
Qed.

(** Host memory holds bytes. *)
Definition host_wf ms : Prop := ∀ x, 0 <= host_byte (host ms) x < 2 ^ 8.

Lemma host_bytes_wf ms p n : host_wf ms → Forall (λ x, 0 <= x < 2 ^ 8) (host_bytes (host ms) p n).
Proof. intros Hw. apply Forall_lookup. by intros i x [_ ->]%host_bytes_lookup. Qed.

Lemma host_bytes_ext h h' p n :
  (∀ x, p <= x < p + Z.of_nat n → host_byte h x = host_byte h' x) → host_bytes h p n = host_bytes h' p n.
Proof.
  intros E. apply list_eq_same_length with (n := n); [by rewrite host_bytes_length..|].
  intros i x y Hi [_ ->]%host_bytes_lookup [_ ->]%host_bytes_lookup. apply E. lia.
Qed.

Lemma host_bytes_slice h p n m k : (k + m <= n)%nat → take m (drop k (host_bytes h p n)) = host_bytes h (p + Z.of_nat k) m.
Proof.
  intros Hk. apply list_eq. intros i. apply option_eq. intros x.
  rewrite lookup_take_Some, lookup_drop, !host_bytes_lookup. split.
  - intros [[_ ->] Hi]. split; [done|]. f_equal. lia.
  - intros [Hi ->]. split; [split; [lia|]|done]. f_equal. lia.
Qed.

(** Writing byte by byte changes nothing but the bytes behind the range. *)
Lemma write_each_frame pages a l ms ms' :
  0 <= a → a + Z.of_nat (length l) <= 2 ^ 31 → Forall (λ x, 0 <= x < 2 ^ 8) l →
  range_ok pages ms a (a + Z.of_nat (length l)) → write_each rasterizer pages a l ms = Some ms' →
  ∃ h, ms' = set_host ms h ∧ (host_wf ms → host_wf ms') ∧
    ∀ x, ~ behind pages ms a (a + Z.of_nat (length l)) x → host_byte h x = host_byte (host ms) x.
Proof.
  intros H0 H31 Hb. revert a ms H0 H31. induction Hb as [|y l Hy Hl IH]; intros a ms H0 H31 Hok E.
  - injection E as <-. exists (host ms). by rewrite set_host_id.
  - cbn [write_each length] in *. destruct (Hok a ltac:(lia)) as (r & Hr).
    rewrite (Write8_ok rasterizer Hinvalidate pages ms a y r) in E by (done || lia). cbn [mbind option_bind] in E.
    destruct (put_set_host ms r (a `mod` CITRA_PAGE_SIZE) [y]) as [h1 E1]. rewrite E1 in E.
    destruct (IH (a + 1) (set_host ms h1)) as (h & -> & Hwf & Hh); try lia; try done.
    { intros b Hb. apply Hok. lia. }
    exists h. split; [done|]. split.
    { intros Hms. apply Hwf. intros x. rewrite <- E1. destruct r; simpl; [|apply Hms]. unfold host_byte.
      destruct (decide (GetPtr m + a `mod` CITRA_PAGE_SIZE = x)) as [<-|Hne]; [by rewrite lookup_insert_eq|].
      rewrite lookup_insert_ne by done. apply Hms. }
    intros x Hx. rewrite Hh.
    + destruct r as [ref|]; simpl in E1; apply (f_equal host) in E1; simpl in E1; rewrite <- E1; [|done].
      simpl. unfold host_byte. rewrite lookup_insert_ne; [done|]. intros <-. apply Hx. exists a, ref. split_and!; (done || lia).
    + intros (b & ref & Hb & Hp & ->). apply Hx. exists b, ref. split_and!; (done || lia).
Qed.

Lemma host_valid_sub ms p n k m : 0 <= k → 0 <= m → k + m <= n → host_valid ms p n = true → host_valid ms (p + k) m = true.
Proof.
  intros Hk Hm Hkm. unfold host_valid. rewrite !existsb_exists. intros (b & Hb & Hin). exists b. split; [done|].
  destruct_bools. apply andb_true_iff. rewrite !Z.leb_le. lia.
Qed.

(** One piece of a page, from host bytes that are still what they were. *)
Lemma write_page_from_host pages ms h lo hi q a m r :
  page_backing pages ms (a / CITRA_PAGE_SIZE) r → 0 <= a → a < 2 ^ 32 → lo <= a → a + m <= hi → 0 < m →
  a `mod` CITRA_PAGE_SIZE + m <= CITRA_PAGE_SIZE → host_valid ms q m = true →
  (∀ x, q <= x < q + m → ~ behind pages ms lo hi x ∧ host_byte h x = host_byte (host ms) x) →
  ∃ h', write_page rasterizer false pages (a / CITRA_PAGE_SIZE) (a `mod` CITRA_PAGE_SIZE) m (set_host ms h, FromHost q) =
          Some (set_host ms h', FromHost (q + m)) ∧
    put (set_host ms h) r (a `mod` CITRA_PAGE_SIZE) (host_bytes (host ms) q (Z.to_nat m)) = set_host ms h'.
Proof.
  intros Hr H0 H32 Hlo Hhi Hm Hpg Hv Hsrc. set (chunk := host_bytes _ _ _).
  assert (length chunk = Z.to_nat m) as Hcl by apply host_bytes_length.
  destruct (store_chunk rasterizer (λ _, 0) Hinvalidate pages (set_host ms h) a m r chunk) as [Ep Hst]; try done; try lia.
  unfold write_page. rewrite Ep. cbn [mbind option_bind].
  destruct r as [ref|]; simpl fmap; cbv iota beta; [|by exists h]. cbn [source_take].
  set (d := GetPtr ref + a `mod` CITRA_PAGE_SIZE) in *.
  assert ((q + m <=? d) || (d + m <=? q) = true) as ->.
  { apply orb_true_iff. rewrite !Z.leb_le. destruct (decide (q + m <= d)); [by left|]. destruct (decide (d + m <= q)); [by right|]. exfalso.
    set (x := Z.max d q). destruct (Hsrc x ltac:(lia)) as [[] _].
    apply (behind_chunk pages ms lo hi a m ref); (done || (unfold d in *; lia)). }
  cbn [assert_ mbind option_bind]. unfold load_bytes. rewrite host_valid_set_host, Hv. cbn [assert_ mbind option_bind host set_host].
  assert (host_bytes h q (Z.to_nat m) = chunk) as -> by (apply host_bytes_ext; intros x Hx; apply Hsrc; lia).
  rewrite Hst. destruct (put_set_host (set_host ms h) (Some ref) (a `mod` CITRA_PAGE_SIZE) chunk) as [h' ->]. by exists h'.
Qed.

(** [WriteBlock] from host memory that the writes do not touch. *)
Lemma write_from_host pages ms dest p (n : nat) :
  0 <= dest → dest + Z.of_nat n <= 2 ^ 31 → range_ok pages ms dest (dest + Z.of_nat n) → host_wf ms →
  host_valid ms p (Z.of_nat n) = true → (∀ x, p <= x < p + Z.of_nat n → ~ behind pages ms dest (dest + Z.of_nat n) x) →
  ∃ h, WriteBlock rasterizer pages dest (FromHost p) (Z.of_nat n) ms = Some (set_host ms h) ∧
    write_each rasterizer pages dest (host_bytes (host ms) p n) ms = Some (set_host ms h).
Proof.
  intros H0 H31 Hok Hwf Hv Hsep. set (data := host_bytes (host ms) p n).
  assert (length data = n) as Hlen by apply host_bytes_length.
  assert (Forall (λ x, 0 <= x < 2 ^ 8) data) as Hdata by (by apply host_bytes_wf).
  destruct (for_pages_inv (write_page rasterizer false pages)
    (λ a s, ∃ h, s = (set_host ms h, FromHost (p + (a - dest))) ∧
       write_each rasterizer pages dest (take (Z.to_nat (a - dest)) data) ms = Some (set_host ms h))
    dest (Z.of_nat n) (ms, FromHost p)) as (s' & E & h & -> & Hw); try lia.
  - exists (host ms). rewrite set_host_id, Z.sub_diag, Z.add_0_r. done.
  - intros a m s (h & -> & Hw) Ha Hm Hae Hpg. destruct (Hok a ltac:(lia)) as (r & Hr). set (k := Z.to_nat (a - dest)) in *.
    destruct (write_each_frame pages dest (take k data) ms _ H0 ltac:(rewrite length_take; lia)
                ltac:(by apply Forall_take) ltac:(intros b Hb; rewrite length_take in Hb; apply Hok; lia) Hw) as (h0 & Eh0 & Hwf1 & Hframe).
    apply (f_equal host) in Eh0. simpl in Eh0. subst h0.
    destruct (write_page_from_host pages ms h dest (dest + Z.of_nat n) (p + (a - dest)) a m r) as (h' & -> & Eput); try done; try lia.
    { apply (host_valid_sub ms p (Z.of_nat n)); (done || lia). }
    { intros x Hx. split; [apply Hsep; lia|]. apply Hframe. rewrite length_take. intros (b & rb & Hb & Hpb & ->).
      eapply (Hsep _ ltac:(instantiate (1 := GetPtr rb + b `mod` CITRA_PAGE_SIZE); lia)). exists b, rb. split_and!; (done || lia). }
    eexists. split; [done|]. exists h'. split; [by replace (p + (a - dest) + m) with (p + (a + m - dest)) by lia|].
    replace (Z.to_nat (a + m - dest)) with (k + Z.to_nat m)%nat by lia. rewrite <- take_take_drop.
    rewrite (write_each_app _ _ _ _ _ _ _ Hw), length_take, Nat.min_l by lia. replace (dest + Z.of_nat k) with a by lia.
    unfold data. rewrite host_bytes_slice by lia. replace (p + Z.of_nat k) with (p + (a - dest)) by lia. rewrite <- Eput.
    apply write_each_page; try done; try lia; rewrite ?host_bytes_length; try lia. by apply host_bytes_wf.
  - exists h. unfold WriteBlock, WriteBlockImpl. rewrite E. split; [done|].
    replace (Z.to_nat (dest + Z.of_nat n - dest)) with (length data) in Hw by lia. by rewrite firstn_all in Hw.
Qed.

(** One piece of the source, mapped or not. *)
Lemma copy_piece src_pages dest_pages ms h a n d r :
  page_backing src_pages ms (a / CITRA_PAGE_SIZE) r → 0 <= a → a < 2 ^ 32 → 0 < n →
  a `mod` CITRA_PAGE_SIZE + n <= CITRA_PAGE_SIZE → 0 <= d → d + n <= 2 ^ 31 → range_ok dest_pages ms d (d + n) →
  (∀ x, 0 <= host_byte h x < 2 ^ 8) →
  (∀ ref x, r = Some ref → GetPtr ref + a `mod` CITRA_PAGE_SIZE <= x < GetPtr ref + a `mod` CITRA_PAGE_SIZE + n →
     ~ behind dest_pages ms d (d + n) x) →
  ∃ h', copy_page rasterizer dest_pages src_pages (a / CITRA_PAGE_SIZE) (a `mod` CITRA_PAGE_SIZE) n (set_host ms h, d) =
          Some (set_host ms h', d + n) ∧
    write_each rasterizer dest_pages d
      (match r with
       | Some ref => host_bytes h (GetPtr ref + a `mod` CITRA_PAGE_SIZE) (Z.to_nat n)
       | None => replicate (Z.to_nat n) 0
       end) (set_host ms h) = Some (set_host ms h').
Proof.
  intros Hr H0 H32 Hn Hpg Hd Hd31 Hok Hwf Hsep. destruct (addr_split a H0) as (_ & _ & _ & Hmod).
  destruct (page_index_bound a ltac:(lia)) as [Hp Hp0]. unfold copy_page.
  destruct (page_pointer_ok rasterizer (λ _, 0) src_pages (set_host ms h) (Some Flush) _ (a `mod` CITRA_PAGE_SIZE) n r Hr Hp Hp0) as [-> Hv]; try lia.
  { by intros m [= <-]. }
  cbn [mbind option_bind]. replace (u32 (d + n)) with (d + n) by (rewrite u32_id; lia).
  assert (n = Z.of_nat (Z.to_nat n)) as En by lia.
  destruct r as [ref|]; simpl fmap; cbv iota beta.
  - destruct (write_from_host dest_pages (set_host ms h) d (GetPtr ref + a `mod` CITRA_PAGE_SIZE) (Z.to_nat n))
      as (h' & Ew & He); rewrite <- ?En; try done; try lia.
    { by apply Hv. } { intros x Hx. by apply (Hsep ref). }
    rewrite <- En in Ew. rewrite Ew. cbn [mbind option_bind]. by exists h'.
  - destruct (zero_block_ok rasterizer (λ _, 0) Hinvalidate dest_pages (set_host ms h) d (Z.to_nat n)) as (h' & Ew & He);
      rewrite <- ?En; try done. rewrite <- En in Ew. rewrite Ew. cbn [mbind option_bind]. by exists h'.
Qed.

(** What [ReadBlock] delivers for a piece of a page. *)
Lemma read_piece pages ms src (size : nat) data a n r :
  0 <= src → src + Z.of_nat size <= 2 ^ 31 → length data = size →
  (∀ i x, data !! i = Some x → Read8 rasterizer (λ _, 0) pages (src + Z.of_nat i) ms = Some (ms, x)) →
  src <= a → 0 < n → a + n <= src + Z.of_nat size → page_backing pages ms (a / CITRA_PAGE_SIZE) r →
  a `mod` CITRA_PAGE_SIZE + n <= CITRA_PAGE_SIZE →
  take (Z.to_nat n) (drop (Z.to_nat (a - src)) data) =
    match r with
    | Some ref => host_bytes (host ms) (GetPtr ref + a `mod` CITRA_PAGE_SIZE) (Z.to_nat n)
    | None => replicate (Z.to_nat n) 0
    end.
Proof.
  intros H0 H31 Hlen Hd Ha Hn Hae Hr Hpg. apply list_eq_same_length with (n := Z.to_nat n);
    [destruct r; [by rewrite host_bytes_length|by rewrite length_replicate]|rewrite length_take, length_drop; lia|].
  intros i x y Hi Hx Hy. rewrite lookup_take_Some, lookup_drop in Hx. destruct Hx as [Hx _]. apply Hd in Hx.
  destruct (chunk_split a n (Z.of_nat i)) as [Ed Em]; [lia..|].
  replace (src + Z.of_nat (Z.to_nat (a - src) + i)) with (a + Z.of_nat i) in Hx by lia.
  rewrite (Read8_ok rasterizer (λ _, 0) pages ms _ r), Em in Hx; [|lia|by rewrite Ed|done].
  apply Some_inj in Hx. injection Hx as <-. destruct r as [ref|]; simpl.
  - apply host_bytes_lookup in Hy as [_ ->]. f_equal. lia.
  - by apply lookup_replicate in Hy as [-> _].
Qed.

(** What is read are bytes. *)
Lemma read_bytes_wf pages ms src size data :
  0 <= src → src + size <= 2 ^ 31 → range_ok pages ms src (src + size) → host_wf ms → length data = Z.to_nat size →
  (∀ i x, data !! i = Some x → Read8 rasterizer (λ _, 0) pages (src + Z.of_nat i) ms = Some (ms, x)) →
  Forall (λ x, 0 <= x < 2 ^ 8) data.
Proof.
  intros H0 H31 Hok Hwf Hlen Hd. apply Forall_lookup. intros i x Hx. pose proof (lookup_lt_Some _ _ _ Hx). apply Hd in Hx.
  destruct (Hok (src + Z.of_nat i) ltac:(lia)) as (r & Hr). rewrite (Read8_ok _ _ _ _ _ r) in Hx by (done || lia).
  injection Hx as <-. destruct r; simpl; [apply Hwf|lia].
Qed.

(** [CopyBlock] is [ReadBlock] followed by [WriteBlock], when no host byte lies behind both
    ranges: it returns, and leaves the memory that writing what was read leaves.  Unmapped pages of
    the source are read as zeros. *)
Lemma copy_block_ok src_pages dest_pages ms dest src (size : nat) :
  0 <= src → src + Z.of_nat size <= 2 ^ 31 → 0 <= dest → dest + Z.of_nat size <= 2 ^ 31 → host_wf ms →
  range_ok src_pages ms src (src + Z.of_nat size) → range_ok dest_pages ms dest (dest + Z.of_nat size) →
  (∀ x, behind src_pages ms src (src + Z.of_nat size) x → ~ behind dest_pages ms dest (dest + Z.of_nat size) x) →
  ∃ data h, ReadBlock rasterizer src_pages src (Z.of_nat size) ms = Some (ms, data) ∧
    length data = size ∧ Forall (λ x, 0 <= x < 2 ^ 8) data ∧
    WriteBlock rasterizer dest_pages dest (FromBuffer data) (Z.of_nat size) ms = Some (set_host ms h) ∧
    write_each rasterizer dest_pages dest data ms = Some (set_host ms h) ∧
    CopyBlock rasterizer dest_pages src_pages dest src (Z.of_nat size) ms = Some (set_host ms h).
Proof.
  intros H0 H31 Hd0 Hd31 Hwf Hsok Hdok Hsep.
  destruct (read_block_ok rasterizer (λ _, 0) src_pages ms src (Z.of_nat size)) as (data & Er & Hlen & Hd); try done; try lia.
  rewrite Nat2Z.id in Hlen. pose proof (read_piece src_pages ms src size data) as Hpiece.
  assert (Forall (λ x, 0 <= x < 2 ^ 8) data) as Hbytes by (eapply (read_bytes_wf src_pages ms src (Z.of_nat size)); (done || lia)).
  destruct (write_block_ok rasterizer (λ _, 0) Hinvalidate dest_pages ms dest data) as (h & Ew & He); rewrite ?Hlen; try done.
  exists data, h. rewrite Hlen in Ew. do 5 (split; [done|]). clear Ew.
  destruct (for_pages_inv (copy_page rasterizer dest_pages src_pages)
    (λ a s, ∃ h, s = (set_host ms h, dest + (a - src)) ∧
       write_each rasterizer dest_pages dest (take (Z.to_nat (a - src)) data) ms = Some (set_host ms h))
    src (Z.of_nat size) (ms, dest)) as (s' & E & h1 & -> & Hw); try lia.
  - exists (host ms). rewrite set_host_id, Z.sub_diag, Z.add_0_r. done.
  - intros a n s (h1 & -> & Hw) Ha Hn Hae Hpg. destruct (Hsok a ltac:(lia)) as (r & Hr). set (k := Z.to_nat (a - src)) in *.
    specialize (Hpiece a n r H0 H31 Hlen Hd Ha Hn Hae Hr Hpg). fold k in Hpiece.
    destruct (write_each_frame dest_pages dest (take k data) ms _ Hd0 ltac:(rewrite length_take; lia)
                ltac:(by apply Forall_take) ltac:(intros b Hb; rewrite length_take in Hb; apply Hdok; lia) Hw) as (h0 & Eh0 & Hwf1 & Hframe).
    apply (f_equal host) in Eh0. simpl in Eh0. subst h0. rewrite length_take, Nat.min_l in Hframe by lia.
    destruct (copy_piece src_pages dest_pages ms h1 a n (dest + (a - src)) r) as (h2 & Ec & Hw2); try done; try lia.
    { intros b Hb. apply Hdok. lia. } { by apply Hwf1. }
    { intros ref x -> Hx Hb. apply (Hsep x); [apply (behind_chunk src_pages ms _ _ a n ref); (done || lia)|].
      eapply behind_mono; [| |exact Hb]; lia. }
    rewrite Ec. eexists. split; [done|]. exists h2. split; [by replace (dest + (a - src) + n) with (dest + (a + n - src)) by lia|].
    replace (Z.to_nat (a + n - src)) with (k + Z.to_nat n)%nat by lia. rewrite <- take_take_drop.
    rewrite (write_each_app _ _ _ _ _ _ _ Hw), length_take, Nat.min_l by lia. replace (dest + Z.of_nat k) with (dest + (a - src)) by lia.
    rewrite <- Hw2, Hpiece. f_equal. destruct r as [ref|]; [|done]. apply host_bytes_ext. intros x Hx. symmetry. apply Hframe.
    intros Hb. apply (Hsep x); [apply (behind_chunk src_pages ms _ _ a n ref); (done || lia)|].
    eapply behind_mono; [| |exact Hb]; lia.
  - unfold CopyBlock. rewrite E. cbn [mbind option_bind].
    replace (Z.to_nat (src + Z.of_nat size - src)) with (length data) in Hw by lia. rewrite firstn_all, He in Hw. congruence.
Qed.


End Copy.

Module Examples.
Import Memory.Examples.

Lemma demo_host_wf : host_wf demo_memory.
Proof.
  intros x. unfold host_byte, demo_memory, host. destruct (_ !! x) as [y|] eqn:E; [|simpl; lia].
  apply elem_of_list_to_map_2 in E. simpl. set_unfold. naive_solver lia.
Qed.


End Examples.
