(* ===== verification/VMManager.v ===== *)
(** * The address space of a process ([src/src/core/hle/kernel/vm_manager.h], [vm_manager.cpp])

    [VMManager] keeps the virtual memory areas of a process in [vma_map], a [std::map] from base
    addresses, and a page table that follows it.  The map is modelled by the list of its areas
    in key order; an iterator is an index of that list and [end()] is its length.  Reading
    through [end()] or before [begin()] is undefined, so it is [None]; so is a failed [ASSERT].
    Error codes are values.

    The abstract view of an address space is [attr_at]: what every address is mapped to.  The
    theorems say that each operation changes the view exactly on its range, and that it keeps
    the invariant [vm_inv]: the areas tile the address space, the page table agrees with them
    and no two free areas are adjacent. *)

From S2P Require Import Prelude BitField PageTable.

(** ** Data *)

Inductive VMAType : Type := Free | BackingMemory.

#[export] Instance VMAType_eq_dec : EqDecision VMAType.
Proof. solve_decision. Defined.

(** [VMAPermission] is a bit mask. *)
Definition PermNone : Z := 0.
Definition PermRead : Z := 1.
Definition PermWrite : Z := 2.
Definition PermExecute : Z := 4.
Definition PermReadWrite : Z := Z.lor PermRead PermWrite.

Inductive MemoryState : Type :=
| StateFree | StateReserved | StateIO | StateStatic | StateCode | StatePrivate | StateShared
| StateContinuous | StateAliased | StateAlias | StateAliasCode | StateLocked.

#[export] Instance MemoryState_eq_dec : EqDecision MemoryState.
Proof. solve_decision. Defined.

Record VirtualMemoryArea := mkVMA {
  vma_base : Z;
  vma_size : Z;
  vma_type : VMAType;
  permissions : Z;
  meminfo_state : MemoryState;
  backing_memory : MemoryRef }.

Definition vma_end (v : VirtualMemoryArea) : Z := vma_base v + vma_size v.

Definition set_size (v : VirtualMemoryArea) (n : Z) : VirtualMemoryArea :=
  mkVMA (vma_base v) n (vma_type v) (permissions v) (meminfo_state v) (backing_memory v).

Record VMManager := mkVM {
  vma_map : list VirtualMemoryArea;
  page_table : PageTable;
  is_locked : bool }.

Definition MAX_ADDRESS : Z := 0x40000000.

(** The test of [CanBeMergedWith] after its assertion. *)
Definition mergeable (v next : VirtualMemoryArea) : bool :=
  if negb (permissions v =? permissions next) ||
     negb (bool_decide (meminfo_state v = meminfo_state next)) ||
     negb (bool_decide (vma_type v = vma_type next)) then false
  else if bool_decide (vma_type v = BackingMemory) &&
          negb (GetPtr (backing_memory v) + vma_size v =? GetPtr (backing_memory next)) then false
  else true.

Definition CanBeMergedWith (v next : VirtualMemoryArea) : option bool :=
  ASSERT (u32 (vma_base v + vma_size v) =? vma_base next) ;;
  Some (mergeable v next).

(** [std::map::upper_bound] and [lower_bound]: the first key above, or not below, [target]. *)
Fixpoint upper_bound (target : Z) (l : list VirtualMemoryArea) : nat :=
  match l with
  | [] => 0
  | v :: l => if target <? vma_base v then 0 else S (upper_bound target l)
  end.
Fixpoint lower_bound (target : Z) (l : list VirtualMemoryArea) : nat :=
  match l with
  | [] => 0
  | v :: l => if target <=? vma_base v then 0 else S (lower_bound target l)
  end.

Definition FindVMA (l : list VirtualMemoryArea) (target : Z) : option nat :=
  if MAX_ADDRESS <=? target then Some (length l)
  else match upper_bound target l with
       | O => None
       | S i => Some i
       end.

(** ** Splitting and merging *)

Definition insert_at {A} (i : nat) (x : A) (l : list A) : list A := take i l ++ x :: drop i l.
Definition erase {A} (i : nat) (l : list A) : list A := take i l ++ drop (S i) l.

(** [SplitVMA]: the new key lies between those of the handle and of its successor, where
    [emplace_hint] puts it.  The result is the iterator of the new area. *)
Definition SplitVMA (l : list VirtualMemoryArea) (vma_handle : nat) (offset_in_vma : Z)
  : option (list VirtualMemoryArea * nat) :=
  old_vma ← l !! vma_handle;
  ASSERT (offset_in_vma <? vma_size old_vma) ;;
  ASSERT (0 <? offset_in_vma) ;;
  backing ← (match vma_type old_vma with
             | Free => Some (backing_memory old_vma)
             | BackingMemory => ref_add (backing_memory old_vma) offset_in_vma
             end);
  let new_vma := mkVMA (u32 (vma_base old_vma + offset_in_vma))
                       (u32 (vma_size old_vma - offset_in_vma))
                       (vma_type old_vma) (permissions old_vma) (meminfo_state old_vma) backing in
  let old_vma := set_size old_vma offset_in_vma in
  merges ← CanBeMergedWith old_vma new_vma;
  ASSERT merges ;;
  Some (insert_at (S vma_handle) new_vma (<[vma_handle := old_vma]> l), S vma_handle).

(** The two halves of [MergeAdjacent]. *)
Definition merge_next (l : list VirtualMemoryArea) (iter : nat) : option (list VirtualMemoryArea) :=
  vma ← l !! iter;
  match l !! S iter with
  | None => Some l
  | Some next_vma =>
      merges ← CanBeMergedWith vma next_vma;
      Some (if merges : bool
            then erase (S iter) (<[iter := set_size vma (u32 (vma_size vma + vma_size next_vma))]> l)
            else l)
  end.
Definition merge_prev (l : list VirtualMemoryArea) (iter : nat)
  : option (list VirtualMemoryArea * nat) :=
  match iter with
  | O => Some (l, iter)
  | S prev =>
      vma ← l !! iter;
      prev_vma ← l !! prev;
      merges ← CanBeMergedWith prev_vma vma;
      Some (if merges : bool
            then (erase iter (<[prev := set_size prev_vma (u32 (vma_size prev_vma + vma_size vma))]> l),
                  prev)
            else (l, iter))
  end.
Definition MergeAdjacent (l : list VirtualMemoryArea) (iter : nat)
  : option (list VirtualMemoryArea * nat) :=
  l ← merge_next l iter;
  merge_prev l iter.

(** ** Carving *)

Definition CarveVMA (l : list VirtualMemoryArea) (base size : Z)
  : option (list VirtualMemoryArea * ResultVal nat) :=
  ASSERT (Z.land size CITRA_PAGE_MASK =? 0) ;;
  ASSERT (Z.land base CITRA_PAGE_MASK =? 0) ;;
  vma_handle ← FindVMA l base;
  if (vma_handle =? length l)%nat then Some (l, inl ResultInvalidAddress)
  else
    vma ← l !! vma_handle;
    if negb (bool_decide (vma_type vma = Free)) then Some (l, inl ResultInvalidAddressState)
    else
      let start_in_vma := u32 (base - vma_base vma) in
      let end_in_vma := u32 (start_in_vma + size) in
      if vma_size vma <? end_in_vma then Some (l, inl ResultInvalidAddressState)
      else
        l ← (if negb (end_in_vma =? vma_size vma)
             then r ← SplitVMA l vma_handle end_in_vma; Some (fst r) else Some l);
        if negb (start_in_vma =? 0)
        then r ← SplitVMA l vma_handle start_in_vma; Some (fst r, inr (snd r))
        else Some (l, inr vma_handle).

(** [std::any_of] over the iterator range [i, i_end): running into [end()] is undefined. *)
Fixpoint any_of (p : VirtualMemoryArea → bool) (fuel : nat) (l : list VirtualMemoryArea)
    (i i_end : nat) : option bool :=
  if (i =? i_end)%nat then Some false
  else match fuel with
       | O => None
       | S fuel => v ← l !! i; if p v then Some true else any_of p fuel l (S i) i_end
       end.

Definition CarveVMARange (l : list VirtualMemoryArea) (target size : Z)
  : option (list VirtualMemoryArea * ResultVal nat) :=
  ASSERT (Z.land size CITRA_PAGE_MASK =? 0) ;;
  ASSERT (Z.land target CITRA_PAGE_MASK =? 0) ;;
  let target_end := u32 (target + size) in
  ASSERT (target <=? target_end) ;;
  ASSERT (target_end <=? MAX_ADDRESS) ;;
  ASSERT (0 <? size) ;;
  begin_vma ← FindVMA l target;
  let i_end := lower_bound target_end l in
  any_free ← any_of (λ v, bool_decide (vma_type v = Free)) (S (length l)) l begin_vma i_end;
  if any_free : bool then Some (l, inl ResultInvalidAddressState)
  else
    vma ← l !! begin_vma;
    '(l, begin_vma) ← (if negb (target =? vma_base vma)
                       then SplitVMA l begin_vma (u32 (target - vma_base vma))
                       else Some (l, begin_vma));
    end_vma ← FindVMA l target_end;
    match l !! end_vma with
    | None => Some (l, inr begin_vma)
    | Some e =>
        if negb (target_end =? vma_base e)
        then r ← SplitVMA l end_vma (u32 (target_end - vma_base e)); Some (fst r, inr begin_vma)
        else Some (l, inr begin_vma)
    end.

(** ** The operations *)

Section Operations.
(** Whether the rasterizer caches a page, as in [PageTable]. *)
Context (is_cached : Z → bool).

(** [UpdatePageTableForVMA]; the plugin loader is only notified, which changes neither the map
    nor the page table. *)
Definition UpdatePageTableForVMA (pt : PageTable) (vma : VirtualMemoryArea) : option PageTable :=
  match vma_type vma with
  | Free => UnmapRegion is_cached pt (vma_base vma) (vma_size vma)
  | BackingMemory =>
      MapMemoryRegion is_cached pt (vma_base vma) (vma_size vma) (backing_memory vma)
  end.

(** Overwrite the area at an iterator, update the page table for it, and merge it with its
    neighbours: the common end of [MapBackingMemory], [Unmap], [Reprotect] and of the loop of
    [ChangeMemoryState]. *)
Definition update_vma (vm : VMManager) (i : nat) (f : VirtualMemoryArea → VirtualMemoryArea)
  : option (VMManager * nat) :=
  vma ← vma_map vm !! i;
  let vma := f vma in
  pt ← UpdatePageTableForVMA (page_table vm) vma;
  '(l, i) ← MergeAdjacent (<[i := vma]> (vma_map vm)) i;
  Some (mkVM l pt (is_locked vm), i).

Definition initial_vma : VirtualMemoryArea :=
  mkVMA 0 MAX_ADDRESS Free PermNone StateFree null_ref.
Definition Reset (vm : VMManager) : option VMManager :=
  ASSERT (negb (is_locked vm)) ;;
  pt ← UpdatePageTableForVMA (PageTable_Clear (page_table vm)) initial_vma;
  Some (mkVM [initial_vma] pt (is_locked vm)).

Definition Unlock (vm : VMManager) : VMManager := mkVM (vma_map vm) (page_table vm) false.

Definition map_vma (memory : MemoryRef) (state : MemoryState) (v : VirtualMemoryArea)
  : VirtualMemoryArea :=
  mkVMA (vma_base v) (vma_size v) BackingMemory PermReadWrite state memory.

Definition MapBackingMemory (vm : VMManager) (target : Z) (memory : MemoryRef) (size : Z)
    (state : MemoryState) : option (VMManager * ResultVal nat) :=
  ASSERT (negb (is_locked vm)) ;;
  ASSERT (negb (GetPtr memory =? 0)) ;;
  '(l, r) ← CarveVMA (vma_map vm) target size;
  let vm := mkVM l (page_table vm) (is_locked vm) in
  match r with
  | inl code => Some (vm, inl code)
  | inr vma_handle =>
      final_vma ← l !! vma_handle;
      ASSERT (vma_size final_vma =? size) ;;
      '(vm, i) ← update_vma vm vma_handle (map_vma memory state);
      Some (vm, inr i)
  end.

(** The predicate of [std::find_if] in [MapBackingMemoryToBase]. *)
Definition free_vma_for (base size : Z) (v : VirtualMemoryArea) : bool :=
  if negb (bool_decide (vma_type v = Free)) then false
  else
    let vma_end := u32 (vma_base v + vma_size v) in
    (base <? vma_end) && (u32 (base + size) <=? vma_end).

(** [MapBackingMemoryToBase] reads the area it found before it compares the iterator with
    [end()]: when no area qualifies the read is undefined. *)
Definition MapBackingMemoryToBase (vm : VMManager) (base region_size : Z) (memory : MemoryRef)
    (size : Z) (state : MemoryState) : option (VMManager * ResultVal Z) :=
  ASSERT (negb (is_locked vm)) ;;
  '(_, vma) ← list_find (λ v, free_vma_for base size v = true) (vma_map vm);
  let target := Z.max base (vma_base vma) in
  if u32 (base + region_size) <? u32 (target + size) then Some (vm, inl ResultOutOfMemory)
  else
    '(vm, result) ← MapBackingMemory vm target memory size state;
    match result with
    | inl code => Some (vm, inl code)
    | inr _ => Some (vm, inr target)
    end.

Definition unmap_vma (v : VirtualMemoryArea) : VirtualMemoryArea :=
  mkVMA (vma_base v) (vma_size v) Free PermNone StateFree null_ref.

Definition Unmap (vm : VMManager) (vma_handle : nat) : option (VMManager * nat) :=
  ASSERT (negb (is_locked vm)) ;;
  update_vma vm vma_handle unmap_vma.

Definition reprotect_vma (new_perms : Z) (v : VirtualMemoryArea) : VirtualMemoryArea :=
  mkVMA (vma_base v) (vma_size v) (vma_type v) new_perms (meminfo_state v) (backing_memory v).

Definition Reprotect (vm : VMManager) (vma_handle : nat) (new_perms : Z)
  : option (VMManager * nat) :=
  ASSERT (negb (is_locked vm)) ;;
  update_vma vm vma_handle (reprotect_vma new_perms).

Definition change_state_vma (new_state : MemoryState) (new_perms : Z) (v : VirtualMemoryArea)
  : VirtualMemoryArea :=
  mkVMA (vma_base v) (vma_size v) (vma_type v) new_perms new_state (backing_memory v).

(** The loop [while (vma != end && vma->second.base < target_end) vma = next(f(vma))].  Every
    round leaves fewer areas behind the iterator, so the length of the map bounds the rounds. *)
Fixpoint range_loop (f : VMManager → nat → option (VMManager * nat)) (fuel : nat)
    (vm : VMManager) (i : nat) (target_end : Z) : option VMManager :=
  match vma_map vm !! i with
  | None => Some vm
  | Some vma =>
      if target_end <=? vma_base vma then Some vm
      else match fuel with
           | O => None
           | S fuel => '(vm, i) ← f vm i; range_loop f fuel vm (S i) target_end
           end
  end.

Definition UnmapRange (vm : VMManager) (target size : Z) : option (VMManager * Z) :=
  ASSERT (negb (is_locked vm)) ;;
  '(l, r) ← CarveVMARange (vma_map vm) target size;
  let vm := mkVM l (page_table vm) (is_locked vm) in
  match r with
  | inl code => Some (vm, code)
  | inr vma =>
      vm ← range_loop Unmap (length l) vm vma (u32 (target + size));
      i ← FindVMA (vma_map vm) target;
      v ← vma_map vm !! i;
      ASSERT (size <=? vma_size v) ;;
      Some (vm, ResultSuccess)
  end.

Definition ReprotectRange (vm : VMManager) (target size new_perms : Z) : option (VMManager * Z) :=
  ASSERT (negb (is_locked vm)) ;;
  '(l, r) ← CarveVMARange (vma_map vm) target size;
  let vm := mkVM l (page_table vm) (is_locked vm) in
  match r with
  | inl code => Some (vm, code)
  | inr vma =>
      vm ← range_loop (λ vm i, Reprotect vm i new_perms) (length l) vm vma (u32 (target + size));
      Some (vm, ResultSuccess)
  end.

(** The test of one area in [ChangeMemoryState]. *)
Definition state_mismatch (expected_state : MemoryState) (expected_perms : Z)
    (v : VirtualMemoryArea) : bool :=
  negb (bool_decide (meminfo_state v = expected_state)) ||
  negb (Z.land (permissions v) expected_perms =? expected_perms).

Definition ChangeMemoryState (vm : VMManager) (target size : Z) (expected_state : MemoryState)
    (expected_perms : Z) (new_state : MemoryState) (new_perms : Z) : option (VMManager * Z) :=
  if is_locked vm then Some (vm, ResultSuccess)
  else
    let target_end := u32 (target + size) in
    begin_vma ← FindVMA (vma_map vm) target;
    let i_end := lower_bound target_end (vma_map vm) in
    if (begin_vma =? length (vma_map vm))%nat then Some (vm, ResultInvalidAddress)
    else
      mismatch ← any_of (state_mismatch expected_state expected_perms)
                        (S (length (vma_map vm))) (vma_map vm) begin_vma i_end;
      if mismatch : bool then Some (vm, ResultInvalidAddressState)
      else
        '(l, r) ← CarveVMARange (vma_map vm) target size;
        let vm := mkVM l (page_table vm) (is_locked vm) in
        match r with
        | inl code => Some (vm, code)
        | inr vma =>
            vm ← range_loop (λ vm i, update_vma vm i (change_state_vma new_state new_perms))
                            (length l) vm vma target_end;
            Some (vm, ResultSuccess)
        end.

End Operations.

(** [GetBackingBlocksForRange]: every round ends at the end of an area. *)
Fixpoint backing_blocks_loop (fuel : nat) (l : list VirtualMemoryArea) (range_end : Z)
    (interval_target : Z) (blocks : list (MemoryRef * Z)) : option (ResultVal (list (MemoryRef * Z))) :=
  if interval_target =? range_end then Some (inr blocks)
  else match fuel with
       | O => None
       | S fuel =>
           i ← FindVMA l interval_target;
           vma ← l !! i;
           if negb (bool_decide (vma_type vma = BackingMemory))
           then Some (inl ResultInvalidAddressState)
           else
             let interval_end := Z.min range_end (u32 (vma_base vma + vma_size vma)) in
             let interval_size := u32 (interval_end - interval_target) in
             block ← ref_add (backing_memory vma) (u32 (interval_target - vma_base vma));
             backing_blocks_loop fuel l range_end (u32 (interval_target + interval_size))
                                 (blocks ++ [(block, interval_size)])
       end.
Definition GetBackingBlocksForRange (vm : VMManager) (address size : Z)
  : option (ResultVal (list (MemoryRef * Z))) :=
  backing_blocks_loop (S (length (vma_map vm))) (vma_map vm) (u32 (address + size)) address [].

(** ** The abstract view and the invariant *)

(** What an address is mapped to. *)
Record Attr := mkAttr { a_type : VMAType; a_perms : Z; a_state : MemoryState; a_ref : MemoryRef }.

Definition ref_shift (m : MemoryRef) (k : Z) : MemoryRef := mkRef (backing_mem m) (offset m + k).

Definition attr (v : VirtualMemoryArea) (a : Z) : Attr :=
  mkAttr (vma_type v) (permissions v) (meminfo_state v)
         (match vma_type v with
          | Free => null_ref
          | BackingMemory => ref_shift (backing_memory v) (a - vma_base v)
          end).

Fixpoint attr_at (l : list VirtualMemoryArea) (a : Z) : option Attr :=
  match l with
  | [] => None
  | v :: l => if in_range (vma_base v) (vma_end v) a then Some (attr v a) else attr_at l a
  end.

Definition free_attr : Attr := mkAttr Free PermNone StateFree null_ref.

(** The page-table entry of a page whose first address has these attributes. *)
Definition attr_page (is_cached : Z → bool) (p : Z) (x : Attr) : PageType * MemoryRef :=
  match a_type x with
  | Free => (PageUnmapped, null_ref)
  | BackingMemory =>
      if is_cached p then (PageRasterizerCachedMemory, null_ref) else (PageMemory, a_ref x)
  end.

Section Invariant.
Context (is_cached : Z → bool) (known : BackingMem → Prop).

Definition backed (m : MemoryRef) (n : Z) : Prop :=
  ref_holds m n ∧ ∃ b, backing_mem m = Some b ∧ known b.

Definition vma_ok (v : VirtualMemoryArea) : Prop :=
  0 < vma_size v ∧ vma_base v `mod` CITRA_PAGE_SIZE = 0 ∧ vma_size v `mod` CITRA_PAGE_SIZE = 0 ∧
  match vma_type v with
  | Free => permissions v = PermNone ∧ meminfo_state v = StateFree ∧ backing_memory v = null_ref
  | BackingMemory => backed (backing_memory v) (vma_size v)
  end.

(** The areas follow one another from [lo] to [hi]. *)
Fixpoint tiles (lo : Z) (l : list VirtualMemoryArea) (hi : Z) : Prop :=
  match l with
  | [] => lo = hi
  | v :: l => vma_base v = lo ∧ vma_ok v ∧ tiles (vma_end v) l hi
  end.

Definition is_free (v : VirtualMemoryArea) : bool := bool_decide (vma_type v = Free).

(** No two free areas are adjacent. *)
Definition free_pair (v w : VirtualMemoryArea) : bool := is_free v && is_free w.
Fixpoint no_pair (P : VirtualMemoryArea → VirtualMemoryArea → bool) (l : list VirtualMemoryArea)
  : Prop :=
  match l with
  | [] => True
  | v :: l => (match l with w :: _ => P v w = false | [] => True end) ∧ no_pair P l
  end.

Definition pages_agree (pt : PageTable) (l : list VirtualMemoryArea) : Prop :=
  ∀ p x, attr_at l (p * CITRA_PAGE_SIZE) = Some x → page_entry pt p = attr_page is_cached p x.

Definition vm_inv (vm : VMManager) : Prop :=
  tiles 0 (vma_map vm) MAX_ADDRESS ∧ no_pair free_pair (vma_map vm) ∧
  pages_agree (page_table vm) (vma_map vm).

(** Host blocks are separate allocations: none begins where another ends. *)
Definition blocks_separate : Prop :=
  ∀ b1 b2, known b1 → known b2 → b1 ≠ b2 →
    bm_ptr b1 + bm_size b1 < bm_ptr b2 ∨ bm_ptr b2 + bm_size b2 < bm_ptr b1.

End Invariant.

(** ** Lists of areas *)

Section Tiles.
Context (known : BackingMem → Prop).
#[local] Abbreviation tiles := (tiles known).
#[local] Abbreviation vma_ok := (vma_ok known).

Lemma vma_ok_size v : vma_ok v → 0 < vma_size v.
Proof. intros []. done. Qed.

Lemma tiles_le lo l hi : tiles lo l hi → lo <= hi.
Proof.
  revert lo. induction l as [|v l IH]; intros lo; simpl; [lia|].
  intros (Hb & Hok & Ht). apply IH in Ht. apply vma_ok_size in Hok. unfold vma_end in *. lia.
Qed.

Lemma tiles_app lo l1 l2 hi :
  tiles lo (l1 ++ l2) hi ↔ ∃ mid, tiles lo l1 mid ∧ tiles mid l2 hi.
Proof.
  revert lo. induction l1 as [|v l1 IH]; intros lo; simpl.
  - split; [by eauto|]. by intros (mid & -> & ?).
  - setoid_rewrite IH. naive_solver.
Qed.

Lemma tiles_end_unique lo l h1 h2 : tiles lo l h1 → tiles lo l h2 → h1 = h2.
Proof. revert lo. induction l as [|v l IH]; intros lo; simpl; [congruence|]. naive_solver. Qed.

Lemma tiles_start_unique lo1 lo2 l hi : tiles lo1 l hi → tiles lo2 l hi → lo1 = lo2.
Proof. destruct l; simpl; [congruence|]. intros (? & _) (? & _). congruence. Qed.

Lemma tiles_cons_inv lo d v r hi :
  tiles lo (d ++ v :: r) hi →
  tiles lo d (vma_base v) ∧ vma_ok v ∧ tiles (vma_end v) r hi ∧
  lo <= vma_base v ∧ vma_base v < vma_end v ∧ vma_end v <= hi.
Proof.
  intros (mid & Hd & <- & Hv & Hr)%tiles_app.
  pose proof (tiles_le _ _ _ Hd). pose proof (tiles_le _ _ _ Hr).
  pose proof (vma_ok_size _ Hv). unfold vma_end in *. split_and!; try done; lia.
Qed.

Lemma tiles_cons lo d v r hi :
  tiles lo d (vma_base v) → vma_ok v → tiles (vma_end v) r hi → tiles lo (d ++ v :: r) hi.
Proof. intros. apply tiles_app. exists (vma_base v). simpl. done. Qed.

Lemma attr_at_outside lo l hi a : tiles lo l hi → ~ (lo <= a < hi) → attr_at l a = None.
Proof.
  revert lo. induction l as [|v l IH]; intros lo; simpl; [done|].
  intros (Hb & Hok & Ht) Ha. pose proof (tiles_le _ _ _ Ht). pose proof (vma_ok_size _ Hok).
  unfold vma_end in *. rewrite (proj2 (in_range_false _ _ _)) by lia. apply (IH _ Ht). lia.
Qed.

Lemma attr_at_app lo l1 mid l2 a :
  tiles lo l1 mid → lo <= a → attr_at (l1 ++ l2) a = if a <? mid then attr_at l1 a else attr_at l2 a.
Proof.
  revert lo. induction l1 as [|v l1 IH]; intros lo; simpl.
  - intros -> Ha. by destruct (Z.ltb_spec a mid); [lia|].
  - intros (Hb & Hok & Ht) Ha. pose proof (tiles_le _ _ _ Ht).
    destruct (in_range (vma_base v) (vma_end v) a) eqn:E.
    + apply in_range_iff in E. by destruct (Z.ltb_spec a mid); [|lia].
    + apply in_range_false in E. apply (IH _ Ht). pose proof (vma_ok_size _ Hok).
      unfold vma_end in *. lia.
Qed.

(** The view of a list cut at one area. *)
Lemma attr_at_cut lo d v r hi a :
  tiles lo (d ++ v :: r) hi → lo <= a →
  attr_at (d ++ v :: r) a =
    if a <? vma_base v then attr_at d a
    else if a <? vma_end v then Some (attr v a) else attr_at r a.
Proof.
  intros Ht Ha. destruct (tiles_cons_inv _ _ _ _ _ Ht) as (Hd & Hv & Hr & ? & ? & ?).
  rewrite (attr_at_app _ _ _ _ _ Hd Ha). destruct (Z.ltb_spec a (vma_base v)); [done|]. simpl.
  destruct (Z.ltb_spec a (vma_end v)).
  - by rewrite (proj2 (in_range_iff _ _ _)) by lia.
  - by rewrite (proj2 (in_range_false _ _ _)) by lia.
Qed.

(** An address of the space lies in one area. *)
Lemma tiles_find lo l hi a :
  tiles lo l hi → lo <= a < hi → ∃ d v r, l = d ++ v :: r ∧ vma_base v <= a < vma_end v.
Proof.
  revert lo. induction l as [|v l IH]; intros lo; simpl; [lia|].
  intros (Hb & Hok & Ht) Ha. destruct (decide (a < vma_end v)).
  - exists [], v, l. split; [done|]. lia.
  - destruct (IH _ Ht) as (d & w & r & -> & ?); [lia|]. by exists (v :: d), w, r.
Qed.

Lemma upper_bound_cut lo d v r hi a :
  tiles lo (d ++ v :: r) hi → vma_base v <= a < vma_end v → upper_bound a (d ++ v :: r) = S (length d).
Proof.
  revert lo. induction d as [|w d IH]; intros lo; simpl.
  - intros (Hb & Hok & Ht) Ha. destruct (Z.ltb_spec a (vma_base v)); [lia|]. f_equal.
    destruct r as [|x r]; simpl in *; [done|]. destruct Ht as (Hx & _).
    by destruct (Z.ltb_spec a (vma_base x)); [|lia].
  - intros (Hb & Hok & Ht) Ha. pose proof (tiles_cons_inv _ _ _ _ _ Ht) as (_ & _ & _ & ? & ? & _).
    pose proof (vma_ok_size _ Hok). unfold vma_end in *.
    destruct (Z.ltb_spec a (vma_base w)); [lia|]. f_equal. by apply (IH _ Ht).
Qed.

Lemma lower_bound_cut d r mid hi a :
  Forall (λ v, vma_base v < a) d → tiles mid r hi → a <= mid → lower_bound a (d ++ r) = length d.
Proof.
  intros Hd Hr Ha. induction d as [|w d IH]; simpl.
  - destruct r as [|x r]; simpl in *; [done|]. destruct Hr as (<- & _).
    by destruct (Z.leb_spec a (vma_base x)); [|lia].
  - inversion_clear Hd. destruct (Z.leb_spec a (vma_base w)); [lia|]. by rewrite IH.
Qed.

Lemma tiles_below lo l hi : tiles lo l hi → Forall (λ v, vma_base v < hi) l.
Proof.
  revert lo. induction l as [|v l IH]; intros lo; simpl; [by constructor|].
  intros (Hb & Hok & Ht). constructor; [|by eapply IH].
  pose proof (tiles_le _ _ _ Ht). pose proof (vma_ok_size _ Hok). unfold vma_end in *. lia.
Qed.

Lemma lower_bound_at lo d mid r hi :
  tiles lo d mid → tiles mid r hi → lower_bound mid (d ++ r) = length d.
Proof. intros Hd Hr. eapply lower_bound_cut; [by eapply tiles_below|done|lia]. Qed.

Lemma lower_bound_inside lo d v r hi a :
  tiles lo (d ++ v :: r) hi → vma_base v < a <= vma_end v →
  lower_bound a (d ++ v :: r) = S (length d).
Proof.
  intros Ht Ha. destruct (tiles_cons_inv _ _ _ _ _ Ht) as (Hd & Hv & Hr & ? & ? & ?).
  rewrite cons_middle, app_assoc. erewrite lower_bound_cut; [|..|exact Hr|].
  - rewrite length_app. simpl. lia.
  - apply Forall_app. split; [|constructor; [lia|constructor]].
    eapply Forall_impl; [by eapply tiles_below|]. simpl. lia.
  - lia.
Qed.

Lemma FindVMA_cut lo d v r a :
  tiles lo (d ++ v :: r) MAX_ADDRESS → vma_base v <= a < vma_end v →
  FindVMA (d ++ v :: r) a = Some (length d).
Proof.
  intros Ht Ha. unfold FindVMA. destruct (tiles_cons_inv _ _ _ _ _ Ht) as (_ & _ & _ & ? & ? & ?).
  destruct (Z.leb_spec MAX_ADDRESS a); [lia|]. by erewrite upper_bound_cut.
Qed.

End Tiles.

Section Cut.
Context {A : Type}.
Implicit Types (d r : list A) (x y : A).

Lemma lookup_cut d x r : (d ++ x :: r) !! length d = Some x.
Proof. by apply list_lookup_middle. Qed.

Lemma lookup_cut_next d x r : (d ++ x :: r) !! S (length d) = head r.
Proof. rewrite cons_middle, app_assoc. rewrite lookup_app_r by (rewrite length_app; simpl; lia).
  rewrite length_app. simpl. replace (S (length d) - (length d + 1))%nat with 0%nat by lia.
  by destruct r. Qed.

Lemma insert_cut d x y r : <[length d := y]> (d ++ x :: r) = d ++ y :: r.
Proof. induction d as [|z d IH]; simpl; [done|]. by rewrite IH. Qed.

Lemma insert_at_cut d x y r : insert_at (S (length d)) y (d ++ x :: r) = d ++ x :: y :: r.
Proof. unfold insert_at. induction d as [|z d IH]; simpl; [done|]. f_equal. done. Qed.

Lemma erase_cut d x y r : erase (S (length d)) (d ++ x :: y :: r) = d ++ x :: r.
Proof. unfold erase. induction d as [|z d IH]; simpl; [done|]. f_equal. done. Qed.

End Cut.

(** The upper part of an area cut at [off]. *)
Definition vma_tail (v : VirtualMemoryArea) (off : Z) : VirtualMemoryArea :=
  mkVMA (vma_base v + off) (vma_size v - off) (vma_type v) (permissions v) (meminfo_state v)
        (match vma_type v with
         | Free => backing_memory v
         | BackingMemory => ref_shift (backing_memory v) off
         end).

Section SplitMerge.
Context (known : BackingMem → Prop) (Hsep : blocks_separate known).
#[local] Abbreviation tiles := (tiles known).
#[local] Abbreviation vma_ok := (vma_ok known).

Lemma attr_set_size v n a : attr (set_size v n) a = attr v a.
Proof. done. Qed.

Lemma attr_tail v off a : attr (vma_tail v off) a = attr v a.
Proof.
  unfold attr, vma_tail; simpl. destruct (vma_type v); [done|]. unfold ref_shift; simpl.
  do 2 f_equal. lia.
Qed.

Lemma aligned_sub x y : x `mod` CITRA_PAGE_SIZE = 0 → y `mod` CITRA_PAGE_SIZE = 0 →
  (x - y) `mod` CITRA_PAGE_SIZE = 0.
Proof. intros Hx Hy. rewrite Zminus_mod, Hx, Hy. done. Qed.

Lemma aligned_add x y : x `mod` CITRA_PAGE_SIZE = 0 → y `mod` CITRA_PAGE_SIZE = 0 →
  (x + y) `mod` CITRA_PAGE_SIZE = 0.
Proof. intros Hx Hy. rewrite Zplus_mod, Hx, Hy. done. Qed.

Lemma backed_le m n k : 0 <= k <= n → backed known m n → backed known m k.
Proof. intros ? [(b & ? & ? & ? & ? & ?) ?]. split; [|done]. exists b. split_and!; [done|lia..]. Qed.

Lemma backed_shift m n k : 0 <= k <= n → backed known m n → backed known (ref_shift m k) (n - k).
Proof. intros ? [(b & ? & ? & ? & ? & ?) ?]. split; [|done]. exists b. simpl. split_and!; [done|lia..]. Qed.

Lemma GetPtr_shift m n k : backed known m n → GetPtr (ref_shift m k) = GetPtr m + k.
Proof. intros [(b & Hb & _) _]. unfold GetPtr. simpl. rewrite Hb. lia. Qed.

Lemma ref_add_backed m n k : 0 <= k < n → backed known m n → ref_add m k = Some (ref_shift m k).
Proof.
  intros Hk [Hm _]. destruct (ref_add_holds m (n - k) k) as [-> _]; try lia; [|done].
  by replace (k + (n - k)) with n by lia.
Qed.

Lemma vma_ok_head v off :
  vma_ok v → 0 < off <= vma_size v → off `mod` CITRA_PAGE_SIZE = 0 → vma_ok (set_size v off).
Proof.
  intros (Hs & Hb & Ha & Ht) Hoff Hal. split_and!; simpl; [lia|done..|].
  destruct (vma_type v); [done|]. eapply backed_le; [|done]. lia.
Qed.

Lemma vma_ok_tail v off :
  vma_ok v → 0 <= off < vma_size v → off `mod` CITRA_PAGE_SIZE = 0 → vma_ok (vma_tail v off).
Proof.
  intros (Hs & Hb & Ha & Ht) Hoff Hal. split_and!; simpl; [lia| | |].
  - by apply aligned_add.
  - by apply aligned_sub.
  - destruct (vma_type v); [done|]. apply backed_shift; [lia|done].
Qed.

Lemma mergeable_tail v off :
  vma_ok v → mergeable (set_size v off) (vma_tail v off) = true.
Proof.
  intros (_ & _ & _ & Ht). unfold mergeable; simpl. rewrite Z.eqb_refl, !bool_decide_true by done.
  simpl. destruct (vma_type v); simpl; [done|].
  by rewrite (GetPtr_shift _ _ _ Ht), Z.eqb_refl.
Qed.

Lemma SplitVMA_cut d v r off :
  tiles 0 (d ++ v :: r) MAX_ADDRESS → 0 < off < vma_size v →
  SplitVMA (d ++ v :: r) (length d) off =
    Some (d ++ set_size v off :: vma_tail v off :: r, S (length d)).
Proof.
  intros Ht Hoff. destruct (tiles_cons_inv _ _ _ _ _ _ Ht) as (_ & Hv & _ & ? & ? & ?).
  unfold vma_end, MAX_ADDRESS in *.
  unfold SplitVMA. rewrite lookup_cut. simpl.
  destruct (Z.ltb_spec off (vma_size v)); [|lia]. destruct (Z.ltb_spec 0 off); [|lia]. simpl.
  assert ((match vma_type v with
           | Free => Some (backing_memory v)
           | BackingMemory => ref_add (backing_memory v) off
           end) = Some (backing_memory (vma_tail v off))) as ->.
  { destruct Hv as (_ & _ & _ & Hv). simpl. destruct (vma_type v); [done|].
    apply (ref_add_backed _ _ _ ltac:(split; [|apply Hoff]; lia) Hv). }
  cbn [mbind option_bind]. rewrite !u32_id by lia.
  change (mkVMA _ _ _ _ _ (backing_memory (vma_tail v off))) with (vma_tail v off).
  unfold CanBeMergedWith. rewrite u32_id by (simpl; lia).
  destruct (Z.eqb_spec (vma_base (set_size v off) + vma_size (set_size v off))
              (vma_base (vma_tail v off))) as [_|Hne]; [|simpl in Hne; lia].
  cbn [assert_ mbind option_bind]. rewrite mergeable_tail by done. simpl.
  by rewrite insert_cut, insert_at_cut.
Qed.

Lemma tiles_split lo d v r hi off :
  tiles lo (d ++ v :: r) hi → 0 < off < vma_size v → off `mod` CITRA_PAGE_SIZE = 0 →
  tiles lo (d ++ set_size v off :: vma_tail v off :: r) hi.
Proof.
  intros Ht Hoff Hal. destruct (tiles_cons_inv _ _ _ _ _ _ Ht) as (Hd & Hv & Hr & _).
  apply tiles_cons; [done|by apply vma_ok_head; [|lia|]|]. simpl. split_and!.
  - done.
  - by apply vma_ok_tail; [|lia|].
  - unfold vma_end in *; simpl. by replace (vma_base v + off + (vma_size v - off))
      with (vma_base v + vma_size v) by lia.
Qed.

Lemma attr_at_split d v r off a :
  0 < off < vma_size v →
  attr_at (d ++ set_size v off :: vma_tail v off :: r) a = attr_at (d ++ v :: r) a.
Proof.
  intros Hoff. induction d as [|w d IH]; simpl; [|by rewrite IH].
  rewrite attr_set_size, attr_tail. unfold vma_end; simpl.
  destruct (in_range (vma_base v) (vma_base v + off) a) eqn:E1;
    destruct (in_range (vma_base v + off) (vma_base v + off + (vma_size v - off)) a) eqn:E2;
    destruct (in_range (vma_base v) (vma_base v + vma_size v) a) eqn:E3;
    rewrite ?in_range_iff, ?in_range_false in *; done || lia.
Qed.

(** ** Merging *)

Lemma mergeable_spec v w :
  mergeable v w = true ↔
  permissions v = permissions w ∧ meminfo_state v = meminfo_state w ∧ vma_type v = vma_type w ∧
  (vma_type v = BackingMemory → GetPtr (backing_memory v) + vma_size v = GetPtr (backing_memory w)).
Proof.
  unfold mergeable. destruct (Z.eqb_spec (permissions v) (permissions w)); simpl; [|naive_solver].
  repeat case_bool_decide; simpl; try naive_solver.
  destruct (Z.eqb_spec (GetPtr (backing_memory v) + vma_size v) (GetPtr (backing_memory w)));
    simpl; naive_solver.
Qed.

(** Merging free areas never fails; merging backed ones needs one host block. *)
Lemma mergeable_free v w : vma_ok v → vma_ok w → vma_type v = Free → vma_type w = Free →
  mergeable v w = true.
Proof.
  intros (_ & _ & _ & Hv) (_ & _ & _ & Hw) E1 E2. rewrite E1 in Hv. rewrite E2 in Hw.
  destruct Hv as (Hp & Hs & _). destruct Hw as (Hp' & Hs' & _).
  apply mergeable_spec. rewrite E1, E2, Hp, Hs, Hp', Hs'. done.
Qed.

Lemma mergeable_same_block v w :
  vma_ok v → vma_ok w → mergeable v w = true → vma_type v = BackingMemory →
  backing_memory w = ref_shift (backing_memory v) (vma_size v) ∧
  backed known (backing_memory v) (vma_size v + vma_size w).
Proof.
  intros Hv Hw (_ & _ & Et & Hptr)%mergeable_spec E. specialize (Hptr E).
  pose proof (vma_ok_size _ _ Hv). pose proof (vma_ok_size _ _ Hw).
  destruct Hv as (_ & _ & _ & Hv). destruct Hw as (_ & _ & _ & Hw).
  rewrite E in Hv. rewrite <- Et, E in Hw.
  destruct Hv as ((b & Hb & Hp & Ho & Hs & H64) & (b' & Hb' & Hk)).
  destruct Hw as ((c & Hc & Hcp & Hco & Hcs & Hc64) & (c' & Hc' & Hck)). simplify_eq.
  unfold GetPtr in Hptr. rewrite Hb, Hc in Hptr.
  destruct (decide (b = c)) as [<-|Hne].
  - split.
    + unfold ref_shift. destruct (backing_memory w) as [bw ow]; simpl in *. f_equal; [congruence|lia].
    + split; [|by eauto]. exists b. split_and!; [done|done|done|lia|done].
  - destruct (Hsep b c Hk Hck Hne); lia.
Qed.

Definition merged (v w : VirtualMemoryArea) : VirtualMemoryArea := set_size v (vma_size v + vma_size w).

Lemma attr_merge v w a :
  vma_ok v → vma_ok w → vma_end v = vma_base w → mergeable v w = true → attr w a = attr v a.
Proof.
  intros Hv Hw He Hm. pose proof Hm as (Ep & Es & Et & _)%mergeable_spec.
  unfold attr. rewrite <- Ep, <- Es, <- Et. destruct (vma_type v) eqn:E; [done|].
  destruct (mergeable_same_block v w Hv Hw Hm E) as [-> _]. unfold ref_shift; simpl.
  unfold vma_end in He. do 2 f_equal. lia.
Qed.

Lemma vma_ok_merged v w : vma_ok v → vma_ok w → mergeable v w = true → vma_ok (merged v w).
Proof.
  intros Hv Hw Hm. pose proof (mergeable_same_block v w Hv Hw Hm) as Hb.
  pose proof (vma_ok_size _ _ Hv). pose proof (vma_ok_size _ _ Hw).
  destruct Hv as (? & ? & ? & Hv). destruct Hw as (? & ? & ? & Hw).
  split_and!; simpl; [lia|done|by apply aligned_add|].
  destruct (vma_type v); [done|]. by apply Hb.
Qed.

(** The list after the area [v] swallowed its right neighbour [w]. *)
Lemma tiles_merged lo d v w r hi :
  tiles lo (d ++ v :: w :: r) hi → mergeable v w = true → tiles lo (d ++ merged v w :: r) hi.
Proof.
  intros Ht Hm. destruct (tiles_cons_inv _ _ _ _ _ _ Ht) as (Hd & Hv & (Hb & Hw & Hr) & _).
  apply tiles_cons; [done|by apply vma_ok_merged|]. unfold vma_end in *; simpl.
  rewrite Hb in Hr. by rewrite Z.add_assoc.
Qed.

Lemma attr_at_merged lo d v w r hi a :
  tiles lo (d ++ v :: w :: r) hi → mergeable v w = true →
  attr_at (d ++ merged v w :: r) a = attr_at (d ++ v :: w :: r) a.
Proof.
  intros Ht Hm. destruct (tiles_cons_inv _ _ _ _ _ _ Ht) as (_ & Hv & (Hb & Hw & Hr) & _).
  pose proof (vma_ok_size _ _ Hv). pose proof (vma_ok_size _ _ Hw). clear Ht Hr.
  induction d as [|x d IH]; simpl; [|by rewrite IH].
  rewrite (attr_merge v w a) by done. unfold merged. rewrite attr_set_size.
  unfold vma_end in *; simpl.
  destruct (in_range (vma_base v) (vma_base v + (vma_size v + vma_size w)) a) eqn:E1;
    destruct (in_range (vma_base v) (vma_base v + vma_size v) a) eqn:E2;
    destruct (in_range (vma_base w) (vma_base w + vma_size w) a) eqn:E3;
    rewrite ?in_range_iff, ?in_range_false in *; done || lia.
Qed.

Lemma CanBeMergedWith_tiles lo d v w r hi :
  0 <= lo → hi <= MAX_ADDRESS → tiles lo (d ++ v :: w :: r) hi →
  CanBeMergedWith v w = Some (mergeable v w).
Proof.
  intros Hlo Hhi Ht. destruct (tiles_cons_inv _ _ _ _ _ _ Ht) as (_ & Hv & (Hb & Hw & Hr) & ? & ? & ?).
  unfold CanBeMergedWith, vma_end, MAX_ADDRESS in *. rewrite u32_id by lia.
  by rewrite Hb, Z.eqb_refl.
Qed.

Lemma merge_next_cut d v r :
  tiles 0 (d ++ v :: r) MAX_ADDRESS →
  merge_next (d ++ v :: r) (length d) =
    Some (match r with
          | w :: r' => if mergeable v w then d ++ merged v w :: r' else d ++ v :: r
          | [] => d ++ v :: r
          end).
Proof.
  intros Ht. unfold merge_next. rewrite lookup_cut, lookup_cut_next. destruct r as [|w r]; [done|].
  simpl. rewrite (CanBeMergedWith_tiles _ _ _ _ _ _ ltac:(done) ltac:(done) Ht). simpl.
  destruct (mergeable v w) eqn:E; [|done].
  destruct (tiles_cons_inv _ _ _ _ _ _ (tiles_merged _ _ _ _ _ _ Ht E)) as (_ & ?%vma_ok_size & _ & ? & ? & ?).
  unfold vma_end, MAX_ADDRESS in *; simpl in *.
  rewrite u32_id by lia. by rewrite insert_cut, erase_cut.
Qed.

Lemma merge_prev_cut d p v r :
  tiles 0 (d ++ p :: v :: r) MAX_ADDRESS →
  merge_prev (d ++ p :: v :: r) (S (length d)) =
    Some (if mergeable p v then (d ++ merged p v :: r, length d)
          else (d ++ p :: v :: r, S (length d))).
Proof.
  intros Ht. unfold merge_prev. rewrite lookup_cut_next, lookup_cut. simpl.
  rewrite (CanBeMergedWith_tiles _ _ _ _ _ _ ltac:(done) ltac:(done) Ht). simpl.
  destruct (mergeable p v) eqn:E; [|done].
  destruct (tiles_cons_inv _ _ _ _ _ _ (tiles_merged _ _ _ _ _ _ Ht E)) as (_ & ?%vma_ok_size & _ & ? & ? & ?).
  unfold vma_end, MAX_ADDRESS in *; simpl in *.
  rewrite u32_id by lia. by rewrite insert_cut, erase_cut.
Qed.

Lemma no_pair_cut P d v r :
  no_pair P (d ++ v :: r) ↔ no_pair P (d ++ [v]) ∧ no_pair P (v :: r).
Proof.
  induction d as [|x d IH]; simpl; [by destruct r; naive_solver|].
  rewrite IH. destruct d; simpl; naive_solver.
Qed.

Lemma no_pair_snoc P d p v : no_pair P (d ++ [p; v]) ↔ no_pair P (d ++ [p]) ∧ P p v = false.
Proof. rewrite (no_pair_cut P d p [v]). simpl. naive_solver. Qed.

Lemma no_pair_app_l P d r : no_pair P (d ++ r) → no_pair P d.
Proof.
  induction d as [|x d IH]; simpl; [done|]. intros [H1 H2]. split; [|by apply IH].
  destruct d; simpl in *; done.
Qed.

Lemma no_pair_app_r P d r : no_pair P (d ++ r) → no_pair P r.
Proof. induction d as [|x d IH]; simpl; [done|]. intros [_ H]. by apply IH. Qed.

(** Whether an area is free decides its free pairs. *)
Lemma no_pair_retype v w d r :
  is_free v = is_free w → no_pair free_pair (d ++ v :: r) → no_pair free_pair (d ++ w :: r).
Proof.
  intros E. induction d as [|x d IH]; simpl.
  - destruct r; simpl; [done|]. unfold free_pair. by rewrite E.
  - destruct d; simpl in *; unfold free_pair; rewrite ?E in *; naive_solver.
Qed.

(** [MergeAdjacent] on an area whose neighbours are in order keeps the view, and leaves no free
    pair around the area. *)
Lemma merge_next_spec d v r :
  tiles 0 (d ++ v :: r) MAX_ADDRESS →
  ∃ v' r', merge_next (d ++ v :: r) (length d) = Some (d ++ v' :: r') ∧
    tiles 0 (d ++ v' :: r') MAX_ADDRESS ∧
    (∀ a, attr_at (d ++ v' :: r') a = attr_at (d ++ v :: r) a) ∧
    (r' = r ∨ ∃ w, r = w :: r' ∧ mergeable v w = true) ∧
    is_free v' = is_free v ∧ vma_base v' = vma_base v ∧ vma_end v <= vma_end v' ∧
    (no_pair free_pair r → no_pair free_pair (v' :: r')).
Proof.
  intros Ht. rewrite (merge_next_cut _ _ _ Ht).
  destruct (tiles_cons_inv _ _ _ _ _ _ Ht) as (_ & Hv & Hr & _).
  destruct r as [|w r]; [by exists v, []; split_and!; simpl; auto with lia|].
  destruct Hr as (Hb & Hw & Hr). destruct (mergeable v w) eqn:E.
  - exists (merged v w), r. split_and!; [done|by eapply tiles_merged|by intros; eapply attr_at_merged|
      by eauto|done|done| |].
    + pose proof (vma_ok_size _ _ Hw). unfold vma_end; simpl. lia.
    + apply mergeable_spec in E as (_ & _ & Et & _). apply (no_pair_retype w _ []).
      unfold is_free; simpl. by rewrite Et.
  - exists v, (w :: r). split_and!; auto; [lia|]. intros Hnp. split; [|done]. unfold free_pair, is_free.
    apply andb_false_iff. repeat case_bool_decide; auto.
    by rewrite mergeable_free in E.
Qed.

Lemma merge_prev_spec d v r :
  tiles 0 (d ++ v :: r) MAX_ADDRESS →
  ∃ d' v', merge_prev (d ++ v :: r) (length d) = Some (d' ++ v' :: r, length d') ∧
    tiles 0 (d' ++ v' :: r) MAX_ADDRESS ∧
    (∀ a, attr_at (d' ++ v' :: r) a = attr_at (d ++ v :: r) a) ∧
    is_free v' = is_free v ∧ vma_base v' <= vma_base v ∧ vma_end v' = vma_end v ∧
    (no_pair free_pair d → no_pair free_pair (v :: r) → no_pair free_pair (d' ++ v' :: r)).
Proof.
  intros Ht. destruct d as [|p d _] using rev_ind.
  { exists [], v. split_and!; auto with lia. }
  rewrite <- app_assoc in *. simpl in *. rewrite length_app. simpl. rewrite Nat.add_1_r.
  rewrite (merge_prev_cut _ _ _ _ Ht).
  destruct (tiles_cons_inv _ _ _ _ _ _ Ht) as (_ & Hp & (Hb & Hv & Hr) & _).
  destruct (mergeable p v) eqn:E.
  - exists d, (merged p v).
    pose proof E as (_ & _ & Et & _)%mergeable_spec. pose proof (vma_ok_size _ _ Hp).
    split_and!; [done|by eapply tiles_merged|by intros; eapply attr_at_merged|..].
    + unfold is_free; simpl. by rewrite Et.
    + unfold vma_end in *. simpl. lia.
    + unfold vma_end in *. simpl. lia.
    + intros Hd Hvr. apply no_pair_cut. split.
      * by apply (no_pair_retype p).
      * apply (no_pair_retype v _ []); [|done]. unfold is_free; simpl. by rewrite Et.
  - exists (d ++ [p]), v. rewrite <- app_assoc, length_app. simpl. rewrite Nat.add_1_r.
    split_and!; auto; [lia|]. intros Hd Hvr. apply no_pair_cut. split; [done|]. split; [|done].
    unfold free_pair, is_free. apply andb_false_iff. repeat case_bool_decide; auto.
    by rewrite mergeable_free in E.
Qed.

Lemma MergeAdjacent_spec d v r :
  tiles 0 (d ++ v :: r) MAX_ADDRESS →
  ∃ d' v' r', MergeAdjacent (d ++ v :: r) (length d) = Some (d' ++ v' :: r', length d') ∧
    tiles 0 (d' ++ v' :: r') MAX_ADDRESS ∧
    (∀ a, attr_at (d' ++ v' :: r') a = attr_at (d ++ v :: r) a) ∧
    (r' = r ∨ ∃ w, r = w :: r' ∧ mergeable v w = true) ∧
    is_free v' = is_free v ∧ vma_base v' <= vma_base v ∧ vma_end v <= vma_end v' ∧
    (no_pair free_pair d → no_pair free_pair r → no_pair free_pair (d' ++ v' :: r')).
Proof.
  intros Ht. destruct (merge_next_spec _ _ _ Ht)
    as (v1 & r' & E1 & Ht1 & Ha1 & Hr' & Hf1 & Hb1 & He1 & Hn1).
  destruct (merge_prev_spec _ _ _ Ht1) as (d' & v' & E2 & Ht2 & Ha2 & Hf2 & Hb2 & He2 & Hn2).
  exists d', v', r'. unfold MergeAdjacent. rewrite E1. simpl. rewrite E2.
  split_and!; auto; [by intros a; rewrite Ha2|congruence|lia|lia].
Qed.

(** ** Updating one area *)

Context (is_cached : Z → bool).
#[local] Abbreviation pages_agree := (pages_agree is_cached).

Lemma UpdatePageTableForVMA_spec pt v :
  vma_ok v → 0 <= vma_base v → vma_end v <= MAX_ADDRESS →
  ∃ pt', UpdatePageTableForVMA is_cached pt v = Some pt' ∧
    ∀ p, page_entry pt' p =
         if in_range (vma_base v) (vma_end v) (p * CITRA_PAGE_SIZE)
         then attr_page is_cached p (attr v (p * CITRA_PAGE_SIZE)) else page_entry pt p.
Proof.
  intros (Hs & Hb & Ha & Ht) H0 Hm. unfold UpdatePageTableForVMA, attr_page, attr, vma_end in *.
  destruct (vma_type v); simpl.
  - apply UnmapRegion_spec; unfold MAX_ADDRESS in *; lia.
  - apply MapMemoryRegion_spec; unfold MAX_ADDRESS in *; try lia. apply Ht.
Qed.

Lemma attr_at_update lo d v w r hi a :
  tiles lo (d ++ v :: r) hi → vma_base w = vma_base v → vma_end w = vma_end v →
  attr_at (d ++ w :: r) a =
    if in_range (vma_base v) (vma_end v) a then Some (attr w a) else attr_at (d ++ v :: r) a.
Proof.
  intros Ht Hb He. destruct (tiles_cons_inv _ _ _ _ _ _ Ht) as (Hd & _ & _ & _). clear Ht.
  revert lo Hd. induction d as [|x d IH]; intros lo Hd; simpl.
  - rewrite Hb, He. by destruct (in_range (vma_base v) (vma_end v) a).
  - destruct Hd as (Hx & Hok & Hd). pose proof (tiles_le _ _ _ _ Hd).
    rewrite (IH _ Hd). destruct (in_range (vma_base v) (vma_end v) a) eqn:E; [|done].
    apply in_range_iff in E. by rewrite (proj2 (in_range_false _ _ _)) by lia.
Qed.

Lemma pages_agree_update lo d v w r hi pt pt' :
  tiles lo (d ++ v :: r) hi → vma_base w = vma_base v → vma_end w = vma_end v →
  pages_agree pt (d ++ v :: r) →
  (∀ p, page_entry pt' p =
        if in_range (vma_base w) (vma_end w) (p * CITRA_PAGE_SIZE)
        then attr_page is_cached p (attr w (p * CITRA_PAGE_SIZE)) else page_entry pt p) →
  pages_agree pt' (d ++ w :: r).
Proof.
  intros Ht Hb He Hpa Hpt p x Hx. rewrite (attr_at_update _ _ _ _ _ _ _ Ht Hb He) in Hx.
  rewrite Hpt, Hb, He. destruct (in_range _ _ _); [by simplify_eq|]. by apply Hpa.
Qed.

Lemma pages_agree_ext pt l l' :
  (∀ a, attr_at l' a = attr_at l a) → pages_agree pt l → pages_agree pt l'.
Proof. intros E H p x Hx. apply H. by rewrite <- E. Qed.

Lemma tiles_update lo d v w r hi :
  tiles lo (d ++ v :: r) hi → vma_base w = vma_base v → vma_end w = vma_end v → vma_ok w →
  tiles lo (d ++ w :: r) hi.
Proof.
  intros Ht Hb He Hok. destruct (tiles_cons_inv _ _ _ _ _ _ Ht) as (Hd & _ & Hr & _).
  apply tiles_cons; [by rewrite Hb|done|by rewrite He].
Qed.

Lemma update_vma_spec vm d v r f :
  vma_map vm = d ++ v :: r → tiles 0 (d ++ v :: r) MAX_ADDRESS →
  pages_agree (page_table vm) (d ++ v :: r) →
  vma_base (f v) = vma_base v → vma_size (f v) = vma_size v → vma_ok (f v) →
  ∃ pt' d' v' r',
    update_vma is_cached vm (length d) f = Some (mkVM (d' ++ v' :: r') pt' (is_locked vm), length d') ∧
    tiles 0 (d' ++ v' :: r') MAX_ADDRESS ∧ pages_agree pt' (d' ++ v' :: r') ∧
    (∀ a, attr_at (d' ++ v' :: r') a =
          if in_range (vma_base v) (vma_end v) a then Some (attr (f v) a)
          else attr_at (d ++ v :: r) a) ∧
    (r' = r ∨ ∃ w, r = w :: r' ∧ mergeable (f v) w = true) ∧
    vma_base v' <= vma_base v ∧ vma_end v <= vma_end v' ∧
    (no_pair free_pair d → no_pair free_pair r → no_pair free_pair (d' ++ v' :: r')).
Proof.
  intros Em Ht Hpa Hb Hs Hok. unfold update_vma. rewrite Em, lookup_cut. simpl.
  destruct (tiles_cons_inv _ _ _ _ _ _ Ht) as (Hd & _ & Hr & H0 & _ & H1).
  assert (vma_end (f v) = vma_end v) as He by (unfold vma_end; lia).
  destruct (UpdatePageTableForVMA_spec (page_table vm) (f v) Hok) as (pt' & -> & Hpt'); [lia..|].
  simpl. rewrite insert_cut.
  destruct (MergeAdjacent_spec d (f v) r) as (d' & v' & r' & -> & Ht' & Ha & Hr' & _ & Hb' & He' & Hn).
  { by eapply tiles_update. }
  simpl. exists pt', d', v', r'. split_and!; auto; try lia.
  - apply (pages_agree_ext _ _ _ Ha). by eapply pages_agree_update.
  - intros a. rewrite Ha. by apply (attr_at_update 0 _ _ _ _ MAX_ADDRESS).
Qed.

(** ** Mapping *)

Lemma attr_free v a : vma_ok v → vma_type v = Free → attr v a = free_attr.
Proof. intros (_ & _ & _ & Hv) E. unfold attr. rewrite E in *. by destruct Hv as (-> & -> & _). Qed.

(** With no two free areas adjacent, a run of free addresses lies in one area. *)
Lemma free_run_in_one_area lo d v r hi a n :
  tiles lo (d ++ v :: r) hi → 0 <= lo → no_pair free_pair (d ++ v :: r) → vma_type v = Free →
  vma_base v <= a < vma_end v → 0 < n →
  (∀ x, a <= x < a + n → attr_at (d ++ v :: r) x = Some free_attr) → a + n <= vma_end v.
Proof.
  intros Ht Hlo Hnp Hv Ha Hn Hx. destruct (tiles_cons_inv _ _ _ _ _ _ Ht) as (_ & _ & Hr & ? & ? & ?).
  destruct (Z.le_gt_cases (a + n) (vma_end v)) as [|Hgt]; [done|]. exfalso.
  specialize (Hx (vma_end v) ltac:(lia)). rewrite (attr_at_cut _ _ _ _ _ _ _ Ht) in Hx by lia.
  destruct (Z.ltb_spec (vma_end v) (vma_base v)); [lia|].
  destruct (Z.ltb_spec (vma_end v) (vma_end v)); [lia|].
  apply no_pair_app_r in Hnp. destruct r as [|w r]; simpl in *; [done|].
  destruct Hr as (Hb & Hw & _), Hnp as (Hp & _). apply vma_ok_size in Hw.
  rewrite (proj2 (in_range_iff _ _ _)) in Hx by (unfold vma_end at 3; lia).
  unfold free_pair, is_free in Hp. rewrite bool_decide_true in Hp by done. simpl in Hp.
  apply bool_decide_eq_false in Hp. apply Hp. unfold attr, free_attr in Hx. by simplify_eq.
Qed.

Lemma set_size_id v : set_size v (vma_size v) = v.
Proof. by destruct v. Qed.

(** [CarveVMA] isolates the requested range of a free area. *)
Lemma CarveVMA_free d0 v r0 base size :
  tiles 0 (d0 ++ v :: r0) MAX_ADDRESS → no_pair free_pair (d0 ++ v :: r0) →
  base `mod` CITRA_PAGE_SIZE = 0 → size `mod` CITRA_PAGE_SIZE = 0 → 0 < size →
  vma_type v = Free → vma_base v <= base < vma_end v → base + size <= vma_end v →
  ∃ d u r, CarveVMA (d0 ++ v :: r0) base size = Some (d ++ u :: r, inr (length d)) ∧
    tiles 0 (d ++ u :: r) MAX_ADDRESS ∧
    (∀ a, attr_at (d ++ u :: r) a = attr_at (d0 ++ v :: r0) a) ∧
    no_pair free_pair d ∧ no_pair free_pair r ∧ vma_base u = base ∧ vma_size u = size.
Proof.
  intros Ht Hnp Hba Hsa Hs Hv Hb He. unfold CarveVMA. rewrite !page_aligned, Hba, Hsa.
  cbn [Z.eqb assert_ mbind option_bind]. rewrite (FindVMA_cut _ _ _ _ _ _ Ht Hb). simpl.
  destruct (Nat.eqb_spec (length d0) (length (d0 ++ v :: r0))) as [E|_].
  { rewrite length_app in E. simpl in E. lia. }
  rewrite lookup_cut. simpl. rewrite bool_decide_true by done. simpl.
  destruct (tiles_cons_inv _ _ _ _ _ _ Ht) as (_ & Hok & _ & ? & ? & ?).
  unfold vma_end in *. assert (MAX_ADDRESS < 2 ^ 32) by done.
  rewrite (u32_id (base - vma_base v)) by lia. rewrite (u32_id (base - vma_base v + size)) by lia.
  set (s := base - vma_base v) in *. assert (s `mod` CITRA_PAGE_SIZE = 0) as Hsm.
  { apply aligned_sub; [done|]. apply Hok. }
  destruct (Z.ltb_spec (vma_size v) (s + size)); [lia|].
  (* the upper cut *)
  set (v1 := set_size v (s + size)).
  assert (∃ r1, (if negb (s + size =? vma_size v)
                 then x ← SplitVMA (d0 ++ v :: r0) (length d0) (s + size); Some (fst x)
                 else Some (d0 ++ v :: r0)) = Some (d0 ++ v1 :: r1) ∧
    tiles 0 (d0 ++ v1 :: r1) MAX_ADDRESS ∧ no_pair free_pair r1 ∧
    (∀ a, attr_at (d0 ++ v1 :: r1) a = attr_at (d0 ++ v :: r0) a)) as (r1 & -> & Ht1 & Hr1 & Ha1).
  { pose proof (no_pair_app_r _ _ _ Hnp) as Hvr.
    destruct (Z.eqb_spec (s + size) (vma_size v)) as [Es|Hne]; simpl.
    - exists r0. subst v1. rewrite Es, set_size_id. split_and!; try done. by destruct Hvr.
    - exists (vma_tail v (s + size) :: r0). rewrite (SplitVMA_cut _ _ _ _ Ht) by lia. simpl.
      refine (conj eq_refl (conj _ (conj _ _))).
      + apply tiles_split; [done|lia|by apply aligned_add].
      + by apply (no_pair_retype v _ []).
      + intros a. apply attr_at_split. lia. }
  cbn [mbind option_bind]. pose proof (no_pair_app_l _ _ _ Hnp) as Hd0.
  destruct (Z.eqb_spec s 0) as [Es|Hne]; simpl.
  - exists d0, v1, r1. split_and!; try done; simpl; lia.
  - rewrite (SplitVMA_cut _ _ _ _ Ht1) by (simpl; lia). simpl.
    exists (d0 ++ [set_size v1 s]), (vma_tail v1 s), r1. rewrite <- app_assoc, length_app. simpl.
    rewrite Nat.add_1_r. split_and!; try done; simpl; try lia.
    + apply tiles_split; [done|simpl; lia|done].
    + intros a. rewrite attr_at_split by (simpl; lia). done.
    + rewrite no_pair_cut in Hnp. apply (no_pair_retype v); [done|]. apply Hnp.
Qed.

Lemma CarveVMA_error l base size :
  tiles 0 l MAX_ADDRESS →
  base `mod` CITRA_PAGE_SIZE = 0 → size `mod` CITRA_PAGE_SIZE = 0 →
  0 <= base → 0 < size → base + size < 2 ^ 32 →
  ~ (∀ x, base <= x < base + size → attr_at l x = Some free_attr) →
  CarveVMA l base size =
    Some (l, inl (if MAX_ADDRESS <=? base then ResultInvalidAddress else ResultInvalidAddressState)).
Proof.
  intros Ht Hba Hsa H0 Hs H32 Hnf. unfold CarveVMA. rewrite !page_aligned, Hba, Hsa.
  cbn [Z.eqb assert_ mbind option_bind].
  destruct (Z.leb_spec MAX_ADDRESS base) as [Hm|Hm].
  { unfold FindVMA. destruct (Z.leb_spec MAX_ADDRESS base); [|lia]. simpl. by rewrite Nat.eqb_refl. }
  destruct (tiles_find _ _ _ _ base Ht ltac:(lia)) as (d & v & r & -> & Hv).
  rewrite (FindVMA_cut _ _ _ _ _ _ Ht Hv). simpl.
  destruct (Nat.eqb_spec (length d) (length (d ++ v :: r))) as [E|_].
  { rewrite length_app in E. simpl in E. lia. }
  rewrite lookup_cut. simpl. case_bool_decide as Hf; [simpl|done].
  destruct (tiles_cons_inv _ _ _ _ _ _ Ht) as (_ & Hok & _ & ? & ? & ?).
  unfold vma_end in *. assert (MAX_ADDRESS < 2 ^ 32) by done.
  rewrite (u32_id (base - vma_base v)) by lia. rewrite u32_id by lia.
  destruct (Z.ltb_spec (vma_size v) (base - vma_base v + size)); [done|].
  exfalso. apply Hnf. intros x Hx. rewrite (attr_at_cut _ _ _ _ _ _ _ Ht) by lia.
  unfold vma_end. destruct (Z.ltb_spec x (vma_base v)); [lia|].
  destruct (Z.ltb_spec x (vma_base v + vma_size v)); [|lia]. by rewrite attr_free.
Qed.

(** ** Ranges of backed areas *)

#[local] Abbreviation all_backed := (Forall (λ v, vma_type v = BackingMemory)).

Lemma any_of_cut p d m r fuel :
  (length m <= fuel)%nat →
  any_of p fuel (d ++ m ++ r) (length d) (length d + length m) = Some (existsb p m).
Proof.
  revert d fuel. induction m as [|v m IH]; intros d fuel Hf; simpl in *.
  - rewrite Nat.add_0_r. destruct fuel; simpl; by rewrite Nat.eqb_refl.
  - destruct fuel as [|fuel]; [lia|]. simpl.
    destruct (Nat.eqb_spec (length d) (length d + S (length m))); [lia|].
    rewrite lookup_cut. simpl. destruct (p v); [done|].
    specialize (IH (d ++ [v]) fuel ltac:(lia)). rewrite length_app in IH. simpl in IH.
    rewrite <- app_assoc in IH. simpl in IH.
    replace (S (length d)) with (length d + 1)%nat by lia.
    by replace (length d + S (length m))%nat with (length d + 1 + length m)%nat by lia.
Qed.

(** The last area that begins before [te]. *)
Lemma tiles_find_end lo l hi te :
  tiles lo l hi → lo < te <= hi → ∃ l1 w l2, l = l1 ++ w :: l2 ∧ vma_base w < te <= vma_end w.
Proof.
  intros Ht Hte. destruct (tiles_find _ _ _ _ (te - 1) Ht ltac:(lia)) as (d & v & r & -> & ?).
  exists d, v, r. split; [done|]. lia.
Qed.

(** The areas that meet a range: [d] before it, [m] from the one that holds [target] to the last
    one that begins before its end, [r] after. *)
Lemma range_areas l target te :
  tiles 0 l MAX_ADDRESS → 0 <= target → target < te <= MAX_ADDRESS →
  ∃ d m r lo hi, l = d ++ m ++ r ∧ tiles 0 d lo ∧ tiles lo m hi ∧ tiles hi r MAX_ADDRESS ∧
    (∃ v m', m = v :: m' ∧ vma_base v <= target < vma_end v) ∧
    (∃ m' w, m = m' ++ [w] ∧ vma_base w < te <= vma_end w) ∧
    FindVMA l target = Some (length d) ∧ lower_bound te l = (length d + length m)%nat.
Proof.
  intros Ht H0 Hte. destruct (tiles_find _ _ _ _ target Ht ltac:(lia)) as (d & v & r0 & -> & Hv).
  pose proof (FindVMA_cut _ _ _ _ _ _ Ht Hv) as Hfind.
  pose proof Ht as (lo & Hd & Hvr)%tiles_app.
  assert (lo <= target) by (simpl in Hvr; lia).
  destruct (tiles_find_end _ _ _ te Hvr ltac:(lia)) as (m' & w & r & E & Hw).
  rewrite E in *. pose proof (lower_bound_inside known 0 (d ++ m') w r MAX_ADDRESS te) as Hl.
  rewrite <- app_assoc in Hl. specialize (Hl Ht Hw). rewrite Hl.
  rewrite (cons_middle w m' r), (app_assoc m') in *.
  pose proof Hvr as (hi & Hm & Hr)%tiles_app.
  exists d, (m' ++ [w]), r, lo, hi. split_and!; [done|done|done|done| | |done|].
  - destruct m' as [|x m']; simplify_eq/=; eauto.
  - by exists m', w.
  - rewrite !length_app. simpl. lia.
Qed.

Definition range_backed (l : list VirtualMemoryArea) (a n : Z) : Prop :=
  ∀ x, a <= x < a + n → a_type <$> attr_at l x = Some BackingMemory.

Lemma attr_at_middle lo d m r hi MAX x :
  0 <= lo → tiles 0 d lo → tiles lo m hi → tiles hi r MAX → lo <= x < hi →
  attr_at (d ++ m ++ r) x = attr_at m x.
Proof.
  intros Hlo Hd Hm Hr Hx. rewrite (attr_at_app _ _ _ _ _ _ Hd) by lia.
  destruct (Z.ltb_spec x lo); [lia|]. rewrite (attr_at_app _ _ _ _ _ _ Hm) by lia.
  by destruct (Z.ltb_spec x hi); [|lia].
Qed.

Lemma attr_at_of_area lo d v r hi x :
  tiles lo (d ++ v :: r) hi → 0 <= lo → vma_base v <= x < vma_end v →
  attr_at (d ++ v :: r) x = Some (attr v x).
Proof.
  intros Ht Hlo Hx. destruct (tiles_cons_inv _ _ _ _ _ _ Ht) as (_ & _ & _ & ? & _).
  rewrite (attr_at_cut _ _ _ _ _ _ _ Ht) by lia. destruct (Z.ltb_spec x (vma_base v)); [lia|].
  by destruct (Z.ltb_spec x (vma_end v)); [|lia].
Qed.

(** A property of the view on a whole range. *)
Definition range_all (q : Attr → bool) (l : list VirtualMemoryArea) (a n : Z) : Prop :=
  ∀ x, a <= x < a + n → q <$> attr_at l x = Some true.

Lemma attr_at_forall q lo m hi x :
  0 <= lo → tiles lo m hi → (∀ v, v ∈ m → q (attr v x) = true) → lo <= x < hi →
  q <$> attr_at m x = Some true.
Proof.
  intros Hlo Hm Hq Hx. destruct (tiles_find _ _ _ _ _ Hm Hx) as (d & v & r & -> & Hv).
  rewrite (attr_at_of_area _ _ _ _ _ _ Hm) by done. simpl. f_equal. apply Hq. apply elem_of_app. right. by left.
Qed.

(** Every area of the middle part meets the range. *)
Lemma area_meets_range m lo hi target te u :
  tiles lo m hi →
  (∃ v m', m = v :: m' ∧ vma_base v <= target < vma_end v) →
  (∃ m' w, m = m' ++ [w] ∧ vma_base w < te <= vma_end w) →
  u ∈ m → vma_base u < te ∧ target < vma_end u.
Proof.
  intros Hm (v & m1 & E1 & Hv) (m2 & w & E2 & Hw) (l1 & l2 & E)%list_elem_of_split.
  pose proof Hm as Hm'. rewrite E in Hm'.
  destruct (tiles_cons_inv _ _ _ _ _ _ Hm') as (_ & _ & _ & ? & ? & ?). split.
  - destruct l2 as [|y l2 _] using rev_ind.
    + rewrite E2 in E. apply app_inj_tail in E as [_ ->]. lia.
    + rewrite E2, app_comm_cons, app_assoc in E. apply app_inj_tail in E as [-> ->].
      rewrite E2 in Hm. rewrite <- app_assoc in Hm. simpl in Hm.
      destruct (tiles_cons_inv _ _ _ _ _ _ Hm) as (_ & _ & Hq & _).
      apply tiles_app in Hq as (? & Hq%tiles_le & <- & _). lia.
  - destruct l1 as [|y l1]; simplify_eq/=; [lia|].
    destruct Hm' as (_ & _ & (? & Hq%tiles_le & <- & _)%tiles_app). lia.
Qed.

(** A test of the areas that meet the range is a test of its addresses. *)
Lemma range_all_areas p q d m r lo hi target te :
  (∀ v a, p v = negb (q (attr v a))) →
  tiles 0 d lo → tiles lo m hi → tiles hi r MAX_ADDRESS → target < te →
  (∃ v m', m = v :: m' ∧ vma_base v <= target < vma_end v) →
  (∃ m' w, m = m' ++ [w] ∧ vma_base w < te <= vma_end w) →
  existsb p m = false ↔ range_all q (d ++ m ++ r) target (te - target).
Proof.
  intros Hpq Hd Hm Hr Hlt Hfirst Hlast. pose proof (tiles_le _ _ _ _ Hd) as H0. split.
  - intros Hf x Hx. destruct Hfirst as (v & m1 & E1 & Hv), Hlast as (m2 & w & E2 & Hw).
    assert (lo = vma_base v) as Elo by (rewrite E1 in Hm; simpl in Hm; lia).
    assert (hi = vma_end w) as Ehi.
    { rewrite E2 in Hm. apply tiles_app in Hm as (? & _ & _ & _ & Hm). simpl in Hm. lia. }
    erewrite attr_at_middle by (done || lia). apply (attr_at_forall _ lo _ hi); [lia|done| |lia].
    intros u Hu. specialize (Hpq u x). destruct (q (attr u x)); [done|]. exfalso.
    apply not_true_iff_false in Hf. apply Hf. apply existsb_exists. exists u.
    split; [by apply list_elem_of_In|done].
  - intros Hrb. apply not_true_iff_false. intros (u & Hu & Hf)%existsb_exists.
    apply list_elem_of_In in Hu.
    destruct (area_meets_range _ _ _ _ _ _ Hm Hfirst Hlast Hu) as [H1 H2].
    apply list_elem_of_split in Hu as (l1 & l2 & E). rewrite E in Hm.
    destruct (tiles_cons_inv _ _ _ _ _ _ Hm) as (_ & _ & _ & ? & ? & ?).
    specialize (Hrb (Z.max target (vma_base u)) ltac:(lia)). rewrite E in Hrb.
    erewrite attr_at_middle in Hrb; [|done|exact Hd|exact Hm|exact Hr|lia].
    rewrite (attr_at_of_area _ _ _ _ _ _ Hm) in Hrb by lia. simpl in Hrb.
    rewrite (Hpq u (Z.max target (vma_base u))) in Hf. injection Hrb as Hq. by rewrite Hq in Hf.
Qed.

Lemma range_backed_all l a n :
  range_backed l a n ↔ range_all (λ x, bool_decide (a_type x = BackingMemory)) l a n.
Proof.
  split; intros H x Hx; specialize (H x Hx); destruct (attr_at l x) as [[[] ? ? ?]|]; by simplify_eq/=.
Qed.

Lemma free_not_backed v a :
  bool_decide (vma_type v = Free) = negb (bool_decide (a_type (attr v a) = BackingMemory)).
Proof. simpl. by destruct (vma_type v). Qed.

Lemma no_pair_backed d v r :
  vma_type v = BackingMemory → no_pair free_pair d → no_pair free_pair r →
  no_pair free_pair (d ++ v :: r).
Proof.
  intros Ev Hd Hr. assert (is_free v = false) as Hf by (unfold is_free; by rewrite Ev).
  induction d as [|x d IH]; simpl in *.
  - split; [|done]. destruct r; [done|]. unfold free_pair. by rewrite Hf.
  - destruct Hd as [Hx Hd]. split; [|by apply IH]. destruct d; simpl; [|done].
    unfold free_pair. by rewrite Hf, andb_false_r.
Qed.

Lemma no_pair_all_backed m r : all_backed m → no_pair free_pair r → no_pair free_pair (m ++ r).
Proof.
  intros Hm Hr. induction Hm as [|v m Hv Hm IH]; [done|]. simpl app. by apply (no_pair_backed []).
Qed.

(** The two cuts of [CarveVMARange]. *)
Lemma carve_begin d v m1 r lo hi target te w m2 :
  tiles 0 d lo → tiles lo (v :: m1) hi → tiles hi r MAX_ADDRESS → v :: m1 = m2 ++ [w] →
  vma_base v <= target < vma_end v → vma_base w < te <= vma_end w → target < te →
  target `mod` CITRA_PAGE_SIZE = 0 → all_backed (v :: m1) → no_pair free_pair d →
  ∃ d' m' w',
    (if negb (target =? vma_base v)
     then SplitVMA (d ++ (v :: m1) ++ r) (length d) (u32 (target - vma_base v))
     else Some (d ++ (v :: m1) ++ r, length d)) = Some (d' ++ (m' ++ [w']) ++ r, length d') ∧
    tiles 0 d' target ∧ tiles target (m' ++ [w']) hi ∧ all_backed (m' ++ [w']) ∧
    no_pair free_pair d' ∧ vma_base w' < te <= vma_end w' ∧ vma_end w' = hi ∧
    (∀ a, attr_at (d' ++ (m' ++ [w']) ++ r) a = attr_at (d ++ (v :: m1) ++ r) a).
Proof.
  intros Hd Hm Hr E Hv Hw Hlt Hal Hb Hnp.
  assert (tiles 0 (d ++ v :: m1 ++ r) MAX_ADDRESS) as Ht.
  { apply tiles_app. exists lo. split; [done|]. apply (tiles_app _ lo (v :: m1)). eauto. }
  destruct (tiles_cons_inv _ _ _ _ _ _ Ht) as (_ & Hok & _ & ? & ? & ?).
  assert (vma_base v = lo) as Elo by apply Hm. assert (vma_end w = hi) as Ehi.
  { rewrite E in Hm. apply tiles_app in Hm as (? & _ & _ & _ & Hm). done. }
  destruct (Z.eqb_spec target (vma_base v)) as [Et|Hne]; simpl negb; cbv iota.
  { exists d, m2, w. rewrite <- E. split_and!; try done; congruence || lia. }
  assert (MAX_ADDRESS < 2 ^ 32) by done. unfold vma_end in *.
  rewrite u32_id by lia. set (off := target - vma_base v) in *. simpl app.
  rewrite (SplitVMA_cut _ _ _ _ Ht) by lia.
  assert (off `mod` CITRA_PAGE_SIZE = 0) as Hoff by (apply aligned_sub; [done|apply Hok]).
  assert (∃ m' w', vma_tail v off :: m1 = m' ++ [w'] ∧ vma_base w' < te ∧ te <= vma_end w' ∧
            vma_end w' = hi) as (m' & w' & E' & ? & ? & ?).
  { destruct m2 as [|x m2]; simplify_eq/=.
    - exists [], (vma_tail w off). unfold vma_end. simpl. split_and!; [done|lia..].
    - exists (vma_tail x off :: m2), w. unfold vma_end. split_and!; [done|lia..]. }
  pose proof (tiles_split _ _ _ _ _ off Ht ltac:(lia) Hoff) as Ht'.
  rewrite cons_middle, app_assoc in Ht'. inversion_clear Hb.
  exists (d ++ [set_size v off]), m', w'. rewrite <- E'. rewrite length_app, <- app_assoc. simpl.
  rewrite Nat.add_1_r. apply tiles_app in Ht' as (t & Ht1 & Ht2).
  assert (t = target) as -> by (destruct Ht2 as (<- & _); simpl; lia).
  apply (tiles_app _ _ (vma_tail v off :: m1)) in Ht2 as (h & Ht2 & Ht3).
  assert (h = hi) as ->.
  { rewrite E' in Ht2. apply tiles_app in Ht2 as (? & _ & _ & _ & Ht2). simpl in Ht2.
    unfold vma_end in *. lia. }
  split; [done|]. split; [done|]. split; [done|]. split; [by constructor|].
  split; [by apply no_pair_backed|]. split; [done|]. split; [done|].
  intros a. apply attr_at_split. lia.
Qed.

Lemma carve_end d m w r hi te :
  tiles 0 (d ++ m ++ [w]) hi → tiles hi r MAX_ADDRESS → vma_base w < te <= vma_end w → vma_end w = hi →
  te `mod` CITRA_PAGE_SIZE = 0 → vma_type w = BackingMemory → no_pair free_pair r →
  ∃ end_vma w' r', FindVMA (d ++ (m ++ [w]) ++ r) te = Some end_vma ∧
    (match (d ++ (m ++ [w]) ++ r) !! end_vma with
     | None => Some (d ++ (m ++ [w]) ++ r, inr (length d))
     | Some e =>
         if negb (te =? vma_base e)
         then x ← SplitVMA (d ++ (m ++ [w]) ++ r) end_vma (u32 (te - vma_base e));
              Some (fst x, inr (length d))
         else Some (d ++ (m ++ [w]) ++ r, inr (length d))
     end) = Some (d ++ (m ++ [w']) ++ r', inr (length d) : ResultVal nat) ∧
    tiles 0 (d ++ m ++ [w']) te ∧ tiles te r' MAX_ADDRESS ∧ vma_type w' = BackingMemory ∧
    no_pair free_pair r' ∧
    (∀ a, attr_at (d ++ (m ++ [w']) ++ r') a = attr_at (d ++ (m ++ [w]) ++ r) a).
Proof.
  intros Hl Hr Hw Ehi Hal Hb Hnp.
  assert (tiles 0 ((d ++ m) ++ w :: r) MAX_ADDRESS) as Ht.
  { rewrite cons_middle, app_assoc, <- (app_assoc d). apply tiles_app. eauto. }
  destruct (tiles_cons_inv _ _ _ _ _ _ Ht) as (Hdm & Hok & _ & ? & ? & ?).
  assert (MAX_ADDRESS < 2 ^ 32) by done.
  replace (d ++ (m ++ [w]) ++ r) with ((d ++ m) ++ w :: r) by (by rewrite <- !app_assoc).
  destruct (decide (te = vma_end w)) as [Et|Hne].
  - (* the range ends with the area: no cut *)
    assert (te = hi) as -> by congruence.
    destruct r as [|e r].
    + simpl in Hr. exists (length ((d ++ m) ++ [w])), w, []. unfold FindVMA.
      destruct (Z.leb_spec MAX_ADDRESS hi); [|lia]. split; [done|].
      rewrite lookup_ge_None_2 by lia. rewrite <- !app_assoc in *. split_and!; try done.
    + exists (length ((d ++ m) ++ [w])), w, (e :: r). rewrite cons_middle, app_assoc in *.
      destruct Hr as (He & Heok & Hr). apply vma_ok_size in Heok as ?.
      rewrite (FindVMA_cut known 0) by (unfold vma_end; try done; lia). split; [done|].
      rewrite lookup_cut, He, Z.eqb_refl. simpl. rewrite <- !app_assoc in *. split_and!; try done; apply Hnp.
  - (* the range ends inside the area *)
    exists (length (d ++ m)), (set_size w (te - vma_base w)), (vma_tail w (te - vma_base w) :: r).
    assert ((te - vma_base w) `mod` CITRA_PAGE_SIZE = 0) as Hoff
      by (apply aligned_sub; [done|apply Hok]).
    rewrite (FindVMA_cut _ _ _ _ _ _ Ht) by lia. split; [done|]. rewrite lookup_cut.
    destruct (Z.eqb_spec te (vma_base w)); [lia|]. simpl. unfold vma_end in *.
    rewrite u32_id by lia. rewrite (SplitVMA_cut _ _ _ _ Ht) by lia. simpl.
    pose proof (tiles_split _ _ _ _ _ (te - vma_base w) Ht ltac:(lia) Hoff) as Ht'.
    rewrite cons_middle, app_assoc in Ht'. apply tiles_app in Ht' as (t & Ht1 & Ht2).
    assert (t = te) as -> by (destruct Ht2 as (<- & _); simpl; lia).
    rewrite <- !app_assoc in *. simpl in *.
    refine (conj eq_refl (conj Ht1 (conj Ht2 (conj Hb (conj _ _))))).
    + by apply (no_pair_backed [] (vma_tail w (te - vma_base w)) r).
    + intros a. rewrite !(app_assoc d). apply attr_at_split. lia.
Qed.

Lemma aligned_checks target size :
  target `mod` CITRA_PAGE_SIZE = 0 → size `mod` CITRA_PAGE_SIZE = 0 →
  (Z.land size CITRA_PAGE_MASK =? 0) = true ∧ (Z.land target CITRA_PAGE_MASK =? 0) = true.
Proof. intros Ht Hs. by rewrite !page_aligned, Ht, Hs. Qed.

(** [CarveVMARange] on a range of the address space: an error that changes nothing when an
    address of the range is free, and otherwise a cut at both ends of the range. *)
Lemma CarveVMARange_spec l target size :
  tiles 0 l MAX_ADDRESS → no_pair free_pair l →
  target `mod` CITRA_PAGE_SIZE = 0 → size `mod` CITRA_PAGE_SIZE = 0 →
  0 <= target → 0 < size → target + size <= MAX_ADDRESS →
  (~ range_backed l target size ∧ CarveVMARange l target size = Some (l, inl ResultInvalidAddressState)) ∨
  (range_backed l target size ∧
   ∃ d m r, CarveVMARange l target size = Some (d ++ m ++ r, inr (length d)) ∧
     tiles 0 d target ∧ tiles target m (target + size) ∧ tiles (target + size) r MAX_ADDRESS ∧
     all_backed m ∧ no_pair free_pair d ∧ no_pair free_pair r ∧
     (∀ a, attr_at (d ++ m ++ r) a = attr_at l a)).
Proof.
  intros Ht Hnp Hta Hsa H0 Hs Hmax. unfold CarveVMARange.
  destruct (aligned_checks _ _ Hta Hsa) as [-> ->]. assert (MAX_ADDRESS < 2 ^ 32) by done.
  rewrite (u32_id (target + size)) by lia. set (te := target + size) in *.
  destruct (Z.leb_spec target te); [|lia]. destruct (Z.leb_spec te MAX_ADDRESS); [|lia].
  destruct (Z.ltb_spec 0 size); [|lia]. cbn [assert_ mbind option_bind].
  destruct (range_areas l target te Ht H0 ltac:(lia))
    as (d & m & r & lo & hi & -> & Hd & Hm & Hr & (v & m1 & Ev & Hv) & (m2 & w & Ew & Hw) & -> & ->).
  pose proof (range_all_areas (λ v, bool_decide (vma_type v = Free))
                (λ x, bool_decide (a_type x = BackingMemory)) d m r lo hi target te
                free_not_backed Hd Hm Hr ltac:(lia) ltac:(by eauto) ltac:(by eauto)) as Hrb.
  rewrite <- range_backed_all in Hrb. replace (te - target) with size in Hrb by lia.
  cbn [mbind option_bind]. rewrite any_of_cut by (rewrite !length_app; lia).
  cbn [mbind option_bind]. destruct (existsb _ m) eqn:Ex.
  { left. split; [|done]. intros Hb%Hrb. done. }
  right. split; [by apply Hrb|].
  assert (all_backed m) as Hbk.
  { apply Forall_forall. intros u Hu. destruct (vma_type u) eqn:Eu; [|done]. exfalso.
    apply not_true_iff_false in Ex. apply Ex, existsb_exists. exists u.
    split; [by apply list_elem_of_In|]. by rewrite bool_decide_true. }
  pose proof (no_pair_app_l _ _ _ Hnp) as Hnd. pose proof (no_pair_app_r _ _ _ Hnp) as Hnr.
  apply no_pair_app_r in Hnr. subst m. simpl app. rewrite lookup_cut. cbn [mbind option_bind].
  destruct (carve_begin d v m1 r lo hi target te w m2 Hd Hm Hr Ew Hv Hw ltac:(lia) Hta Hbk Hnd)
    as (d' & m' & w' & E & Hd' & Hm' & Hb' & Hnd' & Hw' & Ehi & Ha').
  simpl app in E. rewrite E. cbn [mbind option_bind].
  apply Forall_app in Hb' as [Hb1 Hb2]. inversion_clear Hb2.
  destruct (carve_end d' m' w' r hi te) as (ev & w2 & r2 & -> & E2 & Ht2 & Hr2 & Hw2 & Hnr2 & Ha2);
    try done; [apply tiles_app; eauto|by apply aligned_add|].
  cbn [mbind option_bind]. exists d', (m' ++ [w2]), r2.
  apply tiles_app in Ht2 as (t & Hd2 & Hm2).
  assert (t = target) as ->.
  { by eapply tiles_end_unique. }
  split; [exact E2|]. split; [done|]. split; [done|]. split; [done|].
  split; [apply Forall_app; split; [done|by constructor]|]. split; [done|]. split; [done|].
  intros a. by rewrite Ha2, Ha'.
Qed.

(** ** The loop over a carved range

    [g] is the change of one area, [G] what it means for the view.  An area that already looks
    like a changed one may be swallowed before the loop reaches it; [G] leaves it alone. *)

Record vma_change (g : VirtualMemoryArea → VirtualMemoryArea) (G : Attr → Attr) : Prop := {
  change_base v : vma_base (g v) = vma_base v;
  change_size v : vma_size (g v) = vma_size v;
  change_ok v : vma_ok v → vma_type v = BackingMemory → vma_ok (g v);
  change_attr v a : vma_type v = BackingMemory → attr (g v) a = G (attr v a);
  change_merged v w a : vma_type v = BackingMemory → vma_type w = BackingMemory →
    mergeable (g v) w = true → G (attr w a) = attr w a }.

Definition changed_view (G : Attr → Attr) (lo hi : Z) (l : list VirtualMemoryArea) (a : Z)
  : option Attr := if in_range lo hi a then G <$> attr_at l a else attr_at l a.

Lemma range_loop_stop f fuel vm d r pos te :
  vma_map vm = d ++ r → tiles pos r MAX_ADDRESS → te <= pos →
  range_loop f fuel vm (length d) te = Some vm.
Proof.
  intros Em Hr Hte.
  assert (match vma_map vm !! length d with
          | None => True | Some v => (te <=? vma_base v) = true end) as Hstop.
  { rewrite Em. destruct r as [|v r]; [by rewrite lookup_ge_None_2 by (rewrite app_nil_r; lia)|].
    rewrite lookup_cut. destruct Hr as (-> & _). by apply Z.leb_le. }
  destruct fuel; simpl; destruct (vma_map vm !! length d); try done; by rewrite Hstop.
Qed.

Lemma vma_ok_nonempty v m lo r hi : tiles lo ((v :: m) ++ r) hi → vma_base v < vma_end v.
Proof. simpl. intros (_ & Hok%vma_ok_size & _). unfold vma_end. lia. Qed.

Section RangeLoop.
Context (g : VirtualMemoryArea → VirtualMemoryArea) (G : Attr → Attr) (Hg : vma_change g G).
Context (f : VMManager → nat → option (VMManager * nat)).
Context (Hf : ∀ vm i, is_locked vm = false → f vm i = update_vma is_cached vm i g).

(** What one round of the loop leaves: [m] are the areas still to visit, and they end at [te]
    unless none is left. *)
Lemma range_loop_round vm d v m r pos te :
  vma_map vm = d ++ (v :: m) ++ r → is_locked vm = false →
  tiles 0 d pos → tiles pos (v :: m) te → tiles te r MAX_ADDRESS → all_backed (v :: m) →
  pages_agree (page_table vm) (vma_map vm) → no_pair free_pair d → no_pair free_pair r →
  ∃ vm' d' m' r' pos' te', f vm (length d) = Some (vm', pred (length d')) ∧ d' ≠ [] ∧
    vma_map vm' = d' ++ m' ++ r' ∧ is_locked vm' = false ∧ (length m' <= length m)%nat ∧
    tiles 0 d' pos' ∧ tiles pos' m' te' ∧ tiles te' r' MAX_ADDRESS ∧ all_backed m' ∧
    pages_agree (page_table vm') (vma_map vm') ∧ no_pair free_pair (d' ++ m' ++ r') ∧
    pos <= pos' ∧ (te' = te ∨ (te <= pos' ∧ m' = [])) ∧
    (∀ a, attr_at (vma_map vm') a = changed_view G pos (Z.min pos' te) (vma_map vm) a).
Proof.
  intros Em Hl Hd Hm Hr Hb Hpa Hnd Hnr.
  assert (tiles 0 (d ++ v :: m ++ r) MAX_ADDRESS) as Ht.
  { apply tiles_app. exists pos. split; [done|]. apply (tiles_app _ pos (v :: m)). eauto. }
  inversion_clear Hb as [|? ? Hv Hbm].
  destruct (tiles_cons_inv _ _ _ _ _ _ Ht) as (_ & Hok & Hmr & H0 & H1 & H2).
  assert (vma_base v = pos) as Ev by apply Hm.
  assert (no_pair free_pair (m ++ r)) as Hnmr by by apply no_pair_all_backed.
  simpl app in Em. rewrite Em in Hpa.
  destruct (update_vma_spec vm d v (m ++ r) g Em Ht Hpa (change_base _ _ Hg v) (change_size _ _ Hg v)
              (change_ok _ _ Hg v Hok Hv))
    as (pt' & d' & v' & r' & Hup & Ht' & Hpa' & Ha & Hr' & Hb' & He' & Hnp').
  specialize (Hnp' Hnd Hnmr). rewrite (Hf _ _ Hl), Hup.
  destruct (tiles_cons_inv _ _ _ _ _ _ Ht') as (Hd' & Hok' & Htr' & _ & _ & Hmx).
  assert (tiles 0 (d' ++ [v']) (vma_end v')) as Hd2 by (apply tiles_cons; done).
  assert (∀ m' r'', r' = m' ++ r'' → (d' ++ [v']) ++ m' ++ r'' = d' ++ v' :: r') as Happ.
  { intros m' r'' ->. by rewrite <- app_assoc. }
  assert (vma_end v <= te) as Hve by (destruct Hm as (_ & _ & Hm); by apply tiles_le in Hm).
  (* what is left of the range *)
  assert (∃ m' r'' te', r' = m' ++ r'' ∧ (length m' <= length m)%nat ∧ all_backed m' ∧
            tiles (vma_end v') m' te' ∧ tiles te' r'' MAX_ADDRESS ∧
            (te' = te ∨ (te <= vma_end v' ∧ m' = [])) ∧
            (∀ a, vma_end v <= a < Z.min (vma_end v') te →
                  G <$> attr_at (d ++ v :: m ++ r) a = attr_at (d ++ v :: m ++ r) a))
    as (m' & r'' & te' & Er & Hlen & Hbm' & Hm' & Hr'' & Hte' & Hsw).
  { clear Hup Ha Hpa' Hf Em. destruct Hr' as [->|(w & Ew & Hmw)].
    - assert (vma_end v' = vma_end v) as Ee by (by eapply tiles_start_unique).
      rewrite Ee in *. destruct Hm as (_ & _ & Hm). exists m, r, te. split_and!; auto. lia.
    - destruct m as [|w' m]; simplify_eq/=.
      + destruct Hm as (_ & _ & Hm). destruct Hmr as (Hbw & Hokw%vma_ok_size & Htw).
        assert (vma_end v' = vma_end w) as Ee by (by eapply tiles_start_unique).
        unfold vma_end in Ee at 2. exists [], r', (vma_end v').
        split_and!; auto; [done|right; split; [lia|done]|lia].
      + destruct Hmr as (Hbw & Hokw & Htw). inversion_clear Hbm as [|? ? Hw Hbm'].
        destruct Hm as (_ & _ & _ & _ & Hm).
        assert (vma_end v' = vma_end w) as Ee by (by eapply tiles_start_unique).
        exists m, r, te. split_and!; auto; [by rewrite Ee|]. intros a Hax.
        assert (attr_at (d ++ v :: w :: m ++ r) a = Some (attr w a)) as ->.
        { rewrite (cons_middle v), app_assoc. rewrite (cons_middle v), app_assoc in Ht.
          apply (attr_at_of_area 0 _ _ _ MAX_ADDRESS); [done|lia|lia]. }
        simpl. f_equal. by apply (change_merged _ _ Hg v). }
  exists (mkVM (d' ++ v' :: r') pt' (is_locked vm)), (d' ++ [v']), m', r'', (vma_end v'), te'.
  rewrite Em. simpl vma_map. simpl page_table. simpl is_locked. rewrite (Happ _ _ Er), length_app.
  simpl. rewrite Nat.add_1_r. simpl.
  split_and!; try done; [by destruct d'|lia|].
  intros a. rewrite Ha. unfold changed_view. rewrite Ev in *.
  destruct (in_range pos (vma_end v) a) eqn:E1;
    destruct (in_range pos (Z.min (vma_end v') te) a) eqn:E2;
    rewrite ?in_range_iff, ?in_range_false in *; try lia; try done.
  - rewrite (attr_at_of_area _ _ _ _ _ _ Ht) by lia. simpl. by rewrite (change_attr _ _ Hg) by done.
  - symmetry. apply Hsw. lia.
Qed.

Lemma changed_view_split p q te l l1 a :
  p <= q → (∀ a, attr_at l1 a = changed_view G p (Z.min q te) l a) →
  changed_view G (Z.min q te) te l1 a = changed_view G p te l a.
Proof.
  intros Hpq E. unfold changed_view in *. rewrite E.
  destruct (in_range p te a) eqn:E1; destruct (in_range (Z.min q te) te a) eqn:E2;
    destruct (in_range p (Z.min q te) a) eqn:E3;
    rewrite ?in_range_iff, ?in_range_false in *; try lia; done.
Qed.

Lemma range_loop_spec fuel vm d m r pos te :
  (length m <= fuel)%nat → vma_map vm = d ++ m ++ r → is_locked vm = false →
  tiles 0 d pos → tiles pos m te → tiles te r MAX_ADDRESS → all_backed m →
  pages_agree (page_table vm) (vma_map vm) → no_pair free_pair d → no_pair free_pair r →
  (m = [] → no_pair free_pair (d ++ r)) →
  ∃ vm', range_loop f fuel vm (length d) te = Some vm' ∧ is_locked vm' = false ∧
    vm_inv is_cached known vm' ∧
    (∀ a, attr_at (vma_map vm') a = changed_view G pos te (vma_map vm) a).
Proof.
  revert vm d m r pos. induction fuel as [|fuel IH];
    intros vm d m r pos Hlen Em Hl Hd Hm Hr Hb Hpa Hnd Hnr Hn; (destruct m as [|v m]; [clear Hb|]).
  1,3: simpl in Hm; subst te; exists vm; rewrite (range_loop_stop _ _ _ _ _ _ _ Em Hr) by lia;
    split_and!; try done;
    [split_and!; [rewrite Em; apply tiles_app; eauto|rewrite Em; by apply Hn|done]|
     intros a; unfold changed_view; by rewrite (proj2 (in_range_false _ _ _)) by lia].
  { simpl in Hlen. lia. }
  destruct (range_loop_round vm d v m r pos te)
    as (vm1 & d1 & m1 & r1 & p1 & te1 & E & Hne & Em1 & Hl1 & Hlen1 & Hd1 & Hm1 & Hr1 & Hb1 & Hpa1 &
        Hn1 & Hpos & Hcase & Hview); try done.
  simpl range_loop. rewrite Em. simpl app. rewrite lookup_cut.
  assert (vma_base v < te) as Hlt.
  { destruct Hm as (Hbv & Hok & Hm). apply tiles_le in Hm. apply vma_ok_size in Hok.
    unfold vma_end in Hm. lia. }
  destruct (Z.leb_spec te (vma_base v)); [lia|]. rewrite E. cbn [mbind option_bind].
  assert (S (pred (length d1)) = length d1) as -> by (destruct d1; simpl; [done|lia]).
  assert (vma_base v = pos) by apply Hm.
  destruct Hcase as [->|[Hte ->]].
  - pose proof (tiles_le _ _ _ _ Hm1).
    destruct (IH vm1 d1 m1 r1 p1) as (vm' & E' & Hl' & Hinv & Hv'); try done.
    + simpl in Hlen. lia.
    + by eapply no_pair_app_l.
    + by apply no_pair_app_r, no_pair_app_r in Hn1.
    + by intros ->.
    + exists vm'. split_and!; try done; try apply Hinv. intros a. rewrite Hv'.
      change (d ++ v :: m ++ r) with (d ++ (v :: m) ++ r). rewrite <- Em.
      replace p1 with (Z.min p1 te) at 1 by lia. by apply changed_view_split.
  - simpl in Em1, Hm1. subst te1. exists vm1.
    rewrite (range_loop_stop _ _ _ _ _ _ _ Em1 Hr1) by lia. split_and!; try done.
    + split_and!; [rewrite Em1; apply tiles_app; eauto|by rewrite Em1|done].
    + intros a. rewrite Hview, Em. by replace (Z.min p1 te) with te by lia.
Qed.

End RangeLoop.

Lemma vma_change_unmap : vma_change unmap_vma (λ _, free_attr).
Proof.
  split; try done.
  - intros v (? & ? & ? & _) _. split_and!; done.
  - intros v w a _ Hw (_ & _ & Et & _)%mergeable_spec. simpl in Et. congruence.
Qed.

Definition set_state (new_state : MemoryState) (new_perms : Z) (x : Attr) : Attr :=
  mkAttr (a_type x) new_perms new_state (a_ref x).
Definition set_perms (new_perms : Z) (x : Attr) : Attr :=
  mkAttr (a_type x) new_perms (a_state x) (a_ref x).

Lemma vma_change_state s p : vma_change (change_state_vma s p) (set_state s p).
Proof.
  split; try done.
  - intros v (? & ? & ? & H) E. rewrite E in H. split_and!; try done. simpl. by rewrite E.
  - intros v w a Hv Hw (Ep & Es & _)%mergeable_spec. simpl in Ep, Es. unfold set_state, attr.
    simpl. by rewrite Ep, Es.
Qed.

Lemma vma_change_perms p : vma_change (reprotect_vma p) (set_perms p).
Proof.
  split; try done.
  - intros v (? & ? & ? & H) E. rewrite E in H. split_and!; try done. simpl. by rewrite E.
  - intros v w a Hv Hw (Ep & Es & _)%mergeable_spec. simpl in Ep, Es. unfold set_perms, attr.
    simpl. by rewrite Ep.
Qed.

End SplitMerge.

(** ** The operations and the view *)

Section Theorems.
Context (is_cached : Z → bool) (known : BackingMem → Prop) (Hsep : blocks_separate known).
#[local] Abbreviation vm_inv := (vm_inv is_cached known).

(** A page-aligned range of the address space. *)
Definition valid_range (target size : Z) : Prop :=
  target `mod` CITRA_PAGE_SIZE = 0 ∧ size `mod` CITRA_PAGE_SIZE = 0 ∧ 0 <= target ∧ 0 < size ∧
  target + size <= MAX_ADDRESS.

Definition range_free (l : list VirtualMemoryArea) (a n : Z) : Prop :=
  ∀ x, a <= x < a + n → attr_at l x = Some free_attr.

Definition mapped_view (l : list VirtualMemoryArea) (target size : Z) (m : MemoryRef)
    (state : MemoryState) (a : Z) : option Attr :=
  if in_range target (target + size) a
  then Some (mkAttr BackingMemory PermReadWrite state (ref_shift m (a - target)))
  else attr_at l a.

Lemma backed_GetPtr m n : 0 <= n → backed known m n → (GetPtr m =? 0) = false.
Proof. intros Hn [Hm _]. apply Z.eqb_neq. pose proof (GetSize_holds m n Hn Hm). lia. Qed.

(** The iterator that [MapBackingMemory] returns points to an area that covers the range, and more
    when the new area was merged with a neighbour. *)
Lemma MapBackingMemory_area vm target m size state :
  vm_inv vm → is_locked vm = false → valid_range target size → backed known m size →
  range_free (vma_map vm) target size →
  ∃ vm' d v r, MapBackingMemory is_cached vm target m size state = Some (vm', inr (length d)) ∧
    vma_map vm' = d ++ v :: r ∧ vma_base v <= target ∧ target + size <= vma_end v ∧
    vm_inv vm' ∧ is_locked vm' = false ∧
    ∀ a, attr_at (vma_map vm') a = mapped_view (vma_map vm) target size m state a.
Proof.
  intros (Ht & Hnp & Hpa) Hl (Hta & Hsa & H0 & Hs & Hmax) Hm Hfree.
  unfold MapBackingMemory. rewrite Hl, (backed_GetPtr m size) by (done || lia). simpl.
  destruct (tiles_find _ _ _ _ target Ht ltac:(lia)) as (d0 & v & r0 & El & Hv).
  rewrite El in *.
  assert (vma_type v = Free) as Ev.
  { specialize (Hfree target ltac:(lia)). rewrite (attr_at_of_area _ _ _ _ _ _ _ Ht) in Hfree by lia.
    unfold attr, free_attr in Hfree. by simplify_eq. }
  assert (target + size <= vma_end v) as He by (by eapply free_run_in_one_area).
  destruct (CarveVMA_free known d0 v r0 target size) as (d & u & r & -> & Ht1 & Ha1 & Hnd & Hnr & Eb & Es);
    try done. simpl. rewrite lookup_cut. simpl. rewrite Es, Z.eqb_refl. simpl.
  pose proof (pages_agree_ext is_cached _ _ _ Ha1 Hpa) as Hpa1.
  destruct (update_vma_spec known Hsep is_cached (mkVM (d ++ u :: r) (page_table vm) false) d u r
              (map_vma m state)) as (pt' & d' & v' & r' & -> & Ht2 & Hpa2 & Ha2 & _ & Hb2 & He2 & Hn2);
    try done.
  { destruct (tiles_cons_inv _ _ _ _ _ _ Ht1) as (_ & (? & ? & ? & _) & _).
    split_and!; simpl; try done. by rewrite Es. }
  simpl. eexists _, d', v', r'.
  split_and!; [done|done|lia|unfold vma_end in He2 at 1; lia|split_and!; simpl; auto|done|].
  intros a. simpl. rewrite Ha2, Ha1. unfold mapped_view, vma_end, attr. simpl. by rewrite Eb, Es.
Qed.

Lemma MapBackingMemory_free vm target m size state :
  vm_inv vm → is_locked vm = false → valid_range target size → backed known m size →
  range_free (vma_map vm) target size →
  ∃ vm' i, MapBackingMemory is_cached vm target m size state = Some (vm', inr i) ∧
    vm_inv vm' ∧ is_locked vm' = false ∧
    ∀ a, attr_at (vma_map vm') a = mapped_view (vma_map vm) target size m state a.
Proof.
  intros Hinv Hl Hr Hm Hfree.
  destruct (MapBackingMemory_area vm target m size state Hinv Hl Hr Hm Hfree)
    as (vm' & d & v & r & E & _ & _ & _ & Hinv' & Hl' & Hv). by exists vm', (length d).
Qed.

Lemma MapBackingMemory_taken vm target m size state :
  vm_inv vm → is_locked vm = false →
  target `mod` CITRA_PAGE_SIZE = 0 → size `mod` CITRA_PAGE_SIZE = 0 →
  0 <= target → 0 < size → target + size < 2 ^ 32 → backed known m size →
  ~ range_free (vma_map vm) target size →
  MapBackingMemory is_cached vm target m size state =
    Some (vm, inl (if MAX_ADDRESS <=? target then ResultInvalidAddress
                   else ResultInvalidAddressState)).
Proof.
  intros (Ht & Hnp & Hpa) Hl Hta Hsa H0 Hs H32 Hm Hfree.
  unfold MapBackingMemory. rewrite Hl, (backed_GetPtr m size) by (done || lia). simpl.
  rewrite (CarveVMA_error known _ _ _ Ht) by done. simpl. rewrite <- Hl. by destruct vm.
Qed.

Lemma range_loop_fuel (d m r : list VirtualMemoryArea) : (length m <= length (d ++ m ++ r))%nat.
Proof. rewrite !length_app. lia. Qed.

Lemma nonempty_range target m size : 0 < size → tiles known target m (target + size) → m ≠ [].
Proof. intros Hs Hm ->. simpl in Hm. lia. Qed.

(** A loop over the carved range changes the view on the range alone. *)
Lemma carved_loop_spec vm l target size g G f :
  vma_change known g G →
  (∀ vm i, is_locked vm = false → f vm i = update_vma is_cached vm i g) →
  vm_inv vm → is_locked vm = false → valid_range target size → range_backed (vma_map vm) target size →
  ∀ i, CarveVMARange (vma_map vm) target size = Some (l, inr i) →
  ∃ vm', range_loop f (length l) (mkVM l (page_table vm) false) i (target + size) = Some vm' ∧
    is_locked vm' = false ∧ vm_inv vm' ∧
    ∀ a, attr_at (vma_map vm') a = changed_view G target (target + size) (vma_map vm) a.
Proof.
  intros Hg Hf (Ht & Hnp & Hpa) Hl (Hta & Hsa & H0 & Hs & Hmax) Hb i Hc.
  destruct (CarveVMARange_spec known _ target size Ht Hnp Hta Hsa H0 Hs Hmax)
    as [[Hnb _]|(_ & d & m & r & E & Hd & Hm & Hr & Hbm & Hnd & Hnr & Ha)]; [done|].
  rewrite Hc in E. simplify_eq.
  destruct (range_loop_spec known Hsep is_cached g G Hg f Hf (length (d ++ m ++ r))
              (mkVM (d ++ m ++ r) (page_table vm) false) d m r target (target + size))
    as (vm' & E' & Hl' & Hinv & Hv); try done.
  - apply range_loop_fuel.
  - by eapply pages_agree_ext.
  - intros ->. by destruct (nonempty_range target [] size Hs Hm).
  - exists vm'. split_and!; try done; try apply Hinv. intros a. rewrite Hv. unfold changed_view.
    simpl. by rewrite Ha.
Qed.

Lemma CarveVMARange_free vm target size :
  vm_inv vm → valid_range target size → ~ range_backed (vma_map vm) target size →
  CarveVMARange (vma_map vm) target size = Some (vma_map vm, inl ResultInvalidAddressState).
Proof.
  intros (Ht & Hnp & _) (Hta & Hsa & H0 & Hs & Hmax) Hb.
  by destruct (CarveVMARange_spec known _ target size Ht Hnp Hta Hsa H0 Hs Hmax)
    as [[_ ?]|[? _]].
Qed.

Lemma CarveVMARange_backed vm target size :
  vm_inv vm → valid_range target size → range_backed (vma_map vm) target size →
  ∃ l i, CarveVMARange (vma_map vm) target size = Some (l, inr i).
Proof.
  intros (Ht & Hnp & _) (Hta & Hsa & H0 & Hs & Hmax) Hb.
  destruct (CarveVMARange_spec known _ target size Ht Hnp Hta Hsa H0 Hs Hmax)
    as [[? _]|(_ & d & m & r & E & _)]; [done|]. by eauto.
Qed.

(** [UnmapRange]: its final assertion holds because the whole range became one free run. *)
Lemma UnmapRange_backed vm target size :
  vm_inv vm → is_locked vm = false → valid_range target size →
  range_backed (vma_map vm) target size →
  ∃ vm', UnmapRange is_cached vm target size = Some (vm', ResultSuccess) ∧ vm_inv vm' ∧
    is_locked vm' = false ∧
    ∀ a, attr_at (vma_map vm') a =
         if in_range target (target + size) a then Some free_attr else attr_at (vma_map vm) a.
Proof.
  intros Hinv Hl Hr Hb. unfold UnmapRange. rewrite Hl. simpl.
  destruct (CarveVMARange_backed _ _ _ Hinv Hr Hb) as (l & i & E). rewrite E. simpl.
  destruct (carved_loop_spec vm l target size unmap_vma (λ _, free_attr) (Unmap is_cached)
              (vma_change_unmap known) ltac:(intros vm0 j Hj; unfold Unmap; by rewrite Hj)
              Hinv Hl Hr Hb i E) as (vm' & Eloop & Hl' & Hinv' & Hv).
  pose proof Hr as (_ & _ & H0 & Hs & Hmax). assert (MAX_ADDRESS < 2 ^ 32) by done.
  rewrite u32_id by lia. rewrite Eloop. simpl.
  assert (∀ a, attr_at (vma_map vm') a =
               if in_range target (target + size) a then Some free_attr else attr_at (vma_map vm) a) as Hv'.
  { intros a. rewrite Hv. unfold changed_view. destruct (in_range _ _ a) eqn:Ea; [|done].
    apply in_range_iff in Ea. specialize (Hb a Ea). by destruct (attr_at (vma_map vm) a). }
  pose proof Hinv' as (Ht' & Hnp' & _).
  destruct (tiles_find _ _ _ _ target Ht' ltac:(lia)) as (d & v & r & El & Hin).
  rewrite El in *. rewrite (FindVMA_cut _ _ _ _ _ _ Ht' Hin). simpl. rewrite lookup_cut. simpl.
  assert (range_free (d ++ v :: r) target size) as Hf.
  { intros x Hx. rewrite Hv'. by rewrite (proj2 (in_range_iff _ _ _)). }
  assert (vma_type v = Free) as Ev.
  { specialize (Hf target ltac:(lia)). rewrite (attr_at_of_area _ _ _ _ _ _ _ Ht') in Hf by lia.
    unfold attr, free_attr in Hf. by simplify_eq. }
  assert (target + size <= vma_end v) as He by (by eapply free_run_in_one_area).
  unfold vma_end in *. destruct (Z.leb_spec size (vma_size v)); [|lia]. simpl.
  exists vm'. rewrite El. done.
Qed.

(** The test of [ChangeMemoryState] on the view. *)
Definition state_matches (expected_state : MemoryState) (expected_perms : Z) (x : Attr) : bool :=
  bool_decide (a_state x = expected_state) && (Z.land (a_perms x) expected_perms =? expected_perms).

Lemma state_mismatch_attr s p v a : state_mismatch s p v = negb (state_matches s p (attr v a)).
Proof. unfold state_mismatch, state_matches. by rewrite negb_andb. Qed.

(** The search that precedes the change. *)
Lemma state_search vm s p target size :
  vm_inv vm → valid_range target size →
  ∃ b e mismatch, FindVMA (vma_map vm) target = Some b ∧ b ≠ length (vma_map vm) ∧
    lower_bound (target + size) (vma_map vm) = e ∧
    any_of (state_mismatch s p) (S (length (vma_map vm))) (vma_map vm) b e = Some mismatch ∧
    (mismatch = false ↔ range_all (state_matches s p) (vma_map vm) target size).
Proof.
  intros (Ht & _ & _) (_ & _ & H0 & Hs & Hmax).
  destruct (range_areas known (vma_map vm) target (target + size) Ht H0 ltac:(lia))
    as (d & m & r & lo & hi & -> & Hd & Hm & Hr & Hfirst & Hlast & -> & ->).
  exists (length d), (length d + length m)%nat, (existsb (state_mismatch s p) m).
  split_and!; [done| |done| |].
  - destruct Hfirst as (v & m' & -> & _). rewrite !length_app. simpl. lia.
  - rewrite any_of_cut; [done|]. rewrite !length_app. lia.
  - rewrite (range_all_areas known _ (state_matches s p) d m r lo hi target (target + size)); try done.
    + by replace (target + size - target) with size by lia.
    + apply state_mismatch_attr.
    + lia.
Qed.

End Theorems.

(** ** Results *)

(** C2: Mapping host memory into an address space that satisfies [vm_inv].  When the whole range
    is free the call succeeds, the range becomes readable and writable memory backed page by page
    by the given host block, every other address keeps its mapping, and the invariant (areas tile
    the space, no two free areas adjacent, page table in agreement) holds again.  When any address
    of the range is taken or lies above the managed space, the call returns the error code of
    that case and changes nothing. *)
Theorem map_backing_memory_spec is_cached known vm target m size state :
  blocks_separate known → vm_inv is_cached known vm → is_locked vm = false →
  target `mod` CITRA_PAGE_SIZE = 0 → size `mod` CITRA_PAGE_SIZE = 0 →
  0 <= target → 0 < size → target + size < 2 ^ 32 → backed known m size →
  (range_free (vma_map vm) target size →
   ∃ vm' i, MapBackingMemory is_cached vm target m size state = Some (vm', inr i) ∧
     vm_inv is_cached known vm' ∧
     ∀ a, attr_at (vma_map vm') a = mapped_view (vma_map vm) target size m state a) ∧
  (~ range_free (vma_map vm) target size →
   MapBackingMemory is_cached vm target m size state =
     Some (vm, inl (if MAX_ADDRESS <=? target then ResultInvalidAddress
                    else ResultInvalidAddressState))).
Proof.
  intros Hsep Hinv Hl Hta Hsa H0 Hs H32 Hm. split; [|by apply (MapBackingMemory_taken _ known)].
  intros Hfree.
  assert (valid_range target size) as Hr.
  { split_and!; try done. pose proof (Hfree (target + size - 1) ltac:(lia)) as Hlast.
    destruct (Z.le_gt_cases (target + size) MAX_ADDRESS); [done|].
    destruct Hinv as (Ht & _). rewrite (attr_at_outside _ _ _ _ _ Ht) in Hlast by lia. done. }
  destruct (MapBackingMemory_free is_cached known Hsep vm target m size state Hinv Hl Hr Hm Hfree)
    as (vm' & i & E & Hinv' & _ & Hv). eauto 10.
Qed.

(** C34: Unmapping a range.  When every address of the range is mapped the call returns success,
    exactly the range becomes free, the invariant is kept and the assertion at the end of the
    function holds; when some address is free it returns [ResultInvalidAddressState] and changes
    nothing.  The loop ends within as many rounds as there are areas. *)
Theorem unmap_range_spec is_cached known vm target size :
  blocks_separate known → vm_inv is_cached known vm → is_locked vm = false → valid_range target size →
  (range_backed (vma_map vm) target size →
   ∃ vm', UnmapRange is_cached vm target size = Some (vm', ResultSuccess) ∧
     vm_inv is_cached known vm' ∧
     ∀ a, attr_at (vma_map vm') a =
          if in_range target (target + size) a then Some free_attr else attr_at (vma_map vm) a) ∧
  (~ range_backed (vma_map vm) target size →
   UnmapRange is_cached vm target size = Some (vm, ResultInvalidAddressState)).
Proof.
  intros Hsep Hinv Hl Hr. split; intros Hb.
  - destruct (UnmapRange_backed is_cached known Hsep vm target size Hinv Hl Hr Hb)
      as (vm' & E & Hinv' & _ & Hv). eauto.
  - unfold UnmapRange. rewrite Hl. simpl.
    rewrite (CarveVMARange_free is_cached known) by done. simpl. rewrite <- Hl. by destruct vm.
Qed.

Lemma ReprotectRange_view is_cached known vm target size new_perms :
  blocks_separate known → vm_inv is_cached known vm → is_locked vm = false → valid_range target size →
  (range_backed (vma_map vm) target size →
   ∃ vm', ReprotectRange is_cached vm target size new_perms = Some (vm', ResultSuccess) ∧
     vm_inv is_cached known vm' ∧
     ∀ a, attr_at (vma_map vm') a =
          changed_view (set_perms new_perms) target (target + size) (vma_map vm) a) ∧
  (~ range_backed (vma_map vm) target size →
   ReprotectRange is_cached vm target size new_perms = Some (vm, ResultInvalidAddressState)).
Proof.
  intros Hsep Hinv Hl Hr. unfold ReprotectRange. rewrite Hl. simpl. split; intros Hb.
  - destruct (CarveVMARange_backed is_cached known _ _ _ Hinv Hr Hb) as (l & i & E). rewrite E. simpl.
    pose proof Hr as (_ & _ & H0 & Hs & Hmax). assert (MAX_ADDRESS < 2 ^ 32) by done.
    rewrite u32_id by lia.
    edestruct (carved_loop_spec is_cached known Hsep vm l target size _ _
                 (λ vm i, Reprotect is_cached vm i new_perms) (vma_change_perms known new_perms))
      as (vm' & Eloop & Hl' & Hinv' & Hv); [|done..|].
    + intros vm0 j Hj. unfold Reprotect. by rewrite Hj.
    + rewrite Eloop. simpl. eauto.
  - rewrite (CarveVMARange_free is_cached known) by done. simpl. rewrite <- Hl. by destruct vm.
Qed.

(** Changing the permissions of a mapped range changes exactly the permissions of its
    addresses; a range with a free address is refused with [ResultInvalidAddressState] and
    nothing changes. *)
Theorem reprotect_range_spec is_cached known vm target size new_perms :
  blocks_separate known → vm_inv is_cached known vm → is_locked vm = false → valid_range target size →
  (range_backed (vma_map vm) target size →
   ∃ vm', ReprotectRange is_cached vm target size new_perms = Some (vm', ResultSuccess) ∧
     vm_inv is_cached known vm' ∧
     ∀ a, attr_at (vma_map vm') a =
          changed_view (set_perms new_perms) target (target + size) (vma_map vm) a) ∧
  (~ range_backed (vma_map vm) target size →
   ReprotectRange is_cached vm target size new_perms = Some (vm, ResultInvalidAddressState)).
Proof. apply ReprotectRange_view. Qed.

Lemma ChangeMemoryState_view is_cached known vm target size exp_state exp_perms new_state new_perms :
  blocks_separate known → vm_inv is_cached known vm → is_locked vm = false → valid_range target size →
  (range_backed (vma_map vm) target size →
   range_all (state_matches exp_state exp_perms) (vma_map vm) target size →
   ∃ vm', ChangeMemoryState is_cached vm target size exp_state exp_perms new_state new_perms =
            Some (vm', ResultSuccess) ∧
     vm_inv is_cached known vm' ∧ is_locked vm' = false ∧
     ∀ a, attr_at (vma_map vm') a =
          changed_view (set_state new_state new_perms) target (target + size) (vma_map vm) a) ∧
  (~ (range_backed (vma_map vm) target size ∧
      range_all (state_matches exp_state exp_perms) (vma_map vm) target size) →
   ChangeMemoryState is_cached vm target size exp_state exp_perms new_state new_perms =
     Some (vm, ResultInvalidAddressState)).
Proof.
  intros Hsep Hinv Hl Hr. unfold ChangeMemoryState. rewrite Hl.
  pose proof Hr as (_ & _ & H0 & Hs & Hmax). assert (MAX_ADDRESS < 2 ^ 32) by done.
  rewrite u32_id by lia.
  destruct (state_search is_cached known vm exp_state exp_perms target size Hinv Hr)
    as (b & e & mm & -> & Hne & -> & Hany & Hmm).
  cbn [mbind option_bind]. destruct (Nat.eqb_spec b (length (vma_map vm))); [done|].
  rewrite Hany. cbn [mbind option_bind]. split.
  - intros Hb Hall. rewrite (proj2 Hmm Hall).
    destruct (CarveVMARange_backed is_cached known _ _ _ Hinv Hr Hb) as (l & i & E). rewrite E. simpl.
    edestruct (carved_loop_spec is_cached known Hsep vm l target size _ _
                 (λ vm i, update_vma is_cached vm i (change_state_vma new_state new_perms))
                 (vma_change_state known new_state new_perms))
      as (vm' & Eloop & Hl' & Hinv' & Hv); [done..|].
    rewrite Eloop. simpl. eauto.
  - intros Hn. destruct mm; [done|].
    rewrite (CarveVMARange_free is_cached known) by naive_solver. simpl. rewrite <- Hl. by destruct vm.
Qed.

(** [ChangeMemoryState] checks the whole range before it changes anything: it succeeds
    exactly when every address of the range is mapped, in the expected state, and has at least
    the expected permissions, and then sets the state and the permissions of the range alone;
    otherwise it returns [ResultInvalidAddressState] and nothing changes. *)
Theorem change_memory_state_spec is_cached known vm target size exp_state exp_perms new_state new_perms :
  blocks_separate known → vm_inv is_cached known vm → is_locked vm = false → valid_range target size →
  (range_backed (vma_map vm) target size →
   range_all (state_matches exp_state exp_perms) (vma_map vm) target size →
   ∃ vm', ChangeMemoryState is_cached vm target size exp_state exp_perms new_state new_perms =
            Some (vm', ResultSuccess) ∧
     vm_inv is_cached known vm' ∧
     ∀ a, attr_at (vma_map vm') a =
          changed_view (set_state new_state new_perms) target (target + size) (vma_map vm) a) ∧
  (~ (range_backed (vma_map vm) target size ∧
      range_all (state_matches exp_state exp_perms) (vma_map vm) target size) →
   ChangeMemoryState is_cached vm target size exp_state exp_perms new_state new_perms =
     Some (vm, ResultInvalidAddressState)).
Proof.
  intros Hsep Hinv Hl Hr.
  destruct (ChangeMemoryState_view is_cached known vm target size exp_state exp_perms new_state new_perms Hsep Hinv Hl Hr)
    as [Hyes Hno]. split; [|done]. intros Hb Ha. destruct (Hyes Hb Ha) as (vm' & E & Hinv' & _ & Hv). eauto.
Qed.

(** Mapping a free range and unmapping it again restores the view of every address, and both
    calls succeed. *)
Theorem map_unmap_roundtrip is_cached known vm target m size state :
  blocks_separate known → vm_inv is_cached known vm → is_locked vm = false →
  valid_range target size → backed known m size → range_free (vma_map vm) target size →
  ∃ vm1 i vm2, MapBackingMemory is_cached vm target m size state = Some (vm1, inr i) ∧
    UnmapRange is_cached vm1 target size = Some (vm2, ResultSuccess) ∧
    vm_inv is_cached known vm2 ∧ ∀ a, attr_at (vma_map vm2) a = attr_at (vma_map vm) a.
Proof.
  intros Hsep Hinv Hl Hr Hm Hfree.
  destruct (MapBackingMemory_free is_cached known Hsep vm target m size state Hinv Hl Hr Hm Hfree)
    as (vm1 & i & E1 & Hinv1 & Hl1 & Hv1).
  destruct (UnmapRange_backed is_cached known Hsep vm1 target size Hinv1 Hl1 Hr)
    as (vm2 & E2 & Hinv2 & _ & Hv2).
  { intros x Hx. rewrite Hv1. unfold mapped_view. by rewrite (proj2 (in_range_iff _ _ _)). }
  exists vm1, i, vm2. split_and!; try done; try apply Hinv2.
  intros a. rewrite Hv2, Hv1. unfold mapped_view.
  destruct (in_range target (target + size) a) eqn:E; [|done].
  symmetry. apply Hfree. by apply in_range_iff.
Qed.

(** [Reset] succeeds on any unlocked manager, whatever its page table held, and leaves an
    address space that satisfies the invariant and in which every managed address is free. *)
Theorem reset_spec is_cached known vm :
  is_locked vm = false →
  ∃ vm', Reset is_cached vm = Some vm' ∧ vm_inv is_cached known vm' ∧
    ∀ a, attr_at (vma_map vm') a = if in_range 0 MAX_ADDRESS a then Some free_attr else None.
Proof.
  intros Hl. assert (vma_ok known initial_vma) as Hok by (split_and!; done).
  destruct (UpdatePageTableForVMA_spec known is_cached (PageTable_Clear (page_table vm)) initial_vma
              Hok ltac:(done) ltac:(done)) as (pt & E & Hpt).
  exists (mkVM [initial_vma] pt (is_locked vm)). split.
  - unfold Reset. rewrite E, Hl. reflexivity.
  - refine (conj (conj (conj eq_refl (conj Hok eq_refl)) (conj (conj I I) _)) (λ a, eq_refl)).
    intros p x Hx. rewrite Hpt.
    cbn [vma_map attr_at] in Hx.
    destruct (in_range (vma_base initial_vma) (vma_end initial_vma) (p * CITRA_PAGE_SIZE)).
    + injection Hx as <-. reflexivity.
    + discriminate Hx.
Qed.

(** [MapBackingMemoryToBase] with some free area that ends at or after [base + size].  The
    call returns; a success is an address of the requested region whose range was free, mapped as
    [MapBackingMemory] maps it, with the invariant kept; an error changes nothing.  With no such
    area the function reads through [vma_map.end()], which is undefined. *)
Theorem map_to_base_spec is_cached known vm base region_size m size state :
  blocks_separate known → vm_inv is_cached known vm → is_locked vm = false →
  base `mod` CITRA_PAGE_SIZE = 0 → size `mod` CITRA_PAGE_SIZE = 0 → 0 <= base → 0 < size →
  base + region_size <= MAX_ADDRESS → base + size <= MAX_ADDRESS → 0 <= region_size →
  backed known m size →
  (Exists (λ v, free_vma_for base size v = true) (vma_map vm) →
   ∃ vm' r, MapBackingMemoryToBase is_cached vm base region_size m size state = Some (vm', r) ∧
     vm_inv is_cached known vm' ∧ is_locked vm' = false ∧
     match r with
     | inr t => base <= t ∧ t + size <= base + region_size ∧ range_free (vma_map vm) t size ∧
                ∀ a, attr_at (vma_map vm') a = mapped_view (vma_map vm) t size m state a
     | inl _ => vm' = vm
     end) ∧
  (~ Exists (λ v, free_vma_for base size v = true) (vma_map vm) →
   MapBackingMemoryToBase is_cached vm base region_size m size state = None).
Proof.
  intros Hsep Hinv Hl Hba Hsa H0 Hs Hreg Hmax Hr0 Hm. unfold MapBackingMemoryToBase. rewrite Hl.
  cbn [negb assert_ mbind option_bind]. split.
  - intros (u & Hu & Hpu)%Exists_exists.
    destruct (list_find_elem_of (λ v, free_vma_for base size v = true) _ _ Hu Hpu) as ([i v] & E). rewrite E. cbn [mbind option_bind].
    apply list_find_Some in E as (Hv & Hp & _).
    apply list_elem_of_lookup_2, list_elem_of_split in Hv as (d & r & El).
    pose proof Hinv as (Ht & _). rewrite El in Ht.
    destruct (tiles_cons_inv _ _ _ _ _ _ Ht) as (_ & Hok & _ & Hb0 & _ & Hb1).
    assert (MAX_ADDRESS < 2 ^ 31) by done. set (t := Z.max base (vma_base v)).
    assert (t `mod` CITRA_PAGE_SIZE = 0) as Htm.
    { subst t. destruct (Z.max_spec base (vma_base v)) as [[_ ->]|[_ ->]]; [apply Hok|done]. }
    pose proof (vma_ok_size _ _ Hok). unfold vma_end in Hb1.
    rewrite !u32_id by lia.
    destruct (Z.ltb_spec (base + region_size) (t + size)).
    { exists vm, (inl ResultOutOfMemory). split_and!; done || apply Hinv. }
    destruct (decide (t + size <= vma_end v)) as [Hfit|Hfit].
    + assert (range_free (vma_map vm) t size) as Hf.
      { intros x Hx. rewrite El, (attr_at_of_area _ _ _ _ _ _ _ Ht) by lia.
        f_equal. apply (attr_free known); [done|]. unfold free_vma_for in Hp. by case_bool_decide. }
      destruct (MapBackingMemory_free is_cached known Hsep vm t m size state Hinv Hl) as
        (vm' & j & -> & Hinv' & Hl' & Hv'); try done; [by split_and!; try lia|].
      exists vm', (inr t). split_and!; try done; try apply Hinv'; lia.
    + rewrite (MapBackingMemory_taken is_cached known); try done; [|lia|lia|].
      * eexists vm, _. split; [done|]. split; [exact Hinv|]. done.
      * intros Hf. apply Hfit. destruct Hinv as (_ & Hnp & _). rewrite El in Hnp, Hf.
        assert (vma_type v = Free) by (unfold free_vma_for in Hp; by case_bool_decide).
        eapply (free_run_in_one_area known); try done.
        unfold free_vma_for in Hp. rewrite bool_decide_true in Hp by done. simpl in Hp.
        rewrite u32_id in Hp by lia. unfold vma_end. destruct_bools. lia.
  - intros Hn. destruct (list_find _ _) as [[i v]|] eqn:E; [|done]. exfalso. apply Hn.
    apply list_find_Some in E as (Hv & Hp & _). apply Exists_exists. exists v.
    split; [by eapply list_elem_of_lookup_2|done].
Qed.

(** The blocks that back an address range, in order. *)
Fixpoint blocks_back (l : list VirtualMemoryArea) (a : Z) (blocks : list (MemoryRef * Z)) (e : Z)
  : Prop :=
  match blocks with
  | [] => a = e
  | (m, n) :: blocks =>
      0 < n ∧ (∀ k, 0 <= k < n → a_ref <$> attr_at l (a + k) = Some (ref_shift m k)) ∧
      blocks_back l (a + n) blocks e
  end.

Lemma blocks_back_snoc l a blocks m n e :
  blocks_back l a blocks e → 0 < n →
  (∀ k, 0 <= k < n → a_ref <$> attr_at l (e + k) = Some (ref_shift m k)) →
  blocks_back l a (blocks ++ [(m, n)]) (e + n).
Proof.
  revert a. induction blocks as [|[m' n'] bs IH]; intros a; simpl.
  - intros -> Hn Hk. done.
  - intros (? & ? & Hb) Hn Hk. split_and!; try done. by apply IH.
Qed.

(** The areas of [r] are still to visit when the loop stands at the start of [r]'s first area, or
    inside it on the first round. *)
Lemma backing_blocks_loop_spec known fuel d r l t a te blocks :
  l = d ++ r → tiles known 0 l MAX_ADDRESS → (length r < fuel)%nat →
  (t = te ∨ ∃ v r', r = v :: r' ∧ vma_base v <= t < vma_end v) → t <= te <= MAX_ADDRESS → 0 <= a <= t →
  blocks_back l a blocks t →
  (range_backed l t (te - t) →
   ∃ bs, backing_blocks_loop fuel l te t blocks = Some (inr bs) ∧ blocks_back l a bs te) ∧
  (~ range_backed l t (te - t) →
   backing_blocks_loop fuel l te t blocks = Some (inl ResultInvalidAddressState)).
Proof.
  revert d r t blocks. induction fuel as [|fuel IH]; intros d r t blocks El Ht Hlen Hpos Hte Ha Hb; [lia|].
  simpl. destruct (Z.eqb_spec t te) as [->|Hne].
  { split; [by eauto|]. intros Hn. exfalso. apply Hn. intros x Hx. lia. }
  destruct Hpos as [?|(v & r' & Er & Hv)]; [done|]. rewrite Er in El. rewrite El in Ht |- *.
  rewrite (FindVMA_cut _ _ _ _ _ _ Ht Hv). cbn [mbind option_bind]. rewrite lookup_cut.
  cbn [mbind option_bind].
  destruct (tiles_cons_inv _ _ _ _ _ _ Ht) as (_ & Hok & Hr' & ? & ? & ?).
  assert (MAX_ADDRESS < 2 ^ 32) by done. unfold vma_end in *.
  pose proof (attr_at_of_area known 0 d v r' MAX_ADDRESS) as Hat. unfold vma_end in Hat.
  destruct (vma_type v) eqn:Ev.
  - rewrite bool_decide_false by done. simpl. split; [|done]. intros Hrb. exfalso.
    specialize (Hrb t ltac:(lia)). rewrite Hat in Hrb by (done || lia). simpl in Hrb. congruence.
  - rewrite bool_decide_true by done. cbn [negb].
    rewrite (u32_id (vma_base v + vma_size v)) by lia. rewrite (u32_id (t - vma_base v)) by lia.
    set (ie := Z.min te (vma_base v + vma_size v)). rewrite (u32_id (ie - t)) by lia.
    rewrite (u32_id (t + (ie - t))) by lia.
    pose proof Hok as (_ & _ & _ & Hbk). rewrite Ev in Hbk.
    rewrite (ref_add_backed known _ (vma_size v)) by (done || lia). cbn [mbind option_bind].
    replace (t + (ie - t)) with ie by lia.
    assert (range_backed (d ++ v :: r') ie (te - ie) ↔ range_backed (d ++ v :: r') t (te - t)) as Hiff.
    { split; intros Hrb x Hx; [|apply Hrb; lia].
      destruct (decide (x < ie)); [|apply Hrb; lia]. rewrite Hat by (done || lia). simpl. congruence. }
    rewrite <- Hiff. rewrite <- El in Ht, Hat |- *. apply (IH (d ++ [v]) r'); try done; try lia.
    + by rewrite <- app_assoc.
    + simpl in *. subst r. simpl in Hlen. lia.
    + destruct (decide (te <= vma_base v + vma_size v)); [left; lia|right].
      destruct r' as [|w r']; [simpl in Hr'; lia|]. destruct Hr' as (Hw & Hokw%vma_ok_size & _).
      exists w, r'. split; [done|]. lia.
    + replace ie with (t + (ie - t)) at 2 by lia. apply blocks_back_snoc; [done|lia|].
      intros k Hk. rewrite Hat by (done || lia). simpl. unfold attr. rewrite Ev. simpl.
      unfold ref_shift; simpl. do 2 f_equal. lia.
Qed.

(** Between page boundaries the blocks are whole pages. *)
Lemma backing_blocks_loop_aligned known fuel l t te blocks bs :
  tiles known 0 l MAX_ADDRESS → t `mod` CITRA_PAGE_SIZE = 0 → te `mod` CITRA_PAGE_SIZE = 0 → 0 <= t <= te → te <= MAX_ADDRESS →
  Forall (λ b, b.2 `mod` CITRA_PAGE_SIZE = 0) blocks →
  backing_blocks_loop fuel l te t blocks = Some (inr bs) → Forall (λ b, b.2 `mod` CITRA_PAGE_SIZE = 0) bs.
Proof.
  intros Ht. revert t blocks. induction fuel as [|fuel IH]; intros t blocks Hta Hea Hle Hmax Hb; simpl;
    destruct (Z.eqb_spec t te) as [->|Hne]; try done; try (by intros [= <-]).
  assert (MAX_ADDRESS < 2 ^ 32) by done.
  destruct (tiles_find _ _ _ _ t Ht ltac:(lia)) as (d & v & r & El & Hv). rewrite El in Ht |- *.
  rewrite (FindVMA_cut _ _ _ _ _ _ Ht Hv). cbn [mbind option_bind]. rewrite lookup_cut. cbn [mbind option_bind].
  destruct (negb _); [done|]. destruct (tiles_cons_inv _ _ _ _ _ _ Ht) as (_ & (Hpos & Hba & Hsa & _) & _ & ? & ? & ?).
  unfold vma_end in *. rewrite (u32_id (vma_base v + vma_size v)) by lia. set (ie := Z.min te (vma_base v + vma_size v)).
  assert (ie `mod` CITRA_PAGE_SIZE = 0) as Hie by (unfold ie; destruct (Z.min_spec te (vma_base v + vma_size v)) as [[_ ->]|[_ ->]]; [done|by apply aligned_add]).
  rewrite (u32_id (ie - t)) by lia. rewrite (u32_id (t + (ie - t))) by lia. replace (t + (ie - t)) with ie by lia.
  destruct (ref_add _ _); [|done]. cbn [mbind option_bind]. intros E. rewrite <- El in E. eapply IH; [..|exact E]; try done; try lia.
  apply Forall_app. split; [done|]. apply Forall_singleton. by apply aligned_sub.
Qed.

Lemma GetBackingBlocks_view is_cached known vm address size :
  vm_inv is_cached known vm → 0 <= address → 0 <= size → address + size <= MAX_ADDRESS →
  (range_backed (vma_map vm) address size →
   ∃ blocks, GetBackingBlocksForRange vm address size = Some (inr blocks) ∧
     blocks_back (vma_map vm) address blocks (address + size)) ∧
  (~ range_backed (vma_map vm) address size →
   GetBackingBlocksForRange vm address size = Some (inl ResultInvalidAddressState)).
Proof.
  intros (Ht & _) Ha Hs Hmax. unfold GetBackingBlocksForRange. assert (MAX_ADDRESS < 2 ^ 32) by done.
  rewrite u32_id by lia.
  assert (∃ d r, vma_map vm = d ++ r ∧
            (address = address + size ∨ ∃ v r', r = v :: r' ∧ vma_base v <= address < vma_end v))
    as (d & r & El & Hpos).
  { destruct (decide (address < MAX_ADDRESS)).
    - destruct (tiles_find _ _ _ _ address Ht ltac:(lia)) as (d & v & r & El & Hv). eauto 10.
    - exists [], (vma_map vm). split; [done|]. left. lia. }
  pose proof (backing_blocks_loop_spec known (S (length (vma_map vm))) d r (vma_map vm) address address
                (address + size) []) as H'.
  replace (address + size - address) with size in H' by lia.
  apply H'; try done; try lia. rewrite El, length_app. lia.
Qed.

(** [GetBackingBlocksForRange] on a range of the managed space: if every address is mapped it
    returns blocks of host memory that, laid end to end, back exactly the addresses of the range
    in order; if some address is free it returns [ResultInvalidAddressState].  The loop ends
    within one round per area. *)
Theorem backing_blocks_spec is_cached known vm address size :
  vm_inv is_cached known vm → 0 <= address → 0 <= size → address + size <= MAX_ADDRESS →
  (range_backed (vma_map vm) address size →
   ∃ blocks, GetBackingBlocksForRange vm address size = Some (inr blocks) ∧
     blocks_back (vma_map vm) address blocks (address + size)) ∧
  (~ range_backed (vma_map vm) address size →
   GetBackingBlocksForRange vm address size = Some (inl ResultInvalidAddressState)).
Proof. apply GetBackingBlocks_view. Qed.

(** *** Concrete address spaces *)

Module Examples.

Definition block : BackingMem := mkBacking 0x10000000 0x100000.
Definition only_block (b : BackingMem) : Prop := b = block.
Definition no_cache (p : Z) : bool := false.
Definition fresh_vm : VMManager :=
  mkVM [initial_vma] ∅ false.

Lemma only_block_separate : blocks_separate only_block.
Proof. intros b1 b2 -> -> ?. done. Qed.

Lemma fresh_inv : vm_inv no_cache only_block fresh_vm.
Proof.
  refine (conj (conj eq_refl (conj _ eq_refl)) (conj (conj I I) _)); [by split_and!|].
  intros p x Hx. cbn [vma_map fresh_vm attr_at] in Hx.
  destruct (in_range (vma_base initial_vma) (vma_end initial_vma) (p * CITRA_PAGE_SIZE)).
  - injection Hx as <-. reflexivity.
  - discriminate Hx.
Qed.

Lemma block_backed : backed only_block (mkRef (Some block) 0) 0x4000.
Proof. split; exists block; split_and!; done. Qed.

Lemma fresh_free a n : 0 <= a → a + n <= MAX_ADDRESS → range_free (vma_map fresh_vm) a n.
Proof.
  intros Ha Hn x Hx. simpl. rewrite (proj2 (in_range_iff _ _ _)); [done|].
  unfold vma_end; simpl. lia.
Qed.

(** Four pages mapped at 1 MiB. *)
Definition mapped_vm : VMManager :=
  match MapBackingMemory no_cache fresh_vm 0x100000 (mkRef (Some block) 0) 0x4000 StatePrivate with
  | Some (vm, _) => vm
  | None => fresh_vm
  end.

Lemma mapped_ok :
  vm_inv no_cache only_block mapped_vm ∧ is_locked mapped_vm = false ∧
  ∀ a, attr_at (vma_map mapped_vm) a =
       mapped_view (vma_map fresh_vm) 0x100000 0x4000 (mkRef (Some block) 0) StatePrivate a.
Proof.
  destruct (MapBackingMemory_free no_cache only_block only_block_separate fresh_vm 0x100000
              (mkRef (Some block) 0) 0x4000 StatePrivate) as (vm & i & E & Hinv & Hl & Hv).
  - exact fresh_inv.
  - done.
  - by split_and!.
  - exact block_backed.
  - by apply fresh_free.
  - unfold mapped_vm. rewrite E. by split_and!; try apply Hinv.
Qed.

Lemma mapped_backed : range_backed (vma_map mapped_vm) 0x101000 0x1000.
Proof.
  intros x Hx. destruct mapped_ok as (_ & _ & ->). unfold mapped_view.
  rewrite (proj2 (in_range_iff _ _ _)) by lia. done.
Qed.

Lemma valid_page : valid_range 0x101000 0x1000.
Proof. by split_and!. Qed.

Lemma map_backing_memory_witness :
  (∃ vm' i, MapBackingMemory no_cache fresh_vm 0x100000 (mkRef (Some block) 0) 0x4000 StatePrivate =
     Some (vm', inr i) ∧ vm_inv no_cache only_block vm') ∧
  MapBackingMemory no_cache mapped_vm 0x100000 (mkRef (Some block) 0) 0x4000 StatePrivate =
    Some (mapped_vm, inl ResultInvalidAddressState).
Proof.
  split.
  - destruct (map_backing_memory_spec no_cache only_block fresh_vm 0x100000 (mkRef (Some block) 0)
                0x4000 StatePrivate only_block_separate fresh_inv eq_refl eq_refl eq_refl
                ltac:(lia) ltac:(lia) ltac:(lia) block_backed) as [H _].
    destruct (H (fresh_free 0x100000 0x4000 ltac:(lia) ltac:(done))) as (vm' & i & E & Hi & _). eauto.
  - destruct mapped_ok as (Hi & Hl & Hv).
    destruct (map_backing_memory_spec no_cache only_block mapped_vm 0x100000 (mkRef (Some block) 0)
                0x4000 StatePrivate only_block_separate Hi Hl eq_refl eq_refl
                ltac:(lia) ltac:(lia) ltac:(lia) block_backed) as [_ H].
    apply H. intros Hf. specialize (Hf 0x100000 ltac:(lia)). rewrite Hv in Hf. done.
Defined.

Lemma unmap_range_witness :
  (∃ vm', UnmapRange no_cache mapped_vm 0x101000 0x1000 = Some (vm', ResultSuccess)) ∧
  UnmapRange no_cache fresh_vm 0x101000 0x1000 = Some (fresh_vm, ResultInvalidAddressState).
Proof.
  destruct mapped_ok as (Hi & Hl & Hv). split.
  - destruct (unmap_range_spec no_cache only_block mapped_vm 0x101000 0x1000 only_block_separate
                Hi Hl valid_page) as [H _].
    destruct (H mapped_backed) as (vm' & E & _). eauto.
  - destruct (unmap_range_spec no_cache only_block fresh_vm 0x101000 0x1000 only_block_separate
                fresh_inv eq_refl valid_page) as [_ H].
    apply H. intros Hb. specialize (Hb 0x101000 ltac:(lia)). done.
Defined.

Lemma reprotect_range_witness :
  ∃ vm', ReprotectRange no_cache mapped_vm 0x101000 0x1000 PermRead = Some (vm', ResultSuccess).
Proof.
  destruct mapped_ok as (Hi & Hl & Hv).
  destruct (reprotect_range_spec no_cache only_block mapped_vm 0x101000 0x1000 PermRead
              only_block_separate Hi Hl valid_page) as [H _].
  destruct (H mapped_backed) as (vm' & E & _). eauto.
Defined.

Lemma change_memory_state_witness :
  (∃ vm', ChangeMemoryState no_cache mapped_vm 0x101000 0x1000 StatePrivate PermRead StateAliased
            PermNone = Some (vm', ResultSuccess)) ∧
  ChangeMemoryState no_cache mapped_vm 0x101000 0x1000 StateCode PermRead StateAliased PermNone =
    Some (mapped_vm, ResultInvalidAddressState).
Proof.
  destruct mapped_ok as (Hi & Hl & Hv). split.
  - destruct (change_memory_state_spec no_cache only_block mapped_vm 0x101000 0x1000 StatePrivate
                PermRead StateAliased PermNone only_block_separate Hi Hl valid_page) as [H _].
    destruct (H mapped_backed) as (vm' & E & _); [|by eauto].
    intros x Hx. rewrite Hv. unfold mapped_view. by rewrite (proj2 (in_range_iff _ _ _)) by lia.
  - destruct (change_memory_state_spec no_cache only_block mapped_vm 0x101000 0x1000 StateCode
                PermRead StateAliased PermNone only_block_separate Hi Hl valid_page) as [_ H].
    apply H. intros [_ Ha]. specialize (Ha 0x101000 ltac:(lia)). rewrite Hv in Ha. done.
Defined.

Lemma map_unmap_roundtrip_witness :
  ∃ vm1 i vm2,
    MapBackingMemory no_cache fresh_vm 0x100000 (mkRef (Some block) 0) 0x4000 StatePrivate =
      Some (vm1, inr i) ∧
    UnmapRange no_cache vm1 0x100000 0x4000 = Some (vm2, ResultSuccess).
Proof.
  destruct (map_unmap_roundtrip no_cache only_block fresh_vm 0x100000 (mkRef (Some block) 0) 0x4000
              StatePrivate only_block_separate fresh_inv eq_refl ltac:(by split_and!) block_backed
              (fresh_free 0x100000 0x4000 ltac:(lia) ltac:(done))) as (vm1 & i & vm2 & E1 & E2 & _).
  eauto.
Defined.

Lemma reset_witness : ∃ vm', Reset no_cache mapped_vm = Some vm'.
Proof.
  destruct (reset_spec no_cache only_block mapped_vm (proj1 (proj2 mapped_ok))) as (vm' & E & _). eauto.
Defined.

Lemma map_to_base_witness :
  ∃ vm' r, MapBackingMemoryToBase no_cache fresh_vm 0x100000 0x10000 (mkRef (Some block) 0) 0x4000
             StatePrivate = Some (vm', r) ∧ vm_inv no_cache only_block vm'.
Proof.
  destruct (map_to_base_spec no_cache only_block fresh_vm 0x100000 0x10000 (mkRef (Some block) 0)
              0x4000 StatePrivate only_block_separate fresh_inv eq_refl eq_refl eq_refl ltac:(lia)
              ltac:(lia) ltac:(done) ltac:(done) ltac:(lia) block_backed) as [H _].
  destruct H as (vm' & r & E & Hi & _); [|by eauto]. left. vm_compute. done.
Defined.

Lemma backing_blocks_witness :
  ∃ blocks, GetBackingBlocksForRange mapped_vm 0x101000 0x1000 = Some (inr blocks).
Proof.
  destruct (backing_blocks_spec no_cache only_block mapped_vm 0x101000 0x1000 (proj1 mapped_ok)
              ltac:(lia) ltac:(lia) ltac:(done)) as [H _].
  destruct (H mapped_backed) as (blocks & E & _). eauto.
Defined.

End Examples.

(** The map does not stay merged.  In an address space whose adjacent areas cannot be merged,
    the first page of a mapping is made read-only and then the first two pages read-write: the
    second call ends with two adjacent areas that [CanBeMergedWith] accepts, because the area that
    reaches the end of the range was swallowed before the loop came to it. *)
Theorem reprotect_range_leaves_mergeable :
  ∃ vm1 vm2 v w,
    ReprotectRange Examples.no_cache Examples.mapped_vm 0x100000 0x1000 PermRead =
      Some (vm1, ResultSuccess) ∧
    no_pair mergeable (vma_map vm1) ∧
    ReprotectRange Examples.no_cache vm1 0x100000 0x2000 PermReadWrite = Some (vm2, ResultSuccess) ∧
    vma_map vm2 !! 1%nat = Some v ∧ vma_map vm2 !! 2%nat = Some w ∧ CanBeMergedWith v w = Some true.
Proof.
  do 4 eexists. split; [vm_compute; reflexivity|]. split; [vm_compute; tauto|].
  split; [vm_compute; reflexivity|]. split; [reflexivity|]. split; reflexivity.
Qed.

(** [MapBackingMemoryToBase] gives up on a region that has room: with pages taken at the
    start and three pages further, a request for three pages meets the two-page hole first and
    fails with [ResultInvalidAddressState], though the rest of the region is free. *)
Theorem map_to_base_misses_room :
  ∃ vm1 vm2 i j,
    MapBackingMemory Examples.no_cache Examples.fresh_vm 0x100000 (mkRef (Some Examples.block) 0)
      0x1000 StatePrivate = Some (vm1, inr i) ∧
    MapBackingMemory Examples.no_cache vm1 0x103000 (mkRef (Some Examples.block) 0x8000)
      0x1000 StatePrivate = Some (vm2, inr j) ∧
    MapBackingMemoryToBase Examples.no_cache vm2 0x100000 0x100000 (mkRef (Some Examples.block) 0)
      0x3000 StatePrivate = Some (vm2, inl ResultInvalidAddressState) ∧
    range_free (vma_map vm2) 0x104000 0x3000.
Proof.
  do 4 eexists. split; [vm_compute; reflexivity|]. split; [vm_compute; reflexivity|].
  split; [vm_compute; reflexivity|]. intros x Hx. simpl.
  repeat (destruct (in_range _ _ x) eqn:?; rewrite ?in_range_iff, ?in_range_false in *;
          unfold vma_end in *; simpl in *; [done || lia|]). lia.
Qed.
