(* ===== verification/ThreadQueueList.v ===== *)
(** * The ready queue of a core: [Common::ThreadQueueList]
    ([src/src/common/thread_queue_list.h])

    An array of [N] priority levels, each a deque of threads, threaded by a singly linked list of
    the levels that were ever used.  Level 0 is the most urgent one.  The template is translated
    with its pointers: a [Queue*] is null, the tag [UnlinkedTag()] (address 1) or the address of
    a level, and following anything else is undefined behaviour ([None]).

    The abstract queue ([AbsQueue]) is a list of lists with the set of prepared levels; the
    refinement theorem says that the linked structure implements it on every trace of calls that
    prepares a level before it pushes to it. *)

From S2P Require Import Prelude.

(** A [Queue*]. *)
Inductive qptr : Type :=
| Null
| UnlinkedTag
| Qptr (i : nat).

#[export] Instance qptr_eq_dec : EqDecision qptr.
Proof. solve_decision. Defined.

Record Queue (T : Type) := mkQueue { next_nonempty : qptr; data : list T }.
Arguments mkQueue {T} _ _.
Arguments next_nonempty {T} _.
Arguments data {T} _.

Record ThreadQueueList (T : Type) := mkTQL { first : qptr; queues : list (Queue T) }.
Arguments mkTQL {T} _ _.
Arguments first {T} _.
Arguments queues {T} _.

Section Operations.
Context {T : Type} `{EqDecision T}.
(** [T()], the value-initialised element (the null pointer for [Thread*]), and the number of
    levels, the template's second argument. *)
Context (T_default : T) (N : nat).

(** The constructor: [first] is null and every level is unlinked and empty. *)
Definition tql_new : ThreadQueueList T :=
  mkTQL Null (replicate N (mkQueue UnlinkedTag [])).

Definition set_first (p : qptr) (q : ThreadQueueList T) : ThreadQueueList T :=
  mkTQL p (queues q).
Definition set_next (i : nat) (p : qptr) (q : ThreadQueueList T) : ThreadQueueList T :=
  mkTQL (first q) (alter (λ c, mkQueue p (data c)) i (queues q)).
Definition set_data (i : nat) (l : list T) (q : ThreadQueueList T) : ThreadQueueList T :=
  mkTQL (first q) (alter (λ c, mkQueue (next_nonempty c) l) i (queues q)).

(** [*p]. *)
Definition deref (q : ThreadQueueList T) (p : qptr) : option (Queue T) :=
  match p with Qptr i => queues q !! i | _ => None end.

Fixpoint contains_from (uid : T) (qs : list (Queue T)) (i : Z) : Z :=
  match qs with
  | [] => u32 (-1)
  | cur :: rest => if decide (uid ∈ data cur) then i else contains_from uid rest (i + 1)
  end.
Definition contains (q : ThreadQueueList T) (uid : T) : Z := contains_from uid (queues q) 0.

(** [while (cur != nullptr)]: the fuel counts the levels visited. *)
Fixpoint get_first_loop (fuel : nat) (q : ThreadQueueList T) (cur : qptr) : option T :=
  match cur, fuel with
  | Null, _ => Some T_default
  | _, O => None
  | _, S fuel =>
      c ← deref q cur;
      match data c with
      | x :: _ => Some x
      | [] => get_first_loop fuel q (next_nonempty c)
      end
  end.
Definition get_first (q : ThreadQueueList T) : option T := get_first_loop N q (first q).

(** Takes the front of the level [cur] points to; [ToIndex(cur)] is the priority. *)
Definition take_front (q : ThreadQueueList T) (cur : qptr) (x : T) (rest : list T)
  : option ((nat * T) * ThreadQueueList T) :=
  match cur with
  | Qptr i => Some ((i, x), set_data i rest q)
  | _ => None
  end.

Fixpoint pop_first_loop (fuel : nat) (q : ThreadQueueList T) (cur : qptr)
  : option ((nat * T) * ThreadQueueList T) :=
  match cur, fuel with
  | Null, _ => Some ((0%nat, T_default), q)
  | _, O => None
  | _, S fuel =>
      c ← deref q cur;
      match data c with
      | x :: rest => take_front q cur x rest
      | [] => pop_first_loop fuel q (next_nonempty c)
      end
  end.
Definition pop_first (q : ThreadQueueList T) : option ((nat * T) * ThreadQueueList T) :=
  pop_first_loop N q (first q).

(** [cur < &queues[priority]] on addresses: the null pointer and the tag are below the array. *)
Definition ptr_before (cur : qptr) (priority : nat) : bool :=
  match cur with Null | UnlinkedTag => true | Qptr i => (i <? priority)%nat end.

Fixpoint pop_first_better_loop (fuel : nat) (q : ThreadQueueList T) (cur : qptr) (stop : nat)
  : option ((nat * T) * ThreadQueueList T) :=
  if ptr_before cur stop then
    match fuel with
    | O => None
    | S fuel =>
        c ← deref q cur;
        match data c with
        | x :: rest => take_front q cur x rest
        | [] => pop_first_better_loop fuel q (next_nonempty c) stop
        end
    end
  else Some ((0%nat, T_default), q).
Definition pop_first_better (q : ThreadQueueList T) (priority : nat)
  : option ((nat * T) * ThreadQueueList T) :=
  _ ← queues q !! priority;
  pop_first_better_loop N q (first q) priority.

Definition push_front (priority : nat) (thread_id : T) (q : ThreadQueueList T)
  : option (ThreadQueueList T) :=
  cur ← queues q !! priority;
  Some (set_data priority (thread_id :: data cur) q).

Definition push_back (priority : nat) (thread_id : T) (q : ThreadQueueList T)
  : option (ThreadQueueList T) :=
  cur ← queues q !! priority;
  Some (set_data priority (data cur ++ [thread_id]) q).

Definition remove (priority : nat) (thread_id : T) (q : ThreadQueueList T)
  : option (ThreadQueueList T) :=
  cur ← queues q !! priority;
  Some (set_data priority (filter (λ x, x ≠ thread_id) (data cur)) q).

Definition rotate (priority : nat) (q : ThreadQueueList T) : option (ThreadQueueList T) :=
  cur ← queues q !! priority;
  match data cur with
  | x :: y :: rest => Some (set_data priority (y :: rest ++ [x]) q)
  | _ => Some q
  end.

Definition clear (q : ThreadQueueList T) : ThreadQueueList T := tql_new.

Definition empty_level (q : ThreadQueueList T) (priority : nat) : option bool :=
  cur ← queues q !! priority;
  Some (bool_decide (data cur = [])).

(** [link]: the loop [for (int i = priority - 1; i >= 0; --i)]; here [i] counts down from
    [priority] and level [i - 1] is the one looked at. *)
Fixpoint link_loop (priority : nat) (i : nat) (q : ThreadQueueList T)
  : option (ThreadQueueList T) :=
  match i with
  | S i =>
      c ← queues q !! i;
      if decide (next_nonempty c ≠ UnlinkedTag) then
        Some (set_next i (Qptr priority) (set_next priority (next_nonempty c) q))
      else link_loop priority i q
  | O => Some (set_first (Qptr priority) (set_next priority (first q) q))
  end.
Definition link (priority : nat) (q : ThreadQueueList T) : option (ThreadQueueList T) :=
  _ ← queues q !! priority;
  link_loop priority priority q.

Definition prepare (priority : nat) (q : ThreadQueueList T) : option (ThreadQueueList T) :=
  cur ← queues q !! priority;
  if decide (next_nonempty cur = UnlinkedTag) then link priority q else Some q.

Definition move (thread_id : T) (old_priority new_priority : nat) (q : ThreadQueueList T)
  : option (ThreadQueueList T) :=
  q ← remove old_priority thread_id q;
  q ← prepare new_priority q;
  push_back new_priority thread_id q.

(** [ToIndex] and [ToPointer]: the pointers as the archive stores them. *)
Definition ToIndex (p : qptr) : Z :=
  match p with Null => -2 | UnlinkedTag => -1 | Qptr i => Z.of_nat i end.
Definition ToPointer (idx : Z) : qptr :=
  if idx =? -1 then UnlinkedTag else if idx <? 0 then Null else Qptr (Z.to_nat idx).

(** The archive: the index of [first], then for each level its next index and its deque. *)
Record Archive := mkArchive { ar_first : Z; ar_queues : list (Z * list T) }.
Definition save (q : ThreadQueueList T) : Archive :=
  mkArchive (ToIndex (first q))
    ((λ c, (ToIndex (next_nonempty c), data c)) <$> queues q).
Definition load (ar : Archive) : ThreadQueueList T :=
  mkTQL (ToPointer (ar_first ar))
    ((λ '(idx, l), mkQueue (ToPointer idx) l) <$> ar_queues ar).

End Operations.

(** ** The abstract queue *)

Section Specification.
Context {T : Type} `{EqDecision T} (T_default : T) (N : nat).

(** One deque per level, and the set of levels that may be pushed to. *)
Record AbsQueue := mkAbs { levels : list (list T); prepared : gset nat }.

Definition abs_new : AbsQueue := mkAbs (replicate N []) ∅.

(** The front of the most urgent level that is not empty. *)
Fixpoint abs_front (ls : list (list T)) : option (nat * T * list T) :=
  match ls with
  | [] => None
  | (x :: l) :: _ => Some (0%nat, x, l)
  | [] :: ls => (λ '(i, x, l), (S i, x, l)) <$> abs_front ls
  end.

(** The calls a client makes. *)
Inductive qop : Type :=
| OpPrepare (p : nat)
| OpPushFront (p : nat) (x : T)
| OpPushBack (p : nat) (x : T)
| OpPopFirst
| OpPopFirstBetter (p : nat)
| OpMove (x : T) (old_p new_p : nat)
| OpRemove (p : nat) (x : T)
| OpRotate (p : nat)
| OpClear.

(** What the abstract queue answers.  [OpPopFirstBetter p] looks at the levels above [p] only. *)
Definition abs_take (bound : nat) (a : AbsQueue) : (nat * T) * AbsQueue :=
  match abs_front (take bound (levels a)) with
  | Some (i, x, l) => ((i, x), mkAbs (<[i := l]> (levels a)) (prepared a))
  | None => ((0%nat, T_default), a)
  end.
Definition abs_upd (p : nat) (f : list T → list T) (a : AbsQueue) : AbsQueue :=
  mkAbs (alter f p (levels a)) (prepared a).
Definition rot (l : list T) : list T := match l with x :: y :: r => y :: r ++ [x] | _ => l end.

Definition abs_run (o : qop) (a : AbsQueue) : option (nat * T) * AbsQueue :=
  match o with
  | OpPrepare p => (None, mkAbs (levels a) ({[p]} ∪ prepared a))
  | OpPushFront p x => (None, abs_upd p (cons x) a)
  | OpPushBack p x => (None, abs_upd p (λ l, l ++ [x]) a)
  | OpPopFirst => let '(r, a') := abs_take N a in (Some r, a')
  | OpPopFirstBetter p => let '(r, a') := abs_take p a in (Some r, a')
  | OpMove x o n =>
      (None, abs_upd n (λ l, l ++ [x])
        (mkAbs (alter (filter (λ y, y ≠ x)) o (levels a)) ({[n]} ∪ prepared a)))
  | OpRemove p x => (None, abs_upd p (filter (λ y, y ≠ x)) a)
  | OpRotate p => (None, abs_upd p rot a)
  | OpClear => (None, abs_new)
  end.

(** The discipline of the callers: levels exist, and a level is prepared before it is pushed to
    or used as the bound of [pop_first_better]. *)
Definition op_ok (o : qop) (a : AbsQueue) : Prop :=
  match o with
  | OpPrepare p | OpRemove p _ | OpRotate p => (p < N)%nat
  | OpPushFront p _ | OpPushBack p _ | OpPopFirstBetter p => p ∈ prepared a
  | OpMove _ o n => (o < N)%nat ∧ (n < N)%nat
  | OpPopFirst | OpClear => True
  end.

(** The same calls on the translated structure. *)
Definition run (o : qop) (q : ThreadQueueList T)
  : option (option (nat * T) * ThreadQueueList T) :=
  match o with
  | OpPrepare p => (pair None) <$> prepare p q
  | OpPushFront p x => (pair None) <$> push_front p x q
  | OpPushBack p x => (pair None) <$> push_back p x q
  | OpPopFirst => (λ '(r, q'), (Some r, q')) <$> pop_first T_default N q
  | OpPopFirstBetter p => (λ '(r, q'), (Some r, q')) <$> pop_first_better T_default N q p
  | OpMove x o n => (pair None) <$> move x o n q
  | OpRemove p x => (pair None) <$> remove p x q
  | OpRotate p => (pair None) <$> rotate p q
  | OpClear => Some (None, clear N q)
  end.

(** Traces: the answers of a list of calls. *)
Fixpoint run_trace (os : list qop) (q : ThreadQueueList T)
  : option (list (option (nat * T)) * ThreadQueueList T) :=
  match os with
  | [] => Some ([], q)
  | o :: os => '(r, q) ← run o q; '(rs, q) ← run_trace os q; Some (r :: rs, q)
  end.
Fixpoint abs_trace (os : list qop) (a : AbsQueue) : list (option (nat * T)) * AbsQueue :=
  match os with
  | [] => ([], a)
  | o :: os =>
      let '(r, a) := abs_run o a in let '(rs, a) := abs_trace os a in (r :: rs, a)
  end.
Fixpoint trace_ok (os : list qop) (a : AbsQueue) : Prop :=
  match os with
  | [] => True
  | o :: os => op_ok o a ∧ trace_ok os (abs_run o a).2
  end.

(** ** The representation invariant *)

(** [path q p ch p']: from [p] the links visit the levels [ch] and end at [p']. *)
Fixpoint path (q : ThreadQueueList T) (p : qptr) (ch : list nat) (p' : qptr) : Prop :=
  match ch with
  | [] => p = p'
  | i :: ch => p = Qptr i ∧ ∃ c, queues q !! i = Some c ∧ path q (next_nonempty c) ch p'
  end.

Definition linked (q : ThreadQueueList T) (i : nat) : Prop :=
  ∃ c, queues q !! i = Some c ∧ next_nonempty c ≠ UnlinkedTag.

(** The linked levels are visited in increasing order, and a level that holds a thread is linked. *)
Record wf_chain (q : ThreadQueueList T) (ch : list nat) : Prop := {
  wf_len : length (queues q) = N;
  wf_sorted : StronglySorted lt ch;
  wf_path : path q (first q) ch Null;
  wf_linked : ∀ i, i ∈ ch ↔ linked q i;
  wf_used : ∀ i c, queues q !! i = Some c → data c ≠ [] → i ∈ ch;
}.
Definition wf (q : ThreadQueueList T) : Prop := ∃ ch, wf_chain q ch.

Definition rep (q : ThreadQueueList T) (a : AbsQueue) : Prop :=
  wf q ∧ levels a = data <$> queues q ∧ ∀ i, i ∈ prepared a ↔ linked q i.

End Specification.
Arguments AbsQueue T : clear implicits.
Arguments qop T : clear implicits.

(** ** Proofs *)

Section Proofs.
Context {T : Type} `{EqDecision T} (T_default : T) (N : nat).
Implicit Types q : ThreadQueueList T.

Lemma abs_front_Some (ls : list (list T)) i x r :
  ls !! i = Some (x :: r) → (∀ j, (j < i)%nat → ls !! j = Some []) →
  abs_front ls = Some (i, x, r).
Proof.
  revert i. induction ls as [|l ls IH]; intros i Hi Hlt; [done|].
  destruct i as [|i]; simpl in Hi; [by simplify_eq/=|].
  assert (l = []) as -> by (specialize (Hlt 0%nat ltac:(lia)); by simplify_eq/=).
  simpl. rewrite (IH i); [done|done|]. intros j Hj. apply (Hlt (S j)). lia.
Qed.

Lemma abs_front_None (ls : list (list T)) :
  (∀ j l, ls !! j = Some l → l = []) → abs_front ls = None.
Proof.
  induction ls as [|l ls IH]; intros H; [done|].
  pose proof (H 0%nat l eq_refl) as ->. simpl. rewrite IH; [done|].
  intros j l' Hj. apply (H (S j) l' Hj).
Qed.

Lemma path_app q p ch1 ch2 p' :
  path q p (ch1 ++ ch2) p' ↔ ∃ p1, path q p ch1 p1 ∧ path q p1 ch2 p'.
Proof.
  revert p. induction ch1 as [|i ch1 IH]; intros p; simpl.
  - split; [intros; eauto|]. by intros (? & -> & ?).
  - setoid_rewrite IH. naive_solver.
Qed.

Lemma path_ext q q' p ch p' :
  (∀ i, i ∈ ch → next_nonempty <$> queues q' !! i = next_nonempty <$> queues q !! i) →
  path q p ch p' → path q' p ch p'.
Proof.
  revert p. induction ch as [|i ch IH]; intros p Heq; [done|]. simpl.
  intros (-> & c & Hc & Hp). split; [done|].
  pose proof (Heq i ltac:(set_solver)) as Hi. rewrite Hc in Hi. simpl in Hi.
  destruct (queues q' !! i) as [c'|] eqn:Hc'; simplify_eq/=. exists c'. split; [done|].
  rewrite Hi. apply IH; [|done]. set_solver.
Qed.

Lemma StronglySorted_lt_NoDup (ch : list nat) : StronglySorted lt ch → NoDup ch.
Proof.
  induction 1 as [|i ch Hs IH Hall]; constructor; [|done].
  rewrite Forall_forall in Hall. intros Hi. specialize (Hall _ Hi). lia.
Qed.

Lemma chain_length ch q : wf_chain N q ch → (length ch <= N)%nat.
Proof.
  intros [Hlen Hs _ Hl _]. apply StronglySorted_lt_NoDup in Hs.
  assert (ch ⊆+ seq 0 N) as Hsub.
  { apply NoDup_submseteq; [done|]. intros i Hi. apply elem_of_seq.
    apply Hl in Hi as (c & Hc & _). apply lookup_lt_Some in Hc. lia. }
  apply submseteq_length in Hsub. by rewrite length_seq in Hsub.
Qed.

Lemma queues_set_data i l q j :
  queues (set_data i l q) !! j =
  if decide (i = j) then (λ c, mkQueue (next_nonempty c) l) <$> queues q !! j
  else queues q !! j.
Proof.
  simpl. case_decide; [subst; apply list_lookup_alter_eq | by apply list_lookup_alter_ne].
Qed.

Lemma queues_set_next i p q j :
  queues (set_next i p q) !! j =
  if decide (i = j) then (λ c, mkQueue p (data c)) <$> queues q !! j
  else queues q !! j.
Proof.
  simpl. case_decide; [subst; apply list_lookup_alter_eq | by apply list_lookup_alter_ne].
Qed.

Lemma next_set_data i l q j :
  next_nonempty <$> queues (set_data i l q) !! j = next_nonempty <$> queues q !! j.
Proof. rewrite queues_set_data. case_decide; [|done]. by destruct (queues q !! j). Qed.

Lemma linked_next q i :
  linked q i ↔ ∃ p, next_nonempty <$> queues q !! i = Some p ∧ p ≠ UnlinkedTag.
Proof.
  unfold linked. destruct (queues q !! i) as [c|]; simpl; naive_solver.
Qed.

Lemma linked_set_data i l q j : linked (set_data i l q) j ↔ linked q j.
Proof. rewrite !linked_next. by setoid_rewrite next_set_data. Qed.

Lemma levels_set_data i l q :
  data <$> queues (set_data i l q) = <[i := l]> (data <$> queues q).
Proof.
  apply list_eq. intros j. rewrite list_lookup_fmap, queues_set_data.
  destruct (decide (i = j)) as [<-|Hne].
  - destruct (queues q !! i) as [c|] eqn:Hc; simpl.
    + rewrite list_lookup_insert_eq; [done|]. apply lookup_lt_Some in Hc.
      by rewrite length_fmap.
    + symmetry. apply lookup_ge_None. rewrite length_insert, length_fmap.
      by apply lookup_ge_None.
  - rewrite list_lookup_insert_ne by done. by rewrite list_lookup_fmap.
Qed.

Lemma alter_as_insert {A} (f : A → A) i (l : list A) x :
  l !! i = Some x → alter f i l = <[i := f x]> l.
Proof.
  intros Hx. apply list_eq. intros j. destruct (decide (i = j)) as [<-|].
  - rewrite list_lookup_alter_eq, Hx, list_lookup_insert_eq; [done|].
    by eapply lookup_lt_Some.
  - by rewrite list_lookup_alter_ne, list_lookup_insert_ne.
Qed.

(** Replacing the deque of a level keeps the invariant, when the level is linked or ends empty. *)
Lemma wf_set_data i l q ch :
  wf_chain N q ch → (l ≠ [] → i ∈ ch) → wf_chain N (set_data i l q) ch.
Proof.
  intros [Hlen Hs Hp Hl Hu] Hi. split; [..|intros j c Hj Hne].
  - simpl. by rewrite length_alter.
  - done.
  - eapply path_ext; [|exact Hp]. intros; apply next_set_data.
  - intros j. by rewrite linked_set_data.
  - rewrite queues_set_data in Hj. case_decide as Hij.
    + destruct (queues q !! j); simplify_eq/=. auto.
    + eauto.
Qed.

Lemma rep_set_data i l q a :
  rep N q a → (l ≠ [] → linked q i) →
  rep N (set_data i l q) (mkAbs (<[i := l]> (levels a)) (prepared a)).
Proof.
  intros ((ch & Hch) & Hlev & Hprep) Hl. split; [|split]; cbn [levels prepared].
  - exists ch. apply wf_set_data; [done|]. intros Hne. apply (wf_linked _ _ _ Hch). auto.
  - by rewrite levels_set_data, Hlev.
  - intros j. by rewrite linked_set_data.
Qed.

(** *** Popping *)

Lemma pop_loop_spec q ch fuel cur :
  (length ch <= fuel)%nat → path q cur ch Null → StronglySorted lt ch →
  (∃ i x r c, i ∈ ch ∧ queues q !! i = Some c ∧ data c = x :: r ∧
     (∀ j c', j ∈ ch → (j < i)%nat → queues q !! j = Some c' → data c' = []) ∧
     pop_first_loop T_default fuel q cur = Some ((i, x), set_data i r q) ∧
     get_first_loop T_default fuel q cur = Some x) ∨
  ((∀ j c', j ∈ ch → queues q !! j = Some c' → data c' = []) ∧
   pop_first_loop T_default fuel q cur = Some ((0%nat, T_default), q) ∧
   get_first_loop T_default fuel q cur = Some T_default).
Proof.
  intros Hf Hp Hs. revert cur ch Hf Hp Hs. induction fuel as [|fuel IH]; intros cur ch Hf Hp Hs.
  - destruct ch; [|simpl in Hf; lia]. simpl in Hp. subst. right. set_solver.
  - destruct ch as [|i ch]; simpl in Hp; [subst; right; set_solver|].
    destruct Hp as (-> & c & Hc & Hp). inv Hs. rewrite Forall_forall in *.
    simpl. rewrite Hc. simpl. destruct (data c) as [|x r] eqn:Hd.
    + destruct (IH (next_nonempty c) ch) as [(i' & x & r & c' & Hi & Hc' & Hd' & Hlt & E)|(Hall & E)];
        [simpl in Hf; lia|done|done|left|right].
      * exists i', x, r, c'. split_and!; try done; [set_solver| |naive_solver..].
        intros j c'' Hj. apply elem_of_cons in Hj as [->|Hj]; [naive_solver|eauto].
      * split; [|done]. intros j c'' Hj. apply elem_of_cons in Hj as [->|Hj]; [naive_solver|eauto].
    + left. exists i, x, r, c. split_and!; try done; [set_solver|].
      intros j c' Hj Hlt. apply elem_of_cons in Hj as [->|Hj]; [lia|].
      match goal with H : ∀ _, _ ∈ ch → _ |- _ => specialize (H j Hj) end. lia.
Qed.

Lemma pop_better_loop_spec q ch fuel cur stop :
  (length ch <= fuel)%nat → path q cur ch Null → StronglySorted lt ch → stop ∈ ch →
  (∃ i x r c, i ∈ ch ∧ (i < stop)%nat ∧ queues q !! i = Some c ∧ data c = x :: r ∧
     (∀ j c', j ∈ ch → (j < i)%nat → queues q !! j = Some c' → data c' = []) ∧
     pop_first_better_loop T_default fuel q cur stop = Some ((i, x), set_data i r q)) ∨
  ((∀ j c', j ∈ ch → (j < stop)%nat → queues q !! j = Some c' → data c' = []) ∧
   pop_first_better_loop T_default fuel q cur stop = Some ((0%nat, T_default), q)).
Proof.
  revert cur ch. induction fuel as [|fuel IH]; intros cur ch Hf Hp Hs Hstop;
    (destruct ch as [|i ch]; [set_solver|]); [simpl in Hf; lia|].
  simpl in Hp. destruct Hp as (-> & c & Hc & Hp). inv Hs. rewrite Forall_forall in *.
  simpl. destruct (Nat.ltb_spec i stop) as [Hlt|Hge].
  - rewrite Hc. simpl. destruct (data c) as [|x r] eqn:Hd.
    + destruct (IH (next_nonempty c) ch)
        as [(i' & x & r & c' & Hi & Hlt' & Hc' & Hd' & Hmin & E)|(Hall & E)];
        [simpl in Hf; lia|done|done| |left|right].
      * apply elem_of_cons in Hstop as [->|]; [lia|done].
      * exists i', x, r, c'. split_and!; try done; [set_solver|].
        intros j c'' Hj. apply elem_of_cons in Hj as [->|Hj]; [naive_solver|eauto].
      * split; [|done]. intros j c'' Hj. apply elem_of_cons in Hj as [->|Hj]; [naive_solver|eauto].
    + left. exists i, x, r, c. split_and!; try done; [set_solver|].
      intros j c' Hj Hlt'. apply elem_of_cons in Hj as [->|Hj]; [lia|].
      match goal with H : ∀ _, _ ∈ ch → _ |- _ => specialize (H j Hj) end. lia.
  - right. split; [|done]. intros j c' Hj Hlt.
    apply elem_of_cons in Hj as [->|Hj]; [lia|].
    match goal with H : ∀ _, _ ∈ ch → _ |- _ => specialize (H j Hj) end. lia.
Qed.

(** Outside the chain every level is empty, so the front of the chain is the front of the queue. *)
Lemma levels_unused q ch j :
  wf_chain N q ch → (j < N)%nat → j ∉ ch → (data <$> queues q) !! j = Some [].
Proof.
  intros Hch Hj Hnot. rewrite list_lookup_fmap.
  destruct (lookup_lt_is_Some_2 (queues q) j) as [c Hc]; [rewrite (wf_len _ _ _ Hch); lia|].
  rewrite Hc. simpl. f_equal. destruct (data c) eqn:E; [done|].
  destruct Hnot. eapply (wf_used _ _ _ Hch); [done|]. by rewrite E.
Qed.

Lemma front_of_chain q ch bound i x r c :
  wf_chain N q ch → queues q !! i = Some c → data c = x :: r → (i < bound)%nat →
  (∀ j c', j ∈ ch → (j < i)%nat → queues q !! j = Some c' → data c' = []) →
  abs_front (take bound (data <$> queues q)) = Some (i, x, r).
Proof.
  intros Hch Hi Hd Hb Hmin.
  assert (i < N)%nat as HiN by (rewrite <- (wf_len _ _ _ Hch); by eapply lookup_lt_Some).
  apply abs_front_Some.
  - rewrite lookup_take_lt by done. rewrite list_lookup_fmap, Hi. simpl. by rewrite Hd.
  - intros j Hj. rewrite lookup_take_lt by lia.
    destruct (decide (j ∈ ch)) as [Hin|Hout]; [|eapply levels_unused; eauto; lia].
    destruct (lookup_lt_is_Some_2 (queues q) j) as [c' Hc']; [rewrite (wf_len _ _ _ Hch); lia|].
    rewrite list_lookup_fmap, Hc'. simpl. f_equal. eauto.
Qed.

Lemma no_front_of_chain q ch bound :
  wf_chain N q ch →
  (∀ j c', j ∈ ch → (j < bound)%nat → queues q !! j = Some c' → data c' = []) →
  abs_front (take bound (data <$> queues q)) = None.
Proof.
  intros Hch Hall. apply abs_front_None. intros j l Hj.
  apply lookup_take_Some in Hj as (Hj & Hb). rewrite list_lookup_fmap in Hj.
  destruct (queues q !! j) as [c|] eqn:Hc; simplify_eq/=.
  destruct (data c) as [|x r] eqn:Hd; [done|]. rewrite <- Hd. eapply Hall; eauto.
  eapply (wf_used _ _ _ Hch); eauto. by rewrite Hd.
Qed.

Lemma pop_first_refines q a :
  rep N q a →
  ∃ q', pop_first T_default N q = Some ((abs_take T_default N a).1, q') ∧
        rep N q' (abs_take T_default N a).2.
Proof.
  intros Hrep. pose proof Hrep as ((ch & Hch) & Hlev & Hprep).
  unfold abs_take, pop_first. rewrite Hlev.
  destruct (pop_loop_spec q ch N (first q))
    as [(i & x & r & c & Hi & Hc & Hd & Hmin & E & _)|(Hall & E & _)];
    [by eapply chain_length|apply Hch|apply Hch| |].
  - erewrite front_of_chain; eauto.
    2:{ rewrite <- (wf_len _ _ _ Hch). by eapply lookup_lt_Some. }
    eexists. split; [exact E|]. cbn [snd]. rewrite <- Hlev. apply rep_set_data; [done|].
    intros _. by apply (wf_linked _ _ _ Hch).
  - erewrite no_front_of_chain; [|done|naive_solver]. eauto.
Qed.

Lemma pop_first_better_refines q a p :
  rep N q a → p ∈ prepared a →
  ∃ q', pop_first_better T_default N q p = Some ((abs_take T_default p a).1, q') ∧
        rep N q' (abs_take T_default p a).2.
Proof.
  intros Hrep Hp. pose proof Hrep as ((ch & Hch) & Hlev & Hprep).
  apply Hprep in Hp as Hlk. destruct (Hlk) as (cp & Hcp & _).
  unfold abs_take, pop_first_better. rewrite Hlev, Hcp. cbn [mbind option_bind].
  destruct (pop_better_loop_spec q ch N (first q) p)
    as [(i & x & r & c & Hi & Hlt & Hc & Hd & Hmin & E)|(Hall & E)];
    [by eapply chain_length|apply Hch|apply Hch|by apply (wf_linked _ _ _ Hch)| |].
  - erewrite front_of_chain; eauto.
    eexists. split; [exact E|]. cbn [snd]. rewrite <- Hlev. apply rep_set_data; [done|].
    intros _. by apply (wf_linked _ _ _ Hch).
  - erewrite no_front_of_chain; eauto.
Qed.

(** *** Linking a level *)

Lemma levels_set_next i p q : data <$> queues (set_next i p q) = data <$> queues q.
Proof.
  apply list_eq. intros j. rewrite !list_lookup_fmap, queues_set_next.
  case_decide; [|done]. by destruct (queues q !! j).
Qed.

Lemma next_set_next i p q j :
  next_nonempty <$> queues (set_next i p q) !! j =
  if decide (i = j) then (λ _, p) <$> queues q !! j else next_nonempty <$> queues q !! j.
Proof. rewrite queues_set_next. case_decide; [|done]. by destruct (queues q !! j). Qed.

(** A structure with the deques of [q] whose links follow [ch'] is well formed. *)
Lemma wf_relink q q' ch ch' p :
  wf_chain N q ch → data <$> queues q' = data <$> queues q →
  (∀ j, j ∈ ch' ↔ j = p ∨ j ∈ ch) → StronglySorted lt ch' → path q' (first q') ch' Null →
  (∀ j, linked q' j ↔ j = p ∨ linked q j) →
  wf_chain N q' ch'.
Proof.
  intros Hch Hd Hin Hs Hp Hl. split; [|done|done| |].
  - rewrite <- (wf_len _ _ _ Hch). apply (f_equal length) in Hd. by rewrite !length_fmap in Hd.
  - intros j. by rewrite Hin, Hl, (wf_linked _ _ _ Hch).
  - intros j c Hj Hne. apply Hin. right.
    apply (f_equal (lookup j)) in Hd. rewrite !list_lookup_fmap, Hj in Hd. simpl in Hd.
    destruct (queues q !! j) as [c0|] eqn:Hc0; simplify_eq/=.
    eapply (wf_used _ _ _ Hch); [done|congruence].
Qed.

Lemma link_at_front q ch p :
  wf_chain N q ch → (p < N)%nat → (∀ j, j ∈ ch → (p < j)%nat) →
  wf_chain N (set_first (Qptr p) (set_next p (first q) q)) (p :: ch).
Proof.
  intros Hch Hp Hgt.
  destruct (lookup_lt_is_Some_2 (queues q) p) as [c Hc]; [rewrite (wf_len _ _ _ Hch); lia|].
  eapply (wf_relink q _ ch _ p); [done| | | | |].
  - change (data <$> queues (set_next p (first q) q) = data <$> queues q).
    apply levels_set_next.
  - set_solver.
  - constructor; [apply Hch|]. by apply Forall_forall.
  - cbn [path first set_first]. split; [done|]. exists (mkQueue (first q) (data c)).
    change (queues (set_first (Qptr p) (set_next p (first q) q)))
      with (queues (set_next p (first q) q)).
    split; [by rewrite queues_set_next, decide_True, Hc|].
    simpl. eapply path_ext; [|apply (wf_path _ _ _ Hch)].
    intros j Hj. specialize (Hgt j Hj).
    change (next_nonempty <$> queues (set_next p (first q) q) !! j =
            next_nonempty <$> queues q !! j).
    rewrite next_set_next, decide_False by lia. done.
  - intros j. rewrite !linked_next.
    change (queues (set_first (Qptr p) (set_next p (first q) q)))
      with (queues (set_next p (first q) q)).
    rewrite next_set_next. case_decide as Hpj; [|naive_solver]. subst. rewrite Hc. simpl.
    split; [by left|]. intros _. eexists. split; [done|].
    pose proof (wf_path _ _ _ Hch) as Hpath. destruct ch; simpl in Hpath; [congruence|].
    destruct Hpath as (-> & _). done.
Qed.

Lemma link_after q ch1 k ck ch2 p :
  wf_chain N q (ch1 ++ k :: ch2) → (p < N)%nat → (k < p)%nat → (∀ j, j ∈ ch2 → (p < j)%nat) →
  queues q !! k = Some ck →
  wf_chain N (set_next k (Qptr p) (set_next p (next_nonempty ck) q)) (ch1 ++ k :: p :: ch2).
Proof.
  intros Hch Hp Hkp Hgt Hk.
  destruct (lookup_lt_is_Some_2 (queues q) p) as [c Hc]; [rewrite (wf_len _ _ _ Hch); lia|].
  pose proof (wf_sorted _ _ _ Hch) as Hs.
  assert (∀ j, j ∈ ch1 → (j < k)%nat) as Hlt1.
  { clear -Hs. induction ch1 as [|a ch1 IH]; simpl in Hs; [set_solver|].
    inv Hs. rewrite Forall_app in *. set_unfold. rewrite !Forall_forall in *.
    intros j [->|Hj]; [set_solver|]. by apply IH. }
  pose proof (wf_path _ _ _ Hch) as Hpath. apply path_app in Hpath as (pk & Hp1 & -> & ck' & Hck' & Hp2).
  simplify_eq.
  assert (∀ j, j ≠ k → j ≠ p →
    next_nonempty <$> queues (set_next k (Qptr p) (set_next p (next_nonempty ck) q)) !! j =
    next_nonempty <$> queues q !! j) as Hother.
  { intros j ? ?. rewrite next_set_next, decide_False by done.
    rewrite next_set_next, decide_False by done. done. }
  eapply (wf_relink q _ _ _ p); [exact Hch|by rewrite !levels_set_next|set_solver| | |].
  - clear -Hs Hgt Hkp. induction ch1 as [|a ch1 IH]; simpl in *; inv Hs.
    + constructor; [constructor; [done|by apply Forall_forall]|].
      constructor; [done|]. apply Forall_forall. intros j Hj. specialize (Hgt j Hj). lia.
    + constructor; [by apply IH|]. rewrite Forall_app, !Forall_cons in *.
      naive_solver lia.
  - apply path_app. exists (Qptr k). split.
    { eapply path_ext; [|exact Hp1]. intros j Hj. specialize (Hlt1 j Hj). apply Hother; lia. }
    simpl. split; [done|]. exists (mkQueue (Qptr p) (data ck)).
    change (alter (λ c, mkQueue (Qptr p) (data c)) k _)
      with (queues (set_next k (Qptr p) (set_next p (next_nonempty ck) q))).
    split.
    { rewrite queues_set_next, decide_True by done.
      rewrite queues_set_next, decide_False by lia. by rewrite Hk. }
    split; [done|]. exists (mkQueue (next_nonempty ck) (data c)). split.
    { rewrite queues_set_next, decide_False by lia.
      rewrite queues_set_next, decide_True by done. by rewrite Hc. }
    simpl. eapply path_ext; [|exact Hp2]. intros j Hj. specialize (Hgt j Hj). apply Hother; lia.
  - intros j. rewrite !linked_next. destruct (decide (j = k)) as [->|Hjk].
    + rewrite next_set_next, decide_True by done.
      rewrite queues_set_next, decide_False by lia. rewrite Hk. simpl.
      split; [|by eauto]. right. eexists. split; [done|].
      assert (linked q k) as (ck' & Hck2 & Hne)
        by (apply (wf_linked _ _ _ Hch); set_solver). by simplify_eq.
    + destruct (decide (j = p)) as [->|Hjp]; [|rewrite Hother by done; naive_solver].
      rewrite next_set_next, decide_False by done.
      rewrite next_set_next, decide_True by done. rewrite Hc. simpl.
      split; [by left|]. intros _. eexists. split; [done|].
      destruct ch2; simpl in Hp2; [congruence|]. destruct Hp2 as (-> & _). done.
Qed.

Lemma link_loop_spec q ch p i :
  wf_chain N q ch → (p < N)%nat → p ∉ ch → (i <= p)%nat →
  (∀ j, (i <= j < p)%nat → j ∉ ch) →
  ∃ q' ch', link_loop p i q = Some q' ∧ wf_chain N q' ch' ∧
            (∀ j, j ∈ ch' ↔ j = p ∨ j ∈ ch) ∧ data <$> queues q' = data <$> queues q.
Proof.
  intros Hch Hp Hnot. induction i as [|k IH]; intros Hle Hgap; simpl.
  - eexists _, _. split; [done|]. split; [apply (link_at_front _ ch); [done|done|]|].
    + intros j Hj. destruct (decide (p < j)%nat); [done|].
      destruct (decide (j = p)) as [->|]; [done|]. exfalso. eapply (Hgap j); [lia|done].
    + split; [set_solver|]. apply levels_set_next.
  - destruct (lookup_lt_is_Some_2 (queues q) k) as [ck Hck]; [rewrite (wf_len _ _ _ Hch); lia|].
    rewrite Hck. simpl. case_decide as Hne.
    + assert (k ∈ ch) as Hk by (apply (wf_linked _ _ _ Hch); by exists ck).
      apply list_elem_of_split in Hk as (ch1 & ch2 & ->).
      eexists _, _. split; [done|]. split; [apply (link_after _ ch1); [done|done|lia| |done]|].
      * intros j Hj. pose proof (wf_sorted _ _ _ Hch) as Hs.
        assert (k < j)%nat as Hkj.
        { clear -Hs Hj. induction ch1 as [|a ch1 IHc]; simpl in Hs; inv Hs; [|auto].
          rewrite Forall_forall in *. auto. }
        destruct (decide (p < j)%nat); [done|]. destruct (decide (j = p)) as [->|]; [set_solver|].
        exfalso. eapply (Hgap j); [lia|set_solver].
      * split; [set_solver|]. by rewrite !levels_set_next.
    + apply IH; [lia|]. intros j Hj. destruct (decide (j = k)) as [->|].
      * rewrite (wf_linked _ _ _ Hch). intros (c & Hc & Hn). by simplify_eq.
      * apply Hgap. lia.
Qed.

Lemma prepare_refines q a p :
  rep N q a → (p < N)%nat →
  ∃ q', prepare p q = Some q' ∧ rep N q' (mkAbs (levels a) ({[p]} ∪ prepared a)).
Proof.
  intros ((ch & Hch) & Hlev & Hprep) Hp. unfold prepare, link.
  destruct (lookup_lt_is_Some_2 (queues q) p) as [c Hc]; [rewrite (wf_len _ _ _ Hch); lia|].
  rewrite Hc. cbn [mbind option_bind]. case_decide as Hun.
  - destruct (link_loop_spec q ch p p) as (q' & ch' & E & Hch' & Hin & Hd); [done|done| |lia| |].
    + rewrite (wf_linked _ _ _ Hch). intros (c' & Hc' & Hn). by simplify_eq.
    + lia.
    + exists q'. split; [done|]. split; [by exists ch'|]. split; simpl; [congruence|].
      intros j. rewrite <- (wf_linked _ _ _ Hch'), Hin, elem_of_union, elem_of_singleton, Hprep.
      by rewrite (wf_linked _ _ _ Hch).
  - exists q. split; [done|]. split; [by exists ch|]. split; [done|]. simpl. intros j.
    rewrite elem_of_union, elem_of_singleton, Hprep. split; [|by right].
    intros [->|]; [by exists c|done].
Qed.

(** *** Operations on one level *)

Lemma rep_alter q a p f c :
  rep N q a → queues q !! p = Some c → (f (data c) ≠ [] → linked q p) →
  rep N (set_data p (f (data c)) q) (abs_upd p f a).
Proof.
  intros Hrep Hc Hl. pose proof (rep_set_data p (f (data c)) q a Hrep Hl) as H.
  unfold abs_upd. destruct Hrep as (_ & Hlev & _).
  rewrite (alter_as_insert f p _ (data c)); [done|]. by rewrite Hlev, list_lookup_fmap, Hc.
Qed.

(** A level whose deque was not empty is linked. *)
Lemma used_linked q a p c :
  rep N q a → queues q !! p = Some c → data c ≠ [] → linked q p.
Proof.
  intros ((ch & Hch) & _) Hc Hne. apply (wf_linked _ _ _ Hch).
  by eapply (wf_used _ _ _ Hch).
Qed.

Lemma level_of_index q a p : rep N q a → (p < N)%nat → is_Some (queues q !! p).
Proof. intros ((ch & Hch) & _) Hp. apply lookup_lt_is_Some_2. by rewrite (wf_len _ _ _ Hch). Qed.

Lemma push_refines q a p f :
  rep N q a → p ∈ prepared a →
  ∃ c, queues q !! p = Some c ∧ rep N (set_data p (f (data c)) q) (abs_upd p f a).
Proof.
  intros Hrep Hp. pose proof Hrep as (_ & _ & Hprep). apply Hprep in Hp as (c & Hc & Hn).
  exists c. split; [done|]. apply rep_alter; [done..|]. intros _. by exists c.
Qed.

Lemma remove_refines q a p x :
  rep N q a → (p < N)%nat →
  ∃ q', remove p x q = Some q' ∧ rep N q' (abs_upd p (filter (λ y, y ≠ x)) a).
Proof.
  intros Hrep Hp. destruct (level_of_index q a p Hrep Hp) as [c Hc]. unfold remove. rewrite Hc.
  eexists. split; [done|]. apply (rep_alter q a p (filter (λ y, y ≠ x)) c); [done|done|].
  intros Hne. eapply used_linked; [done..|]. by destruct (data c).
Qed.

Lemma rotate_refines q a p :
  rep N q a → (p < N)%nat → ∃ q', rotate p q = Some q' ∧ rep N q' (abs_upd p rot a).
Proof.
  intros Hrep Hp. destruct (level_of_index q a p Hrep Hp) as [c Hc].
  assert (rep N (set_data p (rot (data c)) q) (abs_upd p rot a)) as Hr.
  { apply (rep_alter q a p rot c); [done|done|]. intros Hne. eapply used_linked; [done..|].
    by destruct (data c). }
  unfold rotate. rewrite Hc. cbn [mbind option_bind].
  assert (set_data p (data c) q = q) as Hid.
  { destruct q as [f qs]. unfold set_data. simpl. f_equal. rewrite (alter_as_insert _ _ _ c) by done.
    apply list_insert_id. simpl in Hc. rewrite Hc. by destruct c. }
  destruct (data c) as [|x [|y r]] eqn:Hd; eexists; (split; [done|]); try done;
    unfold rot in Hr at 1; by rewrite Hid in Hr.
Qed.

Lemma rep_new : rep N (tql_new N) (abs_new (T := T) N).
Proof.
  split; [|split].
  - exists []. split; simpl; [apply length_replicate|constructor|done| |].
    + intros i. split; [set_solver|]. intros (c & Hc & Hn).
      apply lookup_replicate in Hc as (-> & _). done.
    + intros i c Hc. apply lookup_replicate in Hc as (-> & _). done.
  - simpl. by rewrite fmap_replicate.
  - simpl. intros i. split; [set_solver|]. intros (c & Hc & Hn).
    apply lookup_replicate in Hc as (-> & _). done.
Qed.

(** *** The simulation *)

Lemma run_refines o q a :
  rep N q a → op_ok N o a →
  ∃ q', run T_default N o q = Some ((abs_run T_default N o a).1, q') ∧
        rep N q' (abs_run T_default N o a).2.
Proof.
  intros Hrep Hok. destruct o as [p|p x|p x| |p|x po pn|p x|p|]; simpl in Hok |- *.
  - destruct (prepare_refines q a p) as (q' & -> & ?); [done..|]. eauto.
  - destruct (push_refines q a p (cons x)) as (c & Hc & ?); [done..|].
    unfold push_front. rewrite Hc. eauto.
  - destruct (push_refines q a p (λ l, l ++ [x])) as (c & Hc & ?); [done..|].
    unfold push_back. rewrite Hc. eauto.
  - destruct (pop_first_refines q a) as (q' & -> & ?); [done|]. simpl.
    destruct (abs_take T_default N a). eauto.
  - destruct (pop_first_better_refines q a p) as (q' & -> & ?); [done..|]. simpl.
    destruct (abs_take T_default p a). eauto.
  - destruct Hok as [Ho Hn].
    destruct (remove_refines q a po x) as (q1 & E1 & H1); [done..|].
    destruct (prepare_refines q1 _ pn H1) as (q2 & E2 & H2); [done|].
    destruct (push_refines q2 _ pn (λ l, l ++ [x]) H2) as (c & Hc & H3); [set_solver|].
    unfold move. rewrite E1. cbn [mbind option_bind]. rewrite E2. cbn [mbind option_bind].
    unfold push_back. rewrite Hc. eauto.
  - destruct (remove_refines q a p x) as (q' & -> & ?); [done..|]. eauto.
  - destruct (rotate_refines q a p) as (q' & -> & ?); [done..|]. eauto.
  - eexists. split; [done|]. apply rep_new.
Qed.

Lemma run_trace_refines os q a :
  rep N q a → trace_ok T_default N os a →
  ∃ q', run_trace T_default N os q = Some ((abs_trace T_default N os a).1, q') ∧
        rep N q' (abs_trace T_default N os a).2.
Proof.
  revert q a. induction os as [|o os IH]; intros q a Hrep Hok; simpl; [eauto|].
  destruct Hok as [Ho Hos].
  destruct (run_refines o q a Hrep Ho) as (q1 & -> & H1). cbn [mbind option_bind].
  destruct (IH q1 _ H1 Hos) as (q2 & -> & H2). simpl.
  destruct (abs_run T_default N o a) as [r a1]. simpl in *.
  destruct (abs_trace T_default N os a1). eauto.
Qed.

Lemma get_first_refines q a :
  rep N q a → get_first T_default N q = Some (abs_take T_default N a).1.2.
Proof.
  intros ((ch & Hch) & Hlev & Hprep). unfold abs_take, get_first. rewrite Hlev.
  destruct (pop_loop_spec q ch N (first q))
    as [(i & x & r & c & Hi & Hc & Hd & Hmin & _ & ->)|(Hall & _ & ->)];
    [by eapply chain_length|apply Hch|apply Hch| |].
  - erewrite front_of_chain; eauto. rewrite <- (wf_len _ _ _ Hch). by eapply lookup_lt_Some.
  - erewrite no_front_of_chain; [done|done|naive_solver].
Qed.

Lemma ToPointer_ToIndex p : ToPointer (ToIndex p) = p.
Proof.
  unfold ToPointer. destruct p as [| |i]; simpl; try done.
  destruct (Z.eqb_spec (Z.of_nat i) (-1)); [lia|]. destruct (Z.ltb_spec (Z.of_nat i) 0); [lia|].
  by rewrite Nat2Z.id.
Qed.

End Proofs.

(** ** Theorems *)

Section Theorems.
Context {T : Type} `{EqDecision T} (T_default : T) (N : nat).
Implicit Types q : ThreadQueueList T.

Lemma abs_front_inv (ls : list (list T)) i x r :
  abs_front ls = Some (i, x, r) →
  ls !! i = Some (x :: r) ∧ ∀ j, (j < i)%nat → ls !! j = Some [].
Proof.
  revert i. induction ls as [|[|y l] ls IH]; intros i H; simpl in H; [done| |].
  - destruct (abs_front ls) as [[[i' x'] r']|] eqn:E; simplify_eq/=.
    destruct (IH i' eq_refl) as [Hi Hlt]. split; [done|].
    intros [|j] Hj; [done|]. apply Hlt. lia.
  - simplify_eq. split; [done|]. lia.
Qed.

Lemma abs_front_empty (ls : list (list T)) j l :
  abs_front ls = None → ls !! j = Some l → l = [].
Proof.
  revert j. induction ls as [|[|y l'] ls IH]; intros j H Hj; simpl in *; [done| |done].
  destruct (abs_front ls) as [[[??]?]|] eqn:E; [done|].
  destruct j; simpl in Hj; [by simplify_eq|]. eauto.
Qed.

Lemma pop_better_runs_off q ch fuel cur stop :
  path q cur ch Null →
  (∀ i c, i ∈ ch → queues q !! i = Some c → (i < stop)%nat ∧ data c = []) →
  pop_first_better_loop T_default fuel q cur stop = None.
Proof.
  revert cur ch. induction fuel as [|fuel IH]; intros cur ch Hp Hall.
  - destruct ch as [|i ch]; simpl in Hp; [by subst|].
    destruct Hp as (-> & c & Hc & Hp). destruct (Hall i c) as [Hlt _]; [set_solver|done|].
    simpl. by destruct (Nat.ltb_spec i stop); [|lia].
  - destruct ch as [|i ch]; simpl in Hp; [by subst|].
    destruct Hp as (-> & c & Hc & Hp). destruct (Hall i c) as [Hlt Hd]; [set_solver|done|].
    simpl. destruct (Nat.ltb_spec i stop); [|lia]. rewrite Hc. simpl. rewrite Hd.
    eapply IH; [done|]. set_solver.
Qed.

(** C7: the linked priority queue implements its abstract specification: on every trace of calls
    that prepares a level before it is pushed to or used as the bound of [pop_first_better], the
    translated code never follows a null or unlinked pointer, its loops end within [N] levels,
    its answers are those of the list-of-lists queue, and it keeps its representation invariant. *)
Theorem tql_trace_refinement (os : list (qop T)) :
  trace_ok T_default N os (abs_new N) →
  ∃ q', run_trace T_default N os (tql_new N)
          = Some ((abs_trace T_default N os (abs_new N)).1, q') ∧
        rep N q' (abs_trace T_default N os (abs_new N)).2.
Proof. intros Hok. apply run_trace_refines; [apply rep_new|done]. Qed.

(** Scheduling order: in a well-formed queue [pop_first] either finds every level empty and
    returns [{0, T()}] without a change, or it takes the oldest thread of a level [i] all of whose
    more urgent levels are empty, and changes nothing but that deque; [get_first] names the same
    thread without removing it. *)
Theorem pop_first_most_urgent q :
  wf N q →
  (pop_first T_default N q = Some ((0%nat, T_default), q) ∧
   get_first T_default N q = Some T_default ∧
   ∀ j c, queues q !! j = Some c → data c = []) ∨
  (∃ i x r c q', pop_first T_default N q = Some ((i, x), q') ∧
     get_first T_default N q = Some x ∧
     queues q !! i = Some c ∧ data c = x :: r ∧
     (∀ j c', (j < i)%nat → queues q !! j = Some c' → data c' = []) ∧
     data <$> queues q' = <[i := r]> (data <$> queues q) ∧ wf N q').
Proof.
  intros (ch & Hch).
  destruct (pop_loop_spec T_default q ch N (first q))
    as [(i & x & r & c & Hi & Hc & Hd & Hmin & E & G)|(Hall & E & G)];
    [by eapply chain_length|apply Hch|apply Hch|right|left].
  - exists i, x, r, c, (set_data i r q). split_and!; try done; [| |].
    + intros j c' Hlt Hj. destruct (decide (j ∈ ch)) as [Hin|Hout]; [by eapply Hmin|].
      pose proof (levels_unused N q ch j Hch) as Hl. rewrite list_lookup_fmap, Hj in Hl.
      assert (j < N)%nat by (rewrite <- (wf_len _ _ _ Hch); by eapply lookup_lt_Some).
      by simplify_eq/=; naive_solver.
    + apply levels_set_data.
    + exists ch. by apply wf_set_data.
  - split_and!; [done..|]. intros j c Hj. destruct (data c) eqn:Hd; [done|].
    rewrite <- Hd. eapply Hall; [|done]. eapply (wf_used _ _ _ Hch); [done|]. by rewrite Hd.
Qed.

(** [pop_first_better] needs its bound to be a prepared level: when all the linked levels lie
    before the bound and are empty, the walk reaches the null pointer, which compares below the
    bound, and dereferences it. *)
Theorem pop_first_better_runs_off_the_list q ch p :
  wf_chain N q ch →
  (∀ i c, i ∈ ch → queues q !! i = Some c → (i < p)%nat ∧ data c = []) →
  pop_first_better T_default N q p = None.
Proof.
  intros Hch Hall. unfold pop_first_better. destruct (queues q !! p); [|done].
  eapply pop_better_runs_off; [apply Hch|done].
Qed.

(** Saving a ready queue to an archive and loading it gives back the same queue, links
    included. *)
Theorem tql_save_load q : load (save q) = q.
Proof.
  destruct q as [f qs]. unfold load, save. simpl. rewrite ToPointer_ToIndex. f_equal.
  rewrite <- list_fmap_compose. rewrite <- (list_fmap_id qs) at 2.
  apply list_fmap_ext. intros i [p l] _. simpl. by rewrite ToPointer_ToIndex.
Qed.

End Theorems.

(** ** Witnesses *)

Definition demo_trace : list (qop nat) :=
  [OpPrepare 2; OpPrepare 5; OpPushBack 5 7; OpPushBack 2 8; OpPopFirstBetter 5; OpPopFirst]%nat.

Lemma tql_trace_refinement_witness :
  trace_ok 0%nat 8 demo_trace (abs_new 8) ∧
  ∃ q', run_trace 0%nat 8 demo_trace (tql_new 8)
          = Some ([None; None; None; None; Some (2, 8); Some (5, 7)]%nat, q') ∧
        rep 8 q' (abs_trace 0%nat 8 demo_trace (abs_new 8)).2.
Proof.
  assert (trace_ok 0%nat 8 demo_trace (abs_new 8)) as Hok by (vm_compute; intuition lia).
  split; [exact Hok|]. exact (tql_trace_refinement 0%nat 8 demo_trace Hok).
Defined.

Lemma pop_first_most_urgent_witness :
  wf 8 (tql_new (T := nat) 8) ∧ ∃ r, pop_first 0%nat 8 (tql_new 8) = Some r.
Proof.
  assert (wf 8 (tql_new (T := nat) 8)) as Hwf by apply rep_new.
  split; [exact Hwf|].
  destruct (pop_first_most_urgent 0%nat 8 (tql_new 8) Hwf) as [(E & _)|(i & x & r & c & q' & E & _)];
    eexists; exact E.
Defined.

Lemma pop_first_better_runs_off_witness :
  wf_chain 8 (tql_new (T := nat) 8) [] ∧ pop_first_better 0%nat 8 (tql_new 8) 5 = None.
Proof.
  assert (wf_chain 8 (tql_new (T := nat) 8) []) as Hwf.
  { split; simpl; [done|constructor|done| |].
    - intros i. split; [set_solver|]. intros (c & Hc & Hn).
      apply (lookup_replicate 8) in Hc as (-> & _). done.
    - intros i c Hc. apply (lookup_replicate 8) in Hc as (-> & _). done. }
  split; [exact Hwf|]. apply (pop_first_better_runs_off_the_list 0%nat 8 _ [] 5 Hwf). set_solver.
Defined.
