(* ===== verification/CoreTiming.v ===== *)
(** * The event scheduler ([src/src/core/core_timing.h], [core_timing.cpp])

    Every emulated core has a [Timer] with a queue of events ordered by time and, at equal times,
    by the order in which they were added.  The vector of the source is kept as a binary heap
    with [std::push_heap], [std::pop_heap] and [std::make_heap]; only its front and its set of
    elements are ever used, so the model keeps the events in a list sorted by [Event::operator<].

    The callbacks belong to the rest of the emulator: [CB] is the type of callback identities
    and [run] says what calling one does to the scheduler. *)

From stdpp Require Import strings.
From S2P Require Import Prelude.

(** ** Clock conversions *)

Definition BASE_CLOCK_RATE_ARM11 : Z := 268111856.
Definition S64_MAX : Z := 2 ^ 63 - 1.
Definition MAX_VALUE_TO_MULTIPLY : Z := S64_MAX / BASE_CLOCK_RATE_ARM11.

(** The products are of type [u64], since [BASE_CLOCK_RATE_ARM11] is. *)
Definition msToCycles (ms : Z) : Z := s64 (u64 (BASE_CLOCK_RATE_ARM11 * ms) / 1000).

Definition usToCycles_int (us : Z) : Z := s64 (u64 (BASE_CLOCK_RATE_ARM11 * us) / 1000000).

Definition usToCycles_s64 (us : Z) : Z :=
  if MAX_VALUE_TO_MULTIPLY <? us ÷ 1000000 then S64_MAX
  else if MAX_VALUE_TO_MULTIPLY <? us then s64 (u64 (BASE_CLOCK_RATE_ARM11 * (us ÷ 1000000)))
  else s64 (u64 (BASE_CLOCK_RATE_ARM11 * us) / 1000000).

Definition usToCycles_u64 (us : Z) : Z :=
  if MAX_VALUE_TO_MULTIPLY <? us / 1000000 then S64_MAX
  else if MAX_VALUE_TO_MULTIPLY <? us then s64 (u64 (BASE_CLOCK_RATE_ARM11 * s64 (us / 1000000)))
  else s64 (u64 (BASE_CLOCK_RATE_ARM11 * s64 us) / 1000000).

Definition nsToCycles_int (ns : Z) : Z := s64 (u64 (BASE_CLOCK_RATE_ARM11 * ns) / 1000000000).

Definition nsToCycles_s64 (ns : Z) : Z :=
  if MAX_VALUE_TO_MULTIPLY <? ns ÷ 1000000000 then S64_MAX
  else if MAX_VALUE_TO_MULTIPLY <? ns then s64 (u64 (BASE_CLOCK_RATE_ARM11 * (ns ÷ 1000000000)))
  else s64 (u64 (BASE_CLOCK_RATE_ARM11 * ns) / 1000000000).

Definition nsToCycles_u64 (ns : Z) : Z :=
  if MAX_VALUE_TO_MULTIPLY <? ns / 1000000000 then S64_MAX
  else if MAX_VALUE_TO_MULTIPLY <? ns then s64 (u64 (BASE_CLOCK_RATE_ARM11 * (s64 ns ÷ 1000000000)))
  else s64 (u64 (BASE_CLOCK_RATE_ARM11 * s64 ns) / 1000000000).

(** [cycles * 1000000000] is a signed product; it must not overflow. *)
Definition s64_mul (a b : Z) : option Z :=
  if (- 2 ^ 63 <=? a * b) && (a * b <? 2 ^ 63) then Some (a * b) else None.
Definition cyclesToNs (cycles : Z) : option Z :=
  x ← s64_mul cycles 1000000000; Some (u64 x / BASE_CLOCK_RATE_ARM11).
Definition cyclesToUs (cycles : Z) : option Z :=
  x ← s64_mul cycles 1000000; Some (s64 (u64 x / BASE_CLOCK_RATE_ARM11)).
Definition cyclesToMs (cycles : Z) : option Z :=
  x ← s64_mul cycles 1000; Some (u64 x / BASE_CLOCK_RATE_ARM11).

(** ** Events and timers *)

Record Event := mkEvent {
  ev_time : Z;
  fifo_order : Z;
  user_data : Z;
  ev_type : string }.

#[export] Instance Event_eq_dec : EqDecision Event.
Proof. solve_decision. Defined.

(** [Event::operator<]: the lexicographic order of [std::tie]. *)
Definition event_ltb (a b : Event) : bool :=
  (ev_time a <? ev_time b) || ((ev_time a =? ev_time b) && (fifo_order a <? fifo_order b)).

Definition MAX_SLICE_LENGTH : Z := BASE_CLOCK_RATE_ARM11 / 234.

Record Timer := mkTimer {
  event_queue : list Event;
  event_fifo_id : Z;
  ts_queue : list Event;
  is_timer_sane : bool;
  slice_length : Z;
  downcount : Z;
  executed_ticks : Z;
  idled_cycles : Z }.

Definition Timer_new (base_ticks : Z) : Timer :=
  mkTimer [] 0 [] true MAX_SLICE_LENGTH MAX_SLICE_LENGTH base_ticks 0.

Definition set_queue (t : Timer) (q : list Event) : Timer :=
  mkTimer q (event_fifo_id t) (ts_queue t) (is_timer_sane t) (slice_length t) (downcount t)
          (executed_ticks t) (idled_cycles t).
Definition set_slice (t : Timer) (s d : Z) : Timer :=
  mkTimer (event_queue t) (event_fifo_id t) (ts_queue t) (is_timer_sane t) s d
          (executed_ticks t) (idled_cycles t).
Definition set_sane (t : Timer) (b : bool) : Timer :=
  mkTimer (event_queue t) (event_fifo_id t) (ts_queue t) b (slice_length t) (downcount t)
          (executed_ticks t) (idled_cycles t).

(** [emplace_back] and [std::push_heap]. *)
Fixpoint push_heap (e : Event) (q : list Event) : list Event :=
  match q with
  | [] => [e]
  | x :: q' => if event_ltb e x then e :: q else x :: push_heap e q'
  end.

(** [event_queue.emplace_back(Event{..., event_fifo_id++, ...})] and [push_heap]. *)
Definition push_event (t : Timer) (time user_data : Z) (type : string) : Timer :=
  mkTimer (push_heap (mkEvent time (event_fifo_id t) user_data type) (event_queue t))
          (u64 (event_fifo_id t + 1)) (ts_queue t) (is_timer_sane t) (slice_length t) (downcount t)
          (executed_ticks t) (idled_cycles t).

Definition ts_push (t : Timer) (e : Event) : Timer :=
  mkTimer (event_queue t) (event_fifo_id t) (ts_queue t ++ [e]) (is_timer_sane t) (slice_length t)
          (downcount t) (executed_ticks t) (idled_cycles t).

Definition Timer_GetTicks (t : Timer) : Z :=
  let ticks := u64 (executed_ticks t) in
  if negb (is_timer_sane t) then u64 (ticks + s64 (slice_length t - downcount t)) else ticks.

Section AddTicks.
(** [static_cast<u64>(ticks * cpu_clock_scale)]. *)
Context (scale : Z → Z).
Definition AddTicks (t : Timer) (ticks : Z) : Timer :=
  set_slice t (slice_length t) (s64 (u64 (downcount t) - scale ticks)).
End AddTicks.

Definition GetIdleTicks (t : Timer) : Z := u64 (idled_cycles t).

Definition ForceExceptionCheck (t : Timer) (cycles : Z) : Timer :=
  let cycles := Z.max 0 cycles in
  if cycles <? downcount t
  then set_slice t (s64 (slice_length t - s64 (downcount t - cycles))) cycles
  else t.

(** The loop of [MoveEvents] pops the thread-safe queue until it is empty. *)
Fixpoint move_events_loop (pending : list Event) (t : Timer) : Timer :=
  match pending with
  | [] => t
  | ev :: pending => move_events_loop pending (push_event t (ev_time ev) (user_data ev) (ev_type ev))
  end.
Definition MoveEvents (t : Timer) : Timer :=
  let pending := ts_queue t in
  move_events_loop pending
    (mkTimer (event_queue t) (event_fifo_id t) [] (is_timer_sane t) (slice_length t) (downcount t)
             (executed_ticks t) (idled_cycles t)).

Definition GetMaxSliceLength (t : Timer) : option Z :=
  match event_queue t with
  | next_event :: _ =>
      ASSERT (0 <? s64 (ev_time next_event - executed_ticks t)) ;;
      Some (s64 (ev_time next_event - executed_ticks t))
  | [] => Some MAX_SLICE_LENGTH
  end.

Definition SetNextSlice (t : Timer) (max_slice_length : Z) : Timer :=
  let slice := match event_queue t with
               | front :: _ => s32 (Z.min (s64 (ev_time front - executed_ticks t)) max_slice_length)
               | [] => max_slice_length
               end in
  set_slice t slice slice.

Definition Idle (t : Timer) : Timer :=
  mkTimer (event_queue t) (event_fifo_id t) (ts_queue t) (is_timer_sane t) (slice_length t) 0
          (executed_ticks t) (u64 (idled_cycles t + downcount t)).

Definition GetDowncount (t : Timer) : Z := downcount t.

(** The straight-line part of [Advance], before its loop. *)
Definition advance_begin (t : Timer) : Timer :=
  let t := MoveEvents t in
  let cycles_executed := s64 (slice_length t - downcount t) in
  mkTimer (event_queue t) (event_fifo_id t) (ts_queue t) true 0 0
          (s64 (executed_ticks t + cycles_executed)) 0.

(** ** All cores *)

Record Timing (CB : Type) := mkTiming {
  event_types : gmap string (option CB);
  timers : list Timer;
  current_timer : nat;
  event_queue_locked : bool }.
Arguments mkTiming {CB}.
Arguments event_types {CB}.
Arguments timers {CB}.
Arguments current_timer {CB}.
Arguments event_queue_locked {CB}.

Section Timing.
Context {CB : Type}.
Implicit Types (tm : Timing CB).

Definition set_timers tm (l : list Timer) : Timing CB :=
  mkTiming (event_types tm) l (current_timer tm) (event_queue_locked tm).
Definition set_timer tm (i : nat) (t : Timer) : Timing CB := set_timers tm (<[i := t]> (timers tm)).

(** The constructor; with [override_base_ticks < 0] the base is [GenerateBaseTicks()]. *)
Definition Timing_new (num_cores : nat) (base_ticks : Z) : Timing CB :=
  mkTiming ∅ (replicate num_cores (Timer_new base_ticks)) 0 false.

Definition RegisterEvent tm (name : string) (callback : option CB) : Timing CB * string :=
  let old := default None (event_types tm !! name) in
  let new := match callback with Some cb => Some cb | None => old end in
  (mkTiming (<[name := new]> (event_types tm)) (timers tm) (current_timer tm) (event_queue_locked tm),
   name).

(** [core_id] is [None] for the default argument, the largest [size_t]. *)
Definition ScheduleEvent tm (cycles_into_future : Z) (event_type : option string) (data : Z)
    (core_id : option nat) (thread_safe_mode : bool) : option (Timing CB) :=
  if event_queue_locked tm then Some tm
  else
    match event_type with
    | None => None
    | Some type =>
        let i := match core_id with None => current_timer tm | Some core => core end in
        timer ← timers tm !! i;
        if thread_safe_mode then
          let cycles := Z.max (MAX_SLICE_LENGTH * 2) cycles_into_future in
          Some (set_timer tm i
                  (ts_push timer (mkEvent (s64 (Timer_GetTicks timer + cycles)) 0 data type)))
        else
          let timeout := s64 (Timer_GetTicks timer + cycles_into_future) in
          if (current_timer tm =? i)%nat then
            let timer := if negb (is_timer_sane timer)
                         then ForceExceptionCheck timer cycles_into_future else timer in
            Some (set_timer tm i (push_event timer timeout data type))
          else
            Some (set_timer tm i (ts_push timer (mkEvent timeout 0 data type)))
    end.

Definition remove_matching (p : Event → bool) (t : Timer) : Timer :=
  set_queue t (List.filter (λ e, negb (p e)) (event_queue t)).

Definition UnscheduleEvent tm (event_type : string) (data : Z) : Timing CB :=
  if event_queue_locked tm then tm
  else set_timers tm
         (remove_matching (λ e, bool_decide (ev_type e = event_type) && (user_data e =? data))
            <$> timers tm).

Definition RemoveEvent tm (event_type : string) : Timing CB :=
  if event_queue_locked tm then tm
  else set_timers tm (remove_matching (λ e, bool_decide (ev_type e = event_type)) <$> timers tm).

Definition SetCurrentTimer tm (core_id : nat) : Timing CB :=
  mkTiming (event_types tm) (timers tm) core_id (event_queue_locked tm).

Definition GetTicks tm : option Z := timer ← timers tm !! current_timer tm; Some (s64 (Timer_GetTicks timer)).

(** [std::max_element] keeps the first of the largest; it needs a non-empty range. *)
Fixpoint max_element (best : Timer) (l : list Timer) : Timer :=
  match l with
  | [] => best
  | t :: l => max_element (if Timer_GetTicks best <? Timer_GetTicks t then t else best) l
  end.
Definition GetGlobalTicks tm : option Z :=
  match timers tm with
  | [] => None
  | t :: l => Some (s64 (Timer_GetTicks (max_element t l)))
  end.

Definition GetGlobalTimeUs tm : option Z :=
  ticks ← GetGlobalTicks tm; x ← s64_mul ticks 1000000; Some (s64 (u64 x / BASE_CLOCK_RATE_ARM11)).

Definition UnlockEventQueue tm : Timing CB :=
  mkTiming (event_types tm) (timers tm) (current_timer tm) false.

(** ** [Advance] *)

Section Advance.
Context (run : CB → Z → Z → Timing CB → Timing CB).

(** One round of the loop of [Advance] on timer [i]: the front event is popped and its callback
    called with its data and how late it is. *)
Definition advance_round tm (i : nat) (t : Timer) (evt : Event) (q : list Event) : Timing CB :=
  let tm := set_timer tm i (set_queue t q) in
  match default None (event_types tm !! ev_type evt) with
  | Some callback => run callback (user_data evt) (s32 (s64 (executed_ticks t - ev_time evt))) tm
  | None => tm
  end.

(** The loop returns the events it ran, in order.  [None]: out of fuel, or no timer [i]. *)
Fixpoint advance_loop (fuel : nat) tm (i : nat) : option (Timing CB * list Event) :=
  t ← timers tm !! i;
  match event_queue t with
  | evt :: q =>
      if ev_time evt <=? executed_ticks t then
        match fuel with
        | O => None
        | S fuel =>
            '(tm, ran) ← advance_loop fuel (advance_round tm i t evt q) i;
            Some (tm, evt :: ran)
        end
      else Some (tm, [])
  | [] => Some (tm, [])
  end.

Definition Advance (fuel : nat) tm (i : nat) : option (Timing CB * list Event) :=
  t ← timers tm !! i;
  '(tm, ran) ← advance_loop fuel (set_timer tm i (advance_begin t)) i;
  t ← timers tm !! i;
  Some (set_timer tm i (set_sane t false), ran).

End Advance.
End Timing.

(** ** The queue *)

Definition event_lt (a b : Event) : Prop :=
  ev_time a < ev_time b ∨ (ev_time a = ev_time b ∧ fifo_order a < fifo_order b).

Lemma event_ltb_lt a b : event_ltb a b = true ↔ event_lt a b.
Proof.
  unfold event_ltb, event_lt. rewrite orb_true_iff, andb_true_iff, !Z.ltb_lt, Z.eqb_eq. done.
Qed.

Lemma event_ltb_ge a b : event_ltb a b = false → fifo_order a ≠ fifo_order b → event_lt b a.
Proof.
  intros H Hne. assert (~ event_lt a b) as Hn by (rewrite <- event_ltb_lt; by destruct (event_ltb a b)).
  unfold event_lt in *. lia.
Qed.

#[export] Instance event_lt_trans : Transitive event_lt.
Proof. intros a b c. unfold event_lt. lia. Qed.

Lemma push_heap_perm e q : push_heap e q ≡ₚ e :: q.
Proof.
  induction q as [|x q IH]; simpl; [done|]. destruct (event_ltb e x); [done|].
  rewrite IH. constructor.
Qed.

Lemma push_heap_sorted e q :
  StronglySorted event_lt q → Forall (λ x, fifo_order x < fifo_order e) q →
  StronglySorted event_lt (push_heap e q).
Proof.
  induction q as [|x q IH]; simpl; intros Hs Hf; [by repeat constructor|].
  inversion_clear Hs as [|? ? Hs' Hx]. inversion_clear Hf as [|? ? Hfx Hf'].
  destruct (event_ltb e x) eqn:E.
  - apply event_ltb_lt in E. constructor; [by constructor|]. constructor; [done|].
    eapply Forall_impl; [exact Hx|]. intros y Hy. by transitivity x.
  - constructor; [by apply IH|]. rewrite push_heap_perm. constructor; [|done].
    apply event_ltb_ge; [done|lia].
Qed.

(** What every operation on a timer keeps: the queue is in order and no event carries a
    number that is still to be given. *)
Record timer_inv (t : Timer) : Prop := {
  inv_sorted : StronglySorted event_lt (event_queue t);
  inv_fifo : Forall (λ e, fifo_order e < event_fifo_id t) (event_queue t) }.

Lemma push_event_inv t time d type :
  timer_inv t → 0 <= event_fifo_id t < 2 ^ 64 - 1 → timer_inv (push_event t time d type).
Proof.
  intros [Hs Hf] Hid. split; simpl.
  - by apply push_heap_sorted.
  - rewrite push_heap_perm, u64_id by lia. constructor; simpl; [lia|].
    eapply Forall_impl; [done|]. simpl. lia.
Qed.

Lemma Forall_List_filter {A} (P : A → Prop) p l : Forall P l → Forall P (List.filter p l).
Proof. induction 1; simpl; [done|]. destruct (p x); [by constructor|done]. Qed.

Lemma StronglySorted_filter p q :
  StronglySorted event_lt q → StronglySorted event_lt (List.filter p q).
Proof.
  induction 1 as [|x q Hs IH Hx]; simpl; [constructor|]. destruct (p x); [|done].
  constructor; [done|]. by apply Forall_List_filter.
Qed.

Lemma remove_matching_inv p t : timer_inv t → timer_inv (remove_matching p t).
Proof. intros [Hs Hf]. split; simpl; [by apply StronglySorted_filter|by apply Forall_List_filter]. Qed.

(** What an event is apart from its number. *)
Definition event_key (e : Event) : Z * Z * string := (ev_time e, user_data e, ev_type e).

Lemma move_events_loop_spec pending t :
  timer_inv t → 0 <= event_fifo_id t → event_fifo_id t + Z.of_nat (length pending) < 2 ^ 64 →
  timer_inv (move_events_loop pending t) ∧
  event_key <$> event_queue (move_events_loop pending t) ≡ₚ event_key <$> (event_queue t ++ pending) ∧
  ts_queue (move_events_loop pending t) = ts_queue t ∧
  executed_ticks (move_events_loop pending t) = executed_ticks t ∧
  slice_length (move_events_loop pending t) = slice_length t ∧
  downcount (move_events_loop pending t) = downcount t ∧
  event_fifo_id (move_events_loop pending t) = event_fifo_id t + Z.of_nat (length pending).
Proof.
  revert t. induction pending as [|e l IH]; intros t Hi Hid Hroom; simpl in *.
  - rewrite app_nil_r. split_and!; try done. lia.
  - destruct (IH (push_event t (ev_time e) (user_data e) (ev_type e)))
      as (H1 & H2 & H3 & H4 & H5 & H6 & H7).
    + apply push_event_inv; [done|lia].
    + simpl. rewrite u64_id; lia.
    + simpl. rewrite u64_id; lia.
    + split_and!; try done.
      * rewrite H2. simpl. rewrite !fmap_app, push_heap_perm, !fmap_cons.
        apply (Permutation_middle (event_key <$> event_queue t) (event_key <$> l) (event_key e)).
      * rewrite H7. simpl. rewrite u64_id by lia. lia.
Qed.

Lemma MoveEvents_spec t :
  timer_inv t → 0 <= event_fifo_id t → event_fifo_id t + Z.of_nat (length (ts_queue t)) < 2 ^ 64 →
  timer_inv (MoveEvents t) ∧
  event_key <$> event_queue (MoveEvents t) ≡ₚ event_key <$> (event_queue t ++ ts_queue t) ∧
  ts_queue (MoveEvents t) = [] ∧ executed_ticks (MoveEvents t) = executed_ticks t ∧
  slice_length (MoveEvents t) = slice_length t ∧ downcount (MoveEvents t) = downcount t.
Proof.
  intros [Hs Hf] Hid Hroom.
  destruct (move_events_loop_spec (ts_queue t)
              (mkTimer (event_queue t) (event_fifo_id t) [] (is_timer_sane t) (slice_length t)
                       (downcount t) (executed_ticks t) (idled_cycles t)))
    as (? & ? & ? & ? & ? & ? & ?); done.
Qed.

(** ** [Advance] runs the due events *)

Definition due (now : Z) (e : Event) : bool := ev_time e <=? now.

Lemma due_front now e q :
  StronglySorted event_lt (e :: q) → due now e = false → List.filter (due now) (e :: q) = [].
Proof.
  intros Hs He. inversion_clear Hs as [|? ? _ Hq].
  assert (Forall (λ x, due now x = false) (e :: q)) as Hall.
  { constructor; [done|]. eapply Forall_impl; [exact Hq|]. unfold due in *. intros x Hx.
    apply Z.leb_gt in He. apply Z.leb_gt. unfold event_lt in Hx. lia. }
  clear Hq He. induction Hall as [|x l Hx _ IH]; simpl; [done|]. by rewrite Hx.
Qed.

Lemma none_due now q : List.filter (due now) q = [] → Forall (λ e, now < ev_time e) q.
Proof.
  induction q as [|e q IH]; simpl; [done|]. unfold due at 1. destruct (Z.leb_spec (ev_time e) now); [done|].
  intros H'. constructor; [lia|by apply IH].
Qed.

Section AdvanceProofs.
Context {CB : Type} (run : CB → Z → Z → Timing CB → Timing CB) (i : nat).

(** A callback that leaves the clock of timer [i] and its due events alone: it may schedule
    events in the future and cancel events of the future. *)
Definition keeps_due : Prop :=
  ∀ cb d late tm t, timers tm !! i = Some t → timer_inv t → is_timer_sane t = true →
    ∃ t', timers (run cb d late tm) !! i = Some t' ∧ timer_inv t' ∧ is_timer_sane t' = true ∧
      executed_ticks t' = executed_ticks t ∧
      List.filter (due (executed_ticks t)) (event_queue t') =
      List.filter (due (executed_ticks t)) (event_queue t).

Context (Hrun : keeps_due).

Lemma advance_round_spec (tm : Timing CB) t e q :
  timers tm !! i = Some t → event_queue t = e :: q → timer_inv t → is_timer_sane t = true →
  ∃ t', timers (advance_round run tm i t e q) !! i = Some t' ∧ timer_inv t' ∧
    is_timer_sane t' = true ∧ executed_ticks t' = executed_ticks t ∧
    List.filter (due (executed_ticks t)) (event_queue t') = List.filter (due (executed_ticks t)) q.
Proof.
  intros Ht Eq Hi Hs. unfold advance_round.
  assert (timer_inv (set_queue t q)) as Hi'.
  { destruct Hi as [H1 H2]. rewrite Eq in *. inversion_clear H1. inversion_clear H2. by split. }
  assert (timers (set_timer tm i (set_queue t q)) !! i = Some (set_queue t q)) as Ht'.
  { simpl. apply list_lookup_insert_eq. by eapply lookup_lt_Some. }
  destruct (default None _) as [cb|]; [|by eauto 10].
  destruct (Hrun cb (user_data e) (s32 (s64 (executed_ticks t - ev_time e)))
              (set_timer tm i (set_queue t q)) _ Ht' Hi' Hs) as (t' & ? & ? & ? & ? & ?). eauto 10.
Qed.

Lemma advance_loop_spec now ran tm t :
  timers tm !! i = Some t → timer_inv t → is_timer_sane t = true → executed_ticks t = now →
  List.filter (due now) (event_queue t) = ran →
  ∃ tm' t', advance_loop run (length ran) tm i = Some (tm', ran) ∧ timers tm' !! i = Some t' ∧
    timer_inv t' ∧ executed_ticks t' = now ∧ Forall (λ e, now < ev_time e) (event_queue t').
Proof.
  revert tm t. induction ran as [|e ran IH]; intros tm t Ht Hi Hs Hnow Hran.
  - exists tm, t. pose proof (none_due _ _ Hran) as Hnone. split_and!; try done.
    simpl. rewrite Ht. simpl. destruct (event_queue t) as [|e q]; [done|].
    inversion_clear Hnone. destruct (Z.leb_spec (ev_time e) (executed_ticks t)); [lia|done].
  - destruct (event_queue t) as [|e' q] eqn:Eq; [done|].
    destruct (due now e') eqn:Edue.
    2: { destruct Hi as [Hsort _]. rewrite Eq in Hsort. by rewrite due_front in Hran. }
    simpl in Hran. rewrite Edue in Hran. injection Hran as -> Hran.
    destruct (advance_round_spec tm t e q Ht Eq Hi Hs) as (t1 & Ht1 & Hi1 & Hs1 & Hn1 & Hd1).
    rewrite Hnow in *.
    destruct (IH (advance_round run tm i t e q) t1 Ht1 Hi1 Hs1 Hn1) as (tm' & t' & E & H'); [congruence|].
    exists tm', t'. split; [|done]. simpl. rewrite Ht. simpl. rewrite Eq, Hnow.
    unfold due in Edue. rewrite Edue. rewrite E. done.
Qed.

End AdvanceProofs.

Definition s64_range (z : Z) : Prop := - 2 ^ 63 <= z < 2 ^ 63.

Lemma s64_id z : s64_range z → s64 z = z.
Proof. intros H. apply swrap_id; [lia|]. exact H. Qed.

(** A timer whose numbers are far from the ends of their types. *)
Definition timer_bounds (t : Timer) : Prop :=
  0 <= executed_ticks t < 2 ^ 61 ∧ - 2 ^ 61 < downcount t < 2 ^ 61 ∧ - 2 ^ 61 < slice_length t < 2 ^ 61 ∧
  0 <= executed_ticks t + (slice_length t - downcount t) ∧
  0 <= event_fifo_id t ∧ event_fifo_id t + Z.of_nat (length (ts_queue t)) < 2 ^ 64.

Lemma advance_begin_spec t :
  timer_inv t → timer_bounds t →
  timer_inv (advance_begin t) ∧ is_timer_sane (advance_begin t) = true ∧
  executed_ticks (advance_begin t) = executed_ticks t + (slice_length t - downcount t) ∧
  event_key <$> event_queue (advance_begin t) ≡ₚ event_key <$> (event_queue t ++ ts_queue t).
Proof.
  intros Hi (He & Hd & Hs & Hn & Hf & Hroom).
  destruct (MoveEvents_spec t Hi Hf Hroom) as ([H1 H1'] & H2 & H3 & H4 & H5 & H6).
  unfold advance_begin. split_and!; try done. cbn [executed_ticks].
  rewrite H4, H5, H6. rewrite (s64_id (slice_length t - downcount t)) by (unfold s64_range; lia).
  apply s64_id. unfold s64_range. lia.
Qed.


(** ** Periodic events

    The header's recipe for a regular event: the callback schedules the next one
    [period - cycles_late] cycles ahead. *)

Definition reschedule (name : string) (period : Z) (_ : unit) (d late : Z) (tm : Timing unit)
  : Timing unit :=
  default tm (ScheduleEvent tm (period - late) (Some name) d None false).

Lemma s32_id z : - 2 ^ 31 <= z < 2 ^ 31 → s32 z = z.
Proof. intros H. by apply swrap_id. Qed.

Section Periodic.
Context (name : string) (period : Z) (i : nat) (now : Z).
Context (Hper : 0 < period < 2 ^ 31) (Hnow : 0 <= now < 2 ^ 63 - 2 ^ 32).

(** A sane timer [i] that is current and whose only event is the periodic one, at [time]. *)
Definition only_periodic (tm : Timing unit) (time d : Z) : Prop :=
  event_queue_locked tm = false ∧ current_timer tm = i ∧ event_types tm !! name = Some (Some tt) ∧
  ∃ t f, timers tm !! i = Some t ∧ is_timer_sane t = true ∧ executed_ticks t = now ∧
         event_queue t = [mkEvent time f d name].

Lemma periodic_round tm time d t f :
  only_periodic tm time d → timers tm !! i = Some t → event_queue t = [mkEvent time f d name] →
  now - 2 ^ 31 < time <= now →
  only_periodic (advance_round (reschedule name period) tm i t (mkEvent time f d name) []) (time + period) d.
Proof.
  intros (Hl & Hc & Hreg & t' & f' & Ht' & Hs & Hx & Hq) Ht Eq Htime.
  rewrite Ht in Ht'. injection Ht' as <-. clear Hq.
  unfold advance_round. simpl. rewrite Hreg. simpl. rewrite Hx.
  rewrite (s64_id (now - time)), s32_id by (unfold s64_range; lia).
  unfold reschedule, ScheduleEvent. simpl. rewrite Hl, Hc.
  assert (<[i := set_queue t []]> (timers tm) !! i = Some (set_queue t [])) as E.
  { apply list_lookup_insert_eq. by eapply lookup_lt_Some. }
  rewrite E. simpl. rewrite Nat.eqb_refl, Hs. simpl. split_and!; try done.
  match goal with |- context [push_event ?a ?b ?c ?e] => exists (push_event a b c e) end.
  exists (event_fifo_id t). split_and!; [|done|done|].
  - simpl. apply list_lookup_insert_eq. rewrite length_insert. by eapply lookup_lt_Some.
  - simpl. unfold Timer_GetTicks. simpl. rewrite Hs. simpl. rewrite Hx. rewrite u64_id by lia.
    rewrite s64_id by (unfold s64_range; lia). do 2 f_equal. lia.
Qed.

Lemma periodic_loop n tm time d :
  only_periodic tm time d → now - 2 ^ 31 < time → now < time + Z.of_nat n * period →
  (n = 0%nat ∨ time + (Z.of_nat n - 1) * period <= now) →
  ∃ tm' ran, advance_loop (reschedule name period) n tm i = Some (tm', ran) ∧
    only_periodic tm' (time + Z.of_nat n * period) d ∧
    ev_time <$> ran = (λ k, time + Z.of_nat k * period) <$> seq 0 n.
Proof.
  revert tm time. induction n as [|n IH]; intros tm time Hp Hlow Hhi Hlo.
  - exists tm, []. pose proof Hp as (_ & _ & _ & t & f & Ht & _ & Hx & Hq).
    split_and!; try done; [|by replace (time + Z.of_nat 0 * period) with time by lia].
    simpl. rewrite Ht. simpl. rewrite Hq. simpl. destruct (Z.leb_spec time (executed_ticks t)); [lia|done].
  - pose proof Hp as (_ & _ & _ & t & f & Ht & _ & Hx & Hq).
    assert (time <= now) by nia.
    pose proof (periodic_round tm time d t f Hp Ht Hq ltac:(lia)) as Hp'.
    destruct (IH _ _ Hp') as (tm' & ran & E & Hfin & Hran); [lia|lia| |].
    { destruct n; [by left|]. right. lia. }
    exists tm', (mkEvent time f d name :: ran). split_and!.
    + simpl. rewrite Ht. simpl. rewrite Hq. simpl.
      destruct (Z.leb_spec time (executed_ticks t)); [|lia]. by rewrite E.
    + by replace (time + Z.of_nat (S n) * period) with (time + period + Z.of_nat n * period) by lia.
    + rewrite fmap_cons, Hran. simpl. f_equal; [lia|]. rewrite <- fmap_S_seq, <- list_fmap_compose.
      apply list_fmap_ext. intros ? k _. simpl. lia.
Qed.

End Periodic.

(** A periodic event does not drift.  If the event is first due at [time] and the scheduler
    gets round to it only at [now], one [Advance] runs it for [time], [time + period], ... up to
    the last multiple that is not after [now], and leaves it scheduled for the next one: lateness
    never moves the grid.  (The lateness must fit the [int] the callback gets.) *)
Theorem periodic_event_no_drift name period i tm t f d time :
  0 < period < 2 ^ 31 → event_queue_locked tm = false → current_timer tm = i →
  event_types tm !! name = Some (Some tt) → timers tm !! i = Some t → ts_queue t = [] →
  event_queue t = [mkEvent time f d name] → timer_inv t → timer_bounds t →
  let now := executed_ticks t + (slice_length t - downcount t) in
  time <= now < time + 2 ^ 31 →
  let n := Z.to_nat ((now - time) / period + 1) in
  ∃ tm' t' f' ran, Advance (reschedule name period) n tm i = Some (tm', ran) ∧
    ev_time <$> ran = (λ k, time + Z.of_nat k * period) <$> seq 0 n ∧
    timers tm' !! i = Some t' ∧
    event_queue t' = [mkEvent (time + Z.of_nat n * period) f' d name] ∧
    now < time + Z.of_nat n * period.
Proof.
  intros Hper Hl Hc Hreg Ht Hts Hq Hi Hb now Htime n.
  destruct (advance_begin_spec t Hi Hb) as (_ & Hs1 & Hn1 & _).
  pose proof Hb as (? & ? & ? & ? & _). assert (0 <= now < 2 ^ 63) by (subst now; lia).
  assert (Z.of_nat n = (now - time) / period + 1) as En.
  { subst n. rewrite Z2Nat.id; [done|]. pose proof (Z.div_pos (now - time) period). lia. }
  pose proof (Z.div_mod (now - time) period ltac:(lia)) as Hdiv.
  pose proof (Z.mod_pos_bound (now - time) period ltac:(lia)) as Hmod.
  assert (only_periodic name i now (set_timer tm i (advance_begin t)) time d) as Hp.
  { split_and!; try done. exists (advance_begin t), f. split_and!; try done.
    - simpl. apply list_lookup_insert_eq. by eapply lookup_lt_Some.
    - unfold advance_begin, MoveEvents. rewrite Hts. done. }
  destruct (periodic_loop name period i now Hper ltac:(subst now; lia) n _ time d Hp)
    as (tm' & ran & E & (_ & _ & _ & t' & f' & Ht' & _ & _ & Hq') & Hran); [lia|lia|right; lia|].
  exists (set_timer tm' i (set_sane t' false)), (set_sane t' false), f', ran.
  unfold Advance. rewrite Ht. simpl. rewrite E. simpl. rewrite Ht'. simpl. split_and!; try done.
  - apply list_lookup_insert_eq. by eapply lookup_lt_Some.
  - lia.
Qed.

(** ** A slice never runs past an event *)

(** While a core executes: the slice ends at or before every queued event. *)
Record slice_ok (t : Timer) : Prop := {
  so_running : is_timer_sane t = false;
  so_inv : timer_inv t;
  so_bounds : timer_bounds t;
  so_downcount : downcount t <= slice_length t;
  so_covers : Forall (λ e, executed_ticks t + slice_length t <= ev_time e) (event_queue t) }.

Lemma GetTicks_running t :
  is_timer_sane t = false → timer_bounds t →
  Timer_GetTicks t = executed_ticks t + (slice_length t - downcount t).
Proof.
  intros Hs (He & Hd & Hl & Hn & _). unfold Timer_GetTicks. rewrite Hs. simpl.
  rewrite s64_id by (unfold s64_range; lia). rewrite (u64_id (executed_ticks t)) by lia.
  apply u64_id. lia.
Qed.

Lemma ForceExceptionCheck_spec t c :
  0 <= c → timer_bounds t → downcount t <= slice_length t →
  let t' := ForceExceptionCheck t c in
  downcount t' = Z.min (downcount t) c ∧
  slice_length t' - downcount t' = slice_length t - downcount t ∧
  slice_length t' <= slice_length t ∧ timer_bounds t' ∧
  event_queue t' = event_queue t ∧ event_fifo_id t' = event_fifo_id t ∧
  executed_ticks t' = executed_ticks t ∧ is_timer_sane t' = is_timer_sane t ∧
  ts_queue t' = ts_queue t.
Proof.
  intros Hc (He & Hd & Hl & Hn & Hf) Hds t'. subst t'. unfold ForceExceptionCheck.
  rewrite Z.max_r by lia. destruct (Z.ltb_spec c (downcount t)).
  - unfold timer_bounds. simpl. rewrite (s64_id (downcount t - c)) by (unfold s64_range; lia).
    rewrite s64_id by (unfold s64_range; lia). split_and!; try done; lia.
  - unfold timer_bounds. split_and!; try done; lia.
Qed.

Section Slices.
Context {CB : Type} (i : nat).
Implicit Types (tm : Timing CB).

(** What happens between two calls of [Advance] on the running core [i]. *)
Inductive core_step : Timing CB → Timing CB → Prop :=
| step_schedule tm tm' t c type d :
    0 <= c < 2 ^ 60 → timers tm !! i = Some t →
    event_fifo_id t + 1 + Z.of_nat (length (ts_queue t)) < 2 ^ 64 →
    ScheduleEvent tm c (Some type) d None false = Some tm' → core_step tm tm'
| step_schedule_thread_safe tm tm' t c type d core :
    timers tm !! i = Some t → event_fifo_id t + 1 + Z.of_nat (length (ts_queue t)) < 2 ^ 64 →
    ScheduleEvent tm c (Some type) d core true = Some tm' → core_step tm tm'
| step_unschedule tm type d : core_step tm (UnscheduleEvent tm type d)
| step_remove tm type : core_step tm (RemoveEvent tm type)
| step_execute tm t scale ticks :
    timers tm !! i = Some t → 0 <= scale ticks < 2 ^ 61 + downcount t →
    executed_ticks t + (slice_length t - downcount t) + scale ticks < 2 ^ 61 →
    core_step tm (set_timer tm i (AddTicks scale t ticks))
| step_idle tm t : timers tm !! i = Some t → 0 <= downcount t →
    core_step tm (set_timer tm i (Idle t)).

Definition core_ok tm : Prop :=
  current_timer tm = i ∧ ∃ t, timers tm !! i = Some t ∧ slice_ok t.

Lemma lookup_set_timer tm j t t' :
  timers tm !! i = Some t → timers (set_timer tm j t') !! i = Some (if decide (j = i) then t' else t).
Proof.
  intros Ht. simpl. destruct (decide (j = i)) as [->|Hne].
  - apply list_lookup_insert_eq. by eapply lookup_lt_Some.
  - by rewrite list_lookup_insert_ne.
Qed.

Lemma schedule_running t c d type :
  0 <= c < 2 ^ 60 → slice_ok t → event_fifo_id t + 1 + Z.of_nat (length (ts_queue t)) < 2 ^ 64 →
  slice_ok (push_event (ForceExceptionCheck t c) (s64 (Timer_GetTicks t + c)) d type).
Proof.
  intros Hc [Hrun Hi Hb Hds Hcov] Hroom.
  destruct (ForceExceptionCheck_spec t c ltac:(lia) Hb Hds)
    as (E1 & E2 & E3 & Hb' & Eq & Ef & Ex & Es & Ets).
  rewrite (GetTicks_running t Hrun Hb). pose proof Hb as (B1 & B2 & B3 & B4 & B5 & B6).
  rewrite s64_id by (unfold s64_range; lia).
  split.
  - simpl. congruence.
  - apply push_event_inv; [|lia]. destruct Hi as [Hi1 Hi2]. split; rewrite ?Eq, ?Ef; done.
  - unfold timer_bounds in *. simpl. rewrite Ef, Ets, u64_id by lia. lia.
  - simpl. lia.
  - simpl. rewrite push_heap_perm, Eq, Ex. constructor; simpl; [lia|].
    eapply Forall_impl; [exact Hcov|]. simpl. lia.
Qed.

Lemma remove_matching_ok p t : slice_ok t → slice_ok (remove_matching p t).
Proof.
  intros [H1 H2 H3 H4 H5]. split; try done.
  - by apply remove_matching_inv.
  - by apply Forall_List_filter.
Qed.

Lemma ts_push_ok t e :
  slice_ok t → event_fifo_id t + 1 + Z.of_nat (length (ts_queue t)) < 2 ^ 64 → slice_ok (ts_push t e).
Proof.
  intros [H1 [? ?] H3 H4 H5] Hr. split; try done. unfold timer_bounds in *. simpl.
  rewrite length_app. simpl. lia.
Qed.

Lemma core_step_ok tm tm' : core_step tm tm' → core_ok tm → core_ok tm'.
Proof.
  intros Hstep (Hc & t0 & Ht0 & Hok).
  destruct Hstep as [tm tm' t c type d Hc' Ht Hr E|tm tm' t c type d core Ht Hr E|tm type d|tm type|
                     tm t scale ticks Ht Hs Hmax|tm t Ht Hd];
    try (assert (t = t0) as -> by congruence).
  - unfold ScheduleEvent in E. destruct (event_queue_locked tm); [injection E as <-; split; eauto|].
    rewrite Hc, Ht0 in E. simpl in E. rewrite Nat.eqb_refl, (so_running _ Hok) in E. simpl in E.
    injection E as <-. split; [done|]. eexists. split.
    + simpl. apply list_lookup_insert_eq. by eapply lookup_lt_Some.
    + by apply schedule_running.
  - unfold ScheduleEvent in E. destruct (event_queue_locked tm); [injection E as <-; split; eauto|].
    set (j := match core with Some core => core | None => current_timer tm end) in *.
    destruct (timers tm !! j) as [tj|] eqn:Ej; simpl in E; [|done]. injection E as <-.
    split; [done|]. rewrite (lookup_set_timer _ _ _ _ Ht0). eexists. split; [done|].
    destruct (decide (j = i)) as [Hj|Hj]; [|done]. rewrite Hj, Ht0 in Ej. injection Ej as <-.
    by apply ts_push_ok.
  - unfold UnscheduleEvent. destruct (event_queue_locked tm); [split; eauto|]. split; [done|].
    simpl. rewrite list_lookup_fmap, Ht0. eexists. split; [done|]. by apply remove_matching_ok.
  - unfold RemoveEvent. destruct (event_queue_locked tm); [split; eauto|]. split; [done|].
    simpl. rewrite list_lookup_fmap, Ht0. eexists. split; [done|]. by apply remove_matching_ok.
  - split; [done|]. rewrite (lookup_set_timer _ _ _ _ Ht0), decide_True by done. eexists. split; [done|].
    destruct Hok as [H1 [? ?] (B1 & B2 & B3 & B4 & B5) H4 H5].
    assert (s64 (u64 (downcount t0) - scale ticks) = downcount t0 - scale ticks) as E.
    { rewrite <- (s64_id (downcount t0 - scale ticks)) by (unfold s64_range; lia).
      unfold s64, swrap, u64. f_equal.
      replace (downcount t0 `mod` 2 ^ 64 - scale ticks + 2 ^ (64 - 1))
        with (downcount t0 `mod` 2 ^ 64 + (2 ^ (64 - 1) - scale ticks)) by lia.
      rewrite Zplus_mod_idemp_l. f_equal. lia. }
    split; try done; unfold AddTicks; simpl; rewrite ?E; try lia.
    unfold timer_bounds. simpl. lia.
  - split; [done|]. rewrite (lookup_set_timer _ _ _ _ Ht0), decide_True by done. eexists. split; [done|].
    destruct Hok as [H1 [? ?] (B1 & B2 & B3 & B4 & B5) H4 H5].
    split; try done; unfold timer_bounds; simpl; lia.
Qed.

End Slices.

(** Between two calls of [Advance] a core runs instructions, idles, and schedules or cancels
    events in any order (with delays that are not negative).  From a state in which the slice ends
    no later than any queued event, every state it reaches has that property again: scheduling an
    early event shortens the slice ([ForceExceptionCheck]).  So when the core stops at the end of
    its slice no event has been passed, and its clock shows the cycles it ran. *)
Theorem slice_never_passes_event {CB} (i : nat) (tm tm' : Timing CB) :
  core_ok i tm → rtc (core_step i) tm tm' →
  ∃ t', timers tm' !! i = Some t' ∧
    Forall (λ e, executed_ticks t' + slice_length t' <= ev_time e) (event_queue t') ∧
    Timer_GetTicks t' = executed_ticks t' + (slice_length t' - downcount t') ∧
    (0 <= downcount t' → Forall (λ e, Timer_GetTicks t' <= ev_time e) (event_queue t')).
Proof.
  intros Hok Hsteps. assert (core_ok i tm') as (_ & t' & Ht' & [H1 H2 H3 H4 H5]).
  { induction Hsteps; [done|]. eauto using core_step_ok. }
  pose proof (GetTicks_running t' H1 H3) as E. exists t'. split_and!; try done.
  intros Hd. eapply Forall_impl; [exact H5|]. intros e He. simpl in *. lia.
Qed.

(** The state after [Advance] and [SetNextSlice] is one from which this holds. *)
Lemma set_next_slice_ok t max_slice :
  is_timer_sane t = false → timer_inv t → 0 <= executed_ticks t < 2 ^ 61 →
  0 <= event_fifo_id t → event_fifo_id t + Z.of_nat (length (ts_queue t)) < 2 ^ 64 →
  0 < max_slice < 2 ^ 31 → Forall (λ e, executed_ticks t < ev_time e < 2 ^ 62) (event_queue t) →
  slice_ok (SetNextSlice t max_slice).
Proof.
  intros Hs [Hi1 Hi2] He Hf Hroom Hm Hq. unfold SetNextSlice.
  set (s := match event_queue t with [] => max_slice | front :: _ => _ end).
  assert (0 < s < 2 ^ 31 ∧ Forall (λ e, executed_ticks t + s <= ev_time e) (event_queue t)) as [Hs1 Hs2].
  { subst s. destruct (event_queue t) as [|e q]; [split; [lia|done]|].
    inversion_clear Hq as [|? ? Hqe Hq']. rewrite s64_id by (unfold s64_range; lia).
    rewrite s32_id by lia. split; [lia|]. constructor; [lia|].
    inversion_clear Hi1 as [|? ? _ Hlt]. eapply Forall_impl; [exact Hlt|].
    unfold event_lt. intros x Hx. lia. }
  split; try done; unfold timer_bounds; simpl; lia.
Qed.

(** ** Conversions *)

Lemma clock_bounds : MAX_VALUE_TO_MULTIPLY = 34401209161.
Proof. reflexivity. Qed.

(** Nanoseconds to cycles.  For every time that is not negative the signed and the unsigned
    version agree and stay in range; up to [MAX_VALUE_TO_MULTIPLY] (34.4 s) the result is exact,
    above it falls short by less than one second.  A short negative time does not give a negative
    number of cycles: the unsigned product makes it a delay of more than a minute. *)
Theorem ns_to_cycles_accuracy ns :
  let exact := BASE_CLOCK_RATE_ARM11 * ns / 1000000000 in
  (0 <= ns < 2 ^ 63 →
   nsToCycles_u64 ns = nsToCycles_s64 ns ∧
   (ns <= MAX_VALUE_TO_MULTIPLY → nsToCycles_s64 ns = exact) ∧
   exact - BASE_CLOCK_RATE_ARM11 < nsToCycles_s64 ns <= exact) ∧
  (- 2 ^ 33 <= ns < 0 → 60 * BASE_CLOCK_RATE_ARM11 < nsToCycles_s64 ns).
Proof.
  intros exact. unfold nsToCycles_u64, nsToCycles_s64. rewrite clock_bounds.
  change (1000000000) with 1000000000 in *. unfold BASE_CLOCK_RATE_ARM11 in *. split.
  - intros Hns. rewrite (s64_id ns) by (unfold s64_range; lia).
    rewrite Z.quot_div_nonneg by lia.
    pose proof (Z.div_mod ns 1000000000 ltac:(lia)) as Hd.
    pose proof (Z.mod_pos_bound ns 1000000000 ltac:(lia)) as Hm.
    set (q := ns / 1000000000) in *. assert (0 <= q <= 9223372036) by lia.
    destruct (Z.ltb_spec 34401209161 q); [lia|].
    destruct (Z.ltb_spec 34401209161 ns).
    + rewrite u64_id by lia. rewrite s64_id by (unfold s64_range; lia).
      assert (268111856 * q <= exact < 268111856 * q + 268111856).
      { subst exact. split; [apply Z.div_le_lower_bound; lia|apply Z.div_lt_upper_bound; lia]. }
      split_and!; [done|lia|lia|lia].
    + rewrite u64_id by lia. fold exact. assert (0 <= exact < 2 ^ 63).
      { subst exact. split; [apply Z.div_pos; lia|apply Z.div_lt_upper_bound; lia]. }
      rewrite s64_id by (unfold s64_range; lia). split_and!; [done|done|lia|lia].
  - intros Hns. destruct (Z.ltb_spec 34401209161 (ns ÷ 1000000000)) as [Hq|_].
    { pose proof (Z.quot_opp_l (- ns) 1000000000 ltac:(lia)) as Eq.
      pose proof (Z.quot_pos (- ns) 1000000000 ltac:(lia) ltac:(lia)).
      rewrite Z.opp_involutive in Eq. lia. }
    destruct (Z.ltb_spec 34401209161 ns); [lia|].
    assert (u64 (268111856 * ns) = 268111856 * ns + 2 ^ 64) as ->.
    { unfold u64. rewrite <- (Z.mod_add _ 1) by lia. rewrite Z.mod_small; lia. }
    assert (60 * 268111856 < (268111856 * ns + 2 ^ 64) / 1000000000 < 2 ^ 63).
    { split; [apply Z.lt_le_trans with 16086711361; [lia|apply Z.div_le_lower_bound; lia]|
              apply Z.div_lt_upper_bound; lia]. }
    rewrite s64_id; [lia|]. unfold s64_range. lia.
Qed.

(** Cycles back to nanoseconds: within the range in which the conversion to cycles is exact
    the way back does not overflow and loses at most four nanoseconds, and one cycle beyond that
    range ([9223372036] cycles) the signed product of [cyclesToNs] overflows. *)
Theorem ns_cycles_roundtrip ns :
  0 <= ns <= MAX_VALUE_TO_MULTIPLY →
  (∃ r, cyclesToNs (nsToCycles_s64 ns) = Some r ∧ ns - 4 <= r <= ns) ∧
  cyclesToNs (nsToCycles_s64 MAX_VALUE_TO_MULTIPLY + 1) = None.
Proof.
  rewrite clock_bounds. intros Hns. split; [|reflexivity].
  assert (nsToCycles_s64 ns = 268111856 * ns / 1000000000) as ->.
  { unfold nsToCycles_s64, BASE_CLOCK_RATE_ARM11. rewrite clock_bounds.
    destruct (Z.ltb_spec 34401209161 (ns ÷ 1000000000)) as [Hq|_].
    { rewrite Z.quot_div_nonneg in Hq by lia.
      pose proof (Z.div_le_upper_bound ns 1000000000 34401209161). lia. }
    destruct (Z.ltb_spec 34401209161 ns); [lia|]. rewrite u64_id by lia.
    apply s64_id. unfold s64_range.
    pose proof (Z.div_pos (268111856 * ns) 1000000000).
    pose proof (Z.div_lt_upper_bound (268111856 * ns) 1000000000 (2 ^ 63)). lia. }
  set (c := 268111856 * ns / 1000000000).
  pose proof (Z.div_mod (268111856 * ns) 1000000000 ltac:(lia)) as Hd. fold c in Hd.
  pose proof (Z.mod_pos_bound (268111856 * ns) 1000000000 ltac:(lia)) as Hm.
  unfold cyclesToNs, s64_mul. unfold BASE_CLOCK_RATE_ARM11.
  destruct (Z.leb_spec (- 2 ^ 63) (c * 1000000000)); [|lia].
  destruct (Z.ltb_spec (c * 1000000000) (2 ^ 63)); [|lia]. simpl.
  rewrite u64_id by lia. eexists. split; [done|].
  split; [apply Z.div_le_lower_bound; lia|apply Z.div_le_upper_bound; lia].
Qed.

(** *** Concrete timers *)

Module Examples.

Definition running_timer : Timer :=
  mkTimer [mkEvent 1500 0 7 "vblank"] 1 [mkEvent 1200 0 9 "vblank"] false 1000 0 1000 0.
Definition timing : Timing unit :=
  mkTiming {["vblank" := Some tt]} [running_timer] 0 false.

Lemma running_inv : timer_inv running_timer.
Proof. split; simpl; repeat constructor; simpl; lia. Qed.

Lemma reschedule_keeps_due : keeps_due (λ _ _ _ tm, tm : Timing unit) 0.
Proof. intros cb d late tm t Ht Hi Hs. by exists t. Qed.


Definition late_timer : Timer := mkTimer [mkEvent 1500 0 7 "vblank"] 1 [] false 1000 0 1000 0.

Lemma periodic_witness :
  ∃ tm' ran, Advance (reschedule "vblank" 200) 3
               (mkTiming {["vblank" := Some tt]} [late_timer] 0 false) 0 = Some (tm', ran) ∧
    ev_time <$> ran = [1500; 1700; 1900].
Proof.
  destruct (periodic_event_no_drift "vblank" 200 0
              (mkTiming {["vblank" := Some tt]} [late_timer] 0 false) late_timer 0 7 1500
              ltac:(lia) eq_refl eq_refl (lookup_singleton_eq "vblank"%string (Some tt)) eq_refl eq_refl
              eq_refl ltac:(split; simpl; repeat constructor; simpl; lia)
              ltac:(unfold timer_bounds; simpl; lia) ltac:(simpl; lia))
    as (tm' & t' & f' & ran & E & Hran & _).
  exists tm', ran. split; [exact E|exact Hran].
Defined.

Definition core_timer : Timer := mkTimer [mkEvent 5000 0 7 "vblank"] 1 [] false 1000 900 1000 0.

Lemma core_timer_ok : core_ok 0 (mkTiming {["vblank" := Some tt]} [core_timer] 0 false).
Proof.
  split; [done|]. exists core_timer. split; [done|].
  split.
  - done.
  - split; simpl; [apply SSorted_cons; constructor|apply Forall_cons; split; [simpl; lia|done]].
  - unfold timer_bounds; simpl; lia.
  - simpl; lia.
  - simpl. apply Forall_cons; split; [simpl; lia|done].
Qed.

(** Scheduling an event 50 cycles ahead in a slice with 900 cycles left. *)
Lemma slice_never_passes_witness :
  ∃ tm', ScheduleEvent (mkTiming {["vblank" := Some tt]} [core_timer] 0 false) 50 (Some "vblank"%string)
           3 None false = Some tm' ∧
  ∃ t', timers tm' !! 0%nat = Some t' ∧ slice_length t' = 150 ∧ downcount t' = 50 ∧
    Forall (λ e, executed_ticks t' + slice_length t' <= ev_time e) (event_queue t').
Proof.
  eexists. split; [reflexivity|].
  edestruct (slice_never_passes_event 0 (mkTiming {["vblank" := Some tt]} [core_timer] 0 false))
    as (t' & Ht' & Hcov & _); [exact core_timer_ok| |].
  - apply rtc_once. eapply (step_schedule 0 _ _ core_timer 50 "vblank"%string 3);
      [lia|reflexivity|simpl; lia|reflexivity].
  - exists t'. split; [exact Ht'|]. injection Ht' as <-. split; [reflexivity|]. split; [reflexivity|].
    exact Hcov.
Defined.

Lemma ns_to_cycles_witness :
  nsToCycles_s64 1000000000 = BASE_CLOCK_RATE_ARM11 ∧ 60 * BASE_CLOCK_RATE_ARM11 < nsToCycles_s64 (-2).
Proof.
  split.
  - destruct (ns_to_cycles_accuracy 1000000000) as [H _].
    destruct (H ltac:(lia)) as (_ & E & _). rewrite E by (rewrite clock_bounds; lia). reflexivity.
  - destruct (ns_to_cycles_accuracy (-2)) as [_ H]. apply H. lia.
Defined.

Lemma ns_cycles_roundtrip_witness :
  ∃ r, cyclesToNs (nsToCycles_s64 1000) = Some r ∧ 996 <= r <= 1000.
Proof. apply (ns_cycles_roundtrip 1000). rewrite clock_bounds. lia. Defined.

End Examples.
