(* ===== verification/ResourceLimit.v ===== *)
(** * Resource limits ([src/src/core/hle/kernel/resource_limit.h], [resource_limit.cpp]) and the
    system calls that read and write them ([svc.cpp])

    A limit is a pair of arrays indexed by [ResourceLimitType]; an index outside them is
    undefined ([None]).  The theorems compare the two system calls that read the arrays. *)

From S2P Require Import Prelude BitField.

Inductive ResourceLimitCategory : Type := Application | SysApplet | LibApplet | Other.

#[export] Instance ResourceLimitCategory_eq_dec : EqDecision ResourceLimitCategory.
Proof. solve_decision. Defined.

(** [ResourceLimitType]: its values index the arrays; [Max] is their size. *)
Definition RL_Priority : Z := 0.
Definition RL_Commit : Z := 1.
Definition RL_Thread : Z := 2.
Definition RL_Event : Z := 3.
Definition RL_Mutex : Z := 4.
Definition RL_Semaphore : Z := 5.
Definition RL_Timer : Z := 6.
Definition RL_SharedMemory : Z := 7.
Definition RL_AddressArbiter : Z := 8.
Definition RL_CpuTime : Z := 9.
Definition RL_Max : Z := 10.

(** [Core1CpuTime]. *)
Definition PREEMPTION_DISABLED : Z := 0.
Definition PREEMPTION_SYSMODULE : Z := 1000.
Definition PREEMPTION_EXCEMPTED : Z := 10000.

Inductive Core1ScheduleMode : Type := Multi | Single.

Record ResourceLimit := mkLimit {
  m_category : ResourceLimitCategory;
  m_limit_values : list Z;
  m_current_values : list Z }.

Definition ResourceLimit_Create (category : ResourceLimitCategory) : ResourceLimit :=
  mkLimit category (replicate (Z.to_nat RL_Max) 0) (replicate (Z.to_nat RL_Max) 0).

(** [array[index]] for an index of type [size_t]. *)
Definition array_get (a : list Z) (index : Z) : option Z := a !! Z.to_nat index.
Definition array_set (a : list Z) (index value : Z) : option (list Z) :=
  _ ← array_get a index; Some (<[Z.to_nat index := value]> a).

Definition GetCurrentValue (type : Z) (r : ResourceLimit) : option Z := array_get (m_current_values r) type.
Definition GetLimitValue (type : Z) (r : ResourceLimit) : option Z := array_get (m_limit_values r) type.
Definition SetCurrentValue (type value : Z) (r : ResourceLimit) : option ResourceLimit :=
  a ← array_set (m_current_values r) type value; Some (mkLimit (m_category r) (m_limit_values r) a).
Definition SetLimitValue (type value : Z) (r : ResourceLimit) : option ResourceLimit :=
  a ← array_set (m_limit_values r) type value; Some (mkLimit (m_category r) a (m_current_values r)).

(** [Reserve] and [Release] log an excess and go on; a signed overflow is undefined. *)
Definition s32_add (a b : Z) : option Z :=
  if (- 2 ^ 31 <=? a + b) && (a + b <? 2 ^ 31) then Some (a + b) else None.
Definition Reserve (type amount : Z) (r : ResourceLimit) : option (ResourceLimit * bool) :=
  _ ← GetLimitValue type r;
  value ← GetCurrentValue type r;
  new_value ← s32_add value amount;
  r ← SetCurrentValue type new_value r;
  Some (r, true).
Definition Release (type amount : Z) (r : ResourceLimit) : option (ResourceLimit * bool) :=
  value ← GetCurrentValue type r;
  new_value ← s32_add value (- amount);
  r ← SetCurrentValue type new_value r;
  Some (r, true).

(** ** Core 1 time of an application *)

Definition cpu_time_overrides : list (Z * Z) := [
  (0x205, PREEMPTION_EXCEMPTED); (0x215, PREEMPTION_EXCEMPTED); (0x225, PREEMPTION_EXCEMPTED);
  (0x304, PREEMPTION_EXCEMPTED);
  (0x32E, PREEMPTION_EXCEMPTED);
  (0x334, 30); (0x335, 30); (0x336, 30);
  (0x348, PREEMPTION_EXCEMPTED); (0x368, PREEMPTION_EXCEMPTED); (0x562, PREEMPTION_EXCEMPTED);
  (0x349, PREEMPTION_EXCEMPTED);
  (0x370, PREEMPTION_EXCEMPTED); (0x389, PREEMPTION_EXCEMPTED);
  (0x490, PREEMPTION_EXCEMPTED); (0x491, PREEMPTION_EXCEMPTED)].

(** [ApplyAppMaxCPUSetting]: the new limit object and the schedule mode it sets. *)
Definition ApplyAppMaxCPUSetting (program_id exh_mode exh_cpu_limit : Z) (r : ResourceLimit)
  : option (ResourceLimit * Core1ScheduleMode) :=
  let '(final_mode, limit_cpu_time, set_cpu_time) :=
    if (exh_mode =? 0) && (exh_cpu_limit =? 0) then
      let uID := u32 (Z.land (Z.shiftr program_id 8) 0xFFFFF) in
      match list_find (λ v, fst v = uID) cpu_time_overrides with
      | Some (_, (_, time)) =>
          if (100 <? u32 time) && (u32 time <? 200) then (Multi, 80, u32 time - 100)
          else (Single, 80, time)
      | None => (Single, 80, 25)
      end
    else (if exh_mode =? 0 then Single else Multi, exh_cpu_limit, PREEMPTION_DISABLED) in
  r ← SetLimitValue RL_CpuTime limit_cpu_time r;
  r ← SetCurrentValue RL_CpuTime set_cpu_time r;
  Some (r, final_mode).

(** ** The limits of the system ([ResourceLimitList]) *)

Fixpoint set_limits (l : list (Z * Z)) (r : ResourceLimit) : option ResourceLimit :=
  match l with
  | [] => Some r
  | (type, value) :: l => r ← SetLimitValue type value r; set_limits l r
  end.

Definition limits_of (category : ResourceLimitCategory) (is_new_3ds : bool) (appmemalloc_size : Z)
  : list (Z * Z) :=
  match category with
  | Application =>
      [(RL_Priority, 0x18); (RL_Commit, appmemalloc_size); (RL_Thread, 0x20); (RL_Event, 0x20);
       (RL_Mutex, 0x20); (RL_Semaphore, 0x8); (RL_Timer, 0x8); (RL_SharedMemory, 0x10);
       (RL_AddressArbiter, 0x2); (RL_CpuTime, PREEMPTION_DISABLED)]
  | SysApplet =>
      [(RL_Priority, 0x4); (RL_Commit, if is_new_3ds then 0x5E06000 else 0x2606000);
       (RL_Thread, if is_new_3ds then 0x1D else 0xE); (RL_Event, if is_new_3ds then 0xB else 0x8);
       (RL_Mutex, 0x8); (RL_Semaphore, 0x4); (RL_Timer, 0x4); (RL_SharedMemory, 0x8);
       (RL_AddressArbiter, 0x3); (RL_CpuTime, PREEMPTION_EXCEMPTED)]
  | LibApplet =>
      [(RL_Priority, 0x4); (RL_Commit, 0x602000); (RL_Thread, 0xE); (RL_Event, 0x8);
       (RL_Mutex, 0x8); (RL_Semaphore, 0x4); (RL_Timer, 0x4); (RL_SharedMemory, 0x8);
       (RL_AddressArbiter, 0x1); (RL_CpuTime, PREEMPTION_EXCEMPTED)]
  | Other =>
      [(RL_Priority, 0x4); (RL_Commit, if is_new_3ds then 0x2182000 else 0x1682000);
       (RL_Thread, if is_new_3ds then 0xE1 else 0xCA); (RL_Event, if is_new_3ds then 0x108 else 0xF8);
       (RL_Mutex, if is_new_3ds then 0x25 else 0x23); (RL_Semaphore, if is_new_3ds then 0x43 else 0x40);
       (RL_Timer, if is_new_3ds then 0x2C else 0x2B);
       (RL_SharedMemory, if is_new_3ds then 0x1F else 0x1E);
       (RL_AddressArbiter, if is_new_3ds then 0x2D else 0x2B); (RL_CpuTime, PREEMPTION_SYSMODULE)]
  end.

(** The constructor fills one limit per category, and [GetForCategory] picks one. *)
Definition ResourceLimitList_new (is_new_3ds : bool) (appmemalloc_size : Z) : option (list ResourceLimit) :=
  mapM (λ c, set_limits (limits_of c is_new_3ds appmemalloc_size) (ResourceLimit_Create c))
       [Application; SysApplet; LibApplet; Other].
Definition category_index (c : ResourceLimitCategory) : nat :=
  match c with Application => 0 | SysApplet => 1 | LibApplet => 2 | Other => 3 end.
Definition GetForCategory (c : ResourceLimitCategory) (l : list ResourceLimit) : option ResourceLimit :=
  l !! category_index c.

(** ** The system calls *)

Definition ResultInvalidEnumValue : Z :=
  mkResult 1005 ErrorModule_Kernel ErrorSummary_InvalidArgument ErrorLevel_Permanent.

Section SystemCalls.
(** The guest memory as the calls use it: [names] and [values] are read by index, and the words
    that are written are collected. *)
Context (read_name : Z → Z) (read_value : Z → Z).

(** [GetResourceLimitCurrentValues] after the handle was resolved: no check of the name. *)
Fixpoint get_current_values (n : nat) (i : Z) (r : ResourceLimit) (out : list Z) : option (list Z * Z) :=
  match n with
  | O => Some (out, ResultSuccess)
  | S n =>
      value ← GetCurrentValue (u32 (read_name i)) r;
      get_current_values n (i + 1) r (out ++ [value])
  end.

(** [GetResourceLimitLimitValues]. *)
Fixpoint get_limit_values (n : nat) (i : Z) (r : ResourceLimit) (out : list Z) : option (list Z * Z) :=
  match n with
  | O => Some (out, ResultSuccess)
  | S n =>
      let name := u32 (read_name i) in
      if RL_Max <=? name then Some (out, ResultInvalidEnumValue)
      else
        value ← GetLimitValue name r;
        get_limit_values n (i + 1) r (out ++ [value])
  end.

(** [SetResourceLimitLimitValues]; the third result is the new [app_mem_alloc], if any. *)
Fixpoint set_limit_values (n : nat) (i : Z) (r : ResourceLimit) (app_mem_alloc : option Z)
  : option (ResourceLimit * Z * option Z) :=
  match n with
  | O => Some (r, ResultSuccess, app_mem_alloc)
  | S n =>
      let name := u32 (read_name i) in
      if RL_Max <=? name then Some (r, ResultInvalidEnumValue, app_mem_alloc)
      else
        let value := s64 (read_value i) in
        let value_high := Z.shiftr value 32 in
        if value_high <? 0 then Some (r, ResultOutOfRangeKernel, app_mem_alloc)
        else
          let app_mem_alloc := if (name =? RL_Commit) && negb (value_high =? 0)
                               then Some value_high else app_mem_alloc in
          r ← SetLimitValue name (s32 value) r;
          set_limit_values n (i + 1) r app_mem_alloc
  end.
End SystemCalls.

(** ** Proofs *)

Definition limit_wf (r : ResourceLimit) : Prop :=
  length (m_limit_values r) = Z.to_nat RL_Max ∧ length (m_current_values r) = Z.to_nat RL_Max.

Lemma array_get_spec a i : 0 <= i → is_Some (array_get a i) ↔ i < Z.of_nat (length a).
Proof. intros Hi. unfold array_get. rewrite lookup_lt_is_Some. lia. Qed.

(** Both operations succeed when the new count is a 32-bit value, and keep the other counts. *)
Lemma array_set_ok (a : list Z) i v :
  0 <= i < Z.of_nat (length a) →
  ∃ a', array_set a i v = Some a' ∧ length a' = length a ∧ array_get a' i = Some v ∧
    ∀ j, 0 <= j → j ≠ i → array_get a' j = array_get a j.
Proof.
  intros Hi. unfold array_set, array_get. destruct (lookup_lt_is_Some_2 a (Z.to_nat i) ltac:(lia)) as [x Hx]. rewrite Hx.
  simpl. eexists. split; [done|]. rewrite length_insert. split; [done|]. split; [apply list_lookup_insert_eq; lia|].
  intros j Hj Hne. apply list_lookup_insert_ne. lia.
Qed.

Lemma Reserve_ok type amount r v :
  limit_wf r → 0 <= type < RL_Max → GetCurrentValue type r = Some v → - 2 ^ 31 <= v + amount < 2 ^ 31 →
  ∃ r', Reserve type amount r = Some (r', true) ∧ limit_wf r' ∧ GetCurrentValue type r' = Some (v + amount) ∧
    ∀ t, 0 <= t → t ≠ type → GetCurrentValue t r' = GetCurrentValue t r.
Proof.
  intros [W1 W2] Ht Hv Hb. unfold Reserve, GetLimitValue, SetCurrentValue.
  destruct (proj2 (array_get_spec (m_limit_values r) type ltac:(lia))) as [y ->]; [rewrite W1; apply Ht|].
  cbn [mbind option_bind]. rewrite Hv. cbn [mbind option_bind]. unfold s32_add.
  rewrite (proj2 (Z.leb_le _ _)), (proj2 (Z.ltb_lt _ _)) by lia. cbn [andb mbind option_bind].
  destruct (array_set_ok (m_current_values r) type (v + amount)) as (a & -> & Hl & Ha & Ho); [rewrite W2; apply Ht|].
  cbn [mbind option_bind]. eexists. split; [done|]. split; [split; simpl; congruence|]. split; [done|]. exact Ho.
Qed.

Lemma Release_ok type amount r v :
  limit_wf r → 0 <= type < RL_Max → GetCurrentValue type r = Some v → - 2 ^ 31 <= v - amount < 2 ^ 31 →
  ∃ r', Release type amount r = Some (r', true) ∧ limit_wf r' ∧ GetCurrentValue type r' = Some (v - amount) ∧
    ∀ t, 0 <= t → t ≠ type → GetCurrentValue t r' = GetCurrentValue t r.
Proof.
  intros [W1 W2] Ht Hv Hb. unfold Release, SetCurrentValue. rewrite Hv. cbn [mbind option_bind]. unfold s32_add.
  change (v + - amount) with (v - amount).
  rewrite (proj2 (Z.leb_le _ _)), (proj2 (Z.ltb_lt _ _)) by lia. cbn [andb mbind option_bind].
  destruct (array_set_ok (m_current_values r) type (v - amount)) as (a & -> & Hl & Ha & Ho); [rewrite W2; apply Ht|].
  cbn [mbind option_bind]. eexists. split; [done|]. split; [split; simpl; congruence|]. split; [done|]. exact Ho.
Qed.

Lemma SetLimitValue_wf type v r r' : limit_wf r → SetLimitValue type v r = Some r' → limit_wf r'.
Proof.
  intros [H1 H2] E. unfold SetLimitValue, array_set in E. inv_opt. split; simpl; [|done].
  by rewrite length_insert.
Qed.

(** The calls that read and write limits check the resource name, so on any memory contents
    and any count they stay inside the arrays and return; [GetResourceLimitCurrentValues] does
    not check it: it is defined exactly when every name read is below [ResourceLimitType::Max],
    and otherwise indexes outside the array of current values. *)
Theorem current_values_name_unchecked read_name n i r out :
  limit_wf r →
  is_Some (get_limit_values read_name n i r out) ∧
  (is_Some (get_current_values read_name n i r out) ↔
   ∀ k, (k < n)%nat → u32 (read_name (i + Z.of_nat k)) < RL_Max).
Proof.
  intros Hwf. split.
  - revert i out. induction n as [|n IH]; intros i out; simpl; [done|].
    destruct (Z.leb_spec RL_Max (u32 (read_name i))); [done|]. unfold GetLimitValue.
    pose proof (u32_range (read_name i)). destruct Hwf as [Hl Hc].
    assert (is_Some (array_get (m_limit_values r) (u32 (read_name i)))) as [v ->].
    { apply array_get_spec; [lia|]. rewrite Hl. unfold RL_Max in *. lia. }
    simpl. apply IH.
  - destruct Hwf as [_ Hc]. revert i out. induction n as [|n IH]; intros i out; simpl.
    { split; [lia|done]. }
    unfold GetCurrentValue. pose proof (u32_range (read_name i)) as Hu.
    pose proof (array_get_spec (m_current_values r) (u32 (read_name i)) ltac:(lia)) as Hg.
    rewrite Hc in Hg. change (Z.of_nat (Z.to_nat RL_Max)) with RL_Max in Hg.
    destruct (array_get (m_current_values r) (u32 (read_name i))) as [v|]; simpl.
    + rewrite IH. split.
      * intros H k Hk. destruct k as [|k]; [rewrite Z.add_0_r; apply Hg; eauto|].
        replace (i + Z.of_nat (S k)) with (i + 1 + Z.of_nat k) by lia. apply H. lia.
      * intros H k Hk. replace (i + 1 + Z.of_nat k) with (i + Z.of_nat (S k)) by lia. apply H. lia.
    + split; [by intros []|]. intros H. specialize (H 0%nat ltac:(lia)). rewrite Z.add_0_r in H.
      apply Hg in H. by destruct H.
Qed.

(** Reserving an amount and releasing it again restores the limit object, whatever the
    limit says: [Reserve] never refuses, also above the limit. *)
Theorem reserve_release_roundtrip type amount r :
  limit_wf r → 0 <= type < RL_Max →
  (∀ v, GetCurrentValue type r = Some v →
        - 2 ^ 31 <= v < 2 ^ 31 ∧ - 2 ^ 31 <= v + amount < 2 ^ 31) →
  ∃ r', Reserve type amount r = Some (r', true) ∧ Release type amount r' = Some (r, true).
Proof.
  intros [Hl Hc] Ht Hv. unfold Reserve, Release, GetLimitValue, GetCurrentValue in *.
  assert (is_Some (array_get (m_limit_values r) type)) as [lv ->].
  { apply array_get_spec; [lia|]. rewrite Hl. unfold RL_Max in *. lia. }
  assert (is_Some (array_get (m_current_values r) type)) as [v Ev].
  { apply array_get_spec; [lia|]. rewrite Hc. unfold RL_Max in *. lia. }
  destruct (Hv v Ev) as [Hr1 Hr2]. simpl. rewrite Ev. simpl. unfold s32_add.
  destruct (Z.leb_spec (- 2 ^ 31) (v + amount)); [|lia].
  destruct (Z.ltb_spec (v + amount) (2 ^ 31)); [|lia]. simpl.
  unfold SetCurrentValue, array_set. rewrite Ev. simpl. eexists. split; [done|].
  unfold array_get in *. simpl. rewrite list_lookup_insert_eq by (by eapply lookup_lt_Some). simpl.
  replace (v + amount + - amount) with v by lia.
  destruct (Z.leb_spec (- 2 ^ 31) v); [|lia]. destruct (Z.ltb_spec v (2 ^ 31)); [|lia]. simpl.
  do 2 f_equal. rewrite list_insert_insert_eq, list_insert_id by done. by destruct r.
Qed.

(** The four limits of the system are built without an index error, each category finds its
    own one, and only the application's memory limit depends on the memory layout. *)
Theorem resource_limits_of_system is_new app_size :
  ∃ l, ResourceLimitList_new is_new app_size = Some l ∧
    ∀ c, ∃ r, GetForCategory c l = Some r ∧ m_category r = c ∧ limit_wf r ∧
      m_limit_values r = snd <$> limits_of c is_new app_size ∧
      m_current_values r = replicate (Z.to_nat RL_Max) 0.
Proof.
  destruct is_new; (eexists; split; [vm_compute; reflexivity|]); intros []; eexists;
    (split; [reflexivity|]);
    (split; [reflexivity|split; [split; reflexivity|split; reflexivity]]).
Qed.

(** *** Witnesses *)

Definition demo_limit : ResourceLimit :=
  mkLimit Application [0x18; 0; 0x20; 0x20; 0x20; 8; 8; 0x10; 2; 0] [0; 0; 3; 0; 0; 0; 0; 0; 0; 0].

Lemma demo_limit_wf : limit_wf demo_limit.
Proof. done. Qed.

Lemma current_values_name_unchecked_witness :
  get_current_values (λ _, 10) 1 0 demo_limit [] = None.
Proof.
  destruct (current_values_name_unchecked (λ _, 10) 1 0 demo_limit [] demo_limit_wf) as [_ H].
  destruct (get_current_values (λ _, 10) 1 0 demo_limit []) as [x|] eqn:E; [|reflexivity].
  exfalso. assert (is_Some (Some x)) as Hs by eauto. pose proof (proj1 H Hs 0%nat ltac:(lia)) as Hlt.
  vm_compute in Hlt. discriminate Hlt.
Defined.

Lemma reserve_release_witness :
  ∃ r', Reserve RL_Thread 100 demo_limit = Some (r', true) ∧
        Release RL_Thread 100 r' = Some (demo_limit, true).
Proof.
  apply (reserve_release_roundtrip RL_Thread 100 demo_limit demo_limit_wf).
  - unfold RL_Thread, RL_Max. lia.
  - intros v [= <-]. lia.
Defined.
