(* ===== verification/Process.v ===== *)
(** * Processes: kernel capabilities and memory management
    ([src/src/core/hle/kernel/process.h], [process.cpp], [svc.cpp])

    A process owns an address space ([VMManager]), draws physical memory from one of the regions of
    FCRAM ([MemoryRegion]) and from the BASE region for thread-local storage, and is charged to a
    resource limit.  The operations here compose those components, so the state [PState] holds all
    of them; the regions are a list and the process names its own by an index, so that a process of
    the BASE region shares it with its thread-local storage.

    As everywhere, [None] is an [ASSERT] that fails or an undefined access, and error codes are
    values. *)

From S2P Require Import Prelude BitField IntervalSet MemoryRegion PageTable Memory VMManager ResourceLimit.

(** ** Kernel capabilities *)

Record AddressMapping := mkMapping {
  mapping_address : Z;
  mapping_size : Z;
  mapping_read_only : bool;
  mapping_unk_flag : bool }.

(** The part of a process that the capabilities set.  [svc_access_mask] is a [std::bitset<0x80>],
    [address_mappings] a [static_vector] of capacity 8. *)
Record KernelCaps := mkCaps {
  svc_access_mask : list bool;
  handle_table_size : Z;
  address_mappings : list AddressMapping;
  flags_raw : Z;
  kernel_version : Z }.

Definition ADDRESS_MAPPINGS_CAPACITY : nat := 8.

Definition set_svc_mask (m : list bool) (c : KernelCaps) : KernelCaps :=
  mkCaps m (handle_table_size c) (address_mappings c) (flags_raw c) (kernel_version c).
Definition set_handle_table_size (n : Z) (c : KernelCaps) : KernelCaps :=
  mkCaps (svc_access_mask c) n (address_mappings c) (flags_raw c) (kernel_version c).
Definition set_flags (f : Z) (c : KernelCaps) : KernelCaps :=
  mkCaps (svc_access_mask c) (handle_table_size c) (address_mappings c) f (kernel_version c).
Definition set_kernel_version (v : Z) (c : KernelCaps) : KernelCaps :=
  mkCaps (svc_access_mask c) (handle_table_size c) (address_mappings c) (flags_raw c) v.

(** [address_mappings.push_back]: beyond the capacity it throws, which nothing catches. *)
Definition push_mapping (m : AddressMapping) (c : KernelCaps) : option KernelCaps :=
  ASSERT (length (address_mappings c) <? ADDRESS_MAPPINGS_CAPACITY)%nat ;;
  Some (mkCaps (svc_access_mask c) (handle_table_size c) (address_mappings c ++ [m]) (flags_raw c) (kernel_version c)).

(** The loop over the bits of a syscall mask; [bits] has 24 bits, so 24 rounds are enough. *)
Fixpoint mask_loop (fuel : nat) (bits : Z) (index : nat) (mask : list bool) : list bool :=
  match fuel with
  | O => mask
  | S fuel =>
      if negb (bits =? 0) && (index <? length mask)%nat
      then mask_loop fuel (Z.shiftr bits 1) (S index) (<[index := Z.odd bits]> mask)
      else mask
  end.

Definition CAP_UNUSED : Z := 0xFFFFFFFF.

(** One descriptor; [next] is the one that follows it.  The flag tells to skip [next]. *)
Definition parse_cap (descriptor : Z) (next : option Z) (c : KernelCaps) : option (KernelCaps * bool) :=
  let type := Z.shiftr descriptor 20 in
  if descriptor =? CAP_UNUSED then Some (c, false)
  else if Z.land type 0xF00 =? 0xE00 then Some (c, false)
  else if Z.land type 0xF80 =? 0xF00 then
    let index := Z.land (Z.shiftr descriptor 24) 7 * 24 in
    let bits := Z.land descriptor 0xFFFFFF in
    Some (set_svc_mask (mask_loop 24 bits (Z.to_nat index) (svc_access_mask c)) c, false)
  else if Z.land type 0xFF0 =? 0xFE0 then Some (set_handle_table_size (Z.land descriptor 0x3FF) c, false)
  else if Z.land type 0xFF8 =? 0xFF0 then Some (set_flags (Z.land descriptor 0xFFFF) c, false)
  else if Z.land type 0xFFE =? 0xFF8 then
    match next with
    | None => Some (c, false)
    | Some end_desc =>
        if negb (Z.land (Z.shiftr end_desc 20) 0xFFE =? 0xFF8) then Some (c, false)
        else
          let address := u32 (Z.shiftl descriptor 12) in
          let end_address := u32 (Z.shiftl end_desc 12) in
          let size := if address <? end_address then end_address - address else 0 in
          c ← push_mapping (mkMapping address size (Z.testbit descriptor 20) (Z.testbit end_desc 20)) c;
          Some (c, true)
    end
  else if Z.land type 0xFFF =? 0xFFE then
    c ← push_mapping (mkMapping (u32 (Z.shiftl descriptor 12)) CITRA_PAGE_SIZE false false) c;
    Some (c, false)
  else if Z.land type 0xFE0 =? 0xFC0 then Some (set_kernel_version (Z.land descriptor 0xFFFF) c, false)
  else Some (c, false).

Fixpoint ParseKernelCaps (kernel_caps : list Z) (c : KernelCaps) : option KernelCaps :=
  match kernel_caps with
  | [] => Some c
  | descriptor :: kernel_caps =>
      '(c, skip) ← parse_cap descriptor (head kernel_caps) c;
      match skip, kernel_caps with
      | true, _ :: rest => ParseKernelCaps rest c
      | _, _ => ParseKernelCaps kernel_caps c
      end
  end.

(** [svc_access_mask.set()] and the mappings of homebrew; the fourth field of the mappings is left
    to its default. *)
Definition Set3dsxKernelCaps (c : KernelCaps) : KernelCaps :=
  mkCaps (replicate 0x80 true) (handle_table_size c)
    [mkMapping 0x1FF50000 0x8000 true false; mkMapping 0x1FF70000 0x8000 true false;
     mkMapping 0x1F000000 0x600000 false false]
    (flags_raw c) 0x23a.

(** ** State *)

Record Process (IS : Type) := mkProcess {
  caps : KernelCaps;
  vm_manager : VMManager;
  watchpoints : gmap Z (Z * MemoryRef);
  memory_used : Z;
  memory_region : option nat;
  holding_memory : IS;
  holding_tls_memory : IS;
  tls_slots : list (list bool);
  resource_limit : ResourceLimit }.
Arguments mkProcess {IS} _ _ _ _ _ _ _ _ _.
Arguments caps {IS} _.
Arguments vm_manager {IS} _.
Arguments watchpoints {IS} _.
Arguments memory_used {IS} _.
Arguments memory_region {IS} _.
Arguments holding_memory {IS} _.
Arguments holding_tls_memory {IS} _.
Arguments tls_slots {IS} _.
Arguments resource_limit {IS} _.

(** A process with the parts of the kernel its memory management works on. *)
Record PState (IS : Type) := mkPState {
  process : Process IS;
  memory_regions : list (MemoryRegionInfo IS);
  memory : MemorySystem }.
Arguments mkPState {IS} _ _ _.
Arguments process {IS} _.
Arguments memory_regions {IS} _.
Arguments memory {IS} _.

(** [kernel.GetMemoryRegion(MemoryRegion::BASE)]. *)
Definition BASE_REGION : nat := 2.

Section Operations.
Context {IS : Type} `{IntervalSet IS}.
Implicit Types (p : Process IS) (s : PState IS).

Definition set_vm (vm : VMManager) p : Process IS :=
  mkProcess (caps p) vm (watchpoints p) (memory_used p) (memory_region p) (holding_memory p)
    (holding_tls_memory p) (tls_slots p) (resource_limit p).
Definition set_memory_used (n : Z) p : Process IS :=
  mkProcess (caps p) (vm_manager p) (watchpoints p) (u32 n) (memory_region p) (holding_memory p)
    (holding_tls_memory p) (tls_slots p) (resource_limit p).
Definition set_holding (h : IS) p : Process IS :=
  mkProcess (caps p) (vm_manager p) (watchpoints p) (memory_used p) (memory_region p) h
    (holding_tls_memory p) (tls_slots p) (resource_limit p).
Definition set_tls (h : IS) (slots : list (list bool)) p : Process IS :=
  mkProcess (caps p) (vm_manager p) (watchpoints p) (memory_used p) (memory_region p) (holding_memory p)
    h slots (resource_limit p).
Definition set_limit (l : ResourceLimit) p : Process IS :=
  mkProcess (caps p) (vm_manager p) (watchpoints p) (memory_used p) (memory_region p) (holding_memory p)
    (holding_tls_memory p) (tls_slots p) l.

Definition set_process (p : Process IS) s : PState IS := mkPState p (memory_regions s) (memory s).
Definition set_memory (ms : MemorySystem) s : PState IS := mkPState (process s) (memory_regions s) ms.
Definition set_region (i : nat) (r : MemoryRegionInfo IS) s : PState IS :=
  mkPState (process s) (<[i := r]> (memory_regions s)) (memory s).

(** [memory_region->...]: null until the process runs. *)
Definition own_region s : option (nat * MemoryRegionInfo IS) :=
  i ← memory_region (process s);
  r ← memory_regions s !! i;
  Some (i, r).

Definition process_pages p : Pages := mkPages (page_table (vm_manager p)) (watchpoints p).

(** The marks of the rasterizer, by page, as [VMManager] takes them. *)
Definition page_cached (ms : MemorySystem) (page : Z) : bool := IsCached (page * CITRA_PAGE_SIZE) ms.

(** [memory_used += size] with [Reserve(Commit, size)], and back. *)
Definition charge (size : Z) p : option (Process IS) :=
  '(limit, _) ← Reserve RL_Commit (s32 size) (resource_limit p);
  Some (set_limit limit (set_memory_used (memory_used p + size) p)).
Definition discharge (size : Z) p : option (Process IS) :=
  '(limit, _) ← Release RL_Commit (s32 size) (resource_limit p);
  Some (set_limit limit (set_memory_used (memory_used p - size) p)).

(** [std::fill] over a range of FCRAM. *)
Definition clear_fcram (lower upper : Z) (ms : MemorySystem) : option MemorySystem :=
  first ← GetFCRAMPointer lower ms;
  last ← GetFCRAMPointer upper ms;
  store_bytes ms first (replicate (Z.to_nat (last - first)) 0).

(** [MapBackingMemory] followed by [Reprotect] of the area it returns; the [ASSERT] is
    [vma.Succeeded()]. *)
Definition map_protected (ms : MemorySystem) (vm : VMManager) (target : Z) (memory : MemoryRef) (size : Z)
    (state : MemoryState) (perms : Z) : option VMManager :=
  '(vm, vma) ← MapBackingMemory (page_cached ms) vm target memory size state;
  match vma with
  | inl _ => None
  | inr vma => '(vm, _) ← Reprotect (page_cached ms) vm vma perms; Some vm
  end.

(** ** The heap *)

Definition GetLinearHeapAreaAddress p : Z :=
  if kernel_version (caps p) <? 0x22C then LINEAR_HEAP_VADDR else NEW_LINEAR_HEAP_VADDR.
Definition GetLinearHeapBase s : option Z :=
  '(_, r) ← own_region s; Some (u32 (GetLinearHeapAreaAddress (process s) + region_base r)).
Definition GetLinearHeapLimit s : option Z :=
  base ← GetLinearHeapBase s; '(_, r) ← own_region s; Some (u32 (base + region_size r)).

(** The loop of [HeapAllocate] over the intervals of FCRAM. *)
Fixpoint map_heap_blocks (blocks : list interval) (interval_target perms : Z) (state : MemoryState)
    (ms : MemorySystem) (vm : VMManager) : option (MemorySystem * VMManager) :=
  match blocks with
  | [] => Some (ms, vm)
  | (lower, upper) :: blocks =>
      let interval_size := u32 (upper - lower) in
      ms ← clear_fcram lower upper ms;
      ref ← GetFCRAMRef lower ms;
      vm ← map_protected ms vm interval_target ref interval_size state perms;
      map_heap_blocks blocks (u32 (interval_target + interval_size)) perms state ms vm
  end.

(** [holding_memory += set]: every segment is added. *)
Definition iset_union (a b : IS) : IS := foldr iset_add a (iset_segments b).

Definition in_heap (target size : Z) : bool :=
  negb ((target <? HEAP_VADDR) || (HEAP_VADDR_END <? u32 (target + size)) || (u32 (target + size) <? target)).

Definition Process_HeapAllocate (target size perms : Z) (state : MemoryState) (skip_range_check : bool) s
  : option (PState IS * ResultVal Z) :=
  if negb (in_heap target size) && negb skip_range_check then Some (s, inl ResultInvalidAddress)
  else
    let vm := vm_manager (process s) in
    i ← FindVMA (vma_map vm) target;
    vma ← vma_map vm !! i;
    if negb (bool_decide (vma_type vma = VMManager.Free)) ||
       (u32 (vma_base vma + vma_size vma) <? u32 (target + size))
    then Some (s, inl ResultInvalidAddressState)
    else
      '(ri, r) ← own_region s;
      '(allocated_fcram, r) ← HeapAllocate size r;
      match iset_segments allocated_fcram with
      | [] => Some (set_region ri r s, inl ResultOutOfHeapMemory)
      | blocks =>
          '(ms, vm) ← map_heap_blocks blocks target perms state (memory s) vm;
          p ← charge size (set_holding (iset_union (holding_memory (process s)) allocated_fcram)
                             (set_vm vm (process s)));
          Some (set_memory ms (set_process p (set_region ri r s)), inr target)
      end.

(** The loop of [HeapFree] over the host blocks behind the range. *)
Fixpoint free_blocks_loop (blocks : list (MemoryRef * Z)) (ms : MemorySystem) (r : MemoryRegionInfo IS)
    (holding : IS) : option (MemoryRegionInfo IS * IS) :=
  match blocks with
  | [] => Some (r, holding)
  | (backing_memory, block_size) :: blocks =>
      backing_offset ← GetFCRAMOffset (GetPtr backing_memory) ms;
      r ← MemoryRegion.Free backing_offset block_size r;
      free_blocks_loop blocks ms r (iset_sub (backing_offset, u32 (backing_offset + block_size)) holding)
  end.

Definition Process_HeapFree (target size : Z) s : option (PState IS * Z) :=
  if negb (in_heap target size) then Some (s, ResultInvalidAddress)
  else if size =? 0 then Some (s, ResultSuccess)
  else
    backing_blocks ← GetBackingBlocksForRange (vm_manager (process s)) target size;
    match backing_blocks with
    | inl error => Some (s, error)
    | inr blocks =>
        '(ri, r) ← own_region s;
        '(r, holding) ← free_blocks_loop blocks (memory s) r (holding_memory (process s));
        '(vm, result) ← UnmapRange (page_cached (memory s)) (vm_manager (process s)) target size;
        ASSERT (IsSuccess result) ;;
        p ← discharge size (set_holding holding (set_vm vm (process s)));
        Some (set_process p (set_region ri r s), ResultSuccess)
    end.

(** ** The linear heap *)

(** The end of [LinearAllocate], once the physical range is taken. *)
Definition map_linear (target physical_offset size perms : Z) s : option (PState IS * ResultVal Z) :=
  backing_memory ← GetFCRAMRef physical_offset (memory s);
  ms ← store_bytes (memory s) (GetPtr backing_memory) (replicate (Z.to_nat size) 0);
  vm ← map_protected ms (vm_manager (process s)) target backing_memory size StateContinuous perms;
  p ← charge size (set_holding (iset_add (physical_offset, u32 (physical_offset + size)) (holding_memory (process s)))
                     (set_vm vm (process s)));
  Some (set_memory ms (set_process p s), inr target).

(** Whether a range lies in the part of the linear heap that belongs to the region. *)
Definition in_linear_heap (target size : Z) s : option bool :=
  base ← GetLinearHeapBase s;
  limit ← GetLinearHeapLimit s;
  Some (negb ((target <? base) || (limit <? u32 (target + size)) || (u32 (target + size) <? target))).

Definition Process_LinearAllocate (target size perms : Z) s : option (PState IS * ResultVal Z) :=
  '(ri, r) ← own_region s;
  if target =? 0 then
    '(offset, r) ← LinearAllocate size r;
    match offset with
    | None => Some (set_region ri r s, inl ResultOutOfHeapMemory)
    | Some physical_offset =>
        map_linear (u32 (physical_offset + GetLinearHeapAreaAddress (process s))) physical_offset size perms
          (set_region ri r s)
    end
  else
    inside ← in_linear_heap target size s;
    if negb inside then Some (s, inl ResultInvalidAddress)
    else
      let physical_offset := u32 (target - GetLinearHeapAreaAddress (process s)) in
      '(ok, r) ← LinearAllocateAt physical_offset size r;
      if negb ok then Some (set_region ri r s, inl ResultInvalidAddressState)
      else map_linear target physical_offset size perms (set_region ri r s).

Definition Process_LinearFree (target size : Z) s : option (PState IS * Z) :=
  inside ← in_linear_heap target size s;
  if negb inside then Some (s, ResultInvalidAddress)
  else if size =? 0 then Some (s, ResultSuccess)
  else
    '(vm, result) ← UnmapRange (page_cached (memory s)) (vm_manager (process s)) target size;
    if negb (IsSuccess result) then Some (set_process (set_vm vm (process s)) s, result)
    else
      let physical_offset := u32 (target - GetLinearHeapAreaAddress (process s)) in
      '(ri, r) ← own_region s;
      r ← MemoryRegion.Free physical_offset size r;
      p ← discharge size
            (set_holding (iset_sub (physical_offset, u32 (physical_offset + size)) (holding_memory (process s)))
               (set_vm vm (process s)));
      Some (set_process p (set_region ri r s), ResultSuccess).

(** ** Thread-local storage *)

(** The search for a page with a free slot; [page] is the index of the first page of [slots]. *)
Fixpoint find_slot (page : nat) (slots : list (list bool)) : option (nat * nat) :=
  match slots with
  | [] => None
  | used_slots :: slots =>
      match list_find (λ b, b = false) used_slots with
      | Some (slot, _) => Some (page, slot)
      | None => find_slot (S page) slots
      end
  end.

(** A new page of slots, from the BASE region. *)
Definition new_tls_page s : option (PState IS * option nat) :=
  let tls_page := length (tls_slots (process s)) in
  base_memory_region ← memory_regions s !! BASE_REGION;
  '(offset, r) ← LinearAllocate CITRA_PAGE_SIZE base_memory_region;
  let s := set_region BASE_REGION r s in
  match offset with
  | None => Some (s, None)
  | Some offset =>
      let p := set_memory_used (memory_used (process s) + CITRA_PAGE_SIZE) (process s) in
      let p := set_tls (iset_add (offset, u32 (offset + CITRA_PAGE_SIZE)) (holding_tls_memory p))
                       (tls_slots p ++ [replicate 8 false]) p in
      let tls_page_addr := u32 (TLS_AREA_VADDR + Z.of_nat tls_page * CITRA_PAGE_SIZE) in
      ref ← GetFCRAMRef offset (memory s);
      '(vm, _) ← MapBackingMemory (page_cached (memory s)) (vm_manager p) tls_page_addr ref CITRA_PAGE_SIZE StateLocked;
      Some (set_process (set_vm vm p) s, Some tls_page)
  end.

Context (rasterizer : FlushMode → Z → Z → gmap Z Z → gmap Z Z).

Definition use_slot (tls_page tls_slot : nat) s : option (PState IS * ResultVal Z) :=
  page_tls_slots ← tls_slots (process s) !! tls_page;
  let p := set_tls (holding_tls_memory (process s))
             (<[tls_page := <[tls_slot := true]> page_tls_slots]> (tls_slots (process s))) (process s) in
  let tls_address := u32 (TLS_AREA_VADDR + Z.of_nat tls_page * CITRA_PAGE_SIZE + Z.of_nat tls_slot * TLS_ENTRY_SIZE) in
  ms ← ZeroBlock rasterizer (process_pages p) tls_address TLS_ENTRY_SIZE (memory s);
  Some (set_memory ms (set_process p s), inr tls_address).

Definition AllocateThreadLocalStorage s : option (PState IS * ResultVal Z) :=
  match find_slot 0 (tls_slots (process s)) with
  | Some (tls_page, tls_slot) => use_slot tls_page tls_slot s
  | None =>
      '(s, page) ← new_tls_page s;
      match page with
      | None => Some (s, inl ResultOutOfMemory)
      | Some tls_page => use_slot tls_page 0 s
      end
  end.

(** ** Aliases *)

Definition overlaps (target source size : Z) : bool := (u32 (source - target) <? size) || (u32 (target - source) <? size).

(** The loop of [Map] over the blocks behind the source. *)
Fixpoint map_blocks (blocks : list (MemoryRef * Z)) (interval_target perms : Z) (state : MemoryState)
    (ms : MemorySystem) (vm : VMManager) : option VMManager :=
  match blocks with
  | [] => Some vm
  | (backing_memory, block_size) :: blocks =>
      vm ← map_protected ms vm interval_target backing_memory block_size state perms;
      map_blocks blocks (u32 (interval_target + block_size)) perms state ms vm
  end.

Definition Process_Map (target source size perms : Z) (privileged : bool) s : option (PState IS * Z) :=
  let vm := vm_manager (process s) in
  let change vm := set_process (set_vm vm (process s)) s in
  if negb privileged && negb (in_heap source size) then Some (s, ResultInvalidAddress)
  else if overlaps target source size then
    if privileged then
      if source =? target then
        '(vm, result) ← ChangeMemoryState (page_cached (memory s)) vm source size StatePrivate PermReadWrite
                          StateAliasCode perms;
        Some (change vm, result)
      else Some (s, ResultInvalidAddress)
    else Some (s, ResultInvalidAddressState)
  else
    i ← FindVMA (vma_map vm) target;
    vma ← vma_map vm !! i;
    if negb (bool_decide (vma_type vma = VMManager.Free)) ||
       (u32 (vma_base vma + vma_size vma) <? u32 (target + size))
    then Some (s, ResultInvalidAddressState)
    else
      let source_state := if privileged then StateLocked else StateAliased in
      let target_state := if privileged then StateAliasCode else StateAlias in
      let source_perm := if privileged then PermNone else PermReadWrite in
      '(vm, result) ← ChangeMemoryState (page_cached (memory s)) vm source size StatePrivate PermReadWrite
                        source_state source_perm;
      if negb (IsSuccess result) then Some (change vm, result)
      else
        backing_blocks ← GetBackingBlocksForRange vm source size;
        match backing_blocks with
        | inl error => Some (change vm, error)
        | inr blocks =>
            vm ← map_blocks blocks target perms target_state (memory s) vm;
            Some (change vm, ResultSuccess)
        end.

Definition Process_Unmap (target source size perms : Z) (privileged : bool) s : option (PState IS * Z) :=
  let vm := vm_manager (process s) in
  let change vm := set_process (set_vm vm (process s)) s in
  if negb privileged && negb (in_heap source size) then Some (s, ResultInvalidAddress)
  else if overlaps target source size then
    if privileged then
      if source =? target then
        '(vm, result) ← ChangeMemoryState (page_cached (memory s)) vm source size StateAliasCode PermNone
                          StatePrivate perms;
        Some (change vm, result)
      else Some (s, ResultInvalidAddress)
    else Some (s, ResultInvalidAddressState)
  else
    let source_state := if privileged then StateLocked else StateAliased in
    '(vm, result) ← UnmapRange (page_cached (memory s)) vm target size;
    if negb (IsSuccess result) then Some (change vm, result)
    else
      '(vm, result) ← ChangeMemoryState (page_cached (memory s)) vm source size source_state PermNone StatePrivate perms;
      Some (change vm, result).

(** ** The end of a process *)

Fixpoint free_segments (segments : list interval) (r : MemoryRegionInfo IS) : option (MemoryRegionInfo IS) :=
  match segments with
  | [] => Some r
  | (lower, upper) :: segments =>
      r ← MemoryRegion.Free lower (u32 (upper - lower)) r; free_segments segments r
  end.
Fixpoint release_segments (segments : list interval) p : option (Process IS) :=
  match segments with
  | [] => Some p
  | (lower, upper) :: segments => p ← discharge (u32 (upper - lower)) p; release_segments segments p
  end.

(** [FreeAllMemory].  The loops interleave the region and the process, which do not depend on each
    other; a process without a resource limit, which frees nothing, is not a state of the model. *)
Definition FreeAllMemory s : option (PState IS) :=
  match memory_region (process s) with
  | None => Some s
  | Some ri =>
      r ← memory_regions s !! ri;
      let holding := iset_segments (holding_memory (process s)) in
      r ← free_segments holding r;
      p ← release_segments holding (process s);
      let s := set_process (set_holding iset_empty p) (set_region ri r s) in
      base_memory_region ← memory_regions s !! BASE_REGION;
      let tls := iset_segments (holding_tls_memory (process s)) in
      r ← free_segments tls base_memory_region;
      let freed := foldr (λ i n, u32 (i.2 - i.1) + n) 0 tls in
      let p := set_tls iset_empty [] (set_memory_used (memory_used (process s) - freed) (process s)) in
      Some (set_process p (set_region BASE_REGION r s))
  end.

(** ** The system call *)

Definition MEMOP_FREE : Z := 1.
Definition MEMOP_COMMIT : Z := 3.
Definition MEMOP_MAP : Z := 4.
Definition MEMOP_UNMAP : Z := 5.
Definition MEMOP_PROTECT : Z := 6.
Definition MEMOP_OPERATION_MASK : Z := 0xFF.
Definition MEMOP_REGION_MASK : Z := 0xF00.
Definition MEMOP_LINEAR : Z := 0x10000.

(** [SVC::ControlMemory]: the new state, the address for [out_addr] if one is written, and the
    result code. *)
Definition ControlMemory (addr0 addr1 size operation permissions : Z) s : option (PState IS * option Z * Z) :=
  let of_alloc r := '(s, a) ← r; Some (match a with inr a => (s, Some a, ResultSuccess) | inl e => (s, None, e) end) in
  let plain r := '(s, e) ← r; Some (s, None, e) in
  if negb (Z.land addr0 CITRA_PAGE_MASK =? 0) then Some (s, None, ResultMisalignedAddress)
  else if negb (Z.land addr1 CITRA_PAGE_MASK =? 0) then Some (s, None, ResultMisalignedAddress)
  else if negb (Z.land size CITRA_PAGE_MASK =? 0) then Some (s, None, ResultMisalignedSize)
  else
    let operation := Z.land operation (Z.lnot MEMOP_REGION_MASK) in
    if negb (Z.land permissions PermReadWrite =? permissions) then Some (s, None, ResultInvalidCombination)
    else
      let op := Z.land operation MEMOP_OPERATION_MASK in
      if op =? MEMOP_FREE then
        let freed r := '(s, e) ← r; Some (s, if IsSuccess e then Some addr0 else None, e) in
        if in_range HEAP_VADDR HEAP_VADDR_END addr0 then freed (Process_HeapFree addr0 size s)
        else
          base ← GetLinearHeapBase s;
          limit ← GetLinearHeapLimit s;
          if in_range base limit addr0 then freed (Process_LinearFree addr0 size s)
          else Some (s, None, ResultInvalidAddress)
      else if op =? MEMOP_COMMIT then
        if negb (Z.land operation MEMOP_LINEAR =? 0)
        then of_alloc (Process_LinearAllocate addr0 size permissions s)
        else of_alloc (Process_HeapAllocate addr0 size permissions StatePrivate false s)
      else if op =? MEMOP_MAP then plain (Process_Map addr0 addr1 size permissions false s)
      else if op =? MEMOP_UNMAP then plain (Process_Unmap addr0 addr1 size permissions false s)
      else if op =? MEMOP_PROTECT then
        plain ('(vm, result) ← ReprotectRange (page_cached (memory s)) (vm_manager (process s)) addr0 size permissions;
               Some (set_process (set_vm vm (process s)) s, result))
      else Some (s, None, ResultInvalidCombination).

End Operations.

(** ** Kernel capabilities: proofs *)

(** The number of address mappings a list of descriptors asks for. *)
Definition is_range (d : Z) : bool := Z.land (Z.shiftr d 20) 0xFFE =? 0xFF8.
Definition is_page (d : Z) : bool := Z.shiftr d 20 =? 0xFFE.
Fixpoint mappings_of (l : list Z) : nat :=
  match l with
  | [] => 0
  | d :: l =>
      if is_range d then
        match l with
        | e :: rest => if is_range e then S (mappings_of rest) else mappings_of l
        | [] => 0
        end
      else (if is_page d then 1 else 0) + mappings_of l
  end.

(** The descriptor types exclude one another, so the order of the tests does not matter for the
    mappings. *)
Definition other_cap (d : Z) : bool :=
  let type := Z.shiftr d 20 in
  (d =? CAP_UNUSED) || (Z.land type 0xF00 =? 0xE00) || (Z.land type 0xF80 =? 0xF00) ||
  (Z.land type 0xFF0 =? 0xFE0) || (Z.land type 0xFF8 =? 0xFF0).

Lemma land_bit_clash t a b x y k :
  Z.land t a = x → Z.land t b = y → 0 <= k → Z.testbit a k = true → Z.testbit b k = true →
  Z.testbit x k = Z.testbit y k.
Proof.
  intros <- <- Hk Ha Hb. rewrite !Z.land_spec, Ha, Hb. done.
Qed.

Lemma other_cap_excludes d : 0 <= d < 2 ^ 32 → other_cap d = true → is_range d = false ∧ is_page d = false.
Proof.
  intros Hd Ho. unfold other_cap, is_range, is_page in *. set (t := Z.shiftr d 20) in *.
  assert (t = 0xFFF ∨ Z.land t 0xF00 = 0xE00 ∨ Z.land t 0xF80 = 0xF00 ∨ Z.land t 0xFF0 = 0xFE0 ∨ Z.land t 0xFF8 = 0xFF0) as Hc.
  { rewrite !orb_true_iff, !Z.eqb_eq in Ho. destruct Ho as [[[[E|E]|E]|E]|E]; [left; unfold t; by rewrite E|auto..]. }
  clear Ho. split; apply Z.eqb_neq; intros E.
  - destruct Hc as [->|[Hc|[Hc|[Hc|Hc]]]]; [done| | | |].
    + pose proof (land_bit_clash t _ _ _ _ 8 Hc E). by specialize (H ltac:(lia) eq_refl eq_refl).
    + pose proof (land_bit_clash t _ _ _ _ 7 Hc E). by specialize (H ltac:(lia) eq_refl eq_refl).
    + pose proof (land_bit_clash t _ _ _ _ 4 Hc E). by specialize (H ltac:(lia) eq_refl eq_refl).
    + pose proof (land_bit_clash t _ _ _ _ 3 Hc E). by specialize (H ltac:(lia) eq_refl eq_refl).
  - rewrite E in Hc. destruct Hc as [?|[?|[?|[?|?]]]]; done.
Qed.

(** One descriptor against its count. *)
Lemma parse_cap_cases d next c :
  0 <= d < 2 ^ 32 →
  (is_range d = true ∧ (∃ e, next = Some e ∧ is_range e = true) ∧
   ∃ m, parse_cap d next c = (c ← push_mapping m c; Some (c, true))) ∨
  (is_range d = false ∧ is_page d = true ∧ ∃ m, parse_cap d next c = (c ← push_mapping m c; Some (c, false))) ∨
  ((is_range d = true ∧ (∀ e, next = Some e → is_range e = false) ∨ is_range d = false ∧ is_page d = false) ∧
   ∃ c', parse_cap d next c = Some (c', false) ∧ address_mappings c' = address_mappings c).
Proof.
  intros Hd. pose proof (other_cap_excludes d Hd) as Hex. unfold parse_cap, other_cap, is_range, is_page in *.
  set (t := Z.shiftr d 20) in *.
  destruct (d =? CAP_UNUSED); [specialize (Hex eq_refl) as [-> ->]; right; right; by eauto 10|].
  destruct (Z.land t 0xF00 =? 0xE00); [specialize (Hex eq_refl) as [-> ->]; right; right; by eauto 10|].
  destruct (Z.land t 0xF80 =? 0xF00); [specialize (Hex eq_refl) as [-> ->]; right; right; by eauto 10|].
  destruct (Z.land t 0xFF0 =? 0xFE0); [specialize (Hex eq_refl) as [-> ->]; right; right; by eauto 10|].
  destruct (Z.land t 0xFF8 =? 0xFF0); [specialize (Hex eq_refl) as [-> ->]; right; right; by eauto 10|].
  destruct (Z.land t 0xFFE =? 0xFF8) eqn:Er.
  - destruct next as [e|]; [|right; right; split; [left; done|]; by eauto].
    destruct (Z.land (Z.shiftr e 20) 0xFFE =? 0xFF8) eqn:Ee; cbn [negb].
    + left. split; [done|]. split; [by eauto|]. by eexists.
    + right; right. split; [left; split; [done|]; by intros ? [= <-]|]. by eauto.
  - right. assert (Z.land t 0xFFF = t) as Ht.
    { change 0xFFF with (Z.ones 12). rewrite Z.land_ones by done. apply Z.mod_small. unfold t.
      rewrite Z.shiftr_div_pow2 by done. split; [apply Z.div_pos; lia|]. apply Z.div_lt_upper_bound; lia. }
    rewrite Ht. destruct (t =? 0xFFE); [left; split; [done|]; split; [done|]; by eexists|right].
    split; [right; split; reflexivity|].
    destruct (Z.land t 0xFE0 =? 0xFC0); eexists; (split; [reflexivity|reflexivity]).
Qed.

Lemma push_mapping_spec m c :
  match push_mapping m c with
  | Some c' => (length (address_mappings c) < ADDRESS_MAPPINGS_CAPACITY)%nat ∧
               length (address_mappings c') = S (length (address_mappings c))
  | None => (ADDRESS_MAPPINGS_CAPACITY <= length (address_mappings c))%nat
  end.
Proof.
  unfold push_mapping. destruct (Nat.ltb_spec (length (address_mappings c)) ADDRESS_MAPPINGS_CAPACITY); simpl; [|done].
  rewrite length_app. simpl. lia.
Qed.

Lemma parse_caps_count n caps_list c :
  (length caps_list <= n)%nat → Forall (λ d, 0 <= d < 2 ^ 32) caps_list →
  (length (address_mappings c) <= ADDRESS_MAPPINGS_CAPACITY)%nat →
  match ParseKernelCaps caps_list c with
  | Some c' => length (address_mappings c') = (length (address_mappings c) + mappings_of caps_list)%nat ∧
               (length (address_mappings c') <= ADDRESS_MAPPINGS_CAPACITY)%nat
  | None => (ADDRESS_MAPPINGS_CAPACITY < length (address_mappings c) + mappings_of caps_list)%nat
  end.
Proof.
  revert caps_list c. induction n as [|n IH]; intros [|d l] c Hlen Hb Hc; cbn [ParseKernelCaps mappings_of];
    try (split; lia); [simpl in Hlen; lia|].
  apply Forall_cons in Hb as [Hd Hl]. simpl in Hlen.
  destruct (parse_cap_cases d (head l) c Hd) as
    [(Hr & (e & He & Hre) & m & ->)|[(Hr & Hp & m & ->)|(Hk & c' & -> & Hm)]].
  - rewrite Hr. destruct l as [|e' l]; [done|]. simpl in He. injection He as ->. rewrite Hre.
    pose proof (push_mapping_spec m c) as Hpush. destruct (push_mapping m c) as [c'|]; cbn [mbind option_bind]; [|lia].
    apply Forall_cons in Hl as [_ Hl]. simpl in Hlen. pose proof (IH l c') as H.
    destruct (ParseKernelCaps l c'); [destruct H|specialize (H ltac:(lia) Hl ltac:(lia))]; try done; lia.
  - rewrite Hr, Hp. pose proof (push_mapping_spec m c) as Hpush.
    destruct (push_mapping m c) as [c'|]; cbn [mbind option_bind]; [|lia].
    pose proof (IH l c') as H. destruct (ParseKernelCaps l c'); [destruct H|specialize (H ltac:(lia) Hl ltac:(lia))]; try done; lia.
  - cbn [mbind option_bind]. pose proof (IH l c' ltac:(lia) Hl ltac:(by rewrite Hm)) as H. rewrite Hm in H.
    assert (mappings_of (d :: l) = mappings_of l) as Heq.
    { cbn [mappings_of]. destruct Hk as [[-> Hn]|[-> ->]]; [|done]. destruct l as [|e l]; [done|].
      by rewrite (Hn e eq_refl). }
    cbn [mappings_of] in Heq. rewrite Heq. exact H.
Qed.


(** ** Memory management: proofs *)

(** What may happen to an address outside a new mapping: nothing, or, when its area was merged with
    the new one, the new permissions. *)
Definition reprotected (state : MemoryState) (perms : Z) (x y : option Attr) : Prop :=
  y = x ∨ ∃ z, x = Some z ∧ a_type z = BackingMemory ∧ a_perms z = PermReadWrite ∧ a_state z = state ∧
              y = Some (set_perms perms z).

(** With the permissions every mapping starts with, nothing happens. *)
Lemma reprotected_rw state x y : reprotected state PermReadWrite x y → y = x.
Proof.
  intros [->|([] & -> & ? & Hp & ? & ->)]; [done|]. simpl in Hp. by rewrite <- Hp.
Qed.

Lemma reprotected_free state perms x y : reprotected state perms x y → x = Some free_attr → y = Some free_attr.
Proof. intros [->|(z & -> & Ht & _)] E; [done|]. by simplify_eq. Qed.

Lemma reprotected_trans state perms x y z :
  reprotected state perms x y → reprotected state perms y z → reprotected state perms x z.
Proof.
  intros [->|(u & -> & Ht & Hp & Hs & ->)] H2; [done|]. right. exists u. split_and!; try done.
  destruct H2 as [->|(w & E & _ & Hp' & _ & ->)]; [done|]. by injection E as <-.
Qed.

(** The view of an address space to which a range was added. *)
Record added_range (l l' : list VirtualMemoryArea) (target size : Z) (backing : Z → MemoryRef)
    (state : MemoryState) (perms : Z) : Prop := {
  added_inside : ∀ a, target <= a < target + size →
    attr_at l' a = Some (mkAttr BackingMemory perms state (backing (a - target)));
  added_outside : ∀ a, ~ (target <= a < target + size) → reprotected state perms (attr_at l a) (attr_at l' a) }.

Lemma added_range_ext l l' target size f g state perms :
  (∀ k, f k = g k) → added_range l l' target size f state perms → added_range l l' target size g state perms.
Proof. intros E [Hi Ho]. split; [|done]. intros a Ha. by rewrite <- E, Hi. Qed.

(** Two mappings, one after the other. *)
Lemma added_range_app l l1 l2 target n m f g state perms :
  0 < n → 0 <= m → added_range l l1 target n f state perms → added_range l1 l2 (target + n) m g state perms →
  added_range l l2 target (n + m) (λ k, if k <? n then f k else g (k - n)) state perms.
Proof.
  intros Hn Hm [Hi1 Ho1] [Hi2 Ho2]. split; intros a Ha.
  - destruct (Z.ltb_spec (a - target) n).
    + pose proof (Hi1 a ltac:(lia)) as E1. pose proof (Ho2 a ltac:(lia)) as E2. rewrite E1 in E2.
      destruct E2 as [->|(z & E & _ & _ & _ & ->)]; [done|]. by injection E as <-.
    + rewrite Hi2 by lia. by replace (a - target - n) with (a - (target + n)) by lia.
  - eapply reprotected_trans; [apply Ho1|apply Ho2]; lia.
Qed.

Section MemoryProofs.
Context (known : BackingMem → Prop) (Hsep : blocks_separate known).

Lemma map_protected_ok ms vm target m size state perms :
  vm_inv (page_cached ms) known vm → VMManager.is_locked vm = false → valid_range target size →
  backed known m size → range_free (vma_map vm) target size →
  ∃ vm', map_protected ms vm target m size state perms = Some vm' ∧ vm_inv (page_cached ms) known vm' ∧
    VMManager.is_locked vm' = false ∧
    added_range (vma_map vm) (vma_map vm') target size (ref_shift m) state perms.
Proof.
  intros Hinv Hl Hr Hm Hf. unfold map_protected.
  destruct (MapBackingMemory_area (page_cached ms) known Hsep vm target m size state Hinv Hl Hr Hm Hf)
    as (vm1 & d & v & r & -> & El & Hb & He & (Ht1 & Hn1 & Hp1) & Hl1 & Hv). cbn [mbind option_bind].
  pose proof Hr as (_ & _ & H0 & Hs & Hmax). rewrite El in Ht1, Hn1, Hp1, Hv.
  assert (∀ a, vma_base v <= a < vma_end v → attr_at (d ++ v :: r) a = Some (attr v a)) as Hat
    by (intros a Ha; by apply (attr_at_of_area known 0 d v r MAX_ADDRESS)).
  assert (vma_type v = BackingMemory ∧ permissions v = PermReadWrite ∧ meminfo_state v = state) as (Hvt & Hvp & Hvs).
  { pose proof (Hv target) as E. unfold mapped_view in E. rewrite (proj2 (in_range_iff _ _ _)) in E by lia.
    rewrite Hat in E by lia. unfold attr in E. by injection E as -> -> ->. }
  destruct (tiles_cons_inv _ _ _ _ _ _ Ht1) as (_ & Hok & _).
  unfold Reprotect. rewrite Hl1. cbn [negb assert_ mbind option_bind].
  destruct (update_vma_spec known Hsep (page_cached ms) vm1 d v r (reprotect_vma perms) El Ht1 Hp1)
    as (pt' & d' & v' & r' & -> & Ht2 & Hp2 & Hv2 & _ & _ & _ & Hn2); [done|done| |].
  { destruct Hok as (? & ? & ? & Hbk). rewrite Hvt in Hbk. split_and!; try done. simpl. by rewrite Hvt. }
  cbn [mbind option_bind]. eexists. split; [done|]. rewrite Hl1. split; [|split; [done|split]].
  - split_and!; simpl; [done| |done]. apply Hn2; [by eapply no_pair_app_l|].
    apply (no_pair_app_r free_pair (d ++ [v])). by rewrite <- app_assoc.
  - intros a Ha. simpl. rewrite Hv2. rewrite (proj2 (in_range_iff _ _ _)) by lia. pose proof (Hv a) as E.
    unfold mapped_view in E. rewrite (proj2 (in_range_iff _ _ _)) in E by lia. rewrite Hat in E by lia.
    assert (a_ref (attr v a) = ref_shift m (a - target)) as Er by (by apply (f_equal (fmap a_ref)) in E; injection E as E).
    unfold attr in Er |- *. simpl in Er |- *. rewrite Hvt in Er |- *. by rewrite Er, Hvs.
  - intros a Ha. simpl. rewrite Hv2. pose proof (Hv a) as E. unfold mapped_view in E.
    rewrite (proj2 (in_range_false _ _ _)) in E by done. rewrite <- E.
    destruct (in_range (vma_base v) (vma_end v) a) eqn:Ea; [|by left]. apply in_range_iff in Ea. right.
    exists (attr v a). rewrite Hat by done. split_and!; try done.
Qed.

(** The page behind a mapped address that the renderer does not cache. *)
Definition hosted (ms : MemorySystem) : Prop := ∀ b, known b → b ∈ host_blocks ms ∧ bm_size b < 2 ^ 32.

Lemma attr_backing ms vm wp a x :
  vm_inv (page_cached ms) known vm → hosted ms → attr_at (vma_map vm) a = Some x → a_type x = BackingMemory →
  page_cached ms (a / CITRA_PAGE_SIZE) = false →
  ∃ ref, page_backing (mkPages (page_table vm) wp) ms (a / CITRA_PAGE_SIZE) (Some ref) ∧
    GetPtr ref + a `mod` CITRA_PAGE_SIZE = GetPtr (a_ref x).
Proof.
  intros (Ht & _ & Hag) Hho Hx Hty Hc.
  destruct (decide (0 <= a < MAX_ADDRESS)) as [Ha|Ha]; [|by rewrite (attr_at_outside _ _ _ _ _ Ht Ha) in Hx].
  destruct (tiles_find _ _ _ _ a Ht Ha) as (d & v & r & El & Hv). rewrite El in Ht, Hx.
  rewrite (attr_at_of_area known 0 d v r MAX_ADDRESS) in Hx by done. injection Hx as <-.
  destruct (tiles_cons_inv _ _ _ _ _ _ Ht) as (_ & (Hs & Hb & Hsz & Hok) & _). unfold attr in Hty. simpl in Hty. rewrite Hty in Hok.
  assert (CITRA_PAGE_SIZE = 0x1000) as EP by done. unfold vma_end in *.
  apply Z.mod_divide in Hb as [i Hi]; [|done]. apply Z.mod_divide in Hsz as [n Hn]; [|done]. rewrite EP in Hi, Hn.
  pose proof (Z.div_mod a CITRA_PAGE_SIZE ltac:(done)) as Hdm. pose proof (Z.mod_pos_bound a CITRA_PAGE_SIZE ltac:(done)) as Hmb.
  rewrite EP in *. set (page := a / 0x1000) in *. set (off := a `mod` 0x1000) in *.
  assert (vma_base v <= page * 0x1000 ∧ page * 0x1000 + 0x1000 <= vma_base v + vma_size v) as [H1 H2] by lia.
  assert (attr_at (vma_map vm) (page * CITRA_PAGE_SIZE) = Some (attr v (page * 0x1000))) as Hat.
  { rewrite El, EP. apply (attr_at_of_area known 0 d v r MAX_ADDRESS); unfold vma_end; (done || lia). }
  apply Hag in Hat. unfold attr_page, attr in Hat. simpl in Hat. rewrite Hty, Hc in Hat.
  exists (ref_shift (backing_memory v) (page * 0x1000 - vma_base v)). unfold page_backing. cbn [entries]. rewrite Hat. cbn [fst snd].
  destruct Hok as [(b & Eb & Hp & Ho & Hfit & _) (b' & Eb' & Hk)]. simplify_eq. destruct (Hho b Hk) as [Hin Hb32].
  split; [split; [done|]|].
  - exists b. simpl. rewrite EP. split_and!; (done || lia).
  - unfold attr, GetPtr, ref_shift. simpl. rewrite Hty. simpl. rewrite Eb. lia.
Qed.

(** *** Charging the resource limit *)

Section Charge.
Context {IS : Type}.
Implicit Types p : Process IS.

Lemma charge_ok size p v :
  limit_wf (resource_limit p) → GetCurrentValue RL_Commit (resource_limit p) = Some v →
  0 <= size < 2 ^ 31 → - 2 ^ 31 <= v → v + size < 2 ^ 31 →
  ∃ l, charge size p = Some (set_limit l (set_memory_used (memory_used p + size) p)) ∧ limit_wf l ∧
    GetCurrentValue RL_Commit l = Some (v + size).
Proof.
  intros W Hv Hs H1 H2. unfold charge, s32. rewrite swrap_id by (simpl; lia).
  destruct (Reserve_ok RL_Commit size (resource_limit p) v W) as (l & -> & Wl & Hl & _); [done|done|lia|].
  by exists l.
Qed.

Lemma discharge_ok size p v :
  limit_wf (resource_limit p) → GetCurrentValue RL_Commit (resource_limit p) = Some v →
  0 <= size < 2 ^ 31 → - 2 ^ 31 <= v - size → v < 2 ^ 31 →
  ∃ l, discharge size p = Some (set_limit l (set_memory_used (memory_used p - size) p)) ∧ limit_wf l ∧
    GetCurrentValue RL_Commit l = Some (v - size).
Proof.
  intros W Hv Hs H1 H2. unfold discharge, s32. rewrite swrap_id by (simpl; lia).
  destruct (Release_ok RL_Commit size (resource_limit p) v W) as (l & -> & Wl & Hl & _); [done|done|lia|].
  by exists l.
Qed.

End Charge.

(** *** Pages of physical memory *)

(** A set of whole pages. *)
Definition paged (P : Z → Prop) : Prop := ∀ x y, x / CITRA_PAGE_SIZE = y / CITRA_PAGE_SIZE → P x → P y.

Lemma segment_start_gap l i : segmented l → i ∈ l → ~ in_segments (i.1 - 1) l.
Proof.
  induction 1 as [|lo hi l Hlt Hgap Hs IH]; intros Hi (j & Hj & Hx); [by apply elem_of_nil in Hi|].
  unfold in_interval in Hx. apply elem_of_cons in Hi as [->|Hi], Hj as [->|Hj]; simpl in *.
  - lia.
  - specialize (Hgap j Hj). lia.
  - specialize (Hgap i Hi). lia.
  - by apply IH; [|exists j].
Qed.

Lemma segment_end_gap l i : segmented l → i ∈ l → ~ in_segments i.2 l.
Proof.
  induction 1 as [|lo hi l Hlt Hgap Hs IH]; intros Hi (j & Hj & Hx); [by apply elem_of_nil in Hi|].
  unfold in_interval in Hx. apply elem_of_cons in Hi as [->|Hi], Hj as [->|Hj]; simpl in *.
  - lia.
  - specialize (Hgap j Hj). lia.
  - specialize (Hgap i Hi). pose proof (segmented_nonempty _ _ Hs Hi). lia.
  - by apply IH; [|exists j].
Qed.

Lemma aligned_or_same_page x : x `mod` CITRA_PAGE_SIZE = 0 ∨ (x - 1) / CITRA_PAGE_SIZE = x / CITRA_PAGE_SIZE.
Proof.
  pose proof (Z.div_mod x CITRA_PAGE_SIZE ltac:(done)) as E. pose proof (Z.mod_pos_bound x CITRA_PAGE_SIZE ltac:(done)) as Hm.
  destruct (decide (x `mod` CITRA_PAGE_SIZE = 0)) as [|Hne]; [by left|right].
  symmetry. apply (Z.div_unique _ _ _ (x `mod` CITRA_PAGE_SIZE - 1)); lia.
Qed.

Section Physical.
Context {IS : Type} `{IntervalSetLaws IS}.
Implicit Types (p : Process IS) (s : PState IS) (r : MemoryRegionInfo IS).

(** The segments of a set of whole pages begin and end on page boundaries. *)
Lemma paged_segment (b : IS) i :
  paged (λ x, iset_elem x b) → i ∈ iset_segments b →
  i.1 `mod` CITRA_PAGE_SIZE = 0 ∧ i.2 `mod` CITRA_PAGE_SIZE = 0.
Proof.
  intros Hp Hi. pose proof (iset_segmented b) as Hs. pose proof (segmented_nonempty _ _ Hs Hi) as Hlt.
  assert (∀ x, i.1 <= x < i.2 → iset_elem x b) as Hin by (intros x Hx; by exists i).
  split.
  - destruct (aligned_or_same_page i.1) as [|Heq]; [done|]. exfalso. apply (segment_start_gap _ _ Hs Hi).
    apply (Hp i.1); [done|]. apply Hin. lia.
  - destruct (aligned_or_same_page i.2) as [|Heq]; [done|]. exfalso. apply (segment_end_gap _ _ Hs Hi).
    apply (Hp (i.2 - 1)); [done|]. apply Hin. lia.
Qed.

Lemma same_page_range x y lo n :
  x / CITRA_PAGE_SIZE = y / CITRA_PAGE_SIZE → lo `mod` CITRA_PAGE_SIZE = 0 → n `mod` CITRA_PAGE_SIZE = 0 →
  lo <= x < lo + n → lo <= y < lo + n.
Proof.
  intros Hxy Hlo Hn Hx. apply Z.div_exact in Hlo, Hn; [|done..].
  pose proof (Z.div_mod x CITRA_PAGE_SIZE ltac:(done)). pose proof (Z.mod_pos_bound x CITRA_PAGE_SIZE ltac:(done)).
  pose proof (Z.div_mod y CITRA_PAGE_SIZE ltac:(done)). pose proof (Z.mod_pos_bound y CITRA_PAGE_SIZE ltac:(done)).
  unfold CITRA_PAGE_SIZE in *. lia.
Qed.

Lemma paged_without P lo n :
  paged P → lo `mod` CITRA_PAGE_SIZE = 0 → n `mod` CITRA_PAGE_SIZE = 0 →
  paged (λ x, P x ∧ ~ (lo <= x < lo + n)).
Proof.
  intros Hp Hlo Hn x y Hxy [HP Hnx]. split; [by apply (Hp x)|]. intros Hy. apply Hnx.
  by apply (same_page_range y x).
Qed.

Lemma paged_ext (P Q : Z → Prop) : (∀ x, P x ↔ Q x) → paged P → paged Q.
Proof. intros E Hp x y Hxy HQ. apply E, (Hp x); [done|]. by apply E. Qed.

(** *** The invariant

    The process [s] draws from region [ri].  Its physical memory is disjoint from the free memory of
    the region, which consists of whole pages; where a page of the region is free, its place in the
    linear heap is not mapped. *)
Record pinv s (ri : nat) r : Prop := {
  pi_own : memory_region (process s) = Some ri;
  pi_at : memory_regions s !! ri = Some r;
  pi_region : region_inv r;
  pi_unlocked : MemoryRegion.is_locked r = false;
  pi_fits : region_base r + region_size r <= FCRAM_N3DS_SIZE;
  pi_paged : paged (λ x, iset_elem x (free_blocks r));
  pi_fcram : bm_size (fcram_mem (memory s)) = FCRAM_N3DS_SIZE;
  pi_fcram_ptr : 0 < bm_ptr (fcram_mem (memory s));
  pi_known : known (fcram_mem (memory s));
  pi_vm : vm_inv (page_cached (memory s)) known (vm_manager (process s));
  pi_vm_unlocked : VMManager.is_locked (vm_manager (process s)) = false;
  pi_held : ∀ x, iset_elem x (holding_memory (process s)) → ~ iset_elem x (free_blocks r);
  pi_linear : ∀ x, iset_elem x (free_blocks r) →
    attr_at (vma_map (vm_manager (process s))) (GetLinearHeapAreaAddress (process s) + x) = Some free_attr;
  pi_limit : limit_wf (resource_limit (process s)) }.

Lemma own_region_ok s ri r : pinv s ri r → own_region s = Some (ri, r).
Proof. intros Hi. unfold own_region. rewrite (pi_own _ _ _ Hi). simpl. by rewrite (pi_at _ _ _ Hi). Qed.

Lemma area_cases p :
  GetLinearHeapAreaAddress p = LINEAR_HEAP_VADDR ∨ GetLinearHeapAreaAddress p = NEW_LINEAR_HEAP_VADDR.
Proof. unfold GetLinearHeapAreaAddress. destruct (_ <? _); auto. Qed.

(** FCRAM backs every range inside it. *)
Lemma fcram_backed_at ms lo n :
  bm_size (fcram_mem ms) = FCRAM_N3DS_SIZE → 0 < bm_ptr (fcram_mem ms) → known (fcram_mem ms) →
  0 <= lo → 0 <= n → lo + n <= FCRAM_N3DS_SIZE →
  GetFCRAMRef lo ms = Some (mkRef (Some (fcram_mem ms)) lo) ∧
  backed known (mkRef (Some (fcram_mem ms)) lo) n ∧
  host_valid ms (bm_ptr (fcram_mem ms) + lo) n = true.
Proof.
  intros Hs Hptr Hk Hlo Hn Hfit.
  unfold GetFCRAMRef, make_ref. rewrite Hs. rewrite !(proj2 (Z.leb_le lo _)) by lia. split; [done|]. split.
  - split; [|by eexists]. eexists. split; [done|]. simpl. rewrite Hs. split_and!; try lia. done.
  - unfold host_valid, host_blocks. simpl. rewrite Hs.
    rewrite (proj2 (Z.leb_le _ _)), (proj2 (Z.leb_le _ _)) by lia. done.
Qed.

Lemma fcram_backed s ri r lo n :
  pinv s ri r → 0 <= lo → 0 <= n → lo + n <= FCRAM_N3DS_SIZE →
  GetFCRAMRef lo (memory s) = Some (mkRef (Some (fcram_mem (memory s))) lo) ∧
  backed known (mkRef (Some (fcram_mem (memory s))) lo) n ∧
  host_valid (memory s) (bm_ptr (fcram_mem (memory s)) + lo) n = true.
Proof. intros Hi. apply fcram_backed_at; apply Hi. Qed.

Lemma map_linear_ok s ri r off size perms v :
  pinv s ri r → off `mod` CITRA_PAGE_SIZE = 0 → size `mod` CITRA_PAGE_SIZE = 0 → 0 < size < 2 ^ 31 → 0 <= off →
  off + size <= FCRAM_N3DS_SIZE →
  (∀ x, off <= x < off + size →
     attr_at (vma_map (vm_manager (process s))) (GetLinearHeapAreaAddress (process s) + x) = Some free_attr ∧
     ~ iset_elem x (free_blocks r)) →
  GetCurrentValue RL_Commit (resource_limit (process s)) = Some v → - 2 ^ 31 <= v → v + size < 2 ^ 31 →
  let area := GetLinearHeapAreaAddress (process s) in
  ∃ s', map_linear (u32 (off + area)) off size perms s = Some (s', inr (area + off)) ∧ pinv s' ri r ∧
    added_range (vma_map (vm_manager (process s))) (vma_map (vm_manager (process s'))) (area + off) size
      (ref_shift (mkRef (Some (fcram_mem (memory s))) off)) StateContinuous perms ∧
    (∀ x, iset_elem x (holding_memory (process s')) ↔ off <= x < off + size ∨ iset_elem x (holding_memory (process s))) ∧
    (∀ x, off <= x < off + size → host_byte (host (memory s')) (bm_ptr (fcram_mem (memory s)) + x) = 0) ∧
    memory_used (process s') = u32 (memory_used (process s) + size) ∧
    GetCurrentValue RL_Commit (resource_limit (process s')) = Some (v + size) ∧
    memory_regions s' = memory_regions s ∧ caps (process s') = caps (process s) ∧
    fcram_mem (memory s') = fcram_mem (memory s).
Proof.
  intros Hi Hoa Hsa Hs Hoff Hfit Hfree Hv Hv1 Hv2 area.
  destruct (fcram_backed s ri r off size Hi Hoff ltac:(lia) Hfit) as (Eref & Hbk & Hval).
  assert (FCRAM_N3DS_SIZE < 2 ^ 31) by done.
  assert (0 <= area ∧ area + FCRAM_N3DS_SIZE <= MAX_ADDRESS ∧ area `mod` CITRA_PAGE_SIZE = 0) as (Ha0 & Ha1 & Ham).
  { unfold area. destruct (area_cases (process s)) as [-> | ->]; done. }
  assert (MAX_ADDRESS < 2 ^ 32) by done.
  unfold map_linear. rewrite Eref. cbn [mbind option_bind].
  replace (u32 (off + area)) with (area + off) by (rewrite u32_id; lia).
  unfold store_bytes, GetPtr. simpl backing_mem. simpl offset. rewrite length_replicate, Z2Nat.id by lia. rewrite Hval.
  cbn [assert_ mbind option_bind]. set (ms := set_host _ _).
  destruct (map_protected_ok ms (vm_manager (process s)) (area + off) (mkRef (Some (fcram_mem (memory s))) off) size
              StateContinuous perms) as (vm' & -> & Hvm' & Hl' & Hadd).
  { exact (pi_vm _ _ _ Hi). } { exact (pi_vm_unlocked _ _ _ Hi). }
  { split_and!; try lia. by apply aligned_add. } { done. }
  { intros a Ha. replace a with (area + (a - area)) by lia. apply Hfree. lia. }
  cbn [mbind option_bind].
  destruct (charge_ok size (set_holding (iset_add (off, u32 (off + size)) (holding_memory (process s))) (set_vm vm' (process s))) v)
    as (l & -> & Hw & Hval'); simpl; try done; try lia.
  { apply Hi. }
  eexists. split; [done|]. simpl.
  assert (∀ x, iset_elem x (iset_add (off, u32 (off + size)) (holding_memory (process s))) ↔
               off <= x < off + size ∨ iset_elem x (holding_memory (process s))) as Hhold.
  { intros x. rewrite iset_add_spec. unfold in_interval. simpl. rewrite u32_id by lia. done. }
  split; [|split_and!; try done].
  - destruct Hi. split; simpl; try done.
    + intros x Hx. apply Hhold in Hx as [Hx|Hx]; [by apply Hfree|auto].
    + intros x Hx. change (attr_at (vma_map vm') (area + x) = Some free_attr).
      eapply reprotected_free; [apply (added_outside _ _ _ _ _ _ _ Hadd)|by apply pi_linear0].
      intros Ha. apply (Hfree x); [lia|done].
  - intros x Hx. unfold ms. simpl. rewrite host_byte_set, length_replicate, Z2Nat.id by lia.
    rewrite (proj2 (in_range_iff _ _ _)) by lia. rewrite lookup_replicate_2 by lia. done.
Qed.

(** Taking physical memory from the region keeps the invariant. *)
Lemma pinv_region s ri r r1 :
  pinv s ri r → region_inv r1 → MemoryRegion.is_locked r1 = false → region_base r1 = region_base r →
  region_size r1 = region_size r → paged (λ x, iset_elem x (free_blocks r1)) →
  (∀ x, iset_elem x (free_blocks r1) → iset_elem x (free_blocks r)) → pinv (set_region ri r1 s) ri r1.
Proof.
  intros [] Hi Hl Hb Hs Hp Hsub. split; simpl; try done.
  - by apply list_lookup_insert_eq, (lookup_lt_Some _ _ _ pi_at0).
  - by rewrite Hb, Hs.
  - intros x Hx Hf. by apply (pi_held0 x), Hsub.
  - intros x Hx. by apply pi_linear0, Hsub.
Qed.

Lemma set_region_same s ri r : memory_regions s !! ri = Some r → set_region ri r s = s.
Proof. intros E. unfold set_region. rewrite list_insert_id by done. by destruct s. Qed.

(** The view of the address space, the holdings and the accounts after a linear allocation of the
    physical range [off, off + size). *)
Record linear_allocated s s' (off size perms v : Z) : Prop := {
  la_mapped : added_range (vma_map (vm_manager (process s))) (vma_map (vm_manager (process s')))
    (GetLinearHeapAreaAddress (process s) + off) size
    (ref_shift (mkRef (Some (fcram_mem (memory s))) off)) StateContinuous perms;
  la_holding : ∀ x, iset_elem x (holding_memory (process s')) ↔
    off <= x < off + size ∨ iset_elem x (holding_memory (process s));
  la_zero : ∀ x, off <= x < off + size → host_byte (host (memory s')) (bm_ptr (fcram_mem (memory s)) + x) = 0;
  la_used : memory_used (process s') = u32 (memory_used (process s) + size);
  la_commit : GetCurrentValue RL_Commit (resource_limit (process s')) = Some (v + size);
  la_caps : caps (process s') = caps (process s);
  la_fcram : fcram_mem (memory s') = fcram_mem (memory s) }.

(** A free range of whole pages can always be taken and mapped. *)
Lemma take_map_linear s ri r off size perms v :
  pinv s ri r → off `mod` CITRA_PAGE_SIZE = 0 → size `mod` CITRA_PAGE_SIZE = 0 → 0 < size < 2 ^ 31 →
  free_range r off size →
  GetCurrentValue RL_Commit (resource_limit (process s)) = Some v → - 2 ^ 31 <= v → v + size < 2 ^ 31 →
  let r1 := take_interval (off, off + size) size r in
  ∃ s', map_linear (u32 (off + GetLinearHeapAreaAddress (process s))) off size perms (set_region ri r1 s) =
          Some (s', inr (GetLinearHeapAreaAddress (process s) + off)) ∧
        pinv s' ri r1 ∧ linear_allocated s s' off size perms v ∧ memory_regions s' = <[ri := r1]> (memory_regions s).
Proof.
  intros Hi Hoa Hsa Hs Hf Hv Hv1 Hv2 r1.
  destruct (region_inv_take_interval r off size (pi_region _ _ _ Hi) ltac:(lia) Hf) as (Hr1 & _ & Hel).
  pose proof (inv_inside r (pi_region _ _ _ Hi) _ (Hf off ltac:(lia))).
  pose proof (inv_inside r (pi_region _ _ _ Hi) _ (Hf (off + size - 1) ltac:(lia))).
  pose proof (inv_bounds r (pi_region _ _ _ Hi)). pose proof (pi_fits _ _ _ Hi).
  destruct (map_linear_ok (set_region ri r1 s) ri r1 off size perms v)
    as (s' & E & Hp & Hadd & Hhold & Hz & Hu & Hc & Hrs & Hcaps & Hfc); try done; try lia.
  - apply (pinv_region s ri r r1); try done; try apply Hi.
    + eapply paged_ext; [intros x; symmetry; apply Hel|]. apply paged_without; try done. apply Hi.
    + intros x Hx. by apply Hel in Hx as [? _].
  - intros x Hx. split; [apply Hi, Hf; lia|]. intros Hx'. apply Hel in Hx' as [_ Hx']. lia.
  - exists s'. split; [done|]. split; [done|]. split; [|done]. split; try done.
Qed.

Lemma LinearAllocate_any s ri r size perms v :
  pinv s ri r → size `mod` CITRA_PAGE_SIZE = 0 → 0 < size < 2 ^ 31 →
  GetCurrentValue RL_Commit (resource_limit (process s)) = Some v → - 2 ^ 31 <= v → v + size < 2 ^ 31 →
  (∃ off s', off `mod` CITRA_PAGE_SIZE = 0 ∧ free_range r off size ∧ (∀ off', free_range r off' size → off <= off') ∧
     Process_LinearAllocate 0 size perms s = Some (s', inr (GetLinearHeapAreaAddress (process s) + off)) ∧
     pinv s' ri (take_interval (off, off + size) size r) ∧ linear_allocated s s' off size perms v) ∨
  (∀ off', ~ free_range r off' size) ∧
  Process_LinearAllocate 0 size perms s = Some (s, inl ResultOutOfHeapMemory).
Proof.
  intros Hi Hsa Hs Hv Hv1 Hv2. unfold Process_LinearAllocate. rewrite (own_region_ok _ _ _ Hi).
  cbn [mbind option_bind]. change (0 =? 0) with true. cbv iota.
  destruct (LinearAllocate_ok r size (pi_region _ _ _ Hi) (pi_unlocked _ _ _ Hi) ltac:(lia))
    as [(i & Hseg & -> & Hf & Hmin & _)|(-> & Hno)]; cbn [mbind option_bind].
  - left. destruct (paged_segment _ _ (pi_paged _ _ _ Hi) Hseg) as [Hoa _].
    destruct (take_map_linear s ri r i.1 size perms v Hi) as (s' & E & Hp & Hla & _); try done. by exists i.1, s'.
  - right. split; [done|]. by rewrite (set_region_same s ri r (pi_at _ _ _ Hi)).
Qed.

(** C6: Linear allocation at an address of the kernel's choice.  It succeeds exactly when some
    contiguous range of [size] bytes of the region is free; it then takes the lowest such range,
    clears it, and maps it with the requested permissions at its place in the linear heap, which was
    free; the invariant is kept, so that no physical page is ever owned twice, and the accounts grow
    by [size].  Otherwise it returns [ResultOutOfHeapMemory] and changes nothing.  The internal
    assertion that the mapping succeeds therefore never fails. *)
Theorem linear_allocate_spec s ri r size perms v :
  pinv s ri r → size `mod` CITRA_PAGE_SIZE = 0 → 0 < size < 2 ^ 31 →
  GetCurrentValue RL_Commit (resource_limit (process s)) = Some v → - 2 ^ 31 <= v → v + size < 2 ^ 31 →
  (∃ off s', off `mod` CITRA_PAGE_SIZE = 0 ∧ free_range r off size ∧ (∀ off', free_range r off' size → off <= off') ∧
     Process_LinearAllocate 0 size perms s = Some (s', inr (GetLinearHeapAreaAddress (process s) + off)) ∧
     pinv s' ri (take_interval (off, off + size) size r) ∧ linear_allocated s s' off size perms v) ∨
  (∀ off', ~ free_range r off' size) ∧
  Process_LinearAllocate 0 size perms s = Some (s, inl ResultOutOfHeapMemory).
Proof. apply LinearAllocate_any. Qed.

Lemma paged_with P lo n :
  paged P → lo `mod` CITRA_PAGE_SIZE = 0 → n `mod` CITRA_PAGE_SIZE = 0 →
  paged (λ x, lo <= x < lo + n ∨ P x).
Proof.
  intros Hp Hlo Hn x y Hxy [Hx|Hx]; [left; by apply (same_page_range x y)|right; by apply (Hp x)].
Qed.

(** The tests of the linear heap on a range of the region. *)
Lemma in_linear_heap_region s ri r off size :
  pinv s ri r → region_base r <= off → 0 <= size → off + size <= region_base r + region_size r →
  in_linear_heap (GetLinearHeapAreaAddress (process s) + off) size s = Some true.
Proof.
  intros Hi Hlo Hs Hhi. unfold in_linear_heap, GetLinearHeapLimit, GetLinearHeapBase. rewrite (own_region_ok _ _ _ Hi).
  cbn [mbind option_bind]. pose proof (pi_fits _ _ _ Hi). pose proof (inv_bounds r (pi_region _ _ _ Hi)).
  assert (0 <= GetLinearHeapAreaAddress (process s) ∧ GetLinearHeapAreaAddress (process s) + FCRAM_N3DS_SIZE < 2 ^ 32).
  { destruct (area_cases (process s)) as [-> | ->]; done. }
  rewrite !u32_id by lia. rewrite !(proj2 (Z.ltb_ge _ _)) by lia. done.
Qed.

Record linear_freed s s' (off size v : Z) : Prop := {
  lf_unmapped : ∀ a, attr_at (vma_map (vm_manager (process s'))) a =
    if in_range (GetLinearHeapAreaAddress (process s) + off) (GetLinearHeapAreaAddress (process s) + off + size) a
    then Some free_attr else attr_at (vma_map (vm_manager (process s))) a;
  lf_holding : ∀ x, iset_elem x (holding_memory (process s')) ↔
    iset_elem x (holding_memory (process s)) ∧ ~ (off <= x < off + size);
  lf_used : memory_used (process s') = u32 (memory_used (process s) - size);
  lf_commit : GetCurrentValue RL_Commit (resource_limit (process s')) = Some (v - size);
  lf_memory : memory s' = memory s }.

Lemma LinearFree_ok s ri r off size v :
  pinv s ri r → off `mod` CITRA_PAGE_SIZE = 0 → size `mod` CITRA_PAGE_SIZE = 0 → 0 < size < 2 ^ 31 →
  region_base r <= off → off + size <= region_base r + region_size r →
  GetCurrentValue RL_Commit (resource_limit (process s)) = Some v → - 2 ^ 31 <= v - size → v < 2 ^ 31 →
  range_backed (vma_map (vm_manager (process s))) (GetLinearHeapAreaAddress (process s) + off) size →
  ∃ s' r', Process_LinearFree (GetLinearHeapAreaAddress (process s) + off) size s = Some (s', ResultSuccess) ∧
    pinv s' ri r' ∧ used r' = used r - size ∧
    (∀ x, iset_elem x (free_blocks r') ↔ off <= x < off + size ∨ iset_elem x (free_blocks r)) ∧
    linear_freed s s' off size v.
Proof.
  intros Hi Hoa Hsa Hs Hlo Hhi Hv Hv1 Hv2 Hb. unfold Process_LinearFree.
  rewrite (in_linear_heap_region s ri r off size) by (done || lia). cbn [mbind option_bind negb].
  rewrite (proj2 (Z.eqb_neq size 0)) by lia.
  pose proof (pi_fits _ _ _ Hi) as Hfits. pose proof (inv_bounds r (pi_region _ _ _ Hi)) as Hbd.
  set (area := GetLinearHeapAreaAddress (process s)) in *.
  assert (0 <= area ∧ area + FCRAM_N3DS_SIZE <= MAX_ADDRESS ∧ area `mod` CITRA_PAGE_SIZE = 0) as (Ha0 & Ha1 & Ham).
  { unfold area. destruct (area_cases (process s)) as [-> | ->]; done. }
  assert (MAX_ADDRESS < 2 ^ 32) by done.
  destruct (UnmapRange_backed (page_cached (memory s)) known Hsep (vm_manager (process s)) (area + off) size)
    as (vm' & -> & Hvm' & Hl' & Hview); try apply Hi; try done.
  { split_and!; try lia. by apply aligned_add. }
  cbn [mbind option_bind]. change (negb (IsSuccess ResultSuccess)) with false. cbv iota.
  rewrite (own_region_ok _ _ _ Hi). cbn [mbind option_bind]. replace (area + off - area) with off by lia.
  rewrite (u32_id off) by lia.
  destruct (Free_ok r off size (pi_region _ _ _ Hi) (pi_unlocked _ _ _ Hi) Hlo ltac:(lia) Hhi)
    as (r' & -> & Hr' & Hlk & Eb & Es & Hu & Hel).
  { intros x Hx Hf. specialize (Hb (area + x) ltac:(lia)). pose proof (pi_linear _ _ _ Hi x Hf) as E.
    fold area in E. by rewrite E in Hb. }
  cbn [mbind option_bind].
  destruct (discharge_ok size (set_holding (iset_sub (off, u32 (off + size)) (holding_memory (process s)))
              (set_vm vm' (process s))) v) as (l & -> & Hw & Hval); simpl; try done; try lia; [apply Hi|].
  assert (∀ x, iset_elem x (iset_sub (off, u32 (off + size)) (holding_memory (process s))) ↔
               iset_elem x (holding_memory (process s)) ∧ ~ (off <= x < off + size)) as Hhold.
  { intros x. rewrite iset_sub_spec. unfold in_interval. simpl. rewrite u32_id by lia. done. }
  eexists _, r'. split; [done|]. split; [|split; [done|split; [done|by split]]].
  pose proof Hi as []. split; simpl; try done.
  - by apply list_lookup_insert_eq, (lookup_lt_Some _ _ _ pi_at0).
  - by rewrite Eb, Es.
  - eapply paged_ext; [intros x; symmetry; apply Hel|]. by apply paged_with.
  - intros x Hx Hf. apply Hhold in Hx as [Hx Hn]. apply Hel in Hf as [Hf|Hf]; [done|]. by apply (pi_held0 x).
  - intros x Hx. change (attr_at (vma_map vm') (area + x) = Some free_attr). rewrite Hview.
    destruct (in_range _ _ _) eqn:Ea; [done|]. apply in_range_false in Ea.
    apply Hel in Hx as [Hx|Hx]; [lia|by apply pi_linear0].
Qed.

(** Freeing a range of the linear heap.  When every page of it is mapped it is unmapped, its
    physical memory goes back to the region, the accounts shrink by [size] and the invariant is
    kept; the assertion of the region's [Free] holds.  When some page is not mapped the call returns
    [ResultInvalidAddressState] and changes nothing. *)
Theorem linear_free_spec s ri r off size v :
  pinv s ri r → off `mod` CITRA_PAGE_SIZE = 0 → size `mod` CITRA_PAGE_SIZE = 0 → 0 < size < 2 ^ 31 →
  region_base r <= off → off + size <= region_base r + region_size r →
  GetCurrentValue RL_Commit (resource_limit (process s)) = Some v → - 2 ^ 31 <= v - size → v < 2 ^ 31 →
  let target := GetLinearHeapAreaAddress (process s) + off in
  (range_backed (vma_map (vm_manager (process s))) target size →
   ∃ s' r', Process_LinearFree target size s = Some (s', ResultSuccess) ∧
     pinv s' ri r' ∧ used r' = used r - size ∧
     (∀ x, iset_elem x (free_blocks r') ↔ off <= x < off + size ∨ iset_elem x (free_blocks r)) ∧
     linear_freed s s' off size v) ∧
  (~ range_backed (vma_map (vm_manager (process s))) target size →
   Process_LinearFree target size s = Some (s, ResultInvalidAddressState)).
Proof.
  intros Hi Hoa Hsa Hs Hlo Hhi Hv Hv1 Hv2 target. split; [by apply LinearFree_ok|]. intros Hb.
  unfold Process_LinearFree, target. rewrite (in_linear_heap_region s ri r off size) by (done || lia).
  cbn [mbind option_bind negb]. rewrite (proj2 (Z.eqb_neq size 0)) by lia.
  unfold UnmapRange. rewrite (pi_vm_unlocked _ _ _ Hi). cbn [negb assert_ mbind option_bind].
  rewrite (CarveVMARange_free (page_cached (memory s)) known); [|apply Hi| |done].
  - cbn [mbind option_bind]. change (negb (IsSuccess ResultInvalidAddressState)) with true. cbv iota.
    rewrite <- (pi_vm_unlocked _ _ _ Hi). by destruct s as [[? [] ? ? ? ? ? ? ?] ? ?].
  - pose proof (pi_fits _ _ _ Hi). pose proof (inv_bounds r (pi_region _ _ _ Hi)).
    destruct (area_cases (process s)) as [E|E]; rewrite E; split_and!; try lia; try (by apply aligned_add);
      unfold LINEAR_HEAP_VADDR, NEW_LINEAR_HEAP_VADDR, MAX_ADDRESS, FCRAM_N3DS_SIZE in *; lia.
Qed.

(** Memory that was allocated from the linear heap can be given back: the second call succeeds, the
    free memory of the region, its account and those of the process are what they were, and so is
    the address space, except that a neighbour with which the range was merged keeps the
    permissions of the allocation. *)
Theorem linear_heap_roundtrip s ri r size perms v :
  pinv s ri r → size `mod` CITRA_PAGE_SIZE = 0 → 0 < size < 2 ^ 31 → 0 <= memory_used (process s) < 2 ^ 32 →
  (∃ off, free_range r off size) →
  GetCurrentValue RL_Commit (resource_limit (process s)) = Some v → - 2 ^ 31 <= v → v + size < 2 ^ 31 →
  ∃ address s1 s2 r2, Process_LinearAllocate 0 size perms s = Some (s1, inr address) ∧
    Process_LinearFree address size s1 = Some (s2, ResultSuccess) ∧ pinv s2 ri r2 ∧
    used r2 = used r ∧ (∀ x, iset_elem x (free_blocks r2) ↔ iset_elem x (free_blocks r)) ∧
    memory_used (process s2) = memory_used (process s) ∧
    GetCurrentValue RL_Commit (resource_limit (process s2)) = Some v ∧
    (∀ x, iset_elem x (holding_memory (process s2)) ↔ iset_elem x (holding_memory (process s))) ∧
    ∀ a, reprotected StateContinuous perms (attr_at (vma_map (vm_manager (process s))) a)
           (attr_at (vma_map (vm_manager (process s2))) a).
Proof.
  intros Hi Hsa Hs Hm [off0 Hf0] Hv Hv1 Hv2.
  destruct (LinearAllocate_any s ri r size perms v) as [(off & s1 & Hoa & Hf & _ & E1 & Hi1 & Hla)|[Hno _]]; try done; [|by apply Hno in Hf0].
  destruct (region_inv_take_interval r off size (pi_region _ _ _ Hi) ltac:(lia) Hf) as (_ & Hu1 & Hel1).
  pose proof (la_mapped _ _ _ _ _ _ Hla) as [Hin Hout].
  assert (GetLinearHeapAreaAddress (process s1) = GetLinearHeapAreaAddress (process s)) as Earea.
  { unfold GetLinearHeapAreaAddress. by rewrite (la_caps _ _ _ _ _ _ Hla). }
  pose proof (inv_inside r (pi_region _ _ _ Hi) _ (Hf off ltac:(lia))).
  pose proof (inv_inside r (pi_region _ _ _ Hi) _ (Hf (off + size - 1) ltac:(lia))).
  destruct (LinearFree_ok s1 ri (take_interval (off, off + size) size r) off size (v + size))
    as (s2 & r2 & E2 & Hi2 & Hu2 & Hel2 & Hlf); try done; try (simpl; lia).
  { apply Hla. }
  { intros x Hx. rewrite Earea in Hx. rewrite Hin by done. done. }
  exists (GetLinearHeapAreaAddress (process s) + off), s1, s2, r2. rewrite Earea in E2.
  split; [done|]. split; [done|]. split; [done|]. split_and!.
  - lia.
  - intros x. rewrite Hel2, Hel1. specialize (Hf x). destruct (decide (off <= x < off + size)); tauto.
  - rewrite (lf_used _ _ _ _ _ Hlf), (la_used _ _ _ _ _ _ Hla). rewrite <- (u32_id (memory_used (process s))) at 2 by done.
    unfold u32. rewrite Zminus_mod_idemp_l. f_equal. lia.
  - rewrite (lf_commit _ _ _ _ _ Hlf). f_equal. lia.
  - intros x. rewrite (lf_holding _ _ _ _ _ Hlf), (la_holding _ _ _ _ _ _ Hla).
    assert (off <= x < off + size → ~ iset_elem x (holding_memory (process s))) by (intros Hx Hh; by apply (pi_held _ _ _ Hi x), Hf).
    destruct (decide (off <= x < off + size)); tauto.
  - intros a. rewrite (lf_unmapped _ _ _ _ _ Hlf), Earea. destruct (in_range _ _ a) eqn:Ea; [|by apply in_range_false in Ea; apply Hout].
    apply in_range_iff in Ea. left. symmetry.
    replace a with (GetLinearHeapAreaAddress (process s) + (a - GetLinearHeapAreaAddress (process s))) by lia.
    apply (pi_linear _ _ _ Hi), Hf. lia.
Qed.

(** *** The heap *)

(** The test for a free target area, with which [HeapAllocate] and [Map] begin. *)
Lemma free_area_check cache vm target size :
  vm_inv cache known vm → 0 <= target → 0 < size → target + size <= MAX_ADDRESS →
  ∃ i vma, FindVMA (vma_map vm) target = Some i ∧ vma_map vm !! i = Some vma ∧
    (negb (bool_decide (vma_type vma = VMManager.Free)) || (u32 (vma_base vma + vma_size vma) <? u32 (target + size)) = false ↔
     range_free (vma_map vm) target size).
Proof.
  intros (Ht & Hnp & _) H1 H2 H3.
  destruct (tiles_find _ _ _ _ target Ht ltac:(lia)) as (d & v & r & El & Hin). rewrite El in *.
  rewrite (FindVMA_cut _ _ _ _ _ _ Ht Hin). exists (length d), v. split; [done|]. split; [apply lookup_cut|].
  destruct (tiles_cons_inv _ _ _ _ _ _ Ht) as (_ & Hok & _ & Hle & Hle2 & Hle3).
  assert (MAX_ADDRESS < 2 ^ 32) by done. fold (vma_end v). rewrite !u32_id by lia.
  rewrite orb_false_iff, negb_false_iff, bool_decide_eq_true, Z.ltb_ge. split.
  - intros [Hf He] x Hx. rewrite (attr_at_of_area known 0 d v r MAX_ADDRESS) by (done || lia). by rewrite attr_free with (known := known).
  - intros Hf. assert (vma_type v = VMManager.Free) as Hv.
    { specialize (Hf target ltac:(lia)). rewrite (attr_at_of_area known 0 d v r MAX_ADDRESS) in Hf by (done || lia).
      unfold attr, free_attr in Hf. by simplify_eq. }
    split; [done|]. by eapply free_run_in_one_area.
Qed.

(** The heap allocator hands out whole pages. *)
Lemma heap_loop_paged bs (result : IS) rest :
  Forall (λ i, i.1 `mod` CITRA_PAGE_SIZE = 0 ∧ i.2 `mod` CITRA_PAGE_SIZE = 0 ∧ 0 <= i.1 ∧ i.1 < i.2 ∧ i.2 < 2 ^ 32) bs →
  paged (λ x, iset_elem x result) → rest `mod` CITRA_PAGE_SIZE = 0 → 0 <= rest < 2 ^ 32 →
  paged (λ x, iset_elem x (heap_loop bs result rest).1).
Proof.
  intros Hbs. revert result rest. induction Hbs as [|[lo hi] bs (Hlo & Hhi & H1 & H2 & H3) _ IH]; intros result rest Hp Hr Hb; [done|].
  simpl in *. rewrite (u32_id (hi - lo)) by lia. destruct (Z.leb_spec rest (hi - lo)) as [Hle|Hgt]; simpl.
  - rewrite u32_id by lia. eapply paged_ext; [|apply (paged_with _ (hi - rest) rest Hp)]; [|by apply aligned_sub|done].
    intros x. rewrite iset_add_spec. unfold in_interval. simpl. by replace (hi - rest + rest) with hi by lia.
  - rewrite (u32_id (rest - (hi - lo))) by lia. apply IH; [|by apply aligned_sub; [|apply aligned_sub]|lia].
    eapply paged_ext; [|apply (paged_with _ lo (hi - lo) Hp)]; [|done|by apply aligned_sub].
    intros x. rewrite iset_add_spec. unfold in_interval. simpl. by replace (lo + (hi - lo)) with hi by lia.
Qed.

Lemma HeapAllocate_paged r size result r' :
  region_inv r → paged (λ x, iset_elem x (free_blocks r)) → size `mod` CITRA_PAGE_SIZE = 0 → 0 <= size < 2 ^ 32 →
  HeapAllocate size r = Some (result, r') → paged (λ x, iset_elem x result).
Proof.
  intros Hi Hp Hsa Hs. unfold HeapAllocate. destruct (negb (MemoryRegion.is_locked r)); simpl; [|done].
  assert (paged (λ x, iset_elem x (iset_empty (IS := IS)))) as He.
  { intros x y _ Hx. by apply iset_elem_empty in Hx. }
  pose proof (heap_loop_paged (reverse (iset_segments (free_blocks r))) iset_empty size) as Hl.
  destruct (heap_loop _ _ _) as [res rest]. simpl in Hl. destruct (negb (rest =? 0)); intros [= <- <-]; [done|].
  apply Hl; try done. apply Forall_forall. intros i Hin. rewrite elem_of_reverse in Hin.
  destruct (paged_segment _ _ Hp Hin). destruct (segment_bounds r i Hi Hin) as (? & ? & ? & _).
  pose proof (inv_bounds r Hi). split_and!; try done; lia.
Qed.

(** The physical offset behind the [k]-th byte of a list of blocks. *)
Fixpoint block_offset (blocks : list interval) (k : Z) : Z :=
  match blocks with
  | [] => 0
  | (lo, hi) :: blocks => if k <? hi - lo then lo + k else block_offset blocks (k - (hi - lo))
  end.

(** Whether a host address lies in one of the blocks of memory at [base]. *)
Definition in_blocks (base : Z) (blocks : list interval) (a : Z) : bool :=
  existsb (λ i, in_range (base + i.1) (base + i.2) a) blocks.

Definition good_block (i : interval) : Prop :=
  i.1 `mod` CITRA_PAGE_SIZE = 0 ∧ i.2 `mod` CITRA_PAGE_SIZE = 0 ∧ 0 <= i.1 ∧ i.1 < i.2 ∧ i.2 <= FCRAM_N3DS_SIZE.

Lemma good_total bs : Forall good_block bs → 0 <= segments_total bs.
Proof. induction 1 as [|[] bs (? & ? & ? & ? & ?) _ IH]; simpl in *; lia. Qed.

Lemma map_heap_blocks_ok blocks target perms state ms vm :
  Forall good_block blocks → bm_size (fcram_mem ms) = FCRAM_N3DS_SIZE → 0 < bm_ptr (fcram_mem ms) → known (fcram_mem ms) →
  vm_inv (page_cached ms) known vm → VMManager.is_locked vm = false → target `mod` CITRA_PAGE_SIZE = 0 → 0 <= target →
  target + segments_total blocks <= MAX_ADDRESS → range_free (vma_map vm) target (segments_total blocks) →
  ∃ h vm', map_heap_blocks blocks target perms state ms vm = Some (set_host ms h, vm') ∧
    vm_inv (page_cached ms) known vm' ∧ VMManager.is_locked vm' = false ∧
    added_range (vma_map vm) (vma_map vm') target (segments_total blocks)
      (λ k, mkRef (Some (fcram_mem ms)) (block_offset blocks k)) state perms ∧
    (∀ a, host_byte h a = if in_blocks (bm_ptr (fcram_mem ms)) blocks a then 0 else host_byte (host ms) a).
Proof.
  intros Hg Hsz Hptr Hk. revert target ms vm Hsz Hptr Hk.
  induction Hg as [|[lo hi] bs (Hlo & Hhi & H1 & H2 & H3) Hbs IH]; intros target ms vm Hsz Hptr Hk Hinv Hl Hta Ht0 Hmax Hf.
  - exists (host ms), vm. simpl. split; [by destruct ms|]. split; [done|]. split; [done|]. split; [|done].
    split; [intros a Ha; lia|intros a _; by left].
  - cbn [map_heap_blocks]. change (segments_total ((lo, hi) :: bs)) with (hi - lo + segments_total bs) in *. simpl in *.
    pose proof (good_total bs Hbs) as Hpos.
    assert (FCRAM_N3DS_SIZE < 2 ^ 31 ∧ MAX_ADDRESS < 2 ^ 32) as [? ?] by done. rewrite (u32_id (hi - lo)) by lia.
    destruct (fcram_backed_at ms lo (hi - lo) Hsz Hptr Hk ltac:(lia) ltac:(lia) ltac:(lia)) as (Eref & Hbk & Hval).
    unfold clear_fcram, GetFCRAMPointer. rewrite !(proj2 (Z.leb_le _ FCRAM_N3DS_SIZE)) by lia. cbn [assert_ mbind option_bind].
    unfold store_bytes. replace (bm_ptr (fcram_mem ms) + hi - (bm_ptr (fcram_mem ms) + lo)) with (hi - lo) by lia.
    rewrite length_replicate, Z2Nat.id by lia. rewrite Hval. cbn [assert_ mbind option_bind].
    set (h1 := host_set _ _ _). change (GetFCRAMRef lo (set_host ms h1)) with (GetFCRAMRef lo ms). rewrite Eref.
    cbn [mbind option_bind].
    destruct (map_protected_ok (set_host ms h1) vm target (mkRef (Some (fcram_mem ms)) lo) (hi - lo) state perms)
      as (vm1 & -> & Hvm1 & Hl1 & Hadd1); try done.
    { split_and!; try lia. by apply aligned_sub. }
    { intros a Ha. apply Hf. lia. }
    cbn [mbind option_bind]. rewrite (u32_id (target + (hi - lo))) by lia.
    destruct (IH (target + (hi - lo)) (set_host ms h1) vm1) as (h & vm' & E & Hvm' & Hl' & Hadd2 & Hh); try done; try lia.
    { apply aligned_add; [done|]. by apply aligned_sub. }
    { intros a Ha. eapply reprotected_free; [apply (added_outside _ _ _ _ _ _ _ Hadd1)|apply Hf]; lia. }
    exists h, vm'. split; [exact E|]. split; [done|]. split; [done|]. split.
    + eapply added_range_ext; [|apply (added_range_app _ (vma_map vm1) _ target (hi - lo)); [lia|done|exact Hadd1|exact Hadd2]].
      intros k. cbn [block_offset]. unfold ref_shift. simpl. by destruct (k <? hi - lo).
    + intros a. rewrite Hh. cbn [fcram_mem set_host host]. unfold in_blocks at 2. cbn [existsb fst snd].
      fold (in_blocks (bm_ptr (fcram_mem ms)) bs a).
      destruct (in_blocks _ bs a); [by rewrite orb_true_r|]. rewrite orb_false_r. unfold h1. rewrite host_byte_set, length_replicate, Z2Nat.id by lia.
      replace (bm_ptr (fcram_mem ms) + lo + (hi - lo)) with (bm_ptr (fcram_mem ms) + hi) by lia.
      destruct (in_range _ _ a) eqn:Ea; [|done]. apply in_range_iff in Ea. by rewrite lookup_replicate_2 by lia.
Qed.

Lemma iset_union_spec (a b : IS) x : iset_elem x (iset_union a b) ↔ iset_elem x b ∨ iset_elem x a.
Proof.
  unfold iset_union. assert (∀ l, iset_elem x (foldr iset_add a l) ↔ in_segments x l ∨ iset_elem x a) as E; [|apply E].
  intros l. induction l as [|i l IH]; simpl.
  - split; [by right|]. intros [Hx|Hx]; [by apply in_segments_nil in Hx|done].
  - rewrite iset_add_spec, IH, in_segments_cons. tauto.
Qed.

(** The blocks of an allocation are good blocks. *)
Lemma allocated_blocks s ri r (result : IS) :
  pinv s ri r → paged (λ x, iset_elem x result) → (∀ x, iset_elem x result → iset_elem x (free_blocks r)) →
  Forall good_block (iset_segments result).
Proof.
  intros Hi Hp Hsub. apply Forall_forall. intros i Hin. destruct (paged_segment _ _ Hp Hin) as [H1 H2].
  pose proof (segmented_nonempty _ _ (iset_segmented result) Hin) as Hlt.
  pose proof (inv_inside r (pi_region _ _ _ Hi) i.1 (Hsub i.1 ltac:(exists i; unfold in_interval; split; [done|lia]))).
  pose proof (inv_inside r (pi_region _ _ _ Hi) (i.2 - 1) (Hsub (i.2 - 1) ltac:(exists i; unfold in_interval; split; [done|lia]))).
  pose proof (inv_bounds r (pi_region _ _ _ Hi)). pose proof (pi_fits _ _ _ Hi). split_and!; try done; lia.
Qed.

(** What a heap allocation of the physical memory [taken] does to the process. *)
Record heap_allocated s s' (taken : IS) (target size perms : Z) (state : MemoryState) (v : Z) : Prop := {
  ha_mapped : added_range (vma_map (vm_manager (process s))) (vma_map (vm_manager (process s'))) target size
    (λ k, mkRef (Some (fcram_mem (memory s))) (block_offset (iset_segments taken) k)) state perms;
  ha_holding : ∀ x, iset_elem x (holding_memory (process s')) ↔ iset_elem x taken ∨ iset_elem x (holding_memory (process s));
  ha_zero : ∀ x, iset_elem x taken → host_byte (host (memory s')) (bm_ptr (fcram_mem (memory s)) + x) = 0;
  ha_kept : ∀ x, ~ iset_elem x taken →
    host_byte (host (memory s')) (bm_ptr (fcram_mem (memory s)) + x) = host_byte (host (memory s)) (bm_ptr (fcram_mem (memory s)) + x);
  ha_used : memory_used (process s') = u32 (memory_used (process s) + size);
  ha_commit : GetCurrentValue RL_Commit (resource_limit (process s')) = Some (v + size) }.

Lemma in_blocks_elem base (b : IS) x : in_blocks base (iset_segments b) (base + x) = true ↔ iset_elem x b.
Proof.
  unfold in_blocks. rewrite existsb_exists. split.
  - intros (i & Hi & Hx). apply in_range_iff in Hx. exists i. split; [by apply list_elem_of_In|]. unfold in_interval. lia.
  - intros (i & Hi & Hx). unfold in_interval in Hx. exists i. split; [by apply list_elem_of_In|]. apply in_range_iff. lia.
Qed.

Lemma HeapAllocate_taken s ri r r1 taken target size perms state v :
  pinv s ri r → paged (λ x, iset_elem x taken) → (∀ x, iset_elem x taken → iset_elem x (free_blocks r)) →
  iset_total taken = size → target `mod` CITRA_PAGE_SIZE = 0 → size `mod` CITRA_PAGE_SIZE = 0 →
  0 <= target → 0 < size < 2 ^ 31 → target + size <= LINEAR_HEAP_VADDR →
  region_inv r1 → MemoryRegion.is_locked r1 = false → region_base r1 = region_base r → region_size r1 = region_size r →
  (∀ x, iset_elem x (free_blocks r1) ↔ iset_elem x (free_blocks r) ∧ ~ iset_elem x taken) →
  range_free (vma_map (vm_manager (process s))) target size →
  GetCurrentValue RL_Commit (resource_limit (process s)) = Some v → - 2 ^ 31 <= v → v + size < 2 ^ 31 →
  ∃ s',
    ('(ms, vm) ← map_heap_blocks (iset_segments taken) target perms state (memory s) (vm_manager (process s));
     p ← charge size (set_holding (iset_union (holding_memory (process s)) taken) (set_vm vm (process s)));
     Some (set_memory ms (set_process p (set_region ri r1 s)), inr target)) = Some (s', inr target : ResultVal Z) ∧
    pinv s' ri r1 ∧ heap_allocated s s' taken target size perms state v.
Proof.
  intros Hi Hpt Hsub Htot Hta Hsa Ht0 Hs Hlin Hr1 Hl1 Eb Es Hel Hf Hv Hv1 Hv2.
  assert (LINEAR_HEAP_VADDR <= MAX_ADDRESS) by done. unfold iset_total in Htot.
  destruct (map_heap_blocks_ok (iset_segments taken) target perms state (memory s) (vm_manager (process s)))
    as (h & vm' & -> & Hvm' & Hl' & Hadd & Hh); try apply Hi; try done; rewrite ?Htot; try done; try lia.
  { by eapply allocated_blocks. }
  cbn [mbind option_bind].
  destruct (charge_ok size (set_holding (iset_union (holding_memory (process s)) taken) (set_vm vm' (process s))) v)
    as (l & -> & Hw & Hval); simpl; try done; try lia; [apply Hi|].
  eexists. split; [done|]. rewrite Htot in Hadd. split.
  - pose proof Hi as []. split; simpl; try done.
    + by apply list_lookup_insert_eq, (lookup_lt_Some _ _ _ pi_at0).
    + by rewrite Eb, Es.
    + intros x y Hxy Hx. apply Hel in Hx as [Hx Hn]. apply Hel. split; [by apply (pi_paged0 x)|]. intros Hy. by apply Hn, (Hpt y).
    + intros x Hx Hfr. apply Hel in Hfr as [Hfr Hn]. apply iset_union_spec in Hx as [Hx|Hx]; [done|]. by apply (pi_held0 x).
    + intros x Hx. apply Hel in Hx as [Hx _].
      eapply reprotected_free; [apply (added_outside _ _ _ _ _ _ _ Hadd)|by apply pi_linear0].
      pose proof (inv_inside r pi_region0 x Hx). pose proof (inv_bounds r pi_region0).
      change (GetLinearHeapAreaAddress _) with (GetLinearHeapAreaAddress (process s)).
      destruct (area_cases (process s)) as [-> | ->]; unfold LINEAR_HEAP_VADDR, NEW_LINEAR_HEAP_VADDR in *; lia.
  - split; simpl; try done.
    + intros x. by rewrite iset_union_spec.
    + intros x Hx. rewrite Hh. by rewrite (proj2 (in_blocks_elem _ _ _)).
    + intros x Hx. rewrite Hh. destruct (in_blocks _ _ _) eqn:E; [|done]. by apply in_blocks_elem in E.
Qed.

Lemma HeapAllocate_frame r size result r' :
  HeapAllocate size r = Some (result, r') →
  MemoryRegion.is_locked r' = MemoryRegion.is_locked r ∧ region_base r' = region_base r ∧ region_size r' = region_size r.
Proof.
  unfold HeapAllocate. destruct (negb (MemoryRegion.is_locked r)); simpl; [|done].
  destruct (heap_loop _ _ _) as [res rest]. by destruct (negb (rest =? 0)); intros [= <- <-].
Qed.

(** A 32-bit sum that is not below its first operand did not wrap. *)
Lemma u32_no_wrap a n : 0 <= a < 2 ^ 32 → 0 <= n < 2 ^ 32 → a <= u32 (a + n) → u32 (a + n) = a + n.
Proof.
  intros Ha Hn Hle. destruct (Z.lt_ge_cases (a + n) (2 ^ 32)) as [|Hge]; [apply u32_id; lia|].
  assert (u32 (a + n) = a + n - 2 ^ 32) as E; [|rewrite E in *; lia].
  unfold u32. symmetry. apply (Z.mod_unique _ _ 1); lia.
Qed.

Lemma in_heap_below target size :
  in_heap target size = true → 0 <= target < 2 ^ 32 → 0 <= size < 2 ^ 31 → target + size <= LINEAR_HEAP_VADDR.
Proof.
  unfold in_heap. rewrite negb_true_iff, !orb_false_iff, !Z.ltb_ge. intros [[H1 H2] H3] Ht Hs.
  rewrite (u32_no_wrap target size) in H2 by lia. assert (HEAP_VADDR_END <= LINEAR_HEAP_VADDR) by done. lia.
Qed.


(** *** The end of a process *)

Lemma free_segments_ok l r :
  segmented l → region_inv r → MemoryRegion.is_locked r = false →
  (∀ x, in_segments x l → region_base r <= x < region_base r + region_size r ∧ ~ iset_elem x (free_blocks r)) →
  ∃ r', free_segments l r = Some r' ∧ region_inv r' ∧ MemoryRegion.is_locked r' = false ∧
    region_base r' = region_base r ∧ region_size r' = region_size r ∧ used r' = used r - segments_total l ∧
    ∀ x, iset_elem x (free_blocks r') ↔ in_segments x l ∨ iset_elem x (free_blocks r).
Proof.
  intros Hs. revert r. induction Hs as [|lo hi l Hlt Hgap Hs IH]; intros r Hi Hl Hin.
  - exists r. split_and!; try done; [simpl; lia|]. intros x. split; [by right|]. intros [Hx|Hx]; [by apply in_segments_nil in Hx|done].
  - assert (∀ x, lo <= x < hi → region_base r <= x < region_base r + region_size r ∧ ~ iset_elem x (free_blocks r)) as Hhd.
    { intros x Hx. apply Hin, in_segments_cons. left. done. }
    pose proof (Hhd lo ltac:(lia)) as [? _]. pose proof (Hhd (hi - 1) ltac:(lia)) as [? _]. pose proof (inv_bounds r Hi).
    destruct (Free_ok r lo (hi - lo) Hi Hl) as (r1 & E & Hi1 & Hl1 & Eb & Es & Hu & Hel); try lia.
    { intros x Hx. apply Hhd. lia. }
    destruct (IH r1 Hi1 Hl1) as (r2 & E2 & Hi2 & Hl2 & Eb2 & Es2 & Hu2 & Hel2).
    { intros x Hx. rewrite Eb, Es. destruct (Hin x) as [Hr Hf]; [by apply in_segments_cons; right|]. split; [done|].
      rewrite Hel. intros [Hx'|Hx']; [|done]. destruct Hx as (i & Hil & Hx). specialize (Hgap i Hil). unfold in_interval in Hx. lia. }
    exists r2. cbn [free_segments]. rewrite (u32_id (hi - lo)) by lia. rewrite E. cbn [mbind option_bind].
    split_and!; try done; try congruence; [simpl; lia|].
    intros x. rewrite Hel2, Hel, in_segments_cons. unfold in_interval. simpl. replace (lo + (hi - lo)) with hi by lia. tauto.
Qed.

Lemma release_segments_ok l p v :
  Forall (λ i, 0 <= i.2 - i.1 < 2 ^ 31) l → limit_wf (resource_limit p) →
  GetCurrentValue RL_Commit (resource_limit p) = Some v → - 2 ^ 31 <= v - segments_total l → v < 2 ^ 31 →
  0 <= memory_used p < 2 ^ 32 →
  ∃ lim, release_segments l p = Some (set_limit lim (set_memory_used (memory_used p - segments_total l) p)) ∧
    limit_wf lim ∧ GetCurrentValue RL_Commit lim = Some (v - segments_total l).
Proof.
  intros Hl. revert p v. induction Hl as [|[lo hi] l Hi Hl IH]; intros p v Hw Hv H1 H2 Hm.
  - exists (resource_limit p). simpl. rewrite !Z.sub_0_r. unfold set_memory_used. rewrite u32_id by done. by destruct p.
  - change (segments_total ((lo, hi) :: l)) with (hi - lo + segments_total l) in *. simpl in Hi. cbn [release_segments].
    assert (0 <= segments_total l) by (clear -Hl; induction Hl as [|[] ? ? ? IH]; simpl in *; lia).
    rewrite (u32_id (hi - lo)) by lia.
    destruct (discharge_ok (hi - lo) p v) as (l1 & -> & Hw1 & Hv1'); try done; try lia. cbn [mbind option_bind].
    destruct (IH (set_limit l1 (set_memory_used (memory_used p - (hi - lo)) p)) (v - (hi - lo)))
      as (lim & -> & Hw2 & Hv2'); try done; try lia; [apply u32_range|].
    exists lim. split; [|split; [done|rewrite Hv2'; f_equal; lia]].
    unfold set_limit, set_memory_used. simpl. do 2 f_equal. unfold u32. rewrite Zminus_mod_idemp_l. f_equal. lia.
Qed.

(** The physical memory of region [j] that a process of region [ri] owns. *)
Definition owned s (ri j : nat) (x : Z) : Prop :=
  j = ri ∧ iset_elem x (holding_memory (process s)) ∨ j = BASE_REGION ∧ iset_elem x (holding_tls_memory (process s)).

(** What is owned lies in its region and is not free there; no byte is owned twice. *)
Record owns s (ri : nat) : Prop := {
  ow_region : memory_region (process s) = Some ri;
  ow_own : is_Some (memory_regions s !! ri);
  ow_base : is_Some (memory_regions s !! BASE_REGION);
  ow_regions : ∀ j r, memory_regions s !! j = Some r →
    region_inv r ∧ MemoryRegion.is_locked r = false ∧ region_size r < 2 ^ 31 ∧
    ∀ x, owned s ri j x → region_base r <= x < region_base r + region_size r ∧ ~ iset_elem x (free_blocks r);
  ow_once : ri = BASE_REGION → ∀ x, iset_elem x (holding_memory (process s)) → ~ iset_elem x (holding_tls_memory (process s)) }.

Lemma segments_short (b : IS) r :
  region_size r < 2 ^ 31 → (∀ x, iset_elem x b → region_base r <= x < region_base r + region_size r) →
  Forall (λ i, 0 <= i.2 - i.1 < 2 ^ 31) (iset_segments b).
Proof.
  intros Hsz Hin. apply Forall_forall. intros i Hi. pose proof (segmented_nonempty _ _ (iset_segmented b) Hi).
  pose proof (Hin i.1 ltac:(exists i; unfold in_interval; split; [done|lia])).
  pose proof (Hin (i.2 - 1) ltac:(exists i; unfold in_interval; split; [done|lia])). lia.
Qed.

Lemma freed_total l : Forall (λ i, 0 <= i.2 - i.1 < 2 ^ 31) l → foldr (λ i n, u32 (i.2 - i.1) + n) 0 l = segments_total l.
Proof. induction 1 as [|i l Hi _ IH]; simpl; [done|]. rewrite IH, u32_id; lia. Qed.

(** The regions after the memory of the process went back to [r1] and [b2]. *)
Lemma regions_freed s ri r b r1 b1 b2 :
  memory_regions s !! ri = Some r → memory_regions s !! BASE_REGION = Some b →
  b1 = (if decide (ri = BASE_REGION) then r1 else b) → region_inv r1 → region_inv b2 →
  (∀ j r', memory_regions s !! j = Some r' → region_inv r') →
  (∀ x, iset_elem x (free_blocks r1) ↔ iset_elem x (holding_memory (process s)) ∨ iset_elem x (free_blocks r)) →
  (∀ x, iset_elem x (free_blocks b2) ↔ iset_elem x (holding_tls_memory (process s)) ∨ iset_elem x (free_blocks b1)) →
  ∀ j rj, memory_regions s !! j = Some rj →
  ∃ r', <[BASE_REGION := b2]> (<[ri := r1]> (memory_regions s)) !! j = Some r' ∧ region_inv r' ∧
    ∀ x, iset_elem x (free_blocks r') ↔ iset_elem x (free_blocks rj) ∨ owned s ri j x.
Proof.
  intros Er Eb -> Hi1 Hi2 Hok Hel1 Hel2 j rj Ej. unfold owned. destruct (decide (j = BASE_REGION)) as [->|Hne].
  - exists b2. simplify_eq. split; [|split; [done|]].
    { apply list_lookup_insert_eq. rewrite length_insert. by eapply lookup_lt_Some. }
    intros x. rewrite Hel2. destruct (decide (ri = BASE_REGION)) as [->|]; [|by intuition congruence].
    simplify_eq. rewrite Hel1. intuition congruence.
  - rewrite list_lookup_insert_ne by done. destruct (decide (j = ri)) as [->|Hnr].
    + exists r1. simplify_eq. split; [|split; [done|]]. { apply list_lookup_insert_eq. by eapply lookup_lt_Some. }
      intros x. rewrite Hel1. intuition congruence.
    + exists rj. rewrite list_lookup_insert_ne by done. split; [done|]. split; [by apply (Hok j)|].
      intros x. intuition congruence.
Qed.

(** C36: [FreeAllMemory] gives back exactly what the process owns.  Every region, the process's own, BASE
    for the thread-local storage, or both when they are the same, gets its bytes back, no assertion
    of [Free] fails, the other regions do not change; the process owns nothing afterwards and its
    accounts shrink by what it owned. *)
Theorem free_all_memory_spec s ri v :
  owns s ri → limit_wf (resource_limit (process s)) → 0 <= memory_used (process s) < 2 ^ 32 →
  GetCurrentValue RL_Commit (resource_limit (process s)) = Some v →
  - 2 ^ 31 <= v - iset_total (holding_memory (process s)) → v < 2 ^ 31 →
  ∃ s', FreeAllMemory s = Some s' ∧
    (∀ j r, memory_regions s !! j = Some r → ∃ r', memory_regions s' !! j = Some r' ∧ region_inv r' ∧
       ∀ x, iset_elem x (free_blocks r') ↔ iset_elem x (free_blocks r) ∨ owned s ri j x) ∧
    (∀ j x, ~ owned s' ri j x) ∧ tls_slots (process s') = [] ∧
    memory_used (process s') = u32 (memory_used (process s) - iset_total (holding_memory (process s)) -
                                    iset_total (holding_tls_memory (process s))) ∧
    GetCurrentValue RL_Commit (resource_limit (process s')) = Some (v - iset_total (holding_memory (process s))).
Proof.
  intros [Hreg [r Er] [b Eb] Hok Honce] Hw Hm Hv Hv1 Hv2. unfold FreeAllMemory. rewrite Hreg, Er. cbn [mbind option_bind].
  destruct (Hok ri r Er) as (Hri & Hrl & Hrs & Hro). destruct (Hok BASE_REGION b Eb) as (Hbi & Hbl & Hbs & Hbo).
  destruct (free_segments_ok (iset_segments (holding_memory (process s))) r (iset_segmented _) Hri Hrl)
    as (r1 & -> & Hi1 & Hl1 & Eb1 & Es1 & _ & Hel1). { intros x Hx. apply Hro. by left. }
  cbn [mbind option_bind].
  destruct (release_segments_ok (iset_segments (holding_memory (process s))) (process s) v) as (lim & -> & Hw' & Hv'); try done.
  { eapply segments_short; [exact Hrs|]. intros x Hx. apply Hro. by left. }
  cbn [mbind option_bind process set_process set_region memory_regions].
  set (b1 := if decide (ri = BASE_REGION) then r1 else b).
  assert (<[ri := r1]> (memory_regions s) !! BASE_REGION = Some b1) as Eb1'.
  { unfold b1. destruct (decide (ri = BASE_REGION)) as [->|Hne]; [|by rewrite list_lookup_insert_ne].
    apply list_lookup_insert_eq. by eapply lookup_lt_Some. }
  rewrite Eb1'. cbn [mbind option_bind holding_tls_memory set_holding set_limit set_memory_used].
  assert (∀ x, iset_elem x (holding_tls_memory (process s)) → region_base b <= x < region_base b + region_size b ∧ ~ iset_elem x (free_blocks b)) as Htls.
  { intros x Hx. apply Hbo. by right. }
  destruct (free_segments_ok (iset_segments (holding_tls_memory (process s))) b1 (iset_segmented _))
    as (b2 & -> & Hi2 & _ & _ & _ & _ & Hel2).
  1-3: unfold b1; destruct (decide (ri = BASE_REGION)) as [->|]; [simplify_eq; try done|by auto].
  { intros x Hx. rewrite Eb1, Es1, Hel1. split; [by apply Htls|]. intros [Hx'|Hx']; [by apply (Honce eq_refl x)|by apply (Htls x)]. }
  cbn [mbind option_bind]. eexists. split; [reflexivity|].
  cbn [process set_process set_region memory_regions tls_slots set_tls memory_used set_memory_used resource_limit set_limit set_holding].
  rewrite freed_total by (eapply segments_short; [exact Hbs|]; intros x Hx; by apply Htls).
  split_and!; try done.
  - intros j rj Ej. eapply (regions_freed s ri r b r1 b1 b2); try done. intros j' r' E'. by apply (Hok j').
  - intros j x [[_ Hx]|[_ Hx]]; by apply iset_elem_empty in Hx.
  - unfold u32. rewrite Zminus_mod_idemp_l. done.
Qed.

(** *** Thread-local storage *)

(** The pages between the area of thread-local storage and the end of its 64 MiB block. *)
Definition TLS_PAGES : nat := 126.
Definition tls_page_address (k : nat) : Z := TLS_AREA_VADDR + Z.of_nat k * CITRA_PAGE_SIZE.
Definition tls_slot_address (k i : nat) : Z := tls_page_address k + Z.of_nat i * TLS_ENTRY_SIZE.

Definition slot_used p (k i : nat) : Prop := ∃ slots, tls_slots p !! k = Some slots ∧ slots !! i = Some true.

(** The addresses that are given out. *)
Definition tls_in_use p (a : Z) : Prop := ∃ k i, slot_used p k i ∧ a = tls_slot_address k i.

(** The page [k] of thread-local storage is mapped to whole page of FCRAM. *)
Definition tls_mapped s (k : nat) (off : Z) : Prop :=
  0 <= off ∧ off + CITRA_PAGE_SIZE <= FCRAM_N3DS_SIZE ∧
  ∀ a, tls_page_address k <= a < tls_page_address k + CITRA_PAGE_SIZE →
    attr_at (vma_map (vm_manager (process s))) a =
    Some (mkAttr BackingMemory PermReadWrite StateLocked
            (mkRef (Some (fcram_mem (memory s))) (off + (a - tls_page_address k)))).

Record tls_inv s b : Prop := {
  ti_base : memory_regions s !! BASE_REGION = Some b;
  ti_region : region_inv b;
  ti_unlocked : MemoryRegion.is_locked b = false;
  ti_fits : region_base b + region_size b <= FCRAM_N3DS_SIZE;
  ti_fcram : bm_size (fcram_mem (memory s)) = FCRAM_N3DS_SIZE;
  ti_fcram_ptr : 0 < bm_ptr (fcram_mem (memory s));
  ti_known : known (fcram_mem (memory s));
  ti_vm : vm_inv (page_cached (memory s)) known (vm_manager (process s));
  ti_vm_unlocked : VMManager.is_locked (vm_manager (process s)) = false;
  ti_pages : ∀ k slots, tls_slots (process s) !! k = Some slots → length slots = 8%nat ∧ ∃ off, tls_mapped s k off;
  ti_free : ∀ k, (length (tls_slots (process s)) <= k < TLS_PAGES)%nat →
    range_free (vma_map (vm_manager (process s))) (tls_page_address k) CITRA_PAGE_SIZE;
  ti_held : ∀ x, iset_elem x (holding_tls_memory (process s)) → ~ iset_elem x (free_blocks b) }.

Lemma find_slot_spec page slots :
  match find_slot page slots with
  | Some (k, i) => (page <= k)%nat ∧ ∃ l, slots !! (k - page)%nat = Some l ∧ l !! i = Some false
  | None => Forall (Forall (λ u, u = true)) slots
  end.
Proof.
  revert page. induction slots as [|l slots IH]; intros page; cbn [find_slot]; [done|].
  destruct (list_find (λ b, b = false) l) as [[i u]|] eqn:E.
  - apply list_find_Some in E as (Hi & -> & _). split; [lia|]. exists l. by rewrite Nat.sub_diag.
  - apply list_find_None in E. specialize (IH (S page)). destruct (find_slot (S page) slots) as [[k i]|].
    + destruct IH as (Hk & l' & Hl & Hi). split; [lia|]. exists l'. by replace (k - page)%nat with (S (k - S page)) by lia.
    + constructor; [|done]. eapply Forall_impl; [exact E|]. by intros [].
Qed.

Lemma tls_slot_address_inj k i k' i' :
  (i < 8)%nat → (i' < 8)%nat → tls_slot_address k i = tls_slot_address k' i' → k = k' ∧ i = i'.
Proof. unfold tls_slot_address, tls_page_address, CITRA_PAGE_SIZE, TLS_ENTRY_SIZE. lia. Qed.

Lemma tls_page_bounds k :
  (k < TLS_PAGES)%nat → 0 <= tls_page_address k ∧ tls_page_address k + CITRA_PAGE_SIZE <= 0x20000000 ∧
  tls_page_address k = (TLS_AREA_VADDR / CITRA_PAGE_SIZE + Z.of_nat k) * CITRA_PAGE_SIZE.
Proof.
  unfold TLS_PAGES, tls_page_address. intros Hk.
  change (TLS_AREA_VADDR / CITRA_PAGE_SIZE) with 0x1FF82. unfold TLS_AREA_VADDR, CITRA_PAGE_SIZE. lia.
Qed.

Lemma tls_not_cached k ms : (k < TLS_PAGES)%nat → IsCached (tls_page_address k) ms = false.
Proof.
  intros Hk. destruct (tls_page_bounds k Hk) as (H1 & H2 & _). unfold IsCached, At.
  assert (TLS_AREA_VADDR <= tls_page_address k) by (unfold tls_page_address, CITRA_PAGE_SIZE; lia).
  assert (VRAM_VADDR_END <= TLS_AREA_VADDR ∧ LINEAR_HEAP_VADDR_END <= TLS_AREA_VADDR ∧
          0x20000000 <= NEW_LINEAR_HEAP_VADDR ∧ PLUGIN_3GX_FB_VADDR_END <= TLS_AREA_VADDR ∧ 0 < CITRA_PAGE_SIZE)
    as (? & ? & ? & ? & ?) by done.
  rewrite !(proj2 (in_range_false _ _ _)) by lia. done.
Qed.

Lemma tls_backing s b k off :
  tls_inv s b → (k < TLS_PAGES)%nat → tls_mapped s k off →
  page_backing (process_pages (process s)) (memory s) (tls_page_address k / CITRA_PAGE_SIZE)
    (Some (mkRef (Some (fcram_mem (memory s))) off)).
Proof.
  intros Hi Hk (H1 & H2 & Hm). destruct (tls_page_bounds k Hk) as (_ & _ & E).
  destruct (ti_vm _ _ Hi) as (_ & _ & Hag).
  set (page := tls_page_address k / CITRA_PAGE_SIZE).
  assert (page * CITRA_PAGE_SIZE = tls_page_address k) as Ep by (unfold page; rewrite E, Z.div_mul by done; done).
  specialize (Hm (tls_page_address k) ltac:(unfold CITRA_PAGE_SIZE; lia)). rewrite Z.sub_diag, Z.add_0_r in Hm.
  rewrite <- Ep in Hm. apply Hag in Hm. unfold page_backing. simpl entries. rewrite Hm. unfold attr_page. simpl.
  unfold page_cached. rewrite Ep, tls_not_cached by done. split; [done|]. eexists. split; [done|].
  simpl. rewrite (ti_fcram _ _ Hi). split_and!; try done; [set_solver|apply Hi].
Qed.

(** Invalidating the renderer's copies does not write to memory. *)
Context (rasterizer : FlushMode → Z → Z → gmap Z Z → gmap Z Z)
        (Hinvalidate : ∀ h, no_writeback rasterizer Invalidate h).

(** What an allocation does: the slot, which was not in use, is, and its memory is clear. *)
Record tls_allocated s s' (k i : nat) (off : Z) : Prop := {
  tl_mapped : tls_mapped s' k off;
  tl_fresh : ~ tls_in_use (process s) (tls_slot_address k i);
  tl_in_use : ∀ a, tls_in_use (process s') a ↔ a = tls_slot_address k i ∨ tls_in_use (process s) a;
  tl_zero : ∀ j, 0 <= j < TLS_ENTRY_SIZE →
    host_byte (host (memory s')) (bm_ptr (fcram_mem (memory s)) + off + Z.of_nat i * TLS_ENTRY_SIZE + j) = 0 }.

Lemma slot_used_insert p k i slots l k' i' :
  tls_slots p !! k = Some slots → (i < length slots)%nat →
  slot_used (set_tls l (<[k := <[i := true]> slots]> (tls_slots p)) p) k' i' ↔ (k' = k ∧ i' = i) ∨ slot_used p k' i'.
Proof.
  intros Hk Hi. unfold slot_used. simpl. pose proof (lookup_lt_Some _ _ _ Hk) as Hlen.
  destruct (decide (k' = k)) as [->|Hne].
  - rewrite list_lookup_insert_eq by done. split.
    + intros (sl & [= <-] & E). destruct (decide (i' = i)) as [->|Hni]; [by left|right].
      rewrite list_lookup_insert_ne in E by done. by eauto.
    + intros [[_ ->]|(sl & E & Ei)]; eexists; (split; [done|]); [by apply list_lookup_insert_eq|]. simplify_eq.
      destruct (decide (i' = i)) as [->|Hni]; [by apply list_lookup_insert_eq|by rewrite list_lookup_insert_ne].
  - rewrite list_lookup_insert_ne by done. split; [by right|]. intros [[? _]|?]; done.
Qed.

(** Clearing a slot of a mapped page clears its bytes of FCRAM and nothing else. *)
Lemma zero_slot_ok s b k i off :
  tls_inv s b → (k < TLS_PAGES)%nat → (i < 8)%nat → tls_mapped s k off →
  ∃ h, ZeroBlock rasterizer (process_pages (process s)) (tls_slot_address k i) TLS_ENTRY_SIZE (memory s) = Some (set_host (memory s) h) ∧
    ∀ y, host_byte h y = if in_range (bm_ptr (fcram_mem (memory s)) + off + Z.of_nat i * TLS_ENTRY_SIZE)
            (bm_ptr (fcram_mem (memory s)) + off + Z.of_nat i * TLS_ENTRY_SIZE + TLS_ENTRY_SIZE) y then 0
            else host_byte (host (memory s)) y.
Proof.
  intros Hi Hk Hi8 Hm. destruct (tls_page_bounds k Hk) as (Hb0 & Hb1 & Hb2). pose proof (tls_backing s b k off Hi Hk Hm) as Hpb.
  assert (tls_slot_address k i = tls_page_address k + Z.of_nat i * TLS_ENTRY_SIZE) as Ea by done.
  assert (TLS_ENTRY_SIZE = 0x200 ∧ CITRA_PAGE_SIZE = 0x1000) as [Ee Epg] by done.
  set (a := tls_slot_address k i) in *.
  assert (∀ x, a <= x < a + TLS_ENTRY_SIZE → x / CITRA_PAGE_SIZE = tls_page_address k / CITRA_PAGE_SIZE ∧
                                             x `mod` CITRA_PAGE_SIZE = x - tls_page_address k) as Hdiv.
  { intros x Hx. rewrite Hb2, Z.div_mul by done. rewrite <- Hb2. split; symmetry;
      [apply (Z.div_unique _ _ _ (x - tls_page_address k))|apply (Z.mod_unique _ _ (TLS_AREA_VADDR / CITRA_PAGE_SIZE + Z.of_nat k))]; lia. }
  destruct (zero_block_ok rasterizer (λ _, 0) Hinvalidate (process_pages (process s)) (memory s) a 0x200) as (h & E & Ew); try lia.
  { intros x Hx. exists (Some (mkRef (Some (fcram_mem (memory s))) off)). by rewrite (proj1 (Hdiv x Hx)). }
  change (Z.of_nat 0x200) with TLS_ENTRY_SIZE in E. destruct (Hdiv a ltac:(lia)) as [Hda Hma].
  rewrite (write_each_page rasterizer Hinvalidate _ _ _ _ (Some (mkRef (Some (fcram_mem (memory s))) off))) in Ew;
    [|by rewrite Hda|lia|rewrite length_replicate; lia|by apply Forall_replicate|rewrite length_replicate; lia].
  apply Some_inj, (f_equal host) in Ew. cbn [put host set_host] in Ew. exists h. split; [done|].
  intros y. rewrite <- Ew, host_byte_set, length_replicate. unfold GetPtr. simpl backing_mem. simpl offset. rewrite Hma.
  change (Z.of_nat 512) with TLS_ENTRY_SIZE. replace (a - tls_page_address k) with (Z.of_nat i * TLS_ENTRY_SIZE) by lia.
  destruct (in_range _ _ y) eqn:Ey; [|done]. apply in_range_iff in Ey. rewrite lookup_replicate_2 by lia. done.
Qed.

Lemma use_slot_ok s b k i slots off :
  tls_inv s b → (k < TLS_PAGES)%nat → tls_slots (process s) !! k = Some slots → slots !! i = Some false →
  tls_mapped s k off →
  ∃ s', use_slot rasterizer k i s = Some (s', inr (tls_slot_address k i)) ∧ tls_inv s' b ∧ tls_allocated s s' k i off.
Proof.
  intros Hi Hk Hs Hf Hm. destruct (ti_pages _ _ Hi k slots Hs) as [Hlen _]. pose proof (lookup_lt_Some _ _ _ Hf) as Hi8.
  rewrite Hlen in Hi8. destruct (tls_page_bounds k Hk) as (Hb0 & Hb1 & _).
  unfold use_slot. rewrite Hs. cbn [mbind option_bind]. fold (tls_page_address k). fold (tls_slot_address k i).
  rewrite (u32_id (tls_slot_address k i)) by (unfold tls_slot_address, TLS_ENTRY_SIZE, CITRA_PAGE_SIZE in *; lia).
  set (p1 := set_tls _ _ _). change (process_pages p1) with (process_pages (process s)).
  destruct (zero_slot_ok s b k i off Hi Hk Hi8 Hm) as (h & -> & Hh). cbn [mbind option_bind]. eexists. split; [done|].
  assert (∀ k' i', slot_used p1 k' i' ↔ (k' = k ∧ i' = i) ∨ slot_used (process s) k' i') as Hused
    by (intros; apply slot_used_insert; [done|lia]).
  split; [|split].
  - destruct Hi. split; simpl; try done.
    + intros k' sl Hk'. apply list_lookup_insert_Some in Hk' as [(<- & <- & _)|[_ Hk']]; [|by apply ti_pages0].
      rewrite length_insert. by apply (ti_pages0 k).
    + intros k' Hk'. rewrite length_insert in Hk'. by apply ti_free0.
  - exact Hm.
  - intros (k' & i' & (sl & Hk' & Hi') & Eq). destruct (ti_pages _ _ Hi k' sl Hk') as [Hl' _].
    pose proof (lookup_lt_Some _ _ _ Hi'). apply tls_slot_address_inj in Eq as [<- <-]; [|lia..]. by simplify_eq.
  - intros x. cbn [process set_memory set_process]. unfold tls_in_use. setoid_rewrite Hused. split.
    + intros (k' & i' & [[-> ->]|Hu] & ->); [by left|right; by eauto].
    + intros [->|(k' & i' & Hu & ->)]; [by eauto 10|by eauto 10].
  - intros j Hj. simpl. rewrite Hh. by rewrite (proj2 (in_range_iff _ _ _)) by lia.
Qed.

(** A new page of slots. *)
Lemma new_tls_page_ok s b :
  tls_inv s b → (length (tls_slots (process s)) < TLS_PAGES)%nat →
  (∃ off s1, free_range b off CITRA_PAGE_SIZE ∧ new_tls_page s = Some (s1, Some (length (tls_slots (process s)))) ∧
     tls_inv s1 (take_interval (off, off + CITRA_PAGE_SIZE) CITRA_PAGE_SIZE b) ∧
     tls_mapped s1 (length (tls_slots (process s))) off ∧ memory s1 = memory s ∧
     tls_slots (process s1) = tls_slots (process s) ++ [replicate 8 false]) ∨
  (∀ off, ~ free_range b off CITRA_PAGE_SIZE) ∧ new_tls_page s = Some (s, None).
Proof.
  intros Hi Hk. set (k := length (tls_slots (process s))) in *. unfold new_tls_page. fold k.
  rewrite (ti_base _ _ Hi). cbn [mbind option_bind].
  destruct (LinearAllocate_ok b CITRA_PAGE_SIZE (ti_region _ _ Hi) (ti_unlocked _ _ Hi) ltac:(done))
    as [(seg & _ & -> & Hf & _ & Hb1)|(-> & Hno)]; cbn [mbind option_bind].
  2:{ right. split; [done|]. unfold set_region. rewrite list_insert_id by apply Hi. by destruct s. }
  left. set (off := seg.1) in *. exists off. assert (0 < CITRA_PAGE_SIZE) as Hpg by done.
  pose proof (inv_inside b (ti_region _ _ Hi) _ (Hf off ltac:(lia))) as Hlo.
  pose proof (inv_inside b (ti_region _ _ Hi) _ (Hf (off + CITRA_PAGE_SIZE - 1) ltac:(lia))) as Hhi.
  pose proof (inv_bounds b (ti_region _ _ Hi)) as Hbd. pose proof (ti_fits _ _ Hi) as Hfits.
  destruct (region_inv_take_interval b off CITRA_PAGE_SIZE (ti_region _ _ Hi) ltac:(lia) Hf) as (_ & _ & Hel).
  destruct (tls_page_bounds k Hk) as (Ha0 & Ha1 & Ha2). fold (tls_page_address k). rewrite (u32_id (tls_page_address k)) by lia.
  cbn [memory set_region]. destruct (fcram_backed_at (memory s) off CITRA_PAGE_SIZE) as (Eref & Hbk & _); try apply Hi; try lia.
  rewrite Eref. cbn [mbind option_bind vm_manager set_tls set_memory_used set_region process].
  destruct (MapBackingMemory_free (page_cached (memory s)) known Hsep (vm_manager (process s)) (tls_page_address k)
              (mkRef (Some (fcram_mem (memory s))) off) CITRA_PAGE_SIZE StateLocked) as (vm' & j & -> & Hvm' & Hl' & Hview);
    try apply Hi; try done.
  { split_and!; try lia; [by rewrite Ha2, Z.mod_mul|done|]. assert (0x20000000 <= MAX_ADDRESS) by done. lia. }
  cbn [mbind option_bind]. eexists. split; [done|]. split; [done|]. rewrite (u32_id (off + CITRA_PAGE_SIZE)) by lia.
  assert (∀ a, ~ (tls_page_address k <= a < tls_page_address k + CITRA_PAGE_SIZE) →
            attr_at (vma_map vm') a = attr_at (vma_map (vm_manager (process s))) a) as Hout.
  { intros a Ha. rewrite Hview. unfold mapped_view. by rewrite (proj2 (in_range_false _ _ _)) by lia. }
  assert (∀ k' a, k' ≠ k → tls_page_address k' <= a < tls_page_address k' + CITRA_PAGE_SIZE →
            attr_at (vma_map vm') a = attr_at (vma_map (vm_manager (process s))) a) as Hother.
  { intros k' a Hne Ha. apply Hout. unfold tls_page_address, CITRA_PAGE_SIZE in *. lia. }
  split; [|split; [|done]].
  - pose proof Hi as []. split; simpl; try done.
    + by apply list_lookup_insert_eq, (lookup_lt_Some _ _ _ ti_base0).
    + intros k' sl Hk'. apply lookup_app_Some in Hk' as [Hk'|[Hge Hk']].
      * destruct (ti_pages0 k' sl Hk') as (Hl8 & o & Ho1 & Ho2 & Ho). split; [done|]. exists o. split_and!; try done.
        intros a Ha. simpl. rewrite (Hother k') by (done || (apply lookup_lt_Some in Hk'; lia)). by apply Ho.
      * apply list_lookup_singleton_Some in Hk' as [Hz <-]. split; [done|]. exists off. split_and!; [lia|lia|].
        intros a Ha. simpl. rewrite Hview. unfold mapped_view.
        assert (k' = k) as -> by lia. by rewrite (proj2 (in_range_iff _ _ _)) by lia.
    + intros k' Hk'. rewrite length_app in Hk'. simpl in Hk'. intros x Hx. rewrite (Hother k') by (done || lia). apply (ti_free0 k'); [lia|done].
    + intros x Hx Hf'. apply Hel in Hf' as [Hf' Hn]. apply iset_add_spec in Hx as [Hx|Hx]; [by apply Hn|by apply (ti_held0 x)].
  - split_and!; [lia|lia|]. intros a Ha. simpl. rewrite Hview. unfold mapped_view. by rewrite (proj2 (in_range_iff _ _ _)) by lia.
Qed.

Lemma slot_used_new_page p p1 k i :
  tls_slots p1 = tls_slots p ++ [replicate 8 false] → slot_used p1 k i ↔ slot_used p k i.
Proof.
  intros E. unfold slot_used. rewrite E. split.
  - intros (sl & Hk & Hi). apply lookup_app_Some in Hk as [Hk|[_ Hk]]; [by eauto|].
    apply list_lookup_singleton_Some in Hk as [_ <-]. apply lookup_replicate in Hi as [? _]. done.
  - intros (sl & Hk & Hi). exists sl. split; [by apply lookup_app_l_Some|done].
Qed.

(** Thread-local storage.  With fewer than 126 pages of slots, an allocation succeeds unless every
    slot is in use and the BASE region has no free page, when it returns [ResultOutOfMemory] and
    changes nothing.  The address it gives out was not in use and now is, no other address changes
    hands, and the 512 bytes behind it are clear; a page is taken from the BASE region only when
    every slot is in use, and the invariant is kept. *)
Theorem tls_allocate_spec s b :
  tls_inv s b → (length (tls_slots (process s)) < TLS_PAGES)%nat →
  (∃ k i off s' b', AllocateThreadLocalStorage rasterizer s = Some (s', inr (tls_slot_address k i)) ∧
     tls_inv s' b' ∧ tls_allocated s s' k i off ∧
     (b' = b ∨ Forall (Forall (λ u, u = true)) (tls_slots (process s)))) ∨
  Forall (Forall (λ u, u = true)) (tls_slots (process s)) ∧ (∀ off, ~ free_range b off CITRA_PAGE_SIZE) ∧
  AllocateThreadLocalStorage rasterizer s = Some (s, inl ResultOutOfMemory).
Proof.
  intros Hi Hlen. unfold AllocateThreadLocalStorage. pose proof (find_slot_spec 0 (tls_slots (process s))) as Hfind.
  destruct (find_slot 0 (tls_slots (process s))) as [[k i]|].
  - left. destruct Hfind as (_ & l & Hk & Hf). rewrite Nat.sub_0_r in Hk.
    destruct (ti_pages _ _ Hi k l Hk) as (_ & off & Hm). pose proof (lookup_lt_Some _ _ _ Hk).
    destruct (use_slot_ok s b k i l off) as (s' & E & Hi' & Hal); try done; [lia|]. by eauto 10.
  - destruct (new_tls_page_ok s b Hi Hlen) as [(off & s1 & Hf & -> & Hi1 & Hm & Em & Es)|[Hno ->]]; cbn [mbind option_bind].
    + left. destruct (use_slot_ok s1 _ (length (tls_slots (process s))) 0 (replicate 8 false) off Hi1) as (s' & E & Hi' & Hal); try done.
      { rewrite Es. by rewrite lookup_app_r, Nat.sub_diag. }
      exists (length (tls_slots (process s))), 0%nat, off, s'. eexists. split; [done|]. split; [done|]. split; [|by right].
      assert (∀ a, tls_in_use (process s1) a ↔ tls_in_use (process s) a) as Hu.
      { intros a. unfold tls_in_use. by setoid_rewrite (slot_used_new_page (process s) (process s1) _ _ Es). }
      destruct Hal as [H1 H2 H3 H4]. split; [done|by rewrite <- Hu| |by rewrite <- Em].
      intros a. rewrite <- Hu. apply H3.
    + right. done.
Qed.

End Physical.
End MemoryProofs.

(** ** Aliases: proofs *)

(** The host memory behind the [k]-th byte of a list of blocks. *)
Fixpoint block_ref (blocks : list (MemoryRef * Z)) (k : Z) : MemoryRef :=
  match blocks with
  | [] => null_ref
  | (m, n) :: blocks => if k <? n then ref_shift m k else block_ref blocks (k - n)
  end.
Definition blocks_total (blocks : list (MemoryRef * Z)) : Z := foldr (λ b n, b.2 + n) 0 blocks.

Lemma blocks_back_ref l a blocks e :
  blocks_back l a blocks e → e = a + blocks_total blocks ∧ 0 <= blocks_total blocks ∧
  ∀ k, 0 <= k < e - a → a_ref <$> attr_at l (a + k) = Some (block_ref blocks k).
Proof.
  revert a. induction blocks as [|[m n] bs IH]; intros a.
  - intros Eq. cbn [blocks_back] in Eq. unfold blocks_total. cbn [foldr]. split_and!; [lia|lia|]. intros k Hk. lia.
  - intros (Hn & Hk & Hb). destruct (IH _ Hb) as (E & Hpos & Href). cbn [blocks_total foldr fst snd block_ref].
    fold (blocks_total bs). split_and!; [simpl; lia|simpl; lia|]. intros k Hin. destruct (Z.ltb_spec k n); [apply Hk; lia|].
    replace (a + k) with (a + n + (k - n)) by lia. apply Href. lia.
Qed.

Section Alias.
Context (known : BackingMem → Prop) (Hsep : blocks_separate known).

Lemma attr_ref_backed l a x :
  tiles known 0 l MAX_ADDRESS → attr_at l a = Some x → a_type x = BackingMemory → backed known (a_ref x) 1.
Proof.
  intros Ht Hx Hty. destruct (decide (0 <= a < MAX_ADDRESS)) as [Ha|Ha]; [|by rewrite (attr_at_outside _ _ _ _ _ Ht Ha) in Hx].
  destruct (tiles_find _ _ _ _ a Ht Ha) as (d & v & r & -> & Hv).
  rewrite (attr_at_of_area known 0 d v r MAX_ADDRESS) in Hx by done. injection Hx as <-.
  destruct (tiles_cons_inv _ _ _ _ _ _ Ht) as (_ & (_ & _ & _ & Hok) & _). unfold attr in *. simpl in *. rewrite Hty in *.
  unfold vma_end in Hv. apply (backed_le known _ (vma_size v - (a - vma_base v))); [lia|]. apply backed_shift; [lia|done].
Qed.

Lemma blocks_backed l a blocks e :
  tiles known 0 l MAX_ADDRESS → blocks_back l a blocks e → range_backed l a (e - a) →
  Forall (λ b, 0 < b.2 ∧ backed known b.1 b.2) blocks.
Proof.
  intros Ht. revert a. induction blocks as [|[m n] bs IH]; intros a Hb Hr; [done|].
  destruct Hb as (Hn & Hk & Hb). destruct (blocks_back_ref _ _ _ _ Hb) as (E & Hpos & _).
  assert (∀ k, 0 <= k < n → backed known (ref_shift m k) 1) as Hone.
  { intros k Hkn. specialize (Hk k Hkn). specialize (Hr (a + k) ltac:(lia)).
    destruct (attr_at l (a + k)) as [x|] eqn:Ex; [|done]. simpl in *. injection Hk as <-. injection Hr as Hty. by eapply attr_ref_backed. }
  constructor; [|eapply IH; [exact Hb|]; intros x Hx; apply Hr; lia]. split; [done|].
  destruct (Hone 0 ltac:(lia)) as [(b & Eb & Hp & Ho & Hs & Hsz) Hkn].
  destruct (Hone (n - 1) ltac:(lia)) as [(b' & Eb' & _ & _ & Hs' & _) _]. simpl in *. simplify_eq.
  split; [|done]. exists b. split_and!; (done || lia).
Qed.

Lemma map_blocks_ok blocks target perms state ms vm :
  Forall (λ b, 0 < b.2 ∧ backed known b.1 b.2) blocks → Forall (λ b, b.2 `mod` CITRA_PAGE_SIZE = 0) blocks →
  vm_inv (page_cached ms) known vm → VMManager.is_locked vm = false → target `mod` CITRA_PAGE_SIZE = 0 → 0 <= target →
  target + blocks_total blocks <= MAX_ADDRESS → range_free (vma_map vm) target (blocks_total blocks) →
  ∃ vm', map_blocks blocks target perms state ms vm = Some vm' ∧ vm_inv (page_cached ms) known vm' ∧
    VMManager.is_locked vm' = false ∧
    added_range (vma_map vm) (vma_map vm') target (blocks_total blocks) (block_ref blocks) state perms.
Proof.
  intros Hg. revert target vm. induction Hg as [|[m n] bs [Hn Hm] Hbs IH]; intros target vm Hal Hinv Hl Hta Ht0 Hmax Hf.
  - exists vm. split_and!; try done; try apply Hinv. split; [intros a Ha; simpl in Ha; lia|intros a _; by left].
  - apply Forall_cons in Hal as [Ha Hal]. cbn [map_blocks]. simpl in Hn, Hm, Ha.
    assert (0 <= blocks_total bs) as Hpos by (clear -Hbs; induction Hbs as [|[] ? [? _] ? IH]; simpl in *; lia).
    change (blocks_total ((m, n) :: bs)) with (n + blocks_total bs) in *.
    destruct (map_protected_ok known Hsep ms vm target m n state perms) as (vm1 & -> & Hinv1 & Hl1 & Hadd1); try done.
    { split_and!; (done || lia). }
    { intros x Hx. apply Hf. lia. }
    cbn [mbind option_bind]. assert (MAX_ADDRESS < 2 ^ 32) by done. rewrite u32_id by lia.
    destruct (IH (target + n) vm1) as (vm' & E & Hinv' & Hl' & Hadd2); try done; try lia.
    { by apply aligned_add. }
    { intros x Hx. eapply reprotected_free; [apply (added_outside _ _ _ _ _ _ _ Hadd1)|apply Hf]; lia. }
    exists vm'. split; [done|]. split; [done|]. split; [done|].
    eapply added_range_ext; [|apply (added_range_app _ _ _ _ _ _ _ _ _ _ Hn Hpos Hadd1 Hadd2)]. done.
Qed.

Section Ranges.
Context {IS : Type} `{IntervalSet IS}.
Implicit Types s : PState IS.

Lemma not_overlapping target source size :
  0 <= target → 0 <= source → 0 < size → target + size <= MAX_ADDRESS → source + size <= MAX_ADDRESS →
  overlaps target source size = false ↔ target + size <= source ∨ source + size <= target.
Proof.
  intros Ht Hs Hn Htm Hsm. assert (MAX_ADDRESS = 0x40000000) by done. unfold overlaps. rewrite orb_false_iff, !Z.ltb_ge.
  destruct (Z.lt_trichotomy source target) as [Hlt|[->|Hgt]].
  - assert (u32 (source - target) = source - target + 2 ^ 32) as -> by (unfold u32; symmetry; apply (Z.mod_unique _ _ (-1)); lia).
    rewrite u32_id by lia. lia.
  - rewrite Z.sub_diag. change (u32 0) with 0. lia.
  - assert (u32 (target - source) = target - source + 2 ^ 32) as -> by (unfold u32; symmetry; apply (Z.mod_unique _ _ (-1)); lia).
    rewrite u32_id by lia. lia.
Qed.

(** The addresses of a range hold private memory for reading and writing, as the heap does. *)
Definition range_private (l : list VirtualMemoryArea) (source size : Z) : Prop :=
  ∀ a, source <= a < source + size →
    ∃ ref, attr_at l a = Some (mkAttr BackingMemory PermReadWrite StatePrivate ref).

Lemma range_private_backed l source size : range_private l source size → range_backed l source size.
Proof. intros Hp x Hx. by destruct (Hp x Hx) as (ref & ->). Qed.

Lemma range_private_matches l source size :
  range_private l source size → range_all (state_matches StatePrivate PermReadWrite) l source size.
Proof. intros Hp x Hx. by destruct (Hp x Hx) as (ref & ->). Qed.

(** The blocks behind a mapped range of whole pages. *)
Lemma page_blocks cached vm source size :
  vm_inv cached known vm → valid_range source size → range_backed (vma_map vm) source size →
  ∃ blocks, GetBackingBlocksForRange vm source size = Some (inr blocks) ∧ blocks_total blocks = size ∧
    Forall (λ b, 0 < b.2 ∧ backed known b.1 b.2) blocks ∧ Forall (λ b, b.2 `mod` CITRA_PAGE_SIZE = 0) blocks ∧
    ∀ k, 0 <= k < size → a_ref <$> attr_at (vma_map vm) (source + k) = Some (block_ref blocks k).
Proof.
  intros Hinv (Hsa & Hza & Hs0 & Hn & Hsm) Hb.
  destruct (GetBackingBlocks_view cached known vm source size Hinv Hs0 ltac:(lia) Hsm) as [Hblk _].
  destruct (Hblk Hb) as (blocks & Eb & Hback). exists blocks. destruct (blocks_back_ref _ _ _ _ Hback) as (Etot & _ & Href).
  destruct Hinv as (Htl & _). split; [done|]. split; [lia|]. split; [|split].
  - apply (blocks_backed _ _ _ _ Htl Hback). by replace (source + size - source) with size by lia.
  - unfold GetBackingBlocksForRange in Eb. assert (MAX_ADDRESS < 2 ^ 32) by done. rewrite u32_id in Eb by lia.
    eapply (backing_blocks_loop_aligned known); [exact Htl| | | | | |exact Eb]; try done; [by apply aligned_add|lia].
  - intros k Hk. apply Href. lia.
Qed.

(** The arguments of a system call that maps heap memory a second time. *)
Record alias_args s (target source size : Z) : Prop := {
  aa_inv : vm_inv (page_cached (memory s)) known (vm_manager (process s));
  aa_unlocked : VMManager.is_locked (vm_manager (process s)) = false;
  aa_target : valid_range target size;
  aa_source : valid_range source size;
  aa_heap : in_heap source size = true;
  aa_disjoint : target + size <= source ∨ source + size <= target;
  aa_private : range_private (vma_map (vm_manager (process s))) source size;
  aa_free : range_free (vma_map (vm_manager (process s))) target size }.

Lemma Map_ok s target source size perms :
  alias_args s target source size →
  ∃ vm', Process_Map target source size perms false s = Some (set_process (set_vm vm' (process s)) s, ResultSuccess) ∧
    vm_inv (page_cached (memory s)) known vm' ∧ VMManager.is_locked vm' = false ∧
    (∀ k ref, 0 <= k < size →
       attr_at (vma_map (vm_manager (process s))) (source + k) = Some (mkAttr BackingMemory PermReadWrite StatePrivate ref) →
       attr_at (vma_map vm') (target + k) = Some (mkAttr BackingMemory perms StateAlias ref) ∧
       attr_at (vma_map vm') (source + k) = Some (mkAttr BackingMemory PermReadWrite StateAliased ref)) ∧
    (∀ a, ~ (target <= a < target + size) → ~ (source <= a < source + size) →
       reprotected StateAlias perms (attr_at (vma_map (vm_manager (process s))) a) (attr_at (vma_map vm') a)).
Proof.
  intros [Hinv Hl Ht Hs Hh Hd Hp Hf]. pose proof Ht as (Hta & _ & Ht0 & Hn & Htm). pose proof Hs as (Hsa & Hza & Hs0 & _ & Hsm).
  unfold Process_Map. rewrite Hh. cbn [negb andb]. rewrite (proj2 (not_overlapping target source size Ht0 Hs0 Hn Htm Hsm)) by done.
  destruct (free_area_check known _ _ target size Hinv Ht0 Hn Htm) as (i & vma & E1 & E2 & Hc).
  rewrite E1. cbn [mbind option_bind]. rewrite E2. cbn [mbind option_bind]. rewrite (proj2 Hc Hf).
  destruct (ChangeMemoryState_view (page_cached (memory s)) known (vm_manager (process s)) source size StatePrivate
              PermReadWrite StateAliased PermReadWrite Hsep Hinv Hl Hs) as [Hyes _].
  destruct Hyes as (vm1 & -> & Hinv1 & Hl1 & Hv1); [by apply range_private_backed|by apply range_private_matches|].
  cbn [mbind option_bind]. change (negb (IsSuccess ResultSuccess)) with false. cbv iota.
  assert (∀ a, source <= a < source + size → ∀ ref,
            attr_at (vma_map (vm_manager (process s))) a = Some (mkAttr BackingMemory PermReadWrite StatePrivate ref) →
            attr_at (vma_map vm1) a = Some (mkAttr BackingMemory PermReadWrite StateAliased ref)) as Hsrc.
  { intros a Ha ref E. rewrite Hv1. unfold changed_view. rewrite (proj2 (in_range_iff _ _ _)) by lia. by rewrite E. }
  assert (∀ a, ~ (source <= a < source + size) → attr_at (vma_map vm1) a = attr_at (vma_map (vm_manager (process s))) a) as Hout.
  { intros a Ha. rewrite Hv1. unfold changed_view. by rewrite (proj2 (in_range_false _ _ _)) by lia. }
  assert (range_backed (vma_map vm1) source size) as Hb1.
  { intros a Ha. destruct (Hp a Ha) as (ref & E). by rewrite (Hsrc a Ha ref E). }
  destruct (page_blocks _ vm1 source size Hinv1 Hs Hb1) as (blocks & -> & Hbt & Hbk & Hal & Href). cbn [mbind option_bind].
  destruct (map_blocks_ok blocks target perms StateAlias (memory s) vm1) as (vm' & -> & Hinv' & Hl' & [Hin Ho]);
    rewrite ?Hbt; try done.
  { intros a Ha. rewrite Hout by lia. apply Hf. lia. }
  cbn [mbind option_bind]. rewrite Hbt in Hin, Ho. exists vm'. split; [done|]. split; [done|]. split; [done|]. split.
  - intros k ref Hk E. pose proof (Hsrc (source + k) ltac:(lia) ref E) as E'. split.
    + rewrite Hin by lia. replace (target + k - target) with k by lia. specialize (Href k Hk). rewrite E' in Href. by injection Href as <-.
    + pose proof (Ho (source + k) ltac:(lia)) as Hre. rewrite E' in Hre. destruct Hre as [->|(z & Ez & _ & _ & Hst & _)]; [done|].
      injection Ez as <-. done.
  - intros a Ha1 Ha2. rewrite <- Hout by done. by apply Ho.
Qed.



End Ranges.
End Alias.

(** ** The system call *)

Section SystemCall.
Context {IS : Type} `{IntervalSetLaws IS}.

(** [ControlMemory] with [MEMOP_PROTECT], page-aligned arguments and valid permissions: the system
    call returns exactly when the range is not empty and ends within the address space.  Any other
    range, which the guest is free to pass, fails an assertion and ends the emulator; only then
    does the call not return. *)
Theorem control_memory_protect_total known (s : PState IS) addr0 addr1 size perms :
  blocks_separate known → vm_inv (page_cached (memory s)) known (vm_manager (process s)) →
  VMManager.is_locked (vm_manager (process s)) = false →
  0 <= addr0 < 2 ^ 32 → 0 <= size < 2 ^ 32 → addr0 `mod` CITRA_PAGE_SIZE = 0 → addr1 `mod` CITRA_PAGE_SIZE = 0 →
  size `mod` CITRA_PAGE_SIZE = 0 → Z.land perms PermReadWrite = perms →
  is_Some (ControlMemory addr0 addr1 size MEMOP_PROTECT perms s) ↔ 0 < size ∧ addr0 + size <= MAX_ADDRESS.
Proof.
  intros Hsep Hinv Hl Ha Hs Ha0 Ha1 Hsa Hp. unfold ControlMemory. cbv zeta.
  destruct (aligned_checks _ _ Ha0 Hsa) as [-> ->]. destruct (aligned_checks _ _ Ha1 Hsa) as [_ ->].
  rewrite Hp, Z.eqb_refl. cbn [negb].
  change (Z.land (Z.land MEMOP_PROTECT (Z.lnot MEMOP_REGION_MASK)) MEMOP_OPERATION_MASK) with MEMOP_PROTECT.
  change (MEMOP_PROTECT =? MEMOP_FREE) with false. change (MEMOP_PROTECT =? MEMOP_COMMIT) with false.
  change (MEMOP_PROTECT =? MEMOP_MAP) with false. change (MEMOP_PROTECT =? MEMOP_UNMAP) with false.
  change (MEMOP_PROTECT =? MEMOP_PROTECT) with true. cbv iota.
  split.
  - unfold ReprotectRange, CarveVMARange. rewrite Hl. cbn [negb assert_ mbind option_bind].
    destruct (aligned_checks _ _ Ha0 Hsa) as [-> ->]. cbn [assert_ mbind option_bind].
    destruct (Z.leb_spec addr0 (u32 (addr0 + size))) as [Hle|]; [|by intros [? ?]]. cbn [assert_ mbind option_bind].
    destruct (Z.leb_spec (u32 (addr0 + size)) MAX_ADDRESS) as [Hmax|]; [|by intros [? ?]]. cbn [assert_ mbind option_bind].
    destruct (Z.ltb_spec 0 size) as [Hpos|]; [|by intros [? ?]]. intros _. split; [done|].
    by rewrite <- (u32_no_wrap addr0 size) by lia.
  - intros [Hpos Hmax]. assert (valid_range addr0 size) as Hv by (split_and!; (done || lia)).
    destruct (ReprotectRange_view (page_cached (memory s)) known (vm_manager (process s)) addr0 size perms Hsep Hinv Hl Hv)
      as [Hyes Hno].
    destruct (decide (Forall (λ x, a_type <$> attr_at (vma_map (vm_manager (process s))) x = Some BackingMemory)
                        (seqZ addr0 size))) as [Hb|Hb].
    + destruct Hyes as (vm' & -> & _); [|by eexists]. intros x Hx. rewrite Forall_forall in Hb. apply Hb, elem_of_seqZ. lia.
    + rewrite Hno; [by eexists|]. intros Hr. apply Hb, Forall_forall. intros x Hx. apply elem_of_seqZ in Hx. apply Hr. lia.
Qed.

End SystemCall.

(** ** A concrete process *)

Module Examples.

Definition only_fcram (b : BackingMem) : Prop := b = Memory.Examples.fcram.

Lemma only_fcram_separate : blocks_separate only_fcram.
Proof. intros b1 b2 -> -> ?. done. Qed.

Definition whole (base size : Z) : MemoryRegionInfo seg_set :=
  mkRegion base size 0 (iset_add (base, base + size) iset_empty) false.

Definition demo_caps : KernelCaps := mkCaps (replicate 0x80 false) 0 [] 0 0x22C.

(** A process of the APPLICATION region with an empty address space, after [MemoryInit] in mode 0. *)
Definition demo : PState seg_set :=
  mkPState
    (mkProcess demo_caps VMManager.Examples.fresh_vm ∅ 0 (Some 0%nat) iset_empty iset_empty []
       (ResourceLimit_Create Application))
    [whole 0 0x4000000; whole 0x4000000 0x2C00000; whole 0x6C00000 0x1400000] Memory.Examples.demo_memory.

Lemma whole_free base size x : 0 < size → iset_elem x (free_blocks (whole base size)) ↔ base <= x < base + size.
Proof.
  intros Hs. unfold whole, free_blocks. rewrite iset_add_spec. unfold in_interval. cbn [fst snd].
  split; [intros [?|Hx]; [done|by apply iset_elem_empty in Hx]|by left].
Qed.

Lemma whole_inv base size : 0 <= base → 0 < size → base + size < 2 ^ 32 → region_inv (whole base size).
Proof.
  intros Hb Hs Hm. split; [simpl; lia| |].
  - intros x Hx. by apply whole_free in Hx.
  - unfold whole. cbn [used region_size free_blocks]. rewrite iset_total_add; [|simpl; lia|].
    + unfold iset_total. rewrite iset_empty_spec. simpl. lia.
    + intros x _ Hx. by apply iset_elem_empty in Hx.
Qed.

Lemma fresh_inv_any cached known : vm_inv cached known VMManager.Examples.fresh_vm.
Proof.
  refine (conj (conj eq_refl (conj _ eq_refl)) (conj (conj I I) _)); [by split_and!|].
  intros p x Hx. cbn [vma_map VMManager.Examples.fresh_vm attr_at] in Hx.
  destruct (in_range (vma_base initial_vma) (vma_end initial_vma) (p * CITRA_PAGE_SIZE)); [|discriminate Hx].
  injection Hx as <-. reflexivity.
Qed.

Lemma whole_paged base size :
  0 < size → base `mod` CITRA_PAGE_SIZE = 0 → size `mod` CITRA_PAGE_SIZE = 0 → paged (λ x, iset_elem x (free_blocks (whole base size))).
Proof.
  intros Hs Hb Hsz. eapply paged_ext; [intros x; symmetry; by apply whole_free|].
  intros x y Hxy. by apply same_page_range.
Qed.

Lemma demo_pinv : pinv only_fcram demo 0 (whole 0 0x4000000).
Proof.
  split; try done.
  - by apply whole_inv.
  - by apply whole_paged.
  - apply fresh_inv_any.
  - intros x Hx. by apply iset_elem_empty in Hx.
  - intros x Hx. apply whole_free in Hx; [|done]. change (GetLinearHeapAreaAddress (process demo)) with NEW_LINEAR_HEAP_VADDR.
    apply (VMManager.Examples.fresh_free (NEW_LINEAR_HEAP_VADDR + x) 1); unfold NEW_LINEAR_HEAP_VADDR, MAX_ADDRESS; lia.
Qed.

Lemma demo_free off n : 0 <= off → off + n <= 0x4000000 → free_range (whole 0 0x4000000) off n.
Proof. intros H1 H2 x Hx. apply whole_free; lia. Qed.


Lemma linear_allocate_witness :
  ∃ a s', Process_LinearAllocate 0 0x2000 PermRead demo = Some (s', inr a) ∧ NEW_LINEAR_HEAP_VADDR <= a.
Proof.
  destruct (linear_allocate_spec only_fcram only_fcram_separate demo 0 (whole 0 0x4000000) 0x2000 PermRead 0)
    as [(off & s' & _ & Hf & _ & E & _)|[Hno _]]; [exact demo_pinv|done|lia|done|lia|lia| |].
  - exists (NEW_LINEAR_HEAP_VADDR + off), s'. split; [exact E|].
    specialize (Hf off ltac:(lia)). apply whole_free in Hf; lia.
  - destruct (Hno 0). apply demo_free; lia.
Defined.

Lemma linear_roundtrip_witness :
  ∃ a s1 s2, Process_LinearAllocate 0 0x2000 PermRead demo = Some (s1, inr a) ∧
             Process_LinearFree a 0x2000 s1 = Some (s2, ResultSuccess) ∧ memory_used (process s2) = 0.
Proof.
  destruct (linear_heap_roundtrip only_fcram only_fcram_separate demo 0 (whole 0 0x4000000) 0x2000 PermRead 0)
    as (a & s1 & s2 & r2 & E1 & E2 & _ & _ & _ & Hm & _);
    [exact demo_pinv|done|lia|done|exists 0; apply demo_free; lia|done|lia|lia|].
  - exists a, s1, s2. split; [exact E1|]. split; [exact E2|exact Hm].
Defined.

Lemma linear_free_witness :
  Process_LinearFree NEW_LINEAR_HEAP_VADDR 0x1000 demo = Some (demo, ResultInvalidAddressState).
Proof.
  apply (linear_free_spec only_fcram only_fcram_separate demo 0 (whole 0 0x4000000) 0 0x1000 0); try done.
  - exact demo_pinv.
  - intros Hb. specialize (Hb NEW_LINEAR_HEAP_VADDR ltac:(split; vm_compute; congruence)). vm_compute in Hb. discriminate Hb.
Defined.


(** A process that owns a page of its region and a page of thread-local storage. *)
Definition held_region (base size : Z) : MemoryRegionInfo seg_set :=
  mkRegion base size 0x1000 (iset_add (base + 0x1000, base + size) iset_empty) false.
Definition page_at (off : Z) : seg_set := iset_add (off, off + 0x1000) iset_empty.
Definition demo_owner : PState seg_set :=
  mkPState
    (mkProcess demo_caps VMManager.Examples.fresh_vm ∅ 0x2000 (Some 0%nat) (page_at 0) (page_at 0x6C00000)
       [replicate 8 true] (ResourceLimit_Create Application))
    [held_region 0 0x4000000; whole 0x4000000 0x2C00000; held_region 0x6C00000 0x1400000] Memory.Examples.demo_memory.

Lemma interval_elem lo hi x : iset_elem x (iset_add (lo, hi) (iset_empty (IS := seg_set))) ↔ lo <= x < hi.
Proof.
  rewrite iset_add_spec. unfold in_interval. cbn [fst snd].
  split; [intros [?|Hx]; [done|by apply iset_elem_empty in Hx]|by left].
Qed.

Lemma held_inv base size : 0 <= base → 0x1000 < size → base + size < 2 ^ 32 → region_inv (held_region base size).
Proof.
  intros Hb Hs Hm. split; [simpl; lia| |].
  - intros x Hx. apply interval_elem in Hx. cbn [region_base region_size held_region]. lia.
  - unfold held_region. cbn [used region_size free_blocks]. rewrite iset_total_add; [|simpl; lia|].
    + unfold iset_total. rewrite iset_empty_spec. simpl. lia.
    + intros x _ Hx. by apply iset_elem_empty in Hx.
Qed.

Lemma demo_owns : owns demo_owner 0.
Proof.
  split; [done|by eexists|by eexists| |done].
  intros [|[|[|j]]] r [= <-]; cbn [MemoryRegion.is_locked held_region whole];
    (split; [by (apply held_inv || apply whole_inv)|split; [done|split; [done|]]]);
    intros x [[? Hx]|[? Hx]]; try done; apply interval_elem in Hx;
    (split; [cbn [region_base region_size held_region]; lia|]); intros Hf; apply interval_elem in Hf; lia.
Qed.

Lemma free_all_memory_witness :
  ∃ s', FreeAllMemory demo_owner = Some s' ∧ memory_used (process s') = 0.
Proof.
  destruct (free_all_memory_spec demo_owner 0 0) as (s' & E & _ & _ & _ & Hm & _); try done.
  - exact demo_owns.
  - exists s'. split; [exact E|]. rewrite Hm. reflexivity.
Defined.

Lemma demo_tls : tls_inv only_fcram demo (whole 0x6C00000 0x1400000).
Proof.
  split; try done.
  - by apply whole_inv.
  - apply fresh_inv_any.
  - intros k Hk. destruct (tls_page_bounds k ltac:(lia)) as (H1 & H2 & _). apply VMManager.Examples.fresh_free; [done|].
    assert (0x20000000 <= MAX_ADDRESS) by done. lia.
  - intros x Hx. by apply iset_elem_empty in Hx.
Qed.

Lemma tls_allocate_witness :
  ∃ s' a, AllocateThreadLocalStorage Memory.Examples.no_cache demo = Some (s', inr a).
Proof.
  destruct (tls_allocate_spec only_fcram only_fcram_separate Memory.Examples.no_cache ltac:(done) demo
              (whole 0x6C00000 0x1400000)) as [(k & i & off & s' & b' & E & _)|(_ & Hno & _)].
  - exact demo_tls.
  - vm_compute. lia.
  - exists s', (tls_slot_address k i). exact E.
  - destruct (Hno 0x6C00000). intros x Hx. apply whole_free; [lia|]. unfold CITRA_PAGE_SIZE in Hx. lia.
Defined.

Lemma control_memory_protect_witness :
  ~ is_Some (ControlMemory 0x8000000 0 0 MEMOP_PROTECT PermRead demo) ∧
  is_Some (ControlMemory 0x8000000 0 0x1000 MEMOP_PROTECT PermRead demo).
Proof.
  split.
  - intros Hs. apply (control_memory_protect_total only_fcram demo 0x8000000 0 0 PermRead) in Hs as [? _]; try done.
    + exact only_fcram_separate.
    + apply fresh_inv_any.
  - apply (control_memory_protect_total only_fcram demo 0x8000000 0 0x1000 PermRead); try done.
    + exact only_fcram_separate.
    + apply fresh_inv_any.
Defined.

(** The demo process with three pages of heap. *)
Definition heap_vm : VMManager :=
  match map_protected Memory.Examples.demo_memory VMManager.Examples.fresh_vm HEAP_VADDR
          (mkRef (Some Memory.Examples.fcram) 0x3FFD000) 0x3000 StatePrivate PermReadWrite with
  | Some vm => vm
  | None => VMManager.Examples.fresh_vm
  end.
Definition demo_heap : PState seg_set := set_process (set_vm heap_vm (process demo)) demo.

Lemma demo_alias : alias_args only_fcram demo_heap 0x4000000 HEAP_VADDR 0x2000.
Proof.
  destruct (map_protected_ok only_fcram only_fcram_separate Memory.Examples.demo_memory VMManager.Examples.fresh_vm HEAP_VADDR
              (mkRef (Some Memory.Examples.fcram) 0x3FFD000) 0x3000 StatePrivate PermReadWrite)
    as (vm & E & Hinv & Hl & [Hin Ho]).
  - apply fresh_inv_any.
  - done.
  - by split_and!.
  - split; exists Memory.Examples.fcram; split_and!; done.
  - by apply VMManager.Examples.fresh_free.
  - unfold demo_heap, heap_vm. rewrite E. split; cbn [process set_process vm_manager set_vm memory]; try done.
    + left. done.
    + intros a Ha. eexists. apply Hin. lia.
    + intros a Ha. eapply reprotected_free; [apply Ho; unfold HEAP_VADDR; lia|].
      apply (VMManager.Examples.fresh_free a 1); unfold MAX_ADDRESS; lia.
Qed.


(** The permissions at an address. *)
Definition perms_at (s : PState seg_set) (a : Z) : option Z :=
  a_perms <$> attr_at (vma_map (vm_manager (process s))) a.

(** Two allocations, and the permissions of the first page after each of them. *)
Definition two_allocations (s : PState seg_set) : option (Z * Z * option Z * option Z) :=
  '(s1, r1) ← Process_LinearAllocate 0 0x1000 PermReadWrite s;
  '(s2, r2) ← Process_LinearAllocate 0 0x1000 PermRead s1;
  match r1, r2 with
  | inr a1, inr a2 => Some (a1, a2, perms_at s1 a1, perms_at s2 a1)
  | _, _ => None
  end.

Lemma two_allocations_demo :
  two_allocations demo = Some (0x30000000, 0x30001000, Some PermReadWrite, Some PermRead).
Proof. vm_compute. reflexivity. Qed.

Lemma two_allocations_inv s a1 a2 p1 p2 :
  two_allocations s = Some (a1, a2, p1, p2) →
  ∃ s1 s2, Process_LinearAllocate 0 0x1000 PermReadWrite s = Some (s1, inr a1) ∧
    Process_LinearAllocate 0 0x1000 PermRead s1 = Some (s2, inr a2) ∧ perms_at s1 a1 = p1 ∧ perms_at s2 a1 = p2.
Proof.
  intros E. unfold two_allocations in E.
  destruct (Process_LinearAllocate 0 0x1000 PermReadWrite s) as [[s1 r1]|]; cbn [mbind option_bind] in E; [|discriminate E].
  destruct (Process_LinearAllocate 0 0x1000 PermRead s1) as [[s2 r2]|] eqn:E2; cbn [mbind option_bind] in E; [|discriminate E].
  destruct r1 as [|a1'], r2 as [|a2']; try discriminate E. injection E as -> -> Hp1 Hp2. by exists s1, s2.
Qed.

(** An allocation changes the protection of its neighbour.  [MapBackingMemory] returns the area
    after it was merged with its neighbours, and [Reprotect] then changes all of it: after a second,
    read-only linear allocation the page of the first one, allocated for reading and writing, can
    no longer be written. *)
Theorem linear_allocate_protects_neighbour :
  ∃ s1 s2, Process_LinearAllocate 0 0x1000 PermReadWrite demo = Some (s1, inr 0x30000000) ∧
    Process_LinearAllocate 0 0x1000 PermRead s1 = Some (s2, inr 0x30001000) ∧
    perms_at s1 0x30000000 = Some PermReadWrite ∧ perms_at s2 0x30000000 = Some PermRead.
Proof. exact (two_allocations_inv _ _ _ _ _ two_allocations_demo). Qed.

End Examples.
