(* ===== verification/SharedMemory.v ===== *)
(** * Shared memory blocks
    ([src/src/core/hle/kernel/shared_memory.h], [shared_memory.cpp]; the system calls on blocks of
    [svc.cpp])

    A block is a piece of host memory that several processes map.  It is either taken from the linear
    heap of a region when it is created ([base_address] is 0), or it is heap memory that its owner has
    already mapped.  The state holds all the processes, so that what one process maps can be compared
    with what another one sees.

    The theorems: the exact conditions under which [Map] succeeds and what it changes; what is written
    through the address space of one process is read through that of another; creating a block and
    destroying it again gives everything back; and where a failed creation and a size of 0 go wrong. *)

From S2P Require Import Prelude BitField HandleTable IntervalSet MemoryRegion PageTable Memory VMManager.
From S2P Require Import ResourceLimit Process.

(** ** State *)

(** [MemoryPermission] is a bit mask. *)
Definition MP_None : Z := 0.
Definition MP_Read : Z := Z.shiftl 1 0.
Definition MP_Write : Z := Z.shiftl 1 1.
Definition MP_ReadWrite : Z := Z.lor MP_Read MP_Write.
Definition MP_Execute : Z := Z.shiftl 1 2.
Definition MP_ReadExecute : Z := Z.lor MP_Read MP_Execute.
Definition MP_WriteExecute : Z := Z.lor MP_Write MP_Execute.
Definition MP_ReadWriteExecute : Z := Z.lor (Z.lor MP_Read MP_Write) MP_Execute.
Definition MP_DontCare : Z := Z.shiftl 1 28.

(** [owner_process] is a weak pointer: an id, which may be that of a process that is gone. *)
Record SharedMemory (IS : Type) := mkShared {
  linear_heap_phys_offset : Z;
  backing_blocks : list (MemoryRef * Z);
  sm_size : Z;
  sm_region : option nat;
  sm_permissions : Z;
  sm_other_permissions : Z;
  owner_process : option Z;
  base_address : Z;
  sm_holding : IS }.
Arguments mkShared {IS} _ _ _ _ _ _ _ _ _.
Arguments linear_heap_phys_offset {IS} _.
Arguments backing_blocks {IS} _.
Arguments sm_size {IS} _.
Arguments sm_region {IS} _.
Arguments sm_permissions {IS} _.
Arguments sm_other_permissions {IS} _.
Arguments owner_process {IS} _.
Arguments base_address {IS} _.
Arguments sm_holding {IS} _.

(** The kernel as far as shared memory is concerned: the processes and their handle tables by
    process id, the blocks by object id, the physical memory. *)
Record KState (IS : Type) := mkKState {
  processes : gmap Z (Process IS);
  handle_tables : gmap Z (HandleTable Z);
  memory_blocks : gmap Z (SharedMemory IS);
  next_object_id : Z;
  k_regions : list (MemoryRegionInfo IS);
  k_memory : MemorySystem }.
Arguments mkKState {IS} _ _ _ _ _ _.
Arguments processes {IS} _.
Arguments handle_tables {IS} _.
Arguments memory_blocks {IS} _.
Arguments next_object_id {IS} _.
Arguments k_regions {IS} _.
Arguments k_memory {IS} _.

(** [GetMemoryRegion]: the index of a region in [memory_regions]. *)
Definition MR_APPLICATION : Z := 1.
Definition MR_SYSTEM : Z := 2.
Definition MR_BASE : Z := 3.
Definition GetMemoryRegion (region : Z) : option nat :=
  if region =? MR_APPLICATION then Some 0%nat
  else if region =? MR_SYSTEM then Some 1%nat
  else if region =? MR_BASE then Some 2%nat
  else None.

Definition ConvertPermissions (permission : Z) : Z := Z.land permission MP_ReadWriteExecute.

Section Operations.
Context {IS : Type} `{IntervalSet IS}.
Implicit Types (s : KState IS) (sm : SharedMemory IS).

Definition put_process (pid : Z) (p : Process IS) s : KState IS :=
  mkKState (<[pid := p]> (processes s)) (handle_tables s) (memory_blocks s) (next_object_id s) (k_regions s) (k_memory s).
Definition put_table (pid : Z) (t : HandleTable Z) s : KState IS :=
  mkKState (processes s) (<[pid := t]> (handle_tables s)) (memory_blocks s) (next_object_id s) (k_regions s) (k_memory s).
Definition put_block (id : Z) sm s : KState IS :=
  mkKState (processes s) (handle_tables s) (<[id := sm]> (memory_blocks s)) (next_object_id s) (k_regions s) (k_memory s).
Definition put_region (i : nat) (r : MemoryRegionInfo IS) s : KState IS :=
  mkKState (processes s) (handle_tables s) (memory_blocks s) (next_object_id s) (<[i := r]> (k_regions s)) (k_memory s).
Definition put_memory (ms : MemorySystem) s : KState IS :=
  mkKState (processes s) (handle_tables s) (memory_blocks s) (next_object_id s) (k_regions s) ms.
Definition GenerateObjectID s : Z * KState IS :=
  (next_object_id s,
   mkKState (processes s) (handle_tables s) (memory_blocks s) (u32 (next_object_id s + 1)) (k_regions s) (k_memory s)).

(** [owner_process.lock()]. *)
Definition lock_owner sm s : option (Z * Process IS) :=
  pid ← owner_process sm; p ← processes s !! pid; Some (pid, p).

(** ** Creation and destruction *)

(** The intervals of [holding_memory] go back to the region. *)
Definition free_holding sm s : option (KState IS) :=
  match iset_segments (sm_holding sm) with
  | [] => Some s
  | segments =>
      ri ← sm_region sm;
      r ← k_regions s !! ri;
      r ← free_segments segments r;
      Some (put_region ri r s)
  end.

(** The destructor; the result code of [ChangeMemoryState] is dropped. *)
Definition SharedMemory_destroy sm s : option (KState IS) :=
  s ← free_holding sm s;
  match lock_owner sm s with
  | None => Some s
  | Some (pid, p) =>
      '(limit, _) ← Release RL_SharedMemory 1 (resource_limit p);
      let p := set_limit limit p in
      if negb (base_address sm =? 0) then
        '(vm, _) ← ChangeMemoryState (page_cached (k_memory s)) (vm_manager p) (base_address sm) (sm_size sm)
                     StateLocked PermNone StatePrivate PermReadWrite;
        Some (put_process pid (set_vm vm p) s)
      else Some (put_process pid (set_memory_used (memory_used p - sm_size sm) p) s)
  end.

(** The branch of [CreateSharedMemory] that allocates from the linear heap. *)
Definition create_linear (owner : option Z) (size permissions other_permissions : Z) (ri : nat) s
  : option (KState IS * ResultVal (SharedMemory IS)) :=
  r ← k_regions s !! ri;
  '(offset, r) ← LinearAllocate size r;
  offset ← offset;
  ms ← clear_fcram offset (u32 (offset + size)) (k_memory s);
  ref ← GetFCRAMRef offset ms;
  let s := put_memory ms (put_region ri r s) in
  s ← (match owner with
       | None => Some s
       | Some pid => p ← processes s !! pid;
                     Some (put_process pid (set_memory_used (memory_used p + size) p) s)
       end);
  Some (s, inr (mkShared offset [(ref, size)] size (Some ri) permissions other_permissions owner 0
                  (iset_add (offset, u32 (offset + size)) iset_empty))).

(** The branch for memory that the owner has mapped: [R_TRY] destroys the new block. *)
Definition create_mapped (owner : option Z) (size permissions other_permissions address : Z) (ri : nat) s
  : option (KState IS * ResultVal (SharedMemory IS)) :=
  pid ← owner;
  p ← processes s !! pid;
  '(vm, result) ← ChangeMemoryState (page_cached (k_memory s)) (vm_manager p) address size StatePrivate PermReadWrite
                    StateLocked (ConvertPermissions permissions);
  let s := put_process pid (set_vm vm p) s in
  let block := mkShared 0 [] size (Some ri) permissions other_permissions owner 0 iset_empty in
  if negb (IsSuccess result) then s ← SharedMemory_destroy block s; Some (s, inl result)
  else
    blocks ← GetBackingBlocksForRange vm address size;
    match blocks with
    | inl _ => None
    | inr blocks =>
        Some (s, inr (mkShared 0 blocks size (Some ri) permissions other_permissions owner address iset_empty))
    end.

Definition CreateSharedMemory (owner : option Z) (size permissions other_permissions address : Z) (ri : nat) s
  : option (KState IS * ResultVal (SharedMemory IS)) :=
  if address =? 0 then create_linear owner size permissions other_permissions ri s
  else create_mapped owner size permissions other_permissions address ri s.

(** The loop of [CreateSharedMemoryForApplet]. *)
Fixpoint applet_blocks (segments : list interval) (ms : MemorySystem) : option (list (MemoryRef * Z) * MemorySystem) :=
  match segments with
  | [] => Some ([], ms)
  | (lower, upper) :: segments =>
      ref ← GetFCRAMRef lower ms;
      ms ← clear_fcram lower upper ms;
      '(blocks, ms) ← applet_blocks segments ms;
      Some ((ref, u32 (upper - lower)) :: blocks, ms)
  end.

Definition CreateSharedMemoryForApplet (offset size permissions other_permissions : Z) s
  : option (KState IS * SharedMemory IS) :=
  ri ← GetMemoryRegion MR_SYSTEM;
  r ← k_regions s !! ri;
  '(allocated, r) ← HeapAllocate size r;
  match iset_segments allocated with
  | [] => None
  | segments =>
      '(blocks, ms) ← applet_blocks segments (k_memory s);
      Some (put_memory ms (put_region ri r s),
            mkShared 0 blocks size (Some ri) permissions other_permissions None (u32 (HEAP_VADDR + offset)) allocated)
  end.

(** ** Mapping *)

(** [a & ~b] on [u32]. *)
Definition and_not (a b : Z) : Z := Z.land a (u32 (Z.lnot b)).

(** The tests of [Map] on the permissions; [is_owner] is the comparison with the owner. *)
Definition map_permissions (is_owner : bool) sm (permissions other_permissions : Z) : Z :=
  let own_other_permissions := if is_owner then sm_permissions sm else sm_other_permissions sm in
  if (base_address sm =? 0) && negb (other_permissions =? MP_DontCare) then ResultInvalidCombination
  else if negb (and_not permissions own_other_permissions =? 0) then ResultInvalidCombination
  else if negb (base_address sm =? 0) && (other_permissions =? MP_DontCare) then ResultInvalidCombination
  else if negb (other_permissions =? MP_DontCare) && negb (and_not (sm_permissions sm) other_permissions =? 0)
  then ResultWrongPermission
  else ResultSuccess.

Definition target_of sm (address : Z) : Z :=
  if (base_address sm =? 0) && (address =? 0) then u32 (linear_heap_phys_offset sm + LINEAR_HEAP_VADDR) else address.

Definition SharedMemory_Map sm (pid address permissions other_permissions : Z) s : option (KState IS * Z) :=
  let is_owner := bool_decide (fst <$> lock_owner sm s = Some pid) in
  let checked := map_permissions is_owner sm permissions other_permissions in
  if negb (IsSuccess checked) then Some (s, checked)
  else if negb (address =? 0) && ((address <? HEAP_VADDR) || (SHARED_MEMORY_VADDR_END <=? u32 (address + sm_size sm)))
  then Some (s, ResultInvalidAddress)
  else
    let target_address := target_of sm address in
    p ← processes s !! pid;
    i ← FindVMA (vma_map (vm_manager p)) target_address;
    vma ← vma_map (vm_manager p) !! i;
    if negb (bool_decide (vma_type vma = VMManager.Free)) ||
       (u32 (vma_base vma + vma_size vma) <? u32 (target_address + sm_size sm))
    then Some (s, ResultInvalidAddressState)
    else
      vm ← map_blocks (backing_blocks sm) target_address (ConvertPermissions permissions) StateShared (k_memory s) (vm_manager p);
      Some (put_process pid (set_vm vm p) s, ResultSuccess).

Definition SharedMemory_Unmap sm (pid address : Z) s : option (KState IS * Z) :=
  p ← processes s !! pid;
  '(vm, result) ← UnmapRange (page_cached (k_memory s)) (vm_manager p) address (sm_size sm);
  Some (put_process pid (set_vm vm p) s, result).

(** [GetPointer]: only a warning when there are several blocks; [u8*] arithmetic on the first one. *)
Definition SharedMemory_GetPointer sm (offset : Z) : option Z :=
  '(ref, _) ← backing_blocks sm !! 0%nat; Some (GetPtr ref + offset).

(** ** The system calls *)

(** [handle_table.Get<SharedMemory>]: the pseudo handles stand for a thread and a process, which are
    not blocks. *)
Definition Get_block (pid handle : Z) s : option (option (SharedMemory IS)) :=
  t ← handle_tables s !! pid;
  Some (GetGeneric None None handle t ≫= λ id, memory_blocks s !! id).

Definition VerifyPermissions (permission : Z) : bool :=
  (permission =? MP_None) || (permission =? MP_Read) || (permission =? MP_Write) || (permission =? MP_ReadWrite) ||
  (permission =? MP_DontCare).

Definition ResultOutOfSharedMems : Z := mkResult 11 ErrorModule_OS ErrorSummary_OutOfResource ErrorLevel_Status.

(** The region a block of the process comes from. *)
Definition block_region (addr : Z) (p : Process IS) : option nat :=
  GetMemoryRegion (if (addr =? 0) && negb (ExtractValue 16 6 1 (flags_raw (caps p)) =? 0)
                   then ExtractValue 16 8 4 (flags_raw (caps p)) else MR_BASE).

(** [SVC::CreateMemoryBlock]: the new state and the result, or the handle.  A block that gets no
    handle is destroyed with the last pointer to it. *)
Definition CreateMemoryBlock (pid addr size my_permission other_permission : Z) s : option (KState IS * ResultVal Z) :=
  if negb (size mod CITRA_PAGE_SIZE =? 0) then Some (s, inl ResultMisalignedSize)
  else if negb (VerifyPermissions my_permission) then Some (s, inl ResultInvalidCombination)
  else if negb (VerifyPermissions other_permission) then Some (s, inl ResultInvalidCombination)
  else if ((addr <? PROCESS_IMAGE_VADDR) || (SHARED_MEMORY_VADDR_END <? u32 (addr + size))) && negb (addr =? 0)
  then Some (s, inl ResultInvalidAddress)
  else
    p ← processes s !! pid;
    '(limit, reserved) ← Reserve RL_SharedMemory 1 (resource_limit p);
    let s := put_process pid (set_limit limit p) s in
    if negb reserved then Some (s, inl ResultOutOfSharedMems)
    else
      ri ← block_region addr p;
      let '(id, s) := GenerateObjectID s in
      '(s, created) ← CreateSharedMemory (Some pid) size my_permission other_permission addr ri s;
      match created with
      | inl result => Some (s, inl result)
      | inr shared_memory =>
          t ← handle_tables s !! pid;
          '(handle, t) ← Create (Some id) t;
          match handle with
          | inl result => s ← SharedMemory_destroy shared_memory s; Some (s, inl result)
          | inr handle => Some (put_block id shared_memory (put_table pid t s), inr handle)
          end
      end.

Definition map_switch (permissions : Z) : bool :=
  (permissions =? MP_Read) || (permissions =? MP_Write) || (permissions =? MP_ReadWrite) || (permissions =? MP_Execute) ||
  (permissions =? MP_ReadExecute) || (permissions =? MP_WriteExecute) || (permissions =? MP_ReadWriteExecute) ||
  (permissions =? MP_DontCare).

Definition MapMemoryBlock (pid handle addr permissions other_permissions : Z) s : option (KState IS * Z) :=
  shared_memory ← Get_block pid handle s;
  match shared_memory with
  | None => Some (s, ResultInvalidHandle)
  | Some sm => if map_switch permissions then SharedMemory_Map sm pid addr permissions other_permissions s
               else Some (s, ResultInvalidCombination)
  end.

Definition UnmapMemoryBlock (pid handle addr : Z) s : option (KState IS * Z) :=
  shared_memory ← Get_block pid handle s;
  match shared_memory with
  | None => Some (s, ResultInvalidHandle)
  | Some sm => SharedMemory_Unmap sm pid addr s
  end.

End Operations.

(** ** Permissions *)

(** Every permission of [a] is one of [b]. *)
Definition perm_le (a b : Z) : Prop := ∀ i, 0 <= i → Z.testbit a i = true → Z.testbit b i = true.

Lemma and_not_spec a b : 0 <= a < 2 ^ 32 → 0 <= b → and_not a b = 0 ↔ perm_le a b.
Proof.
  intros Ha Hb. unfold and_not, u32. rewrite <- Z.land_ones by lia. split.
  - intros E i Hi Hai. destruct (Z.testbit b i) eqn:Ebi; [done|].
    assert (Z.testbit (Z.land a (Z.land (Z.lnot b) (Z.ones 32))) i = false) as E' by (rewrite E; apply Z.bits_0).
    rewrite !Z.land_spec, Hai, Z.lnot_spec, Ebi, Z.testbit_ones_nonneg in E' by lia. simpl in E'.
    apply Z.ltb_ge in E'. destruct (Z.eq_dec a 0) as [->|]; [by rewrite Z.bits_0 in Hai|].
    rewrite (Z.bits_above_log2 a i) in Hai; [done|lia|]. apply Z.log2_lt_pow2; [lia|].
    assert (2 ^ 32 <= 2 ^ i) by (apply Z.pow_le_mono_r; lia). lia.
  - intros Hle. apply Z.bits_inj'. intros i Hi. rewrite !Z.land_spec, Z.lnot_spec, Z.bits_0 by done.
    destruct (Z.testbit a i) eqn:Eai; [|done]. by rewrite (Hle i Hi Eai).
Qed.

(** What may be mapped how.  The permissions asked for are among those the creator granted to the
    process, and the block is either an automatically allocated one, for which the other permissions
    are left open, or one of the creator's own memory, for which they include the creator's. *)
Definition may_map {IS} (sm : SharedMemory IS) (is_owner : bool) (permissions other_permissions : Z) : Prop :=
  perm_le permissions (if is_owner then sm_permissions sm else sm_other_permissions sm) ∧
  (base_address sm = 0 ∧ other_permissions = MP_DontCare ∨
   base_address sm ≠ 0 ∧ other_permissions ≠ MP_DontCare ∧ perm_le (sm_permissions sm) other_permissions).

Lemma map_permissions_spec {IS} (sm : SharedMemory IS) is_owner permissions other_permissions :
  0 <= permissions < 2 ^ 32 → 0 <= other_permissions < 2 ^ 32 →
  0 <= sm_permissions sm < 2 ^ 32 → 0 <= sm_other_permissions sm →
  (IsSuccess (map_permissions is_owner sm permissions other_permissions) = true ↔ may_map sm is_owner permissions other_permissions).
Proof.
  intros Hp Ho Hs1 Hs2. unfold map_permissions, may_map. set (own := if is_owner then _ else _).
  assert (0 <= own) as Hown by (unfold own; destruct is_owner; lia).
  pose proof (and_not_spec permissions own Hp Hown) as H1.
  pose proof (and_not_spec (sm_permissions sm) other_permissions Hs1 ltac:(lia)) as H2.
  assert (IsSuccess ResultInvalidCombination = false ∧ IsSuccess ResultWrongPermission = false ∧ IsSuccess ResultSuccess = true)
    as (E1 & E2 & E3) by (vm_compute; done).
  destruct (Z.eqb_spec (base_address sm) 0), (Z.eqb_spec other_permissions MP_DontCare),
    (Z.eqb_spec (and_not permissions own) 0), (Z.eqb_spec (and_not (sm_permissions sm) other_permissions) 0);
    cbn [andb negb]; rewrite ?E1, ?E2, ?E3; clear E1 E2 E3; intuition (discriminate || congruence).
Qed.

(** ** Blocks and processes *)

Section Shared.
Context (known : BackingMem → Prop) (Hsep : blocks_separate known).
Context {IS : Type} `{IntervalSetLaws IS}.
Implicit Types (s : KState IS) (sm : SharedMemory IS).

(** Every address space is well formed, and FCRAM is there. *)
Record sinv s : Prop := {
  si_vm : ∀ pid p, processes s !! pid = Some p →
    vm_inv (page_cached (k_memory s)) known (vm_manager p) ∧ VMManager.is_locked (vm_manager p) = false ∧
    limit_wf (resource_limit p);
  si_fcram : bm_size (fcram_mem (k_memory s)) = FCRAM_N3DS_SIZE;
  si_fcram_ptr : 0 < bm_ptr (fcram_mem (k_memory s));
  si_known : known (fcram_mem (k_memory s)) }.

(** A block consists of whole pages of host memory. *)
Record block_ok sm : Prop := {
  bo_size : 0 < sm_size sm < 2 ^ 31;
  bo_total : blocks_total (backing_blocks sm) = sm_size sm;
  bo_backed : Forall (λ b, 0 < b.2 ∧ backed known b.1 b.2) (backing_blocks sm);
  bo_pages : Forall (λ b, b.2 `mod` CITRA_PAGE_SIZE = 0) (backing_blocks sm);
  bo_permissions : 0 <= sm_permissions sm < 2 ^ 32;
  bo_other : 0 <= sm_other_permissions sm < 2 ^ 32 }.

Lemma sinv_put s pid p :
  sinv s → vm_inv (page_cached (k_memory s)) known (vm_manager p) → VMManager.is_locked (vm_manager p) = false →
  limit_wf (resource_limit p) → sinv (put_process pid p s).
Proof.
  intros Hi Hvm Hl Hw. destruct Hi as [Hv Hf Hfp Hk]. split; simpl; try done.
  intros pid' p'. rewrite lookup_insert_Some. intros [[_ <-]|[_ E]]; [done|by eapply Hv].
Qed.

(** Where [Map] lets a block begin. *)
Definition address_ok sm (address : Z) : Prop :=
  address = 0 ∨ HEAP_VADDR <= address ∧ address + sm_size sm < SHARED_MEMORY_VADDR_END.

Definition is_owner sm s (pid : Z) : bool := bool_decide (fst <$> lock_owner sm s = Some pid).

Lemma Map_decides sm pid p address permissions other_permissions s :
  sinv s → block_ok sm → processes s !! pid = Some p → 0 <= permissions < 2 ^ 32 → 0 <= other_permissions < 2 ^ 32 →
  0 <= address → valid_range (target_of sm address) (sm_size sm) →
  (may_map sm (is_owner sm s pid) permissions other_permissions ∧ address_ok sm address ∧
   range_free (vma_map (vm_manager p)) (target_of sm address) (sm_size sm) ∧
   ∃ vm', SharedMemory_Map sm pid address permissions other_permissions s =
            Some (put_process pid (set_vm vm' p) s, ResultSuccess) ∧
     vm_inv (page_cached (k_memory s)) known vm' ∧ VMManager.is_locked vm' = false ∧
     added_range (vma_map (vm_manager p)) (vma_map vm') (target_of sm address) (sm_size sm)
       (block_ref (backing_blocks sm)) StateShared (ConvertPermissions permissions)) ∨
  (~ (may_map sm (is_owner sm s pid) permissions other_permissions ∧ address_ok sm address ∧
      range_free (vma_map (vm_manager p)) (target_of sm address) (sm_size sm)) ∧
   ∃ e, SharedMemory_Map sm pid address permissions other_permissions s = Some (s, e) ∧ IsSuccess e = false).
Proof.
  intros Hi Hb Hp Hp1 Hp2 Ha Hr. unfold SharedMemory_Map. fold (is_owner sm s pid).
  pose proof (map_permissions_spec sm (is_owner sm s pid) permissions other_permissions Hp1 Hp2 (bo_permissions _ Hb)
                ltac:(apply (bo_other _ Hb))) as Hperm.
  destruct (IsSuccess (map_permissions _ _ _ _)) eqn:E1; cbn [negb].
  2:{ right. split; [intros (Hm & _); by apply Hperm in Hm|]. eauto. }
  pose proof Hr as (Hta & Hsa & Ht0 & Hn & Htm). assert (MAX_ADDRESS < 2 ^ 32) by done.
  assert (SHARED_MEMORY_VADDR_END < 2 ^ 31 ∧ 0 < HEAP_VADDR) as [HE HH] by done.
  set (bad := negb (address =? 0) && _).
  assert (bad = false ↔ address_ok sm address) as Hbad.
  { unfold bad, address_ok. destruct (Z.eqb_spec address 0) as [->|Hne]; cbn [negb andb]; [naive_solver|].
    unfold target_of in *. rewrite (proj2 (Z.eqb_neq address 0)), andb_false_r in * by done.
    rewrite u32_id by lia. rewrite orb_false_iff, Z.ltb_ge, Z.leb_gt. naive_solver lia. }
  destruct bad.
  { right. split; [intros (_ & Hok & _); by apply Hbad in Hok|]. eauto. }
  rewrite Hp. cbn [mbind option_bind]. destruct (si_vm _ Hi pid p Hp) as (Hvm & Hl & _).
  destruct (free_area_check known _ _ (target_of sm address) (sm_size sm) Hvm Ht0 Hn Htm) as (i & vma & -> & E2 & Hc).
  cbn [mbind option_bind]. rewrite E2. cbn [mbind option_bind].
  destruct (negb _ || _).
  { right. split; [intros (_ & _ & Hf); by apply Hc in Hf|]. eauto. }
  left. split; [by apply Hperm|]. split; [by apply Hbad|]. pose proof (proj1 Hc eq_refl) as Hf. split; [done|].
  destruct (map_blocks_ok known Hsep (backing_blocks sm) (target_of sm address) (ConvertPermissions permissions) StateShared
              (k_memory s) (vm_manager p)) as (vm' & -> & Hvm' & Hl' & Hadd); rewrite ?(bo_total _ Hb); try done; try apply Hb.
  cbn [mbind option_bind]. exists vm'. rewrite (bo_total _ Hb) in Hadd. eauto.
Qed.

(** A call of [Map] that succeeds. *)
Record map_args sm s (pid address permissions other_permissions : Z) (p : Process IS) : Prop := {
  ma_process : processes s !! pid = Some p;
  ma_perms : 0 <= permissions < 2 ^ 32 ∧ 0 <= other_permissions < 2 ^ 32;
  ma_may : may_map sm (is_owner sm s pid) permissions other_permissions;
  ma_nonneg : 0 <= address;
  ma_address : address_ok sm address;
  ma_range : valid_range (target_of sm address) (sm_size sm);
  ma_free : range_free (vma_map (vm_manager p)) (target_of sm address) (sm_size sm) }.

Lemma Map_ok_args sm s pid address permissions other_permissions p :
  sinv s → block_ok sm → map_args sm s pid address permissions other_permissions p →
  ∃ vm', SharedMemory_Map sm pid address permissions other_permissions s =
           Some (put_process pid (set_vm vm' p) s, ResultSuccess) ∧
    sinv (put_process pid (set_vm vm' p) s) ∧
    added_range (vma_map (vm_manager p)) (vma_map vm') (target_of sm address) (sm_size sm)
      (block_ref (backing_blocks sm)) StateShared (ConvertPermissions permissions).
Proof.
  intros Hi Hb [Hp [Hp1 Hp2] Hm Hnn Ha Hr Hf].
  destruct (Map_decides sm pid p address permissions other_permissions s Hi Hb Hp Hp1 Hp2 Hnn Hr)
    as [(_ & _ & _ & vm' & E & Hvm & Hl & Hadd)|[Hno _]]; [|naive_solver].
  exists vm'. split; [done|]. split; [|done]. apply sinv_put; try done. apply (si_vm _ Hi pid p Hp).
Qed.

Lemma map_unmap_block sm s pid address permissions other_permissions p :
  sinv s → block_ok sm → map_args sm s pid address permissions other_permissions p →
  ∃ s1 vm2, SharedMemory_Map sm pid address permissions other_permissions s = Some (s1, ResultSuccess) ∧
    SharedMemory_Unmap sm pid (target_of sm address) s1 = Some (put_process pid (set_vm vm2 p) s, ResultSuccess) ∧
    sinv (put_process pid (set_vm vm2 p) s) ∧
    ∀ a, reprotected StateShared (ConvertPermissions permissions) (attr_at (vma_map (vm_manager p)) a) (attr_at (vma_map vm2) a).
Proof.
  intros Hi Hb Hm. destruct (Map_ok_args sm s pid address permissions other_permissions p Hi Hb Hm) as (vm1 & E & Hi1 & [Hin Ho]).
  eexists. unfold SharedMemory_Unmap. pose proof (lookup_insert_eq (processes s) pid (set_vm vm1 p)) as Ep.
  destruct (si_vm _ Hi1 pid _ Ep) as (Hvm1 & Hl1 & Hw).
  destruct (UnmapRange_backed (page_cached (k_memory s)) known Hsep vm1 (target_of sm address) (sm_size sm)) as (vm2 & E2 & Hvm2 & Hl2 & Hv2);
    [done|done|by apply Hm|intros a Ha; by rewrite Hin by lia|].
  exists vm2. split; [exact E|]. cbn [processes put_process k_memory]. rewrite Ep. cbn [mbind option_bind vm_manager set_vm].
  rewrite E2. cbn [mbind option_bind]. split; [|split].
  - unfold put_process. cbn [processes handle_tables memory_blocks next_object_id k_regions k_memory]. by rewrite insert_insert_eq.
  - by apply sinv_put.
  - intros a. rewrite Hv2. destruct (in_range _ _ a) eqn:Ea; [|apply Ho; by apply in_range_false in Ea].
    apply in_range_iff in Ea. left. symmetry. apply Hm. lia.
Qed.

(** The address space of process [pid] holds the block at [target]. *)
Definition holds_block sm s (pid target : Z) : Prop :=
  ∃ p, processes s !! pid = Some p ∧ ∀ k, 0 <= k < sm_size sm →
    ∃ perms, attr_at (vma_map (vm_manager p)) (target + k) =
             Some (mkAttr BackingMemory perms StateShared (block_ref (backing_blocks sm) k)).

(** The renderer caches no page of the range. *)
Definition uncached s (target size : Z) : Prop :=
  ∀ a, target <= a < target + size → page_cached (k_memory s) (a / CITRA_PAGE_SIZE) = false.

Lemma holds_block_map sm s pid address permissions other_permissions p :
  sinv s → block_ok sm → map_args sm s pid address permissions other_permissions p →
  ∃ s', SharedMemory_Map sm pid address permissions other_permissions s = Some (s', ResultSuccess) ∧ sinv s' ∧
    holds_block sm s' pid (target_of sm address) ∧ k_memory s' = k_memory s ∧
    (∀ pid', is_owner sm s' pid' = is_owner sm s pid') ∧
    ∀ pid', pid' ≠ pid → processes s' !! pid' = processes s !! pid'.
Proof.
  intros Hi Hb Hm. destruct (Map_ok_args sm s pid address permissions other_permissions p Hi Hb Hm) as (vm' & E & Hi' & [Hin _]).
  eexists. split; [exact E|]. split; [done|]. split; [|split; [done|split]].
  - eexists. split; [by apply lookup_insert_eq|]. intros k Hk. exists (ConvertPermissions permissions).
    simpl. rewrite Hin by lia. by replace (target_of sm address + k - target_of sm address) with k by lia.
  - intros pid'. unfold is_owner, lock_owner. simpl. destruct (owner_process sm) as [o|]; [|done]. simpl.
    destruct (decide (o = pid)) as [->|Hne]; [|by rewrite lookup_insert_ne].
    by rewrite lookup_insert_eq, (ma_process _ _ _ _ _ _ _ Hm).
  - intros pid' Hne. by apply lookup_insert_ne.
Qed.

(** No two bytes of the block are the same byte of the host. *)
Definition bytes_distinct sm : Prop :=
  ∀ k k', 0 <= k < sm_size sm → 0 <= k' < sm_size sm →
    GetPtr (block_ref (backing_blocks sm) k) = GetPtr (block_ref (backing_blocks sm) k') → k = k'.

Lemma block_page sm s pid target p k :
  sinv s → hosted known (k_memory s) → uncached s target (sm_size sm) → holds_block sm s pid target →
  processes s !! pid = Some p → 0 <= k < sm_size sm →
  ∃ ref, page_backing (process_pages p) (k_memory s) ((target + k) / CITRA_PAGE_SIZE) (Some ref) ∧
    GetPtr ref + (target + k) `mod` CITRA_PAGE_SIZE = GetPtr (block_ref (backing_blocks sm) k).
Proof.
  intros Hi Hho Hu (q & E & Hk) Hp Hin. rewrite Hp in E. injection E as <-. destruct (Hk k Hin) as (perms & Hat).
  destruct (si_vm _ Hi pid p Hp) as (Hvm & _).
  exact (attr_backing known _ _ (watchpoints p) _ _ Hvm Hho Hat eq_refl (Hu (target + k) ltac:(lia))).
Qed.

Lemma shared_bytes rasterizer sm s pid target p pid' target' p' k data :
  (∀ mode h, no_writeback rasterizer mode h) → sinv s → hosted known (k_memory s) → bytes_distinct sm →
  holds_block sm s pid target → holds_block sm s pid' target' →
  processes s !! pid = Some p → processes s !! pid' = Some p' →
  uncached s target (sm_size sm) → uncached s target' (sm_size sm) →
  0 <= target → target + sm_size sm <= 2 ^ 31 → 0 <= target' → target' + sm_size sm <= 2 ^ 31 →
  0 <= k → k + Z.of_nat (length data) <= sm_size sm → Forall (λ x, 0 <= x < 2 ^ 8) data →
  ∃ ms', WriteBlock rasterizer (process_pages p) (target + k) (FromBuffer data) (Z.of_nat (length data)) (k_memory s) = Some ms' ∧
    ReadBlock rasterizer (process_pages p') (target' + k) (Z.of_nat (length data)) ms' = Some (ms', data).
Proof.
  intros Hras Hi Hho Hd Hb Hb' Hp Hp' Hu Hu' Ht Htm Ht' Htm' Hk Hlen Hbytes.
  destruct (write_read_across rasterizer (λ _, 0) (Hras Invalidate) (process_pages p) (process_pages p') (k_memory s)
              (target + k) (target' + k) data (Hras Flush)) as (h & Ew & Er & _); try done; try lia; [| |by eauto].
  - split.
    + intros a Ha. destruct (block_page sm s pid target p (a - target) Hi Hho Hu Hb Hp ltac:(lia)) as (r & Hr & _).
      replace (target + (a - target)) with a in Hr by lia. by exists r.
    + intros a b ra rb Ha Hb0 Hra Hrb Eq.
      destruct (block_page sm s pid target p (a - target) Hi Hho Hu Hb Hp ltac:(lia)) as (r1 & Hr1 & E1).
      destruct (block_page sm s pid target p (b - target) Hi Hho Hu Hb Hp ltac:(lia)) as (r2 & Hr2 & E2).
      replace (target + (a - target)) with a in * by lia. replace (target + (b - target)) with b in * by lia.
      pose proof (page_backing_det _ _ _ _ _ Hra Hr1). pose proof (page_backing_det _ _ _ _ _ Hrb Hr2). simplify_eq.
      pose proof (Hd (a - target) (b - target) ltac:(lia) ltac:(lia) ltac:(congruence)). lia.
  - intros i Hin. destruct (block_page sm s pid target p (k + i) Hi Hho Hu Hb Hp ltac:(lia)) as (r & Hr & E1).
    destruct (block_page sm s pid' target' p' (k + i) Hi Hho Hu' Hb' Hp' ltac:(lia)) as (r' & Hr' & E2).
    replace (target + (k + i)) with (target + k + i) in * by lia. replace (target' + (k + i)) with (target' + k + i) in * by lia.
    exists r, r'. split_and!; [done|done|congruence].
Qed.

(** ** Creation and destruction *)

(** A region as the kernel keeps it: whole pages of FCRAM are free. *)
Record region_ready (r : MemoryRegionInfo IS) : Prop := {
  rr_inv : region_inv r;
  rr_unlocked : MemoryRegion.is_locked r = false;
  rr_fits : region_base r + region_size r <= FCRAM_N3DS_SIZE;
  rr_paged : paged (λ x, iset_elem x (free_blocks r)) }.

Lemma put_region_same s ri r : k_regions s !! ri = Some r → put_region ri r s = s.
Proof. intros E. unfold put_region. rewrite list_insert_id by done. by destruct s. Qed.

Lemma free_holding_ok sm s ri r :
  sm_region sm = Some ri → k_regions s !! ri = Some r → region_inv r → MemoryRegion.is_locked r = false →
  (∀ x, iset_elem x (sm_holding sm) → region_base r <= x < region_base r + region_size r ∧ ~ iset_elem x (free_blocks r)) →
  ∃ r', free_holding sm s = Some (put_region ri r' s) ∧ region_inv r' ∧ used r' = used r - iset_total (sm_holding sm) ∧
    ∀ x, iset_elem x (free_blocks r') ↔ iset_elem x (sm_holding sm) ∨ iset_elem x (free_blocks r).
Proof.
  intros Hri Hr Hi Hl Hin. unfold free_holding, iset_total.
  destruct (free_segments_ok (iset_segments (sm_holding sm)) r (iset_segmented _) Hi Hl Hin)
    as (r' & E & Hi' & _ & _ & _ & Hu & Hel).
  destruct (iset_segments (sm_holding sm)) as [|i l] eqn:Es.
  - injection E as <-. exists r. rewrite (put_region_same s ri r Hr). split_and!; try done.
    intros x. unfold iset_elem at 2. rewrite Es. apply Hel.
  - exists r'. rewrite Hri. cbn [mbind option_bind]. rewrite Hr. cbn [mbind option_bind]. rewrite E. cbn [mbind option_bind].
    split_and!; try done. intros x. unfold iset_elem at 2. rewrite Es. apply Hel.
Qed.

(** The block that [create_linear] makes of the range at [off]. *)
Definition linear_block s (owner : option Z) (size permissions other_permissions : Z) (ri : nat) (off : Z) : SharedMemory IS :=
  mkShared off [(mkRef (Some (fcram_mem (k_memory s))) off, size)] size (Some ri) permissions other_permissions owner 0
    (iset_add (off, off + size) iset_empty).

Lemma linear_block_holding s owner size permissions other_permissions ri off x :
  iset_elem x (sm_holding (linear_block s owner size permissions other_permissions ri off)) ↔ off <= x < off + size.
Proof.
  unfold linear_block, sm_holding. rewrite iset_add_spec. unfold in_interval. cbn [fst snd].
  split; [intros [?|Hx]; [done|by apply iset_elem_empty in Hx]|by left].
Qed.

Lemma linear_block_total s owner size permissions other_permissions ri off :
  0 <= size → iset_total (sm_holding (linear_block s owner size permissions other_permissions ri off)) = size.
Proof.
  intros Hs. unfold linear_block, sm_holding. rewrite iset_total_add; cbn [fst snd]; [|lia|].
  - unfold iset_total. rewrite iset_empty_spec. simpl. lia.
  - intros x _ Hx. by apply iset_elem_empty in Hx.
Qed.

Lemma linear_block_ok s owner size permissions other_permissions ri off :
  sinv s → 0 <= off → off + size <= FCRAM_N3DS_SIZE → 0 < size < 2 ^ 31 → size `mod` CITRA_PAGE_SIZE = 0 →
  0 <= permissions < 2 ^ 32 → 0 <= other_permissions < 2 ^ 32 →
  let sm := linear_block s owner size permissions other_permissions ri off in
  block_ok sm ∧ bytes_distinct sm ∧
  ∀ k, 0 <= k < size → GetPtr (block_ref (backing_blocks sm) k) = bm_ptr (fcram_mem (k_memory s)) + off + k.
Proof.
  intros Hi Ho Hfit Hs Hsa Hp1 Hp2 sm.
  destruct (fcram_backed_at known (k_memory s) off size) as (_ & Hbk & _); try apply Hi; try lia.
  assert (∀ k, 0 <= k < size → GetPtr (block_ref (backing_blocks sm) k) = bm_ptr (fcram_mem (k_memory s)) + off + k) as Hptr.
  { intros k Hk. simpl. rewrite (proj2 (Z.ltb_lt _ _)) by lia. unfold GetPtr. simpl. lia. }
  split; [|split; [|done]].
  - split; simpl; try done; [lia| |]; (apply Forall_cons_2; [|apply Forall_nil_2]); simpl; (done || (split; [lia|done])).
  - intros k k' Hk Hk' E. rewrite !Hptr in E by done. lia.
Qed.

(** What the creation of an automatically allocated block does. *)
Record created s s' (owner : option Z) (ri : nat) (r : MemoryRegionInfo IS) (off size : Z) : Prop := {
  cr_regions : k_regions s' = <[ri := take_interval (off, off + size) size r]> (k_regions s);
  cr_inv : sinv s';
  cr_fcram : fcram_mem (k_memory s') = fcram_mem (k_memory s);
  cr_zero : ∀ y, host_byte (host (k_memory s')) y =
    if in_range (bm_ptr (fcram_mem (k_memory s)) + off) (bm_ptr (fcram_mem (k_memory s)) + off + size) y then 0
    else host_byte (host (k_memory s)) y;
  cr_owner : ∀ pid p, owner = Some pid → processes s !! pid = Some p →
    processes s' !! pid = Some (set_memory_used (memory_used p + size) p);
  cr_others : ∀ pid, owner ≠ Some pid → processes s' !! pid = processes s !! pid }.

Lemma clear_fcram_ok ms lo n :
  bm_size (fcram_mem ms) = FCRAM_N3DS_SIZE → 0 < bm_ptr (fcram_mem ms) → known (fcram_mem ms) →
  0 <= lo → 0 <= n → lo + n <= FCRAM_N3DS_SIZE →
  clear_fcram lo (lo + n) ms =
    Some (set_host ms (host_set (bm_ptr (fcram_mem ms) + lo) (replicate (Z.to_nat n) 0) (host ms))).
Proof.
  intros Hs Hp Hk Hlo Hn Hfit. destruct (fcram_backed_at known ms lo n) as (_ & _ & Hv); try done.
  unfold clear_fcram, GetFCRAMPointer. rewrite !(proj2 (Z.leb_le _ FCRAM_N3DS_SIZE)) by lia. cbn [assert_ mbind option_bind].
  unfold store_bytes. rewrite length_replicate, Z2Nat.id by lia.
  replace (bm_ptr (fcram_mem ms) + (lo + n) - (bm_ptr (fcram_mem ms) + lo)) with n by lia. by rewrite Hv.
Qed.

Lemma sinv_memory s h : sinv s → sinv (put_memory (set_host (k_memory s) h) s).
Proof. intros [Hv Hf Hp Hk]. by split. Qed.

Lemma sinv_used s pid p n : sinv s → processes s !! pid = Some p → sinv (put_process pid (set_memory_used n p) s).
Proof. intros Hi E. destruct (si_vm _ Hi pid p E) as (? & ? & ?). by apply sinv_put. Qed.

Lemma create_linear_ok s owner size permissions other_permissions ri r :
  sinv s → k_regions s !! ri = Some r → region_ready r → 0 < size < 2 ^ 31 →
  (∀ pid, owner = Some pid → is_Some (processes s !! pid)) →
  (∃ off s', off `mod` CITRA_PAGE_SIZE = 0 ∧ free_range r off size ∧ (∀ off', free_range r off' size → off <= off') ∧
     create_linear owner size permissions other_permissions ri s =
       Some (s', inr (linear_block s owner size permissions other_permissions ri off)) ∧
     created s s' owner ri r off size) ∨
  (∀ off, ~ free_range r off size) ∧ create_linear owner size permissions other_permissions ri s = None.
Proof.
  intros Hi Hr [Hri Hrl Hrf Hrp] Hs Ho. unfold create_linear. rewrite Hr. cbn [mbind option_bind].
  destruct (LinearAllocate_ok r size Hri Hrl ltac:(lia)) as [(seg & Hseg & -> & Hf & Hmin & _)|(-> & Hno)];
    cbn [mbind option_bind]; [left|by right]. set (off := seg.1) in *.
  pose proof (inv_inside r Hri _ (Hf off ltac:(lia))). pose proof (inv_inside r Hri _ (Hf (off + size - 1) ltac:(lia))).
  pose proof (inv_bounds r Hri). assert (FCRAM_N3DS_SIZE < 2 ^ 31) by done.
  rewrite (u32_id (off + size)) by lia. rewrite (clear_fcram_ok (k_memory s) off size) by (apply Hi || lia).
  cbn [mbind option_bind]. set (ms := set_host _ _).
  destruct (fcram_backed_at known ms off size) as (-> & _); try apply Hi; try lia. cbn [mbind option_bind].
  assert (∀ y, host_byte (host ms) y =
    if in_range (bm_ptr (fcram_mem (k_memory s)) + off) (bm_ptr (fcram_mem (k_memory s)) + off + size) y then 0
    else host_byte (host (k_memory s)) y) as Hz.
  { intros y. unfold ms. simpl. rewrite host_byte_set, length_replicate, Z2Nat.id by lia.
    destruct (in_range _ _ y) eqn:Ey; [|done]. apply in_range_iff in Ey. rewrite lookup_replicate_2 by lia. done. }
  assert (sinv (put_memory ms (put_region ri (take_interval (off, off + size) size r) s))) as Hi'.
  { apply (sinv_memory (put_region ri _ s)). destruct Hi. by split. }
  destruct (paged_segment _ _ Hrp Hseg) as [Hoa _]. exists off. set (s1 := put_memory ms _) in *.
  destruct owner as [pid|]; cbn [mbind option_bind].
  - destruct (Ho pid eq_refl) as [p Hp]. change (processes s1) with (processes s). rewrite Hp. cbn [mbind option_bind].
    eexists. split; [done|]. split; [done|]. split; [done|]. split; [done|]. split; try done.
    + by apply sinv_used.
    + intros pid' p' [= <-] Hp'. simplify_eq. apply lookup_insert_eq.
    + intros pid' Hne. apply lookup_insert_ne. congruence.
  - eexists. split; [done|]. split; [done|]. split; [done|]. split; [done|]. split; try done.
Qed.

(** Destroying the block of a live owner. *)
Lemma destroy_linear_ok s0 s owner size permissions other_permissions ri off r p v :
  let sm := linear_block s0 (Some owner) size permissions other_permissions ri off in
  0 <= size → k_regions s !! ri = Some r → region_inv r → MemoryRegion.is_locked r = false →
  (∀ x, off <= x < off + size → region_base r <= x < region_base r + region_size r ∧ ~ iset_elem x (free_blocks r)) →
  processes s !! owner = Some p → limit_wf (resource_limit p) →
  GetCurrentValue RL_SharedMemory (resource_limit p) = Some v → - 2 ^ 31 <= v - 1 < 2 ^ 31 →
  ∃ r' l, SharedMemory_destroy sm s =
      Some (put_process owner (set_memory_used (memory_used p - size) (set_limit l p)) (put_region ri r' s)) ∧
    region_inv r' ∧ used r' = used r - size ∧
    (∀ x, iset_elem x (free_blocks r') ↔ off <= x < off + size ∨ iset_elem x (free_blocks r)) ∧
    limit_wf l ∧ GetCurrentValue RL_SharedMemory l = Some (v - 1).
Proof.
  intros sm Hs Hr Hi Hl Hin Hp W Hv Hb. unfold SharedMemory_destroy.
  destruct (free_holding_ok sm s ri r eq_refl Hr Hi Hl) as (r' & -> & Hi' & Hu & Hel).
  { intros x Hx. apply Hin. by apply linear_block_holding in Hx. }
  cbn [mbind option_bind]. unfold lock_owner. change (owner_process sm) with (Some owner). cbn [mbind option_bind].
  change (processes (put_region ri r' s)) with (processes s). rewrite Hp. cbn [mbind option_bind].
  destruct (Release_ok RL_SharedMemory 1 (resource_limit p) v W) as (l & -> & Wl & Hvl & _); [done|done|done|].
  cbn [mbind option_bind]. exists r', l. split; [done|].
  unfold sm in Hu. rewrite linear_block_total in Hu by done. split_and!; try done.
  intros x. rewrite Hel. unfold sm. by rewrite linear_block_holding.
Qed.

(** The end of a block's life: mapped, unmapped and destroyed. *)
Lemma linear_block_end s s1 owner p v size permissions other_permissions ri r off pid pq address perms other :
  let sm := linear_block s (Some owner) size permissions other_permissions ri off in
  created s s1 (Some owner) ri r off size → block_ok sm → sinv s → processes s !! owner = Some p →
  k_regions s !! ri = Some r → region_ready r → 0 < size < 2 ^ 31 → free_range r off size →
  0 <= memory_used p < 2 ^ 32 →
  GetCurrentValue RL_SharedMemory (resource_limit p) = Some v → - 2 ^ 31 <= v - 1 < 2 ^ 31 →
  map_args sm s1 pid address perms other pq →
  ∃ s2 s3 s4 r' p', SharedMemory_Map sm pid address perms other s1 = Some (s2, ResultSuccess) ∧
    SharedMemory_Unmap sm pid (target_of sm address) s2 = Some (s3, ResultSuccess) ∧
    SharedMemory_destroy sm s3 = Some s4 ∧
    k_regions s4 = <[ri := r']> (k_regions s) ∧ used r' = used r ∧
    (∀ x, iset_elem x (free_blocks r') ↔ iset_elem x (free_blocks r)) ∧
    processes s4 !! owner = Some p' ∧ memory_used p' = memory_used p ∧
    GetCurrentValue RL_SharedMemory (resource_limit p') = Some (v - 1) ∧
    ∃ pq', processes s4 !! pid = Some pq' ∧ vm_inv (page_cached (k_memory s4)) known (vm_manager pq') ∧
      ∀ a, reprotected StateShared (ConvertPermissions perms) (attr_at (vma_map (vm_manager pq)) a)
             (attr_at (vma_map (vm_manager pq')) a).
Proof.
  intros sm.
  intros Hc Hb Hi Hp Hr Hrr Hs Hf Hmu Hv Hvb Hm. destruct (map_unmap_block sm s1 pid address perms other pq (cr_inv _ _ _ _ _ _ _ Hc) Hb Hm)
    as (s2 & vm & E2 & E3 & Hi3 & Hre). set (s3 := put_process pid (set_vm vm pq) s1) in *.
  assert (∃ po, processes s3 !! owner = Some po ∧ memory_used po = u32 (memory_used p + size) ∧ resource_limit po = resource_limit p ∧
            (pid = owner → po = set_vm vm pq)) as (po & Epo & Emu & Erl & Esame).
  { pose proof (cr_owner _ _ _ _ _ _ _ Hc owner p eq_refl Hp) as Eo. unfold s3. simpl.
    destruct (decide (pid = owner)) as [->|Hne].
    - rewrite lookup_insert_eq. rewrite (ma_process _ _ _ _ _ _ _ Hm) in Eo. injection Eo as ->. by eexists.
    - rewrite lookup_insert_ne, Eo by done. by eexists. }
  pose proof (inv_inside r (rr_inv _ Hrr) _ (Hf off ltac:(lia))). pose proof (inv_inside r (rr_inv _ Hrr) _ (Hf (off + size - 1) ltac:(lia))).
  destruct (region_inv_take_interval r off size (rr_inv _ Hrr) ltac:(lia) Hf) as (Hri & Hu & Hel).
  destruct (destroy_linear_ok s s3 owner size permissions other_permissions ri off (take_interval (off, off + size) size r) po v)
    as (r' & l & E4 & _ & Hu' & Hel' & _ & Hvl); try done; try lia.
  { simpl. rewrite (cr_regions _ _ _ _ _ _ _ Hc). apply list_lookup_insert_eq. by eapply lookup_lt_Some. }
  { apply Hrr. }
  { intros x Hx. simpl. split; [lia|]. rewrite Hel. intros [_ Hx']. lia. }
  { by apply (si_vm _ Hi3 owner po). }
  { by rewrite Erl. }
  exists s2, s3. eexists. exists r', (set_memory_used (memory_used po - size) (set_limit l po)).
  split; [done|]. split; [done|]. split; [exact E4|]. split.
  { simpl. rewrite (cr_regions _ _ _ _ _ _ _ Hc). by rewrite list_insert_insert_eq. }
  split; [lia|]. split.
  { intros x. rewrite Hel', Hel. split; [|destruct (decide (off <= x < off + size)); [by left|by right]].
    intros [Hx|[? _]]; [by apply Hf|done]. }
  split; [apply lookup_insert_eq|]. split.
  { simpl. rewrite Emu. unfold u32. rewrite Zminus_mod_idemp_l. rewrite Z.add_simpl_r. by apply Z.mod_small. }
  split; [done|]. destruct (si_vm _ Hi3 pid (set_vm vm pq)) as (Hvm & _); [apply lookup_insert_eq|].
  destruct (decide (pid = owner)) as [->|Hne].
  - eexists. split; [apply lookup_insert_eq|]. rewrite Esame by done. done.
  - eexists. split; [simpl; rewrite lookup_insert_ne by done; apply lookup_insert_eq|]. done.
Qed.

(** A block of memory that its owner has mapped. *)
Lemma create_mapped_ok s pid p size permissions other_permissions address ri :
  sinv s → processes s !! pid = Some p → valid_range address size → size < 2 ^ 31 →
  0 <= permissions < 2 ^ 32 → 0 <= other_permissions < 2 ^ 32 →
  range_private (vma_map (vm_manager p)) address size →
  ∃ vm' blocks, let sm := mkShared 0 blocks size (Some ri) permissions other_permissions (Some pid) address iset_empty in
    create_mapped (Some pid) size permissions other_permissions address ri s = Some (put_process pid (set_vm vm' p) s, inr sm) ∧
    block_ok sm ∧ sinv (put_process pid (set_vm vm' p) s) ∧
    (∀ k, 0 <= k < size → a_ref <$> attr_at (vma_map (vm_manager p)) (address + k) = Some (block_ref blocks k)) ∧
    ∀ a, attr_at (vma_map vm') a = changed_view (set_state StateLocked (ConvertPermissions permissions)) address (address + size)
                                     (vma_map (vm_manager p)) a.
Proof.
  intros Hi Hp Hr Hs Hp1 Hp2 Hpr. destruct (si_vm _ Hi pid p Hp) as (Hvm & Hl & Hw). pose proof Hr as (_ & _ & _ & Hn & _).
  unfold create_mapped. cbn [mbind option_bind]. rewrite Hp. cbn [mbind option_bind].
  destruct (ChangeMemoryState_view (page_cached (k_memory s)) known (vm_manager p) address size StatePrivate PermReadWrite
              StateLocked (ConvertPermissions permissions) Hsep Hvm Hl Hr) as [Hyes _].
  destruct Hyes as (vm' & -> & Hvm' & Hl' & Hv); [by apply range_private_backed|by apply range_private_matches|].
  cbn [mbind option_bind]. change (negb (IsSuccess ResultSuccess)) with false. cbv iota.
  assert (∀ a, address <= a < address + size → ∃ ref,
    attr_at (vma_map (vm_manager p)) a = Some (mkAttr BackingMemory PermReadWrite StatePrivate ref) ∧
    attr_at (vma_map vm') a = Some (mkAttr BackingMemory (ConvertPermissions permissions) StateLocked ref)) as Hat.
  { intros a Ha. destruct (Hpr a Ha) as (ref & E). exists ref. split; [done|]. rewrite Hv. unfold changed_view.
    rewrite (proj2 (in_range_iff _ _ _)) by lia. by rewrite E. }
  destruct (page_blocks known _ vm' address size Hvm' Hr) as (blocks & -> & Ht & Hbk & Hal & Href).
  { intros a Ha. by destruct (Hat a Ha) as (ref & _ & ->). }
  cbn [mbind option_bind]. exists vm', blocks. split; [done|]. split; [by split|]. split; [by apply sinv_put|]. split; [|done].
  intros k Hk. rewrite <- (Href k Hk). destruct (Hat (address + k) ltac:(lia)) as (ref & -> & ->). done.
Qed.

(** Destroying it. *)
Lemma destroy_mapped_ok sm s pid p v :
  sinv s → processes s !! pid = Some p → owner_process sm = Some pid → iset_segments (sm_holding sm) = [] →
  base_address sm ≠ 0 → valid_range (base_address sm) (sm_size sm) →
  range_backed (vma_map (vm_manager p)) (base_address sm) (sm_size sm) →
  range_all (state_matches StateLocked PermNone) (vma_map (vm_manager p)) (base_address sm) (sm_size sm) →
  GetCurrentValue RL_SharedMemory (resource_limit p) = Some v → - 2 ^ 31 <= v - 1 < 2 ^ 31 →
  ∃ vm' l, SharedMemory_destroy sm s = Some (put_process pid (set_vm vm' (set_limit l p)) s) ∧
    sinv (put_process pid (set_vm vm' (set_limit l p)) s) ∧ GetCurrentValue RL_SharedMemory l = Some (v - 1) ∧
    ∀ a, attr_at (vma_map vm') a = changed_view (set_state StatePrivate PermReadWrite) (base_address sm)
           (base_address sm + sm_size sm) (vma_map (vm_manager p)) a.
Proof.
  intros Hi Hp Ho Hh Hne Hr Hb Ha Hv Hvb. destruct (si_vm _ Hi pid p Hp) as (Hvm & Hl & Hw).
  unfold SharedMemory_destroy, free_holding. rewrite Hh. cbn [mbind option_bind]. unfold lock_owner. rewrite Ho.
  cbn [mbind option_bind]. rewrite Hp. cbn [mbind option_bind].
  destruct (Release_ok RL_SharedMemory 1 (resource_limit p) v Hw) as (l & -> & Wl & Hvl & _); [done|done|done|].
  cbn [mbind option_bind]. rewrite (proj2 (Z.eqb_neq _ 0)) by done. cbn [negb vm_manager set_limit].
  destruct (ChangeMemoryState_view (page_cached (k_memory s)) known (vm_manager p) (base_address sm) (sm_size sm) StateLocked PermNone
              StatePrivate PermReadWrite Hsep Hvm Hl Hr) as [Hyes _].
  destruct (Hyes Hb Ha) as (vm' & -> & Hvm' & Hl' & Hv').
  cbn [mbind option_bind]. exists vm', l. split; [done|]. split; [by apply sinv_put|]. done.
Qed.

End Shared.

(** ** Theorems *)

Section Theorems.
Context (known : BackingMem → Prop) (Hsep : blocks_separate known).
Context {IS : Type} `{IntervalSetLaws IS}.
Implicit Types (s : KState IS) (sm : SharedMemory IS).

(** [Map] decides in full: it succeeds exactly when the permissions asked for are granted, the address
    is one at which blocks may be mapped, and the whole range is free in the process.  It then maps
    the bytes of the block in order with the permissions asked for; an adjacent shared mapping
    that merges with it may change its permissions, and nothing else changes.  Otherwise it returns
    an error and changes nothing. *)
Theorem shared_map_spec sm pid p address permissions other_permissions s :
  sinv known s → block_ok known sm → processes s !! pid = Some p →
  0 <= permissions < 2 ^ 32 → 0 <= other_permissions < 2 ^ 32 →
  0 <= address → valid_range (target_of sm address) (sm_size sm) →
  (may_map sm (is_owner sm s pid) permissions other_permissions ∧ address_ok sm address ∧
   range_free (vma_map (vm_manager p)) (target_of sm address) (sm_size sm) ∧
   ∃ vm', SharedMemory_Map sm pid address permissions other_permissions s =
            Some (put_process pid (set_vm vm' p) s, ResultSuccess) ∧
     vm_inv (page_cached (k_memory s)) known vm' ∧ VMManager.is_locked vm' = false ∧
     added_range (vma_map (vm_manager p)) (vma_map vm') (target_of sm address) (sm_size sm)
       (block_ref (backing_blocks sm)) StateShared (ConvertPermissions permissions)) ∨
  (~ (may_map sm (is_owner sm s pid) permissions other_permissions ∧ address_ok sm address ∧
      range_free (vma_map (vm_manager p)) (target_of sm address) (sm_size sm)) ∧
   ∃ e, SharedMemory_Map sm pid address permissions other_permissions s = Some (s, e) ∧ IsSuccess e = false).
Proof. by apply Map_decides. Qed.

(** C33: Shared memory is shared: after a block was mapped into two processes, at whatever addresses, what
    one writes into its copy of the block with [WriteBlock] the other one reads from its own with
    [ReadBlock].  (The renderer caches neither range and has nothing to write back.) *)
Theorem shared_memory_coherent rasterizer sm s pid p address permissions other_permissions pid' p' address' permissions'
    other_permissions' :
  (∀ mode h, no_writeback rasterizer mode h) → sinv known s → hosted known (k_memory s) → block_ok known sm →
  bytes_distinct sm → pid ≠ pid' →
  map_args sm s pid address permissions other_permissions p →
  map_args sm s pid' address' permissions' other_permissions' p' →
  uncached s (target_of sm address) (sm_size sm) → uncached s (target_of sm address') (sm_size sm) →
  ∃ s1 s2 q q', SharedMemory_Map sm pid address permissions other_permissions s = Some (s1, ResultSuccess) ∧
    SharedMemory_Map sm pid' address' permissions' other_permissions' s1 = Some (s2, ResultSuccess) ∧
    processes s2 !! pid = Some q ∧ processes s2 !! pid' = Some q' ∧ sinv known s2 ∧
    ∀ k data, 0 <= k → k + Z.of_nat (length data) <= sm_size sm → Forall (λ x, 0 <= x < 2 ^ 8) data →
      ∃ ms', WriteBlock rasterizer (process_pages q) (target_of sm address + k) (FromBuffer data) (Z.of_nat (length data))
               (k_memory s2) = Some ms' ∧
        ReadBlock rasterizer (process_pages q') (target_of sm address' + k) (Z.of_nat (length data)) ms' = Some (ms', data).
Proof.
  intros Hras Hi Hho Hb Hd Hne Hm Hm' Hu Hu'.
  destruct (holds_block_map known Hsep sm s pid address permissions other_permissions p Hi Hb Hm)
    as (s1 & E1 & Hi1 & (q & Hq & Hk) & Em1 & Hown & Ho1).
  destruct (holds_block_map known Hsep sm s1 pid' address' permissions' other_permissions' p' Hi1 Hb)
    as (s2 & E2 & Hi2 & Hh2 & Em2 & _ & Ho2).
  { destruct Hm'. split; try done; [by rewrite Ho1|by rewrite Hown]. }
  pose proof Hh2 as (q' & Hq' & _). exists s1, s2, q, q'.
  assert (processes s2 !! pid = Some q) as Hq2 by (by rewrite Ho2).
  do 5 (split; [done|]). intros k data Hk0 Hlen Hbytes.
  pose proof (ma_range _ _ _ _ _ _ _ Hm) as (_ & _ & ? & _ & ?). pose proof (ma_range _ _ _ _ _ _ _ Hm') as (_ & _ & ? & _ & ?).
  assert (MAX_ADDRESS < 2 ^ 31) by done. assert (k_memory s2 = k_memory s) as Em by congruence.
  apply (shared_bytes known rasterizer sm s2 pid _ q pid' _ q' k data Hras Hi2); unfold uncached; rewrite ?Em; try done; try lia.
  by exists q.
Qed.

(** The life of an automatically allocated block.  When the region has room, creating the block takes the
    lowest range that is large enough, clears it and charges the owner; mapping it into any process
    and unmapping it again restores the address space, up to the permissions of a neighbour the
    mapping was merged with; and when the block is then destroyed the region has exactly the memory
    it had before, and the owner is charged what it was. *)
Theorem shared_linear_lifecycle s owner p v size permissions other_permissions ri r pid pq address perms other :
  sinv known s → processes s !! owner = Some p → k_regions s !! ri = Some r → region_ready r →
  0 < size < 2 ^ 31 → size `mod` CITRA_PAGE_SIZE = 0 → 0 <= permissions < 2 ^ 32 → 0 <= other_permissions < 2 ^ 32 →
  (∃ off, free_range r off size) → 0 <= memory_used p < 2 ^ 32 →
  GetCurrentValue RL_SharedMemory (resource_limit p) = Some v → - 2 ^ 31 <= v - 1 < 2 ^ 31 →
  ∃ s1 sm, CreateSharedMemory (Some owner) size permissions other_permissions 0 ri s = Some (s1, inr sm) ∧
    block_ok known sm ∧ bytes_distinct sm ∧ sinv known s1 ∧
    (∀ k, 0 <= k < size → host_byte (host (k_memory s1)) (GetPtr (block_ref (backing_blocks sm) k)) = 0) ∧
    (map_args sm s1 pid address perms other pq →
     ∃ s2 s3 s4 r' p', SharedMemory_Map sm pid address perms other s1 = Some (s2, ResultSuccess) ∧
       SharedMemory_Unmap sm pid (target_of sm address) s2 = Some (s3, ResultSuccess) ∧
       SharedMemory_destroy sm s3 = Some s4 ∧
       k_regions s4 = <[ri := r']> (k_regions s) ∧ used r' = used r ∧
       (∀ x, iset_elem x (free_blocks r') ↔ iset_elem x (free_blocks r)) ∧
       processes s4 !! owner = Some p' ∧ memory_used p' = memory_used p ∧
       GetCurrentValue RL_SharedMemory (resource_limit p') = Some (v - 1) ∧
       ∃ pq', processes s4 !! pid = Some pq' ∧ vm_inv (page_cached (k_memory s4)) known (vm_manager pq') ∧
         ∀ a, reprotected StateShared (ConvertPermissions perms) (attr_at (vma_map (vm_manager pq)) a)
                (attr_at (vma_map (vm_manager pq')) a)).
Proof.
  intros Hi Hp Hr Hrr Hs Hsa Hp1 Hp2 [off0 Hroom] Hmu Hv Hvb.
  destruct (create_linear_ok known s (Some owner) size permissions other_permissions ri r Hi Hr Hrr Hs)
    as [(off & s1 & Hoa & Hf & _ & E & Hc)|[Hno _]]; [by intros ? [= <-]|  |by destruct (Hno off0)].
  pose proof (inv_inside r (rr_inv _ Hrr) _ (Hf off ltac:(lia))). pose proof (inv_inside r (rr_inv _ Hrr) _ (Hf (off + size - 1) ltac:(lia))).
  pose proof (inv_bounds r (rr_inv _ Hrr)). pose proof (rr_fits _ Hrr).
  destruct (linear_block_ok known s (Some owner) size permissions other_permissions ri off) as (Hb & Hd & Hptr); try done; try lia.
  set (sm := linear_block s (Some owner) size permissions other_permissions ri off) in *.
  exists s1, sm. split; [done|]. split; [done|]. split; [done|]. split; [apply Hc|]. split.
  { intros k Hk. rewrite Hptr, (cr_zero _ _ _ _ _ _ _ _ Hc) by done. by rewrite (proj2 (in_range_iff _ _ _)) by lia. }
  intros Hm. by apply (linear_block_end known Hsep s s1 owner p v size permissions other_permissions ri r off).
Qed.

(** A block of memory the owner has mapped.  While the block lives the range is locked in its owner and keeps
    its bytes, which are those of the block; destroying the block makes the range what it was,
    whatever permissions the owner gave itself. *)
Theorem shared_heap_lifecycle s pid p v size permissions other_permissions address ri :
  sinv known s → processes s !! pid = Some p → valid_range address size → address ≠ 0 → size < 2 ^ 31 →
  0 <= permissions < 2 ^ 32 → 0 <= other_permissions < 2 ^ 32 → range_private (vma_map (vm_manager p)) address size →
  GetCurrentValue RL_SharedMemory (resource_limit p) = Some v → - 2 ^ 31 <= v - 1 < 2 ^ 31 →
  ∃ s1 sm p1 s2 p2, CreateSharedMemory (Some pid) size permissions other_permissions address ri s = Some (s1, inr sm) ∧
    block_ok known sm ∧ sinv known s1 ∧ processes s1 !! pid = Some p1 ∧
    (∀ k, 0 <= k < size → attr_at (vma_map (vm_manager p1)) (address + k) =
       Some (mkAttr BackingMemory (ConvertPermissions permissions) StateLocked (block_ref (backing_blocks sm) k))) ∧
    SharedMemory_destroy sm s1 = Some s2 ∧ processes s2 !! pid = Some p2 ∧ sinv known s2 ∧
    (∀ a, attr_at (vma_map (vm_manager p2)) a = attr_at (vma_map (vm_manager p)) a) ∧
    memory_used p2 = memory_used p ∧ GetCurrentValue RL_SharedMemory (resource_limit p2) = Some (v - 1).
Proof.
  intros Hi Hp Hr Hne Hs Hp1 Hp2 Hpr Hv Hvb. destruct (si_vm _ _ Hi pid p Hp) as (_ & _ & Hw).
  destruct (create_mapped_ok known Hsep s pid p size permissions other_permissions address ri Hi Hp Hr Hs Hp1 Hp2 Hpr)
    as (vm1 & blocks & E1 & Hb & Hi1 & Href & Hv1). set (sm := mkShared _ _ _ _ _ _ _ _ _) in *.
  assert (∀ k, 0 <= k < size → attr_at (vma_map vm1) (address + k) =
            Some (mkAttr BackingMemory (ConvertPermissions permissions) StateLocked (block_ref blocks k))) as Hk1.
  { intros k Hk. destruct (Hpr (address + k) ltac:(lia)) as (ref & E). specialize (Href k Hk). rewrite E in Href. injection Href as <-.
    rewrite Hv1. unfold changed_view. rewrite (proj2 (in_range_iff _ _ _)) by lia. by rewrite E. }
  exists (put_process pid (set_vm vm1 p) s), sm, (set_vm vm1 p). unfold CreateSharedMemory.
  rewrite (proj2 (Z.eqb_neq address 0)) by done. pose proof (lookup_insert_eq (processes s) pid (set_vm vm1 p)) as Ep1.
  destruct (si_vm _ _ Hi1 pid _ Ep1) as (Hvm1 & Hl1 & _).
  assert (∀ a, address <= a < address + size → attr_at (vma_map vm1) a =
            Some (mkAttr BackingMemory (ConvertPermissions permissions) StateLocked (block_ref blocks (a - address)))) as Hat.
  { intros a Ha. rewrite <- (Hk1 (a - address)) by lia. by replace (address + (a - address)) with a by lia. }
  destruct (destroy_mapped_ok known Hsep sm (put_process pid (set_vm vm1 p) s) pid (set_vm vm1 p) v) as (vm2 & l & E2 & Hi2 & Hvl & Hv2);
    try done; [by apply iset_empty_spec|intros a Ha; by rewrite Hat|intros a Ha; rewrite Hat by done; unfold state_matches; simpl; by rewrite Z.land_0_r|].
  do 2 eexists. do 5 (split; [done|]). split; [exact E2|]. split; [apply lookup_insert_eq|].
  split; [done|]. split; [|done].
  intros a. simpl. rewrite Hv2. unfold changed_view. destruct (in_range _ _ a) eqn:Ea.
  - apply in_range_iff in Ea. simpl in Ea. rewrite Hat by done. destruct (Hpr a Ea) as (ref & E). rewrite E.
    specialize (Href (a - address) ltac:(lia)). replace (address + (a - address)) with a in Href by lia.
    rewrite E in Href. by injection Href as <-.
  - rewrite Hv1. unfold changed_view. simpl in Ea. by rewrite Ea.
Qed.

(** A request for a block of memory that is not the process's own private memory is refused with
    [ResultInvalidAddressState], and the count of blocks and the address space stay what they were;
    but the half-made block is destroyed as if it were an automatically allocated one, and so
    [memory_used] shrinks by [size] although nothing was released.  Repeating the call makes the
    process appear to use less and less memory. *)
Theorem create_memory_block_refused s pid p v addr size my_permission other_permission :
  sinv known s → processes s !! pid = Some p → valid_range addr size → size < 2 ^ 31 →
  PROCESS_IMAGE_VADDR <= addr → addr + size <= SHARED_MEMORY_VADDR_END →
  VerifyPermissions my_permission = true → VerifyPermissions other_permission = true →
  ~ (range_backed (vma_map (vm_manager p)) addr size ∧
     range_all (state_matches StatePrivate PermReadWrite) (vma_map (vm_manager p)) addr size) →
  GetCurrentValue RL_SharedMemory (resource_limit p) = Some v → - 2 ^ 31 <= v < 2 ^ 31 - 1 →
  ∃ s' p', CreateMemoryBlock pid addr size my_permission other_permission s = Some (s', inl ResultInvalidAddressState) ∧
    processes s' !! pid = Some p' ∧ memory_used p' = u32 (memory_used p - size) ∧
    GetCurrentValue RL_SharedMemory (resource_limit p') = Some v ∧ vm_manager p' = vm_manager p ∧
    k_regions s' = k_regions s ∧ memory_blocks s' = memory_blocks s ∧ handle_tables s' = handle_tables s.
Proof.
  intros Hi Hp Hr Hs Hlo Hhi Hv1 Hv2 Hno Hv Hvb. destruct (si_vm _ _ Hi pid p Hp) as (Hvm & Hl & Hw).
  pose proof Hr as (_ & Hsa & _ & Hn & _). unfold CreateMemoryBlock. rewrite Hsa, Hv1, Hv2. cbn [negb Z.eqb].
  assert (SHARED_MEMORY_VADDR_END < 2 ^ 32 ∧ 0 < PROCESS_IMAGE_VADDR) as [? ?] by done.
  rewrite u32_id, (proj2 (Z.ltb_ge addr _)), (proj2 (Z.ltb_ge SHARED_MEMORY_VADDR_END _)) by lia. cbn [orb andb].
  rewrite Hp. cbn [mbind option_bind].
  destruct (Reserve_ok RL_SharedMemory 1 (resource_limit p) v Hw) as (l & -> & Wl & Hvl & _); [done|done|lia|].
  cbn [mbind option_bind negb]. unfold block_region, GetMemoryRegion. rewrite (proj2 (Z.eqb_neq addr 0)) by lia. cbn [andb].
  change (MR_BASE =? MR_APPLICATION) with false. change (MR_BASE =? MR_SYSTEM) with false. change (MR_BASE =? MR_BASE) with true.
  cbn [mbind option_bind GenerateObjectID]. unfold CreateSharedMemory. rewrite (proj2 (Z.eqb_neq addr 0)) by lia.
  unfold create_mapped. cbn [mbind option_bind processes put_process]. rewrite lookup_insert_eq. cbn [mbind option_bind].
  cbn [k_memory put_process vm_manager set_limit].
  destruct (ChangeMemoryState_view (page_cached (k_memory s)) known (vm_manager p) addr size StatePrivate PermReadWrite
              StateLocked (ConvertPermissions my_permission) Hsep Hvm Hl Hr) as [_ Hrefused].
  rewrite (Hrefused Hno). cbn [mbind option_bind]. change (negb (IsSuccess ResultInvalidAddressState)) with true. cbv iota.
  unfold SharedMemory_destroy, free_holding. cbn [sm_holding]. rewrite iset_empty_spec. cbn [mbind option_bind lock_owner owner_process].
  cbn [processes put_process]. rewrite lookup_insert_eq. cbn [mbind option_bind resource_limit set_vm set_limit].
  destruct (Release_ok RL_SharedMemory 1 l (v + 1) Wl) as (l' & -> & _ & Hvl' & _); [done|done|lia|].
  cbn [mbind option_bind base_address]. change (negb (0 =? 0)) with false. cbv iota. do 2 eexists. split; [reflexivity|].
  split; [apply lookup_insert_eq|]. split; [done|]. split; [simpl; rewrite Hvl'; f_equal; lia|]. done.
Qed.

End Theorems.

(** ** Blocks of size 0 and ranges that wrap around *)

(** A split leaves the first half behind, which cannot be split at its own end. *)
Lemma SplitVMA_twice l i v off l' j :
  l !! i = Some v → SplitVMA l i off = Some (l', j) → SplitVMA l' i off = None.
Proof.
  intros Hv E. pose proof (lookup_lt_Some _ _ _ Hv) as Hlen. unfold SplitVMA in E. rewrite Hv in E. cbn [mbind option_bind] in E.
  simplify_option_eq. match goal with |- SplitVMA ?k _ _ = _ => assert (k !! i = Some (set_size v off)) as Ei end.
  { unfold insert_at. rewrite lookup_app_l by (rewrite length_take, length_insert; lia).
    rewrite lookup_take_lt by lia. by apply list_lookup_insert_eq. }
  unfold SplitVMA. rewrite Ei. cbn [mbind option_bind set_size vma_size]. by rewrite Z.ltb_irrefl.
Qed.

Lemma find_free_area known cached vm target :
  vm_inv cached known vm → 0 <= target < MAX_ADDRESS → attr_at (vma_map vm) target = Some free_attr →
  ∃ d v r, vma_map vm = d ++ v :: r ∧ FindVMA (vma_map vm) target = Some (length d) ∧ vma_type v = VMManager.Free ∧
    0 <= vma_base v <= target ∧ target < vma_base v + vma_size v ∧ vma_base v + vma_size v < 2 ^ 32.
Proof.
  intros (Ht & _) Hb Hf. destruct (tiles_find _ _ _ _ target Ht Hb) as (d & v & r & El & Hin). rewrite El in *. exists d, v, r.
  rewrite (FindVMA_cut _ _ _ _ _ _ Ht Hin). split; [done|]. split; [done|].
  rewrite (attr_at_of_area known 0 d v r MAX_ADDRESS) in Hf by done. unfold attr, free_attr in Hf. injection Hf as Hty _ _ _.
  destruct (tiles_cons_inv _ _ _ _ _ _ Ht) as (_ & _ & _ & ? & ? & ?). unfold vma_end in *. assert (MAX_ADDRESS < 2 ^ 32) by done.
  split_and!; (done || lia).
Qed.

Lemma CarveVMA_empty known cached vm target :
  vm_inv cached known vm → target `mod` CITRA_PAGE_SIZE = 0 → 0 <= target < MAX_ADDRESS →
  attr_at (vma_map vm) target = Some free_attr → CarveVMA (vma_map vm) target 0 = None.
Proof.
  intros Hi Hta Hb Hf. unfold CarveVMA. destruct (aligned_checks target 0 Hta ltac:(done)) as [-> ->].
  cbn [assert_ mbind option_bind]. destruct (find_free_area known cached vm target Hi Hb Hf) as (d & v & r & El & -> & Hty & Hv & Hv1 & Hv2).
  rewrite El. cbn [mbind option_bind].
  destruct (Nat.eqb_spec (length d) (length (d ++ v :: r))) as [E|_]; [rewrite length_app in E; simpl in E; lia|].
  rewrite lookup_cut. cbn [mbind option_bind]. rewrite Hty, bool_decide_eq_true_2 by done. cbn [negb].
  assert (MAX_ADDRESS < 2 ^ 32) by done. rewrite Z.add_0_r, !(u32_id (target - vma_base v)) by lia.
  rewrite (proj2 (Z.ltb_ge _ _)), (proj2 (Z.eqb_neq (target - vma_base v) (vma_size v))) by lia. cbn [negb].
  destruct (SplitVMA (d ++ v :: r) (length d) (target - vma_base v)) as [[l i]|] eqn:E1; [|done]. cbn [mbind option_bind fst].
  destruct (Z.eqb_spec (target - vma_base v) 0) as [E0|_]; cbn [negb].
  - unfold SplitVMA in E1. rewrite lookup_cut, E0 in E1. cbn [mbind option_bind] in E1. by destruct (0 <? vma_size v).
  - by rewrite (SplitVMA_twice _ _ _ _ _ _ (lookup_cut d v r) E1).
Qed.

(** Nothing stops a process from creating a block of size 0; but mapping it, at any free address at which
    blocks may be mapped and with permissions that are granted, fails an assertion of the address
    space instead of returning an error. *)
Theorem empty_block_map_fails {IS} `{IntervalSetLaws IS} known (s s' : KState IS) (sm : SharedMemory IS) owner ri pid p address
    permissions other_permissions mine theirs :
  CreateSharedMemory owner 0 mine theirs 0 ri s = Some (s', inr sm) →
  sinv known s' → processes s' !! pid = Some p → address_ok sm address →
  0 <= target_of sm address < MAX_ADDRESS → target_of sm address `mod` CITRA_PAGE_SIZE = 0 →
  IsSuccess (map_permissions (is_owner sm s' pid) sm permissions other_permissions) = true →
  attr_at (vma_map (vm_manager p)) (target_of sm address) = Some free_attr →
  SharedMemory_Map sm pid address permissions other_permissions s' = None.
Proof.
  intros Ec Hi Hp Ha Ht Hta Hperm Hf.
  assert (∃ ref, backing_blocks sm = [(ref, 0)] ∧ sm_size sm = 0) as (ref & Eb & Es).
  { unfold CreateSharedMemory, create_linear in Ec. change (0 =? 0) with true in Ec. cbv iota in Ec.
    destruct (k_regions s !! ri); [|done]. cbn [mbind option_bind] in Ec.
    destruct (LinearAllocate 0 _) as [[[off|] r]|]; [|done|done]. cbn [mbind option_bind] in Ec.
    destruct (clear_fcram _ _ _); [|done]. cbn [mbind option_bind] in Ec.
    destruct (GetFCRAMRef off _) as [ref|]; [|done]. cbn [mbind option_bind] in Ec. exists ref.
    destruct owner as [o|]; [destruct (processes _ !! o); [|done]|]; cbn [mbind option_bind] in Ec; by injection Ec as _ <-. }
  destruct (si_vm _ _ Hi pid p Hp) as (Hvm & Hl & _). unfold SharedMemory_Map. fold (is_owner sm s' pid). rewrite Hperm. cbn [negb].
  assert (MAX_ADDRESS < 2 ^ 32 ∧ SHARED_MEMORY_VADDR_END < 2 ^ 32 ∧ 0 < HEAP_VADDR) as (? & ? & ?) by done.
  assert (negb (address =? 0) && ((address <? HEAP_VADDR) || (SHARED_MEMORY_VADDR_END <=? u32 (address + sm_size sm))) = false) as ->.
  { destruct Ha as [->|[Ha1 Ha2]]; [done|]. rewrite Es, Z.add_0_r in *. rewrite u32_id by lia.
    rewrite (proj2 (Z.ltb_ge _ _)), (proj2 (Z.leb_gt _ _)) by lia. by rewrite andb_false_r. }
  rewrite Hp. cbn [mbind option_bind]. rewrite Es, Eb, Z.add_0_r, u32_id by lia. cbn [map_blocks].
  destruct (find_free_area _ _ _ _ Hvm Ht Hf) as (d & v & r & El & -> & Hty & Hv0 & Hv1 & Hv2). cbn [mbind option_bind].
  rewrite El, lookup_cut. cbn [mbind option_bind]. rewrite Hty, bool_decide_eq_true_2, u32_id, (proj2 (Z.ltb_ge _ _)) by (done || lia).
  cbn [negb orb]. unfold map_protected, MapBackingMemory. rewrite Hl. cbn [negb assert_ mbind option_bind].
  destruct (negb (GetPtr ref =? 0)); [|done]. cbn [assert_ mbind option_bind]. by rewrite (CarveVMA_empty _ _ _ _ Hvm Hta Ht Hf).
Qed.

(** ** Examples and witnesses *)

Module Examples.
Import Process.Examples.

(** Two processes with empty address spaces, and the three regions. *)
Definition kdemo : KState seg_set :=
  mkKState {[ 1 := process demo; 2 := process demo ]} ∅ ∅ 0 (memory_regions demo) (memory demo).

(** A block of two pages at the start of FCRAM that process 1 created for everyone to read. *)
Definition font : SharedMemory seg_set := linear_block kdemo (Some 1) 0x2000 MP_ReadWrite MP_Read 0 0.

Lemma kdemo_processes pid p : processes kdemo !! pid = Some p → p = process demo.
Proof.
  unfold kdemo. cbn [processes]. rewrite lookup_insert_Some. intros [[_ <-]|[_ E]]; [done|].
  by apply lookup_singleton_Some in E as [_ <-].
Qed.

Lemma kdemo_inv : sinv only_fcram kdemo.
Proof.
  split; try done. intros pid p Hp. rewrite (kdemo_processes _ _ Hp). split; [apply fresh_inv_any|]. done.
Qed.

Lemma font_ok : block_ok only_fcram font ∧ bytes_distinct font.
Proof.
  destruct (linear_block_ok only_fcram kdemo (Some 1) 0x2000 MP_ReadWrite MP_Read 0 0) as (H1 & H2 & _);
    try done; exact kdemo_inv.
Qed.

Lemma demo_free_at a n : 0 <= a → a + n <= MAX_ADDRESS → range_free (vma_map (vm_manager (process demo))) a n.
Proof. apply VMManager.Examples.fresh_free. Qed.

Lemma shared_map_witness :
  ∃ s', SharedMemory_Map font 2 0 MP_Read MP_DontCare kdemo = Some (s', ResultSuccess).
Proof.
  destruct (shared_map_spec only_fcram only_fcram_separate font 2 (process demo) 0 MP_Read MP_DontCare kdemo)
    as [(_ & _ & _ & vm' & E & _)|[Hno _]].
  - exact kdemo_inv.
  - exact (proj1 font_ok).
  - reflexivity.
  - vm_compute. done.
  - vm_compute. done.
  - lia.
  - by split_and!.
  - eexists. exact E.
  - exfalso. apply Hno. split; [|split; [by left|by apply demo_free_at]].
    apply map_permissions_spec; vm_compute; try done.
Defined.

(** Process 2 may only read the block, and process 1 may write. *)
Lemma demo_map_args (pid address perms : Z) :
  pid = 1 ∧ perms = MP_ReadWrite ∨ pid = 2 ∧ perms = MP_Read → address = 0 ∨ address = 0x10000000 →
  map_args font kdemo pid address perms MP_DontCare (process demo).
Proof.
  intros Hp Ha. split.
  - by destruct Hp as [[-> _]|[-> _]].
  - destruct Hp as [[_ ->]|[_ ->]]; vm_compute; done.
  - apply map_permissions_spec; [destruct Hp as [[_ ->]|[_ ->]]; vm_compute; done|done|done|done|].
    destruct Hp as [[-> ->]|[-> ->]]; vm_compute; done.
  - lia.
  - destruct Ha as [-> | ->]; [by left|right; vm_compute; done].
  - destruct Ha as [-> | ->]; by split_and!.
  - apply demo_free_at; destruct Ha as [-> | ->]; vm_compute; done.
Qed.

Lemma demo_uncached target size : uncached kdemo target size.
Proof. intros a _. unfold page_cached, IsCached. destruct (At _); [|done]. apply bool_decide_eq_false_2. set_solver. Qed.

Lemma demo_hosted : hosted only_fcram (k_memory kdemo).
Proof. intros b ->. split; [set_solver|done]. Qed.

Lemma shared_coherent_witness :
  ∃ s1 s2, SharedMemory_Map font 1 0 MP_ReadWrite MP_DontCare kdemo = Some (s1, ResultSuccess) ∧
           SharedMemory_Map font 2 0x10000000 MP_Read MP_DontCare s1 = Some (s2, ResultSuccess) ∧
           ∃ (q q' : Process seg_set) ms', WriteBlock Memory.Examples.no_cache (process_pages q) (LINEAR_HEAP_VADDR + 0x1FFE) (FromBuffer [7; 8]) 2 (k_memory s2) = Some ms' ∧
             ReadBlock Memory.Examples.no_cache (process_pages q') (0x10000000 + 0x1FFE) 2 ms' = Some (ms', [7; 8]).
Proof.
  destruct (shared_memory_coherent only_fcram only_fcram_separate Memory.Examples.no_cache font kdemo 1 (process demo) 0 MP_ReadWrite
              MP_DontCare 2 (process demo) 0x10000000 MP_Read MP_DontCare) as (s1 & s2 & q & q' & E1 & E2 & _ & _ & _ & Hrw).
  - intros mode h p n. reflexivity.
  - exact kdemo_inv.
  - exact demo_hosted.
  - exact (proj1 font_ok).
  - exact (proj2 font_ok).
  - discriminate.
  - apply demo_map_args; auto.
  - apply demo_map_args; auto.
  - apply demo_uncached.
  - apply demo_uncached.
  - exists s1, s2. split; [exact E1|]. split; [exact E2|]. exists q, q'.
    destruct (Hrw 0x1FFE [7; 8]) as (ms' & Ew & Er); [lia|vm_compute; congruence|repeat (apply Forall_cons_2; [lia|]); apply Forall_nil_2|].
    exists ms'. split; [exact Ew|exact Er].
Defined.

Lemma demo_region_ready : region_ready (whole 0 0x4000000).
Proof. split; [by apply whole_inv|done|done|by apply whole_paged]. Qed.

Lemma shared_linear_witness :
  ∃ s1 sm, CreateSharedMemory (Some 1) 0x2000 MP_ReadWrite MP_Read 0 0 kdemo = Some (s1, inr sm) ∧
           (∀ k, 0 <= k < 0x2000 → host_byte (host (k_memory s1)) (GetPtr (block_ref (backing_blocks sm) k)) = 0).
Proof.
  destruct (shared_linear_lifecycle only_fcram only_fcram_separate kdemo 1 (process demo) 0 0x2000 MP_ReadWrite MP_Read 0
              (whole 0 0x4000000) 2 (process demo) 0x10000000 MP_Read MP_DontCare) as (s1 & sm & E & _ & _ & _ & Hz & _).
  - exact kdemo_inv.
  - reflexivity.
  - reflexivity.
  - exact demo_region_ready.
  - lia.
  - reflexivity.
  - vm_compute. done.
  - vm_compute. done.
  - exists 0. apply demo_free; lia.
  - vm_compute. done.
  - reflexivity.
  - lia.
  - exists s1, sm. split; [exact E|exact Hz].
Defined.

(** Process 1 with two pages of heap. *)
Definition kheap : KState seg_set := put_process 1 (process demo_heap) kdemo.

Lemma kheap_inv : sinv only_fcram kheap.
Proof. apply sinv_put; [exact kdemo_inv|apply (aa_inv _ _ _ _ _ demo_alias)|apply (aa_unlocked _ _ _ _ _ demo_alias)|done]. Qed.

Lemma shared_heap_witness :
  ∃ s1 sm s2, CreateSharedMemory (Some 1) 0x2000 MP_Read MP_ReadWrite HEAP_VADDR 2 kheap = Some (s1, inr sm) ∧
              SharedMemory_destroy sm s1 = Some s2.
Proof.
  destruct (shared_heap_lifecycle only_fcram only_fcram_separate kheap 1 (process demo_heap) 0 0x2000 MP_Read MP_ReadWrite HEAP_VADDR 2)
    as (s1 & sm & _ & s2 & _ & E1 & _ & _ & _ & _ & E2 & _).
  - exact kheap_inv.
  - apply lookup_insert_eq.
  - exact (aa_source _ _ _ _ _ demo_alias).
  - done.
  - lia.
  - vm_compute. done.
  - vm_compute. done.
  - exact (aa_private _ _ _ _ _ demo_alias).
  - reflexivity.
  - lia.
  - exists s1, sm, s2. split; [exact E1|exact E2].
Defined.

Lemma create_refused_witness :
  ∃ s' p', CreateMemoryBlock 1 0x10000000 0x2000 MP_Read MP_Read kdemo = Some (s', inl ResultInvalidAddressState) ∧
           processes s' !! 1 = Some p' ∧ memory_used p' = 0xFFFFE000.
Proof.
  destruct (create_memory_block_refused only_fcram only_fcram_separate kdemo 1 (process demo) 0 0x10000000 0x2000 MP_Read MP_Read)
    as (s' & p' & E & Ep & Em & _).
  - exact kdemo_inv.
  - reflexivity.
  - by split_and!.
  - lia.
  - vm_compute. congruence.
  - vm_compute. congruence.
  - reflexivity.
  - reflexivity.
  - intros [Hb _]. specialize (Hb 0x10000000 ltac:(lia)). rewrite (demo_free_at 0x10000000 1 ltac:(lia) ltac:(vm_compute; congruence) 0x10000000 ltac:(lia)) in Hb. done.
  - reflexivity.
  - lia.
  - exists s', p'. split; [exact E|]. split; [exact Ep|]. rewrite Em. reflexivity.
Defined.

(** Mapping a block of size 0, which the region of process 1 readily provides. *)
Lemma empty_block_witness :
  ∃ s' sm, CreateSharedMemory (Some 1) 0 MP_ReadWrite MP_Read 0 0 kdemo = Some (s', inr sm) ∧
           SharedMemory_Map sm 2 0x10000000 MP_Read MP_DontCare s' = None.
Proof.
  eexists. eexists. split; [reflexivity|].
  eapply (empty_block_map_fails only_fcram kdemo _ _ (Some 1) 0 2 (process demo) 0x10000000 MP_Read MP_DontCare MP_ReadWrite MP_Read).
  - reflexivity.
  - apply (sinv_used only_fcram _ 1 (process demo)); [|reflexivity].
    split; [exact (si_vm _ _ kdemo_inv)|done..].
  - reflexivity.
  - right. vm_compute. done.
  - vm_compute. done.
  - reflexivity.
  - vm_compute. done.
  - apply (demo_free_at 0x10000000 1); vm_compute; done.
Defined.

End Examples.
