(* ===== verification/IPC.v ===== *)
(** * Translation of command buffers
    ([src/src/core/hle/ipc.h]; [src/src/core/hle/kernel/ipc.h], [ipc.cpp])

    A request of a client is a command buffer of up to 64 words in its thread-local storage: a header,
    parameters that are copied as they are, and parameters with descriptors, which the kernel
    translates while it copies the buffer to the thread of the server; the reply goes the other way.
    Handles are given to the receiver, static buffers are copied into memory that the receiver named,
    and mapped buffers are copied into fresh pages of the receiver with a guard page on each side,
    and copied back and unmapped by the reply.

    The theorems: the descriptors say what was put into them; handles arrive as handles of the same
    objects; a mapped buffer arrives with its bytes, comes back with what the receiver made of
    them, and leaves no trace in the address space of the receiver; the loop ends; and where it
    closes too few handles or leaves the buffer. *)

From S2P Require Import Prelude BitField HandleTable IntervalSet MemoryRegion PageTable Memory MemoryCopy VMManager.
From S2P Require Import ResourceLimit Process SharedMemory.

(** ** Headers and descriptors *)

Definition COMMAND_BUFFER_LENGTH : nat := 64.

Inductive DescriptorType : Type := StaticBuffer | PXIBuffer | MappedBuffer | CopyHandle | MoveHandle | CallingPid | OtherDescriptor.

#[export] Instance DescriptorType_eq_dec : EqDecision DescriptorType.
Proof. solve_decision. Defined.

Definition StaticBuffer_bits : Z := 0x02.
Definition PXIBuffer_bits : Z := 0x04.
Definition MappedBuffer_bits : Z := 0x08.
Definition CopyHandle_bits : Z := 0x00.
Definition MoveHandle_bits : Z := 0x10.
Definition CallingPid_bits : Z := 0x20.

Definition MakeHeader (command_id normal_params_size translate_params_size : Z) : Z :=
  Assign 32 0 6 translate_params_size (Assign 32 6 6 normal_params_size (Assign 32 16 16 command_id 0)).
Definition translate_params_size_of (raw : Z) : Z := ExtractValue 32 0 6 raw.
Definition normal_params_size_of (raw : Z) : Z := ExtractValue 32 6 6 raw.
Definition command_id_of (raw : Z) : Z := ExtractValue 32 16 16 raw.

Definition MoveHandleDesc (num_handles : Z) : Z := Z.lor MoveHandle_bits (u32 (Z.shiftl (u32 (num_handles - 1)) 26)).
Definition CopyHandleDesc (num_handles : Z) : Z := Z.lor CopyHandle_bits (u32 (Z.shiftl (u32 (num_handles - 1)) 26)).
Definition CallingPidDesc : Z := CallingPid_bits.
Definition IsHandleDescriptor (descriptor : Z) : bool := Z.land descriptor 0xF =? 0x0.
Definition HandleNumberFromDesc (handle_descriptor : Z) : Z := u32 (Z.shiftr handle_descriptor 26 + 1).

Definition buffer_id_of (raw : Z) : Z := ExtractValue 32 10 4 raw.
Definition static_size_of (raw : Z) : Z := ExtractValue 32 14 18 raw.
Definition StaticBufferDesc (size buffer_id : Z) : Z :=
  Assign 32 14 18 (u32 size) (Assign 32 10 4 buffer_id (Assign 32 0 4 StaticBuffer_bits 0)).

Definition PXIBufferDesc (size buffer_id : Z) (is_read_only : bool) : Z :=
  let type := if is_read_only then Z.lor PXIBuffer_bits 0x2 else PXIBuffer_bits in
  Z.lor (Z.lor type (u32 (Z.shiftl size 8))) (Z.shiftl (Z.land buffer_id 0xF) 4).

Definition MBP_R : Z := 1.
Definition MBP_W : Z := 2.
Definition MBP_RW : Z := Z.lor MBP_R MBP_W.
Definition perms_of (raw : Z) : Z := ExtractValue 32 1 2 raw.
Definition mapped_size_of (raw : Z) : Z := ExtractValue 32 4 28 raw.
Definition MappedBufferDesc (size perms : Z) : Z :=
  Assign 32 4 28 (u32 size) (Assign 32 1 2 perms (Assign 32 0 4 MappedBuffer_bits 0)).

(** The values that are no enumerator ([0x30]) and [PXIBuffer] take the default branch below. *)
Definition GetDescriptorType (descriptor : Z) : DescriptorType :=
  if IsHandleDescriptor descriptor then
    let type := Z.land descriptor 0x30 in
    if type =? CopyHandle_bits then CopyHandle
    else if type =? MoveHandle_bits then MoveHandle
    else if type =? CallingPid_bits then CallingPid
    else OtherDescriptor
  else if negb (Z.land descriptor MappedBuffer_bits =? 0) then MappedBuffer
  else if negb (Z.land descriptor PXIBuffer_bits =? 0) then PXIBuffer
  else StaticBuffer.

(** [Common::AlignUp] and [AlignDown] on [u32]. *)
Definition AlignUp (value size : Z) : Z :=
  let m := value mod size in
  let value := u32 (value - m) in
  if m =? 0 then value else u32 (value + size).
Definition AlignDown (value size : Z) : Z := u32 (value - value mod size).

(** ** Translation *)

Record MappedBufferContext := mkContext {
  mc_permissions : Z;
  mc_size : Z;
  mc_source_address : Z;
  mc_target_address : Z;
  mc_buffer : BackingMem }.

(** One side of a translation: a thread and its process, as objects and by process id. *)
Record Peer := mkPeer { thread_object : Z; process_object : Z; process_id : Z }.

Section Translate.
Context {IS : Type}.
(** The renderer, and where [std::vector] puts a new buffer of some size. *)
Context (rasterizer : FlushMode → Z → Z → gmap Z Z → gmap Z Z).
Context (new_buffer : MemorySystem → Z → Z).
Context (src dst : Peer).
Implicit Types k : KState IS.

(** The kernel, the local copy of the buffer and the vector of contexts. *)
Record TState := mkTState {
  t_kernel : KState IS;
  cmd_buf : list Z;
  mapped_buffer_context : list MappedBufferContext }.
Implicit Types st : TState.

Definition set_kernel k st : TState := mkTState k (cmd_buf st) (mapped_buffer_context st).
Definition set_context (c : list MappedBufferContext) st : TState := mkTState (t_kernel st) (cmd_buf st) c.
(** [cmd_buf[i]] outside the array is undefined. *)
Definition cmd_get (i : nat) st : option Z := cmd_buf st !! i.
Definition cmd_put (i : nat) (v : Z) st : option TState :=
  _ ← cmd_buf st !! i; Some (mkTState (t_kernel st) (<[i := v]> (cmd_buf st)) (mapped_buffer_context st)).

(** The accesses of [MemorySystem] on the memory of a process. *)
Definition read_process (pid address size : Z) k : option (KState IS * list Z) :=
  p ← processes k !! pid;
  '(ms, data) ← ReadBlock rasterizer (process_pages p) address size (k_memory k);
  Some (put_memory ms k, data).
Definition write_process (pid address : Z) (data : list Z) k : option (KState IS) :=
  p ← processes k !! pid;
  ms ← WriteBlock rasterizer (process_pages p) address (FromBuffer data) (Z.of_nat (length data)) (k_memory k);
  Some (put_memory ms k).

(** [std::make_shared<BufferMem>(size)]: a new host block of zeros. *)
Definition make_buffer (size : Z) k : BackingMem * KState IS :=
  let ms := k_memory k in
  let b := mkBacking (new_buffer ms size) size in
  (b, put_memory (mkMemory (fcram_mem ms) (vram_mem ms) (n3ds_extra_ram_mem ms) (dsp_mem ms) (b :: other_mem ms)
                    (host_set (bm_ptr b) (replicate (Z.to_nat size) 0) (host ms))
                    (plugin_fb_address ms) (cache_marker ms) (phys_mem_region_info_cache ms) (gpu_writes ms)) k).

(** *** Handles *)

(** The object behind a handle of the sender, and the closing of a moved one.  The test compares the
    whole descriptor with [MoveHandle]. *)
Definition take_handle (descriptor handle : Z) k : option (KState IS * option Z) :=
  if handle =? CurrentThread then Some (k, Some (thread_object src))
  else if handle =? CurrentProcess then Some (k, Some (process_object src))
  else if negb (handle =? 0) then
    t ← handle_tables k !! process_id src;
    let object := GetGeneric None None handle t in
    if descriptor =? MoveHandle_bits
    then let '(_, t) := Close handle t in Some (put_table (process_id src) t k, object)
    else Some (k, object)
  else Some (k, None).

Definition translate_handle (descriptor : Z) (i : nat) st : option TState :=
  handle ← cmd_get i st;
  '(k, object) ← take_handle descriptor handle (t_kernel st);
  match object with
  | None => cmd_put i 0 (set_kernel k st)
  | Some object =>
      t ← handle_tables k !! process_id dst;
      '(result, t) ← Create (Some object) t;
      match result with
      | inl _ => None
      | inr handle => cmd_put i handle (set_kernel (put_table (process_id dst) t k) st)
      end
  end.

Fixpoint translate_handles (num_handles : nat) (descriptor : Z) (i : nat) st : option TState :=
  match num_handles with
  | O => Some st
  | S num_handles => st ← translate_handle descriptor i st; translate_handles num_handles descriptor (S i) st
  end.

(** *** Static buffers *)

(** The descriptor and the address that the receiver has put behind its command buffer. *)
Definition translate_static (descriptor : Z) (i : nat) (dst_address : Z) st : option TState :=
  static_buffer_src_address ← cmd_get i st;
  '(k, data) ← read_process (process_id src) static_buffer_src_address (static_size_of descriptor) (t_kernel st);
  let static_buffer_offset := u32 (Z.of_nat COMMAND_BUFFER_LENGTH * 4 + 8 * buffer_id_of descriptor) in
  '(k, target_buffer) ← read_process (process_id dst) (u32 (dst_address + static_buffer_offset)) 8 k;
  let target_descriptor := le_value (take 4 target_buffer) in
  let target_address := le_value (drop 4 target_buffer) in
  ASSERT (Z.of_nat (length data) <=? static_size_of target_descriptor) ;;
  k ← write_process (process_id dst) target_address data k;
  cmd_put i target_address (set_kernel k st).

(** *** Mapped buffers *)

(** The predicate of [std::find_if]. *)
Definition matches_buffer (permissions size source_address : Z) (context : MappedBufferContext) : bool :=
  (mc_permissions context =? permissions) && (mc_size context =? size) && (mc_target_address context =? source_address).

(** The state of the area at an address; reading through [end()] is undefined. *)
Definition state_at (vm : VMManager) (address : Z) : option MemoryState :=
  j ← FindVMA (vma_map vm) address; vma ← vma_map vm !! j; Some (meminfo_state vma).

(** The reply to a mapped buffer: what changed goes back, and the pages go away. *)
Definition unmap_buffer (permissions size source_address page_start num_pages : Z) st : option TState :=
  '(n, found) ← list_find (λ c, matches_buffer permissions size source_address c = true) (mapped_buffer_context st);
  let k := t_kernel st in
  k ← (if negb (permissions =? MBP_R) then
         p_dst ← processes k !! process_id dst;
         p_src ← processes k !! process_id src;
         ms ← CopyBlock rasterizer (process_pages p_dst) (process_pages p_src) (mc_source_address found) (mc_target_address found)
                size (k_memory k);
         Some (put_memory ms k)
       else Some k);
  p ← processes k !! process_id src;
  prev ← state_at (vm_manager p) (u32 (page_start - CITRA_PAGE_SIZE));
  next ← state_at (vm_manager p) (u32 (page_start + num_pages * CITRA_PAGE_SIZE));
  ASSERT (bool_decide (prev = StateReserved) && bool_decide (next = StateReserved)) ;;
  '(vm, result) ← UnmapRange (page_cached (k_memory k)) (vm_manager p) (u32 (page_start - CITRA_PAGE_SIZE))
                    (u32 ((num_pages + 2) * CITRA_PAGE_SIZE));
  ASSERT (result =? ResultSuccess) ;;
  Some (set_context (erase n (mapped_buffer_context st)) (set_kernel (put_process (process_id src) (set_vm vm p) k) st)).

(** [ChangeMemoryState] of a guard page. *)
Definition guard_page (ms : MemorySystem) (vm : VMManager) (address : Z) : option VMManager :=
  '(vm, result) ← ChangeMemoryState (page_cached ms) vm address CITRA_PAGE_SIZE StateShared PermReadWrite StateReserved PermNone;
  ASSERT (result =? ResultSuccess) ;;
  Some vm.

(** The request: a copy of the buffer between two guard pages of the receiver. *)
Definition map_buffer (permissions size source_address page_offset num_pages : Z) (i : nat) st : option TState :=
  let '(buffer, k) := make_buffer (u32 ((num_pages + 2) * CITRA_PAGE_SIZE)) (t_kernel st) in
  '(k, data) ← read_process (process_id src) source_address size k;
  ms ← store_bytes (k_memory k) (bm_ptr buffer + CITRA_PAGE_SIZE + page_offset) data;
  p ← processes k !! process_id dst;
  '(vm, target) ← MapBackingMemoryToBase (page_cached ms) (vm_manager p) IPC_MAPPING_VADDR IPC_MAPPING_SIZE
                    (mkRef (Some buffer) 0) (bm_size buffer) StateShared;
  match target with
  | inl _ => None
  | inr target_address =>
      vm ← guard_page ms vm target_address;
      vm ← guard_page ms vm (u32 (target_address + bm_size buffer - CITRA_PAGE_SIZE));
      let target_address := u32 (target_address + CITRA_PAGE_SIZE) in
      let st := set_kernel (put_process (process_id dst) (set_vm vm p) (put_memory ms k)) st in
      st ← cmd_put i (u32 (target_address + page_offset)) st;
      Some (set_context (mapped_buffer_context st ++
              [mkContext permissions size source_address (u32 (target_address + page_offset)) buffer]) st)
  end.

Definition translate_mapped (reply : bool) (descriptor : Z) (i : nat) st : option TState :=
  source_address ← cmd_get i st;
  let size := mapped_size_of descriptor in
  let permissions := perms_of descriptor in
  let page_start := AlignDown source_address CITRA_PAGE_SIZE in
  let page_offset := u32 (source_address - page_start) in
  let num_pages := Z.shiftr (AlignUp (u32 (page_offset + size)) CITRA_PAGE_SIZE) CITRA_PAGE_BITS in
  if size =? 0 then cmd_put i 0 st
  else
    ASSERT (1 <=? num_pages) ;;
    if reply then unmap_buffer permissions size source_address page_start num_pages st
    else map_buffer permissions size source_address page_offset num_pages i st.

(** *** The loop *)

(** One round from a descriptor at [i - 1]: the new index, or the error with which the function
    returns.  An unknown descriptor is only logged. *)
Definition translate_step (reply : bool) (dst_address : Z) (command_size : nat) (descriptor : Z) (i : nat) st
  : option (TState * (Z + nat)) :=
  match GetDescriptorType descriptor with
  | CopyHandle | MoveHandle =>
      let num_handles := Z.to_nat (HandleNumberFromDesc descriptor) in
      if (command_size <? i + num_handles)%nat then Some (st, inl ResultCommandTooLarge)
      else st ← translate_handles num_handles descriptor i st; Some (st, inr (i + num_handles)%nat)
  | CallingPid => st ← cmd_put i (process_id src) st; Some (st, inr (S i))
  | StaticBuffer => st ← translate_static descriptor i dst_address st; Some (st, inr (S i))
  | MappedBuffer => st ← translate_mapped reply descriptor i st; Some (st, inr (S i))
  | PXIBuffer | OtherDescriptor => Some (st, inr i)
  end.

Fixpoint translate_loop (fuel : nat) (reply : bool) (dst_address : Z) (command_size i : nat) st : option (TState * Z) :=
  if (i <? command_size)%nat then
    match fuel with
    | O => None
    | S fuel =>
        descriptor ← cmd_get i st;
        '(st, next) ← translate_step reply dst_address command_size descriptor (S i) st;
        match next with
        | inl result => Some (st, result)
        | inr i => translate_loop fuel reply dst_address command_size i st
        end
    end
  else Some (st, ResultSuccess).

(** Words and bytes. *)
Fixpoint words_of (bytes : list Z) (n : nat) : list Z :=
  match n with
  | O => []
  | S n => le_value (take 4 bytes) :: words_of (drop 4 bytes) n
  end.
Definition bytes_of (words : list Z) : list Z := mjoin (le_bytes 4 <$> words).

(** [TranslateCommandBuffer]; [stack] is what the array of 64 words held before.  The recorder of the
    debugger only watches. *)
Definition TranslateCommandBuffer (stack : list Z) (src_address dst_address : Z) (context : list MappedBufferContext)
    (reply : bool) k : option (KState IS * list MappedBufferContext * Z) :=
  '(k, raw) ← read_process (process_id src) src_address 4 k;
  let header := le_value raw in
  let untranslated_size := Z.to_nat (1 + normal_params_size_of header) in
  let command_size := (untranslated_size + Z.to_nat (translate_params_size_of header))%nat in
  ASSERT (command_size <=? COMMAND_BUFFER_LENGTH)%nat ;;
  '(k, data) ← read_process (process_id src) src_address (Z.of_nat command_size * 4) k;
  let st := mkTState k (words_of data command_size ++ drop command_size stack) context in
  '(st, result) ← translate_loop (command_size - untranslated_size) reply dst_address command_size untranslated_size st;
  if negb (IsSuccess result) then Some (t_kernel st, mapped_buffer_context st, result)
  else
    k ← write_process (process_id dst) dst_address (bytes_of (take command_size (cmd_buf st))) (t_kernel st);
    Some (k, mapped_buffer_context st, ResultSuccess).

End Translate.
Arguments mkTState {IS} _ _ _.
Arguments t_kernel {IS} _.
Arguments cmd_buf {IS} _.
Arguments mapped_buffer_context {IS} _.

(** ** Words and bytes: proofs *)

Lemma words_of_length bytes n : length (words_of bytes n) = n.
Proof. revert bytes. induction n as [|n IH]; intros bytes; simpl; [done|]. by rewrite IH. Qed.

Lemma le_bytes_value l : Forall (λ x, 0 <= x < 2 ^ 8) l → le_bytes (length l) (le_value l) = l.
Proof.
  induction 1 as [|x l Hx Hl IH]; [done|]. cbn [le_value length le_bytes].
  assert ((x + 2 ^ 8 * le_value l) `mod` 2 ^ 8 = x) as E1.
  { rewrite Z.mul_comm, Z.mod_add by lia. by apply Z.mod_small. }
  assert ((x + 2 ^ 8 * le_value l) / 2 ^ 8 = le_value l) as E2.
  { rewrite Z.mul_comm, Z.div_add, Z.div_small by lia. lia. }
  by rewrite E1, E2, IH.
Qed.

Lemma bytes_of_words n data :
  length data = (4 * n)%nat → Forall (λ x, 0 <= x < 2 ^ 8) data → bytes_of (words_of data n) = data.
Proof.
  revert data. induction n as [|n IH]; intros data Hl Hb; [by destruct data|].
  unfold bytes_of. cbn [words_of fmap list_fmap mjoin list_join].
  change (mjoin (le_bytes 4 <$> words_of (drop 4 data) n)) with (bytes_of (words_of (drop 4 data) n)).
  rewrite IH; [|rewrite length_drop; lia|by apply Forall_drop].
  assert (length (take 4 data) = 4%nat) as E by (rewrite length_take; lia).
  rewrite <- E at 1. rewrite le_bytes_value by (by apply Forall_take). apply take_drop.
Qed.

Lemma bytes_of_length ws : length (bytes_of ws) = (4 * length ws)%nat.
Proof.
  induction ws as [|w ws IH]; [done|]. unfold bytes_of. cbn [fmap list_fmap mjoin list_join length].
  change (mjoin (le_bytes 4 <$> ws)) with (bytes_of ws). rewrite length_app, le_bytes_length, IH. lia.
Qed.

Lemma le_bytes_range n v : Forall (λ x, 0 <= x < 2 ^ 8) (le_bytes n v).
Proof. revert v. induction n as [|n IH]; intros v; constructor; [by apply Z.mod_pos_bound|apply IH]. Qed.

Lemma bytes_of_range ws : Forall (λ x, 0 <= x < 2 ^ 8) (bytes_of ws).
Proof.
  induction ws as [|w ws IH]; [constructor|]. unfold bytes_of. cbn [fmap list_fmap mjoin list_join]. apply Forall_app.
  split; [|exact IH]. apply le_bytes_range.
Qed.

(** ** Descriptors: proofs *)

(** The type depends on the low bits only. *)
Lemma land_low x m n : 0 <= n → 0 <= m < 2 ^ n → Z.land (x `mod` 2 ^ n) m = Z.land x m.
Proof.
  intros Hn Hm. rewrite <- Z.land_ones, <- Z.land_assoc by done. f_equal.
  rewrite Z.land_comm, Z.land_ones by done. by apply Z.mod_small.
Qed.

Lemma GetDescriptorType_low d : GetDescriptorType (d `mod` 2 ^ 6) = GetDescriptorType d.
Proof.
  unfold GetDescriptorType, IsHandleDescriptor, MappedBuffer_bits, PXIBuffer_bits. by rewrite !land_low.
Qed.

Lemma GetDescriptorType_nibble d n :
  ExtractValue 32 0 4 d = n → 0 < n < 16 →
  GetDescriptorType d = if 8 <=? n then MappedBuffer else if 4 <=? n `mod` 8 then PXIBuffer else StaticBuffer.
Proof.
  intros E Hn. rewrite ExtractValue_spec, Z.shiftr_0_r in E by lia. unfold GetDescriptorType, IsHandleDescriptor.
  rewrite <- (land_low d 15 4), <- (land_low d MappedBuffer_bits 4), <- (land_low d PXIBuffer_bits 4), E by done.
  assert (n ∈ Z.of_nat <$> seq 1 15) as Hin.
  { apply list_elem_of_fmap. exists (Z.to_nat n). split; [lia|]. apply elem_of_seq. lia. }
  clear -Hin. repeat (apply elem_of_cons in Hin as [->|Hin]; [reflexivity|]). by apply elem_of_nil in Hin.
Qed.

Lemma Assign_range p b v s : 0 <= p → 0 < b → p + b <= 32 → 0 <= s < 2 ^ 32 → 0 <= Assign 32 p b v s < 2 ^ 32.
Proof.
  intros Hp Hb Hpb Hs. assert (Assign 32 p b v s = Assign 32 p b v s `mod` 2 ^ 32) as ->; [|by apply Z.mod_pos_bound].
  apply Z.bits_inj'. intros i Hi. rewrite mod_pow2_testbit by lia. rewrite Assign_testbit by lia.
  destruct (Z.ltb_spec i 32); [done|]. rewrite (proj2 (in_range_false _ _ _)) by lia.
  rewrite <- (Z.mod_small s (2 ^ 32)) by done. rewrite mod_pow2_testbit by lia. by destruct (Z.ltb_spec i 32); [lia|].
Qed.

Ltac field_of :=
  let side := (repeat (apply Assign_range; [lia..|]); lia) in
  repeat first [rewrite ExtractValue_Assign_other by side | rewrite ExtractValue_Assign by side]; rewrite ?Z.mod_small by lia.

(** A table of all handle counts. *)
Definition handle_desc_ok (n : Z) : bool :=
  bool_decide (GetDescriptorType (MoveHandleDesc n) = MoveHandle) && (HandleNumberFromDesc (MoveHandleDesc n) =? n) &&
  bool_decide (GetDescriptorType (CopyHandleDesc n) = CopyHandle) && (HandleNumberFromDesc (CopyHandleDesc n) =? n).

Lemma handle_descs_ok n : 1 <= n <= 64 → handle_desc_ok n = true.
Proof.
  intros Hn. assert (forallb handle_desc_ok (Z.of_nat <$> seq 1 64) = true) as Hall by (vm_compute; done).
  rewrite forallb_forall in Hall. apply Hall, list_elem_of_In, list_elem_of_fmap. exists (Z.to_nat n).
  split; [lia|]. apply elem_of_seq. lia.
Qed.

Lemma header_fields id normal translate :
  0 <= id < 2 ^ 16 → 0 <= normal < 2 ^ 6 → 0 <= translate < 2 ^ 6 →
  command_id_of (MakeHeader id normal translate) = id ∧ normal_params_size_of (MakeHeader id normal translate) = normal ∧
  translate_params_size_of (MakeHeader id normal translate) = translate.
Proof.
  intros Hi Hn Ht. unfold command_id_of, normal_params_size_of, translate_params_size_of, MakeHeader. split_and!; field_of; done.
Qed.

Lemma static_desc_fields size id :
  0 <= size < 2 ^ 18 → 0 <= id < 2 ^ 4 →
  GetDescriptorType (StaticBufferDesc size id) = StaticBuffer ∧ static_size_of (StaticBufferDesc size id) = size ∧
  buffer_id_of (StaticBufferDesc size id) = id.
Proof.
  intros Hs Hi. unfold static_size_of, buffer_id_of, StaticBufferDesc. rewrite u32_id by lia.
  split; [|split; field_of; done]. rewrite (GetDescriptorType_nibble _ 2); [done| |done]. field_of. done.
Qed.

Lemma mapped_desc_fields size perms :
  0 <= size < 2 ^ 28 → 0 <= perms < 4 →
  GetDescriptorType (MappedBufferDesc size perms) = MappedBuffer ∧ mapped_size_of (MappedBufferDesc size perms) = size ∧
  perms_of (MappedBufferDesc size perms) = perms.
Proof.
  intros Hs Hp. unfold mapped_size_of, perms_of, MappedBufferDesc. rewrite u32_id by lia.
  split; [|split; field_of; done].
  assert (perms ∈ [0; 1; 2; 3]) as Hin by (set_unfold; lia).
  repeat (apply elem_of_cons in Hin as [->|Hin]; [erewrite GetDescriptorType_nibble; [|field_of; reflexivity|done]; done|]).
  by apply elem_of_nil in Hin.
Qed.

(** A word built by one of the functions of [ipc.h] says what was put into it: its kind, and the count
    of handles, the buffer id, the size and the permissions, for every value that fits the fields.
    The same holds for the three parts of a header. *)
Theorem descriptors_roundtrip :
  (∀ id normal translate, 0 <= id < 2 ^ 16 → 0 <= normal < 2 ^ 6 → 0 <= translate < 2 ^ 6 →
     command_id_of (MakeHeader id normal translate) = id ∧ normal_params_size_of (MakeHeader id normal translate) = normal ∧
     translate_params_size_of (MakeHeader id normal translate) = translate) ∧
  (∀ n, 1 <= n <= 64 →
     GetDescriptorType (MoveHandleDesc n) = MoveHandle ∧ HandleNumberFromDesc (MoveHandleDesc n) = n ∧
     GetDescriptorType (CopyHandleDesc n) = CopyHandle ∧ HandleNumberFromDesc (CopyHandleDesc n) = n) ∧
  GetDescriptorType CallingPidDesc = CallingPid ∧
  (∀ size id, 0 <= size < 2 ^ 18 → 0 <= id < 2 ^ 4 →
     GetDescriptorType (StaticBufferDesc size id) = StaticBuffer ∧ static_size_of (StaticBufferDesc size id) = size ∧
     buffer_id_of (StaticBufferDesc size id) = id) ∧
  (∀ size perms, 0 <= size < 2 ^ 28 → 0 <= perms < 4 →
     GetDescriptorType (MappedBufferDesc size perms) = MappedBuffer ∧ mapped_size_of (MappedBufferDesc size perms) = size ∧
     perms_of (MappedBufferDesc size perms) = perms) ∧
  (∀ size id ro, 0 <= size < 2 ^ 24 → 0 <= id < 2 ^ 4 → GetDescriptorType (PXIBufferDesc size id ro) = PXIBuffer).
Proof.
  split; [|split; [|split; [done|split; [|split]]]].
  - exact header_fields.
  - intros n Hn. pose proof (handle_descs_ok n Hn) as H. unfold handle_desc_ok in H. destruct_bools.
    split_and!; (done || by apply Z.eqb_eq).
  - exact static_desc_fields.
  - exact mapped_desc_fields.
  - intros size id ro Hs Hi. unfold PXIBufferDesc. rewrite u32_id by (rewrite Z.shiftl_mul_pow2 by lia; lia).
    set (type := if ro then _ else _). rewrite (GetDescriptorType_nibble _ type); [by destruct ro| |by destruct ro].
    rewrite ExtractValue_spec, Z.shiftr_0_r, <- Z.land_ones, !Z.land_lor_distr_l by lia.
    rewrite !Z.land_ones, (Z.shiftl_mul_pow2 size), (Z.shiftl_mul_pow2 (Z.land _ _)) by lia.
    change (2 ^ 8) with (2 ^ 4 * 2 ^ 4). rewrite Z.mul_assoc, !Z.mod_mul, !Z.lor_0_r by lia. by destruct ro.
Qed.

(** ** Handles *)

Section Handles.
Context {IS : Type} (src dst : Peer) (Hne : process_id src ≠ process_id dst).
Implicit Types (st : TState (IS := IS)) (ms md : gmap Z Z).

(** The object that a word of the sender stands for, in the table [ms] of the sender. *)
Definition is_pseudo (h : Z) : bool := (h =? CurrentThread) || (h =? CurrentProcess) || (h =? 0).
Definition sent_object ms (h : Z) : option Z :=
  if h =? CurrentThread then Some (thread_object src)
  else if h =? CurrentProcess then Some (process_object src)
  else if h =? 0 then None
  else ms !! canonical h.
(** The table of the sender after it sent the word. *)
Definition table_after (descriptor h : Z) ms : gmap Z Z :=
  if (descriptor =? MoveHandle_bits) && negb (is_pseudo h) then delete (canonical h) ms else ms.

(** The word [w] of the sender arrived as [w']: a new handle of the receiver for the same object, or 0. *)
Definition arrived ms md md' (w w' : Z) : Prop :=
  match sent_object ms w with
  | None => w' = 0
  | Some o => w' ≠ 0 ∧ md !! w' = None ∧ md' !! w' = Some o
  end.

(** The state of a translation with the two tables. *)
Definition has_tables st (ts td : HandleTable Z) ms md : Prop :=
  handle_tables (t_kernel st) !! process_id src = Some ts ∧ table_rep ts ms ∧
  handle_tables (t_kernel st) !! process_id dst = Some td ∧ table_rep td md.

Lemma put_table_same (k : KState IS) pid t : handle_tables k !! pid = Some t → put_table pid t k = k.
Proof. intros E. unfold put_table. rewrite insert_id by done. by destruct k. Qed.

Lemma take_handle_ok descriptor h k ts ms :
  handle_tables k !! process_id src = Some ts → table_rep ts ms →
  ∃ ts', take_handle (IS := IS) src descriptor h k = Some (put_table (process_id src) ts' k, sent_object ms h) ∧
    table_rep ts' (table_after descriptor h ms) ∧ (descriptor ≠ MoveHandle_bits → ts' = ts).
Proof.
  intros Ht Hrep. unfold take_handle, sent_object, table_after, is_pseudo.
  pose proof (put_table_same k _ _ Ht) as Esame.
  destruct (Z.eqb_spec h CurrentThread) as [->|H1]; [exists ts; rewrite Esame, andb_false_r; done|].
  destruct (Z.eqb_spec h CurrentProcess) as [->|H2]; [exists ts; rewrite Esame, andb_false_r; done|].
  destruct (Z.eqb_spec h 0) as [->|H3]; cbn [orb negb]; [exists ts; rewrite Esame, andb_false_r; done|].
  rewrite Ht. cbn [mbind option_bind]. rewrite (GetGeneric_rep _ _ ts ms) by done. rewrite andb_true_r.
  destruct (Z.eqb_spec descriptor MoveHandle_bits) as [->|Hd].
  - pose proof (Close_rep ts ms h Hrep) as Hc. destruct (Close h ts) as [r ts']. by exists ts'.
  - exists ts. by rewrite Esame.
Qed.

(** One handle. *)
Lemma translate_handle_ok descriptor i st ts td ms md w :
  has_tables st ts td ms md → cmd_buf st !! i = Some w → (0 < free_slots td)%nat →
  ∃ st' ts' td' md' w', translate_handle src dst descriptor i st = Some st' ∧
    has_tables st' ts' td' (table_after descriptor w ms) md' ∧ (descriptor ≠ MoveHandle_bits → ts' = ts) ∧
    (free_slots td <= S (free_slots td'))%nat ∧ md ⊆ md' ∧ arrived ms md md' w w' ∧
    cmd_buf st' = <[i := w']> (cmd_buf st) ∧ mapped_buffer_context st' = mapped_buffer_context st ∧
    t_kernel st' = put_table (process_id dst) td' (put_table (process_id src) ts' (t_kernel st)).
Proof.
  intros (Hs & Hrs & Hd & Hrd) Hw Hf. unfold translate_handle, cmd_get. rewrite Hw. cbn [mbind option_bind].
  destruct (take_handle_ok descriptor w (t_kernel st) ts ms Hs Hrs) as (ts' & -> & Hrs' & Hsame). cbn [mbind option_bind].
  unfold arrived. destruct (sent_object ms w) as [o|] eqn:Eo.
  - cbn [handle_tables put_table]. rewrite lookup_insert_ne, Hd by done. cbn [mbind option_bind].
    destruct (Create_room td md o Hrd Hf) as (h & td' & -> & Hh & Hrd' & _ & Hpos & Hslots). cbn [mbind option_bind].
    unfold cmd_put. cbn [cmd_buf set_kernel]. rewrite Hw. cbn [mbind option_bind].
    eexists _, ts', td', _, h. split; [done|]. split.
    { split; [|split; [exact Hrs'|split; [|exact Hrd']]]; cbn [t_kernel handle_tables put_table set_kernel].
      - rewrite lookup_insert_ne by done. apply lookup_insert_eq.
      - apply lookup_insert_eq. }
    split; [done|]. split; [lia|]. split; [by apply insert_subseteq|]. split; [|done].
    split_and!; [lia|done|apply lookup_insert_eq].
  - unfold cmd_put. cbn [cmd_buf set_kernel]. rewrite Hw. cbn [mbind option_bind].
    eexists _, ts', td, md, 0. split; [done|]. split.
    { split; [|split; [exact Hrs'|split; [|exact Hrd]]]; cbn [t_kernel handle_tables put_table set_kernel];
        [apply lookup_insert_eq|by rewrite lookup_insert_ne]. }
    split; [done|]. split; [lia|]. split; [done|]. split; [done|]. split; [done|]. split; [done|].
    symmetry. apply put_table_same. cbn [handle_tables put_table t_kernel set_kernel]. by rewrite lookup_insert_ne.
Qed.

Lemma arrived_mono ms md md1 md2 w w' : md1 ⊆ md2 → arrived ms md md1 w w' → arrived ms md md2 w w'.
Proof.
  unfold arrived. destruct (sent_object ms w); [|done]. intros Hsub (? & ? & E). split_and!; try done.
  by eapply lookup_weaken.
Qed.
Lemma arrived_later ms md0 md md' w w' : md0 ⊆ md → arrived ms md md' w w' → arrived ms md0 md' w w'.
Proof.
  unfold arrived. destruct (sent_object ms w); [|done]. intros Hsub (? & E & ?). split_and!; try done.
  by eapply lookup_weaken_None.
Qed.

(** Several handles that are not closed. *)
Lemma translate_handles_copy n descriptor i st ts td ms md :
  has_tables st ts td ms md → descriptor ≠ MoveHandle_bits → (i + n <= length (cmd_buf st))%nat → (n <= free_slots td)%nat →
  ∃ st' td' md', translate_handles src dst n descriptor i st = Some st' ∧
    has_tables st' ts td' ms md' ∧ md ⊆ md' ∧ length (cmd_buf st') = length (cmd_buf st) ∧
    (∀ j, ~ (i <= j < i + n)%nat → cmd_buf st' !! j = cmd_buf st !! j) ∧
    (∀ j w, (i <= j < i + n)%nat → cmd_buf st !! j = Some w → ∃ w', cmd_buf st' !! j = Some w' ∧ arrived ms md md' w w') ∧
    (∀ j j' w, (i <= j < i + n)%nat → (i <= j' < i + n)%nat → w ≠ 0 →
       cmd_buf st' !! j = Some w → cmd_buf st' !! j' = Some w → j = j') ∧
    mapped_buffer_context st' = mapped_buffer_context st ∧
    t_kernel st' = put_table (process_id dst) td' (t_kernel st).
Proof.
  revert i st td md. induction n as [|n IH]; intros i st td md Ht Hd Hlen Hf; cbn [translate_handles].
  - exists st, td, md. split; [done|]. split; [done|]. split; [done|]. split; [done|]. split; [done|].
    split; [intros j w Hj; lia|]. split; [intros j j' w Hj; lia|]. split; [done|]. symmetry. apply put_table_same, Ht.
  - destruct (lookup_lt_is_Some_2 (cmd_buf st) i ltac:(lia)) as [w Hw].
    destruct (translate_handle_ok descriptor i st ts td ms md w Ht Hw ltac:(lia))
      as (st1 & ts1 & td1 & md1 & w1 & -> & Ht1 & Hsame & Hf1 & Hsub1 & Harr1 & Eb1 & Ec1 & Ek1).
    rewrite (Hsame Hd) in Ht1, Ek1. unfold table_after in Ht1. rewrite (proj2 (Z.eqb_neq _ _) Hd) in Ht1. cbn [andb] in Ht1.
    rewrite (put_table_same (t_kernel st)) in Ek1 by apply Ht. cbn [mbind option_bind].
    destruct (IH (S i) st1 td1 md1 Ht1 Hd) as (st2 & td2 & md2 & -> & Ht2 & Hsub2 & Hl2 & Ho2 & Ha2 & Hd2 & Ec2 & Ek2);
      [rewrite Eb1, length_insert; lia|lia|].
    assert (cmd_buf st2 !! i = Some w1) as Hi by (rewrite Ho2 by lia; rewrite Eb1; apply list_lookup_insert_eq; lia).
    exists st2, td2, md2. split; [done|]. split; [done|]. split; [by etrans|]. split; [rewrite Hl2, Eb1; apply length_insert|].
    split; [|split; [|split; [|split]]].
    + intros j Hj. rewrite Ho2, Eb1 by lia. apply list_lookup_insert_ne. lia.
    + intros j w' Hj Hw'. destruct (decide (j = i)) as [->|Hji].
      * simplify_eq. exists w1. split; [done|]. by eapply arrived_mono.
      * destruct (Ha2 j w' ltac:(lia)) as (w2 & Hw2 & Harr2); [rewrite Eb1, list_lookup_insert_ne by done; done|].
        exists w2. split; [done|]. by eapply arrived_later.
    + assert (∀ j w', (S i <= j < S i + n)%nat → w' ≠ 0 → cmd_buf st2 !! j = Some w' → w' ≠ w1) as Hfresh.
      { intros j w' Hj Hnz Hjw ->. destruct (lookup_lt_is_Some_2 (cmd_buf st1) j) as [v Hv]; [rewrite Eb1, length_insert; lia|].
        destruct (Ha2 j v Hj Hv) as (w2 & Hw2 & Harr2). simplify_eq. unfold arrived in Harr1, Harr2.
        destruct (sent_object ms v) as [o|]; [|done]. destruct Harr2 as (_ & Hnone & _).
        destruct (sent_object ms w) as [o'|]; [|done]. destruct Harr1 as (_ & _ & Hsome). congruence. }
      intros j j' w' Hj Hj' Hnz Hjw Hjw'. destruct (decide (j = i)) as [->|Hji], (decide (j' = i)) as [->|Hji']; [done| | |].
      * exfalso. apply (Hfresh j' w'); (done || lia || congruence).
      * exfalso. apply (Hfresh j w'); (done || lia || congruence).
      * apply (Hd2 j j' w'); (done || lia).
    + congruence.
    + rewrite Ek2, Ek1. unfold put_table. cbn. by rewrite insert_insert_eq.
Qed.

End Handles.

Definition handle_desc (move : bool) (n : Z) : Z := if move then MoveHandleDesc n else CopyHandleDesc n.

Lemma handle_desc_facts move n :
  1 <= n <= 64 →
  (GetDescriptorType (handle_desc move n) = if move then MoveHandle else CopyHandle) ∧
  HandleNumberFromDesc (handle_desc move n) = n ∧
  (handle_desc move n =? MoveHandle_bits) = move && (n =? 1).
Proof.
  intros Hn. pose proof (handle_descs_ok n Hn) as H. unfold handle_desc_ok in H. destruct_bools. rewrite !Z.eqb_eq in *.
  assert (forallb (λ n, bool_decide (MoveHandleDesc n = MoveHandle_bits ↔ n = 1) && bool_decide (CopyHandleDesc n ≠ MoveHandle_bits))
            (Z.of_nat <$> seq 1 64) = true) as Hall by (vm_compute; done).
  rewrite forallb_forall in Hall. specialize (Hall n). destruct_bools.
  assert (In n (Z.of_nat <$> seq 1 64)) as Hin.
  { apply list_elem_of_In, list_elem_of_fmap. exists (Z.to_nat n). split; [lia|]. apply elem_of_seq. lia. }
  apply Hall in Hin. destruct_bools. unfold handle_desc. destruct move; (split; [done|split; [done|]]); cbn [andb].
  - apply Bool.eq_iff_eq_true. rewrite !Z.eqb_eq. done.
  - by apply Z.eqb_neq.
Qed.

(** C17: Handles arrive.  For a descriptor of [n] handles that are copied or moved, with the words in the buffer
    and room in the table of the receiver, the translation succeeds: every valid handle of the
    sender, and each of the two pseudo handles, is replaced by a handle of the receiver that was
    not open, is different from the other new ones and stands for the same object; every other
    word becomes 0; and the handles the receiver had stay as they are.  The sender loses a moved handle
    only when it moves exactly one: of two or more moved handles it keeps all. *)
Theorem handles_arrive {IS} (src dst : Peer) rasterizer new_buffer reply dst_address command_size (move : bool) (n : Z) i
    (st : TState (IS := IS)) ts td ms md :
  process_id src ≠ process_id dst → has_tables src dst st ts td ms md → 1 <= n <= 64 →
  (i + Z.to_nat n <= command_size)%nat → (command_size <= length (cmd_buf st))%nat → (Z.to_nat n <= free_slots td)%nat →
  ∃ st' ts' td' md',
    translate_step rasterizer new_buffer src dst reply dst_address command_size (handle_desc move n) i st =
      Some (st', inr (i + Z.to_nat n)%nat) ∧
    (∀ j w, (i <= j < i + Z.to_nat n)%nat → cmd_buf st !! j = Some w →
       ∃ w', cmd_buf st' !! j = Some w' ∧ arrived src ms md md' w w') ∧
    (∀ j j' w, (i <= j < i + Z.to_nat n)%nat → (i <= j' < i + Z.to_nat n)%nat → w ≠ 0 →
       cmd_buf st' !! j = Some w → cmd_buf st' !! j' = Some w → j = j') ∧
    (∀ j, ~ (i <= j < i + Z.to_nat n)%nat → cmd_buf st' !! j = cmd_buf st !! j) ∧
    md ⊆ md' ∧
    (if move && (n =? 1)
     then ∀ w, cmd_buf st !! i = Some w → has_tables src dst st' ts' td' (if is_pseudo w then ms else delete (canonical w) ms) md'
     else has_tables src dst st' ts td' ms md').
Proof.
  intros Hne Ht Hn Hfit Hlen Hroom. destruct (handle_desc_facts move n Hn) as (Etype & Enum & Emove).
  set (descriptor := handle_desc move n) in *. unfold translate_step. rewrite Etype, Enum.
  rewrite (proj2 (Nat.ltb_ge command_size _)) by done.
  destruct (move && (n =? 1)) eqn:Eone.
  - apply andb_true_iff in Eone as [-> ->%Z.eqb_eq]. change (Z.to_nat 1) with 1%nat in *. cbn [translate_handles].
    destruct (lookup_lt_is_Some_2 (cmd_buf st) i ltac:(lia)) as [w Hw]. apply Z.eqb_eq in Emove.
    destruct (translate_handle_ok src dst Hne descriptor i st ts td ms md w Ht Hw ltac:(lia))
      as (st1 & ts1 & td1 & md1 & w1 & -> & Ht1 & _ & _ & Hsub & Harr & Eb & _). cbn [mbind option_bind].
    exists st1, ts1, td1, md1. split; [done|]. split; [|split; [intros; lia|split; [|split; [done|]]]].
    + intros j v Hj Hv. assert (j = i) as -> by lia. simplify_eq. exists w1. split; [|done]. rewrite Eb. apply list_lookup_insert_eq. lia.
    + intros j Hj. rewrite Eb. apply list_lookup_insert_ne. lia.
    + intros v Hv. rewrite Hw in Hv. injection Hv as <-. unfold table_after in Ht1. rewrite Emove, Z.eqb_refl in Ht1. cbn [andb] in Ht1.
      by destruct (is_pseudo w).
  - apply Z.eqb_neq in Emove.
    destruct (translate_handles_copy src dst Hne (Z.to_nat n) descriptor i st ts td ms md Ht Emove ltac:(lia) Hroom)
      as (st' & td' & md' & E & Ht' & Hsub & _ & Ho & Ha & Hd & _). rewrite E. cbn [mbind option_bind].
    exists st', ts, td', md'. split; [by destruct move|]. done.
Qed.

(** Every round of the loop moves the index on, so that a round for every word of the command is enough:
    more fuel changes nothing. *)
Lemma translate_step_advances {IS} rasterizer new_buffer src dst reply dst_address command_size descriptor i
    (st st' : TState (IS := IS)) j :
  translate_step rasterizer new_buffer src dst reply dst_address command_size descriptor i st = Some (st', inr j) → (i <= j)%nat.
Proof.
  unfold translate_step. intros E. destruct (GetDescriptorType descriptor);
    repeat match type of E with
    | (if ?b then _ else _) = _ => destruct b; [done|]
    | (_ ≫= _) = Some _ => apply bind_Some in E as (? & _ & E)
    end; injection E as _ <-; lia.
Qed.

Theorem translate_loop_terminates {IS} rasterizer new_buffer src dst reply dst_address command_size i fuel
    (st : TState (IS := IS)) :
  (command_size - i <= fuel)%nat →
  translate_loop rasterizer new_buffer src dst fuel reply dst_address command_size i st =
  translate_loop rasterizer new_buffer src dst (command_size - i) reply dst_address command_size i st.
Proof.
  remember (command_size - i)%nat as m eqn:Em. revert i fuel st Em.
  induction (lt_wf m) as [m _ IH]. intros i fuel st Em Hf. destruct fuel as [|fuel], m as [|m]; [done|lia| |].
  - cbn [translate_loop]. by rewrite (proj2 (Nat.ltb_ge i command_size)) by lia.
  - cbn [translate_loop]. rewrite (proj2 (Nat.ltb_lt i command_size)) by lia. destruct (cmd_get i st) as [d|]; [|done].
    cbn [mbind option_bind]. destruct (translate_step _ _ _ _ _ _ _ d (S i) st) as [[st' [e|j]]|] eqn:E; [done| |done].
    cbn [mbind option_bind]. apply translate_step_advances in E.
    rewrite (IH (command_size - j)%nat ltac:(lia) j fuel st') by lia. symmetry. by apply IH; lia.
Qed.

(** A command of the full 64 words whose last word is a descriptor with a parameter reads or writes the
    word behind the array. *)
Theorem translate_runs_off_the_buffer {IS} rasterizer new_buffer src dst reply dst_address descriptor fuel
    (st : TState (IS := IS)) :
  length (cmd_buf st) = COMMAND_BUFFER_LENGTH → cmd_buf st !! 63%nat = Some descriptor →
  (GetDescriptorType descriptor = CallingPid ∨ GetDescriptorType descriptor = StaticBuffer ∨
   GetDescriptorType descriptor = MappedBuffer) →
  translate_loop rasterizer new_buffer src dst fuel reply dst_address COMMAND_BUFFER_LENGTH 63 st = None.
Proof.
  intros Hl Hd Ht. assert (cmd_buf st !! 64%nat = None) as Hn by (apply lookup_ge_None; rewrite Hl; done).
  destruct fuel as [|fuel]; [done|]. cbn [translate_loop]. change (63 <? COMMAND_BUFFER_LENGTH)%nat with true. cbv iota.
  unfold cmd_get at 1. rewrite Hd. cbn [mbind option_bind]. unfold translate_step, translate_static, translate_mapped, cmd_get, cmd_put.
  destruct Ht as [-> | [-> | ->]]; by rewrite Hn.
Qed.

(** ** Static buffers: proofs *)

Section Static.
Context {IS : Type} (rasterizer : FlushMode → Z → Z → gmap Z Z → gmap Z Z).
Context (Hras : ∀ mode h, no_writeback rasterizer mode h).
Context (new_buffer : MemorySystem → Z → Z) (src dst : Peer).
Implicit Types (k : KState IS) (st : TState (IS := IS)).

Lemma read_process_ok k p pid address size data :
  processes k !! pid = Some p → ReadBlock rasterizer (process_pages p) address size (k_memory k) = Some (k_memory k, data) →
  read_process rasterizer pid address size k = Some (k, data).
Proof. intros Hp E. unfold read_process. rewrite Hp. cbn [mbind option_bind]. rewrite E. cbn. by destruct k. Qed.

(** The receiver's slot for static buffers number [id]. *)
Definition static_slot (dst_address id : Z) : Z := u32 (dst_address + u32 (Z.of_nat COMMAND_BUFFER_LENGTH * 4 + 8 * id)).

(** C18: A static buffer arrives.  The receiver has named, in its slot [id], a buffer at [target] and its
    size; then the descriptor of the sender has the bytes at [source] written there, and the receiver
    finds the address in the command and the bytes of the sender behind it; a buffer that is too
    small stops the emulator. *)
Theorem static_buffer_arrives st i reply dst_address command_size p q source size id target_descriptor target :
  let k := t_kernel st in
  processes k !! process_id src = Some p → processes k !! process_id dst = Some q →
  cmd_buf st !! i = Some source → 0 <= size < 2 ^ 18 → 0 <= id < 2 ^ 4 → host_wf (k_memory k) →
  0 <= source → source + size <= 2 ^ 31 → range_ok (process_pages p) (k_memory k) source (source + size) →
  0 <= target_descriptor < 2 ^ 32 → 0 <= target → target + size <= 2 ^ 31 →
  separate_range (process_pages q) (k_memory k) target (target + size) →
  read_process rasterizer (process_id dst) (static_slot dst_address id) 8 k = Some (k, le_bytes 4 target_descriptor ++ le_bytes 4 target) →
  ∃ data, read_process rasterizer (process_id src) source size k = Some (k, data) ∧ length data = Z.to_nat size ∧
    let translated := translate_step rasterizer new_buffer src dst reply dst_address command_size (StaticBufferDesc size id) i st in
    if size <=? static_size_of target_descriptor then
      ∃ k', translated = Some (mkTState k' (<[i := target]> (cmd_buf st)) (mapped_buffer_context st), inr (S i)) ∧
        read_process rasterizer (process_id dst) target size k' = Some (k', data) ∧
        processes k' = processes k ∧ handle_tables k' = handle_tables k
    else translated = None.
Proof.
  intros k Hp Hq Hi Hs Hid Hwf H0 H31 Hok Htd Ht Ht31 Hsep Hslot.
  destruct (read_block_ok rasterizer (λ _, 0) (process_pages p) (k_memory k) source size) as (data & Er & Hlen & Hd); try (done || lia).
  pose proof (read_process_ok k p (process_id src) source size data Hp Er) as Erp.
  assert (Z.of_nat (length data) = size) as El by lia.
  exists data. split; [done|]. split; [done|]. unfold translate_step. destruct (static_desc_fields size id Hs Hid) as (-> & Es & Eid).
  unfold translate_static, cmd_get. rewrite Hi. cbn [mbind option_bind]. rewrite Es, Eid. fold k. rewrite Erp. cbn [mbind option_bind].
  unfold static_slot in Hslot. rewrite Hslot. cbn [mbind option_bind].
  rewrite take_app_length', drop_app_length', !le_value_bytes, El by (rewrite ?le_bytes_length; simpl; (done || lia)).
  destruct (Z.leb_spec size (static_size_of target_descriptor)); cbn [assert_ mbind option_bind]; [|done].
  destruct (write_read_across rasterizer (λ _, 0) (Hras Invalidate) (process_pages q) (process_pages q) (k_memory k) target target data
              (Hras Flush)) as (h & Ew & Er' & _); rewrite ?El; try (done || lia).
  { by eapply (read_bytes_wf rasterizer (Hras Flush) (process_pages p) (k_memory k) source size). }
  { intros j Hj. destruct (proj1 Hsep (target + j) ltac:(lia)) as (r & Hr). by exists r, r. }
  exists (put_memory (set_host (k_memory k) h) k). unfold write_process. rewrite Hq. cbn [mbind option_bind].
  rewrite Ew. cbn [mbind option_bind]. unfold cmd_put. cbn [cmd_buf set_kernel]. rewrite Hi. cbn [mbind option_bind].
  split; [done|]. split; [|done]. apply (read_process_ok _ q); [done|]. rewrite El in Er'. exact Er'.
Qed.

End Static.

Module Examples.
Import SharedMemory.Examples.

Definition app : Peer := mkPeer 10 11 1.
Definition service : Peer := mkPeer 20 21 2.

(** The application has a handle of object 100 and one of object 101, the service none. *)
Definition opened (o : Z) (t : HandleTable Z) : HandleTable Z :=
  match Create (Some o) t with Some (_, t') => t' | None => t end.
Definition sender : HandleTable Z := opened 101 (opened 100 HandleTable_new).
Definition kipc : KState seg_set := put_table 2 HandleTable_new (put_table 1 sender kdemo).
(** A command that moves both, the second of them twice, and a handle that is not open. *)
Definition moving : TState (IS := seg_set) := mkTState kipc [0; MoveHandleDesc 4; 1; 0x8002; 0x8002; 77] [].

Lemma new_table_rep : table_rep (HandleTable_new (Obj := Z)) ∅.
Proof. apply table_rep_Clear. simpl. lia. Qed.

Lemma sender_rep : table_rep sender {[ 1 := 100; 0x8002 := 101 ]}.
Proof.
  destruct (Create_room HandleTable_new ∅ 100 new_table_rep) as (h1 & t1 & E1 & _ & H1 & _); [vm_compute; lia|].
  assert (t1 = opened 100 HandleTable_new) as -> by (unfold opened; by rewrite E1).
  assert (fst <$> Create (Some 100) HandleTable_new = Some (inr 1)) as F1 by (vm_compute; reflexivity).
  rewrite E1 in F1. injection F1 as ->.
  destruct (Create_room (opened 100 HandleTable_new) {[ 1 := 100 ]} 101 H1) as (h2 & t2 & E2 & _ & H2 & _); [vm_compute; lia|].
  assert (t2 = sender) as -> by (unfold sender; unfold opened at 1; by rewrite E2).
  assert (fst <$> Create (Some 101) (opened 100 HandleTable_new) = Some (inr 0x8002)) as F2 by (vm_compute; reflexivity).
  rewrite E2 in F2. injection F2 as ->.
  replace ({[ 1 := 100; 0x8002 := 101 ]} : gmap Z Z) with (<[ 0x8002 := 101 ]> ({[ 1 := 100 ]} : gmap Z Z)) by (vm_compute; reflexivity).
  exact H2.
Qed.

(** All four words are translated, and the application still has both handles. *)
Lemma handles_arrive_witness :
  ∃ st' td' md', translate_step Memory.Examples.no_cache (λ _ _, 0) app service false 0 6 (handle_desc true 4) 2 moving = Some (st', inr 6%nat) ∧
    has_tables app service st' sender td' {[ 1 := 100; 0x8002 := 101 ]} md' ∧
    ∃ w, cmd_buf st' !! 4%nat = Some w ∧ md' !! w = Some 101.
Proof.
  destruct (handles_arrive app service Memory.Examples.no_cache (λ _ _, 0) false 0 6 true 4 2 moving sender HandleTable_new
              {[ 1 := 100; 0x8002 := 101 ]} ∅) as (st' & ts' & td' & md' & E & Ha & _ & _ & _ & Ht).
  - discriminate.
  - split; [reflexivity|]. split; [exact sender_rep|]. split; [reflexivity|exact new_table_rep].
  - lia.
  - vm_compute. lia.
  - vm_compute. lia.
  - vm_compute. lia.
  - exists st', td', md'. split; [exact E|]. split; [exact Ht|].
    destruct (Ha 4%nat 0x8002) as (w & Ew & Harr); [vm_compute; lia|reflexivity|]. exists w. split; [exact Ew|]. apply Harr.
Defined.

Lemma translate_terminates_witness :
  translate_loop Memory.Examples.no_cache (λ _ _, 0) app service 100 false 0 6 1 moving =
  translate_loop Memory.Examples.no_cache (λ _ _, 0) app service 5 false 0 6 1 moving.
Proof. apply (translate_loop_terminates Memory.Examples.no_cache (λ _ _, 0) app service false 0 6 1 100 moving). lia. Defined.

(** A command of 64 words that ends in a descriptor for the process id. *)
Lemma runs_off_witness :
  translate_loop Memory.Examples.no_cache (λ _ _, 0) app service 10 false 0 COMMAND_BUFFER_LENGTH 63
    (mkTState kipc (replicate 63 0 ++ [CallingPidDesc]) []) = None.
Proof.
  apply (translate_runs_off_the_buffer Memory.Examples.no_cache (λ _ _, 0) app service false 0 CallingPidDesc 10
           (mkTState kipc (replicate 63 0 ++ [CallingPidDesc]) [])); [reflexivity|reflexivity|left; reflexivity].
Defined.

(** A process with two pages of memory, as sender and as receiver. *)
Definition two_pages : Process seg_set :=
  set_vm (mkVM (vma_map VMManager.Examples.fresh_vm) (entries Memory.Examples.demo_pages) false) (process Process.Examples.demo).
Definition slot_memory : MemorySystem :=
  set_host Memory.Examples.demo_memory (host_set 0x100001100 (le_bytes 4 (StaticBufferDesc 4 0) ++ le_bytes 4 0x8000200) ∅).
(** The four bytes across the two pages go to the buffer at [0x8000200] that slot 0 names. *)
Definition kstatic : KState seg_set := put_memory slot_memory (put_process 1 two_pages (put_process 2 two_pages kdemo)).
Definition sending : TState (IS := seg_set) := mkTState kstatic [0; 0x8000FFE] [].

Lemma slot_host_wf : host_wf slot_memory.
Proof.
  intros x. unfold host_byte. destruct (host slot_memory !! x) as [y|] eqn:E; [|simpl; lia]. apply elem_of_map_to_list in E.
  vm_compute in E. simpl. set_unfold. naive_solver lia.
Qed.

Lemma two_pages_backing n off :
  (n = 0x8000 ∧ off = 0x1000 ∨ n = 0x8001 ∧ off = 0x7000) →
  page_backing (process_pages two_pages) slot_memory n (Some (mkRef (Some Memory.Examples.fcram) off)).
Proof. intros [[-> ->]|[-> ->]]; (split; [done|]); by apply Memory.Examples.demo_ref. Qed.

Lemma static_buffer_witness :
  ∃ data k', read_process Memory.Examples.no_cache 1 0x8000FFE 4 kstatic = Some (kstatic, data) ∧
    translate_step Memory.Examples.no_cache (λ _ _, 0) app service false 0x8000000 2 (StaticBufferDesc 4 0) 1 sending =
      Some (mkTState k' [0; 0x8000200] [], inr 2%nat) ∧
    read_process Memory.Examples.no_cache 2 0x8000200 4 k' = Some (k', data).
Proof.
  assert (∀ a, 0x8000200 <= a < 0x8000204 → a / CITRA_PAGE_SIZE = 0x8000 ∧ a `mod` CITRA_PAGE_SIZE = a - 0x8000000) as Ht.
  { intros a Ha. destruct (addr_split a ltac:(lia)) as (_ & _ & Ea & Hm). unfold CITRA_PAGE_SIZE in *. lia. }
  destruct (static_buffer_arrives Memory.Examples.no_cache ltac:(intros mode h p n; reflexivity) (λ _ _, 0) app service sending 1 false
              0x8000000 2 two_pages two_pages 0x8000FFE 4 0 (StaticBufferDesc 4 0) 0x8000200) as (data & E1 & _ & E2).
  - reflexivity.
  - reflexivity.
  - reflexivity.
  - lia.
  - lia.
  - exact slot_host_wf.
  - lia.
  - lia.
  - intros a Ha. assert (a / CITRA_PAGE_SIZE = 0x8000 ∨ a / CITRA_PAGE_SIZE = 0x8001) as [-> | ->].
    { destruct (addr_split a ltac:(lia)) as (_ & _ & Ea & Hm). unfold CITRA_PAGE_SIZE in *. lia. }
    + eexists. apply two_pages_backing. by left.
    + eexists. apply two_pages_backing. by right.
  - vm_compute. split; congruence.
  - lia.
  - lia.
  - split.
    + intros a Ha. destruct (Ht a Ha) as [-> _]. eexists. apply two_pages_backing. by left.
    + intros a b ra rb Ha Hb Hra Hrb. destruct (Ht a Ha) as [Ea ->], (Ht b Hb) as [Eb ->]. rewrite Ea in Hra. rewrite Eb in Hrb.
      pose proof (page_backing_det _ _ _ _ _ Hra Hrb) as [= ->]. lia.
  - vm_compute. reflexivity.
  - change (4 <=? static_size_of (StaticBufferDesc 4 0)) with true in E2. destruct E2 as (k' & E2 & E3 & _).
    exists data, k'. split; [exact E1|]. split; [exact E2|exact E3].
Defined.

End Examples.
