(* ===== verification/MappedBuffer.v ===== *)
(** * Mapped buffers: proofs ([src/src/core/hle/kernel/ipc.cpp])

    The life of a mapped buffer over a request and its reply, composed from the memory accesses, the
    address spaces and the translation of [IPC].  The client's buffer is copied into a fresh host
    block, which the server maps between two guard pages; the server works on the copy; the reply
    copies it back and unmaps it. *)

From S2P Require Import Prelude BitField HandleTable IntervalSet MemoryRegion PageTable Memory MemoryCopy VMManager.
From S2P Require Import ResourceLimit Process SharedMemory IPC.

(** ** Fresh host blocks *)

Definition or_block (known : BackingMem → Prop) (b : BackingMem) (x : BackingMem) : Prop := known x ∨ x = b.

Lemma tiles_weaken (known known' : BackingMem → Prop) lo l hi :
  (∀ b, known b → known' b) → tiles known lo l hi → tiles known' lo l hi.
Proof.
  intros Hk. revert lo. induction l as [|v l IH]; intros lo; [done|]. intros (Hb & (H1 & H2 & H3 & H4) & Ht).
  split; [done|]. split; [|by apply IH]. split; [done|]. split; [done|]. split; [done|].
  destruct (vma_type v); [done|]. destruct H4 as (Hh & b & Eb & Hkb). split; [done|]. exists b. split; [done|]. by apply Hk.
Qed.

Lemma vm_inv_weaken cached (known known' : BackingMem → Prop) vm :
  (∀ b, known b → known' b) → vm_inv cached known vm → vm_inv cached known' vm.
Proof. intros Hk (Ht & Hn & Hp). split; [by eapply tiles_weaken|]. by split. Qed.

(** The state of the area at an address is the state in the view. *)
Lemma state_at_view cached known vm a :
  vm_inv cached known vm → 0 <= a < MAX_ADDRESS → state_at vm a = a_state <$> attr_at (vma_map vm) a.
Proof.
  intros (Ht & _) Ha. destruct (tiles_find _ _ _ _ a Ht Ha) as (d & v & r & El & Hv). unfold state_at. rewrite El in *.
  rewrite (FindVMA_cut _ _ _ _ _ _ Ht Hv). cbn [mbind option_bind]. rewrite lookup_cut.
  rewrite (attr_at_of_area known 0 d v r MAX_ADDRESS) by done. done.
Qed.

(** Where [MapBackingMemoryToBase] puts a buffer of [size] bytes in the area for IPC, if it finds room. *)
Definition ipc_room (vm : VMManager) (size : Z) : option Z :=
  '(_, v) ← list_find (λ v, free_vma_for IPC_MAPPING_VADDR size v = true) (vma_map vm);
  let t := Z.max IPC_MAPPING_VADDR (vma_base v) in
  if (t + size <=? vma_end v) && (t + size <=? IPC_MAPPING_VADDR + IPC_MAPPING_SIZE) then Some t else None.

Section Buffers.
Context (known : BackingMem → Prop) (Hsep : blocks_separate known).

Lemma map_to_room cached vm m size t :
  vm_inv cached known vm → VMManager.is_locked vm = false → size `mod` CITRA_PAGE_SIZE = 0 → 0 < size →
  backed known m size → ipc_room vm size = Some t →
  valid_range t size ∧ range_free (vma_map vm) t size ∧ IPC_MAPPING_VADDR <= t ∧
  t + size <= IPC_MAPPING_VADDR + IPC_MAPPING_SIZE ∧
  ∃ vm', MapBackingMemoryToBase cached vm IPC_MAPPING_VADDR IPC_MAPPING_SIZE m size StateShared = Some (vm', inr t) ∧
    vm_inv cached known vm' ∧ VMManager.is_locked vm' = false ∧
    ∀ a, attr_at (vma_map vm') a = mapped_view (vma_map vm) t size m StateShared a.
Proof.
  intros Hinv Hl Hsa Hs Hm Hroom. unfold ipc_room, MapBackingMemoryToBase in *. rewrite Hl. cbn [negb assert_ mbind option_bind].
  destruct (list_find _ _) as [[i v]|] eqn:E; [|done]. cbn [mbind option_bind] in Hroom |- *.
  apply list_find_Some in E as (Hv & Hp & _). apply list_elem_of_lookup_2, list_elem_of_split in Hv as (d & r & El).
  set (t0 := Z.max IPC_MAPPING_VADDR (vma_base v)) in *.
  destruct ((t0 + size <=? vma_end v) && _) eqn:Eb; [|done]. injection Hroom as <-. apply andb_true_iff in Eb as [Hb1 Hb2].
  rewrite Z.leb_le in Hb1, Hb2. pose proof Hinv as (Ht & _). rewrite El in Ht.
  destruct (tiles_cons_inv _ _ _ _ _ _ Ht) as (_ & Hok & _ & Hv0 & _ & Hv1).
  assert (IPC_MAPPING_VADDR + IPC_MAPPING_SIZE < MAX_ADDRESS ∧ MAX_ADDRESS < 2 ^ 32 ∧ 0 <= IPC_MAPPING_VADDR) as (? & ? & ?) by done.
  assert (t0 `mod` CITRA_PAGE_SIZE = 0) as Htm.
  { unfold t0. destruct (Z.max_spec IPC_MAPPING_VADDR (vma_base v)) as [[_ ->]|[_ ->]]; [apply Hok|done]. }
  assert (valid_range t0 size) as Hr by (split_and!; (done || lia)).
  assert (range_free (vma_map vm) t0 size) as Hf.
  { intros x Hx. rewrite El, (attr_at_of_area known 0 d v r MAX_ADDRESS) by (done || lia).
    f_equal. apply (attr_free known); [done|]. unfold free_vma_for in Hp. by case_bool_decide. }
  split; [done|]. split; [done|]. split; [lia|]. split; [lia|].
  rewrite !u32_id, (proj2 (Z.ltb_ge _ _)) by lia.
  destruct (MapBackingMemory_free cached known Hsep vm t0 m size StateShared Hinv Hl Hr Hm Hf) as (vm' & j & -> & Hinv' & Hl' & Hv').
  cbn [mbind option_bind]. by exists vm'.
Qed.

(** A page of the new mapping becomes a guard page. *)
Definition is_shared_page (l : list VirtualMemoryArea) (a : Z) : Prop :=
  ∀ x, a <= x < a + CITRA_PAGE_SIZE → ∃ ref, attr_at l x = Some (mkAttr BackingMemory PermReadWrite StateShared ref).

Lemma guard_page_ok ms vm address :
  vm_inv (page_cached ms) known vm → VMManager.is_locked vm = false → valid_range address CITRA_PAGE_SIZE →
  is_shared_page (vma_map vm) address →
  ∃ vm', guard_page ms vm address = Some vm' ∧ vm_inv (page_cached ms) known vm' ∧ VMManager.is_locked vm' = false ∧
    ∀ a, attr_at (vma_map vm') a =
         changed_view (set_state StateReserved PermNone) address (address + CITRA_PAGE_SIZE) (vma_map vm) a.
Proof.
  intros Hinv Hl Hr Hp. unfold guard_page.
  destruct (ChangeMemoryState_view (page_cached ms) known vm address CITRA_PAGE_SIZE StateShared PermReadWrite StateReserved PermNone
              Hsep Hinv Hl Hr) as [Hyes _].
  destruct Hyes as (vm' & -> & Hinv' & Hl' & Hv); [intros a Ha; by destruct (Hp a Ha) as (ref & ->)..|].
  cbn [mbind option_bind]. by exists vm'.
Qed.

(** The pages behind mapped memory that the renderer does not cache. *)
Lemma backed_pages ms vm wp lo n a :
  vm_inv (page_cached ms) known vm → hosted known ms → range_backed (vma_map vm) lo n → lo <= a < lo + n →
  page_cached ms (a / CITRA_PAGE_SIZE) = false →
  ∃ ref x b, attr_at (vma_map vm) a = Some x ∧
    page_backing (mkPages (page_table vm) wp) ms (a / CITRA_PAGE_SIZE) (Some ref) ∧
    GetPtr ref + a `mod` CITRA_PAGE_SIZE = GetPtr (a_ref x) ∧
    known b ∧ bm_ptr b <= GetPtr (a_ref x) < bm_ptr b + bm_size b.
Proof.
  intros Hinv Hho Hb Ha Hc. specialize (Hb a Ha). destruct (attr_at (vma_map vm) a) as [x|] eqn:Ex; [|done].
  injection Hb as Hty. destruct (attr_backing known ms vm wp a x Hinv Hho Ex Hty Hc) as (ref & Hr & Hp).
  destruct Hinv as (Ht & _). destruct (attr_ref_backed known _ _ _ Ht Ex Hty) as [(b & Eb & _ & Ho & Hs & _) (b' & Eb' & Hk)].
  simplify_eq. exists ref, x, b. split_and!; try done; unfold GetPtr; rewrite Eb; lia.
Qed.

End Buffers.

(** ** Pages and offsets *)

Lemma AlignUp_spec v :
  0 <= v → v + CITRA_PAGE_SIZE < 2 ^ 32 →
  let n := Z.shiftr (AlignUp v CITRA_PAGE_SIZE) CITRA_PAGE_BITS in v <= n * CITRA_PAGE_SIZE < v + CITRA_PAGE_SIZE.
Proof.
  intros Hv Hm n. assert (CITRA_PAGE_SIZE = 0x1000) as EP by done. unfold n, AlignUp, CITRA_PAGE_BITS. rewrite EP in *.
  pose proof (Z.div_mod v 0x1000 ltac:(done)) as Hd. pose proof (Z.mod_pos_bound v 0x1000 ltac:(done)) as Hb.
  rewrite (u32_id (v - _)) by lia. rewrite Z.shiftr_div_pow2 by lia. change (2 ^ 12) with 0x1000.
  destruct (Z.eqb_spec (v `mod` 0x1000) 0) as [E|E].
  - replace (v - v `mod` 0x1000) with (v / 0x1000 * 0x1000) by lia. rewrite Z.div_mul by done. lia.
  - rewrite u32_id by lia. replace (v - v `mod` 0x1000 + 0x1000) with ((v / 0x1000 + 1) * 0x1000) by lia. rewrite Z.div_mul by done. lia.
Qed.

Lemma AlignDown_spec a : 0 <= a < 2 ^ 32 → AlignDown a CITRA_PAGE_SIZE = a - a `mod` CITRA_PAGE_SIZE.
Proof.
  intros Ha. unfold AlignDown. pose proof (Z.mod_pos_bound a CITRA_PAGE_SIZE ltac:(done)).
  pose proof (Z.mod_le a CITRA_PAGE_SIZE ltac:(lia) ltac:(done)). apply u32_id. lia.
Qed.

(** The pages that a buffer at offset [off] of a page covers, and the size of the block with the guards. *)
Definition buffer_pages (off size : Z) : Z := Z.shiftr (AlignUp (u32 (off + size)) CITRA_PAGE_SIZE) CITRA_PAGE_BITS.
Definition buffer_total (off size : Z) : Z := (buffer_pages off size + 2) * CITRA_PAGE_SIZE.

Lemma buffer_total_bounds off size :
  0 <= off < CITRA_PAGE_SIZE → 0 < size < 2 ^ 28 →
  1 <= buffer_pages off size ∧ CITRA_PAGE_SIZE + off + size <= buffer_total off size - CITRA_PAGE_SIZE ∧
  3 * CITRA_PAGE_SIZE <= buffer_total off size < 2 ^ 29 ∧ buffer_total off size `mod` CITRA_PAGE_SIZE = 0 ∧
  u32 ((buffer_pages off size + 2) * CITRA_PAGE_SIZE) = buffer_total off size.
Proof.
  intros Ho Hs. assert (CITRA_PAGE_SIZE = 0x1000) as EP by done.
  pose proof (AlignUp_spec (u32 (off + size))) as Ha. fold (buffer_pages off size) in Ha. rewrite EP in *.
  rewrite !u32_id in Ha by (rewrite ?u32_id; lia). specialize (Ha ltac:(lia) ltac:(lia)). cbv zeta in Ha.
  unfold buffer_total. rewrite EP. split_and!; try lia; [by rewrite Z.mod_mul|apply u32_id; lia].
Qed.

(** ** A new block of host memory *)

Definition add_block (b : BackingMem) (h : gmap Z Z) (ms : MemorySystem) : MemorySystem :=
  mkMemory (fcram_mem ms) (vram_mem ms) (n3ds_extra_ram_mem ms) (dsp_mem ms) (b :: other_mem ms) h
    (plugin_fb_address ms) (cache_marker ms) (phys_mem_region_info_cache ms) (gpu_writes ms).

Lemma host_blocks_add b h ms x : x ∈ host_blocks (add_block b h ms) ↔ x = b ∨ x ∈ host_blocks ms.
Proof. unfold host_blocks, add_block. simpl. rewrite !elem_of_cons. tauto. Qed.

Lemma page_backing_add b h ms pages p r : page_backing pages ms p r → page_backing pages (add_block b h ms) p r.
Proof.
  assert (∀ ref, page_ref_ok ms ref → page_ref_ok (add_block b h ms) ref) as Href.
  { intros ref (c & Ec & Hin & Hrest). exists c. split; [done|]. split; [|done]. apply host_blocks_add. by right. }
  unfold page_backing. destruct (_.1), r; try done; naive_solver.
Qed.

Lemma block_valid b h ms p n : bm_ptr b <= p → p + n <= bm_ptr b + bm_size b → host_valid (add_block b h ms) p n = true.
Proof.
  intros Hp Hn. unfold host_valid. apply existsb_exists. exists b. split; [|by apply andb_true_iff; rewrite !Z.leb_le].
  apply list_elem_of_In, host_blocks_add. by left.
Qed.

Lemma host_set_wf h p l :
  (∀ x, 0 <= host_byte h x < 2 ^ 8) → Forall (λ x, 0 <= x < 2 ^ 8) l → ∀ x, 0 <= host_byte (host_set p l h) x < 2 ^ 8.
Proof.
  intros Hh Hl x. rewrite host_byte_set. destruct (in_range _ _ x); [|apply Hh].
  destruct (l !! _) as [y|] eqn:E; simpl; [|lia]. exact (Forall_lookup_1 _ _ _ _ Hl E).
Qed.

(** The bytes of a new block with [data] at an offset. *)
Lemma filled_block b o data (h0 : gmap Z Z) :
  (∀ x, 0 <= host_byte h0 x < 2 ^ 8) → Forall (λ x, 0 <= x < 2 ^ 8) data → 0 <= o → o + Z.of_nat (length data) <= bm_size b →
  let h := host_set (bm_ptr b + o) data (host_set (bm_ptr b) (replicate (Z.to_nat (bm_size b)) 0) h0) in
  (∀ x, 0 <= host_byte h x < 2 ^ 8) ∧
  (∀ x, ~ (bm_ptr b <= x < bm_ptr b + bm_size b) → host_byte h x = host_byte h0 x) ∧
  ∀ j d, data !! j = Some d → host_byte h (bm_ptr b + o + Z.of_nat j) = d.
Proof.
  intros Hh0 Hdb Ho Hfit h. split; [|split].
  - apply host_set_wf; [|done]. apply host_set_wf; [done|]. apply Forall_replicate. lia.
  - intros x Hx. unfold h. rewrite !host_byte_set, length_replicate, Z2Nat.id by lia. by rewrite !(proj2 (in_range_false _ _ _)) by lia.
  - intros j d Hd. pose proof (lookup_lt_Some _ _ _ Hd). unfold h. rewrite host_byte_set, (proj2 (in_range_iff _ _ _)) by lia.
    replace (Z.to_nat _) with j by lia. by rewrite Hd.
Qed.

(** ** The request *)

(** The view of an address space with a buffer of [total] bytes of [b] at [t], the first and the last page
    of which are guards. *)
Definition is_guard (t total a : Z) : bool :=
  in_range t (t + CITRA_PAGE_SIZE) a || in_range (t + total - CITRA_PAGE_SIZE) (t + total) a.
Definition buffer_view (l : list VirtualMemoryArea) (b : BackingMem) (t total a : Z) : option Attr :=
  if in_range t (t + total) a then
    Some (mkAttr BackingMemory (if is_guard t total a then PermNone else PermReadWrite)
            (if is_guard t total a then StateReserved else StateShared) (mkRef (Some b) (a - t)))
  else attr_at l a.

Lemma map_guards known (Hsep : blocks_separate known) ms vm b total t :
  vm_inv (page_cached ms) known vm → VMManager.is_locked vm = false → total `mod` CITRA_PAGE_SIZE = 0 →
  3 * CITRA_PAGE_SIZE <= total → backed known (mkRef (Some b) 0) total → ipc_room vm total = Some t →
  valid_range t total ∧ range_free (vma_map vm) t total ∧ IPC_MAPPING_VADDR <= t ∧
  t + total <= IPC_MAPPING_VADDR + IPC_MAPPING_SIZE ∧
  ∃ vm0 vm1 vm2,
    MapBackingMemoryToBase (page_cached ms) vm IPC_MAPPING_VADDR IPC_MAPPING_SIZE (mkRef (Some b) 0) total StateShared =
      Some (vm0, inr t) ∧
    guard_page ms vm0 t = Some vm1 ∧ guard_page ms vm1 (u32 (t + total - CITRA_PAGE_SIZE)) = Some vm2 ∧
    vm_inv (page_cached ms) known vm2 ∧ VMManager.is_locked vm2 = false ∧
    ∀ a, attr_at (vma_map vm2) a = buffer_view (vma_map vm) b t total a.
Proof.
  intros Hinv Hl Hta Ht3 Hb Hroom. assert (0 < CITRA_PAGE_SIZE) as HP by done.
  destruct (map_to_room known Hsep _ vm (mkRef (Some b) 0) total t Hinv Hl Hta ltac:(lia) Hb Hroom)
    as (Hr & Hf & Hlo & Hhi & vm0 & E0 & Hinv0 & Hl0 & Hv0).
  split; [done|]. split; [done|]. split; [done|]. split; [done|].
  pose proof Hr as (Htm & _ & H0 & _ & Hmax). assert (MAX_ADDRESS < 2 ^ 32) by done. assert (CITRA_PAGE_SIZE `mod` CITRA_PAGE_SIZE = 0) as HPP by done.
  assert (∀ a, t <= a < t + total → attr_at (vma_map vm0) a =
            Some (mkAttr BackingMemory PermReadWrite StateShared (mkRef (Some b) (a - t)))) as Hin0.
  { intros a Ha. rewrite Hv0. unfold mapped_view. by rewrite (proj2 (in_range_iff _ _ _)) by lia. }
  destruct (guard_page_ok known Hsep ms vm0 t Hinv0 Hl0) as (vm1 & E1 & Hinv1 & Hl1 & Hv1).
  { split_and!; (done || lia). } { intros x Hx. eexists. apply Hin0. lia. }
  assert (t + total - CITRA_PAGE_SIZE = u32 (t + total - CITRA_PAGE_SIZE)) as Eu by (rewrite u32_id; lia).
  destruct (guard_page_ok known Hsep ms vm1 (t + total - CITRA_PAGE_SIZE) Hinv1 Hl1) as (vm2 & E2 & Hinv2 & Hl2 & Hv2).
  { split_and!; try lia. apply aligned_sub; [|done]. by apply aligned_add. }
  { intros x Hx. eexists. rewrite Hv1. unfold changed_view. rewrite (proj2 (in_range_false _ _ _)) by lia. apply Hin0. lia. }
  exists vm0, vm1, vm2. rewrite <- Eu. split; [done|]. split; [done|]. split; [done|]. split; [done|]. split; [done|].
  intros a. rewrite Hv2. unfold changed_view, buffer_view, is_guard. rewrite !Hv1. unfold changed_view.
  replace (t + total - CITRA_PAGE_SIZE + CITRA_PAGE_SIZE) with (t + total) by lia.
  destruct (in_range t (t + total) a) eqn:Ea.
  - apply in_range_iff in Ea. rewrite Hin0 by lia. destruct (in_range t (t + CITRA_PAGE_SIZE) a), (in_range (t + total - CITRA_PAGE_SIZE) _ a); done.
  - apply in_range_false in Ea. rewrite !(proj2 (in_range_false _ _ a)) by lia. rewrite Hv0. unfold mapped_view.
    by rewrite (proj2 (in_range_false _ _ a)) by lia.
Qed.

Section Roundtrip.
Context (known : BackingMem → Prop) (Hsep : blocks_separate known).
Context {IS : Type} (rasterizer : FlushMode → Z → Z → gmap Z Z → gmap Z Z).
Context (Hras : ∀ mode h, no_writeback rasterizer mode h).
(** A new buffer of the host lies apart from the blocks there are. *)
Context (new_buffer : MemorySystem → Z → Z).
Context (Hnew : ∀ ms n, 0 < n → 0 < new_buffer ms n ∧
   ∀ b, b ∈ host_blocks ms → new_buffer ms n + n < bm_ptr b ∨ bm_ptr b + bm_size b < new_buffer ms n).
Context (client server : Peer) (Hpids : process_id client ≠ process_id server).
Implicit Types k : KState IS.

(** The circumstances of a request: the client's memory from [source] is mapped, no two of its addresses
    share a host byte, the renderer caches neither it nor the area of the server, which has room at [t]. *)
Record request_ok k (pc ps : Process IS) (source size t : Z) : Prop := {
  rq_inv : sinv known k;
  rq_hosted : hosted known (k_memory k);
  rq_bytes : host_wf (k_memory k);
  rq_client : processes k !! process_id client = Some pc;
  rq_server : processes k !! process_id server = Some ps;
  rq_source : 0 <= source ∧ source + size <= MAX_ADDRESS;
  rq_size : 0 < size < 2 ^ 28;
  rq_backed : range_backed (vma_map (vm_manager pc)) source size;
  rq_distinct : ∀ a a' x x', source <= a < source + size → source <= a' < source + size →
    attr_at (vma_map (vm_manager pc)) a = Some x → attr_at (vma_map (vm_manager pc)) a' = Some x' →
    GetPtr (a_ref x) = GetPtr (a_ref x') → a = a';
  rq_uncached : ∀ a, source <= a < source + size ∨ t <= a < t + buffer_total (source `mod` CITRA_PAGE_SIZE) size →
    page_cached (k_memory k) (a / CITRA_PAGE_SIZE) = false;
  rq_room : ipc_room (vm_manager ps) (buffer_total (source `mod` CITRA_PAGE_SIZE) size) = Some t }.

(** The block that the request allocates. *)
Definition buffer_of k (source size : Z) : BackingMem :=
  let total := buffer_total (source `mod` CITRA_PAGE_SIZE) size in mkBacking (new_buffer (k_memory k) total) total.

Lemma fresh_block k pc ps source size t :
  request_ok k pc ps source size t →
  let b := buffer_of k source size in
  0 < bm_ptr b ∧ bm_size b < 2 ^ 29 ∧ blocks_separate (or_block known b) ∧
  (∀ c, known c → bm_ptr b + bm_size b < bm_ptr c ∨ bm_ptr c + bm_size c < bm_ptr b) ∧
  backed (or_block known b) (mkRef (Some b) 0) (bm_size b) ∧
  ∀ h, hosted (or_block known b) (add_block b h (k_memory k)).
Proof.
  intros Hq b. pose proof (Z.mod_pos_bound source CITRA_PAGE_SIZE ltac:(done)) as Ho.
  destruct (buffer_total_bounds (source `mod` CITRA_PAGE_SIZE) size Ho (rq_size _ _ _ _ _ _ Hq)) as (_ & _ & Htot & _).
  assert (0 < CITRA_PAGE_SIZE) by done.
  destruct (Hnew (k_memory k) (buffer_total (source `mod` CITRA_PAGE_SIZE) size) ltac:(lia)) as [Hp Hd].
  assert (∀ c, known c → bm_ptr b + bm_size b < bm_ptr c ∨ bm_ptr c + bm_size c < bm_ptr b) as Hk.
  { intros c Hc. by apply Hd, (rq_hosted _ _ _ _ _ _ Hq). }
  split; [done|]. split; [simpl; lia|]. split; [|split; [done|split]].
  - intros c d [Hc|Ec] [Hd'|Ed] Hne'; [by apply Hsep|subst d; destruct (Hk c Hc); tauto|subst c; by apply Hk|congruence].
  - split; [|exists b; split; [done|by right]]. exists b. simpl. split_and!; (done || lia).
  - intros h c [Hc|Ec]; [destruct (rq_hosted _ _ _ _ _ _ Hq c Hc)|subst c].
    + split; [apply host_blocks_add; by right|done].
    + split; [apply host_blocks_add; by left|simpl; lia].
Qed.

(** What the client has behind its buffer: separate host bytes, none of them in the new block. *)
Lemma client_range_in k pc ps source size t ms :
  request_ok k pc ps source size t → vm_inv (page_cached ms) known (vm_manager pc) → hosted known ms →
  (∀ a, source <= a < source + size → page_cached ms (a / CITRA_PAGE_SIZE) = false) →
  let b := buffer_of k source size in
  separate_range (process_pages pc) ms source (source + size) ∧
  ∀ x, behind (process_pages pc) ms source (source + size) x → ~ (bm_ptr b <= x < bm_ptr b + bm_size b).
Proof.
  intros Hq Hvm Hhk Hunc b. destruct (fresh_block k pc ps source size t Hq) as (_ & _ & _ & Hapart & _). fold b in Hapart.
  assert (∀ a, source <= a < source + size → ∃ ref x c, attr_at (vma_map (vm_manager pc)) a = Some x ∧
            page_backing (process_pages pc) ms (a / CITRA_PAGE_SIZE) (Some ref) ∧
            GetPtr ref + a `mod` CITRA_PAGE_SIZE = GetPtr (a_ref x) ∧ known c ∧
            bm_ptr c <= GetPtr (a_ref x) < bm_ptr c + bm_size c) as Hpg.
  { intros a Ha. apply (backed_pages known ms (vm_manager pc) (watchpoints pc) source size a Hvm Hhk); try done; [apply Hq|by apply Hunc]. }
  split; [split|].
  - intros a Ha. destruct (Hpg a Ha) as (ref & _ & _ & _ & Hr & _). by exists ref.
  - intros a a' ra ra' Ha Ha' Hr Hr' Eq. destruct (Hpg a Ha) as (r1 & x1 & c1 & Hx1 & Hr1 & E1 & _), (Hpg a' Ha') as (r2 & x2 & c2 & Hx2 & Hr2 & E2 & _).
    pose proof (page_backing_det _ _ _ _ _ Hr Hr1). pose proof (page_backing_det _ _ _ _ _ Hr' Hr2). simplify_eq.
    eapply (rq_distinct _ _ _ _ _ _ Hq); try done. congruence.
  - intros x (a & ra & Ha & Hr & ->) Hin. destruct (Hpg a Ha) as (r1 & x1 & c1 & _ & Hr1 & E1 & Hc & Hin1).
    pose proof (page_backing_det _ _ _ _ _ Hr Hr1). simplify_eq. rewrite E1 in Hin. destruct (Hapart c1 Hc); lia.
Qed.

Lemma client_range k pc ps source size t h :
  request_ok k pc ps source size t →
  let b := buffer_of k source size in
  separate_range (process_pages pc) (add_block b h (k_memory k)) source (source + size) ∧
  ∀ x, behind (process_pages pc) (add_block b h (k_memory k)) source (source + size) x → ~ (bm_ptr b <= x < bm_ptr b + bm_size b).
Proof.
  intros Hq b. destruct (fresh_block k pc ps source size t Hq) as (_ & _ & _ & _ & _ & Hho).
  destruct (si_vm _ _ (rq_inv _ _ _ _ _ _ Hq) _ _ (rq_client _ _ _ _ _ _ Hq)) as (Hvm & _).
  apply (client_range_in k pc ps source size t (add_block b h (k_memory k)) Hq Hvm).
  - intros c Hc. apply Hho. by left.
  - intros a Ha. apply (rq_uncached _ _ _ _ _ _ Hq). by left.
Qed.

Lemma client_range_before k pc ps source size t :
  request_ok k pc ps source size t →
  let b := buffer_of k source size in
  separate_range (process_pages pc) (k_memory k) source (source + size) ∧
  ∀ x, behind (process_pages pc) (k_memory k) source (source + size) x → ~ (bm_ptr b <= x < bm_ptr b + bm_size b).
Proof.
  intros Hq. destruct (si_vm _ _ (rq_inv _ _ _ _ _ _ Hq) _ _ (rq_client _ _ _ _ _ _ Hq)) as (Hvm & _).
  apply (client_range_in k pc ps source size t (k_memory k) Hq Hvm); [apply Hq|].
  intros a Ha. apply (rq_uncached _ _ _ _ _ _ Hq). by left.
Qed.

(** A read sees only the bytes behind its range. *)
Lemma read_same pages ms b h lo n data :
  0 <= lo → 0 <= n → lo + n <= 2 ^ 31 → range_ok pages ms lo (lo + n) →
  (∀ x, behind pages ms lo (lo + n) x → host_byte h x = host_byte (host ms) x) →
  ReadBlock rasterizer pages lo n ms = Some (ms, data) →
  ReadBlock rasterizer pages lo n (add_block b h ms) = Some (add_block b h ms, data).
Proof.
  intros H0 Hn H31 Hok Hsame E.
  destruct (read_block_ok rasterizer (λ _, 0) pages ms lo n H0 Hn H31 Hok (Hras Flush _)) as (d1 & E1 & Hl1 & Hd1).
  rewrite E1 in E. injection E as ->.
  destruct (read_block_ok rasterizer (λ _, 0) pages (add_block b h ms) lo n) as (d2 & -> & Hl2 & Hd2); try done.
  { intros a Ha. destruct (Hok a Ha) as (r & Hr). exists r. by apply page_backing_add. }
  do 2 f_equal. apply list_eq_same_length with (n := length data); [done|congruence|]. intros i x y Hi Hx Hy.
  destruct (Hok (lo + Z.of_nat i) ltac:(lia)) as (r & Hr). apply Hd2 in Hx. apply Hd1 in Hy.
  rewrite (Read8_ok _ _ _ _ _ r) in Hx; [|lia|by apply page_backing_add|done].
  rewrite (Read8_ok _ _ _ _ _ r) in Hy; [|lia|done|done]. apply Some_inj in Hx, Hy. injection Hx as <-. injection Hy as <-.
  destruct r as [ref|]; [|done]. simpl. apply Hsame. eexists _, ref. split; [|done]. lia.
Qed.

(** The client reads its bytes as long as only the new block changes. *)
Lemma client_read k pc ps source size t h data :
  let b := buffer_of k source size in
  request_ok k pc ps source size t → ReadBlock rasterizer (process_pages pc) source size (k_memory k) = Some (k_memory k, data) →
  (∀ x, ~ (bm_ptr b <= x < bm_ptr b + bm_size b) → host_byte h x = host_byte (host (k_memory k)) x) →
  ReadBlock rasterizer (process_pages pc) source size (add_block b h (k_memory k)) = Some (add_block b h (k_memory k), data).
Proof.
  intros b Hq Er Hh. destruct (client_range_before k pc ps source size t Hq) as [[Hok _] Hbeh]. fold b in Hbeh.
  pose proof (rq_source _ _ _ _ _ _ Hq). pose proof (rq_size _ _ _ _ _ _ Hq). assert (MAX_ADDRESS < 2 ^ 31) by done.
  apply read_same; try (done || lia).
  - intros a Ha. destruct (Hok a Ha) as (r & Hr'). by exists (Some r).
  - intros x Hx. by apply Hh, Hbeh.
Qed.

(** What the server has behind its copy. *)
Lemma server_range k pc ps source size t vm h :
  request_ok k pc ps source size t →
  let b := buffer_of k source size in
  let ms := add_block b h (k_memory k) in
  let off := source `mod` CITRA_PAGE_SIZE in
  vm_inv (page_cached ms) (or_block known b) vm → (∀ a, attr_at (vma_map vm) a = buffer_view (vma_map (vm_manager ps)) b t (buffer_total off size) a) →
  ∀ j, 0 <= j < size → ∃ ref,
    page_backing (process_pages (set_vm vm ps)) ms ((t + CITRA_PAGE_SIZE + off + j) / CITRA_PAGE_SIZE) (Some ref) ∧
    GetPtr ref + (t + CITRA_PAGE_SIZE + off + j) `mod` CITRA_PAGE_SIZE = bm_ptr b + CITRA_PAGE_SIZE + off + j.
Proof.
  intros Hq b ms off Hinv Hview j Hj. pose proof (Z.mod_pos_bound source CITRA_PAGE_SIZE ltac:(done)) as Ho. fold off in Ho.
  destruct (buffer_total_bounds off size Ho (rq_size _ _ _ _ _ _ Hq)) as (_ & Hfit & _). assert (0 < CITRA_PAGE_SIZE) by done.
  destruct (fresh_block k pc ps source size t Hq) as (_ & _ & _ & _ & _ & Hho).
  assert (attr_at (vma_map vm) (t + CITRA_PAGE_SIZE + off + j) =
            Some (mkAttr BackingMemory PermReadWrite StateShared (mkRef (Some b) (CITRA_PAGE_SIZE + off + j)))) as Hat.
  { rewrite Hview. unfold buffer_view, is_guard. rewrite (proj2 (in_range_iff _ _ _)) by lia.
    rewrite !(proj2 (in_range_false _ _ _)) by lia. cbn [orb]. do 3 f_equal. lia. }
  destruct (attr_backing (or_block known b) ms vm (watchpoints ps) _ _ Hinv (Hho h) Hat eq_refl) as (ref & Hr & Hp).
  { apply (rq_uncached _ _ _ _ _ _ Hq). right. fold off. lia. }
  exists ref. split; [exact Hr|]. rewrite Hp. unfold GetPtr. simpl. lia.
Qed.

(** The state after the request: the server has the mapping [vm], and host memory is [h]. *)
Definition requested k (ps : Process IS) (source size : Z) (vm : VMManager) (h : gmap Z Z) : KState IS :=
  put_process (process_id server) (set_vm vm ps) (put_memory (add_block (buffer_of k source size) h (k_memory k)) k).

Lemma map_buffer_ok (st : TState) i w permissions source size t pc ps :
  let k := t_kernel st in
  request_ok k pc ps source size t → cmd_buf st !! i = Some w →
  let b := buffer_of k source size in
  let off := source `mod` CITRA_PAGE_SIZE in
  ∃ data h vm,
    ReadBlock rasterizer (process_pages pc) source size (k_memory k) = Some (k_memory k, data) ∧ length data = Z.to_nat size ∧
    map_buffer rasterizer new_buffer client server permissions size source off (buffer_pages off size) i st =
      Some (mkTState (requested k ps source size vm h) (<[i := t + CITRA_PAGE_SIZE + off]> (cmd_buf st))
              (mapped_buffer_context st ++ [mkContext permissions size source (t + CITRA_PAGE_SIZE + off) b])) ∧
    valid_range t (bm_size b) ∧ range_free (vma_map (vm_manager ps)) t (bm_size b) ∧ t + bm_size b < 2 ^ 31 ∧
    vm_inv (page_cached (k_memory k)) (or_block known b) vm ∧ VMManager.is_locked vm = false ∧
    (∀ a, attr_at (vma_map vm) a = buffer_view (vma_map (vm_manager ps)) b t (bm_size b) a) ∧
    (∀ x, 0 <= host_byte h x < 2 ^ 8) ∧
    (∀ x, ~ (bm_ptr b <= x < bm_ptr b + bm_size b) → host_byte h x = host_byte (host (k_memory k)) x) ∧
    ∀ j d, data !! j = Some d → host_byte h (bm_ptr b + CITRA_PAGE_SIZE + off + Z.of_nat j) = d.
Proof.
  intros k Hq Hw b off. pose proof (Z.mod_pos_bound source CITRA_PAGE_SIZE ltac:(done)) as Ho. fold off in Ho.
  pose proof (rq_size _ _ _ _ _ _ Hq) as Hsz. pose proof (rq_source _ _ _ _ _ _ Hq) as [Hs0 Hs1].
  destruct (buffer_total_bounds off size Ho Hsz) as (_ & Hfit & Htot & Hta & Eu). assert (0 < CITRA_PAGE_SIZE) as HP by done.
  assert (MAX_ADDRESS < 2 ^ 31) as HM by done.
  destruct (fresh_block k pc ps source size t Hq) as (Hptr & _ & Hsep' & _ & Hbk & _). fold b in Hptr, Hsep', Hbk.
  assert (bm_size b = buffer_total off size) as Ebs by done.
  destruct (client_range_before k pc ps source size t Hq) as [[Hcl _] Hbeh]. fold b in Hbeh.
  assert (range_ok (process_pages pc) (k_memory k) source (source + size)) as Hok.
  { intros a Ha. destruct (Hcl a Ha) as (r & Hr). by exists (Some r). }
  destruct (read_block_ok rasterizer (λ _, 0) (process_pages pc) (k_memory k) source size) as (data & Er & Hlen & Hd); try done; try lia.
  assert (Forall (λ x, 0 <= x < 2 ^ 8) data) as Hdb.
  { eapply (read_bytes_wf rasterizer (Hras Flush) (process_pages pc) (k_memory k) source size); try (done || lia). apply Hq. }
  set (h1 := host_set (bm_ptr b) (replicate (Z.to_nat (bm_size b)) 0) (host (k_memory k))).
  assert (∀ x, ~ (bm_ptr b <= x < bm_ptr b + bm_size b) → host_byte h1 x = host_byte (host (k_memory k)) x) as Hh1.
  { intros x Hx. unfold h1. rewrite host_byte_set, length_replicate, Z2Nat.id by lia. by rewrite (proj2 (in_range_false _ _ _)) by done. }
  pose proof (read_same (process_pages pc) (k_memory k) b h1 source size data Hs0 ltac:(lia) ltac:(lia) Hok
                ltac:(intros x Hx; apply Hh1; by apply Hbeh) Er) as Er1.
  set (h := host_set (bm_ptr b + CITRA_PAGE_SIZE + off) data h1).
  destruct (si_vm _ _ (rq_inv _ _ _ _ _ _ Hq) _ _ (rq_server _ _ _ _ _ _ Hq)) as (Hvms & Hls & _).
  destruct (map_guards (or_block known b) Hsep' (add_block b h (k_memory k)) (vm_manager ps) b (bm_size b) t)
    as (Hr & Hf & _ & Hhi & vm0 & vm1 & vm2 & E0 & E1 & E2 & Hvm2 & Hl2 & Hv2); try done; rewrite ?Ebs; try lia.
  { eapply vm_inv_weaken; [|exact Hvms]. intros ? ?; by left. } { apply Hq. }
  exists data, h, vm2. split; [done|]. split; [done|].
  destruct (filled_block b (CITRA_PAGE_SIZE + off) data (host (k_memory k)) (rq_bytes _ _ _ _ _ _ Hq) Hdb) as (Hb1 & Hb2 & Hb3); try lia.
  rewrite Z.add_assoc in Hb1, Hb2, Hb3. fold h1 h in Hb1, Hb2, Hb3.
  assert (IPC_MAPPING_VADDR + IPC_MAPPING_SIZE < 2 ^ 31) by done. pose proof Hr as (_ & _ & ? & _). split.
  - unfold map_buffer, make_buffer. rewrite Eu. change (t_kernel st) with k. cbv zeta.
    change (mkBacking (new_buffer (k_memory k) (buffer_total off size)) (buffer_total off size)) with b. rewrite <- Ebs. fold h1.
    fold (add_block b h1 (k_memory k)). unfold read_process. cbn [processes put_memory k_memory].
    rewrite (rq_client _ _ _ _ _ _ Hq). cbn [mbind option_bind]. rewrite Er1. cbn [mbind option_bind processes put_memory k_memory].
    unfold store_bytes. rewrite block_valid by lia. cbn [assert_ mbind option_bind].
    change (set_host (add_block b h1 (k_memory k)) _) with (add_block b h (k_memory k)).
    rewrite (rq_server _ _ _ _ _ _ Hq). cbn [mbind option_bind]. rewrite E0. cbn [mbind option_bind].
    rewrite E1. cbn [mbind option_bind]. rewrite E2. cbn [mbind option_bind]. unfold cmd_put. cbn [cmd_buf set_kernel]. rewrite Hw.
    cbn [mbind option_bind]. by rewrite !u32_id by (rewrite ?u32_id; lia).
  - rewrite Ebs in *. do 3 (split; [done || lia|]). done.
Qed.

(** The server's pages behind its copy are separate, and lie in the new block. *)
Lemma server_separate k pc ps source size t vm h :
  request_ok k pc ps source size t →
  let b := buffer_of k source size in
  let ms := add_block b h (k_memory k) in
  let off := source `mod` CITRA_PAGE_SIZE in
  let target := t + CITRA_PAGE_SIZE + off in
  vm_inv (page_cached ms) (or_block known b) vm → (∀ a, attr_at (vma_map vm) a = buffer_view (vma_map (vm_manager ps)) b t (buffer_total off size) a) →
  separate_range (process_pages (set_vm vm ps)) ms target (target + size) ∧
  ∀ x, behind (process_pages (set_vm vm ps)) ms target (target + size) x →
    bm_ptr b + CITRA_PAGE_SIZE + off <= x < bm_ptr b + CITRA_PAGE_SIZE + off + size.
Proof.
  intros Hq b ms off target Hinv Hview. pose proof (server_range k pc ps source size t vm h Hq Hinv Hview) as Hs.
  assert (∀ a, target <= a < target + size → ∃ ref, page_backing (process_pages (set_vm vm ps)) ms (a / CITRA_PAGE_SIZE) (Some ref) ∧
            GetPtr ref + a `mod` CITRA_PAGE_SIZE = bm_ptr b + CITRA_PAGE_SIZE + off + (a - target)) as Hp.
  { intros a Ha. destruct (Hs (a - target) ltac:(lia)) as (ref & Hr & E). fold off in Hr, E. fold target in Hr, E. fold b in E.
    replace (target + (a - target)) with a in Hr, E by lia. by exists ref. }
  split; [split|].
  - intros a Ha. destruct (Hp a Ha) as (ref & Hr & _). by exists ref.
  - intros a a' ra ra' Ha Ha' Hr Hr' Eq. destruct (Hp a Ha) as (r1 & Hr1 & E1), (Hp a' Ha') as (r2 & Hr2 & E2).
    pose proof (page_backing_det _ _ _ _ _ Hr Hr1). pose proof (page_backing_det _ _ _ _ _ Hr' Hr2). simplify_eq. lia.
  - intros x (a & ref & Ha & Hr & ->). destruct (Hp a Ha) as (r1 & Hr1 & E1). pose proof (page_backing_det _ _ _ _ _ Hr Hr1). simplify_eq. lia.
Qed.

(** What the server reads is what the block holds. *)
Lemma server_read k pc ps source size t vm h data :
  request_ok k pc ps source size t →
  let b := buffer_of k source size in
  let ms := add_block b h (k_memory k) in
  let off := source `mod` CITRA_PAGE_SIZE in
  let target := t + CITRA_PAGE_SIZE + off in
  0 <= t → target + size <= 2 ^ 31 →
  vm_inv (page_cached ms) (or_block known b) vm → (∀ a, attr_at (vma_map vm) a = buffer_view (vma_map (vm_manager ps)) b t (buffer_total off size) a) →
  length data = Z.to_nat size → (∀ j d, data !! j = Some d → host_byte h (bm_ptr b + CITRA_PAGE_SIZE + off + Z.of_nat j) = d) →
  ReadBlock rasterizer (process_pages (set_vm vm ps)) target size ms = Some (ms, data).
Proof.
  intros Hq b ms off target Ht H31 Hinv Hview Hlen Hd. pose proof (server_range k pc ps source size t vm h Hq Hinv Hview) as Hs.
  pose proof (rq_size _ _ _ _ _ _ Hq) as Hsz. assert (0 < CITRA_PAGE_SIZE) by done.
  pose proof (Z.mod_pos_bound source CITRA_PAGE_SIZE ltac:(done)) as Ho. fold off in Ho.
  destruct (server_separate k pc ps source size t vm h Hq Hinv Hview) as [[Hok _] _].
  destruct (read_block_ok rasterizer (λ _, 0) (process_pages (set_vm vm ps)) ms target size) as (d2 & -> & Hl2 & Hd2);
    [unfold target; lia|lia|done| |done|].
  { intros a Ha. destruct (Hok a Ha) as (r & Hr). by exists (Some r). }
  do 2 f_equal. apply list_eq_same_length with (n := length data); [done|congruence|]. intros i x y Hi Hx Hy.
  apply Hd2 in Hx. apply Hd in Hy. destruct (Hs (Z.of_nat i) ltac:(lia)) as (r & Hr & E). fold off in Hr, E. fold target in Hr, E. fold b in E.
  rewrite (Read8_ok _ _ _ _ _ (Some r)) in Hx; [|unfold target; lia|done|done]. injection Hx as <-. simpl. rewrite E. done.
Qed.

(** While the server has the buffer, with host memory [h]. *)
Record mapped k (pc ps : Process IS) (source size t : Z) (vm : VMManager) (h : gmap Z Z) : Prop := {
  mp_request : request_ok k pc ps source size t;
  mp_range : valid_range t (buffer_total (source `mod` CITRA_PAGE_SIZE) size);
  mp_was_free : range_free (vma_map (vm_manager ps)) t (buffer_total (source `mod` CITRA_PAGE_SIZE) size);
  mp_vm : vm_inv (page_cached (k_memory k)) (or_block known (buffer_of k source size)) vm;
  mp_unlocked : VMManager.is_locked vm = false;
  mp_view : ∀ a, attr_at (vma_map vm) a =
    buffer_view (vma_map (vm_manager ps)) (buffer_of k source size) t (buffer_total (source `mod` CITRA_PAGE_SIZE) size) a;
  mp_bytes : ∀ x, 0 <= host_byte h x < 2 ^ 8 }.

Lemma mapped_bounds k pc ps source size t vm h :
  mapped k pc ps source size t vm h →
  let off := source `mod` CITRA_PAGE_SIZE in
  0 <= off < CITRA_PAGE_SIZE ∧ 0 <= t ∧ t + CITRA_PAGE_SIZE + off + size <= t + buffer_total off size - CITRA_PAGE_SIZE ∧
  t + buffer_total off size < 2 ^ 31 ∧ 0 < size < 2 ^ 28 ∧ 0 <= source ∧ source + size <= 2 ^ 31 ∧ 0 < CITRA_PAGE_SIZE.
Proof.
  intros Hm off. pose proof (Z.mod_pos_bound source CITRA_PAGE_SIZE ltac:(done)) as Ho. fold off in Ho.
  pose proof (rq_size _ _ _ _ _ _ (mp_request _ _ _ _ _ _ _ _ Hm)) as Hsz. pose proof (rq_source _ _ _ _ _ _ (mp_request _ _ _ _ _ _ _ _ Hm)).
  destruct (buffer_total_bounds off size Ho Hsz) as (_ & Hfit & _).
  destruct (mp_range _ _ _ _ _ _ _ _ Hm) as (_ & _ & Hm0 & _ & Hm1). fold off in Hm1. assert (MAX_ADDRESS < 2 ^ 31 ∧ 0 < CITRA_PAGE_SIZE) by done. lia.
Qed.

(** The server writes: its block has the new bytes, and no other host byte changes. *)
Lemma server_write k pc ps source size t vm h data :
  mapped k pc ps source size t vm h → length data = Z.to_nat size → Forall (λ x, 0 <= x < 2 ^ 8) data →
  let b := buffer_of k source size in
  let target := t + CITRA_PAGE_SIZE + source `mod` CITRA_PAGE_SIZE in
  ∃ h', WriteBlock rasterizer (process_pages (set_vm vm ps)) target (FromBuffer data) (Z.of_nat (length data)) (add_block b h (k_memory k)) =
          Some (add_block b h' (k_memory k)) ∧
    ReadBlock rasterizer (process_pages (set_vm vm ps)) target size (add_block b h' (k_memory k)) =
      Some (add_block b h' (k_memory k), data) ∧
    mapped k pc ps source size t vm h' ∧
    ∀ x, ~ (bm_ptr b <= x < bm_ptr b + bm_size b) → host_byte h' x = host_byte h x.
Proof.
  intros Hm Hlen Hb b target. destruct (mapped_bounds k pc ps source size t vm h Hm) as (Ho & H0 & Hfit & Htop & Hsz & _ & _ & HP).
  destruct Hm as [Hq Hr Hf Hvm Hl Hv Hby]. set (off := source `mod` CITRA_PAGE_SIZE) in *.
  destruct (server_separate k pc ps source size t vm h Hq Hvm Hv) as [Hs Hbeh]. fold off in Hs, Hbeh. fold target b in Hs, Hbeh.
  assert (Z.of_nat (length data) = size) as El by lia.
  destruct (write_read_across rasterizer (λ _, 0) (Hras Invalidate) (process_pages (set_vm vm ps)) (process_pages (set_vm vm ps))
              (add_block b h (k_memory k)) target target data (Hras Flush)) as (h' & Ew & Er & Hfr); rewrite ?El; try (done || (unfold target; lia)).
  { intros j Hj. destruct (proj1 Hs (target + j) ltac:(lia)) as (r & Hr'). by exists r, r. }
  rewrite El in Ew, Er. exists h'. split; [done|]. split; [done|].
  assert (∀ x, ~ (bm_ptr b <= x < bm_ptr b + bm_size b) → host_byte h' x = host_byte h x) as Hout.
  { intros x Hx. apply Hfr. rewrite El. intros a ref Ha Hpb ->. apply Hx. assert (bm_size b = buffer_total off size) as -> by done.
    specialize (Hbeh _ (ex_intro _ a (ex_intro _ ref (conj Ha (conj Hpb eq_refl))))). lia. }
  split; [|done]. constructor; try done.
  destruct (write_block_ok rasterizer (λ _, 0) (Hras Invalidate) (process_pages (set_vm vm ps)) (add_block b h (k_memory k)) target data)
    as (h1 & Ew1 & He); rewrite ?El; try (done || (unfold target; lia)).
  { intros a Ha. destruct (proj1 Hs a Ha) as (r & Hr'). by exists (Some r). }
  destruct (write_each_frame rasterizer (Hras Invalidate) (process_pages (set_vm vm ps)) target data (add_block b h (k_memory k))
              (add_block b h1 (k_memory k))) as (h2 & E2 & Hwf & _); try (done || (unfold target; lia)).
  { intros a Ha. destruct (proj1 Hs a ltac:(lia)) as (r & Hr'). by exists (Some r). }
  rewrite El, Ew in Ew1. apply Some_inj, (f_equal host) in Ew1. simpl in Ew1. subst h1. by apply Hwf.
Qed.

(** The reply copies the server's bytes to the client. *)
Lemma copy_back k pc ps source size t vm h data :
  mapped k pc ps source size t vm h →
  let ms := add_block (buffer_of k source size) h (k_memory k) in
  let target := t + CITRA_PAGE_SIZE + source `mod` CITRA_PAGE_SIZE in
  ReadBlock rasterizer (process_pages (set_vm vm ps)) target size ms = Some (ms, data) →
  ∃ h', CopyBlock rasterizer (process_pages pc) (process_pages (set_vm vm ps)) source target size ms = Some (set_host ms h') ∧
    ReadBlock rasterizer (process_pages pc) source size (set_host ms h') = Some (set_host ms h', data).
Proof.
  intros Hm ms target Er. destruct (mapped_bounds k pc ps source size t vm h Hm) as (Ho & H0 & Hfit & Htop & Hsz & Hs0 & Hs1 & HP).
  destruct Hm as [Hq Hr Hf Hvm Hl Hv Hby]. set (off := source `mod` CITRA_PAGE_SIZE) in *.
  destruct (server_separate k pc ps source size t vm h Hq Hvm Hv) as [[Hsok _] Hbeh]. fold off in Hsok, Hbeh. fold target ms in Hsok, Hbeh.
  destruct (client_range k pc ps source size t h Hq) as [Hc Hcbeh]. fold ms in Hc, Hcbeh.
  assert (Z.of_nat (Z.to_nat size) = size) as Es by lia.
  destruct (copy_block_ok rasterizer (Hras Flush) (Hras Invalidate) (process_pages (set_vm vm ps)) (process_pages pc) ms source target (Z.to_nat size))
    as (data1 & h1 & Er1 & Hl1 & Hb1 & Ew1 & _ & Ec1); rewrite ?Es; try (done || (unfold target; lia)).
  { intros a Ha. destruct (Hsok a Ha) as (r & Hr'). by exists (Some r). }
  { intros a Ha. destruct (proj1 Hc a Ha) as (r & Hr'). by exists (Some r). }
  { intros x Hx1 Hx2. apply (Hcbeh x Hx2). specialize (Hbeh x Hx1).
    assert (bm_size (buffer_of k source size) = buffer_total off size) as -> by done. lia. }
  rewrite Es in Er1, Ew1, Ec1. rewrite Er in Er1. injection Er1 as <-.
  assert (Z.of_nat (length data) = size) as El by lia.
  destruct (write_read_across rasterizer (λ _, 0) (Hras Invalidate) (process_pages pc) (process_pages pc) ms source source data (Hras Flush))
    as (h2 & Ew2 & Er2 & _); rewrite ?El; try (done || lia).
  { intros j Hj. destruct (proj1 Hc (source + j) ltac:(lia)) as (r & Hr'). by exists r, r. }
  rewrite El in Ew2, Er2. rewrite Ew1 in Ew2. apply Some_inj, (f_equal host) in Ew2. simpl in Ew2. subst h2. by exists h1.
Qed.

(** An address space all of whose memory is of known blocks. *)
Lemma tiles_known (known' : BackingMem → Prop) lo l hi :
  tiles known' lo l hi →
  (∀ a x, attr_at l a = Some x → a_type x = BackingMemory → ∃ c, backing_mem (a_ref x) = Some c ∧ known c) → tiles known lo l hi.
Proof.
  revert lo. induction l as [|v l IH]; intros lo; [done|]. intros (Hb & Hok & Ht) Hk.
  split; [done|]. split.
  - destruct Hok as (H1 & H2 & H3 & H4). split; [done|]. split; [done|]. split; [done|]. destruct (vma_type v) eqn:Ety; [done|].
    destruct H4 as (Hh & _). split; [done|].
    destruct (Hk (vma_base v) (attr v (vma_base v))) as (c & Ec & Hc).
    + cbn [attr_at]. by rewrite (proj2 (in_range_iff _ _ _)) by (unfold vma_end; lia).
    + unfold attr. by rewrite Ety.
    + exists c. split; [|done]. revert Ec. unfold attr. by rewrite Ety.
  - apply IH; [done|]. intros a x Hx. apply (Hk a). cbn [attr_at].
    destruct (in_range (vma_base v) (vma_end v) a) eqn:E; [|done]. apply in_range_iff in E.
    rewrite (attr_at_outside known' (vma_end v) l hi) in Hx by (done || lia). done.
Qed.

(** The server's address space loses the buffer and is what it was. *)
Lemma unmap_copy k pc ps source size t vm h :
  mapped k pc ps source size t vm h →
  let total := buffer_total (source `mod` CITRA_PAGE_SIZE) size in
  state_at vm t = Some StateReserved ∧ state_at vm (t + total - CITRA_PAGE_SIZE) = Some StateReserved ∧
  ∃ vm', UnmapRange (page_cached (k_memory k)) vm t total = Some (vm', ResultSuccess) ∧
    vm_inv (page_cached (k_memory k)) known vm' ∧ VMManager.is_locked vm' = false ∧
    ∀ a, attr_at (vma_map vm') a = attr_at (vma_map (vm_manager ps)) a.
Proof.
  intros Hm total. destruct (mapped_bounds k pc ps source size t vm h Hm) as (Ho & H0 & Hfit & Htop & Hsz & _ & _ & HP). fold total in Hfit, Htop.
  destruct Hm as [Hq Hr Hf Hvm Hl Hv _]. fold total in Hr, Hf, Hv. pose proof Hr as (_ & _ & _ & _ & Hmax).
  destruct (fresh_block k pc ps source size t Hq) as (_ & _ & Hsep' & _).
  split; [|split].
  1-2: rewrite (state_at_view _ _ _ _ Hvm) by lia; rewrite Hv; unfold buffer_view, is_guard; rewrite (proj2 (in_range_iff t (t + total) _)) by lia.
  { by rewrite (proj2 (in_range_iff t (t + CITRA_PAGE_SIZE) _)) by lia. }
  { by rewrite (proj2 (in_range_iff (t + total - CITRA_PAGE_SIZE) _ _)), orb_true_r by lia. }
  destruct (UnmapRange_backed (page_cached (k_memory k)) _ Hsep' vm t total Hvm Hl Hr) as (vm' & Eu & Hvm' & Hl' & Hv').
  { intros a Ha. rewrite Hv. unfold buffer_view. by rewrite (proj2 (in_range_iff _ _ _)) by lia. }
  assert (∀ a, attr_at (vma_map vm') a = attr_at (vma_map (vm_manager ps)) a) as Hsame.
  { intros a. rewrite Hv', Hv. unfold buffer_view. destruct (in_range t (t + total) a) eqn:E; [|done]. symmetry. apply Hf. by apply in_range_iff. }
  exists vm'. split; [done|]. split; [|done]. destruct Hvm' as (Ht & Hn & Hp).
  destruct (si_vm _ _ (rq_inv _ _ _ _ _ _ Hq) _ _ (rq_server _ _ _ _ _ _ Hq)) as ((Hts & _) & _).
  split; [|by split]. apply (tiles_known _ _ _ _ Ht). intros a x Hx Hty. rewrite Hsame in Hx.
  destruct (attr_ref_backed known _ _ _ Hts Hx Hty) as [_ (c & Ec & Hc)]. by exists c.
Qed.

(** The offset of the buffer in a page of the server is that in the client. *)
Lemma target_split off t :
  0 <= off < CITRA_PAGE_SIZE → t `mod` CITRA_PAGE_SIZE = 0 → (t + CITRA_PAGE_SIZE + off) `mod` CITRA_PAGE_SIZE = off.
Proof. intros Ho Ht. rewrite <- Z.add_mod_idemp_l by done. rewrite (aligned_add t CITRA_PAGE_SIZE) by done. by apply Z.mod_small. Qed.

(** The context of the request is found, and taken out. *)
Lemma find_context permissions size source target b (l : list MappedBufferContext) :
  (∀ c, c ∈ l → matches_buffer permissions size target c = false) →
  let c := mkContext permissions size source target b in
  list_find (λ c, matches_buffer permissions size target c = true) (l ++ [c]) = Some (length l, c) ∧ erase (length l) (l ++ [c]) = l.
Proof.
  intros Hl c. split.
  - rewrite list_find_app_r; [|apply list_find_None, Forall_forall; intros x Hx; by rewrite (Hl x Hx)].
    cbn [list_find]. rewrite decide_True; [done|]. unfold matches_buffer. simpl. by rewrite !Z.eqb_refl.
  - unfold erase. rewrite take_app_length, drop_ge by (rewrite length_app; simpl; lia). apply app_nil_r.
Qed.

Lemma unmap_buffer_ok (st : TState (IS := IS)) k pc ps source size t vm h permissions data dc :
  mapped k pc ps source size t vm h → t_kernel st = requested k ps source size vm h →
  let off := source `mod` CITRA_PAGE_SIZE in
  let target := t + CITRA_PAGE_SIZE + off in
  let b := buffer_of k source size in
  let ms := add_block b h (k_memory k) in
  (∀ c, c ∈ mapped_buffer_context st → matches_buffer permissions size target c = false) →
  ReadBlock rasterizer (process_pages (set_vm vm ps)) target size ms = Some (ms, data) →
  ReadBlock rasterizer (process_pages pc) source size ms = Some (ms, dc) →
  ∃ h' vm',
    unmap_buffer rasterizer server client permissions size target (t + CITRA_PAGE_SIZE) (buffer_pages off size)
      (set_context (mapped_buffer_context st ++ [mkContext permissions size source target b]) st) =
      Some (set_kernel (requested k ps source size vm' h') st) ∧
    vm_inv (page_cached (k_memory k)) known vm' ∧ VMManager.is_locked vm' = false ∧
    (∀ a, attr_at (vma_map vm') a = attr_at (vma_map (vm_manager ps)) a) ∧
    ReadBlock rasterizer (process_pages pc) source size (add_block b h' (k_memory k)) =
      Some (add_block b h' (k_memory k), if permissions =? MBP_R then dc else data).
Proof.
  intros Hm Ek off target b ms Hc Hr Hrc.
  destruct (mapped_bounds k pc ps source size t vm h Hm) as (Ho & H0 & Hfit & Htop & Hsz & _ & _ & HP). fold off in Ho, Hfit, Htop.
  destruct (buffer_total_bounds off size Ho Hsz) as (Hnp & _ & _ & _ & Eu).
  destruct (unmap_copy k pc ps source size t vm h Hm) as (Eprev & Enext & vm' & Eunmap & Hvm' & Hl' & Hsame). fold off in Enext, Eunmap.
  destruct (copy_back k pc ps source size t vm h data Hm Hr) as (h1 & Ecopy & Eread). fold off in Ecopy. fold target b in Ecopy, Eread. fold ms in Ecopy, Eread.
  exists (if permissions =? MBP_R then h else h1), vm'. split; [|split; [done|split; [done|split; [done|]]]].
  2: { destruct (permissions =? MBP_R); [exact Hrc|exact Eread]. }
  unfold unmap_buffer. cbn [mapped_buffer_context set_context t_kernel].
  destruct (find_context permissions size source target b (mapped_buffer_context st) Hc) as [-> Eerase]. cbn [mbind option_bind].
  assert (processes (requested k ps source size vm h) !! process_id client = Some pc) as Epc.
  { unfold requested. cbn [processes put_process put_memory]. rewrite lookup_insert_ne by done. apply Hm. }
  assert (processes (requested k ps source size vm h) !! process_id server = Some (set_vm vm ps)) as Eps by apply lookup_insert_eq.
  rewrite Ek. set (k2 := put_memory (add_block b (if permissions =? MBP_R then h else h1) (k_memory k)) (requested k ps source size vm h)).
  rewrite Epc, Eps. cbn [mbind option_bind mc_source_address mc_target_address].
  change (k_memory (requested k ps source size vm h)) with ms. rewrite Ecopy. cbn [mbind option_bind].
  assert ((if negb (permissions =? MBP_R) then Some (put_memory (set_host ms h1) (requested k ps source size vm h))
           else Some (requested k ps source size vm h)) = Some k2) as -> by (unfold k2; by destruct (permissions =? MBP_R)).
  cbn [mbind option_bind]. change (processes k2) with (processes (requested k ps source size vm h)). rewrite Eps. cbn [mbind option_bind].
  change (vm_manager (set_vm vm ps)) with vm.
  replace (u32 (t + CITRA_PAGE_SIZE - CITRA_PAGE_SIZE)) with t by (rewrite u32_id; lia).
  replace (u32 (t + CITRA_PAGE_SIZE + buffer_pages off size * CITRA_PAGE_SIZE)) with (t + buffer_total off size - CITRA_PAGE_SIZE)
    by (rewrite u32_id; unfold buffer_total in *; lia).
  rewrite Eprev, Enext, Eu. cbn [mbind option_bind]. cbn [bool_decide andb assert_ mbind option_bind].
  change (page_cached (k_memory k2)) with (page_cached (k_memory k)). rewrite Eunmap. cbn [mbind option_bind].
  cbn [assert_ mbind option_bind]. rewrite Eerase.
  rewrite bool_decide_eq_true_2, Z.eqb_refl by done. cbn [andb assert_ mbind option_bind]. do 2 f_equal.
  unfold k2, requested, put_process. cbn. by rewrite insert_insert_eq.
Qed.

(** The two cases of a descriptor for a buffer that is not empty. *)
Lemma translate_mapped_eq (src dst : Peer) reply (st : TState (IS := IS)) i permissions size source :
  cmd_buf st !! i = Some source → 0 <= permissions < 4 → 0 < size < 2 ^ 28 → 0 <= source < 2 ^ 31 →
  let off := source `mod` CITRA_PAGE_SIZE in
  translate_mapped rasterizer new_buffer src dst reply (MappedBufferDesc size permissions) i st =
    if reply then unmap_buffer rasterizer src dst permissions size source (source - off) (buffer_pages off size) st
    else map_buffer rasterizer new_buffer src dst permissions size source off (buffer_pages off size) i st.
Proof.
  intros Hi Hp Hs Hsrc off. destruct (mapped_desc_fields size permissions ltac:(lia) Hp) as (_ & Es & Ep).
  pose proof (Z.mod_pos_bound source CITRA_PAGE_SIZE ltac:(done)) as Ho. fold off in Ho.
  assert (CITRA_PAGE_SIZE = 0x1000) as EP by done.
  destruct (buffer_total_bounds off size Ho ltac:(lia)) as (Hn & _).
  unfold translate_mapped, cmd_get. rewrite Hi, Es, Ep. cbn [mbind option_bind]. rewrite AlignDown_spec by lia. fold off.
  replace (u32 (source - (source - off))) with off by (rewrite u32_id; lia). fold (buffer_pages off size).
  rewrite (proj2 (Z.eqb_neq size 0)), (proj2 (Z.leb_le _ _)) by lia. done.
Qed.

(** C16: A mapped buffer travels to the server and back (for an address space and memory as [request_ok]
    says).  The request succeeds; the server reads at the translated address the bytes that the
    client has in its buffer, and the client still reads them; the server may write any bytes [data']
    there; the reply that names the translated address succeeds, the client then reads [data'] if the
    buffer was not read-only and its own bytes if it was, and the server's address space and the
    list of contexts are as before the request. *)
Theorem mapped_buffer_roundtrip (st : TState (IS := IS)) i permissions source size t pc ps :
  let k := t_kernel st in
  let desc := MappedBufferDesc size permissions in
  let target := t + CITRA_PAGE_SIZE + source `mod` CITRA_PAGE_SIZE in
  request_ok k pc ps source size t → 0 <= permissions < 4 → cmd_buf st !! i = Some source →
  (∀ c, c ∈ mapped_buffer_context st → matches_buffer permissions size target c = false) →
  ∃ data st1,
    read_process rasterizer (process_id client) source size k = Some (k, data) ∧ length data = Z.to_nat size ∧
    translate_mapped rasterizer new_buffer client server false desc i st = Some st1 ∧
    cmd_buf st1 = <[i := target]> (cmd_buf st) ∧
    read_process rasterizer (process_id server) target size (t_kernel st1) = Some (t_kernel st1, data) ∧
    read_process rasterizer (process_id client) source size (t_kernel st1) = Some (t_kernel st1, data) ∧
    ∀ data', length data' = Z.to_nat size → Forall (λ x, 0 <= x < 2 ^ 8) data' →
      ∃ k2, write_process rasterizer (process_id server) target data' (t_kernel st1) = Some k2 ∧
        ∀ cmd j, cmd !! j = Some target →
          ∃ k3 ps', translate_mapped rasterizer new_buffer server client true desc j (mkTState k2 cmd (mapped_buffer_context st1)) =
                  Some (mkTState k3 cmd (mapped_buffer_context st)) ∧
            read_process rasterizer (process_id client) source size k3 = Some (k3, if permissions =? MBP_R then data else data') ∧
            processes k3 !! process_id client = Some pc ∧ processes k3 !! process_id server = Some ps' ∧
            vm_inv (page_cached (k_memory k3)) known (vm_manager ps') ∧
            ∀ a, attr_at (vma_map (vm_manager ps')) a = attr_at (vma_map (vm_manager ps)) a.
Proof.
  intros k desc target Hq Hp Hi Hc. set (off := source `mod` CITRA_PAGE_SIZE) in *. set (b := buffer_of k source size).
  destruct (map_buffer_ok st i source permissions source size t pc ps Hq Hi)
    as (data & h & vm & Er & Hlen & Emap & Hr & Hf & Htop & Hvm & Hl & Hv & Hby & Hfr & Hd).
  fold k off in Er, Emap, Hr, Hf, Htop, Hvm, Hv, Hfr, Hd. fold b in Emap, Hr, Hf, Htop, Hvm, Hv, Hfr, Hd.
  assert (mapped k pc ps source size t vm h) as Hm by (by constructor).
  destruct (mapped_bounds k pc ps source size t vm h Hm) as (Ho & H0 & Hfit & Ht31 & Hsz & Hs0 & Hs1 & HP). fold off in Ho, Hfit, Ht31.
  assert (∀ h', (∀ x, ~ (bm_ptr b <= x < bm_ptr b + bm_size b) → host_byte h' x = host_byte (host (k_memory k)) x) →
            ReadBlock rasterizer (process_pages pc) source size (add_block b h' (k_memory k)) = Some (add_block b h' (k_memory k), data)) as Hcl.
  { intros h' Hh'. by apply (client_read k pc ps source size t). }
  eexists data, _. split; [apply (read_process_ok rasterizer _ pc); [apply Hq|done]|]. split; [done|].
  split; [unfold desc; rewrite (translate_mapped_eq client server false st i permissions size source) by (done || lia); exact Emap|].
  split; [done|]. cbn [t_kernel mapped_buffer_context].
  split; [apply (read_process_ok rasterizer _ (set_vm vm ps)); [apply lookup_insert_eq|]|].
  { apply (server_read k pc ps source size t vm h data Hq); try done. lia. }
  assert (∀ vm h, processes (requested k ps source size vm h) !! process_id server = Some (set_vm vm ps)) as Eps.
  { intros. apply lookup_insert_eq. }
  assert (∀ vm h, processes (requested k ps source size vm h) !! process_id client = Some pc) as Epc.
  { intros. unfold requested. cbn [processes put_process put_memory]. rewrite lookup_insert_ne by done. apply Hq. }
  split; [apply (read_process_ok rasterizer _ pc); [done|by apply Hcl]|].
  intros data' Hlen' Hb'.
  destruct (server_write k pc ps source size t vm h data' Hm Hlen' Hb') as (h2 & Ew & Er2 & Hm2 & Hfr2).
  exists (requested k ps source size vm h2). split.
  { unfold write_process. rewrite Eps. cbn [mbind option_bind]. fold off in Ew. fold target b in Ew. change (k_memory (requested _ _ _ _ _ _)) with (add_block b h (k_memory k)). rewrite Ew. done. }
  intros cmd j Hj.
  destruct (unmap_buffer_ok (mkTState (requested k ps source size vm h2) cmd (mapped_buffer_context st)) k pc ps source size t vm h2
              permissions data' data Hm2 eq_refl Hc Er2) as (h3 & vm3 & Eun & Hvm3 & Hl3 & Hv3 & Er3).
  { apply Hcl. intros x Hx. rewrite Hfr2 by done. by apply Hfr. }
  destruct (mp_range _ _ _ _ _ _ _ _ Hm) as (Htm & _). pose proof (target_split off t Ho Htm) as Et. fold target in Et.
  eexists (requested k ps source size vm3 h3), (set_vm vm3 ps). split; [|split; [|split; [done|split; [apply lookup_insert_eq|done]]]].
  - unfold desc. rewrite (translate_mapped_eq server client true _ j permissions size target); try (done || (unfold target; lia)).
    rewrite Et. replace (target - off) with (t + CITRA_PAGE_SIZE) by (unfold target; lia). exact Eun.
  - by apply (read_process_ok rasterizer _ pc).
Qed.

End Roundtrip.

Module Examples.
Import Process.Examples SharedMemory.Examples IPC.Examples.

(** An allocator that puts a buffer behind all blocks. *)
Definition behind_all (ms : MemorySystem) (n : Z) : Z := 1 + foldr (λ b, Z.max (bm_ptr b + bm_size b)) 0 (host_blocks ms).

Lemma behind_all_apart ms n :
  0 < n → 0 < behind_all ms n ∧
  ∀ b, b ∈ host_blocks ms → behind_all ms n + n < bm_ptr b ∨ bm_ptr b + bm_size b < behind_all ms n.
Proof.
  intros _. unfold behind_all. generalize (host_blocks ms). intros l. split.
  - induction l; simpl; lia.
  - intros b Hb. right. induction l as [|c l IH]; [by apply elem_of_nil in Hb|].
    apply elem_of_cons in Hb as [->|Hb]; simpl; [lia|]. specialize (IH Hb). lia.
Qed.

(** A buffer of four bytes across two pages of the heap of the application. *)
Definition request : TState (IS := seg_set) := mkTState kheap [0; HEAP_VADDR + 0xFFE] [].

Lemma heap_attr a :
  HEAP_VADDR <= a < HEAP_VADDR + 0x3000 →
  attr_at (vma_map heap_vm) a =
    Some (mkAttr BackingMemory PermReadWrite StatePrivate (mkRef (Some Memory.Examples.fcram) (0x3FFD000 + (a - HEAP_VADDR)))).
Proof.
  intros Ha. destruct (map_protected_ok only_fcram only_fcram_separate Memory.Examples.demo_memory VMManager.Examples.fresh_vm HEAP_VADDR
              (mkRef (Some Memory.Examples.fcram) 0x3FFD000) 0x3000 StatePrivate PermReadWrite)
    as (vm & E & _ & _ & [Hin _]).
  - apply fresh_inv_any.
  - done.
  - by split_and!.
  - split; exists Memory.Examples.fcram; split_and!; done.
  - by apply VMManager.Examples.fresh_free.
  - unfold heap_vm. rewrite E. rewrite Hin by lia. done.
Qed.

Lemma request_circumstances :
  request_ok only_fcram app service kheap (process demo_heap) (process demo) (HEAP_VADDR + 0xFFE) 4 IPC_MAPPING_VADDR.
Proof.
  split.
  - exact kheap_inv.
  - exact demo_hosted.
  - exact MemoryCopy.Examples.demo_host_wf.
  - apply lookup_insert_eq.
  - reflexivity.
  - done.
  - lia.
  - intros a Ha. cbn [process demo_heap set_process set_vm vm_manager]. by rewrite heap_attr by lia.
  - intros a a' x x' Ha Ha'. cbn [process demo_heap set_process set_vm vm_manager]. rewrite !heap_attr by lia.
    intros [= <-] [= <-] E. unfold GetPtr in E. cbn [a_ref backing_mem offset] in E. lia.
  - intros a _. apply (demo_uncached a 1). lia.
  - vm_compute. reflexivity.
Qed.

(** A service gets the buffer for reading and writing, and changes it. *)
Lemma mapped_buffer_witness :
  ∃ data st1 k2 k3, read_process Memory.Examples.no_cache 1 (HEAP_VADDR + 0xFFE) 4 kheap = Some (kheap, data) ∧
    translate_mapped Memory.Examples.no_cache behind_all app service false (MappedBufferDesc 4 MBP_RW) 1 request = Some st1 ∧
    read_process Memory.Examples.no_cache 2 (IPC_MAPPING_VADDR + 0x1FFE) 4 (t_kernel st1) = Some (t_kernel st1, data) ∧
    write_process Memory.Examples.no_cache 2 (IPC_MAPPING_VADDR + 0x1FFE) [1; 2; 3; 4] (t_kernel st1) = Some k2 ∧
    translate_mapped Memory.Examples.no_cache behind_all service app true (MappedBufferDesc 4 MBP_RW) 0
      (mkTState k2 [IPC_MAPPING_VADDR + 0x1FFE] (mapped_buffer_context st1)) = Some (mkTState k3 [IPC_MAPPING_VADDR + 0x1FFE] []) ∧
    read_process Memory.Examples.no_cache 1 (HEAP_VADDR + 0xFFE) 4 k3 = Some (k3, [1; 2; 3; 4]).
Proof.
  destruct (mapped_buffer_roundtrip only_fcram only_fcram_separate Memory.Examples.no_cache ltac:(intros mode h p n; reflexivity)
              behind_all behind_all_apart app service ltac:(discriminate) request 1 MBP_RW (HEAP_VADDR + 0xFFE) 4 IPC_MAPPING_VADDR
              (process demo_heap) (process demo) request_circumstances)
    as (data & st1 & E1 & _ & E2 & _ & E3 & _ & Hw).
  - vm_compute. split; congruence.
  - reflexivity.
  - intros c Hc. by apply elem_of_nil in Hc.
  - destruct (Hw [1; 2; 3; 4] eq_refl) as (k2 & E4 & Hr); [repeat (apply Forall_cons_2; [lia|]); apply Forall_nil_2|].
    destruct (Hr [IPC_MAPPING_VADDR + 0x1FFE] 0%nat eq_refl) as (k3 & ps' & E5 & E6 & _).
    exists data, st1, k2, k3. split; [exact E1|]. split; [exact E2|]. split; [exact E3|]. split; [exact E4|]. split; [exact E5|exact E6].
Defined.

End Examples.
