(* ===== verification/HLEContext.v ===== *)
(** * Requests to emulated services
    ([src/src/core/hle/kernel/hle_ipc.cpp], [src/src/core/hle/ipc_helpers.h]; the dispatch of
    [src/src/core/hle/service/service.cpp])

    A request to a service that the emulator implements itself is not translated into another process: the
    kernel copies the command and what it refers to into a context, the handler of the
    service takes its parameters from there with a parser and leaves the reply with a builder, and
    the kernel writes the reply back.  The theorems are about the two ways: the handler pops what
    the client put, and the client gets what the handler pushed. *)

From S2P Require Import IntervalSet PageTable Memory MemoryCopy HandleTable Process SharedMemory IPC.
From S2P Require Import Prelude BitField.

Definition MAX_STATIC_BUFFERS : nat := 16.

(** [Kernel::MappedBuffer], the view of a buffer of the client; the process is its id. *)
Record HLEMappedBuffer := mkMapped {
  mb_id : Z;
  mb_address : Z;
  mb_process : Z;
  mb_size : Z;
  mb_perms : Z }.

Record HLERequestContext := mkRequest {
  ctx_cmd_buf : list Z;
  request_handles : list (option Z);
  static_buffers : list (list Z);
  request_mapped_buffers : list HLEMappedBuffer }.

(** ** The context *)

(** The constructor; [stack] is what the 64 words of the array held before. *)
Definition HLERequestContext_new (stack : list Z) : HLERequestContext :=
  mkRequest (<[0%nat := 0]> stack) [] (replicate MAX_STATIC_BUFFERS []) [].

Definition set_ctx_buf (l : list Z) (c : HLERequestContext) : HLERequestContext :=
  mkRequest l (request_handles c) (static_buffers c) (request_mapped_buffers c).
(** [cmd_buf[i] = v]: outside the array undefined. *)
Definition ctx_put (i : nat) (v : Z) (c : HLERequestContext) : option HLERequestContext :=
  _ ← ctx_cmd_buf c !! i; Some (set_ctx_buf (<[i := v]> (ctx_cmd_buf c)) c).

Definition CommandHeader (c : HLERequestContext) : option Z := ctx_cmd_buf c !! 0%nat.
Definition CommandID (c : HLERequestContext) : option Z := header ← CommandHeader c; Some (command_id_of header).

Definition GetIncomingHandle (id_from_cmdbuf : Z) (c : HLERequestContext) : option (option Z) :=
  ASSERT (id_from_cmdbuf <? Z.of_nat (length (request_handles c))) ;; request_handles c !! Z.to_nat id_from_cmdbuf.
Definition AddOutgoingHandle (object : option Z) (c : HLERequestContext) : HLERequestContext * Z :=
  let handles := request_handles c ++ [object] in
  (mkRequest (ctx_cmd_buf c) handles (static_buffers c) (request_mapped_buffers c), u32 (Z.of_nat (length handles) - 1)).
Definition ClearIncomingObjects (c : HLERequestContext) : HLERequestContext :=
  mkRequest (ctx_cmd_buf c) [] (static_buffers c) (request_mapped_buffers c).
Definition GetStaticBuffer (buffer_id : Z) (c : HLERequestContext) : option (list Z) := static_buffers c !! Z.to_nat buffer_id.
Definition AddStaticBuffer (buffer_id : Z) (data : list Z) (c : HLERequestContext) : option HLERequestContext :=
  _ ← static_buffers c !! Z.to_nat buffer_id;
  Some (mkRequest (ctx_cmd_buf c) (request_handles c) (<[Z.to_nat buffer_id := data]> (static_buffers c)) (request_mapped_buffers c)).
Definition GetMappedBuffer (id_from_cmdbuf : Z) (c : HLERequestContext) : option HLEMappedBuffer :=
  ASSERT (id_from_cmdbuf <? Z.of_nat (length (request_mapped_buffers c))) ;; request_mapped_buffers c !! Z.to_nat id_from_cmdbuf.
Definition add_mapped (b : HLEMappedBuffer) (c : HLERequestContext) : HLERequestContext :=
  mkRequest (ctx_cmd_buf c) (request_handles c) (static_buffers c) (request_mapped_buffers c ++ [b]).

Definition MappedBuffer_new (process descriptor address id : Z) : HLEMappedBuffer :=
  mkMapped id address process (mapped_size_of descriptor) (perms_of descriptor).
Definition GenerateDescriptor (b : HLEMappedBuffer) : Z := MappedBufferDesc (mb_size b) (mb_perms b).

(** ** The request and the reply *)

Section Transfer.
Context {IS : Type} (rasterizer : FlushMode → Z → Z → gmap Z Z → gmap Z Z).
(** The client: its thread is the current one. *)
Context (client : Peer).
Implicit Types k : KState IS.
Implicit Types c : HLERequestContext.

Definition MappedBuffer_Read (b : HLEMappedBuffer) (offset size : Z) k : option (KState IS * list Z) :=
  ASSERT (negb (Z.land (mb_perms b) MBP_R =? 0)) ;;
  ASSERT (u64 (offset + size) <=? mb_size b) ;;
  read_process rasterizer (mb_process b) (u32 (mb_address b + u32 offset)) size k.
Definition MappedBuffer_Write (b : HLEMappedBuffer) (data : list Z) (offset : Z) k : option (KState IS) :=
  ASSERT (negb (Z.land (mb_perms b) MBP_W =? 0)) ;;
  ASSERT (u64 (offset + Z.of_nat (length data)) <=? mb_size b) ;;
  write_process rasterizer (mb_process b) (u32 (mb_address b + u32 offset)) data k.

(** *** The request *)

(** One handle of the client.  As in the translation between processes the test for a moved handle
    compares the whole descriptor. *)
Definition populate_handle (src_cmdbuf : list Z) (descriptor : Z) (i : nat) c k : option (HLERequestContext * KState IS) :=
  handle ← src_cmdbuf !! i;
  '(k, object) ← (if negb (handle =? 0) then
       t ← handle_tables k !! process_id client;
       object ← GetGeneric (Some (thread_object client)) (Some (process_object client)) handle t;
       if descriptor =? MoveHandle_bits
       then let '(_, t) := Close handle t in Some (put_table (process_id client) t k, Some object)
       else Some (k, Some object)
     else Some (k, None));
  let '(c, id) := AddOutgoingHandle object c in
  c ← ctx_put i id c;
  Some (c, k).

Fixpoint populate_handles (num_handles : nat) (src_cmdbuf : list Z) (descriptor : Z) (i : nat) c k
  : option (HLERequestContext * KState IS) :=
  match num_handles with
  | O => Some (c, k)
  | S num_handles =>
      '(c, k) ← populate_handle src_cmdbuf descriptor i c k;
      populate_handles num_handles src_cmdbuf descriptor (S i) c k
  end.

(** One round, from the word behind the descriptor; an unknown descriptor is only logged. *)
Definition populate_step (src_cmdbuf : list Z) (command_size : nat) (descriptor : Z) (i : nat) c k
  : option (HLERequestContext * KState IS * nat) :=
  match GetDescriptorType descriptor with
  | CopyHandle | MoveHandle =>
      let num_handles := Z.to_nat (HandleNumberFromDesc descriptor) in
      ASSERT (i + num_handles <=? command_size)%nat ;;
      '(c, k) ← populate_handles num_handles src_cmdbuf descriptor i c k;
      Some (c, k, (i + num_handles)%nat)
  | CallingPid => c ← ctx_put i (process_id client) c; Some (c, k, S i)
  | StaticBuffer =>
      source_address ← src_cmdbuf !! i;
      '(k, data) ← read_process rasterizer (process_id client) source_address (static_size_of descriptor) k;
      c ← AddStaticBuffer (buffer_id_of descriptor) data c;
      c ← ctx_put i source_address c;
      Some (c, k, S i)
  | MappedBuffer =>
      let next_id := u32 (Z.of_nat (length (request_mapped_buffers c))) in
      address ← src_cmdbuf !! i;
      let c := add_mapped (MappedBuffer_new (process_id client) descriptor address next_id) c in
      c ← ctx_put i next_id c;
      Some (c, k, S i)
  | PXIBuffer | OtherDescriptor => Some (c, k, i)
  end.

Fixpoint populate_loop (fuel : nat) (src_cmdbuf : list Z) (command_size i : nat) c k
  : option (HLERequestContext * KState IS) :=
  if (i <? command_size)%nat then
    match fuel with
    | O => None
    | S fuel =>
        descriptor ← src_cmdbuf !! i;
        c ← ctx_put i descriptor c;
        '(c, k, i) ← populate_step src_cmdbuf command_size descriptor (S i) c k;
        populate_loop fuel src_cmdbuf command_size i c k
    end
  else Some (c, k).

Definition PopulateFromIncomingCommandBuffer (src_cmdbuf : list Z) c k : option (HLERequestContext * KState IS) :=
  header ← src_cmdbuf !! 0%nat;
  let untranslated_size := Z.to_nat (1 + normal_params_size_of header) in
  let command_size := (untranslated_size + Z.to_nat (translate_params_size_of header))%nat in
  ASSERT (command_size <=? COMMAND_BUFFER_LENGTH)%nat ;;
  let c := set_ctx_buf (take untranslated_size src_cmdbuf ++ drop untranslated_size (ctx_cmd_buf c)) c in
  populate_loop (command_size - untranslated_size) src_cmdbuf command_size untranslated_size c k.

(** *** The reply *)

(** [dst_cmdbuf[i] = v]. *)
Definition dst_put (i : nat) (v : Z) (dst_cmdbuf : list Z) : option (list Z) :=
  _ ← dst_cmdbuf !! i; Some (<[i := v]> dst_cmdbuf).

Definition write_handle c (i : nat) (dst_cmdbuf : list Z) k : option (list Z * KState IS) :=
  id ← ctx_cmd_buf c !! i;
  object ← GetIncomingHandle id c;
  '(k, handle) ← (match object with
     | None => Some (k, 0)
     | Some object =>
         t ← handle_tables k !! process_id client;
         '(result, t) ← Create (Some object) t;
         match result with
         | inl _ => None
         | inr handle => Some (put_table (process_id client) t k, handle)
         end
     end);
  dst_cmdbuf ← dst_put i handle dst_cmdbuf;
  Some (dst_cmdbuf, k).

Fixpoint write_handles (num_handles : nat) c (i : nat) (dst_cmdbuf : list Z) k : option (list Z * KState IS) :=
  match num_handles with
  | O => Some (dst_cmdbuf, k)
  | S num_handles => '(dst_cmdbuf, k) ← write_handle c i dst_cmdbuf k; write_handles num_handles c (S i) dst_cmdbuf k
  end.

Definition write_step c (command_size : nat) (descriptor : Z) (i : nat) (dst_cmdbuf : list Z) k
  : option (list Z * KState IS * nat) :=
  match GetDescriptorType descriptor with
  | CopyHandle | MoveHandle =>
      let num_handles := Z.to_nat (HandleNumberFromDesc descriptor) in
      ASSERT (i + num_handles <=? command_size)%nat ;;
      '(dst_cmdbuf, k) ← write_handles num_handles c i dst_cmdbuf k;
      Some (dst_cmdbuf, k, (i + num_handles)%nat)
  | StaticBuffer =>
      data ← GetStaticBuffer (buffer_id_of descriptor) c;
      let static_buffer_offset := (COMMAND_BUFFER_LENGTH + 2 * Z.to_nat (buffer_id_of descriptor))%nat in
      target_descriptor ← dst_cmdbuf !! static_buffer_offset;
      target_address ← dst_cmdbuf !! S static_buffer_offset;
      ASSERT (Z.of_nat (length data) <=? static_size_of target_descriptor) ;;
      k ← write_process rasterizer (process_id client) target_address data k;
      dst_cmdbuf ← dst_put i target_address dst_cmdbuf;
      Some (dst_cmdbuf, k, S i)
  | MappedBuffer =>
      id ← ctx_cmd_buf c !! i;
      buffer ← request_mapped_buffers c !! Z.to_nat id;
      dst_cmdbuf ← dst_put i (mb_address buffer) dst_cmdbuf;
      Some (dst_cmdbuf, k, S i)
  | CallingPid | PXIBuffer | OtherDescriptor => Some (dst_cmdbuf, k, i)
  end.

Fixpoint write_loop (fuel : nat) c (command_size i : nat) (dst_cmdbuf : list Z) k : option (list Z * KState IS) :=
  if (i <? command_size)%nat then
    match fuel with
    | O => None
    | S fuel =>
        descriptor ← ctx_cmd_buf c !! i;
        dst_cmdbuf ← dst_put i descriptor dst_cmdbuf;
        '(dst_cmdbuf, k, i) ← write_step c command_size descriptor (S i) dst_cmdbuf k;
        write_loop fuel c command_size i dst_cmdbuf k
    end
  else Some (dst_cmdbuf, k).

Definition WriteToOutgoingCommandBuffer c (dst_cmdbuf : list Z) k : option (list Z * KState IS) :=
  header ← CommandHeader c;
  let untranslated_size := Z.to_nat (1 + normal_params_size_of header) in
  let command_size := (untranslated_size + Z.to_nat (translate_params_size_of header))%nat in
  ASSERT (command_size <=? COMMAND_BUFFER_LENGTH)%nat ;;
  let dst_cmdbuf := take untranslated_size (ctx_cmd_buf c) ++ drop untranslated_size dst_cmdbuf in
  write_loop (command_size - untranslated_size) c command_size untranslated_size dst_cmdbuf k.

End Transfer.

(** ** The helpers of the handlers

    [RequestBuilder] and [RequestParser]: the command buffer of the context and an index into it.  Their
    [ValidateHeader] is a debug check. *)

Record RequestHelper := mkHelper { h_context : HLERequestContext; h_index : nat; h_header : Z }.

Definition set_h_context (c : HLERequestContext) (h : RequestHelper) : RequestHelper := mkHelper c (h_index h) (h_header h).
Definition TotalSize (h : RequestHelper) : Z := 1 + normal_params_size_of (h_header h) + translate_params_size_of (h_header h).

(** [memcpy] of bytes to the words from the index on, and the index moves on by whole words. *)
Definition PushRaw (data : list Z) (h : RequestHelper) : option RequestHelper :=
  let buf := ctx_cmd_buf (h_context h) in
  let n := ((length data + 3) / 4)%nat in
  let i := h_index h in
  ASSERT (i + n <=? length buf)%nat ;;
  let old := bytes_of (take n (drop i buf)) in
  let new := words_of (data ++ drop (length data) old) n in
  Some (mkHelper (set_ctx_buf (take i buf ++ new ++ drop (i + n) buf) (h_context h)) (i + n) (h_header h)).
Definition PopRaw (size : nat) (h : RequestHelper) : option (RequestHelper * list Z) :=
  let buf := ctx_cmd_buf (h_context h) in
  let n := ((size + 3) / 4)%nat in
  let i := h_index h in
  ASSERT (i + n <=? length buf)%nat ;;
  Some (mkHelper (h_context h) (i + n) (h_header h), take size (bytes_of (take n (drop i buf)))).

Definition Skip (size_in_words : nat) (set_to_null : bool) (h : RequestHelper) : option RequestHelper :=
  h' ← (if set_to_null then PushRaw (replicate (4 * size_in_words) 0) h else Some h);
  Some (mkHelper (h_context h') (h_index h + size_in_words) (h_header h)).

(** *** The builder *)

Definition RequestBuilder_new (header : Z) (c : HLERequestContext) : option RequestHelper :=
  c ← ctx_put 0 header (ClearIncomingObjects c);
  Some (mkHelper c 1 header).

Definition Push_u32 (value : Z) (h : RequestHelper) : option RequestHelper :=
  c ← ctx_put (h_index h) value (h_context h);
  Some (mkHelper c (S (h_index h)) (h_header h)).
Definition Push_s32 (value : Z) (h : RequestHelper) : option RequestHelper := Push_u32 (u32 value) h.
Definition Push_u8 (value : Z) (h : RequestHelper) : option RequestHelper := PushRaw (le_bytes 1 value) h.
Definition Push_u16 (value : Z) (h : RequestHelper) : option RequestHelper := PushRaw (le_bytes 2 value) h.
Definition Push_u64 (value : Z) (h : RequestHelper) : option RequestHelper :=
  h ← Push_u32 (u32 value) h; Push_u32 (u32 (Z.shiftr value 32)) h.
Definition Push_bool (value : bool) (h : RequestHelper) : option RequestHelper := Push_u8 (if value then 1 else 0) h.
Definition Push_Result (value : Z) (h : RequestHelper) : option RequestHelper := Push_u32 value h.

Fixpoint push_words (words : list Z) (h : RequestHelper) : option RequestHelper :=
  match words with
  | [] => Some h
  | w :: words => h ← Push_u32 w h; push_words words h
  end.

(** The order in which C++ adds the objects is not specified; each id stands for its own object. *)
Fixpoint add_objects (objects : list (option Z)) (c : HLERequestContext) : HLERequestContext * list Z :=
  match objects with
  | [] => (c, [])
  | o :: objects => let '(c, id) := AddOutgoingHandle o c in let '(c, ids) := add_objects objects c in (c, id :: ids)
  end.
Definition push_objects (desc : Z → Z) (objects : list (option Z)) (h : RequestHelper) : option RequestHelper :=
  let '(c, ids) := add_objects objects (h_context h) in
  push_words (desc (Z.of_nat (length objects)) :: ids) (set_h_context c h).
Definition PushCopyObjects : list (option Z) → RequestHelper → option RequestHelper := push_objects CopyHandleDesc.
Definition PushMoveObjects : list (option Z) → RequestHelper → option RequestHelper := push_objects MoveHandleDesc.

Definition PushStaticBuffer (buffer : list Z) (buffer_id : Z) (h : RequestHelper) : option RequestHelper :=
  ASSERT (buffer_id <? Z.of_nat MAX_STATIC_BUFFERS) ;;
  h ← push_words [StaticBufferDesc (Z.of_nat (length buffer)) buffer_id; 0xDEADC0DE] h;
  c ← AddStaticBuffer buffer_id buffer (h_context h);
  Some (set_h_context c h).

Definition PushMappedBuffer (b : HLEMappedBuffer) (h : RequestHelper) : option RequestHelper :=
  push_words [GenerateDescriptor b; mb_id b] h.

(** *** The parser *)

Definition RequestParser_new (c : HLERequestContext) : option RequestHelper :=
  header ← CommandHeader c; Some (mkHelper c 1 header).
Definition MakeBuilder (normal_params_size translate_params_size : Z) (h : RequestHelper) : option RequestHelper :=
  RequestBuilder_new (MakeHeader (u16 (command_id_of (h_header h))) normal_params_size translate_params_size) (h_context h).

Definition Pop_u32 (h : RequestHelper) : option (RequestHelper * Z) :=
  v ← ctx_cmd_buf (h_context h) !! h_index h; Some (mkHelper (h_context h) (S (h_index h)) (h_header h), v).
Definition Pop_u8 (h : RequestHelper) : option (RequestHelper * Z) := '(h, b) ← PopRaw 1 h; Some (h, le_value b).
Definition Pop_u16 (h : RequestHelper) : option (RequestHelper * Z) := '(h, b) ← PopRaw 2 h; Some (h, le_value b).
Definition Pop_s32 (h : RequestHelper) : option (RequestHelper * Z) := '(h, b) ← PopRaw 4 h; Some (h, s32 (le_value b)).
Definition Pop_u64 (h : RequestHelper) : option (RequestHelper * Z) :=
  '(h, lsw) ← Pop_u32 h;
  '(h, msw) ← Pop_u32 h;
  Some (h, Z.lor (u64 (Z.shiftl msw 32)) lsw).
Definition Pop_bool (h : RequestHelper) : option (RequestHelper * bool) := '(h, v) ← Pop_u8 h; Some (h, negb (v =? 0)).
Definition Pop_Result (h : RequestHelper) : option (RequestHelper * Z) := Pop_u32 h.

Fixpoint pop_words (n : nat) (h : RequestHelper) : option (RequestHelper * list Z) :=
  match n with
  | O => Some (h, [])
  | S n => '(h, w) ← Pop_u32 h; '(h, ws) ← pop_words n h; Some (h, w :: ws)
  end.

Definition PopHLEHandles (n : nat) (h : RequestHelper) : option (RequestHelper * list Z) :=
  '(h, handle_descriptor) ← Pop_u32 h;
  ASSERT (IsHandleDescriptor handle_descriptor) ;;
  ASSERT (Z.of_nat n =? HandleNumberFromDesc handle_descriptor) ;;
  pop_words n h.
Definition PopGenericObjects (n : nat) (h : RequestHelper) : option (RequestHelper * list (option Z)) :=
  '(h, handles) ← PopHLEHandles n h;
  pointers ← mapM (λ handle, GetIncomingHandle handle (h_context h)) handles;
  Some (h, pointers).
Definition PopPID (h : RequestHelper) : option (RequestHelper * Z) :=
  '(h, descriptor) ← Pop_u32 h;
  ASSERT (descriptor =? CallingPid_bits) ;;
  Pop_u32 h.
Definition PopStaticBuffer (h : RequestHelper) : option (RequestHelper * list Z) :=
  '(h, sbuffer_descriptor) ← Pop_u32 h;
  '(h, _) ← Pop_u32 h;
  data ← GetStaticBuffer (buffer_id_of sbuffer_descriptor) (h_context h);
  Some (h, data).
Definition PopMappedBuffer (h : RequestHelper) : option (RequestHelper * HLEMappedBuffer) :=
  '(h, mapped_buffer_descriptor) ← Pop_u32 h;
  ASSERT (match GetDescriptorType mapped_buffer_descriptor with MappedBuffer => true | _ => false end) ;;
  '(h, id) ← Pop_u32 h;
  b ← GetMappedBuffer id (h_context h);
  Some (h, b).

(** ** The dispatch of a service *)

Section Framework.
(** The state that the handlers of a service change, and the handlers. *)
Context {A Handler : Type}.
Context (invoke : Handler → HLERequestContext → A → option (A * HLERequestContext)).

Record FunctionInfo := mkFunction { command_id : Z; handler_callback : option Handler }.

(** [emplace_hint] of a [flat_map]: the first function of a command stays. *)
Definition RegisterHandlers (functions : list FunctionInfo) (handlers : gmap Z FunctionInfo) : gmap Z FunctionInfo :=
  foldl (λ m f, match m !! command_id f with Some _ => m | None => <[command_id f := f]> m end) handlers functions.

Definition ReportUnimplementedFunction (c : HLERequestContext) : option HLERequestContext :=
  header ← CommandHeader c;
  let header := Assign 32 0 6 0 (Assign 32 6 6 1 header) in
  c ← ctx_put 0 header c;
  ctx_put 1 0 c.

(** [ServiceFrameworkBase::HandleSyncRequest]. *)
Definition Service_HandleSyncRequest (handlers : gmap Z FunctionInfo) (c : HLERequestContext) (a : A)
  : option (A * HLERequestContext) :=
  id ← CommandID c;
  match handlers !! id ≫= handler_callback with
  | None => c ← ReportUnimplementedFunction c; Some (a, c)
  | Some handler => invoke handler c a
  end.

End Framework.

(** ** What the handler sees *)

(** The parameters of a request that the kernel translates, as the client writes them: handles, the slot
    for the process id, a buffer to copy, and a buffer to map. *)
Inductive Param : Type :=
| PObjects (move : bool) (handles : list Z)
| PPid (word : Z)
| PStatic (id size address : Z)
| PMapped (size perms address : Z).

Definition param_words (p : Param) : list Z :=
  match p with
  | PObjects move handles => handle_desc move (Z.of_nat (length handles)) :: handles
  | PPid word => [CallingPidDesc; word]
  | PStatic id size address => [StaticBufferDesc size id; address]
  | PMapped size perms address => [MappedBufferDesc size perms; address]
  end.
Definition params_words (params : list Param) : list Z := mjoin (param_words <$> params).

Definition param_ok (p : Param) : Prop :=
  match p with
  | PObjects _ handles => (1 <= length handles <= 64)%nat
  | PPid _ => True
  | PStatic id size _ => 0 <= id < 16 ∧ 0 <= size < 2 ^ 18
  | PMapped size perms _ => 0 <= size < 2 ^ 28 ∧ 0 <= perms < 4
  end.
Definition static_id (p : Param) : list Z := match p with PStatic id _ _ => [id] | _ => [] end.
Definition static_ids (params : list Param) : list Z := mjoin (static_id <$> params).

(** What the handler pops for a parameter. *)
Inductive Value : Type :=
| VObjects (objects : list (option Z))
| VPid (pid : Z)
| VStatic (data : list Z)
| VMapped (buffer : HLEMappedBuffer).

Definition pop_param (p : Param) (h : RequestHelper) : option (RequestHelper * Value) :=
  match p with
  | PObjects _ handles => '(h, l) ← PopGenericObjects (length handles) h; Some (h, VObjects l)
  | PPid _ => '(h, pid) ← PopPID h; Some (h, VPid pid)
  | PStatic _ _ _ => '(h, data) ← PopStaticBuffer h; Some (h, VStatic data)
  | PMapped _ _ _ => '(h, b) ← PopMappedBuffer h; Some (h, VMapped b)
  end.
Fixpoint pop_params (params : list Param) (h : RequestHelper) : option (RequestHelper * list Value) :=
  match params with
  | [] => Some (h, [])
  | p :: params => '(h, v) ← pop_param p h; '(h, vs) ← pop_params params h; Some (h, v :: vs)
  end.

Section Requests.
Context {IS : Type} (rasterizer : FlushMode → Z → Z → gmap Z Z → gmap Z Z) (client : Peer).
Implicit Types k : KState IS.
Implicit Types c : HLERequestContext.
Implicit Types m : gmap Z Z.

(** What a handle of the client stands for: 0 for nothing, and a handle that is not open for no
    request the emulator survives. *)
Definition resolve m (handle : Z) : option (option Z) :=
  if handle =? 0 then Some None
  else if handle =? CurrentThread then Some (Some (thread_object client))
  else if handle =? CurrentProcess then Some (Some (process_object client))
  else o ← m !! canonical handle; Some (Some o).

(** The handles that are open after a parameter: a single moved handle is closed. *)
Definition handles_after m (p : Param) : gmap Z Z :=
  match p with
  | PObjects true [handle] => if handle =? 0 then m else delete (canonical handle) m
  | _ => m
  end.

(** What the client's parameter means; [n] mapped buffers come before it. *)
Definition meaning k m (n : nat) (p : Param) : option Value :=
  match p with
  | PObjects _ handles => objects ← mapM (resolve m) handles; Some (VObjects objects)
  | PPid _ => Some (VPid (process_id client))
  | PStatic _ size address => '(_, data) ← read_process rasterizer (process_id client) address size k; Some (VStatic data)
  | PMapped size perms address => Some (VMapped (mkMapped (Z.of_nat n) address (process_id client) size perms))
  end.
Definition mapped_count (p : Param) : nat := match p with PMapped _ _ _ => 1 | _ => 0 end.
Fixpoint meanings k m (n : nat) (params : list Param) : option (list Value * gmap Z Z) :=
  match params with
  | [] => Some ([], m)
  | p :: params =>
      v ← meaning k m n p;
      '(vs, m) ← meanings k (handles_after m p) (n + mapped_count p) params;
      Some (v :: vs, m)
  end.

(** Reading the client's memory has no effect on it when the renderer has nothing to write back. *)
Context (Hras : ∀ h, no_writeback rasterizer Flush h).

Lemma page_pointer_quiet pages i off n ms ms' p :
  page_pointer rasterizer pages i off n (Some Flush) ms = Some (ms', p) → ms' = ms.
Proof.
  unfold page_pointer. intros H. apply bind_Some in H as (u & _ & H). destruct (page_entry (entries pages) i) as [type ref].
  destruct type; [by injection H|by injection H|idtac|idtac|idtac].
  all: try (rewrite (flush_id rasterizer) in H by apply Hras).
  all: apply bind_Some in H as (r & _ & H); try destruct r; by injection H.
Qed.

Lemma ReadBlock_quiet pages a n ms ms' data : ReadBlock rasterizer pages a n ms = Some (ms', data) → ms' = ms.
Proof.
  unfold ReadBlock, ReadBlockImpl, for_pages. generalize (Z.shiftr a CITRA_PAGE_BITS) (Z.land a CITRA_PAGE_MASK) n (block_fuel n) (@nil Z).
  clear a n. intros i off n fuel. revert i off n. induction fuel as [|fuel IH]; intros i off n buf; simpl; destruct (n =? 0);
    try congruence. intros H. apply bind_Some in H as ([ms1 buf1] & E & H).
  unfold read_page in E. apply bind_Some in E as ([ms2 p] & E2 & E). apply page_pointer_quiet in E2 as ->.
  apply bind_Some in E as (d & _ & E). injection E as <- <-. by eapply IH.
Qed.

Lemma read_process_quiet pid a n k k' data : read_process rasterizer pid a n k = Some (k', data) → k' = k.
Proof.
  unfold read_process. intros H. apply bind_Some in H as (p & _ & H). apply bind_Some in H as ([ms d] & E & H).
  apply ReadBlock_quiet in E as ->. injection H as <- <-. by destruct k.
Qed.

(** Handle tables are not memory. *)
Lemma read_process_table pid a n k t q data :
  read_process rasterizer pid a n k = Some (k, data) →
  read_process rasterizer pid a n (put_table q t k) = Some (put_table q t k, data).
Proof.
  unfold read_process. change (processes (put_table q t k)) with (processes k). change (k_memory (put_table q t k)) with (k_memory k).
  intros H. apply bind_Some in H as (p & -> & H). cbn [mbind option_bind]. apply bind_Some in H as ([ms d] & E & H). rewrite E.
  cbn [mbind option_bind]. apply ReadBlock_quiet in E as ->. injection H as _ ->. by destruct k.
Qed.

(** *** The context grows *)

(** The words before [i] stay, as do the objects, the mapped buffers, and the static buffers but those of [ids]. *)
Record grows (i : nat) (ids : list Z) c c' : Prop := {
  gr_words : ∀ j, (j < i)%nat → ctx_cmd_buf c' !! j = ctx_cmd_buf c !! j;
  gr_handles : request_handles c `prefix_of` request_handles c';
  gr_mapped : request_mapped_buffers c `prefix_of` request_mapped_buffers c';
  gr_static : ∀ id, 0 <= id → id ∉ ids → static_buffers c' !! Z.to_nat id = static_buffers c !! Z.to_nat id }.

Lemma grows_refl i c : grows i [] c c.
Proof. by split. Qed.
Lemma grows_trans i j ids ids' c1 c2 c3 : (i <= j)%nat → grows i ids c1 c2 → grows j ids' c2 c3 → grows i (ids ++ ids') c1 c3.
Proof.
  intros Hij [A1 B1 C1 D1] [A2 B2 C2 D2]. split.
  - intros n Hn. rewrite A2 by lia. by apply A1.
  - by etrans.
  - by etrans.
  - intros id H0 Hid. rewrite elem_of_app in Hid. rewrite D2, D1 by tauto. done.
Qed.

(** The sizes of a context while the words before [i] are filled. *)
Record filled (i : nat) c : Prop := {
  fi_words : length (ctx_cmd_buf c) = COMMAND_BUFFER_LENGTH;
  fi_static : length (static_buffers c) = MAX_STATIC_BUFFERS;
  fi_handles : (length (request_handles c) <= i)%nat;
  fi_mapped : (length (request_mapped_buffers c) <= COMMAND_BUFFER_LENGTH + i)%nat }.

Lemma filled_le i j c : (i <= j)%nat → filled i c → filled j c.
Proof. intros Hij [A B C D]. split; (done || lia). Qed.

Lemma ctx_put_ok i v c j :
  filled j c → (i < COMMAND_BUFFER_LENGTH)%nat →
  ctx_put i v c = Some (set_ctx_buf (<[i := v]> (ctx_cmd_buf c)) c) ∧ filled j (set_ctx_buf (<[i := v]> (ctx_cmd_buf c)) c) ∧
  grows i [] c (set_ctx_buf (<[i := v]> (ctx_cmd_buf c)) c) ∧ <[i := v]> (ctx_cmd_buf c) !! i = Some v.
Proof.
  intros [A B C D] Hi. unfold ctx_put. destruct (lookup_lt_is_Some_2 (ctx_cmd_buf c) i) as [w ->]; [lia|]. cbn [mbind option_bind].
  split; [done|]. split; [by split; cbn; rewrite ?length_insert|]. split; [|apply list_lookup_insert_eq; lia].
  split; [|done..]. intros n Hn. apply list_lookup_insert_ne. lia.
Qed.

(** *** Popping *)

(** The words from [i] on are [ws]. *)
Definition words_at (buf : list Z) (i : nat) (ws : list Z) : Prop := ∀ j w, ws !! j = Some w → buf !! (i + j)%nat = Some w.

Lemma words_at_cons buf i w ws : words_at buf i (w :: ws) ↔ buf !! i = Some w ∧ words_at buf (S i) ws.
Proof.
  split.
  - intros H. split; [rewrite <- (H 0%nat w eq_refl); f_equal; lia|]. intros j v Hj. rewrite <- (H (S j) v Hj). f_equal. lia.
  - intros [H0 H] [|j] v Hj; [injection Hj as <-; by rewrite Nat.add_0_r|]. rewrite <- (H j v Hj). f_equal. lia.
Qed.

Lemma words_at_app buf i ws ws' : words_at buf i (ws ++ ws') ↔ words_at buf i ws ∧ words_at buf (i + length ws) ws'.
Proof.
  revert i. induction ws as [|w ws IH]; intros i; simpl.
  - rewrite Nat.add_0_r. split; [by intros H; split|by intros [_ H]].
  - rewrite !words_at_cons, IH. replace (i + S (length ws))%nat with (S i + length ws)%nat by lia. tauto.
Qed.

Lemma pop_words_at c i hd ws :
  words_at (ctx_cmd_buf c) i ws → pop_words (length ws) (mkHelper c i hd) = Some (mkHelper c (i + length ws) hd, ws).
Proof.
  revert i. induction ws as [|w ws IH]; intros i H; simpl; [by rewrite Nat.add_0_r|].
  apply words_at_cons in H as [H0 H]. unfold Pop_u32. cbn [h_context h_index h_header]. rewrite H0. cbn [mbind option_bind].
  rewrite IH by done. cbn [mbind option_bind]. do 3 f_equal. lia.
Qed.

Lemma words_at_grows i ids c c' j ws :
  grows i ids c c' → (j + length ws <= i)%nat → words_at (ctx_cmd_buf c) j ws → words_at (ctx_cmd_buf c') j ws.
Proof. intros [A _ _ _] Hj H n w Hn. rewrite A; [by apply H|]. apply lookup_lt_Some in Hn. lia. Qed.

(** *** One parameter *)

Lemma put_table_id pid t k : handle_tables k !! pid = Some t → put_table pid t k = k.
Proof. intros H. unfold put_table. rewrite insert_id by done. by destruct k. Qed.

Lemma resolve_get m t h o :
  table_rep t m → resolve m h = Some o → h ≠ 0 →
  ∃ x, o = Some x ∧ GetGeneric (Some (thread_object client)) (Some (process_object client)) h t = Some x.
Proof.
  unfold resolve. intros Hrep H Hne. rewrite (proj2 (Z.eqb_neq h 0)) in H by done.
  destruct (Z.eqb_spec h CurrentThread) as [->|H1]; [injection H as <-; by eexists|].
  destruct (Z.eqb_spec h CurrentProcess) as [->|H2]; [injection H as <-; by eexists|].
  rewrite GetGeneric_rep with (m := m) by done. destruct (m !! canonical h) as [x|]; [|done]. injection H as <-. by eexists.
Qed.

Lemma populate_handle_ok src desc i c k t m h o :
  filled i c → (i < COMMAND_BUFFER_LENGTH)%nat → src !! i = Some h →
  handle_tables k !! process_id client = Some t → table_rep t m → resolve m h = Some o →
  ∃ c' t', populate_handle client src desc i c k = Some (c', put_table (process_id client) t' k) ∧
    (if (desc =? MoveHandle_bits) && negb (h =? 0) then table_rep t' (delete (canonical h) m) else t' = t) ∧
    filled (S i) c' ∧ grows i [] c c' ∧ request_handles c' = request_handles c ++ [o] ∧
    request_mapped_buffers c' = request_mapped_buffers c ∧
    ctx_cmd_buf c' !! i = Some (Z.of_nat (length (request_handles c))).
Proof.
  intros Hf Hi Hs Ht Hrep Hr. unfold populate_handle. rewrite Hs. cbn [mbind option_bind].
  assert (∃ t', (if negb (h =? 0) then
       t ← handle_tables k !! process_id client;
       object ← GetGeneric (Some (thread_object client)) (Some (process_object client)) h t;
       if desc =? MoveHandle_bits
       then let '(_, t) := Close h t in Some (put_table (process_id client) t k, Some object)
       else Some (k, Some object)
     else Some (k, None)) = Some (put_table (process_id client) t' k, o) ∧
     if (desc =? MoveHandle_bits) && negb (h =? 0) then table_rep t' (delete (canonical h) m) else t' = t) as (t' & -> & Ht').
  { destruct (Z.eqb_spec h 0) as [->|Hne]; cbn [negb andb].
    - injection Hr as <-. exists t. rewrite put_table_id by done. split; [done|]. by destruct (_ =? _).
    - destruct (resolve_get m t h o Hrep Hr Hne) as (x & -> & Hx). rewrite Ht. cbn [mbind option_bind]. rewrite Hx. cbn [mbind option_bind].
      destruct (desc =? MoveHandle_bits); cbn [andb]; [|exists t; by rewrite put_table_id].
      pose proof (Close_rep t m h Hrep) as Hc. destruct (Close h t) as [r t']. by exists t'. }
  cbn [mbind option_bind]. unfold AddOutgoingHandle. set (c1 := mkRequest _ _ _ _).
  assert (filled (S i) c1) as Hf1 by (destruct Hf; split; unfold c1; cbn [ctx_cmd_buf request_handles static_buffers request_mapped_buffers]; rewrite ?length_app; cbn [length]; lia).
  destruct (ctx_put_ok i (u32 (Z.of_nat (length (request_handles c ++ [o])) - 1)) c1 (S i) Hf1 Hi) as (-> & Hf2 & Hg & Hw).
  cbn [mbind option_bind]. eexists _, t'. split; [reflexivity|]. split; [done|]. split; [done|].
  split; [|split; [done|split; [done|]]].
  - destruct Hg as [A B C D]. split; [exact A| |exact C|exact D]. etrans; [|exact B]. by exists [o].
  - cbn [ctx_cmd_buf set_ctx_buf]. etrans; [exact Hw|]. f_equal. rewrite length_app. simpl. pose proof (fi_handles _ _ Hf). unfold COMMAND_BUFFER_LENGTH in *.
    rewrite u32_id by lia. lia.
Qed.

Lemma populate_handles_ok hs src desc i c k t m objs :
  filled i c → (i + length hs <= COMMAND_BUFFER_LENGTH)%nat → words_at src i hs → (desc =? MoveHandle_bits) = false →
  handle_tables k !! process_id client = Some t → table_rep t m → mapM (resolve m) hs = Some objs →
  ∃ c', populate_handles client (length hs) src desc i c k = Some (c', k) ∧ filled (i + length hs) c' ∧ grows i [] c c' ∧
    request_handles c' = request_handles c ++ objs ∧ request_mapped_buffers c' = request_mapped_buffers c ∧
    words_at (ctx_cmd_buf c') i (Z.of_nat <$> seq (length (request_handles c)) (length hs)).
Proof.
  intros Hf Hi Hs Hd Ht Hrep. revert i c objs Hf Hi Hs. induction hs as [|h hs IH]; intros i c objs Hf Hi Hs Hr; simpl in Hr.
  - injection Hr as <-. exists c. simpl. rewrite Nat.add_0_r, app_nil_r. split; [done|]. split; [done|]. split; [apply grows_refl|]. done.
  - destruct (resolve m h) as [o|] eqn:Eo; [|done]. simpl in Hr. destruct (mapM (resolve m) hs) as [objs'|] eqn:Er; [|done].
    injection Hr as <-. apply words_at_cons in Hs as [H0 Hs]. simpl in Hi.
    destruct (populate_handle_ok src desc i c k t m h o Hf ltac:(lia) H0 Ht Hrep Eo) as (c1 & t1 & E1 & E1t & Hf1 & Hg1 & Eh1 & Em1 & Hw1).
    rewrite Hd in E1t. cbn [andb] in E1t. subst t1. rewrite put_table_id in E1 by done.
    destruct (IH (S i) c1 objs' Hf1 ltac:(lia) Hs eq_refl) as (c2 & E2 & Hf2 & Hg2 & Eh2 & Em2 & Hw2).
    exists c2. cbn [length populate_handles]. rewrite E1. cbn [mbind option_bind]. split; [done|].
    split; [by replace (i + S (length hs))%nat with (S i + length hs)%nat by lia|].
    split; [exact (grows_trans i (S i) [] [] c c1 c2 ltac:(lia) Hg1 Hg2)|]. split; [by rewrite Eh2, Eh1, <- app_assoc|].
    split; [congruence|]. cbn [seq fmap list_fmap]. apply words_at_cons. split; [by rewrite (gr_words _ _ _ _ Hg2) by lia|].
    rewrite Eh1, length_app in Hw2. by rewrite Nat.add_1_r in Hw2.
Qed.

(** What popping the objects of a descriptor needs of the context. *)
Lemma pop_objects_ok c i hd desc n len objs :
  ctx_cmd_buf c !! i = Some desc → IsHandleDescriptor desc = true → HandleNumberFromDesc desc = Z.of_nat n →
  words_at (ctx_cmd_buf c) (S i) (Z.of_nat <$> seq len n) → length objs = n →
  (∀ j o, objs !! j = Some o → request_handles c !! (len + j)%nat = Some o) →
  PopGenericObjects n (mkHelper c i hd) = Some (mkHelper c (i + S n) hd, objs).
Proof.
  intros Hd Hi Hn Hw Hl Ho. unfold PopGenericObjects, PopHLEHandles, Pop_u32. cbn [h_context h_index h_header]. rewrite Hd.
  cbn [mbind option_bind]. rewrite Hi, Hn, Z.eqb_refl. cbn [assert_ mbind option_bind].
  pose proof (pop_words_at c (S i) hd _ Hw) as Ep. rewrite length_fmap, length_seq in Ep. rewrite Ep. cbn [mbind option_bind h_context].
  assert (mapM (λ handle, GetIncomingHandle handle c) (Z.of_nat <$> seq len n) = Some objs) as ->.
  { clear -Hl Ho. revert len objs Hl Ho. induction n as [|n IH]; intros len objs Hl Ho; [by destruct objs|].
    destruct objs as [|o objs]; [done|]. cbn [seq fmap list_fmap].
    pose proof (Ho 0%nat o eq_refl) as H0. rewrite Nat.add_0_r in H0. pose proof (lookup_lt_Some _ _ _ H0) as Hlt.
    assert (GetIncomingHandle (Z.of_nat len) c = Some o) as Eg.
    { unfold GetIncomingHandle. rewrite (proj2 (Z.ltb_lt _ _)) by lia. cbn [assert_ mbind option_bind]. by rewrite Nat2Z.id. }
    cbn [mapM]. rewrite Eg. cbn [mbind option_bind]. rewrite (IH (S len) objs); [done|by injection Hl|]. intros j x Hj. rewrite <- (Ho (S j) x Hj). f_equal. lia. }
  cbn [mbind option_bind]. do 3 f_equal. lia.
Qed.

(** The round of the loop for the parameter [p] at [i] leaves a context from which [p] pops as [v], whatever is
    added to it later. *)
Definition accepted (p : Param) (i : nat) (src : list Z) (command_size : nat) c k m (v : Value) : Prop :=
  let n := length (param_words p) in
  ∃ desc c1 c' t', src !! i = Some desc ∧ ctx_put i desc c = Some c1 ∧
    populate_step rasterizer client src command_size desc (S i) c1 k = Some (c', put_table (process_id client) t' k, (i + n)%nat) ∧
    table_rep t' (handles_after m p) ∧ filled (i + n) c' ∧ grows i (static_id p) c c' ∧
    length (request_mapped_buffers c') = (length (request_mapped_buffers c) + mapped_count p)%nat ∧
    ∀ c'' ids hd, grows (i + n) ids c' c'' → (∀ id, id ∈ static_id p → id ∉ ids) →
      pop_param p (mkHelper c'' i hd) = Some (mkHelper c'' (i + n) hd, v).

Lemma accept_objects move hs i src cs c k t m v :
  filled i c → words_at src i (param_words (PObjects move hs)) → (i + length (param_words (PObjects move hs)) <= cs)%nat →
  (cs <= COMMAND_BUFFER_LENGTH)%nat → param_ok (PObjects move hs) → handle_tables k !! process_id client = Some t → table_rep t m →
  meaning k m (length (request_mapped_buffers c)) (PObjects move hs) = Some v →
  accepted (PObjects move hs) i src cs c k m v.
Proof.
  intros Hf Hs Hi Hcs Hok Ht Hrep Hv. cbn [param_words param_ok length] in *. apply bind_Some in Hv as (objs & Er & [= <-]).
  apply words_at_cons in Hs as [H0 Hs]. destruct (handle_desc_facts move (Z.of_nat (length hs))) as (Etype & Enum & Emove); [lia|].
  set (desc := handle_desc move (Z.of_nat (length hs))) in *.
  destruct (ctx_put_ok i desc c i Hf ltac:(lia)) as (E1 & Hf1 & Hg1 & Hw1). set (c1 := set_ctx_buf _ c) in *.
  assert (∃ c2 t', populate_handles client (length hs) src desc (S i) c1 k = Some (c2, put_table (process_id client) t' k) ∧
    table_rep t' (handles_after m (PObjects move hs)) ∧ filled (S i + length hs) c2 ∧ grows (S i) [] c1 c2 ∧
    request_handles c2 = request_handles c1 ++ objs ∧ request_mapped_buffers c2 = request_mapped_buffers c1 ∧
    words_at (ctx_cmd_buf c2) (S i) (Z.of_nat <$> seq (length (request_handles c1)) (length hs)))
    as (c2 & t2 & E2 & Ht2 & Hf2 & Hg2 & Eh & Em & Hw2).
  { destruct (desc =? MoveHandle_bits) eqn:Ed.
    - symmetry in Emove. apply andb_true_iff in Emove as [-> El]. destruct hs as [|h [|]]; [done| |apply Z.eqb_eq in El; cbn [length] in El; lia].
      cbn [length] in Hi. simpl in Er. destruct (resolve m h) as [o|] eqn:Eo; [|done]. injection Er as <-. apply words_at_cons in Hs as [Hs _].
      destruct (populate_handle_ok src desc (S i) c1 k t m h o (filled_le i (S i) _ ltac:(lia) Hf1) ltac:(lia) Hs Ht Hrep Eo)
        as (c2 & t2 & E2 & Ht2 & Hf2 & Hg2 & Eh & Em & Hw2).
      exists c2, t2. cbn [length populate_handles]. rewrite E2. cbn [mbind option_bind]. split; [done|]. rewrite Ed in Ht2.
      split; [cbn; destruct (h =? 0); cbn [andb negb] in Ht2; [by subst t2|done]|]. split; [eapply filled_le; [|exact Hf2]; lia|].
      split; [done|]. split; [done|]. split; [done|]. apply words_at_cons. by split.
    - destruct (populate_handles_ok hs src desc (S i) c1 k t m objs (filled_le i (S i) _ ltac:(lia) Hf1) ltac:(lia) Hs Ed Ht Hrep Er) as (c2 & E2 & Hrest).
      exists c2, t. rewrite put_table_id by done. split; [done|]. split; [|done].
      assert (handles_after m (PObjects move hs) = m) as ->; [|done]. symmetry in Emove. apply andb_false_iff in Emove.
      destruct move; [|done]. destruct hs as [|? [|]]; try done. }
  exists desc, c1, c2, t2. unfold populate_step. rewrite Etype, Enum, Nat2Z.id. rewrite (proj2 (Nat.leb_le _ _)) by lia.
  replace (i + length (param_words (PObjects move hs)))%nat with (S i + length hs)%nat by (simpl; lia).
  split; [done|]. split; [done|]. split; [destruct move; cbn [assert_ mbind option_bind]; by rewrite E2|]. split; [done|]. split; [done|].
  split; [exact (grows_trans i (S i) [] [] c c1 c2 ltac:(lia) Hg1 Hg2)|]. split; [rewrite Em; simpl; lia|].
  intros c3 ids hd Hg _. unfold pop_param.
  assert (length objs = length hs) as El by (symmetry; by eapply length_mapM).
  rewrite (pop_objects_ok c3 i hd desc (length hs) (length (request_handles c1)) objs); try done.
  - cbn [mbind option_bind]. do 3 f_equal. lia.
  - rewrite (gr_words _ _ _ _ Hg), (gr_words _ _ _ _ Hg2) by lia. exact Hw1.
  - clear -Etype. unfold GetDescriptorType in Etype. destruct (IsHandleDescriptor desc); [done|]. destruct move; repeat case_match; done.
  - eapply (words_at_grows (S i + length hs)); [exact Hg| |exact Hw2]. rewrite length_fmap, length_seq. lia.
  - intros j o Hj. eapply prefix_lookup_Some; [|exact (gr_handles _ _ _ _ Hg)]. rewrite Eh, lookup_app_r by lia. by replace (_ + j - _)%nat with j by lia.
Qed.

(** The other parameters have two words. *)
Lemma accept_two p i src cs c k t m v desc w c1 c' w' ids :
  param_words p = [desc; w] → filled i c → words_at src i (param_words p) → (i + 2 <= COMMAND_BUFFER_LENGTH)%nat →
  handle_tables k !! process_id client = Some t → table_rep t m → handles_after m p = m → ids = static_id p →
  c1 = set_ctx_buf (<[i := desc]> (ctx_cmd_buf c)) c →
  populate_step rasterizer client src cs desc (S i) c1 k = Some (c', k, S (S i)) →
  (length (ctx_cmd_buf c1) = COMMAND_BUFFER_LENGTH → ctx_cmd_buf c' = <[S i := w']> (ctx_cmd_buf c1)) → request_handles c' = request_handles c →
  request_mapped_buffers c `prefix_of` request_mapped_buffers c' →
  length (request_mapped_buffers c') = (length (request_mapped_buffers c) + mapped_count p)%nat →
  length (static_buffers c') = length (static_buffers c) →
  (∀ id, 0 <= id → id ∉ ids → static_buffers c' !! Z.to_nat id = static_buffers c !! Z.to_nat id) →
  (∀ c'' ids' hd, grows (i + 2) ids' c' c'' → (∀ id, id ∈ ids → id ∉ ids') → ctx_cmd_buf c'' !! i = Some desc → ctx_cmd_buf c'' !! S i = Some w' →
     pop_param p (mkHelper c'' i hd) = Some (mkHelper c'' (S (S i)) hd, v)) →
  accepted p i src cs c k m v.
Proof.
  intros Ep Hf Hs Hi Ht Hrep Ha -> -> Estep Hbuf Hh Hm Hml Hsl Hst Hpop. unfold accepted. rewrite Ep in *. cbn [length].
  apply words_at_cons in Hs as [H0 Hs]. destruct (ctx_put_ok i desc c i Hf ltac:(lia)) as (E1 & Hf1 & Hg1 & Hw1). set (c1 := set_ctx_buf _ c) in *.
  specialize (Hbuf (fi_words _ _ Hf1)). destruct Hf as [F1 F2 F3 F4]. replace (i + 2)%nat with (S (S i)) in * by lia.
  assert (ctx_cmd_buf c' !! i = Some desc) as Hd by (rewrite Hbuf, list_lookup_insert_ne by lia; exact Hw1).
  assert (ctx_cmd_buf c' !! S i = Some w') as Hw by (rewrite Hbuf; apply list_lookup_insert_eq; rewrite (fi_words _ _ Hf1); lia).
  exists desc, c1, c', t. rewrite put_table_id by done. split; [done|]. split; [done|]. split; [done|]. split; [by rewrite Ha|]. split; [|split; [|split; [done|]]].
  - split; rewrite ?Hbuf, ?length_insert, ?Hh, ?Hml; [apply (fi_words _ _ Hf1)|congruence|lia|]. destruct p; cbn [mapped_count]; lia.
  - split; [|by rewrite Hh|done|exact Hst]. intros j Hj. rewrite Hbuf, list_lookup_insert_ne by lia. by apply (gr_words _ _ _ _ Hg1).
  - intros c'' ids' hd Hg Hid. apply (Hpop c'' ids'); [done..| |]; by rewrite (gr_words _ _ _ _ Hg) by lia.
Qed.

(** Popping two words. *)
Ltac pop_two H0 H1 :=
  cbn [pop_param]; unfold PopPID, PopStaticBuffer, PopMappedBuffer, Pop_u32; cbn [h_context h_index h_header]; rewrite H0;
  cbn [mbind option_bind]; cbn [h_context h_index h_header]; rewrite ?H1; cbn [mbind option_bind].

Lemma accept_param p i src cs c k t m v :
  filled i c → words_at src i (param_words p) → (i + length (param_words p) <= cs)%nat →
  (cs <= COMMAND_BUFFER_LENGTH)%nat → param_ok p → handle_tables k !! process_id client = Some t → table_rep t m →
  meaning k m (length (request_mapped_buffers c)) p = Some v →
  accepted p i src cs c k m v.
Proof.
  intros Hf Hs Hi Hcs Hok Ht Hrep Hv. destruct p as [move hs|word|id size address|size perms address]; [by eapply accept_objects|..];
    cbn [param_words length] in Hi; pose proof (proj1 (words_at_cons _ _ _ _) Hs) as [H0 [H1 _]%words_at_cons].
  - injection Hv as <-. destruct (ctx_put_ok i CallingPidDesc c i Hf ltac:(lia)) as (_ & Hf1 & _).
    destruct (ctx_put_ok (S i) (process_id client) _ i Hf1 ltac:(lia)) as (E2 & _).
    eapply (accept_two _ i src cs c k t m _ CallingPidDesc word (set_ctx_buf (<[i := CallingPidDesc]> (ctx_cmd_buf c)) c)
              (set_ctx_buf (<[S i := process_id client]> (<[i := CallingPidDesc]> (ctx_cmd_buf c))) c) (process_id client) []); try done; [lia|..].
    + unfold populate_step. change (GetDescriptorType CallingPidDesc) with CallingPid. cbv iota. rewrite E2. done.
    + intros c'' ids' hd _ _ Hd Hw. pop_two Hd Hw. done.
  - destruct Hok as [Hid Hsize]. apply bind_Some in Hv as ([k' data] & Er & Hv). injection Hv as <-. pose proof (read_process_quiet _ _ _ _ _ _ Er) as ->.
    destruct (static_desc_fields size id) as (Et & Es & Eid); [lia..|]. set (desc := StaticBufferDesc size id) in *.
    destruct (ctx_put_ok i desc c i Hf ltac:(lia)) as (_ & Hf1 & _). set (c1 := set_ctx_buf _ c) in *.
    destruct (lookup_lt_is_Some_2 (static_buffers c1) (Z.to_nat id)) as [old Hold]; [rewrite (fi_static _ _ Hf1); unfold MAX_STATIC_BUFFERS; lia|].
    set (c2 := mkRequest (ctx_cmd_buf c1) (request_handles c1) (<[Z.to_nat id := data]> (static_buffers c1)) (request_mapped_buffers c1)).
    assert (filled i c2) as Hf2.
    { destruct Hf1 as [F1 F2 F3 F4]. split; [exact F1| |exact F3|exact F4]. rewrite <- F2. apply length_insert. }
    destruct (ctx_put_ok (S i) address c2 i Hf2 ltac:(lia)) as (E2 & _).
    eapply (accept_two _ i src cs c k t m _ desc address c1 (set_ctx_buf (<[S i := address]> (ctx_cmd_buf c2)) c2) address [id]); try done; [lia|..].
    + unfold populate_step. rewrite Et, H1. cbn [mbind option_bind]. rewrite Es, Er. cbn [mbind option_bind]. unfold AddStaticBuffer.
      rewrite Eid, Hold. cbn [mbind option_bind]. fold c2. rewrite E2. done.
    + cbn. by rewrite length_insert.
    + intros id' H0' Hne%not_elem_of_cons. cbn. apply list_lookup_insert_ne. lia.
    + intros c'' ids' hd Hg Hne Hd Hw. pop_two Hd Hw. unfold GetStaticBuffer. rewrite Eid, (gr_static _ _ _ _ Hg) by (lia || (apply Hne; set_solver)).
      cbn. rewrite list_lookup_insert_eq by (by eapply lookup_lt_Some). done.
  - destruct Hok as [Hsize Hperms]. injection Hv as <-. destruct (mapped_desc_fields size perms) as (Et & Es & Ep); [lia..|].
    set (desc := MappedBufferDesc size perms) in *. destruct (ctx_put_ok i desc c i Hf ltac:(lia)) as (_ & Hf1 & _). set (c1 := set_ctx_buf _ c) in *.
    pose proof (fi_mapped _ _ Hf) as Hm. unfold COMMAND_BUFFER_LENGTH in *. set (n := length (request_mapped_buffers c)) in *.
    set (b := mkMapped (Z.of_nat n) address (process_id client) size perms). assert (filled (S i) (add_mapped b c1)) as Hf2.
    { destruct Hf1 as [F1 F2 F3 F4]. split; [exact F1|exact F2|cbn in *; lia|]. cbn. rewrite length_app. simpl. lia. }
    destruct (ctx_put_ok (S i) (Z.of_nat n) (add_mapped b c1) (S i) Hf2 ltac:(unfold COMMAND_BUFFER_LENGTH; lia)) as (E2 & _).
    eapply (accept_two _ i src cs c k t m _ desc address c1 (set_ctx_buf (<[S i := Z.of_nat n]> (ctx_cmd_buf c1)) (add_mapped b c1)) (Z.of_nat n) []); try done; [unfold COMMAND_BUFFER_LENGTH; lia|..].
    + unfold populate_step. rewrite Et, H1. cbn [mbind option_bind]. change (length (request_mapped_buffers c1)) with n. rewrite u32_id by lia.
      unfold MappedBuffer_new. rewrite Es, Ep. fold b. rewrite E2. done.
    + by exists [b].
    + cbn. rewrite length_app. done.
    + intros c'' ids' hd Hg _ Hd Hw. pop_two Hd Hw. rewrite Et. cbn [assert_ mbind option_bind h_context].
      assert (request_mapped_buffers c'' !! n = Some b) as Hb.
      { eapply prefix_lookup_Some; [|exact (gr_mapped _ _ _ _ Hg)]. cbn. by rewrite lookup_app_r, Nat.sub_diag by done. }
      unfold GetMappedBuffer. rewrite (proj2 (Z.ltb_lt _ _)) by (apply lookup_lt_Some in Hb; lia). cbn [assert_ mbind option_bind h_context].
      rewrite Nat2Z.id, Hb. done.
Qed.

(** *** All parameters *)

Lemma meanings_table k t m n params r :
  meanings k m n params = Some r → meanings (put_table (process_id client) t k) m n params = Some r.
Proof.
  revert m n r. induction params as [|p params IH]; intros m n r H; [done|]. cbn [meanings] in *. apply bind_Some in H as (v & Hv & H).
  apply bind_Some in H as ([vs m'] & Hvs & H). apply IH in Hvs.
  assert (meaning (put_table (process_id client) t k) m n p = Some v) as ->; [|cbn [mbind option_bind]; by rewrite Hvs].
  destruct p; try done. cbn [meaning] in *. apply bind_Some in Hv as ([k' data] & Er & Hv). pose proof (read_process_quiet _ _ _ _ _ _ Er) as ->.
  by rewrite (read_process_table _ _ _ _ _ _ _ Er).
Qed.

Lemma param_words_two p : param_ok p → (2 <= length (param_words p))%nat.
Proof. destruct p; simpl; lia. Qed.

Lemma params_words_cons p params : params_words (p :: params) = param_words p ++ params_words params.
Proof. done. Qed.

Lemma params_words_long params : Forall param_ok params → (length params <= length (params_words params))%nat.
Proof.
  induction 1 as [|p params Hp _ IH]; [done|]. rewrite params_words_cons, length_app. apply param_words_two in Hp. cbn [length]. lia.
Qed.

Lemma populate_params_ok params i src cs fuel c k t m vs m' :
  filled i c → words_at src i (params_words params) → (i + length (params_words params))%nat = cs → (cs <= COMMAND_BUFFER_LENGTH)%nat →
  Forall param_ok params → NoDup (static_ids params) → handle_tables k !! process_id client = Some t → table_rep t m →
  meanings k m (length (request_mapped_buffers c)) params = Some (vs, m') → (length params <= fuel)%nat →
  ∃ c' t', populate_loop rasterizer client fuel src cs i c k = Some (c', put_table (process_id client) t' k) ∧ table_rep t' m' ∧
    grows i (static_ids params) c c' ∧ ∀ hd, pop_params params (mkHelper c' i hd) = Some (mkHelper c' cs hd, vs).
Proof.
  intros Hf Hs Hcs Hmax Hok Hnd Ht Hrep Hv Hfuel.
  revert i fuel c k t m vs Hf Hs Hcs Ht Hrep Hv Hfuel. induction params as [|p params IH]; intros i fuel c k t m vs Hf Hs Hcs Ht Hrep Hv Hfuel.
  - injection Hv as <- <-. simpl in Hcs. rewrite Nat.add_0_r in Hcs. subst cs. exists c, t.
    split; [|split; [done|split; [apply grows_refl|done]]]. rewrite put_table_id by done. destruct fuel; simpl; by rewrite Nat.ltb_irrefl.
  - apply Forall_cons in Hok as [Hok Hoks]. rewrite params_words_cons in *.
    apply words_at_app in Hs as [Hp Hs]. rewrite length_app in Hcs. cbn [meanings] in Hv. apply bind_Some in Hv as (v & Hv & Hvs).
    apply bind_Some in Hvs as ([vs' m1] & Hvs & Hr). injection Hr as <- ->.
    change (static_ids (p :: params)) with (static_id p ++ static_ids params) in *. apply NoDup_app in Hnd as (_ & Hdis & Hnd).
    destruct (accept_param p i src cs c k t m v Hf Hp ltac:(lia) Hmax Hok Ht Hrep Hv)
      as (desc & c1 & c2 & t2 & E0 & E1 & E2 & Hrep2 & Hf2 & Hg2 & Hm2 & Hpop).
    pose proof (param_words_two p Hok). destruct fuel as [|fuel]; [simpl in Hfuel; lia|]. simpl in Hfuel.
    destruct (IH Hoks Hnd (i + length (param_words p))%nat fuel c2 (put_table (process_id client) t2 k) t2 (handles_after m p) vs')
      as (c' & t' & E3 & Hrep' & Hg3 & Hpops); try done.
    + lia.
    + apply lookup_insert_eq.
    + rewrite Hm2. by apply meanings_table.
    + lia.
    + exists c', t'. cbn [populate_loop]. rewrite (proj2 (Nat.ltb_lt _ _)), E0 by lia. cbn [mbind option_bind]. rewrite E1. cbn [mbind option_bind].
      rewrite E2. cbn [mbind option_bind]. rewrite E3. split.
      { do 2 f_equal. unfold put_table. cbn. by rewrite insert_insert_eq. }
      split; [done|]. split; [exact (grows_trans i (i + length (param_words p)) _ _ c c2 c' ltac:(lia) Hg2 Hg3)|].
      intros hd. cbn [pop_params]. rewrite (Hpop c' (static_ids params) hd Hg3 Hdis). cbn [mbind option_bind]. rewrite Hpops. done.
Qed.

(** C14: A request arrives.  The client's buffer holds a header, the normal words, and the parameters; whatever the
    rest of the buffer and the new context hold, and provided every handle is open or 0, every
    static buffer has its own id and can be read, the kernel accepts the request.  A handler that
    pops the normal words and then the parameters gets exactly the words, and for every parameter
    the objects of the client's handles, the process id, the bytes of the buffer, or the buffer to
    map with its size, permissions and address; it then has popped as many words as the header says.  The client's
    memory is as it was, and so are its handles but for those that are moved alone. *)
Theorem request_arrives stack src_cmdbuf id normal params rest k t m vs m' :
  handle_tables k !! process_id client = Some t → table_rep t m → length stack = COMMAND_BUFFER_LENGTH →
  src_cmdbuf = MakeHeader id (Z.of_nat (length normal)) (Z.of_nat (length (params_words params))) :: normal ++ params_words params ++ rest →
  0 <= id < 2 ^ 16 → (1 + length normal + length (params_words params) <= COMMAND_BUFFER_LENGTH)%nat →
  Forall param_ok params → NoDup (static_ids params) → meanings k m 0 params = Some (vs, m') →
  ∃ c t' h1 h2 h3,
    PopulateFromIncomingCommandBuffer rasterizer client src_cmdbuf (HLERequestContext_new stack) k =
      Some (c, put_table (process_id client) t' k) ∧ table_rep t' m' ∧
    CommandID c = Some id ∧ RequestParser_new c = Some h1 ∧
    pop_words (length normal) h1 = Some (h2, normal) ∧ pop_params params h2 = Some (h3, vs) ∧
    Z.of_nat (h_index h3) = TotalSize h3.
Proof.
  intros Ht Hrep Hstack Esrc Hid Hlen Hok Hnd Hv. set (header := MakeHeader _ _ _) in Esrc.
  assert (command_id_of header = id ∧ normal_params_size_of header = Z.of_nat (length normal) ∧
          translate_params_size_of header = Z.of_nat (length (params_words params))) as (Eid & En & Etr).
  { unfold COMMAND_BUFFER_LENGTH in *. apply header_fields; lia. }
  set (n := length normal) in *. set (cs := (1 + n + length (params_words params))%nat) in *.
  set (c0 := set_ctx_buf (take (S n) src_cmdbuf ++ drop (S n) (ctx_cmd_buf (HLERequestContext_new stack))) (HLERequestContext_new stack)).
  assert (length (take (S n) src_cmdbuf) = S n) as Etake by (rewrite Esrc, length_take; simpl; rewrite length_app; lia).
  assert (filled (1 + n) c0) as Hf0.
  { split; cbn; [|done|lia|lia]. rewrite length_app, Etake, length_drop, length_insert. lia. }
  assert (words_at src_cmdbuf 0 (header :: normal ++ params_words params)) as Hw.
  { intros j w Hj. rewrite Esrc. change (header :: normal ++ params_words params ++ rest) with ((header :: normal) ++ params_words params ++ rest).
    rewrite app_assoc, lookup_app_l by (by apply lookup_lt_Some in Hj). exact Hj. }
  apply words_at_cons in Hw as [H0 Hw]. apply words_at_app in Hw as [Hn Hp].
  destruct (populate_params_ok params (1 + n) src_cmdbuf cs (cs - (1 + n)) c0 k t m vs m') as (c & t' & E & Hrep' & Hg & Hpop); try done.
  { pose proof (params_words_long params Hok). unfold cs. lia. }
  assert (words_at (ctx_cmd_buf c) 0 (header :: normal)) as Hc.
  { intros j w Hj. pose proof (lookup_lt_Some _ _ _ Hj) as Hlt. simpl in Hlt. rewrite (gr_words _ _ _ _ Hg) by lia. cbn [ctx_cmd_buf c0 set_ctx_buf].
    rewrite lookup_app_l by lia. rewrite lookup_take_lt by lia. rewrite Esrc. change (0 + j)%nat with j.
    change (header :: normal ++ params_words params ++ rest) with ((header :: normal) ++ params_words params ++ rest). by rewrite lookup_app_l by (simpl; lia). }
  apply words_at_cons in Hc as [Hc0 Hcn].
  exists c, t', (mkHelper c 1 header), (mkHelper c (1 + n) header), (mkHelper c cs header).
  split; [|split; [done|split; [|split; [|split; [|split]]]]].
  - unfold PopulateFromIncomingCommandBuffer. rewrite H0. cbn [mbind option_bind]. rewrite En, Etr.
    replace (Z.to_nat (1 + Z.of_nat n)) with (S n) by lia. rewrite Nat2Z.id. rewrite (proj2 (Nat.leb_le _ _)) by (unfold cs in *; lia).
    exact E.
  - unfold CommandID, CommandHeader. rewrite Hc0. cbn. by rewrite Eid.
  - unfold RequestParser_new, CommandHeader. by rewrite Hc0.
  - by apply pop_words_at.
  - apply Hpop.
  - unfold TotalSize. cbn [h_index h_header]. rewrite En, Etr. unfold cs. lia.
Qed.

End Requests.

(** ** What the client gets *)

(** The parameters of a reply, as the handler pushes them. *)
Inductive RParam : Type :=
| RObjects (move : bool) (objects : list (option Z))
| RStatic (id : Z) (data : list Z)
| RMapped (buffer : HLEMappedBuffer).

Definition push_param (p : RParam) (h : RequestHelper) : option RequestHelper :=
  match p with
  | RObjects true objects => PushMoveObjects objects h
  | RObjects false objects => PushCopyObjects objects h
  | RStatic id data => PushStaticBuffer data id h
  | RMapped b => PushMappedBuffer b h
  end.
Fixpoint push_params (params : list RParam) (h : RequestHelper) : option RequestHelper :=
  match params with
  | [] => Some h
  | p :: params => h ← push_param p h; push_params params h
  end.

Definition rparam_size (p : RParam) : nat := match p with RObjects _ objects => S (length objects) | _ => 2%nat end.
Definition rparams_size (params : list RParam) : nat := sum_list (rparam_size <$> params).
Definition rstatic_id (p : RParam) : list Z := match p with RStatic id _ => [id] | _ => [] end.
Definition rstatic_ids (params : list RParam) : list Z := mjoin (rstatic_id <$> params).

(** The slot of the client's buffer for a static buffer: a descriptor with the room, and the address. *)
Definition slot_of (dst_cmdbuf : list Z) (id : Z) : Z * Z :=
  let offset := (COMMAND_BUFFER_LENGTH + 2 * Z.to_nat id)%nat in
  (default 0 (dst_cmdbuf !! offset), default 0 (dst_cmdbuf !! S offset)).

(** What may be pushed; [mapped] are the mapped buffers of the request, [slots] the slots. *)
Definition rparam_ok (mapped : list HLEMappedBuffer) (slots : Z → Z * Z) (p : RParam) : Prop :=
  match p with
  | RObjects _ objects => (1 <= length objects <= 64)%nat
  | RStatic id data =>
      0 <= id < 16 ∧ Z.of_nat (length data) < 2 ^ 18 ∧ Z.of_nat (length data) <= static_size_of (slots id).1
  | RMapped b => 0 <= mb_size b < 2 ^ 28 ∧ 0 <= mb_perms b < 4 ∧ mapped !! Z.to_nat (mb_id b) = Some b
  end.

Fixpoint present (objects : list (option Z)) : list Z :=
  match objects with [] => [] | o :: objects => option_list o ++ present objects end.
Definition rparam_objects (p : RParam) : list Z := match p with RObjects _ objects => present objects | _ => [] end.
Definition rparams_objects (params : list RParam) : list Z := mjoin (rparam_objects <$> params).

(** A word of the reply that is a handle: the handles [m] were open before, [m'] after. *)
Definition new_handle (m m' : gmap Z Z) (o : option Z) (h : Z) : Prop :=
  match o with None => h = 0 | Some x => 0 < h ∧ m !! h = None ∧ m' !! h = Some x end.

(** The words that the client finds, with the handles that are open before and after. *)
Definition rparam_words (slots : Z → Z * Z) (m m' : gmap Z Z) (p : RParam) (ws : list Z) : Prop :=
  match p with
  | RObjects move objects =>
      ∃ hs, ws = handle_desc move (Z.of_nat (length objects)) :: hs ∧
        Forall2 (new_handle m m') objects hs
  | RStatic id data => ws = [StaticBufferDesc (Z.of_nat (length data)) id; (slots id).2]
  | RMapped b => ws = [MappedBufferDesc (mb_size b) (mb_perms b); mb_address b]
  end.

Section Replies.
Context {IS : Type} (rasterizer : FlushMode → Z → Z → gmap Z Z → gmap Z Z) (client : Peer).
Implicit Types k : KState IS.
Implicit Types c : HLERequestContext.
Implicit Types m : gmap Z Z.

(** The static buffers are written one after the other. *)
Definition rparam_write (slots : Z → Z * Z) (p : RParam) k : option (KState IS) :=
  match p with
  | RStatic id data => write_process rasterizer (process_id client) ((slots id).2) data k
  | _ => Some k
  end.
Fixpoint rparams_write (slots : Z → Z * Z) (params : list RParam) k : option (KState IS) :=
  match params with
  | [] => Some k
  | p :: params => k ← rparam_write slots p k; rparams_write slots params k
  end.

Lemma write_process_table pid a data k k1 q t :
  write_process rasterizer pid a data k = Some k1 →
  write_process rasterizer pid a data (put_table q t k) = Some (put_table q t k1) ∧ handle_tables k1 = handle_tables k.
Proof.
  unfold write_process. change (processes (put_table q t k)) with (processes k). change (k_memory (put_table q t k)) with (k_memory k).
  intros H. apply bind_Some in H as (p & -> & H). cbn [mbind option_bind]. apply bind_Some in H as (ms & -> & H). by injection H as <-.
Qed.

Lemma rparam_write_table slots p k k1 t :
  rparam_write slots p k = Some k1 →
  rparam_write slots p (put_table (process_id client) t k) = Some (put_table (process_id client) t k1) ∧ handle_tables k1 = handle_tables k.
Proof. destruct p; simpl; [intros [= <-]; done|apply write_process_table|intros [= <-]; done]. Qed.

Lemma rparams_write_table slots params k k1 t :
  rparams_write slots params k = Some k1 →
  rparams_write slots params (put_table (process_id client) t k) = Some (put_table (process_id client) t k1).
Proof.
  revert k. induction params as [|p params IH]; intros k H; simpl in *; [by injection H as ->|]. apply bind_Some in H as (k2 & E & H).
  destruct (rparam_write_table slots p k k2 t E) as [-> _]. cbn [mbind option_bind]. by apply IH.
Qed.

(** *** Pushing *)

(** The context holds the parameter [p] at [i]. *)
Definition sent (p : RParam) (i : nat) c : Prop :=
  match p with
  | RObjects move objects => ∃ len,
      words_at (ctx_cmd_buf c) i (handle_desc move (Z.of_nat (length objects)) :: (Z.of_nat <$> seq len (length objects))) ∧
      ∀ j o, objects !! j = Some o → request_handles c !! (len + j)%nat = Some o
  | RStatic id data =>
      words_at (ctx_cmd_buf c) i [StaticBufferDesc (Z.of_nat (length data)) id; 0xDEADC0DE] ∧ static_buffers c !! Z.to_nat id = Some data
  | RMapped b =>
      words_at (ctx_cmd_buf c) i [GenerateDescriptor b; mb_id b] ∧ request_mapped_buffers c !! Z.to_nat (mb_id b) = Some b
  end.

Lemma sent_grows p i ids c c' mapped slots :
  rparam_ok mapped slots p → sent p i c → grows (i + rparam_size p) ids c c' → (∀ id, id ∈ rstatic_id p → id ∉ ids) → sent p i c'.
Proof.
  intros Hok Hs Hg Hid. destruct p as [move objects|id data|b]; simpl in *.
  - destruct Hs as (len & Hw & Ho). exists len. split.
    + eapply words_at_grows; [exact Hg| |exact Hw]. simpl. rewrite length_fmap, length_seq. lia.
    + intros j o Hj. eapply prefix_lookup_Some; [by apply Ho|]. by destruct Hg.
  - destruct Hs as [Hw Hd]. split; [by eapply words_at_grows|]. rewrite (gr_static _ _ _ _ Hg) by (lia || (apply Hid; set_solver)). done.
  - destruct Hs as [Hw Hd]. split; [by eapply words_at_grows|]. eapply prefix_lookup_Some; [done|]. by destruct Hg.
Qed.

Lemma push_words_ok ws i n c hd :
  filled n c → (i + length ws <= COMMAND_BUFFER_LENGTH)%nat →
  ∃ c', push_words ws (mkHelper c i hd) = Some (mkHelper c' (i + length ws) hd) ∧ filled n c' ∧ grows i [] c c' ∧
    words_at (ctx_cmd_buf c') i ws ∧ request_handles c' = request_handles c ∧ static_buffers c' = static_buffers c ∧
    request_mapped_buffers c' = request_mapped_buffers c.
Proof.
  revert i c. induction ws as [|w ws IH]; intros i c Hf Hi; cbn [length] in *.
  - exists c. rewrite Nat.add_0_r. split; [done|]. split; [done|]. split; [apply grows_refl|]. split; [by intros j v Hj|done].
  - cbn [push_words]. unfold Push_u32. cbn [h_context h_index h_header]. destruct (ctx_put_ok i w c n Hf ltac:(lia)) as (-> & Hf1 & Hg1 & Hw1).
    cbn [mbind option_bind]. set (c1 := set_ctx_buf _ c) in *.
    destruct (IH (S i) c1 Hf1 ltac:(lia)) as (c2 & -> & Hf2 & Hg2 & Hw2 & Hrest).
    exists c2. replace (i + S (length ws))%nat with (S i + length ws)%nat by lia. split; [done|]. split; [done|].
    split; [exact (grows_trans i (S i) [] [] c c1 c2 ltac:(lia) Hg1 Hg2)|]. split; [|done].
    apply words_at_cons. split; [by rewrite (gr_words _ _ _ _ Hg2) by lia|done].
Qed.

Lemma add_objects_ok objects i c :
  filled i c → (i + length objects <= COMMAND_BUFFER_LENGTH)%nat →
  ∃ c', add_objects objects c = (c', Z.of_nat <$> seq (length (request_handles c)) (length objects)) ∧ filled (i + length objects) c' ∧
    grows i [] c c' ∧ request_handles c' = request_handles c ++ objects ∧ ctx_cmd_buf c' = ctx_cmd_buf c.
Proof.
  revert i c. induction objects as [|o objects IH]; intros i c Hf Hi; cbn [length] in *.
  - exists c. rewrite Nat.add_0_r, app_nil_r. split; [done|]. split; [done|]. split; [apply grows_refl|done].
  - cbn [add_objects]. unfold AddOutgoingHandle. set (c1 := mkRequest _ _ _ _).
    assert (filled (S i) c1) as Hf1 by (destruct Hf; split; unfold c1; cbn [ctx_cmd_buf request_handles static_buffers request_mapped_buffers]; rewrite ?length_app; cbn [length]; lia).
    destruct (IH (S i) c1 Hf1 ltac:(lia)) as (c2 & -> & Hf2 & Hg2 & Eh & Eb). exists c2.
    replace (i + S (length objects))%nat with (S i + length objects)%nat by lia.
    assert (request_handles c1 = request_handles c ++ [o]) as E1 by done. pose proof (fi_handles _ _ Hf). unfold COMMAND_BUFFER_LENGTH in *.
    split.
    { f_equal. rewrite E1, length_app. cbn [length seq fmap list_fmap]. rewrite u32_id by lia. f_equal; [lia|]. do 2 f_equal. lia. }
    split; [done|]. split; [|split; [by rewrite Eh, E1, <- app_assoc|done]].
    eapply (grows_trans i (S i) [] [] c c1 c2); [lia| |done]. split; [done| |done..]. by exists [o].
Qed.

Lemma push_param_ok p i c hd slots :
  filled i c → (i + rparam_size p <= COMMAND_BUFFER_LENGTH)%nat → rparam_ok (request_mapped_buffers c) slots p →
  ∃ c', push_param p (mkHelper c i hd) = Some (mkHelper c' (i + rparam_size p) hd) ∧ filled (i + rparam_size p) c' ∧
    grows i (rstatic_id p) c c' ∧ sent p i c'.
Proof.
  intros Hf Hi Hok. destruct p as [move objects|id data|b]; cbn [rparam_size rparam_ok rstatic_id sent] in *.
  - destruct (add_objects_ok objects i c Hf ltac:(lia)) as (c1 & E1 & Hf1 & Hg1 & Eh & Eb). set (len := length (request_handles c)) in *.
    set (ws := handle_desc move (Z.of_nat (length objects)) :: (Z.of_nat <$> seq len (length objects))).
    assert (length ws = S (length objects)) as El by (simpl; by rewrite length_fmap, length_seq).
    destruct (push_words_ok ws i (i + length objects) c1 hd Hf1 ltac:(lia)) as (c2 & E2 & Hf2 & Hg2 & Hw2 & Ehs & _). rewrite El in E2.
    exists c2. split; [|split; [eapply filled_le; [|done]; lia|split]].
    + assert (push_objects (handle_desc move) objects (mkHelper c i hd) = Some (mkHelper c2 (i + S (length objects)) hd)) as E.
      { unfold push_objects. cbn [h_context]. rewrite E1. exact E2. }
      destruct move; exact E.
    + exact (grows_trans i i [] [] c c1 c2 (le_n i) Hg1 Hg2).
    + exists len. split; [done|]. intros j o Hj. rewrite Ehs, Eh, lookup_app_r by lia. by replace (len + j - _)%nat with j by lia.
  - destruct Hok as (Hid & Hlen & _). set (ws := [StaticBufferDesc (Z.of_nat (length data)) id; 0xDEADC0DE]).
    destruct (push_words_ok ws i i c hd Hf Hi) as (c1 & E1 & Hf1 & Hg1 & Hw1 & Eh & Es & Em). cbn [length ws] in E1.
    unfold push_param, PushStaticBuffer, AddStaticBuffer. rewrite (proj2 (Z.ltb_lt _ _)) by (unfold MAX_STATIC_BUFFERS; lia).
    cbn [assert_ mbind option_bind]. fold ws. rewrite E1. cbn [mbind option_bind h_context].
    destruct (lookup_lt_is_Some_2 (static_buffers c1) (Z.to_nat id)) as [d0 Hd0]; [rewrite (fi_static _ _ Hf1); unfold MAX_STATIC_BUFFERS; lia|].
    rewrite Hd0. cbn [mbind option_bind]. eexists. split; [done|]. split; [|split; [|split; [done|]]].
    + destruct Hf1 as [F1 F2 F3 F4]. split; [exact F1| |cbn; lia|etrans; [exact F4|lia]]. rewrite <- F2. apply length_insert.
    + destruct Hg1 as [A B C D]. split; [done..|]. intros id' H0 Hne%not_elem_of_cons. cbn. rewrite list_lookup_insert_ne by lia. by rewrite Es.
    + cbn. apply list_lookup_insert_eq. by eapply lookup_lt_Some.
  - destruct Hok as (Hs & Hp & Hb). destruct (push_words_ok [GenerateDescriptor b; mb_id b] i i c hd Hf Hi) as (c1 & E1 & Hf1 & Hg1 & Hw1 & Eh & Es & Em).
    exists c1. split; [exact E1|]. split; [eapply filled_le; [|done]; lia|]. split; [done|]. split; [done|]. by rewrite Em.
Qed.

(** The context holds all of [params] from [i] on. *)
Fixpoint all_sent (params : list RParam) (i : nat) c : Prop :=
  match params with
  | [] => True
  | p :: params => sent p i c ∧ all_sent params (i + rparam_size p) c
  end.

Lemma rparam_ok_prefix mapped mapped' slots p : mapped `prefix_of` mapped' → rparam_ok mapped slots p → rparam_ok mapped' slots p.
Proof. intros Hm. destruct p; simpl; [done..|]. intros (? & ? & Hb). split; [done|]. split; [done|]. by eapply prefix_lookup_Some. Qed.

Lemma push_params_ok params i c hd slots :
  filled i c → (i + rparams_size params <= COMMAND_BUFFER_LENGTH)%nat → Forall (rparam_ok (request_mapped_buffers c) slots) params →
  NoDup (rstatic_ids params) →
  ∃ c', push_params params (mkHelper c i hd) = Some (mkHelper c' (i + rparams_size params) hd) ∧ filled (i + rparams_size params) c' ∧
    grows i (rstatic_ids params) c c' ∧ all_sent params i c'.
Proof.
  revert i c. induction params as [|p params IH]; intros i c Hf Hi Hok Hnd.
  - exists c. change (rparams_size []) with 0%nat. rewrite Nat.add_0_r. split; [done|]. split; [done|]. split; [apply grows_refl|done].
  - change (rparams_size (p :: params)) with (rparam_size p + rparams_size params)%nat in *. rewrite Nat.add_assoc in *.
    change (rstatic_ids (p :: params)) with (rstatic_id p ++ rstatic_ids params) in *. apply NoDup_app in Hnd as (_ & Hdis & Hnd).
    apply Forall_cons in Hok as [Hok Hoks]. destruct (push_param_ok p i c hd slots Hf ltac:(lia) Hok) as (c1 & E1 & Hf1 & Hg1 & Hs1).
    destruct (IH (i + rparam_size p)%nat c1 Hf1 Hi) as (c2 & E2 & Hf2 & Hg2 & Hs2); [|done|].
    { eapply Forall_impl; [exact Hoks|]. intros q. apply rparam_ok_prefix. by destruct Hg1. }
    exists c2. cbn [push_params]. rewrite E1. cbn [mbind option_bind]. split; [done|]. split; [done|].
    split; [exact (grows_trans i (i + rparam_size p) _ _ c c1 c2 ltac:(lia) Hg1 Hg2)|]. split; [|done]. by eapply sent_grows.
Qed.

(** *** Writing *)

Lemma dst_put_ok i v (dst : list Z) : (i < length dst)%nat → dst_put i v dst = Some (<[i := v]> dst).
Proof. intros Hi. unfold dst_put. by destruct (lookup_lt_is_Some_2 dst i Hi) as [w ->]. Qed.

Lemma new_handle_weaken m1 m2 m1' m2' o h : m1 ⊆ m2 → m1' ⊆ m2' → new_handle m2 m1' o h → new_handle m1 m2' o h.
Proof.
  intros H1 H2. destruct o; simpl; [|done]. intros (? & ? & ?). split; [done|]. split; [by eapply lookup_weaken_None|by eapply lookup_weaken].
Qed.

Lemma write_handle_ok c i dst k t m id o :
  ctx_cmd_buf c !! i = Some (Z.of_nat id) → request_handles c !! id = Some o → (i < length dst)%nat →
  handle_tables k !! process_id client = Some t → table_rep t m → (length (option_list o) <= free_slots t)%nat →
  ∃ h t' m', write_handle client c i dst k = Some (<[i := h]> dst, put_table (process_id client) t' k) ∧ table_rep t' m' ∧ m ⊆ m' ∧
    new_handle m m' o h ∧ size m' = (size m + length (option_list o))%nat ∧ (free_slots t' + length (option_list o) = free_slots t)%nat.
Proof.
  intros Hw Ho Hi Ht Hrep Hfree. unfold write_handle. rewrite Hw. cbn [mbind option_bind]. unfold GetIncomingHandle.
  rewrite (proj2 (Z.ltb_lt _ _)) by (apply lookup_lt_Some in Ho; lia). cbn [assert_ mbind option_bind]. rewrite Nat2Z.id, Ho. cbn [mbind option_bind].
  destruct o as [x|]; simpl in Hfree.
  - rewrite Ht. cbn [mbind option_bind]. destruct (Create_room t m x Hrep Hfree) as (h & t' & -> & Hh & Hrep' & _ & Hpos & Hslots).
    cbn [mbind option_bind]. rewrite dst_put_ok by done. exists h, t', (<[h := x]> m). split; [done|]. split; [done|].
    split; [by apply insert_subseteq|]. split; [split; [done|split; [done|apply lookup_insert_eq]]|]. simpl.
    rewrite map_size_insert_None by done. lia.
  - cbn [mbind option_bind]. rewrite dst_put_ok by done. exists 0, t, m. rewrite put_table_id by done. simpl. by rewrite !Nat.add_0_r.
Qed.

Lemma write_handles_ok objects len i c dst k t m :
  words_at (ctx_cmd_buf c) i (Z.of_nat <$> seq len (length objects)) →
  (∀ j o, objects !! j = Some o → request_handles c !! (len + j)%nat = Some o) → (i + length objects <= length dst)%nat →
  handle_tables k !! process_id client = Some t → table_rep t m → (length (present objects) <= free_slots t)%nat →
  ∃ dst' t' m' hs, write_handles client (length objects) c i dst k = Some (dst', put_table (process_id client) t' k) ∧ table_rep t' m' ∧
    m ⊆ m' ∧ Forall2 (new_handle m m') objects hs ∧ words_at dst' i hs ∧ length dst' = length dst ∧
    (∀ j, ~ (i <= j < i + length objects)%nat → dst' !! j = dst !! j) ∧
    size m' = (size m + length (present objects))%nat ∧
    (free_slots t' + length (present objects) = free_slots t)%nat.
Proof.
  intros Hw Ho Hi Ht Hrep Hfree. revert len i dst k t m Hw Ho Hi Ht Hrep Hfree.
  induction objects as [|o objects IH]; intros len i dst k t m Hw Ho Hi Ht Hrep Hfree; cbn [length] in *.
  - exists dst, t, m, []. rewrite put_table_id by done. simpl. rewrite !Nat.add_0_r. do 3 (split; [done|]). split; [constructor|].
    split; [by intros j w Hj|]. done.
  - cbn [present] in Hfree |- *. rewrite length_app in Hfree |- *. cbn [seq fmap list_fmap] in Hw. apply words_at_cons in Hw as [H0 Hw].
    pose proof (Ho 0%nat o eq_refl) as Ho0. rewrite Nat.add_0_r in Ho0.
    destruct (write_handle_ok c i dst k t m len o H0 Ho0 ltac:(lia) Ht Hrep ltac:(lia)) as (h & t1 & m1 & E1 & Hrep1 & Hsub1 & Hh & Hsz1 & Hfr1).
    destruct (IH (S len) (S i) (<[i := h]> dst) (put_table (process_id client) t1 k) t1 m1) as (dst' & t' & m' & hs & E2 & Hrep2 & Hsub2 & Hall & Hws & Hl & Hfr & Hsz2 & Hfr2).
    { done. } { intros j x Hj. rewrite <- (Ho (S j) x Hj). f_equal. lia. } { rewrite length_insert. lia. }
    { apply lookup_insert_eq. } { done. } { lia. }
    exists dst', t', m', (h :: hs). cbn [write_handles]. rewrite E1. cbn [mbind option_bind]. rewrite E2.
    split. { do 2 f_equal. unfold put_table. cbn. by rewrite insert_insert_eq. }
    split; [done|]. split; [by etrans|]. split.
    { constructor; [exact (new_handle_weaken m m m1 m' o h (reflexivity _) Hsub2 Hh)|].
      eapply Forall2_impl; [exact Hall|]. intros x y. by apply new_handle_weaken. }
    split. { apply words_at_cons. split; [|done]. rewrite Hfr by lia. apply list_lookup_insert_eq. lia. }
    split; [by rewrite Hl, length_insert|]. split.
    { intros j Hj. rewrite Hfr by lia. apply list_lookup_insert_ne. lia. }
    lia.
Qed.

Lemma write_param_ok p i cs c dst slots k k1 t m :
  (i + rparam_size p <= cs)%nat → (cs <= COMMAND_BUFFER_LENGTH)%nat → length dst = (COMMAND_BUFFER_LENGTH + 2 * MAX_STATIC_BUFFERS)%nat →
  rparam_ok (request_mapped_buffers c) slots p → (∀ id, slot_of dst id = slots id) → sent p i c →
  handle_tables k !! process_id client = Some t → table_rep t m → (length (rparam_objects p) <= free_slots t)%nat →
  rparam_write slots p k = Some k1 →
  ∃ desc dst' t' m' ws, ctx_cmd_buf c !! i = Some desc ∧
    write_step rasterizer client c cs desc (S i) (<[i := desc]> dst) k = Some (dst', put_table (process_id client) t' k1, (i + rparam_size p)%nat) ∧
    table_rep t' m' ∧ m ⊆ m' ∧ rparam_words slots m m' p ws ∧ length ws = rparam_size p ∧ words_at dst' i ws ∧ length dst' = length dst ∧
    (∀ j, ~ (i <= j < i + rparam_size p)%nat → dst' !! j = dst !! j) ∧ size m' = (size m + length (rparam_objects p))%nat ∧
    (free_slots t' + length (rparam_objects p) = free_slots t)%nat.
Proof.
  intros Hi Hcs Hl Hok Hslots Hs Ht Hrep Hfree Hwr.
  assert (∀ desc w, (i + 2 <= cs)%nat → let dst' := <[S i := w]> (<[i := desc]> dst) in words_at dst' i [desc; w] ∧ length dst' = length dst ∧
    ∀ j, ~ (i <= j < i + 2)%nat → dst' !! j = dst !! j) as Htwo.
  { intros desc w Hi2 dst'. unfold dst'. split; [|split; [by rewrite !length_insert|]].
    - apply words_at_cons. split; [rewrite list_lookup_insert_ne by lia; apply list_lookup_insert_eq; lia|].
      apply words_at_cons. split; [apply list_lookup_insert_eq; rewrite length_insert; lia|by intros j v Hj].
    - intros j Hj. rewrite !list_lookup_insert_ne by lia. done. }
  destruct p as [move objects|id data|b]; cbn [rparam_size rparam_ok rparam_objects rparam_write] in *.
  - destruct Hs as (len & Hw & Ho). apply words_at_cons in Hw as [Hd Hw]. injection Hwr as <-.
    destruct (handle_desc_facts move (Z.of_nat (length objects))) as (Et & En & _); [lia|]. set (desc := handle_desc move _) in *.
    destruct (write_handles_ok objects len (S i) c (<[i := desc]> dst) k t m Hw Ho) as (dst' & t' & m' & hs & E & Hrep' & Hsub & Hall & Hws & Hl' & Hfr & Hsz & Hfs);
      try done; [rewrite length_insert; lia|]. rewrite length_insert in Hl'. exists desc, dst', t', m', (desc :: hs).
    unfold write_step. rewrite Et, En, Nat2Z.id, (proj2 (Nat.leb_le _ _)) by lia. split; [done|]. split.
    { replace (i + S (length objects))%nat with (S i + length objects)%nat by lia. destruct move; cbn [assert_ mbind option_bind]; by rewrite E. }
    split; [done|]. split; [done|]. split; [by exists hs|]. split; [cbn [length]; f_equal; by rewrite (Forall2_length _ _ _ Hall)|].
    split; [apply words_at_cons; split; [rewrite Hfr by lia; apply list_lookup_insert_eq; lia|done]|]. split; [done|]. split; [|done].
    intros j Hj. rewrite Hfr by lia. apply list_lookup_insert_ne. lia.
  - destruct Hs as [Hw Hd]. apply words_at_cons in Hw as [H0 _]. destruct Hok as (Hid & Hlen & Hroom).
    destruct (static_desc_fields (Z.of_nat (length data)) id) as (Et & Es & Eid); [lia..|]. set (desc := StaticBufferDesc _ id) in *.
    assert (∀ j, (COMMAND_BUFFER_LENGTH <= j)%nat → (j < length dst)%nat → <[i := desc]> dst !! j = Some (default 0 (dst !! j))) as Hslot.
    { intros j Hj Hj'. rewrite list_lookup_insert_ne by lia. by destruct (lookup_lt_is_Some_2 dst j Hj') as [w ->]. }
    destruct (Htwo desc (slots id).2 Hi) as (Hws & Hl' & Hfr).
    pose proof (proj2 (write_process_table _ _ _ _ _ (process_id client) t Hwr)) as Etab.
    eexists desc, _, t, m, _. split; [done|]. split.
    { unfold write_step. rewrite Et. unfold GetStaticBuffer. rewrite Eid, Hd. cbn [mbind option_bind].
      rewrite !Hslot by (unfold MAX_STATIC_BUFFERS in *; lia). cbn [mbind option_bind].
      pose proof (f_equal fst (Hslots id)) as E1. pose proof (f_equal snd (Hslots id)) as E2. cbn [slot_of fst snd] in E1, E2.
      rewrite E1, E2, (proj2 (Z.leb_le _ _) Hroom). cbn [assert_ mbind option_bind]. rewrite Hwr. cbn [mbind option_bind].
      rewrite dst_put_ok by (rewrite length_insert; lia). cbn [mbind option_bind]. rewrite put_table_id by (by rewrite Etab).
      by replace (i + 2)%nat with (S (S i)) by lia. }
    split; [done|]. split; [done|]. split; [done|]. split; [done|]. split; [done|]. split; [done|]. split; [done|]. simpl. lia.
  - destruct Hs as [Hw Hb]. apply words_at_cons in Hw as [H0 [H1 _]%words_at_cons]. destruct Hok as (Hs & Hp & _). injection Hwr as <-.
    destruct (mapped_desc_fields (mb_size b) (mb_perms b)) as (Et & _ & _); [lia..|]. change (MappedBufferDesc _ _) with (GenerateDescriptor b) in *.
    destruct (Htwo (GenerateDescriptor b) (mb_address b) Hi) as (Hws & Hl' & Hfr).
    eexists (GenerateDescriptor b), _, t, m, _. split; [done|]. split.
    { unfold write_step. rewrite Et, H1. cbn [mbind option_bind]. rewrite Hb. cbn [mbind option_bind].
      rewrite dst_put_ok by (rewrite length_insert; lia). cbn [mbind option_bind]. rewrite put_table_id by done.
      by replace (i + 2)%nat with (S (S i)) by lia. }
    split; [done|]. split; [done|]. split; [done|]. split; [done|]. split; [done|]. split; [done|]. split; [done|]. simpl. lia.
Qed.

Lemma rparam_words_weaken slots m1 m2 m1' m2' p ws :
  m1 ⊆ m2 → m1' ⊆ m2' → rparam_words slots m2 m1' p ws → rparam_words slots m1 m2' p ws.
Proof.
  intros H1 H2. destruct p; simpl; [|done..]. intros (hs & -> & Hall). exists hs. split; [done|].
  eapply Forall2_impl; [exact Hall|]. intros o h. by apply new_handle_weaken.
Qed.

Lemma rparam_size_two mapped slots p : rparam_ok mapped slots p → (2 <= rparam_size p)%nat.
Proof. destruct p; simpl; lia. Qed.

Lemma rparams_long mapped slots params : Forall (rparam_ok mapped slots) params → (length params <= rparams_size params)%nat.
Proof.
  induction 1 as [|p params Hp _ IH]; [done|]. change (rparams_size (p :: params)) with (rparam_size p + rparams_size params)%nat.
  apply rparam_size_two in Hp. cbn [length]. lia.
Qed.

Lemma write_params_ok params i cs c dst slots k k' t m fuel :
  (i + rparams_size params)%nat = cs → (cs <= COMMAND_BUFFER_LENGTH)%nat → length dst = (COMMAND_BUFFER_LENGTH + 2 * MAX_STATIC_BUFFERS)%nat →
  Forall (rparam_ok (request_mapped_buffers c) slots) params → (∀ id, slot_of dst id = slots id) → all_sent params i c →
  handle_tables k !! process_id client = Some t → table_rep t m → (length (rparams_objects params) <= free_slots t)%nat →
  rparams_write slots params k = Some k' → (length params <= fuel)%nat →
  ∃ dst' t' m' wss, write_loop rasterizer client fuel c cs i dst k = Some (dst', put_table (process_id client) t' k') ∧
    table_rep t' m' ∧ m ⊆ m' ∧ Forall2 (rparam_words slots m m') params wss ∧ words_at dst' i (mjoin wss) ∧
    length (mjoin wss) = rparams_size params ∧ length dst' = length dst ∧
    (∀ j, ~ (i <= j < cs)%nat → dst' !! j = dst !! j) ∧ size m' = (size m + length (rparams_objects params))%nat.
Proof.
  intros Hcs Hmax Hl Hok Hslots Hs Ht Hrep Hfree Hwr Hfuel. revert i fuel dst k k' t m Hcs Hl Hslots Hs Ht Hrep Hfree Hwr Hfuel.
  induction params as [|p params IH]; intros i fuel dst k k' t m Hcs Hl Hslots Hs Ht Hrep Hfree Hwr Hfuel.
  - injection Hwr as <-. change (rparams_size []) with 0%nat in Hcs. rewrite Nat.add_0_r in Hcs. subst cs. exists dst, t, m, [].
    rewrite put_table_id by done. split; [destruct fuel; simpl; by rewrite Nat.ltb_irrefl|]. split; [done|]. split; [done|]. split; [constructor|].
    split; [by intros j w Hj|]. split; [done|]. split; [done|]. split; [done|]. simpl. lia.
  - change (rparams_size (p :: params)) with (rparam_size p + rparams_size params)%nat in *.
    change (rparams_objects (p :: params)) with (rparam_objects p ++ rparams_objects params) in *. rewrite length_app in *.
    apply Forall_cons in Hok as [Hok Hoks]. destruct Hs as [Hs Hss]. cbn [rparams_write] in Hwr. apply bind_Some in Hwr as (k1 & Hw1 & Hwr).
    destruct (write_param_ok p i cs c dst slots k k1 t m) as (desc & dst1 & t1 & m1 & ws & E0 & E1 & Hrep1 & Hsub1 & Hws1 & Hlw & Hat1 & Hl1 & Hfr1 & Hsz1 & Hfs1);
      try (done || lia).
    pose proof (rparam_size_two _ _ _ Hok). destruct fuel as [|fuel]; [simpl in Hfuel; lia|]. simpl in Hfuel.
    destruct (IH Hoks (i + rparam_size p)%nat fuel dst1 (put_table (process_id client) t1 k1) (put_table (process_id client) t1 k') t1 m1)
      as (dst' & t' & m' & wss & E2 & Hrep' & Hsub2 & Hall & Hat2 & Hlws & Hl2 & Hfr2 & Hsz2).
    { lia. } { lia. }
    { intros id. rewrite <- Hslots. unfold slot_of. by rewrite !Hfr1 by lia. }
    { done. } { apply lookup_insert_eq. } { done. } { lia. } { by apply rparams_write_table. } { lia. }
    exists dst', t', m', (ws :: wss). split.
    { cbn [write_loop]. rewrite (proj2 (Nat.ltb_lt _ _)), E0 by lia. cbn [mbind option_bind]. rewrite dst_put_ok by lia. cbn [mbind option_bind].
      rewrite E1. cbn [mbind option_bind]. rewrite E2. do 2 f_equal. unfold put_table. cbn. by rewrite insert_insert_eq. }
    split; [done|]. split; [by etrans|]. split.
    { constructor; [exact (rparam_words_weaken slots m m m1 m' p ws (reflexivity _) Hsub2 Hws1)|].
      eapply Forall2_impl; [exact Hall|]. intros q x. by apply rparam_words_weaken. }
    change (mjoin (ws :: wss)) with (ws ++ mjoin wss). rewrite length_app, Hlw, Hlws. split.
    { apply words_at_app. rewrite Hlw. split; [|done]. intros j w Hj. apply lookup_lt_Some in Hj as Hlt. rewrite Hfr2 by lia. by apply Hat1. }
    split; [done|]. split; [congruence|]. split; [|lia]. intros j Hj. rewrite Hfr2, Hfr1 by lia. done.
Qed.

(** C15: A reply arrives.  The handler makes a builder for a header and pushes as many words and parameters as the
    header says; the client's buffer [dst_cmdbuf] has slots with room for the static buffers, its
    table has room for the objects, and its memory takes the static buffers.  Then no push fails, the kernel
    writes the reply, and the client finds the header, the words, and for every parameter: for each object a handle
    that was not open before and now stands for the object, and 0 for a null pointer; the address where the static
    buffer was written; the address of its mapped buffer.  Different objects get different handles, no
    handle is lost, and the slots stay as they are. *)
Theorem reply_arrives c dst_cmdbuf id normal params k k' t m :
  handle_tables k !! process_id client = Some t → table_rep t m → (length (rparams_objects params) <= free_slots t)%nat →
  length (ctx_cmd_buf c) = COMMAND_BUFFER_LENGTH → length (static_buffers c) = MAX_STATIC_BUFFERS →
  (length (request_mapped_buffers c) <= COMMAND_BUFFER_LENGTH)%nat →
  length dst_cmdbuf = (COMMAND_BUFFER_LENGTH + 2 * MAX_STATIC_BUFFERS)%nat →
  0 <= id < 2 ^ 16 → (1 + length normal + rparams_size params <= COMMAND_BUFFER_LENGTH)%nat →
  Forall (rparam_ok (request_mapped_buffers c) (slot_of dst_cmdbuf)) params → NoDup (rstatic_ids params) →
  rparams_write (slot_of dst_cmdbuf) params k = Some k' →
  let header := MakeHeader id (Z.of_nat (length normal)) (Z.of_nat (rparams_size params)) in
  ∃ h0 h1 h2 dst' t' m' wss,
    RequestBuilder_new header c = Some h0 ∧ push_words normal h0 = Some h1 ∧ push_params params h1 = Some h2 ∧
    Z.of_nat (h_index h2) = TotalSize h2 ∧
    WriteToOutgoingCommandBuffer rasterizer client (h_context h2) dst_cmdbuf k = Some (dst', put_table (process_id client) t' k') ∧
    table_rep t' m' ∧ m ⊆ m' ∧ size m' = (size m + length (rparams_objects params))%nat ∧
    words_at dst' 0 (header :: normal ++ mjoin wss) ∧ Forall2 (rparam_words (slot_of dst_cmdbuf) m m') params wss ∧
    ∀ i, slot_of dst' i = slot_of dst_cmdbuf i.
Proof.
  intros Ht Hrep Hfree Hc1 Hc2 Hc3 Hdst Hid Hlen Hok Hnd Hwr header.
  assert (normal_params_size_of header = Z.of_nat (length normal) ∧ translate_params_size_of header = Z.of_nat (rparams_size params)) as (En & Etr).
  { unfold COMMAND_BUFFER_LENGTH in *. apply header_fields; lia. }
  set (n := length normal) in *. set (cs := (1 + n + rparams_size params)%nat) in *.
  assert (filled 1 (ClearIncomingObjects c)) as Hf0 by (split; [done|done|cbn; lia|etrans; [exact Hc3|lia]]).
  destruct (ctx_put_ok 0 header _ 1 Hf0) as (E0 & Hf1 & _ & Hw0); [unfold COMMAND_BUFFER_LENGTH; lia|]. set (c0 := set_ctx_buf _ _) in *.
  destruct (push_words_ok normal 1 1 c0 header Hf1) as (c1 & E1 & Hf2 & Hg1 & Hw1 & _ & _ & Em1); [unfold cs in *; lia|]. fold n in E1.
  destruct (push_params_ok params (1 + n) c1 header (slot_of dst_cmdbuf)) as (c2 & E2 & Hf3 & Hg2 & Hs); [by eapply filled_le; [|done]; lia|unfold cs in *; lia|by rewrite Em1|done|].
  assert (words_at (ctx_cmd_buf c2) 0 (header :: normal)) as Hc.
  { apply words_at_cons. split.
    - rewrite (gr_words _ _ _ _ Hg2), (gr_words _ _ _ _ Hg1) by lia. exact Hw0.
    - eapply words_at_grows; [exact Hg2| |exact Hw1]. fold n. lia. }
  set (dst1 := take (S n) (ctx_cmd_buf c2) ++ drop (S n) dst_cmdbuf).
  assert (length (take (S n) (ctx_cmd_buf c2)) = S n) as Etake by (rewrite length_take, (fi_words _ _ Hf3); unfold cs in *; lia).
  assert (∀ j, (S n <= j)%nat → dst1 !! j = dst_cmdbuf !! j) as Hdst1.
  { intros j Hj. unfold dst1. rewrite lookup_app_r, Etake, lookup_drop by lia. f_equal. lia. }
  destruct (write_params_ok params (1 + n) cs c2 dst1 (slot_of dst_cmdbuf) k k' t m (cs - (1 + n)))
    as (dst' & t' & m' & wss & E & Hrep' & Hsub & Hall & Hat & _ & Hl' & Hfr & Hsz); try done.
  { unfold dst1. rewrite length_app, Etake, length_drop. unfold cs, MAX_STATIC_BUFFERS in *. lia. }
  { eapply Forall_impl; [exact Hok|]. intros q. apply rparam_ok_prefix. change (request_mapped_buffers c) with (request_mapped_buffers c0). rewrite <- Em1. by destruct Hg2. }
  { intros i. unfold slot_of. rewrite !Hdst1 by (unfold cs in *; lia). done. }
  { pose proof (rparams_long _ _ _ Hok). unfold cs. lia. }
  exists (mkHelper c0 1 header), (mkHelper c1 (1 + n) header), (mkHelper c2 cs header), dst', t', m', wss.
  split; [unfold RequestBuilder_new; by rewrite E0|]. split; [done|]. split; [done|]. split; [unfold TotalSize; cbn [h_index h_header]; rewrite En, Etr; unfold cs; lia|].
  split; [|split; [done|split; [done|split; [done|split; [|split; [done|]]]]]].
  - unfold WriteToOutgoingCommandBuffer, CommandHeader. cbn [h_context]. pose proof (proj1 (words_at_cons _ _ _ _) Hc) as [-> _]. cbn [mbind option_bind]. rewrite En, Etr.
    replace (Z.to_nat (1 + Z.of_nat n)) with (S n) by lia. rewrite Nat2Z.id, (proj2 (Nat.leb_le _ _)) by (unfold cs in *; lia). exact E.
  - change (header :: normal ++ mjoin wss) with ((header :: normal) ++ mjoin wss). apply words_at_app. split; [|exact Hat].
    intros j w Hj. pose proof (lookup_lt_Some _ _ _ Hj) as Hlt. cbn [length] in Hlt. fold n in Hlt. rewrite Hfr by lia. unfold dst1.
    rewrite lookup_app_l, lookup_take_lt by lia. by apply Hc.
  - intros i. unfold slot_of. rewrite !Hfr, !Hdst1 by (unfold cs in *; lia). done.
Qed.

End Replies.

(** ** The helpers agree

    What the typed functions of the builder push, the functions of the parser for the same types pop. *)

Inductive Scalar : Type :=
| SU8 (v : Z) | SU16 (v : Z) | SU32 (v : Z) | SS32 (v : Z) | SU64 (v : Z) | SBool (v : bool) | SResult (v : Z)
| SRaw (data : list Z).

Definition scalar_ok (s : Scalar) : Prop :=
  match s with
  | SU8 v => 0 <= v < 2 ^ 8
  | SU16 v => 0 <= v < 2 ^ 16
  | SU32 v | SResult v => 0 <= v < 2 ^ 32
  | SS32 v => - 2 ^ 31 <= v < 2 ^ 31
  | SU64 v => 0 <= v < 2 ^ 64
  | SBool _ => True
  | SRaw data => Forall (λ x, 0 <= x < 2 ^ 8) data
  end.
Definition scalar_words (s : Scalar) : nat :=
  match s with SU64 _ => 2 | SRaw data => (length data + 3) / 4 | _ => 1 end.

Definition push_scalar (s : Scalar) (h : RequestHelper) : option RequestHelper :=
  match s with
  | SU8 v => Push_u8 v h
  | SU16 v => Push_u16 v h
  | SU32 v => Push_u32 v h
  | SS32 v => Push_s32 v h
  | SU64 v => Push_u64 v h
  | SBool v => Push_bool v h
  | SResult v => Push_Result v h
  | SRaw data => PushRaw data h
  end.
(** Popping by the type of [s]. *)
Definition pop_scalar (s : Scalar) (h : RequestHelper) : option (RequestHelper * Scalar) :=
  match s with
  | SU8 _ => '(h, v) ← Pop_u8 h; Some (h, SU8 v)
  | SU16 _ => '(h, v) ← Pop_u16 h; Some (h, SU16 v)
  | SU32 _ => '(h, v) ← Pop_u32 h; Some (h, SU32 v)
  | SS32 _ => '(h, v) ← Pop_s32 h; Some (h, SS32 v)
  | SU64 _ => '(h, v) ← Pop_u64 h; Some (h, SU64 v)
  | SBool _ => '(h, v) ← Pop_bool h; Some (h, SBool v)
  | SResult _ => '(h, v) ← Pop_Result h; Some (h, SResult v)
  | SRaw data => '(h, l) ← PopRaw (length data) h; Some (h, SRaw l)
  end.
Fixpoint push_scalars (l : list Scalar) (h : RequestHelper) : option RequestHelper :=
  match l with
  | [] => Some h
  | s :: l => h ← push_scalar s h; push_scalars l h
  end.
Fixpoint pop_scalars (l : list Scalar) (h : RequestHelper) : option (RequestHelper * list Scalar) :=
  match l with
  | [] => Some (h, [])
  | s :: l => '(h, v) ← pop_scalar s h; '(h, vs) ← pop_scalars l h; Some (h, v :: vs)
  end.

(** The context changed in the [n] words from [i] on, and only there. *)
Definition put_words (i n : nat) (c c' : HLERequestContext) : Prop :=
  length (ctx_cmd_buf c') = length (ctx_cmd_buf c) ∧ ∀ j, ~ (i <= j < i + n)%nat → ctx_cmd_buf c' !! j = ctx_cmd_buf c !! j.
(** The contexts agree on those words. *)
Definition same_words (i n : nat) (c c' : HLERequestContext) : Prop := take n (drop i (ctx_cmd_buf c')) = take n (drop i (ctx_cmd_buf c)).

(** What a push must do for the pops of the same type. *)
Definition pushed (s : Scalar) (i : nat) (c : HLERequestContext) (hd : Z) : Prop :=
  ∃ c', push_scalar s (mkHelper c i hd) = Some (mkHelper c' (i + scalar_words s) hd) ∧ put_words i (scalar_words s) c c' ∧
    ∀ c'' hd', length (ctx_cmd_buf c'') = length (ctx_cmd_buf c) → same_words i (scalar_words s) c' c'' →
      pop_scalar s (mkHelper c'' i hd') = Some (mkHelper c'' (i + scalar_words s) hd', s).

Lemma raw_words n : (n <= 4 * ((n + 3) / 4))%nat.
Proof. pose proof (Nat.div_mod (n + 3) 4 ltac:(done)). pose proof (Nat.mod_upper_bound (n + 3) 4 ltac:(done)). lia. Qed.

Lemma push_raw_ok data i c hd :
  Forall (λ x, 0 <= x < 2 ^ 8) data → (i + (length data + 3) / 4 <= length (ctx_cmd_buf c))%nat →
  ∃ c', PushRaw data (mkHelper c i hd) = Some (mkHelper c' (i + (length data + 3) / 4) hd) ∧ put_words i ((length data + 3) / 4) c c' ∧
    ∀ c'' hd', length (ctx_cmd_buf c'') = length (ctx_cmd_buf c) → same_words i ((length data + 3) / 4) c' c'' →
      PopRaw (length data) (mkHelper c'' i hd') = Some (mkHelper c'' (i + (length data + 3) / 4) hd', data).
Proof.
  intros Hd Hi. unfold PushRaw. cbn [h_context h_index h_header]. pose proof (raw_words (length data)) as Hn.
  set (n := ((length data + 3) / 4)%nat) in *. set (buf := ctx_cmd_buf c) in *. rewrite (proj2 (Nat.leb_le _ _)) by done. cbn [assert_ mbind option_bind].
  set (old := bytes_of (take n (drop i buf))).
  assert (length old = (4 * n)%nat) as Hold by (unfold old; rewrite bytes_of_length, length_take, length_drop; lia).
  set (new := data ++ drop (length data) old).
  assert (length new = (4 * n)%nat) as Hnew by (unfold new; rewrite length_app, length_drop; lia).
  assert (Forall (λ x, 0 <= x < 2 ^ 8) new) as Hb by (apply Forall_app; split; [done|apply Forall_drop, bytes_of_range]).
  assert (length (take i buf) = i) as Ei by (rewrite length_take; lia).
  eexists. split; [reflexivity|]. split.
  - split; cbn [ctx_cmd_buf set_ctx_buf].
    + rewrite !length_app, words_of_length, length_drop, Ei. fold buf. lia.
    + intros j Hj. destruct (decide (j < i)%nat) as [Hlt|Hge].
      * by rewrite lookup_app_l, lookup_take_lt by lia.
      * rewrite lookup_app_r, lookup_app_r, words_of_length, Ei, lookup_drop by (rewrite ?words_of_length; lia). fold buf. f_equal. lia.
  - intros c'' hd' Hl Hs. unfold PopRaw. cbn [h_context h_index h_header]. fold n. rewrite (proj2 (Nat.leb_le _ _)) by (fold buf; lia).
    cbn [assert_ mbind option_bind]. do 3 f_equal. unfold same_words in Hs. rewrite Hs. cbn [ctx_cmd_buf set_ctx_buf].
    rewrite drop_app_length', take_app_length' by (rewrite ?words_of_length; lia). rewrite bytes_of_words by done. unfold new. by rewrite take_app_length.
Qed.

Lemma same_words_lookup i n c c' j : same_words i n c c' → (i <= j < i + n)%nat → ctx_cmd_buf c' !! j = ctx_cmd_buf c !! j.
Proof.
  unfold same_words. intros H Hj. pose proof (f_equal (λ l, l !! (j - i)%nat) H) as E. cbv beta in E.
  rewrite !lookup_take_lt, !lookup_drop in E by lia. by replace (i + (j - i))%nat with j in E by lia.
Qed.

Lemma push_word_ok v i c hd :
  (i < length (ctx_cmd_buf c))%nat →
  ∃ c', Push_u32 v (mkHelper c i hd) = Some (mkHelper c' (S i) hd) ∧ put_words i 1 c c' ∧ ctx_cmd_buf c' !! i = Some v.
Proof.
  intros Hi. unfold Push_u32, ctx_put. cbn [h_context h_index h_header]. destruct (lookup_lt_is_Some_2 _ _ Hi) as [w ->]. cbn [mbind option_bind].
  eexists. split; [reflexivity|]. split; [|by apply list_lookup_insert_eq]. split; [apply length_insert|]. intros j Hj. apply list_lookup_insert_ne. lia.
Qed.

Lemma s32_u32 v : - 2 ^ 31 <= v < 2 ^ 31 → s32 (u32 v) = v.
Proof.
  intros Hv. unfold s32. rewrite swrap_cases by (apply u32_range || lia). unfold u32. destruct (Z.ltb_spec v 0).
  - rewrite <- (Z.mod_add v 1), Z.mod_small by lia. rewrite (proj2 (Z.ltb_ge _ _)) by lia. lia.
  - rewrite Z.mod_small by lia. by rewrite (proj2 (Z.ltb_lt _ _)) by lia.
Qed.

Lemma u64_words v : 0 <= v < 2 ^ 64 → Z.lor (u64 (Z.shiftl (u32 (Z.shiftr v 32)) 32)) (u32 v) = v.
Proof.
  intros Hv. rewrite Z.shiftr_div_pow2 by lia. pose proof (Z.div_mod v (2 ^ 32) ltac:(lia)).
  pose proof (Z.mod_pos_bound v (2 ^ 32) ltac:(lia)). assert (0 <= v / 2 ^ 32 < 2 ^ 32) as Hq by (split; [apply Z.div_pos|apply Z.div_lt_upper_bound]; lia).
  rewrite u32_id by lia. rewrite Z.shiftl_mul_pow2, u64_id by lia. rewrite <- Z.shiftl_mul_pow2, Z.lor_comm by lia.
  rewrite lor_shiftl_add by (unfold u32; lia). unfold u32. lia.
Qed.

(** A pop of one word. *)
Lemma pop_word_ok c i hd v : ctx_cmd_buf c !! i = Some v → Pop_u32 (mkHelper c i hd) = Some (mkHelper c (S i) hd, v).
Proof. intros H. unfold Pop_u32. cbn [h_context h_index h_header]. by rewrite H. Qed.

Lemma pop_word_bytes c i hd v : ctx_cmd_buf c !! i = Some v → PopRaw 4 (mkHelper c i hd) = Some (mkHelper c (i + 1) hd, le_bytes 4 v).
Proof.
  intros H. unfold PopRaw. cbn [h_context h_index h_header]. change ((4 + 3) / 4)%nat with 1%nat. pose proof (lookup_lt_Some _ _ _ H).
  rewrite (proj2 (Nat.leb_le _ _)) by lia. cbn [assert_ mbind option_bind]. rewrite (drop_S _ v) by done. cbn [take]. done.
Qed.

(** What is pushed as a single word. *)
Lemma pushed_word s v i c hd :
  scalar_words s = 1%nat → push_scalar s (mkHelper c i hd) = Push_u32 v (mkHelper c i hd) → (i < length (ctx_cmd_buf c))%nat →
  (∀ c'' hd', ctx_cmd_buf c'' !! i = Some v → pop_scalar s (mkHelper c'' i hd') = Some (mkHelper c'' (i + 1) hd', s)) → pushed s i c hd.
Proof.
  intros En Epush Hi Hpop. destruct (push_word_ok v i c hd Hi) as (c' & E & Hp & Hw). exists c'. rewrite En, Epush, E.
  replace (i + 1)%nat with (S i) by lia. split; [done|]. split; [done|]. intros c'' hd' _ Hs. replace (S i) with (i + 1)%nat by lia.
  apply Hpop. by rewrite (same_words_lookup _ _ _ _ _ Hs) by lia.
Qed.

Lemma push_scalar_ok s i c hd : scalar_ok s → (i + scalar_words s <= length (ctx_cmd_buf c))%nat → pushed s i c hd.
Proof.
  intros Hok Hi. destruct s as [v|v|v|v|v|v|v|data]; cbn [scalar_ok scalar_words] in Hok, Hi.
  - destruct (push_raw_ok (le_bytes 1 v) i c hd (le_bytes_range 1 v) Hi) as (c' & E & Hp & Hpop). exists c'. split; [exact E|]. split; [exact Hp|].
    intros c'' hd' Hl Hs. cbn [pop_scalar]. unfold Pop_u8. rewrite (Hpop c'' hd' Hl Hs : PopRaw 1 _ = _). cbn [mbind option_bind].
    by rewrite le_value_bytes.
  - destruct (push_raw_ok (le_bytes 2 v) i c hd (le_bytes_range 2 v) Hi) as (c' & E & Hp & Hpop). exists c'. split; [exact E|]. split; [exact Hp|].
    intros c'' hd' Hl Hs. cbn [pop_scalar]. unfold Pop_u16. rewrite (Hpop c'' hd' Hl Hs : PopRaw 2 _ = _). cbn [mbind option_bind].
    by rewrite le_value_bytes.
  - apply (pushed_word _ v); [done|done|lia|]. intros c'' hd' H. cbn [pop_scalar]. rewrite (pop_word_ok _ _ _ _ H). by rewrite Nat.add_1_r.
  - apply (pushed_word _ (u32 v)); [done|done|lia|]. intros c'' hd' H. cbn [pop_scalar]. unfold Pop_s32. rewrite (pop_word_bytes _ _ _ _ H).
    cbn [mbind option_bind]. rewrite le_value_bytes by apply u32_range. by rewrite s32_u32.
  - destruct (push_word_ok (u32 v) i c hd) as (c1 & E1 & [Hl1 Hp1] & Hw1); [lia|].
    destruct (push_word_ok (u32 (Z.shiftr v 32)) (S i) c1 hd) as (c2 & E2 & [Hl2 Hp2] & Hw2); [lia|]. exists c2. cbn [scalar_words].
    replace (i + 2)%nat with (S (S i)) by lia. split; [cbn [push_scalar]; unfold Push_u64; by rewrite E1|]. split.
    { split; [congruence|]. intros j Hj. rewrite Hp2, Hp1 by lia. done. }
    intros c'' hd' _ Hs. cbn [pop_scalar]. unfold Pop_u64. rewrite (pop_word_ok c'' i hd' (u32 v)).
    2: { rewrite (same_words_lookup _ _ _ _ _ Hs), Hp2 by lia. done. }
    cbn [mbind option_bind]. rewrite (pop_word_ok c'' (S i) hd' (u32 (Z.shiftr v 32))).
    2: { by rewrite (same_words_lookup _ _ _ _ _ Hs) by lia. }
    cbn [mbind option_bind]. by rewrite u64_words.
  - destruct (push_raw_ok (le_bytes 1 (if v then 1 else 0)) i c hd (le_bytes_range 1 _) Hi) as (c' & E & Hp & Hpop).
    exists c'. split; [exact E|]. split; [exact Hp|]. intros c'' hd' Hl Hs. cbn [pop_scalar]. unfold Pop_bool, Pop_u8.
    rewrite (Hpop c'' hd' Hl Hs : PopRaw 1 _ = _). cbn [mbind option_bind]. by destruct v.
  - apply (pushed_word _ v); [done|done|lia|]. intros c'' hd' H. cbn [pop_scalar]. unfold Pop_Result. rewrite (pop_word_ok _ _ _ _ H). by rewrite Nat.add_1_r.
  - destruct (push_raw_ok data i c hd Hok Hi) as (c' & E & Hp & Hpop). exists c'. split; [exact E|]. split; [exact Hp|].
    intros c'' hd' Hl Hs. cbn [pop_scalar]. rewrite (Hpop c'' hd' Hl Hs). done.
Qed.

Definition scalars_words (l : list Scalar) : nat := sum_list (scalar_words <$> l).

(** What a builder pushes, a parser that pops the same types gets back: numbers of every width, signed ones,
    booleans, results and structures of any size, as long as the values fit their types and the
    words the array.  Later changes behind the pushed words do not matter, and a push touches its own words only. *)
Theorem push_pop_roundtrip l i c hd :
  Forall scalar_ok l → (i + scalars_words l <= length (ctx_cmd_buf c))%nat →
  ∃ c', push_scalars l (mkHelper c i hd) = Some (mkHelper c' (i + scalars_words l) hd) ∧ put_words i (scalars_words l) c c' ∧
    ∀ c'' hd', length (ctx_cmd_buf c'') = length (ctx_cmd_buf c) → same_words i (scalars_words l) c' c'' →
      pop_scalars l (mkHelper c'' i hd') = Some (mkHelper c'' (i + scalars_words l) hd', l).
Proof.
  intros Hok. revert i c. induction Hok as [|s l Hs _ IH]; intros i c Hi.
  - change (scalars_words []) with 0%nat. rewrite Nat.add_0_r. exists c. split; [done|]. split; [by split|]. done.
  - change (scalars_words (s :: l)) with (scalar_words s + scalars_words l)%nat in *. rewrite Nat.add_assoc in *.
    destruct (push_scalar_ok s i c hd Hs ltac:(lia)) as (c1 & E1 & [Hl1 Hp1] & Hpop1).
    destruct (IH (i + scalar_words s)%nat c1 ltac:(lia)) as (c2 & E2 & [Hl2 Hp2] & Hpop2). exists c2. cbn [push_scalars]. rewrite E1.
    cbn [mbind option_bind]. split; [done|]. split.
    { split; [congruence|]. intros j Hj. rewrite Hp2, Hp1 by lia. done. }
    intros c'' hd' Hl Hsame. cbn [pop_scalars]. rewrite Hpop1; [|done|].
    + cbn [mbind option_bind]. rewrite Hpop2; [done|congruence|]. unfold same_words in *.
      pose proof (f_equal (drop (scalar_words s)) Hsame) as E. rewrite !skipn_firstn_comm, !drop_drop in E.
      by replace (scalar_words s + scalars_words l - scalar_words s)%nat with (scalars_words l) in E by lia.
    + unfold same_words in *. apply list_eq. intros j. destruct (decide (j < scalar_words s)%nat) as [Hj|Hj].
      * rewrite !lookup_take_lt, !lookup_drop by lia. rewrite (same_words_lookup _ _ _ _ (i + j) Hsame) by lia. apply Hp2. lia.
      * rewrite !lookup_take_ge by lia. done.
Qed.

(** ** Dispatch *)

Section Dispatch.
Context {A Handler : Type} (invoke : Handler → HLERequestContext → A → option (A * HLERequestContext)).

(** The function of a command: the first that was registered. *)
Definition function_of (id : Z) (functions : list (FunctionInfo (Handler := Handler))) : option FunctionInfo :=
  snd <$> list_find (λ f, command_id f = id) functions.

Lemma RegisterHandlers_lookup functions (m : gmap Z (FunctionInfo (Handler := Handler))) id :
  RegisterHandlers functions m !! id = match m !! id with Some f => Some f | None => function_of id functions end.
Proof.
  unfold RegisterHandlers, function_of. revert m. induction functions as [|f functions IH]; intros m; simpl; [by destruct (m !! id)|].
  rewrite IH. destruct (m !! command_id f) as [g|] eqn:E.
  - destruct (m !! id) eqn:Ei; [done|]. rewrite decide_False by congruence. by destruct (list_find _ functions) as [[]|].
  - rewrite lookup_insert. case_decide as Ec; [subst id|].
    + by rewrite E.
    + destruct (m !! id) eqn:Ei; [done|]. by destruct (list_find _ functions) as [[]|].
Qed.

(** The dispatch of a service: a command goes to the function that was registered first for its id.  A
    command without function, or whose function is only a name, is not refused: its reply is a header for one
    result, and the result is success. *)
Theorem service_dispatch functions c (a : A) id header :
  ctx_cmd_buf c !! 0%nat = Some header → 0 <= header < 2 ^ 32 → (2 <= length (ctx_cmd_buf c))%nat → command_id_of header = id →
  let result := Service_HandleSyncRequest invoke (RegisterHandlers functions ∅) c a in
  match function_of id functions ≫= handler_callback with
  | Some handler => result = invoke handler c a
  | None => ∃ header' rest,
      result = Some (a, set_ctx_buf (header' :: ResultSuccess :: rest) c) ∧ rest = drop 2 (ctx_cmd_buf c) ∧
      command_id_of header' = id ∧ normal_params_size_of header' = 1 ∧ translate_params_size_of header' = 0
  end.
Proof.
  intros H0 Hh Hl Hid result. unfold result, Service_HandleSyncRequest, CommandID, CommandHeader. rewrite H0. cbn [mbind option_bind].
  rewrite RegisterHandlers_lookup, lookup_empty, Hid. set (found := match function_of id functions with Some f => handler_callback f | None => None end).
  change (match found with
    | Some handler => match found with Some handler => invoke handler c a | None => c ← ReportUnimplementedFunction c; Some (a, c) end = invoke handler c a
    | None => ∃ header' rest,
        match found with Some handler => invoke handler c a | None => c ← ReportUnimplementedFunction c; Some (a, c) end =
          Some (a, set_ctx_buf (header' :: ResultSuccess :: rest) c) ∧ rest = drop 2 (ctx_cmd_buf c) ∧
        command_id_of header' = id ∧ normal_params_size_of header' = 1 ∧ translate_params_size_of header' = 0
    end).
  destruct found; [done|]. unfold ReportUnimplementedFunction, CommandHeader, ctx_put. rewrite H0. cbn [mbind option_bind].
  cbn [mbind option_bind ctx_cmd_buf set_ctx_buf]. destruct c as [buf hs ss ms]. cbn [ctx_cmd_buf] in *.
  destruct buf as [|w0 [|w1 rest]]; [done|simpl in Hl; lia|]. injection H0 as ->. cbn. eexists _, rest. split; [reflexivity|]. split; [done|].
  rewrite <- Hid. unfold command_id_of, normal_params_size_of, translate_params_size_of. split; [|split]; field_of; done.
Qed.

End Dispatch.

(** ** Examples *)

Module Examples.
Import IPC.Examples SharedMemory.Examples.

(** The application of [IPC.Examples] has the handles 1 and [0x8002] and two pages of memory. *)
Definition hle_kernel : KState seg_set :=
  put_memory slot_memory (put_process 1 two_pages (put_table 1 sender kdemo)).
(** It moves one handle, sends a null handle with the other one, its process id, four bytes of its memory and a
    buffer to read. *)
Definition hle_params : list Param :=
  [PObjects true [1]; PObjects false [0; 0x8002]; PPid 0; PStatic 3 4 0x8000FFE; PMapped 16 1 0x8000100].
Definition hle_request : list Z :=
  MakeHeader 0x12 2 (Z.of_nat (length (params_words hle_params))) :: [7; 9] ++ params_words hle_params ++ replicate 60 0.

Lemma request_arrives_witness :
  ∃ c k' h1 h2 h3,
    PopulateFromIncomingCommandBuffer Memory.Examples.no_cache app hle_request (HLERequestContext_new (replicate 64 0)) hle_kernel = Some (c, k') ∧
    RequestParser_new c = Some h1 ∧ pop_words 2 h1 = Some (h2, [7; 9]) ∧
    pop_params hle_params h2 =
      Some (h3, [VObjects [Some 100]; VObjects [None; Some 101]; VPid 1; VStatic [0; 0; 0; 0]; VMapped (mkMapped 0 0x8000100 1 16 1)]).
Proof.
  destruct (request_arrives Memory.Examples.no_cache app ltac:(intros h p n; reflexivity) (replicate 64 0) hle_request 0x12 [7; 9] hle_params
              (replicate 60 0) hle_kernel sender {[ 1 := 100; 0x8002 := 101 ]}
              [VObjects [Some 100]; VObjects [None; Some 101]; VPid 1; VStatic [0; 0; 0; 0]; VMapped (mkMapped 0 0x8000100 1 16 1)]
              {[ 0x8002 := 101 ]}) as (c & t' & h1 & h2 & h3 & E1 & _ & _ & E2 & E3 & E4 & _).
  - reflexivity.
  - exact sender_rep.
  - reflexivity.
  - reflexivity.
  - lia.
  - vm_compute. lia.
  - repeat constructor; vm_compute; (done || lia).
  - apply (bool_decide_unpack _). vm_compute. exact I.
  - vm_compute. reflexivity.
  - exists c, (put_table 1 t' hle_kernel), h1, h2, h3. split; [exact E1|]. split; [exact E2|]. split; [exact E3|exact E4].
Defined.

(** A service answers with a result, two objects, and three bytes for the slot 0 of the application. *)
Definition hle_reply : list RParam := [RObjects true [Some 100; Some 102]; RStatic 0 [1; 2; 3]].
Definition hle_buffer : list Z := replicate 64 0 ++ [StaticBufferDesc 4 0; 0x8000200] ++ replicate 30 0.
Definition hle_context : HLERequestContext := HLERequestContext_new (replicate 64 0).

Lemma reply_arrives_witness :
  ∃ h0 h1 h2 dst' k' t' m' h h',
    RequestBuilder_new (MakeHeader 0x12 1 5) hle_context = Some h0 ∧ push_words [0] h0 = Some h1 ∧ push_params hle_reply h1 = Some h2 ∧
    WriteToOutgoingCommandBuffer Memory.Examples.no_cache app (h_context h2) hle_buffer hle_kernel = Some (dst', k') ∧
    words_at dst' 0 [MakeHeader 0x12 1 5; 0; MoveHandleDesc 2; h; h'; StaticBufferDesc 3 0; 0x8000200] ∧
    handle_tables k' !! 1 = Some t' ∧ table_rep t' m' ∧ m' !! h = Some 100 ∧ m' !! 1 = Some 100.
Proof.
  destruct (rparams_write Memory.Examples.no_cache app (slot_of hle_buffer) hle_reply hle_kernel) as [k'|] eqn:Ek; [|exfalso; revert Ek; by vm_compute].
  destruct (reply_arrives Memory.Examples.no_cache app hle_context hle_buffer 0x12 [0] hle_reply hle_kernel k' sender
              {[ 1 := 100; 0x8002 := 101 ]}) as (h0 & h1 & h2 & dst' & t' & m' & wss & E0 & E1 & E2 & _ & E3 & Hrep & Hsub & _ & Hw & Hall & _).
  - reflexivity.
  - exact sender_rep.
  - vm_compute. lia.
  - reflexivity.
  - reflexivity.
  - vm_compute. lia.
  - reflexivity.
  - lia.
  - vm_compute. lia.
  - repeat constructor; vm_compute; (done || lia).
  - apply (bool_decide_unpack _). vm_compute. exact I.
  - exact Ek.
  - apply Forall2_cons_inv_l in Hall as (ws1 & l1 & (hs & -> & Hhs) & Hall & ->). apply Forall2_cons_inv_l in Hall as (ws2 & l2 & -> & Hall & ->).
    apply Forall2_nil_inv_l in Hall as ->. apply Forall2_cons_inv_l in Hhs as (h & l1 & (Hpos & Hno & Hh) & Hhs & ->).
    apply Forall2_cons_inv_l in Hhs as (h' & l2 & _ & Hhs & ->). apply Forall2_nil_inv_l in Hhs as ->.
    exists h0, h1, h2, dst', (put_table 1 t' k'), t', m', h, h'. split; [exact E0|]. split; [exact E1|]. split; [exact E2|]. split; [exact E3|].
    split; [exact Hw|]. split; [apply lookup_insert_eq|]. split; [exact Hrep|]. split; [exact Hh|]. eapply lookup_weaken; [|exact Hsub]. by vm_compute.
Defined.

(** A byte, a wide number, a flag and a structure of five bytes, from the second word on. *)
Lemma push_pop_witness :
  let l := [SU8 200; SU64 0x123456789ABCDEF0; SS32 (-5); SBool true; SRaw [1; 2; 3; 4; 5]] in
  ∃ c, push_scalars l (mkHelper hle_context 1 0) = Some (mkHelper c 8 0) ∧ pop_scalars l (mkHelper c 1 0) = Some (mkHelper c 8 0, l).
Proof.
  intros l. destruct (push_pop_roundtrip l 1 hle_context 0) as (c & E1 & [Hl _] & E2).
  - repeat constructor; vm_compute; (done || congruence).
  - vm_compute. lia.
  - exists c. split; [exact E1|]. apply E2; [exact Hl|reflexivity].
Defined.

(** Command [0x7] is registered without a handler. *)
Lemma service_dispatch_witness :
  ∃ header' rest,
    Service_HandleSyncRequest (λ (n : Z) c (a : Z), Some (a + n, c))
      (RegisterHandlers [mkFunction 0x5 (Some 1); mkFunction 0x7 None; mkFunction 0x7 (Some 2)] ∅)
      (set_ctx_buf (MakeHeader 0x7 2 0 :: replicate 63 5) hle_context) 10 =
      Some (10, set_ctx_buf (header' :: ResultSuccess :: rest) (set_ctx_buf (MakeHeader 0x7 2 0 :: replicate 63 5) hle_context)).
Proof.
  pose proof (service_dispatch (λ (n : Z) c (a : Z), Some (a + n, c)) [mkFunction 0x5 (Some 1); mkFunction 0x7 None; mkFunction 0x7 (Some 2)]
                (set_ctx_buf (MakeHeader 0x7 2 0 :: replicate 63 5) hle_context) 10 0x7 (MakeHeader 0x7 2 0)) as H.
  destruct H as (header' & rest & E & _); [reflexivity|vm_compute; split; congruence|vm_compute; lia|by vm_compute|].
  exists header', rest. exact E.
Defined.

End Examples.
