(* ===== verification/Kernel.v ===== *)
(** * Threads and the objects they wait for
    ([src/src/core/hle/kernel/thread.cpp], [wait_object.cpp], [mutex.cpp], [semaphore.cpp],
    [event.cpp], [timer.cpp])

    The kernel is a graph of shared objects: a thread refers to the mutexes it holds and to the
    objects it waits for, an object to the threads that wait for it.  The model keeps one store
    for threads, one for wait objects and one for the waiting lists of the address arbiters, keyed by
    address, so that every alias of an object sees
    a change.  [KState] also holds the thread manager of each core, the event scheduler, the sessions and
    ports with the state of the processes ([Session]), and the contexts of requests to emulated services.
    A function that ends in [None] is a run that fails an [ASSERT] or follows a dangling pointer. *)

From stdpp Require Import strings pretty.
From S2P Require Import IntervalSet PageTable Memory SharedMemory IPC HLEContext.
From S2P Require Import Prelude BitField ThreadQueueList CoreTiming ResourceLimit.

(** ** Data *)

Definition ThreadPrioHighest : nat := 0.
Definition ThreadPrioLowest : nat := 63.
Definition ThreadProcessorIdMax : Z := 4.

Inductive ThreadStatus : Type :=
| Running | Ready | WaitArb | WaitSleep | WaitIPC | WaitSynchAny | WaitSynchAll | WaitHleEvent
| Dormant | Dead.

#[export] Instance ThreadStatus_eq_dec : EqDecision ThreadStatus.
Proof. solve_decision. Defined.

Inductive ThreadWakeupReason : Type := Signal | Timeout.

Inductive ResetType : Type := OneShot | Sticky | Pulse.

#[export] Instance ResetType_eq_dec : EqDecision ResetType.
Proof. solve_decision. Defined.

(** The wakeup callbacks: [SVC_SyncCallback] of the wait calls, the one of an address arbiter
    (named by the arbiter's address), [SVC_IPCCallback] of [ReplyAndReceive], and [ThreadCallback] of a
    request to an emulated service (named by the address of its context). *)
Inductive WakeupCallback : Type :=
| SyncCallback (do_output : bool)
| ArbiterCallback (arbiter : Z)
| IPCCallback
| HLECallback (context : Z).

Record Thread := mkThread {
  thread_id : Z;
  status : ThreadStatus;
  nominal_priority : nat;
  current_priority : nat;
  held_mutexes : list Z;
  pending_mutexes : list Z;
  wait_objects : list Z;
  wait_address : Z;
  wakeup_callback : option WakeupCallback;
  core_id : nat;
  unschedule_mode : Z;
  last_running_ticks : Z;
  cpu_register0 : Z;
  cpu_register1 : Z;
  owner_process : Z;
  resource_limit_category : ResourceLimitCategory;
  tls_address : Z }.

Inductive ObjectKind : Type :=
| KThread
| KMutex (lock_count : Z) (priority : nat) (holding_thread : option Z)
| KSemaphore (max_count available_count : Z)
| KEvent (reset_type : ResetType) (signaled : bool)
| KTimer (reset_type : ResetType) (signaled : bool) (initial_delay interval_delay callback_id : Z)
| KServerSession (parent : Z) (hle_handler : option Z) (pending_requesting_threads : list Z) (currently_handling : option Z)
    (mapped_buffer_context : list MappedBufferContext)
| KServerPort (pending_sessions : list Z) (hle_handler : option Z).

Record WaitObject := mkObject { waiting_threads : list Z; kind : ObjectKind }.

(** [ThreadManager]; a [Thread*] is the thread's address, the null pointer is 0. *)
Record ThreadManager := mkManager {
  current_thread : option Z;
  ready_queue : ThreadQueueList Z;
  wakeup_callback_table : gmap Z Z;
  thread_list : list Z }.

Definition nullptr : Z := 0.
Definition NUM_PRIO : nat := S ThreadPrioLowest.

(** What the event scheduler calls back. *)
Inductive TimedCallback : Type :=
| ThreadWakeupCb (core : nat)
| TimerCb
| LimiterTickCb (mode : Core1ScheduleMode).

(** [CpuLimiterMulti], which shares the time of core 1 between applications and system modules;
    [CpuLimiterSingle] is the same class.  [app_turn] is [curr_state == SchedState::APP]. *)
Record CpuLimiter := mkLimiter {
  ready : bool;
  active : bool;
  app_cpu_time : Z;
  app_turn : bool;
  sleeping_thread_ids : list Z }.

(** The rest of IPC: [Session], which links the two ends of a session with their port, the parents of
    the client sessions, the client ports, and the connected sessions of the handlers of the emulated
    services. *)
Record Session := mkSession {
  session_client : option Z;
  session_server : option Z;
  session_port : option Z }.

Record ClientPort := mkPort {
  server_port : Z;
  max_sessions : Z;
  active_sessions : Z }.

Record IPCObjects := mkIPC {
  sessions : gmap Z Session;
  client_sessions : gmap Z Z;
  client_ports : gmap Z ClientPort;
  connected_sessions : gmap Z (list Z);
  named_ports : gmap (list Z) Z }.

(** The processes, their memory and their handles. *)
Abbreviation System := (SharedMemory.KState seg_set).

Record KState := mkK {
  threads : gmap Z Thread;
  objects : gmap Z WaitObject;
  arbiters : gmap Z (list Z);
  managers : list ThreadManager;
  timing : Timing TimedCallback;
  reschedule : bool;
  schedule_mode : Core1ScheduleMode;
  single_limiter : CpuLimiter;
  multi_limiter : CpuLimiter;
  ipc : IPCObjects;
  system : System;
  hle_requests : gmap Z HLERequestContext }.

(** *** Updates *)

Definition set_threads (s : KState) (m : gmap Z Thread) : KState :=
  mkK m (objects s) (arbiters s) (managers s) (timing s) (reschedule s)
    (schedule_mode s) (single_limiter s) (multi_limiter s) (ipc s) (system s) (hle_requests s).
Definition set_objects (s : KState) (m : gmap Z WaitObject) : KState :=
  mkK (threads s) m (arbiters s) (managers s) (timing s) (reschedule s)
    (schedule_mode s) (single_limiter s) (multi_limiter s) (ipc s) (system s) (hle_requests s).
Definition set_managers (s : KState) (l : list ThreadManager) : KState :=
  mkK (threads s) (objects s) (arbiters s) l (timing s) (reschedule s)
    (schedule_mode s) (single_limiter s) (multi_limiter s) (ipc s) (system s) (hle_requests s).
Definition set_arbiters (s : KState) (m : gmap Z (list Z)) : KState :=
  mkK (threads s) (objects s) m (managers s) (timing s) (reschedule s)
    (schedule_mode s) (single_limiter s) (multi_limiter s) (ipc s) (system s) (hle_requests s).
Definition set_timing (s : KState) (tm : Timing TimedCallback) : KState :=
  mkK (threads s) (objects s) (arbiters s) (managers s) tm (reschedule s)
    (schedule_mode s) (single_limiter s) (multi_limiter s) (ipc s) (system s) (hle_requests s).

Definition set_ipc (s : KState) (i : IPCObjects) : KState :=
  mkK (threads s) (objects s) (arbiters s) (managers s) (timing s) (reschedule s)
    (schedule_mode s) (single_limiter s) (multi_limiter s) i (system s) (hle_requests s).
Definition set_system (s : KState) (y : System) : KState :=
  mkK (threads s) (objects s) (arbiters s) (managers s) (timing s) (reschedule s)
    (schedule_mode s) (single_limiter s) (multi_limiter s) (ipc s) y (hle_requests s).

Definition set_requests (s : KState) (m : gmap Z HLERequestContext) : KState :=
  mkK (threads s) (objects s) (arbiters s) (managers s) (timing s) (reschedule s)
    (schedule_mode s) (single_limiter s) (multi_limiter s) (ipc s) (system s) m.

(** [KernelSystem::PrepareReschedule]. *)
Definition PrepareReschedule (s : KState) : KState :=
  mkK (threads s) (objects s) (arbiters s) (managers s) (timing s) true
    (schedule_mode s) (single_limiter s) (multi_limiter s) (ipc s) (system s) (hle_requests s).

Definition upd_thread (t : Z) (f : Thread → Thread) (s : KState) : KState :=
  set_threads s (alter f t (threads s)).
Definition upd_object (o : Z) (f : WaitObject → WaitObject) (s : KState) : KState :=
  set_objects s (alter f o (objects s)).

Definition set_status (st : ThreadStatus) (th : Thread) : Thread :=
  mkThread (thread_id th) st (nominal_priority th) (current_priority th) (held_mutexes th)
    (pending_mutexes th) (wait_objects th) (wait_address th) (wakeup_callback th) (core_id th)
    (unschedule_mode th) (last_running_ticks th) (cpu_register0 th) (cpu_register1 th)
    (owner_process th) (resource_limit_category th) (tls_address th).
Definition set_priorities (nominal current : nat) (th : Thread) : Thread :=
  mkThread (thread_id th) (status th) nominal current (held_mutexes th)
    (pending_mutexes th) (wait_objects th) (wait_address th) (wakeup_callback th) (core_id th)
    (unschedule_mode th) (last_running_ticks th) (cpu_register0 th) (cpu_register1 th)
    (owner_process th) (resource_limit_category th) (tls_address th).
Definition set_mutexes (held pending : list Z) (th : Thread) : Thread :=
  mkThread (thread_id th) (status th) (nominal_priority th) (current_priority th) held
    pending (wait_objects th) (wait_address th) (wakeup_callback th) (core_id th)
    (unschedule_mode th) (last_running_ticks th) (cpu_register0 th) (cpu_register1 th)
    (owner_process th) (resource_limit_category th) (tls_address th).
Definition set_waiting (objs : list Z) (cb : option WakeupCallback) (th : Thread) : Thread :=
  mkThread (thread_id th) (status th) (nominal_priority th) (current_priority th) (held_mutexes th)
    (pending_mutexes th) objs (wait_address th) cb (core_id th)
    (unschedule_mode th) (last_running_ticks th) (cpu_register0 th) (cpu_register1 th)
    (owner_process th) (resource_limit_category th) (tls_address th).
Definition set_wait_address (a : Z) (th : Thread) : Thread :=
  mkThread (thread_id th) (status th) (nominal_priority th) (current_priority th) (held_mutexes th)
    (pending_mutexes th) (wait_objects th) a (wakeup_callback th) (core_id th)
    (unschedule_mode th) (last_running_ticks th) (cpu_register0 th) (cpu_register1 th)
    (owner_process th) (resource_limit_category th) (tls_address th).
Definition set_registers (r0 r1 : Z) (th : Thread) : Thread :=
  mkThread (thread_id th) (status th) (nominal_priority th) (current_priority th) (held_mutexes th)
    (pending_mutexes th) (wait_objects th) (wait_address th) (wakeup_callback th) (core_id th)
    (unschedule_mode th) (last_running_ticks th) r0 r1 (owner_process th)
    (resource_limit_category th) (tls_address th).
Definition set_running_ticks (ticks : Z) (th : Thread) : Thread :=
  mkThread (thread_id th) (status th) (nominal_priority th) (current_priority th) (held_mutexes th)
    (pending_mutexes th) (wait_objects th) (wait_address th) (wakeup_callback th) (core_id th)
    (unschedule_mode th) ticks (cpu_register0 th) (cpu_register1 th)
    (owner_process th) (resource_limit_category th) (tls_address th).
Definition set_unschedule (mode : Z) (th : Thread) : Thread :=
  mkThread (thread_id th) (status th) (nominal_priority th) (current_priority th) (held_mutexes th)
    (pending_mutexes th) (wait_objects th) (wait_address th) (wakeup_callback th) (core_id th)
    mode (last_running_ticks th) (cpu_register0 th) (cpu_register1 th)
    (owner_process th) (resource_limit_category th) (tls_address th).
Definition set_tls (a : Z) (th : Thread) : Thread :=
  mkThread (thread_id th) (status th) (nominal_priority th) (current_priority th) (held_mutexes th)
    (pending_mutexes th) (wait_objects th) (wait_address th) (wakeup_callback th) (core_id th)
    (unschedule_mode th) (last_running_ticks th) (cpu_register0 th) (cpu_register1 th)
    (owner_process th) (resource_limit_category th) a.

Definition set_kind (k : ObjectKind) (ob : WaitObject) : WaitObject := mkObject (waiting_threads ob) k.
Definition set_waiters (l : list Z) (ob : WaitObject) : WaitObject := mkObject l (kind ob).

(** A [flat_set] of pointers is sorted by address. *)
Fixpoint flat_set_insert (x : Z) (l : list Z) : list Z :=
  match l with
  | [] => [x]
  | y :: l' => if x <? y then x :: l else if x =? y then l else y :: flat_set_insert x l'
  end.
Definition flat_set_erase (x : Z) (l : list Z) : list Z := List.filter (λ y, negb (y =? x)) l.

(** An operation on the ready queue of a core. *)
Definition on_ready_queue (core : nat) (f : ThreadQueueList Z → option (ThreadQueueList Z)) (s : KState)
  : option KState :=
  m ← managers s !! core;
  q ← f (ready_queue m);
  Some (set_managers s (<[core := mkManager (current_thread m) q (wakeup_callback_table m)
                                            (thread_list m)]> (managers s))).

(** ** Priorities *)

Definition BoostPriority (t : Z) (priority : nat) (s : KState) : option KState :=
  th ← threads s !! t;
  s ← (if decide (status th = Ready)
       then on_ready_queue (core_id th) (move t (current_priority th) priority) s
       else on_ready_queue (core_id th) (prepare priority) s);
  Some (upd_thread t (set_priorities (nominal_priority th) priority) s).

Definition mutex_priority (s : KState) (m : Z) : option nat :=
  ob ← objects s !! m;
  match kind ob with KMutex _ p _ => Some p | _ => None end.

(** The loop of [Thread::UpdatePriority]. *)
Fixpoint best_held (s : KState) (held : list Z) (best : nat) : option nat :=
  match held with
  | [] => Some best
  | m :: held => p ← mutex_priority s m; best_held s held (if (p <? best)%nat then p else best)
  end.
Definition UpdatePriority (t : Z) (s : KState) : option KState :=
  th ← threads s !! t;
  best_priority ← best_held s (held_mutexes th) (nominal_priority th);
  BoostPriority t best_priority s.

Definition SetPriority (t : Z) (priority : nat) (s : KState) : option KState :=
  ASSERT ((priority <=? ThreadPrioLowest)%nat && (ThreadPrioHighest <=? priority)%nat) ;;
  th ← threads s !! t;
  s ← (if decide (status th = Ready)
       then on_ready_queue (core_id th) (move t (current_priority th) priority) s
       else on_ready_queue (core_id th) (prepare priority) s);
  Some (upd_thread t (set_priorities priority priority) s).

(** The loop of [Mutex::UpdatePriority]. *)
Fixpoint best_waiter (s : KState) (waiters : list Z) (best : nat) : option nat :=
  match waiters with
  | [] => Some best
  | w :: waiters =>
      th ← threads s !! w;
      best_waiter s waiters (if (current_priority th <? best)%nat then current_priority th else best)
  end.
Definition Mutex_UpdatePriority (m : Z) (s : KState) : option KState :=
  ob ← objects s !! m;
  match kind ob with
  | KMutex lock_count priority holding_thread =>
      match holding_thread with
      | None => Some s
      | Some holder =>
          best_priority ← best_waiter s (waiting_threads ob) ThreadPrioLowest;
          if decide (best_priority ≠ priority)
          then UpdatePriority holder
                 (upd_object m (set_kind (KMutex lock_count best_priority holding_thread)) s)
          else Some s
      end
  | _ => None
  end.

(** ** Waiting *)

(** [WaitObject::AddWaitingThread] and [RemoveWaitingThread]. *)
Definition WaitObject_AddWaitingThread (o t : Z) (s : KState) : option KState :=
  ob ← objects s !! o;
  Some (if decide (t ∈ waiting_threads ob) then s
        else upd_object o (set_waiters (waiting_threads ob ++ [t])) s).

Fixpoint erase_first (t : Z) (l : list Z) : list Z :=
  match l with
  | [] => []
  | x :: l => if x =? t then l else x :: erase_first t l
  end.
Definition WaitObject_RemoveWaitingThread (o t : Z) (s : KState) : option KState :=
  ob ← objects s !! o;
  Some (upd_object o (set_waiters (erase_first t (waiting_threads ob))) s).

(** The virtual calls: a mutex also keeps the thread's [pending_mutexes] and its own priority. *)
Definition AddWaitingThread (o t : Z) (s : KState) : option KState :=
  ob ← objects s !! o;
  s ← WaitObject_AddWaitingThread o t s;
  match kind ob with
  | KMutex _ _ _ =>
      Mutex_UpdatePriority o
        (upd_thread t (λ th, set_mutexes (held_mutexes th) (flat_set_insert o (pending_mutexes th)) th) s)
  | _ => Some s
  end.
Definition RemoveWaitingThread (o t : Z) (s : KState) : option KState :=
  ob ← objects s !! o;
  s ← WaitObject_RemoveWaitingThread o t s;
  match kind ob with
  | KMutex _ _ _ =>
      Mutex_UpdatePriority o
        (upd_thread t (λ th, set_mutexes (held_mutexes th) (flat_set_erase o (pending_mutexes th)) th) s)
  | _ => Some s
  end.

Definition ShouldWait (o t : Z) (s : KState) : option bool :=
  ob ← objects s !! o;
  match kind ob with
  | KThread => th ← threads s !! o; Some (negb (bool_decide (status th = Dead)))
  | KMutex lock_count _ holding_thread => Some ((0 <? lock_count) && negb (bool_decide (holding_thread = Some t)))
  | KSemaphore _ available_count => Some (available_count <=? 0)
  | KEvent _ signaled | KTimer _ signaled _ _ _ => Some (negb signaled)
  | KServerSession parent _ pending currently_handling _ =>
      session ← sessions (ipc s) !! parent;
      Some (match session_client session with
            | None => false
            | Some _ => bool_decide (pending = []) || bool_decide (currently_handling ≠ None)
            end)
  | KServerPort pending _ => Some (bool_decide (pending = []))
  end.

Definition Mutex_Acquire (m t : Z) (s : KState) : option KState :=
  wait ← ShouldWait m t s;
  ASSERT (negb wait) ;;
  ob ← objects s !! m;
  th ← threads s !! t;
  match kind ob with
  | KMutex lock_count priority holding_thread =>
      if lock_count =? 0 then
        let s := upd_object m (set_kind (KMutex lock_count (current_priority th) (Some t))) s in
        let s := upd_thread t (λ th, set_mutexes (flat_set_insert m (held_mutexes th))
                                                 (pending_mutexes th) th) s in
        s ← UpdatePriority t s;
        Some (upd_object m (set_kind (KMutex (lock_count + 1) (current_priority th) (Some t)))
                (PrepareReschedule s))
      else Some (upd_object m (set_kind (KMutex (lock_count + 1) priority holding_thread)) s)
  | _ => None
  end.

Definition Acquire (o t : Z) (s : KState) : option KState :=
  ob ← objects s !! o;
  match kind ob with
  | KThread => wait ← ShouldWait o t s; ASSERT (negb wait) ;; Some s
  | KMutex _ _ _ => Mutex_Acquire o t s
  | KSemaphore max_count available_count =>
      Some (if available_count <=? 0 then s
            else upd_object o (set_kind (KSemaphore max_count (available_count - 1))) s)
  | KEvent reset_type signaled =>
      wait ← ShouldWait o t s;
      ASSERT (negb wait) ;;
      Some (if decide (reset_type = OneShot)
            then upd_object o (set_kind (KEvent reset_type false)) s else s)
  | KTimer reset_type signaled initial interval id =>
      wait ← ShouldWait o t s;
      ASSERT (negb wait) ;;
      Some (if decide (reset_type = OneShot)
            then upd_object o (set_kind (KTimer reset_type false initial interval id)) s else s)
  | KServerSession parent hle_handler pending currently_handling context =>
      wait ← ShouldWait o t s;
      ASSERT (negb wait) ;;
      session ← sessions (ipc s) !! parent;
      match session_client session with
      | None => Some s
      | Some _ =>
          request ← last pending;
          Some (upd_object o (set_kind (KServerSession parent hle_handler (removelast pending) (Some request) context)) s)
      end
  | KServerPort _ _ => wait ← ShouldWait o t s; ASSERT (negb wait) ;; Some s
  end.

(** ** Waking threads *)

(** [std::none_of] over the objects a thread waits for. *)
Fixpoint none_should_wait (objs : list Z) (t : Z) (s : KState) : option bool :=
  match objs with
  | [] => Some true
  | o :: objs => wait ← ShouldWait o t s; if wait : bool then Some false else none_should_wait objs t s
  end.

Definition waits_for_object (st : ThreadStatus) : bool :=
  match st with WaitSynchAny | WaitSynchAll | WaitHleEvent => true | _ => false end.

(** One thread of the loop of [GetHighestPriorityReadyThread]. *)
Definition ready_to_run (o t : Z) (th : Thread) (s : KState) : option bool :=
  wait ← ShouldWait o t s;
  if wait : bool then Some false
  else if decide (status th = WaitSynchAll) then none_should_wait (wait_objects th) t s
  else Some true.

Fixpoint highest_priority_loop (o : Z) (waiters : list Z) (candidate : option Z) (candidate_priority : nat)
    (s : KState) : option (option Z) :=
  match waiters with
  | [] => Some candidate
  | t :: waiters =>
      th ← threads s !! t;
      ASSERT (waits_for_object (status th)) ;;
      if (candidate_priority <=? current_priority th)%nat
      then highest_priority_loop o waiters candidate candidate_priority s
      else
        ready ← ready_to_run o t th s;
        if ready : bool
        then highest_priority_loop o waiters (Some t) (current_priority th) s
        else highest_priority_loop o waiters candidate candidate_priority s
  end.
Definition GetHighestPriorityReadyThread (o : Z) (s : KState) : option (option Z) :=
  ob ← objects s !! o;
  highest_priority_loop o (waiting_threads ob) None NUM_PRIO s.

Definition ResumeFromWait (t : Z) (s : KState) : option KState :=
  th ← threads s !! t;
  ASSERT (bool_decide (wait_objects th = [])) ;;
  match status th with
  | Ready => ASSERT (match wakeup_callback th with None => true | Some _ => false end) ;; Some s
  | Running | Dead => Some s
  | _ =>
      let s := upd_thread t (set_waiting (wait_objects th) None) s in
      s ← on_ready_queue (core_id th) (push_back (current_priority th) t) s;
      Some (PrepareReschedule (upd_thread t (set_status Ready) s))
  end.

(** [GetWaitObjectIndex]: the search starts from the last element. *)
Fixpoint last_index (o : Z) (l : list Z) (i : Z) (found : Z) : Z :=
  match l with
  | [] => found
  | x :: l => last_index o l (i + 1) (if x =? o then i else found)
  end.
Definition GetWaitObjectIndex (t o : Z) (s : KState) : option Z :=
  th ← threads s !! t;
  ASSERT (negb (bool_decide (wait_objects th = []))) ;;
  Some (last_index o (wait_objects th) 0 (-1)).

Definition SetWaitSynchronizationResult (t result : Z) (s : KState) : KState :=
  upd_thread t (λ th, set_registers result (cpu_register1 th) th) s.
Definition SetWaitSynchronizationOutput (t output : Z) (s : KState) : KState :=
  upd_thread t (λ th, set_registers (cpu_register0 th) (u32 output) th) s.

(** [SVC_SyncCallback::WakeUp]. *)
Definition SyncCallback_WakeUp (do_output : bool) (reason : ThreadWakeupReason) (t : Z)
    (object : option Z) (s : KState) : option KState :=
  match reason with
  | Timeout => Some (SetWaitSynchronizationResult t ResultTimeout s)
  | Signal =>
      let s := SetWaitSynchronizationResult t ResultSuccess s in
      if do_output then
        o ← object;
        index ← GetWaitObjectIndex t o s;
        Some (SetWaitSynchronizationOutput t index s)
      else Some s
  end.

(** [AddressArbiter::WakeUp] takes the thread off the arbiter's list. *)
Definition Arbiter_WakeUp (arbiter : Z) (reason : ThreadWakeupReason) (t : Z) (s : KState) : option KState :=
  match reason with
  | Timeout =>
      waiting ← arbiters s !! arbiter;
      Some (set_arbiters s (<[arbiter := filter (λ x, x ≠ t) waiting]> (arbiters s)))
  | Signal => None
  end.

Section Wakeup.
(** The callbacks of the IPC code. *)
Context (other_wakeup : WakeupCallback → ThreadWakeupReason → Z → option Z → KState → option KState).

Definition WakeUp (cb : WakeupCallback) (reason : ThreadWakeupReason) (t : Z) (object : option Z)
    (s : KState) : option KState :=
  match cb with
  | SyncCallback do_output => SyncCallback_WakeUp do_output reason t object s
  | ArbiterCallback arbiter => Arbiter_WakeUp arbiter reason t s
  | _ => other_wakeup cb reason t object s
  end.

Fixpoint acquire_all (objs : list Z) (t : Z) (s : KState) : option KState :=
  match objs with
  | [] => Some s
  | o :: objs => s ← Acquire o t s; acquire_all objs t s
  end.

Fixpoint remove_from_all (objs : list Z) (t : Z) (s : KState) : option KState :=
  match objs with
  | [] => Some s
  | o :: objs => s ← RemoveWaitingThread o t s; remove_from_all objs t s
  end.

(** One round of the loop of [WakeupAllWaitingThreads], for the thread that was chosen. *)
Definition wake_one (o t : Z) (s : KState) : option KState :=
  th ← threads s !! t;
  s ← (if decide (status th ≠ WaitSynchAll) then Acquire o t s else acquire_all (wait_objects th) t s);
  s ← (match wakeup_callback th with Some cb => WakeUp cb Signal t (Some o) s | None => Some s end);
  th ← threads s !! t;
  s ← remove_from_all (wait_objects th) t s;
  ResumeFromWait t (upd_thread t (λ th, set_waiting [] (wakeup_callback th) th) s).

Fixpoint wakeup_loop (fuel : nat) (o : Z) (s : KState) : option KState :=
  next ← GetHighestPriorityReadyThread o s;
  match next with
  | None => Some s
  | Some t =>
      match fuel with
      | O => None
      | S fuel => s ← wake_one o t s; wakeup_loop fuel o s
      end
  end.
(** Every round takes a thread off the object's list, whose length therefore is enough fuel. *)
Definition WaitObject_WakeupAllWaitingThreads (o : Z) (s : KState) : option KState :=
  ob ← objects s !! o;
  wakeup_loop (length (waiting_threads ob)) o s.

(** The virtual call: a pulsed event or timer is reset afterwards. *)
Definition WakeupAllWaitingThreads (o : Z) (s : KState) : option KState :=
  s ← WaitObject_WakeupAllWaitingThreads o s;
  ob ← objects s !! o;
  match kind ob with
  | KEvent Pulse _ => Some (upd_object o (set_kind (KEvent Pulse false)) s)
  | KTimer Pulse _ initial interval id =>
      Some (upd_object o (set_kind (KTimer Pulse false initial interval id)) s)
  | _ => Some s
  end.

(** ** Events, semaphores and mutexes *)

Definition Event_Signal (o : Z) (s : KState) : option KState :=
  ob ← objects s !! o;
  match kind ob with
  | KEvent reset_type _ =>
      WakeupAllWaitingThreads o (upd_object o (set_kind (KEvent reset_type true)) s)
  | _ => None
  end.
Definition Event_Clear (o : Z) (s : KState) : option KState :=
  ob ← objects s !! o;
  match kind ob with
  | KEvent reset_type _ => Some (upd_object o (set_kind (KEvent reset_type false)) s)
  | _ => None
  end.

(** [CreateSemaphore]: the error, or the new object. *)
Definition CreateSemaphore (initial_count max_count : Z) : ResultVal WaitObject :=
  if initial_count <=? max_count then inr (mkObject [] (KSemaphore max_count initial_count))
  else inl ResultInvalidCombinationKernel.

(** [release_count + available_count] is a signed sum: an overflow is undefined. *)
Definition Semaphore_Release (o release_count : Z) (s : KState) : option (KState * ResultVal Z) :=
  ob ← objects s !! o;
  match kind ob with
  | KSemaphore max_count available_count =>
      let sum := release_count + available_count in
      ASSERT ((- 2 ^ 31 <=? sum) && (sum <? 2 ^ 31)) ;;
      if max_count <? sum then Some (s, inl ResultOutOfRangeKernel)
      else
        s ← WakeupAllWaitingThreads o (upd_object o (set_kind (KSemaphore max_count sum)) s);
        Some (s, inr available_count)
  | _ => None
  end.

Definition ResultWrongLockingThread : Z :=
  mkResult 31 ErrorModule_Kernel ErrorSummary_InvalidArgument ErrorLevel_Permanent.
Definition ResultNotLocked : Z :=
  mkResult 1023 ErrorModule_Kernel ErrorSummary_InvalidState ErrorLevel_Permanent.

Definition Mutex_Release (m t : Z) (s : KState) : option (KState * Z) :=
  ob ← objects s !! m;
  match kind ob with
  | KMutex lock_count priority holding_thread =>
      if negb (bool_decide (holding_thread = Some t)) then Some (s, ResultWrongLockingThread)
      else if lock_count <=? 0 then Some (s, ResultNotLocked)
      else
        let lock_count := lock_count - 1 in
        let s := upd_object m (set_kind (KMutex lock_count priority holding_thread)) s in
        if lock_count =? 0 then
          let s := upd_thread t (λ th, set_mutexes (flat_set_erase m (held_mutexes th))
                                                   (pending_mutexes th) th) s in
          s ← UpdatePriority t s;
          let s := upd_object m (set_kind (KMutex lock_count priority None)) s in
          s ← WakeupAllWaitingThreads m s;
          Some (PrepareReschedule s, ResultSuccess)
        else Some (s, ResultSuccess)
  | _ => None
  end.

(** [ReleaseThreadMutexes]. *)
Fixpoint release_mutexes (ms : list Z) (s : KState) : option KState :=
  match ms with
  | [] => Some s
  | m :: ms =>
      ob ← objects s !! m;
      match kind ob with
      | KMutex _ priority _ =>
          s ← WakeupAllWaitingThreads m (upd_object m (set_kind (KMutex 0 priority None)) s);
          release_mutexes ms s
      | _ => None
      end
  end.
Definition ReleaseThreadMutexes (t : Z) (s : KState) : option KState :=
  th ← threads s !! t;
  s ← release_mutexes (held_mutexes th) s;
  Some (upd_thread t (λ th, set_mutexes [] (pending_mutexes th) th) s).

(** ** Timers *)

Definition timer_callback_event_type : string := "TimerCallback".

Definition Timer_Cancel (o : Z) (s : KState) : option KState :=
  ob ← objects s !! o;
  match kind ob with
  | KTimer _ _ _ _ callback_id =>
      Some (set_timing s (UnscheduleEvent (timing s) timer_callback_event_type callback_id))
  | _ => None
  end.

Definition Timer_Clear (o : Z) (s : KState) : option KState :=
  ob ← objects s !! o;
  match kind ob with
  | KTimer reset_type _ initial interval id =>
      Some (upd_object o (set_kind (KTimer reset_type false initial interval id)) s)
  | _ => None
  end.

Definition Timer_Signal (o cycles_late : Z) (s : KState) : option KState :=
  ob ← objects s !! o;
  match kind ob with
  | KTimer reset_type _ initial interval_delay callback_id =>
      let s := upd_object o (set_kind (KTimer reset_type true initial interval_delay callback_id)) s in
      s ← WakeupAllWaitingThreads o s;
      if negb (interval_delay =? 0) then
        tm ← ScheduleEvent (timing s) (s64 (nsToCycles_u64 interval_delay - cycles_late))
               (Some timer_callback_event_type) callback_id None false;
        Some (set_timing s tm)
      else Some s
  | _ => None
  end.

Definition Timer_Set (o initial interval : Z) (s : KState) : option KState :=
  s ← Timer_Cancel o s;
  ob ← objects s !! o;
  match kind ob with
  | KTimer reset_type signaled _ _ callback_id =>
      let s := upd_object o
                 (set_kind (KTimer reset_type signaled (u64 initial) (u64 interval) callback_id)) s in
      if initial =? 0 then Timer_Signal o 0 s
      else
        tm ← ScheduleEvent (timing s) (nsToCycles_s64 initial) (Some timer_callback_event_type)
               callback_id None false;
        Some (set_timing s tm)
  | _ => None
  end.

(** [TimerManager]: the timers by callback id. *)
Record TimerManager := mkTimerManager { next_timer_callback_id : Z; timer_callback_table : gmap Z Z }.

Definition CreateTimer (o : Z) (reset_type : ResetType) (tm : TimerManager) (s : KState) : KState * TimerManager :=
  let callback_id := u64 (next_timer_callback_id tm + 1) in
  (set_objects s (<[o := mkObject [] (KTimer reset_type false 0 0 callback_id)]> (objects s)),
   mkTimerManager callback_id (<[callback_id := o]> (timer_callback_table tm))).

(** [timer_callback_table.at] throws for an unknown id. *)
Definition TimerCallback (callback_id cycles_late : Z) (tm : TimerManager) (s : KState) : option KState :=
  o ← timer_callback_table tm !! callback_id;
  if o =? nullptr then Some s else Timer_Signal o cycles_late s.

(** ** Creating events and mutexes *)

Definition CreateEvent (o : Z) (reset_type : ResetType) (s : KState) : KState :=
  set_objects s (<[o := mkObject [] (KEvent reset_type false)]> (objects s)).

(** [Mutex::priority] has no initializer: [priority] is what the memory held.  A mutex that starts
    locked belongs to the current thread. *)
Definition CreateMutex (o : Z) (priority : nat) (initial_locked : bool) (current : option Z) (s : KState)
  : option KState :=
  let s := set_objects s (<[o := mkObject [] (KMutex 0 priority None)]> (objects s)) in
  if initial_locked then t ← current; Mutex_Acquire o t s else Some s.

(** ** Threads *)

Definition ThreadWakeupEventType (core : nat) : string := "ThreadWakeupCallback_" +:+ pretty core.

Definition CanSchedule (th : Thread) : bool := unschedule_mode th =? 0.

Definition SetUnscheduleMode (t mode : Z) (s : KState) : option (KState * bool) :=
  th ← threads s !! t;
  let new_mode := Z.lor (unschedule_mode th) mode in
  Some (upd_thread t (set_unschedule new_mode) s, negb (new_mode =? unschedule_mode th)).
Definition ClearUnscheduleMode (t mode : Z) (s : KState) : option (KState * bool) :=
  th ← threads s !! t;
  let new_mode := Z.land (unschedule_mode th) (u32 (Z.lnot mode)) in
  Some (upd_thread t (set_unschedule new_mode) s, negb (new_mode =? unschedule_mode th)).

Definition WakeAfterDelay (t nanoseconds : Z) (thread_safe_mode : bool) (s : KState) : option KState :=
  if nanoseconds =? -1 then Some s
  else
    th ← threads s !! t;
    tm ← ScheduleEvent (timing s) (nsToCycles_s64 nanoseconds) (Some (ThreadWakeupEventType (core_id th)))
           (thread_id th) (if thread_safe_mode then Some (core_id th) else None) thread_safe_mode;
    Some (set_timing s tm).

(** [ThreadManager::ThreadWakeupCallback]: [wakeup_callback_table.at] throws for an unknown id. *)
Definition ThreadWakeupCallback (core : nat) (id cycles_late : Z) (s : KState) : option KState :=
  m ← managers s !! core;
  t ← wakeup_callback_table m !! id;
  th ← threads s !! t;
  s ← (match status th with
       | WaitSynchAny | WaitSynchAll | WaitArb | WaitHleEvent =>
           s ← (match wakeup_callback th with
                | Some cb => WakeUp cb Timeout t None s
                | None => Some s
                end);
           th ← threads s !! t;
           s ← remove_from_all (wait_objects th) t s;
           Some (upd_thread t (λ th, set_waiting [] (wakeup_callback th) th) s)
       | _ => Some s
       end);
  ResumeFromWait t s.

(** [Thread::Stop]; the release of the thread's local storage and of its resource count concern
    the process and are left out. *)
Definition Stop (t : Z) (s : KState) : option KState :=
  th ← threads s !! t;
  let s := set_timing s (UnscheduleEvent (timing s) (ThreadWakeupEventType (core_id th)) (thread_id th)) in
  m ← managers s !! core_id th;
  let s := set_managers s
             (<[core_id th := mkManager (current_thread m) (ready_queue m)
                                (delete (thread_id th) (wakeup_callback_table m)) (thread_list m)]>
                (managers s)) in
  s ← (if decide (status th = Ready)
       then on_ready_queue (core_id th) (remove (current_priority th) t) s else Some s);
  let s := upd_thread t (set_status Dead) s in
  s ← WakeupAllWaitingThreads t s;
  th ← threads s !! t;
  s ← remove_from_all (wait_objects th) t s;
  let s := upd_thread t (λ th, set_waiting [] (wakeup_callback th) th) s in
  ReleaseThreadMutexes t s.

End Wakeup.

(** Concrete states need no processes where they show the scheduler alone. *)
Module Examples.

Definition no_ipc : IPCObjects := mkIPC ∅ ∅ ∅ ∅ ∅.
Definition no_system : System :=
  mkKState ∅ ∅ ∅ 0 [] (mkMemory (mkBacking 0 0) (mkBacking 0 0) (mkBacking 0 0) (mkBacking 0 0) [] ∅ 0 ∅ (mkRegionInfo None 0 0) []).

End Examples.
