(* ===== verification/WaitSynch.v ===== *)
(** * Waiting and waking

    The invariant [kinv] of the kernel's object graph, and what the operations of
    [wait_object.cpp], [mutex.cpp] and [event.cpp] do on states that satisfy it: waking all
    waiters of an object neither crashes nor loops, and leaves no thread behind that could run. *)

From S2P Require Import Prelude BitField ThreadQueueList CoreTiming ResourceLimit Kernel.

(** ** The invariant *)

Definition prio_ok (p : nat) : Prop := (p < NUM_PRIO)%nat.

(** The ready queue of a core represents some queue in which the priority of every thread of the
    core is prepared. *)
Definition queue_ok (s : KState) (core : nat) (m : ThreadManager) : Prop :=
  ∃ a, rep NUM_PRIO (ready_queue m) a ∧
    ∀ t th, threads s !! t = Some th → core_id th = core → current_priority th ∈ prepared a.

Definition is_mutex (k : ObjectKind) : bool := match k with KMutex _ _ _ => true | _ => false end.
Definition session_parent (k : ObjectKind) : option Z := match k with KServerSession parent _ _ _ _ => Some parent | _ => None end.

Record kinv (s : KState) : Prop := {
  ki_queues : ∀ core m, managers s !! core = Some m → queue_ok s core m;
  ki_threads : ∀ t th, threads s !! t = Some th →
    is_Some (managers s !! core_id th) ∧ prio_ok (current_priority th) ∧ prio_ok (nominal_priority th);
  ki_held : ∀ t th m, threads s !! t = Some th → m ∈ held_mutexes th →
    ∃ ob, objects s !! m = Some ob ∧ is_mutex (kind ob) = true;
  ki_mutex : ∀ m ob lock_count p h, objects s !! m = Some ob → kind ob = KMutex lock_count p h →
    prio_ok p ∧ ∀ t, h = Some t → is_Some (threads s !! t);
  ki_waiters : ∀ o ob t, objects s !! o = Some ob → t ∈ waiting_threads ob →
    ∃ th, threads s !! t = Some th ∧ waits_for_object (status th) = true ∧ o ∈ wait_objects th;
  ki_nodup : ∀ o ob, objects s !! o = Some ob → NoDup (waiting_threads ob);
  ki_objects : ∀ t th o, threads s !! t = Some th → o ∈ wait_objects th →
    ∃ ob, objects s !! o = Some ob ∧ (kind ob = KThread → is_Some (threads s !! o));
  ki_sessions : ∀ o ob parent, objects s !! o = Some ob → session_parent (kind ob) = Some parent →
    is_Some (sessions (ipc s) !! parent) }.

(** ** How a step may change the waits

    [evolves ch t objs s s'] says that the step from [s] to [s'] keeps every thread where it is,
    takes the thread [t] off the waiting lists of [objs], and changes the state of no object but
    those of [ch], the priority of a mutex and the buffers mapped for a request apart. *)

Definition thread_view (th : Thread) : ThreadStatus * list Z * nat * Z * option WakeupCallback :=
  (status th, wait_objects th, core_id th, thread_id th, wakeup_callback th).

Definition kind_class (k : ObjectKind) : nat :=
  match k with KThread => 0 | KMutex _ _ _ => 1 | KSemaphore _ _ => 2 | KEvent _ _ => 3 | KTimer _ _ _ _ _ => 4
  | KServerSession _ _ _ _ _ => 5 | KServerPort _ _ => 6 end.
Definition kind_core (k : ObjectKind) : ObjectKind :=
  match k with
  | KMutex lock_count _ holder => KMutex lock_count 0 holder
  | KServerSession parent hle pending handling _ => KServerSession parent hle pending handling []
  | _ => k
  end.

Definition without (t : Z) (objs : list Z) (o : Z) (l : list Z) : list Z :=
  if decide (o ∈ objs) then filter (λ x, x ≠ t) l else l.

Record evolves (ch : list Z) (t : Z) (objs : list Z) (s s' : KState) : Prop := {
  ev_threads : ∀ t', thread_view <$> threads s' !! t' = thread_view <$> threads s !! t';
  ev_objects : ∀ o ob, objects s !! o = Some ob → ∃ ob', objects s' !! o = Some ob' ∧
    waiting_threads ob' = without t objs o (waiting_threads ob) ∧
    kind_class (kind ob') = kind_class (kind ob) ∧
    (o ∉ ch → kind_core (kind ob') = kind_core (kind ob));
  ev_managers : length (managers s') = length (managers s);
  ev_ipc : ipc s' = ipc s }.

Abbreviation same_waits := (evolves [] 0 []).

Lemma evolves_refl ch s : evolves ch 0 [] s s.
Proof. split; try done. intros o ob H. by exists ob. Qed.

Lemma without_without t objs1 objs2 o l :
  without t objs2 o (without t objs1 o l) = without t (objs1 ++ objs2) o l.
Proof.
  unfold without. repeat case_decide; try set_solver. rewrite list_filter_filter.
  apply list_filter_iff. naive_solver.
Qed.

Lemma evolves_trans ch1 ch2 t objs1 objs2 s1 s2 s3 :
  evolves ch1 t objs1 s1 s2 → evolves ch2 t objs2 s2 s3 → evolves (ch1 ++ ch2) t (objs1 ++ objs2) s1 s3.
Proof.
  intros [A1 B1 C1 D1] [A2 B2 C2 D2]. split.
  - intros t'. by rewrite A2, A1.
  - intros o ob Ho. destruct (B1 o ob Ho) as (ob1 & H1 & Hw1 & Hc1 & Hk1).
    destruct (B2 o ob1 H1) as (ob2 & H2 & Hw2 & Hc2 & Hk2). exists ob2. split_and!; [done| |congruence|].
    + by rewrite Hw2, Hw1, without_without.
    + intros Hn. rewrite Hk2, Hk1 by set_solver. done.
  - congruence.
  - congruence.
Qed.

(** Nothing is removed, so the thread does not matter. *)
Lemma evolves_any ch t t' s s' : evolves ch t [] s s' → evolves ch t' [] s s'.
Proof. intros [A B C D]. split; done. Qed.

Lemma evolves_mono ch ch' t objs s s' : evolves ch t objs s s' → ch ⊆ ch' → evolves ch' t objs s s'.
Proof.
  intros [A B C D] Hs. split; [done| |done|done]. intros o ob Ho. destruct (B o ob Ho) as (ob' & ? & ? & ? & Hk).
  exists ob'. split_and!; try done. intros Hn. apply Hk. set_solver.
Qed.

Lemma same_waits_trans s1 s2 s3 : same_waits s1 s2 → same_waits s2 s3 → same_waits s1 s3.
Proof. apply (evolves_trans [] [] 0 [] []). Qed.

Lemma evolves_thread ch t0 objs s s' t th :
  evolves ch t0 objs s s' → threads s !! t = Some th →
  ∃ th', threads s' !! t = Some th' ∧ thread_view th' = thread_view th.
Proof.
  intros H Ht. pose proof (ev_threads _ _ _ _ _ H t) as E. rewrite Ht in E.
  destruct (threads s' !! t) as [th'|]; [|done]. exists th'. split; [done|]. by apply (inj Some).
Qed.

Lemma evolves_thread_inv ch t0 objs s s' t th :
  evolves ch t0 objs s s' → threads s' !! t = Some th →
  ∃ th0, threads s !! t = Some th0 ∧ thread_view th = thread_view th0.
Proof.
  intros H Ht. pose proof (ev_threads _ _ _ _ _ H t) as E. rewrite Ht in E.
  destruct (threads s !! t) as [th0|]; [|done]. exists th0. split; [done|]. by apply (inj Some).
Qed.

(** Updating one thread without touching its waits. *)
Lemma upd_thread_same t f s :
  (∀ th, thread_view (f th) = thread_view th) → same_waits s (upd_thread t f s).
Proof.
  intros Hf. split; try done.
  - intros t'. simpl. rewrite lookup_alter. case_decide as E; [|done]. subst t'.
    destruct (threads s !! t) as [th|]; simpl; [|done]. by rewrite Hf.
  - intros o ob H. by exists ob.
Qed.

(** Updating the state of an object, and the priority of a mutex. *)
Lemma upd_kind_evolves o k s :
  (∀ ob, objects s !! o = Some ob → kind_class k = kind_class (kind ob)) →
  evolves [o] 0 [] s (upd_object o (set_kind k) s).
Proof.
  intros Hk. split; try done. intros o' ob H. simpl. rewrite lookup_alter. case_decide as E.
  - subst o'. rewrite H. simpl. eexists. split_and!; [done|done|by apply Hk|]. set_solver.
  - rewrite H. by exists ob.
Qed.

Lemma upd_kind_same o k s :
  (∀ ob, objects s !! o = Some ob → kind_core k = kind_core (kind ob)) →
  same_waits s (upd_object o (set_kind k) s).
Proof.
  intros Hk. split; try done. intros o' ob H. simpl. rewrite lookup_alter. case_decide as E.
  - subst o'. rewrite H. simpl. specialize (Hk ob H). eexists. split_and!; [done|done| |done].
    simpl. by destruct k, (kind ob).
  - rewrite H. by exists ob.
Qed.

Lemma PrepareReschedule_same s : same_waits s (PrepareReschedule s).
Proof. split; try done. intros o ob H. by exists ob. Qed.

Lemma PrepareReschedule_inv s : kinv s → kinv (PrepareReschedule s).
Proof. intros [H1 H2 H3 H4 H5 H6 H7 H8]. split; done. Qed.

Lemma alter_some {A} (f : A → A) (m : gmap Z A) i x : m !! i = Some x → alter f i m = <[i := f x]> m.
Proof.
  intros H. apply map_eq. intros j. rewrite lookup_alter, lookup_insert. repeat case_decide; try done.
  subst j. by rewrite H.
Qed.

(** ** Priorities *)

Definition with_queue (m : ThreadManager) (q : ThreadQueueList Z) : ThreadManager :=
  mkManager (current_thread m) q (wakeup_callback_table m) (thread_list m).

Lemma on_ready_queue_eq core f s m q :
  managers s !! core = Some m → f (ready_queue m) = Some q →
  on_ready_queue core f s = Some (set_managers s (<[core := with_queue m q]> (managers s))).
Proof. intros Hm Hf. unfold on_ready_queue. rewrite Hm. simpl. by rewrite Hf. Qed.

(** Replacing the ready queue of [core], and one thread [t] of that core by one whose priority the
    new queue has prepared and that still waits where it is listed. *)
Lemma kinv_requeue s core m q (a a' : AbsQueue Z) t th th' :
  kinv s → managers s !! core = Some m →
  rep NUM_PRIO q a' → prepared a ⊆ prepared a' →
  (∀ t th, threads s !! t = Some th → core_id th = core → current_priority th ∈ prepared a) →
  threads s !! t = Some th → core_id th = core → core_id th' = core →
  (∀ o ob, objects s !! o = Some ob → t ∈ waiting_threads ob →
     waits_for_object (status th') = true ∧ o ∈ wait_objects th') →
  wait_objects th' ⊆ wait_objects th → held_mutexes th' = held_mutexes th →
  prio_ok (nominal_priority th') → prio_ok (current_priority th') → current_priority th' ∈ prepared a' →
  kinv (set_threads (set_managers s (<[core := with_queue m q]> (managers s))) (<[t := th']> (threads s))).
Proof.
  intros [I1 I2 I3 I4 I5 I6 I7 I8] Hm Hrep' Hsub Hprep Ht Hcore Hcore' Hlisted Hwaits Hheld Hn Hc Hin.
  assert (∀ t0 th0, <[t := th']> (threads s) !! t0 = Some th0 →
            ∃ th1, threads s !! t0 = Some th1 ∧ wait_objects th0 ⊆ wait_objects th1 ∧
                   held_mutexes th0 = held_mutexes th1) as Hback.
  { intros t0 th0 H. rewrite lookup_insert in H. case_decide as E; [|by eauto].
    subst t0. injection H as <-. by exists th. }
  split; simpl.
  - intros c m' Hm'. destruct (decide (c = core)) as [->|Hne].
    + rewrite list_lookup_insert_eq in Hm' by (by eapply lookup_lt_Some). injection Hm' as <-.
      exists a'. split; [done|]. intros t0 th0 H0 Hc0. simpl in H0. rewrite lookup_insert in H0. case_decide.
      * by simplify_eq.
      * apply Hsub. by eapply Hprep.
    + rewrite list_lookup_insert_ne in Hm' by done. destruct (I1 c m' Hm') as (b & Hb & Hpb).
      exists b. split; [done|]. intros t0 th0 H0 Hc0. simpl in H0. rewrite lookup_insert in H0. case_decide.
      * by simplify_eq.
      * by eapply Hpb.
  - intros t0 th0 H0. rewrite lookup_insert in H0. case_decide.
    + subst t0. injection H0 as <-. split_and!; [|done|done]. apply lookup_lt_is_Some_2. rewrite length_insert.
      apply lookup_lt_is_Some_1. rewrite Hcore'. by eauto.
    + destruct (I2 t0 th0 H0) as ([m0 Hm0] & ? & ?). split_and!; try done.
      apply lookup_lt_is_Some_2. rewrite length_insert. by eapply lookup_lt_Some.
  - intros t0 th0 m0 H0 Hin0. destruct (Hback t0 th0 H0) as (th1 & H1 & _ & E1). rewrite E1 in Hin0.
    by eapply I3.
  - intros m0 ob lc p h H0 Hk. destruct (I4 m0 ob lc p h H0 Hk) as [? Hh]. split; [done|].
    intros t0 Et. rewrite lookup_insert. case_decide; [by eauto|]. by apply Hh.
  - intros o ob t0 Ho Hin0. rewrite lookup_insert. case_decide; [|by eapply I5].
    subst t0. exists th'. split; [done|]. by eapply Hlisted.
  - done.
  - intros t0 th0 o H0 Hin0. destruct (Hback t0 th0 H0) as (th1 & H1 & E1 & _).
    destruct (I7 t0 th1 o H1 (E1 _ Hin0)) as (ob & Hob & Hk).
    exists ob. split; [done|]. intros Hkt. rewrite lookup_insert. case_decide; [by eauto|]. by apply Hk.
  - done.
Qed.

Lemma BoostPriority_ok t th p s :
  kinv s → threads s !! t = Some th → prio_ok p →
  ∃ s', BoostPriority t p s = Some s' ∧ same_waits s s' ∧ kinv s' ∧ objects s' = objects s ∧
    timing s' = timing s ∧
    threads s' = <[t := set_priorities (nominal_priority th) p th]> (threads s).
Proof.
  intros Hi Ht Hp. pose proof (ki_threads _ Hi t th Ht) as ([m Hm] & Hc & Hn).
  destruct (ki_queues _ Hi _ _ Hm) as (a & Hrep & Hprep).
  assert (∃ q a', (if decide (status th = Ready) then move t (current_priority th) p (ready_queue m)
                   else prepare p (ready_queue m)) = Some q ∧ rep NUM_PRIO q a' ∧
            prepared a' = {[p]} ∪ prepared a) as (q & a' & Eq & Hrep' & Hp').
  { case_decide.
    - destruct (run_refines nullptr NUM_PRIO (OpMove t (current_priority th) p) (ready_queue m) a Hrep)
        as (q & E & Hq); [by split|]. simpl in E. destruct (move _ _ _ _) as [q'|]; simplify_eq/=. eauto.
    - destruct (prepare_refines NUM_PRIO (ready_queue m) a p Hrep Hp) as (q & E & Hq). eauto. }
  set (s1 := set_managers s (<[core_id th := with_queue m q]> (managers s))).
  assert ((if decide (status th = Ready)
           then on_ready_queue (core_id th) (move t (current_priority th) p) s
           else on_ready_queue (core_id th) (prepare p) s) = Some s1) as Es1.
  { case_decide; by apply on_ready_queue_eq. }
  exists (upd_thread t (set_priorities (nominal_priority th) p) s1). unfold BoostPriority.
  rewrite Ht. simpl. rewrite Es1. simpl.
  assert (alter (set_priorities (nominal_priority th) p) t (threads s) =
          <[t := set_priorities (nominal_priority th) p th]> (threads s)) as Ealt.
  { by apply alter_some. }
  split; [done|]. split.
  { eapply same_waits_trans; [|by apply upd_thread_same].
    split; simpl; try done; [intros o ob H; by exists ob|]. by rewrite length_insert. }
  split; [|done]. unfold upd_thread, s1. simpl. rewrite Ealt.
  apply (kinv_requeue s (core_id th) m q a a' t th); try done.
  - rewrite Hp'. set_solver.
  - intros o ob Ho Hin. destruct (ki_waiters _ Hi o ob t Ho Hin) as (th0 & H0 & Hw & Hwo).
    by assert (th0 = th) as -> by congruence.
  - simpl. rewrite Hp'. set_solver.
Qed.

Lemma kinv_set_kind o k s :
  kinv s →
  (∀ ob, objects s !! o = Some ob → kind_class k = kind_class (kind ob)) →
  (∀ lc p h, k = KMutex lc p h → prio_ok p ∧ ∀ t, h = Some t → is_Some (threads s !! t)) →
  (∀ parent, session_parent k = Some parent → is_Some (sessions (ipc s) !! parent)) →
  kinv (upd_object o (set_kind k) s).
Proof.
  intros [I1 I2 I3 I4 I5 I6 I7 I8] Hk Hm Hp. split; simpl; try done.
  - intros t th m Ht Hin. destruct (I3 t th m Ht Hin) as (ob & Hob & Hmu).
    rewrite lookup_alter. case_decide; [|by eauto]. subst m. rewrite Hob. simpl.
    eexists. split; [done|]. simpl. specialize (Hk ob Hob). by destruct k, (kind ob).
  - intros m ob lc p h Hob Hkind. rewrite lookup_alter in Hob. case_decide; [|by eapply I4].
    subst m. destruct (objects s !! o) as [ob0|]; simplify_eq/=. by eapply Hm.
  - intros o' ob t Hob Hin. rewrite lookup_alter in Hob. case_decide; [|by eapply I5].
    subst o'. destruct (objects s !! o) as [ob0|] eqn:E; simplify_eq/=. by eapply I5.
  - intros o' ob Hob. rewrite lookup_alter in Hob. case_decide; [|by eapply I6].
    subst o'. destruct (objects s !! o) as [ob0|] eqn:E; simplify_eq/=. by eapply (I6 o ob0).
  - intros t th o' Ht Hin. destruct (I7 t th o' Ht Hin) as (ob & Hob & Hkt).
    rewrite lookup_alter. case_decide; [|by eauto]. subst o'. rewrite Hob. simpl.
    eexists. split; [done|]. simpl. specialize (Hk ob Hob). intros ->. apply Hkt. by destruct (kind ob).
  - intros o' ob parent Hob. rewrite lookup_alter in Hob. case_decide; [|by eapply I8].
    subst o'. destruct (objects s !! o) as [ob0|]; simplify_eq/=. apply Hp.
Qed.

(** A change of a thread that keeps its waits and priorities. *)
Lemma kinv_upd_thread t f s :
  kinv s →
  (∀ th, threads s !! t = Some th →
     thread_view (f th) = thread_view th ∧ current_priority (f th) = current_priority th ∧
     nominal_priority (f th) = nominal_priority th ∧
     ∀ m, m ∈ held_mutexes (f th) → ∃ ob, objects s !! m = Some ob ∧ is_mutex (kind ob) = true) →
  kinv (upd_thread t f s).
Proof.
  intros [I1 I2 I3 I4 I5 I6 I7 I8] Hf.
  assert (∀ t0 th, alter f t (threads s) !! t0 = Some th →
            ∃ th0, threads s !! t0 = Some th0 ∧ thread_view th = thread_view th0 ∧
              current_priority th = current_priority th0 ∧ nominal_priority th = nominal_priority th0)
    as Hback.
  { intros t0 th H. rewrite lookup_alter in H. case_decide; [|by eauto]. subst t0.
    destruct (threads s !! t) as [th0|] eqn:E; simplify_eq/=. exists th0.
    destruct (Hf th0 eq_refl) as (? & ? & ? & _). done. }
  assert (∀ t0, is_Some (threads s !! t0) → is_Some (alter f t (threads s) !! t0)) as Hsome.
  { intros t0 [th H]. rewrite lookup_alter. case_decide; [subst t0|]; rewrite H; by eauto. }
  split; simpl; try done.
  - intros core m Hm. destruct (I1 core m Hm) as (a & Hr & Hp). exists a. split; [done|].
    intros t0 th H0 Hc. destruct (Hback t0 th H0) as (th0 & H0' & Ev & Ec & _).
    rewrite Ec. apply (Hp t0 th0 H0'). unfold thread_view in Ev. congruence.
  - intros t0 th H0. destruct (Hback t0 th H0) as (th0 & H0' & Ev & Ec & En).
    destruct (I2 t0 th0 H0') as (? & ? & ?). unfold thread_view in Ev.
    replace (core_id th) with (core_id th0) by congruence. by rewrite Ec, En.
  - intros t0 th m H0 Hin. rewrite lookup_alter in H0. case_decide; [|by eapply I3]. subst t0.
    destruct (threads s !! t) as [th0|] eqn:E; simplify_eq/=.
    destruct (Hf th0 eq_refl) as (_ & _ & _ & Hh). by apply Hh.
  - intros m ob lc p h Hob Hk. destruct (I4 m ob lc p h Hob Hk) as [? Hh]. split; [done|].
    intros t0 Et. by apply Hsome, Hh.
  - intros o ob t0 Hob Hin. destruct (I5 o ob t0 Hob Hin) as (th0 & H0 & Hw & Hwo).
    destruct (Hsome t0 ltac:(by eauto)) as [th H0']. exists th. split; [done|].
    destruct (Hback t0 th H0') as (th1 & H1 & Ev & _). unfold thread_view in Ev.
    assert (th1 = th0) as -> by congruence. by replace (status th) with (status th0) by congruence;
      replace (wait_objects th) with (wait_objects th0) by congruence.
  - intros t0 th o H0 Hin. destruct (Hback t0 th H0) as (th0 & H0' & Ev & _). unfold thread_view in Ev.
    replace (wait_objects th) with (wait_objects th0) in Hin by congruence.
    destruct (I7 t0 th0 o H0' Hin) as (ob & Hob & Hk). exists ob. split; [done|]. intros Hkt.
    by apply Hsome, Hk.
Qed.

Lemma best_held_ok s held best :
  (∀ m, m ∈ held → ∃ p, mutex_priority s m = Some p ∧ prio_ok p) → prio_ok best →
  ∃ b, best_held s held best = Some b ∧ prio_ok b ∧ (b <= best)%nat ∧
    ∀ m p, m ∈ held → mutex_priority s m = Some p → (b <= p)%nat.
Proof.
  revert best. induction held as [|m held IH]; intros best Hh Hb; simpl.
  - exists best. split_and!; [done|done|lia|]. intros m p Hm. by apply elem_of_nil in Hm.
  - destruct (Hh m) as (p & Hp & Hpo); [by left|]. rewrite Hp. simpl.
    destruct (IH (if (p <? best)%nat then p else best)) as (b & E & Hbo & Hle & Hall).
    + intros m' Hm'. apply Hh. by right.
    + by destruct (p <? best)%nat.
    + exists b. split_and!; [done|done| |].
      * destruct (Nat.ltb_spec p best); lia.
      * intros m' p' [->|Hm']%elem_of_cons Hp'; [|by eapply Hall].
        assert (p' = p) as -> by congruence. destruct (Nat.ltb_spec p best); lia.
Qed.

Lemma held_priorities s t th m :
  kinv s → threads s !! t = Some th → m ∈ held_mutexes th → ∃ p, mutex_priority s m = Some p ∧ prio_ok p.
Proof.
  intros Hi Ht Hm. destruct (ki_held _ Hi t th m Ht Hm) as (ob & Hob & Hk).
  unfold mutex_priority. rewrite Hob. simpl. destruct (kind ob) as [|lc p h| | | | |] eqn:Ek; try done.
  exists p. split; [done|]. by eapply (ki_mutex _ Hi).
Qed.

Lemma UpdatePriority_ok t th s :
  kinv s → threads s !! t = Some th →
  ∃ s' b, UpdatePriority t s = Some s' ∧ same_waits s s' ∧ kinv s' ∧ objects s' = objects s ∧
    timing s' = timing s ∧ threads s' = <[t := set_priorities (nominal_priority th) b th]> (threads s) ∧
    best_held s (held_mutexes th) (nominal_priority th) = Some b.
Proof.
  intros Hi Ht. pose proof (ki_threads _ Hi t th Ht) as (_ & _ & Hn).
  destruct (best_held_ok s (held_mutexes th) (nominal_priority th)) as (b & E & Hb & _); [|done|].
  { intros m Hm. by eapply held_priorities. }
  destruct (BoostPriority_ok t th b s Hi Ht Hb) as (s' & E' & H1 & H2 & H3 & H4 & H5).
  exists s', b. unfold UpdatePriority. rewrite Ht. simpl. rewrite E. done.
Qed.

Lemma best_waiter_ok s ws best :
  (∀ w, w ∈ ws → ∃ th, threads s !! w = Some th ∧ prio_ok (current_priority th)) → prio_ok best →
  ∃ b, best_waiter s ws best = Some b ∧ prio_ok b ∧ (b <= best)%nat ∧
    (b = best ∨ ∃ w th, w ∈ ws ∧ threads s !! w = Some th ∧ b = current_priority th) ∧
    ∀ w th, w ∈ ws → threads s !! w = Some th → (b <= current_priority th)%nat.
Proof.
  revert best. induction ws as [|w ws IH]; intros best Hw Hb; simpl.
  - exists best. split_and!; [done|done|lia|by left|]. intros w th H. by apply elem_of_nil in H.
  - destruct (Hw w) as (th & Ht & Hp); [by left|]. rewrite Ht. simpl.
    destruct (IH (if (current_priority th <? best)%nat then current_priority th else best))
      as (b & E & Hbo & Hle & Hor & Hall).
    + intros w' Hw'. apply Hw. by right.
    + by destruct (_ <? _)%nat.
    + exists b. split_and!; [done|done| | |].
      * destruct (Nat.ltb_spec (current_priority th) best); lia.
      * destruct Hor as [->|(w' & th' & H1 & H2 & H3)].
        -- destruct (_ <? _)%nat; [|by left]. right. exists w, th. split_and!; [by left|done..].
        -- right. exists w', th'. split_and!; [by right|done..].
      * intros w' th' [->|Hw']%elem_of_cons Hth'; [|by eapply Hall].
        assert (th' = th) as -> by congruence. destruct (Nat.ltb_spec (current_priority th) best); lia.
Qed.

Lemma waiter_priorities s o ob :
  kinv s → objects s !! o = Some ob →
  ∀ w, w ∈ waiting_threads ob → ∃ th, threads s !! w = Some th ∧ prio_ok (current_priority th).
Proof.
  intros Hi Ho w Hw. destruct (ki_waiters _ Hi o ob w Ho Hw) as (th & Ht & _). exists th.
  split; [done|]. by eapply (ki_threads _ Hi).
Qed.

Lemma Mutex_UpdatePriority_ok m ob s :
  kinv s → objects s !! m = Some ob → is_mutex (kind ob) = true →
  ∃ s', Mutex_UpdatePriority m s = Some s' ∧ same_waits s s' ∧ kinv s' ∧ timing s' = timing s.
Proof.
  intros Hi Ho Hm. unfold Mutex_UpdatePriority. rewrite Ho. simpl.
  destruct (kind ob) as [|lc p [h|]| | | | |] eqn:Ek; try done; [|by eauto using evolves_refl].
  destruct (best_waiter_ok s (waiting_threads ob) ThreadPrioLowest) as (b & E & Hb & _);
    [by eapply waiter_priorities|unfold prio_ok, NUM_PRIO, ThreadPrioLowest; lia|].
  rewrite E. simpl. case_decide; [|by eauto using evolves_refl].
  set (s1 := upd_object m _ s).
  destruct (ki_mutex _ Hi m ob lc p (Some h) Ho Ek) as [_ Hh]. destruct (Hh h eq_refl) as [th Hth].
  assert (kinv s1) as Hi1.
  { apply kinv_set_kind; [done| | |done].
    - intros ob' Ho'. assert (ob' = ob) as -> by congruence. by rewrite Ek.
    - intros lc' p' h' [= <- <- <-]. by split. }
  destruct (UpdatePriority_ok h th s1 Hi1 Hth) as (s' & b' & E' & Hs & Hi' & _ & Ht & _).
  exists s'. split_and!; [done| |done|done]. eapply same_waits_trans; [|exact Hs].
  apply upd_kind_same. intros ob' Ho'. assert (ob' = ob) as -> by congruence. by rewrite Ek.
Qed.

(** ** Taking a thread off the waiting lists *)

Lemma filter_id (t : Z) (l : list Z) : t ∉ l → filter (λ x, x ≠ t) l = l.
Proof.
  induction l as [|x l IH]; [done|]. intros [Hx Hl]%not_elem_of_cons. rewrite filter_cons.
  rewrite decide_True by done. by rewrite IH.
Qed.

Lemma erase_first_filter (t : Z) (l : list Z) : NoDup l → erase_first t l = filter (λ x, x ≠ t) l.
Proof.
  induction l as [|x l IH]; [done|]. intros [Hx Hl]%NoDup_cons. simpl. rewrite filter_cons.
  destruct (Z.eqb_spec x t) as [->|Hne].
  - rewrite decide_False by (intros H; by apply H). by rewrite filter_id.
  - rewrite decide_True by done. by rewrite IH.
Qed.

Lemma kinv_set_waiters o l ob s :
  kinv s → objects s !! o = Some ob → NoDup l →
  (∀ t, t ∈ l → ∃ th, threads s !! t = Some th ∧ waits_for_object (status th) = true ∧ o ∈ wait_objects th) →
  kinv (upd_object o (set_waiters l) s).
Proof.
  intros [I1 I2 I3 I4 I5 I6 I7 I8] Ho Hl Hw. split; simpl; try done.
  - intros t th m Ht Hin. destruct (I3 t th m Ht Hin) as (ob1 & Hob & Hmu). rewrite lookup_alter.
    case_decide; [|by eauto]. subst m. rewrite Hob. by eexists.
  - intros m ob1 lc p h Hob Hk. rewrite lookup_alter in Hob. case_decide; [|by eapply I4].
    subst m. rewrite Ho in Hob. simplify_eq/=. by eapply I4.
  - intros o' ob1 t Hob Hin. rewrite lookup_alter in Hob. case_decide; [|by eapply I5].
    subst o'. rewrite Ho in Hob. simplify_eq/=. by apply Hw.
  - intros o' ob1 Hob. rewrite lookup_alter in Hob. case_decide; [|by eapply I6].
    subst o'. rewrite Ho in Hob. by simplify_eq/=.
  - intros t th o' Ht Hin. destruct (I7 t th o' Ht Hin) as (ob1 & Hob & Hk). rewrite lookup_alter.
    case_decide; [|by eauto]. subst o'. rewrite Hob. by eexists.
  - intros o' ob1 parent Hob. rewrite lookup_alter in Hob. case_decide; [|by eapply I8].
    subst o'. rewrite Ho in Hob. simplify_eq/=. by eapply I8.
Qed.

Lemma RemoveWaitingThread_ok o t ob s :
  kinv s → objects s !! o = Some ob →
  ∃ s', RemoveWaitingThread o t s = Some s' ∧ evolves [] t [o] s s' ∧ kinv s' ∧ timing s' = timing s.
Proof.
  intros Hi Ho. unfold RemoveWaitingThread, WaitObject_RemoveWaitingThread. rewrite Ho. simpl.
  rewrite erase_first_filter by (by eapply (ki_nodup _ Hi)).
  set (s1 := upd_object o _ s).
  assert (kinv s1) as Hi1.
  { eapply kinv_set_waiters; [done..| |].
    - apply NoDup_filter. by eapply (ki_nodup _ Hi).
    - intros t' [_ Hin]%list_elem_of_filter. by eapply (ki_waiters _ Hi). }
  assert (objects s1 !! o = Some (set_waiters (filter (λ x, x ≠ t) (waiting_threads ob)) ob)) as Ho1.
  { simpl. by rewrite lookup_alter_eq, Ho. }
  assert (evolves [] t [o] s s1) as He.
  { split; try done. intros o' ob' Ho'. simpl. rewrite lookup_alter. case_decide.
    - subst o'. assert (ob' = ob) as -> by congruence. rewrite Ho. eexists. split_and!; [done| |done|done].
      unfold without. by rewrite decide_True by set_solver.
    - exists ob'. split_and!; [done| |done|done]. unfold without. rewrite decide_False; [done|set_solver]. }
  destruct (kind ob) as [|lc p h| | | | |] eqn:Ek; try by eauto.
  set (s2 := upd_thread t _ s1).
  assert (same_waits s1 s2) as Hs2 by by apply upd_thread_same.
  assert (kinv s2) as Hi2.
  { apply kinv_upd_thread; [done|]. intros th Ht. split_and!; [done..|]. intros m Hm.
    by eapply (ki_held _ Hi1). }
  destruct (Mutex_UpdatePriority_ok o _ s2 Hi2 Ho1) as (s' & E & Hs' & Hi' & Ht'); [by simpl; rewrite Ek|].
  exists s'. split_and!; [done| |done|done].
  apply (evolves_trans [] [] t [o] [] _ s1); [done|].
  apply evolves_any with 0. by eapply same_waits_trans.
Qed.

Lemma remove_from_all_ok objs t s :
  kinv s → (∀ o, o ∈ objs → is_Some (objects s !! o)) →
  ∃ s', remove_from_all objs t s = Some s' ∧ evolves [] t objs s s' ∧ kinv s' ∧ timing s' = timing s.
Proof.
  revert s. induction objs as [|o objs IH]; intros s Hi Ho; simpl.
  - exists s. split_and!; [done|apply evolves_any with 0; apply evolves_refl|done|done].
  - destruct (Ho o) as [ob Hob]; [by left|].
    destruct (RemoveWaitingThread_ok o t ob s Hi Hob) as (s1 & E1 & He1 & Hi1 & Ht1). rewrite E1. simpl.
    destruct (IH s1 Hi1) as (s' & E & He & Hi' & Ht).
    { intros o' Ho'. destruct (Ho o') as [ob' Hob']; [by right|].
      destruct (ev_objects _ _ _ _ _ He1 o' ob' Hob') as (? & ? & _). by eexists. }
    exists s'. split_and!; [done| |done|congruence].
    apply (evolves_trans [] [] t [o] objs _ s1); done.
Qed.

(** ** Acquiring *)

Lemma ShouldWait_evolves ch t0 objs s s' o t :
  evolves ch t0 objs s s' → is_Some (objects s !! o) → o ∉ ch → ShouldWait o t s' = ShouldWait o t s.
Proof.
  intros He [ob Ho] Hn. destruct (ev_objects _ _ _ _ _ He o ob Ho) as (ob' & Ho' & _ & _ & Hk).
  specialize (Hk Hn). unfold ShouldWait. rewrite Ho, Ho'. simpl.
  pose proof (ev_threads _ _ _ _ _ He o) as Ev.
  rewrite (ev_ipc _ _ _ _ _ He). destruct (kind ob), (kind ob'); simplify_eq/=; try done.
  destruct (threads s !! o) as [th|], (threads s' !! o) as [th'|]; simplify_eq/=; [|done].
  by replace (status th') with (status th) by congruence.
Qed.

Lemma ShouldWait_ok s t th o :
  kinv s → threads s !! t = Some th → o ∈ wait_objects th → ∀ t', ∃ b, ShouldWait o t' s = Some b.
Proof.
  intros Hi Ht Hin t'. destruct (ki_objects _ Hi t th o Ht Hin) as (ob & Ho & Hk). unfold ShouldWait.
  rewrite Ho. simpl. destruct (kind ob) eqn:Ek; try by eexists.
  - destruct (Hk eq_refl) as [th' Hth']. rewrite Hth'. by eexists.
  - destruct (ki_sessions _ Hi o ob parent Ho) as [se ->]; [by rewrite Ek|]. by eexists.
Qed.

Lemma flat_set_insert_elem x y l : y ∈ flat_set_insert x l ↔ y = x ∨ y ∈ l.
Proof.
  induction l as [|z l IH]; simpl; [by rewrite list_elem_of_singleton, elem_of_nil; tauto|].
  destruct (Z.ltb_spec x z); [by rewrite elem_of_cons|].
  destruct (Z.eqb_spec x z) as [->|]; rewrite ?elem_of_cons; [tauto|]. rewrite IH. tauto.
Qed.

Lemma Mutex_Acquire_ok m ob t th s :
  kinv s → threads s !! t = Some th → objects s !! m = Some ob → is_mutex (kind ob) = true →
  ShouldWait m t s = Some false →
  ∃ s', Mutex_Acquire m t s = Some s' ∧ evolves [m] 0 [] s s' ∧ kinv s' ∧ timing s' = timing s.
Proof.
  intros Hi Ht Ho Hm Hw. unfold Mutex_Acquire. rewrite Hw, Ho, Ht. simpl.
  destruct (kind ob) as [|lc p h| | | | |] eqn:Ek; try done.
  destruct (ki_mutex _ Hi m ob lc p h Ho Ek) as [Hp Hh].
  destruct (ki_threads _ Hi t th Ht) as (_ & Hc & _).
  assert (∀ s0 lc' p' h', kinv s0 → is_Some (threads s0 !! t) → evolves [m] 0 [] s s0 → prio_ok p' →
            (h' = h ∨ h' = Some t) →
            let s1 := upd_object m (set_kind (KMutex lc' p' h')) s0 in
            kinv s1 ∧ evolves [m] 0 [] s s1) as Hset.
  { intros s0 lc' p' h' Hi0 [th0 Ht0] He0 Hp' Hh' s1.
    assert (∀ ob', objects s0 !! m = Some ob' → kind_class (KMutex lc' p' h') = kind_class (kind ob')) as Hcl.
    { intros ob' Ho'. destruct (ev_objects _ _ _ _ _ He0 m ob Ho) as (ob0 & Ho0 & _ & Hc0 & _).
      assert (ob' = ob0) as -> by congruence. by rewrite Hc0, Ek. }
    split.
    - apply kinv_set_kind; [done|done| |done]. intros lc1 p1 h1 [= <- <- <-]. split; [done|].
      intros t1 E. destruct Hh' as [->| ->]; [|injection E as <-; by eexists].
      destruct (Hh t1 E) as [th1 H1]. destruct (evolves_thread _ _ _ _ _ _ _ He0 H1) as (th1' & ? & _).
      by eexists.
    - apply (evolves_mono ([m] ++ [m])); [|set_solver].
      apply (evolves_trans [m] [m] 0 [] [] s s0); [done|]. by apply upd_kind_evolves. }
  case_match.
  - set (s1 := upd_object m _ s).
    destruct (Hset s lc (current_priority th) (Some t) Hi) as [Hi1 He1];
      [by eexists|apply evolves_refl|done|by right|]. fold s1 in Hi1, He1.
    set (s2 := upd_thread t _ s1).
    assert (kinv s2) as Hi2.
    { apply kinv_upd_thread; [done|]. intros th1 Ht1. split_and!; [done..|]. intros m1 Hm1.
      simpl in Hm1. apply flat_set_insert_elem in Hm1 as [->|Hm1]; [|by eapply (ki_held _ Hi1)].
      simpl. rewrite lookup_alter_eq, Ho. by eexists. }
    assert (evolves [m] 0 [] s s2) as He2.
    { apply (evolves_trans [m] [] 0 [] [] s s1); [done|]. by apply upd_thread_same. }
    destruct (evolves_thread _ _ _ _ _ _ _ He2 Ht) as (th2 & Ht2 & _).
    destruct (UpdatePriority_ok t th2 s2 Hi2 Ht2) as (s3 & b & E & He3 & Hi3 & _ & Htm & _).
    rewrite E. simpl. eexists. split; [done|].
    destruct (Hset (PrepareReschedule s3) (lc + 1) (current_priority th) (Some t)) as [Hi4 He4].
    + by apply PrepareReschedule_inv.
    + destruct (evolves_thread _ _ _ _ _ _ _ He3 Ht2) as (th3 & Ht3 & _). by eexists.
    + apply (evolves_trans [m] [] 0 [] [] s s2); [done|]. eapply same_waits_trans; [done|].
      apply PrepareReschedule_same.
    + done.
    + by right.
    + done.
  - eexists. split; [done|]. destruct (Hset s (lc + 1) p h Hi) as [Hi1 He1];
      [by eexists|apply evolves_refl|done|by left|done].
Qed.

Lemma Acquire_ok o ob t th s :
  kinv s → threads s !! t = Some th → objects s !! o = Some ob → ShouldWait o t s = Some false →
  ∃ s', Acquire o t s = Some s' ∧ evolves [o] 0 [] s s' ∧ kinv s' ∧ timing s' = timing s.
Proof.
  intros Hi Ht Ho Hw. unfold Acquire. rewrite Ho. simpl.
  assert (∀ k, kind_class k = kind_class (kind ob) → is_mutex k = false → session_parent k = session_parent (kind ob) →
            kinv (upd_object o (set_kind k) s) ∧ evolves [o] 0 [] s (upd_object o (set_kind k) s)) as Hset.
  { intros k Hk Hm Hpar. assert (∀ ob', objects s !! o = Some ob' → kind_class k = kind_class (kind ob')).
    { intros ob' Ho'. by assert (ob' = ob) as -> by congruence. }
    split; [|by apply upd_kind_evolves]. apply kinv_set_kind; [done|done| |].
    - intros lc p h ->. done.
    - intros parent. rewrite Hpar. by apply (ki_sessions _ Hi o). }
  destruct (kind ob) as [|lc p h|mx av|rt sg|rt sg ini itv id|par hle pend cur ctx|pend hle] eqn:Ek.
  - rewrite Hw. simpl. exists s. split_and!; try done. apply evolves_refl.
  - eapply Mutex_Acquire_ok; try done. by rewrite Ek.
  - eexists. split; [done|]. case_match; [by auto using evolves_refl|].
    destruct (Hset (KSemaphore mx (av - 1))); done.
  - rewrite Hw. simpl. eexists. split; [done|]. case_decide; [|by auto using evolves_refl].
    destruct (Hset (KEvent rt false)); done.
  - rewrite Hw. simpl. eexists. split; [done|]. case_decide; [|by auto using evolves_refl].
    destruct (Hset (KTimer rt false ini itv id)); done.
  - rewrite Hw. simpl. destruct (ki_sessions _ Hi o ob par Ho) as [se Hse]; [by rewrite Ek|]. rewrite Hse. simpl.
    unfold ShouldWait in Hw. rewrite Ho in Hw. simpl in Hw. rewrite Ek, Hse in Hw. simpl in Hw.
    destruct (session_client se); [|by eauto using evolves_refl]. destruct_bools.
    destruct (last pend) as [r|] eqn:El; [|apply last_None in El as ->; done]. simpl. eexists. split; [done|].
    destruct (Hset (KServerSession par hle (removelast pend) (Some r) ctx)); done.
  - rewrite Hw. simpl. exists s. split_and!; try done. apply evolves_refl.
Qed.

Lemma none_should_wait_spec objs t s :
  none_should_wait objs t s = Some true ↔ ∀ o, o ∈ objs → ShouldWait o t s = Some false.
Proof.
  induction objs as [|o objs IH]; simpl; [split; [intros _ o Ho; by apply elem_of_nil in Ho|done]|].
  split.
  - intros H o' [->|Ho']%elem_of_cons.
    + by destruct (ShouldWait o t s) as [[]|].
    + destruct (ShouldWait o t s) as [[]|]; [done| |done]. by apply IH.
  - intros H. rewrite (H o) by by left. simpl. apply IH. intros o' Ho'. apply H. by right.
Qed.

(** ** The thread that is chosen *)

(** The waiter [t] of [o] can run and has the priority [p]. *)
Definition runnable (s : KState) (o t : Z) (p : nat) : Prop :=
  ∃ th, threads s !! t = Some th ∧ ready_to_run o t th s = Some true ∧ current_priority th = p.

Lemma none_should_wait_total objs t s :
  (∀ o, o ∈ objs → ∃ b, ShouldWait o t s = Some b) → ∃ b, none_should_wait objs t s = Some b.
Proof.
  induction objs as [|o objs IH]; simpl; [by eexists|]. intros H. destruct (H o) as [b E]; [by left|].
  rewrite E. simpl. destruct b; [by eexists|]. apply IH. intros o' Ho'. apply H. by right.
Qed.

Lemma ready_to_run_total s o ob t :
  kinv s → objects s !! o = Some ob → t ∈ waiting_threads ob →
  ∃ th b, threads s !! t = Some th ∧ waits_for_object (status th) = true ∧ prio_ok (current_priority th) ∧
    ready_to_run o t th s = Some b.
Proof.
  intros Hi Ho Hin. destruct (ki_waiters _ Hi o ob t Ho Hin) as (th & Ht & Hs & Hw).
  destruct (ki_threads _ Hi t th Ht) as (_ & Hp & _). unfold ready_to_run.
  destruct (ShouldWait_ok s t th o Hi Ht Hw t) as [b Eb].
  destruct (none_should_wait_total (wait_objects th) t s) as [b' Eb'].
  { intros o' Ho'. by eapply ShouldWait_ok. }
  exists th. rewrite Eb, Eb'. simpl. destruct b; [by eauto|]. case_decide; by eauto.
Qed.

Lemma highest_priority_loop_spec s o ws cand cp :
  (∀ t, t ∈ ws → ∃ th b, threads s !! t = Some th ∧ waits_for_object (status th) = true ∧
     ready_to_run o t th s = Some b) →
  ∃ r, highest_priority_loop o ws cand cp s = Some r ∧
    ((r = cand ∧ ∀ t p, t ∈ ws → runnable s o t p → (cp <= p)%nat) ∨
     ∃ l1 t l2 p, r = Some t ∧ ws = l1 ++ t :: l2 ∧ runnable s o t p ∧ (p < cp)%nat ∧
       (∀ t' p', t' ∈ l1 → runnable s o t' p' → (p < p')%nat) ∧
       (∀ t' p', t' ∈ l2 → runnable s o t' p' → (p <= p')%nat)).
Proof.
  revert cand cp. induction ws as [|t ws IH]; intros cand cp H; simpl.
  - exists cand. split; [done|]. left. split; [done|]. intros t p Ht. by apply elem_of_nil in Ht.
  - destruct (H t) as (th & b & Ht & Hs & Hr); [by left|]. rewrite Ht. simpl. rewrite Hs. simpl.
    assert (∀ t', t' ∈ ws → ∃ th b, threads s !! t' = Some th ∧ waits_for_object (status th) = true ∧
              ready_to_run o t' th s = Some b) as H' by (intros; apply H; by right).
    assert ((cp <= current_priority th)%nat ∨ b = false →
      ∃ r, highest_priority_loop o ws cand cp s = Some r ∧
        ((r = cand ∧ ∀ t0 p, t0 ∈ t :: ws → runnable s o t0 p → (cp <= p)%nat) ∨
         ∃ l1 t0 l2 p, r = Some t0 ∧ t :: ws = l1 ++ t0 :: l2 ∧ runnable s o t0 p ∧ (p < cp)%nat ∧
           (∀ t' p', t' ∈ l1 → runnable s o t' p' → (p < p')%nat) ∧
           (∀ t' p', t' ∈ l2 → runnable s o t' p' → (p <= p')%nat))) as Hskip.
    { intros Hcase. assert (∀ p, runnable s o t p → (cp <= p)%nat) as Hle.
      { intros p (th' & Ht' & Hr' & <-). assert (th' = th) as -> by congruence.
        destruct Hcase as [|E]; [done|]. congruence. }
      destruct (IH cand cp H') as (r & E & [[-> Hall]|(l1 & t0 & l2 & p & -> & -> & Hrun & Hp & Hl1 & Hl2)]).
      - exists cand. split; [done|]. left. split; [done|]. intros t0 p [->|Hin]%elem_of_cons; eauto.
      - eexists. split; [done|]. right. exists (t :: l1), t0, l2, p. split_and!; try done.
        intros t' p' [->|Hin]%elem_of_cons Hr'; [|by eapply Hl1]. specialize (Hle p' Hr'). lia. }
    destruct (Nat.leb_spec cp (current_priority th)) as [Hge|Hlt]; [by apply Hskip; left|].
    rewrite Hr. simpl. destruct b; [|by apply Hskip; right].
    assert (runnable s o t (current_priority th)) as Hrt by (by exists th).
    destruct (IH (Some t) (current_priority th) H')
      as (r & E & [[-> Hall]|(l1 & t0 & l2 & p & -> & -> & Hrun & Hp & Hl1 & Hl2)]).
    + eexists. split; [done|]. right. exists [], t, ws, (current_priority th).
      split_and!; try done. intros t' p' Hin. by apply elem_of_nil in Hin.
    + eexists. split; [done|]. right. exists (t :: l1), t0, l2, p. split_and!; try done; [lia|].
      intros t' p' [->|Hin]%elem_of_cons Hr'; [|by eapply Hl1]. destruct Hr' as (th' & Ht' & _ & <-).
      by assert (th' = th) as -> by congruence.
Qed.

Lemma GetHighestPriorityReadyThread_ok s o ob :
  kinv s → objects s !! o = Some ob →
  ∃ r, GetHighestPriorityReadyThread o s = Some r ∧
    match r with
    | None => ∀ t p, t ∈ waiting_threads ob → ~ runnable s o t p
    | Some t => ∃ l1 l2 p, waiting_threads ob = l1 ++ t :: l2 ∧ runnable s o t p ∧
        (∀ t' p', t' ∈ l1 → runnable s o t' p' → (p < p')%nat) ∧
        (∀ t' p', t' ∈ l2 → runnable s o t' p' → (p <= p')%nat)
    end.
Proof.
  intros Hi Ho. unfold GetHighestPriorityReadyThread. rewrite Ho. simpl.
  destruct (highest_priority_loop_spec s o (waiting_threads ob) None NUM_PRIO)
    as (r & E & [[-> Hall]|(l1 & t0 & l2 & p & -> & Hl & Hrun & Hp & Hl1 & Hl2)]).
  - intros t Ht. destruct (ready_to_run_total s o ob t Hi Ho Ht) as (th & b & ? & ? & _ & ?). eauto.
  - eexists. split; [done|]. intros t p Ht Hr. specialize (Hall t p Ht Hr).
    destruct Hr as (th & Hth & _ & <-). destruct (ki_threads _ Hi t th Hth) as (_ & Hp & _).
    unfold prio_ok in Hp. lia.
  - eexists. split; [done|]. exists l1, l2, p. by split_and!.
Qed.

(** ** What an acquisition does to the object *)

Definition client_open (i : IPCObjects) (parent : Z) : bool :=
  match sessions i !! parent with Some se => bool_decide (session_client se ≠ None) | None => false end.
Definition acquired (i : IPCObjects) (t : Z) (k : ObjectKind) : ObjectKind :=
  match k with
  | KThread => KThread
  | KMutex lock_count p holder => KMutex (lock_count + 1) p (if lock_count =? 0 then Some t else holder)
  | KSemaphore max_count available => KSemaphore max_count (if available <=? 0 then available else available - 1)
  | KEvent reset_type signaled => KEvent reset_type (if decide (reset_type = OneShot) then false else signaled)
  | KTimer reset_type signaled initial interval id =>
      KTimer reset_type (if decide (reset_type = OneShot) then false else signaled) initial interval id
  | KServerSession parent hle pending handling context =>
      match last pending with
      | Some request => if client_open i parent then KServerSession parent hle (removelast pending) (Some request) context else k
      | None => k
      end
  | KServerPort pending hle => k
  end.

Lemma on_ready_queue_objects core f s s' :
  on_ready_queue core f s = Some s' → objects s' = objects s.
Proof. unfold on_ready_queue. intros H. by inv_opt. Qed.

Lemma UpdatePriority_objects t s s' : UpdatePriority t s = Some s' → objects s' = objects s.
Proof.
  unfold UpdatePriority, BoostPriority. intros H. inv_opt. simpl.
  case_decide; by eapply on_ready_queue_objects.
Qed.

Lemma Acquire_kind o ob t s s' :
  Acquire o t s = Some s' → objects s !! o = Some ob →
  ∃ ob', objects s' !! o = Some ob' ∧ kind_core (kind ob') = kind_core (acquired (ipc s) t (kind ob)).
Proof.
  intros H Ho. unfold Acquire in H. rewrite Ho in H. simpl in H.
  destruct (kind ob) as [|lc p h|mx av|rt sg|rt sg ini itv id|par hle pend cur ctx|pend hle] eqn:Ek.
  - inv_opt. exists ob. by rewrite Ek.
  - unfold Mutex_Acquire in H. rewrite Ho in H. simpl in H. inv_opt. rewrite Ek in H.
    destruct (Z.eqb_spec lc 0) as [->|].
    + inv_opt. simpl. match goal with E : UpdatePriority _ _ = _ |- _ => apply UpdatePriority_objects in E; rewrite E end.
      simpl. rewrite lookup_alter_eq, lookup_alter_eq, Ho. eexists. split; [done|]. done.
    + inv_opt. simpl. rewrite lookup_alter_eq, Ho. eexists. split; [done|]. simpl.
      by rewrite (proj2 (Z.eqb_neq lc 0)) by done.
  - inv_opt. simpl. destruct (av <=? 0); [exists ob; by rewrite Ek|]. simpl. rewrite lookup_alter_eq, Ho.
    by eexists.
  - inv_opt. simpl. case_decide; [|exists ob; by rewrite Ek]. simpl. rewrite lookup_alter_eq, Ho. by eexists.
  - inv_opt. simpl. case_decide; [|exists ob; by rewrite Ek]. simpl. rewrite lookup_alter_eq, Ho. by eexists.
  - inv_opt. simpl. unfold client_open. match goal with E : sessions _ !! _ = Some _ |- _ => rewrite E end.
    destruct (session_client _) eqn:Ec; inv_opt.
    + rewrite bool_decide_true by congruence.
      simpl. rewrite lookup_alter_eq, Ho. by eexists.
    + exists ob. rewrite Ek. split; [done|]. destruct (last pend); [|done]. by rewrite bool_decide_false by auto.
  - inv_opt. exists ob. by rewrite Ek.
Qed.

Lemma acquired_core i t k k' : kind_core k = kind_core k' → kind_core (acquired i t k) = kind_core (acquired i t k').
Proof. destruct k, k'; simpl; intros H; simplify_eq; try done. destruct (last _); [|done]. by destruct (client_open _ _). Qed.

Lemma acquire_all_ok objs t th s :
  kinv s → threads s !! t = Some th → NoDup objs →
  (∀ o, o ∈ objs → is_Some (objects s !! o) ∧ ShouldWait o t s = Some false) →
  ∃ s', acquire_all objs t s = Some s' ∧ evolves objs 0 [] s s' ∧ kinv s' ∧ timing s' = timing s ∧
    ∀ o ob, o ∈ objs → objects s !! o = Some ob →
      ∃ ob', objects s' !! o = Some ob' ∧ kind_core (kind ob') = kind_core (acquired (ipc s) t (kind ob)).
Proof.
  revert th s. induction objs as [|o objs IH]; intros th s Hi Ht Hnd Ho; simpl.
  - exists s. split_and!; try done; [apply evolves_refl|]. intros o ob Hin. by apply elem_of_nil in Hin.
  - apply NoDup_cons in Hnd as [Hn Hnd]. destruct (Ho o) as [[ob Hob] Hw]; [by left|].
    destruct (Acquire_ok o ob t th s Hi Ht Hob Hw) as (s1 & E1 & He1 & Hi1 & Ht1). rewrite E1. simpl.
    destruct (evolves_thread _ _ _ _ _ _ _ He1 Ht) as (th1 & Hth1 & _).
    destruct (IH th1 s1 Hi1 Hth1 Hnd) as (s' & E & He & Hi' & Ht' & Hk).
    { intros o' Ho'. destruct (Ho o') as [[ob' Hob'] Hw']; [by right|].
      destruct (ev_objects _ _ _ _ _ He1 o' ob' Hob') as (? & ? & _). split; [by eexists|].
      rewrite (ShouldWait_evolves _ _ _ _ _ _ _ He1) by (by eauto || set_solver). done. }
    exists s'. split_and!; [done| |done|congruence|].
    { apply (evolves_trans [o] objs 0 [] [] _ s1); done. }
    intros o' ob' [->|Hin]%elem_of_cons Hob'.
    + destruct (Acquire_kind o ob' t s s1 E1 Hob') as (ob1 & Hob1 & <-).
      destruct (ev_objects _ _ _ _ _ He o ob1 Hob1) as (ob2 & ? & _ & _ & Hc). eauto.
    + destruct (ev_objects _ _ _ _ _ He1 o' ob' Hob') as (ob1 & Hob1 & _ & _ & Hc).
      destruct (Hk o' ob1 Hin Hob1) as (ob2 & ? & Hk2). exists ob2. split; [done|].
      rewrite Hk2, (ev_ipc _ _ _ _ _ He1). apply acquired_core, Hc. set_solver.
Qed.

(** ** Waking one thread *)

Definition sync_callback (cb : option WakeupCallback) : bool :=
  match cb with None | Some (SyncCallback _) => true | _ => false end.

(** The threads that wait for an object came there through a wait call of the application, and one
    that waits for all of a list of objects names each of them once. *)
Definition sync_waits (s : KState) : Prop :=
  ∀ o ob t th, objects s !! o = Some ob → t ∈ waiting_threads ob → threads s !! t = Some th →
    sync_callback (wakeup_callback th) = true ∧ (status th = WaitSynchAll → NoDup (wait_objects th)).

(** The objects a woken thread acquires. *)
Definition taken (o : Z) (th : Thread) : list Z :=
  if decide (status th ≠ WaitSynchAll) then [o] else wait_objects th.

Record woken (o t : Z) (th : Thread) (s s' : KState) : Prop := {
  wk_other : ∀ t', t' ≠ t → thread_view <$> threads s' !! t' = thread_view <$> threads s !! t';
  wk_thread : ∃ th', threads s' !! t = Some th' ∧ status th' = Ready ∧ wait_objects th' = [] ∧
                core_id th' = core_id th;
  wk_objects : ∀ o1 ob1, objects s !! o1 = Some ob1 → ∃ ob', objects s' !! o1 = Some ob' ∧
    waiting_threads ob' = filter (λ x, x ≠ t) (waiting_threads ob1) ∧
    kind_core (kind ob') = kind_core (if decide (o1 ∈ taken o th) then acquired (ipc s) t (kind ob1) else kind ob1);
  wk_ipc : ipc s' = ipc s }.

(** The states [ResumeFromWait] leaves. *)
Definition resumable (st : ThreadStatus) : bool :=
  match st with Ready | Running | Dead => false | _ => true end.

Definition resumed (th : Thread) : Thread := set_status Ready (set_waiting (wait_objects th) None th).

(** A thread that no waiting list names may become ready. *)
Lemma ResumeFromWait_ok t th s :
  kinv s → threads s !! t = Some th → wait_objects th = [] → resumable (status th) = true →
  (∀ o ob, objects s !! o = Some ob → t ∉ waiting_threads ob) →
  ∃ s', ResumeFromWait t s = Some s' ∧ kinv s' ∧ objects s' = objects s ∧ timing s' = timing s ∧
    threads s' = <[t := resumed th]> (threads s) ∧ arbiters s' = arbiters s ∧
    length (managers s') = length (managers s) ∧ ipc s' = ipc s ∧ system s' = system s.
Proof.
  intros Hi Ht Hw Hs Hno. destruct (ki_threads _ Hi t th Ht) as ([m Hm] & Hc & Hn).
  destruct (ki_queues _ Hi _ _ Hm) as (a & Hrep & Hprep).
  destruct (push_refines NUM_PRIO (ready_queue m) a (current_priority th) (λ l, l ++ [t]))
    as (c & Hcq & Hrep'); [done|by eapply Hprep|].
  unfold ResumeFromWait. rewrite Ht. simpl. rewrite bool_decide_true by done. simpl.
  set (s1 := upd_thread t _ s).
  set (q := set_data (current_priority th) (data c ++ [t]) (ready_queue m)).
  assert (on_ready_queue (core_id th) (push_back (current_priority th) t) s1 =
          Some (set_managers s1 (<[core_id th := with_queue m q]> (managers s)))) as Eq.
  { apply (on_ready_queue_eq _ _ s1 m q); [done|]. unfold push_back. by rewrite Hcq. }
  exists (PrepareReschedule (upd_thread t (set_status Ready)
            (set_managers s1 (<[core_id th := with_queue m q]> (managers s))))).
  split.
  { destruct (status th); try done; rewrite Eq; done. }
  assert (alter (set_status Ready) t (threads s1) =
          <[t := resumed th]> (threads s)) as Ealt.
  { simpl. rewrite (alter_some _ _ _ _ Ht), (alter_some _ _ t (set_waiting (wait_objects th) None th)).
    - by rewrite insert_insert_eq.
    - by rewrite lookup_insert_eq. }
  split_and!; try done; [|by simpl; rewrite length_insert].
  apply PrepareReschedule_inv. unfold upd_thread. simpl in Ealt |- *. rewrite Ealt.
  apply (kinv_requeue s (core_id th) m q a (abs_upd (current_priority th) (λ l, l ++ [t]) a) t th); try done.
  - intros o ob Ho Hin. by destruct (Hno o ob Ho).
  - simpl. by eapply Hprep.
Qed.

(** Replacing a thread whose queues do not change. *)
Lemma kinv_set_thread s t th th' :
  kinv s → threads s !! t = Some th → core_id th' = core_id th →
  (∀ o ob, objects s !! o = Some ob → t ∈ waiting_threads ob →
     waits_for_object (status th') = true ∧ o ∈ wait_objects th') →
  wait_objects th' ⊆ wait_objects th → held_mutexes th' = held_mutexes th →
  nominal_priority th' = nominal_priority th → current_priority th' = current_priority th →
  kinv (set_threads s (<[t := th']> (threads s))).
Proof.
  intros Hi Ht Hcore Hl Hw Hh Hn Hc. destruct (ki_threads _ Hi t th Ht) as ([m Hm] & Hpc & Hpn).
  destruct (ki_queues _ Hi _ _ Hm) as (a & Hrep & Hprep).
  assert (kinv (set_threads (set_managers s (<[core_id th := with_queue m (ready_queue m)]> (managers s)))
                  (<[t := th']> (threads s)))) as H.
  { apply (kinv_requeue s (core_id th) m (ready_queue m) a a t th); rewrite ?Hn, ?Hc; try done.
    by eapply Hprep. }
  assert (with_queue m (ready_queue m) = m) as E by by destruct m.
  rewrite E, list_insert_id in H by done. by destruct s.
Qed.

Lemma SyncCallback_ok cb reason t th object s :
  kinv s → threads s !! t = Some th → (reason = Signal → is_Some object ∧ wait_objects th ≠ []) →
  ∃ s', SyncCallback_WakeUp cb reason t object s = Some s' ∧ same_waits s s' ∧ kinv s' ∧ timing s' = timing s.
Proof.
  intros Hi Ht Hr.
  assert (∀ f s0, kinv s0 → same_waits s s0 → timing s0 = timing s →
            (∀ th, ∃ r0 r1, f th = set_registers r0 r1 th) →
            same_waits s (upd_thread t f s0) ∧ kinv (upd_thread t f s0) ∧
            timing (upd_thread t f s0) = timing s) as Hset.
  { intros f s0 Hi0 Hs0 Ht0 Hf. split_and!; [| |done].
    - eapply same_waits_trans; [done|]. apply upd_thread_same. intros th0. by destruct (Hf th0) as (? & ? & ->).
    - apply kinv_upd_thread; [done|]. intros th0 Hth0. destruct (Hf th0) as (? & ? & ->). split_and!; try done.
      intros m Hm. by eapply (ki_held _ Hi0). }
  unfold SyncCallback_WakeUp. destruct reason.
  - destruct (Hr eq_refl) as [[o ->] Hne]. set (s1 := SetWaitSynchronizationResult t ResultSuccess s).
    assert (same_waits s s1 ∧ kinv s1 ∧ timing s1 = timing s) as (Hs1 & Hi1 & Ht1).
    { apply Hset; [done|apply evolves_refl|done|by eauto]. }
    destruct cb; [|by eauto]. simpl. unfold GetWaitObjectIndex.
    assert (threads s1 !! t = Some (set_registers ResultSuccess (cpu_register1 th) th)) as Eth.
    { simpl. by rewrite lookup_alter_eq, Ht. }
    rewrite Eth. simpl. rewrite bool_decide_false by done. simpl. eexists. split; [done|].
    apply Hset; [done|done|done|by eauto].
  - eexists. split; [done|]. apply Hset; [done|apply evolves_refl|done|by eauto].
Qed.

Section Waking.
Context (other_wakeup : WakeupCallback → ThreadWakeupReason → Z → option Z → KState → option KState).

Lemma take_objects_ok o t th s :
  kinv s → threads s !! t = Some th → o ∈ wait_objects th → ready_to_run o t th s = Some true →
  (status th = WaitSynchAll → NoDup (wait_objects th)) →
  ∃ s', (if decide (status th ≠ WaitSynchAll) then Acquire o t s else acquire_all (wait_objects th) t s)
          = Some s' ∧
    evolves (taken o th) 0 [] s s' ∧ kinv s' ∧ timing s' = timing s ∧
    ∀ o1 ob, o1 ∈ taken o th → objects s !! o1 = Some ob →
      ∃ ob', objects s' !! o1 = Some ob' ∧ kind_core (kind ob') = kind_core (acquired (ipc s) t (kind ob)).
Proof.
  intros Hi Ht Hin Hr Hnd. unfold ready_to_run in Hr.
  destruct (ShouldWait o t s) as [w|] eqn:Ew; [|done]. simpl in Hr. destruct w; [done|].
  unfold taken. destruct (decide (status th ≠ WaitSynchAll)) as [Hst|Hst].
  - destruct (ki_objects _ Hi t th o Ht Hin) as (ob & Ho & _).
    destruct (Acquire_ok o ob t th s Hi Ht Ho Ew) as (s' & E & He & Hi' & Ht').
    exists s'. split_and!; try done. intros o1 ob1 ->%list_elem_of_singleton Ho1. by eapply Acquire_kind.
  - rewrite decide_True in Hr by by apply dec_stable.
    apply (acquire_all_ok (wait_objects th) t th s Hi Ht); [by apply Hnd, dec_stable|].
    intros o1 Ho1. split; [destruct (ki_objects _ Hi t th o1 Ht Ho1) as (ob & ? & _); by eauto|].
    by eapply none_should_wait_spec.
Qed.

Lemma thread_view_eq th th' :
  thread_view th' = thread_view th →
  status th' = status th ∧ wait_objects th' = wait_objects th ∧ core_id th' = core_id th ∧
  wakeup_callback th' = wakeup_callback th.
Proof. unfold thread_view. intros H. by injection H. Qed.

(** Leaving every list and becoming ready. *)
Lemma leave_and_resume t th s :
  kinv s → threads s !! t = Some th → waits_for_object (status th) = true →
  ∃ s' th', (s1 ← remove_from_all (wait_objects th) t s;
             ResumeFromWait t (upd_thread t (λ th, set_waiting [] (wakeup_callback th) th) s1)) = Some s' ∧
    kinv s' ∧ timing s' = timing s ∧ ipc s' = ipc s ∧
    (∀ t', t' ≠ t → thread_view <$> threads s' !! t' = thread_view <$> threads s !! t') ∧
    threads s' !! t = Some th' ∧ status th' = Ready ∧ wait_objects th' = [] ∧ core_id th' = core_id th ∧
    ∀ o ob, objects s !! o = Some ob → ∃ ob', objects s' !! o = Some ob' ∧
      waiting_threads ob' = filter (λ x, x ≠ t) (waiting_threads ob) ∧ kind_core (kind ob') = kind_core (kind ob).
Proof.
  intros Hi Ht Hs.
  destruct (remove_from_all_ok (wait_objects th) t s Hi) as (s1 & E1 & He1 & Hi1 & Ht1).
  { intros o Ho. destruct (ki_objects _ Hi t th o Ht Ho) as (ob & ? & _). by eauto. }
  rewrite E1. simpl. destruct (evolves_thread _ _ _ _ _ _ _ He1 Ht) as (th1 & Hth1 & Hv1).
  apply thread_view_eq in Hv1 as (Hst1 & Hwo1 & Hc1 & _).
  assert (∀ o ob, objects s !! o = Some ob → ∃ ob', objects s1 !! o = Some ob' ∧
      waiting_threads ob' = filter (λ x, x ≠ t) (waiting_threads ob) ∧ kind_core (kind ob') = kind_core (kind ob))
    as Hobj.
  { intros o ob Ho. destruct (ev_objects _ _ _ _ _ He1 o ob Ho) as (ob' & Ho' & Hw & _ & Hk).
    exists ob'. split_and!; [done| |by apply Hk; set_solver]. rewrite Hw. unfold without.
    case_decide as Hin; [done|]. symmetry. apply filter_id. intros Hl.
    destruct (ki_waiters _ Hi o ob t Ho Hl) as (th0 & H0 & _ & Hin'). congruence. }
  assert (∀ o ob, objects s1 !! o = Some ob → t ∉ waiting_threads ob) as Hno.
  { intros o ob Ho Hl. destruct (ki_waiters _ Hi1 o ob t Ho Hl) as (th0 & H0 & _ & Hin).
    assert (th0 = th1) as -> by congruence. rewrite Hwo1 in Hin.
    destruct (ki_objects _ Hi t th o Ht Hin) as (ob0 & Ho0 & _).
    destruct (Hobj o ob0 Ho0) as (ob' & Ho' & Hw & _). assert (ob' = ob) as -> by congruence.
    rewrite Hw in Hl. apply list_elem_of_filter in Hl as [? _]. done. }
  set (s2 := upd_thread t _ s1). set (th2 := set_waiting [] (wakeup_callback th1) th1).
  assert (s2 = set_threads s1 (<[t := th2]> (threads s1))) as Es2.
  { unfold s2, upd_thread. by rewrite (alter_some _ _ _ _ Hth1). }
  assert (kinv s2) as Hi2.
  { rewrite Es2. apply (kinv_set_thread s1 t th1); try done; [|by intros x Hx%elem_of_nil].
    intros o ob Ho Hl. by destruct (Hno o ob Ho). }
  destruct (ResumeFromWait_ok t th2 s2 Hi2) as (s' & E' & Hi' & Ho' & Ht' & Hth' & _ & _ & Hipc' & _).
  { by rewrite Es2; simpl; rewrite lookup_insert_eq. }
  { done. }
  { simpl. rewrite Hst1. by destruct (status th). }
  { by rewrite Es2. }
  exists s', (resumed th2). split_and!; try done.
  - rewrite Ht', Es2. done.
  - rewrite Hipc', Es2. apply (ev_ipc _ _ _ _ _ He1).
  - intros t' Hne. rewrite Hth', Es2. simpl. rewrite !lookup_insert_ne by done.
    apply (ev_threads _ _ _ _ _ He1).
  - rewrite Hth'. by rewrite lookup_insert_eq.
  - rewrite Ho', Es2. done.
Qed.

Lemma wake_one_ok o ob t th s :
  kinv s → sync_waits s → objects s !! o = Some ob → t ∈ waiting_threads ob → threads s !! t = Some th →
  ready_to_run o t th s = Some true →
  ∃ s', wake_one other_wakeup o t s = Some s' ∧ kinv s' ∧ woken o t th s s' ∧ timing s' = timing s.
Proof.
  intros Hi Hsw Ho Hin Ht Hr. destruct (ki_waiters _ Hi o ob t Ho Hin) as (th0 & H0 & Hs & Hw).
  assert (th0 = th) as -> by congruence. clear H0. destruct (Hsw o ob t th Ho Hin Ht) as [Hcb Hnd].
  destruct (take_objects_ok o t th s Hi Ht Hw Hr Hnd) as (s1 & E1 & He1 & Hi1 & Ht1 & Hk1).
  unfold wake_one. rewrite Ht. simpl. rewrite E1. simpl.
  destruct (evolves_thread _ _ _ _ _ _ _ He1 Ht) as (th1 & Hth1 & Hv1).
  assert (∃ s2, (match wakeup_callback th with Some cb => WakeUp other_wakeup cb Signal t (Some o) s1
                 | None => Some s1 end) = Some s2 ∧ same_waits s1 s2 ∧ kinv s2 ∧ timing s2 = timing s1)
    as (s2 & E2 & He2 & Hi2 & Ht2).
  { destruct (wakeup_callback th) as [[b| | |]|] eqn:Ecb; try done; [|by eauto using evolves_refl].
    apply (SyncCallback_ok b Signal t th1); [done|done|]. intros _. split; [by eexists|].
    apply thread_view_eq in Hv1 as (_ & -> & _). intros E. rewrite E in Hw. by apply elem_of_nil in Hw. }
  rewrite E2. simpl. destruct (evolves_thread _ _ _ _ _ _ _ He2 Hth1) as (th2 & Hth2 & Hv2).
  rewrite Hth2. simpl. apply thread_view_eq in Hv1 as (Hst1 & Hwo1 & Hc1 & _).
  apply thread_view_eq in Hv2 as (Hst2 & Hwo2 & Hc2 & _).
  destruct (leave_and_resume t th2 s2 Hi2 Hth2) as (s' & th' & E' & Hi' & Ht' & Hipc & Hoth & Hth' & Hst' & Hw' & Hc' & Hobj).
  { by rewrite Hst2, Hst1. }
  exists s'. split; [done|]. split; [done|]. split; [|congruence]. split.
  - intros t' Hne. rewrite Hoth by done. rewrite (ev_threads _ _ _ _ _ He2). apply (ev_threads _ _ _ _ _ He1).
  - exists th'. split_and!; try done. congruence.
  - intros o1 ob1 Ho1. destruct (ev_objects _ _ _ _ _ He1 o1 ob1 Ho1) as (ob2 & Ho2 & Hw2 & _ & Hn2).
    destruct (ev_objects _ _ _ _ _ He2 o1 ob2 Ho2) as (ob3 & Ho3 & Hw3 & _ & Hn3).
    destruct (Hobj o1 ob3 Ho3) as (ob' & Ho' & Hwt' & Hk'). exists ob'. split; [done|]. split.
    + rewrite Hwt', Hw3, Hw2. done.
    + rewrite Hk', Hn3 by set_solver. destruct (decide (o1 ∈ taken o th)) as [Htk|Htk]; [|by apply Hn2].
      destruct (Hk1 o1 ob1 Htk Ho1) as (ob2' & Ho2' & E). by assert (ob2' = ob2) as -> by congruence.
  - rewrite Hipc, (ev_ipc _ _ _ _ _ He2). apply (ev_ipc _ _ _ _ _ He1).
Qed.

Lemma filter_length_lt (t : Z) (l : list Z) : t ∈ l → (length (filter (λ x, x ≠ t) l) < length l)%nat.
Proof.
  induction l as [|x l IH]; [by intros ?%elem_of_nil|]. intros [->|H]%elem_of_cons; rewrite filter_cons.
  - rewrite decide_False by (intros E; by apply E). simpl. pose proof (length_filter (λ y, y ≠ x) l). lia.
  - case_decide; simpl; specialize (IH H); lia.
Qed.

(** The waits of the threads that stay are those of before. *)
Lemma woken_sync_waits o t th s s' : kinv s' → woken o t th s s' → kinv s → sync_waits s → sync_waits s'.
Proof.
  intros Hi' [Hoth (th' & Ht' & Hst' & Hw' & _) Hobj _] Hi Hsw o1 ob1 t1 th1 Ho1 Hin1 Ht1.
  destruct (ki_waiters _ Hi' o1 ob1 t1 Ho1 Hin1) as (th2 & H2 & Hs2 & Hw2).
  assert (th2 = th1) as -> by congruence. clear H2.
  assert (t1 ≠ t) as Hne. { intros ->. assert (th' = th1) as -> by congruence. by rewrite Hst' in Hs2. }
  pose proof (Hoth t1 Hne) as E. rewrite Ht1 in E. destruct (threads s !! t1) as [th0|] eqn:Ht0; [|done].
  simpl in E. apply (inj Some) in E. apply thread_view_eq in E as (Est & Ewo & _ & Ecb).
  rewrite Ewo in Hw2. destruct (ki_objects _ Hi t1 th0 o1 Ht0 Hw2) as (ob0 & Ho0 & _).
  destruct (Hobj o1 ob0 Ho0) as (ob' & Ho' & Hwt & _). assert (ob' = ob1) as -> by congruence.
  rewrite Hwt in Hin1. apply list_elem_of_filter in Hin1 as [_ Hin1].
  destruct (Hsw o1 ob0 t1 th0 Ho0 Hin1 Ht0) as [Hcb Hnd]. by rewrite Ecb, Est, Ewo.
Qed.

(** The loop keeps what every round keeps, and ends when no waiter of the object can run. *)
Lemma wakeup_loop_ok (P : KState → Prop) o fuel ob s :
  (∀ s s' ob t th, P s → kinv s → objects s !! o = Some ob → t ∈ waiting_threads ob →
     threads s !! t = Some th → ready_to_run o t th s = Some true → woken o t th s s' → P s') →
  kinv s → sync_waits s → P s → objects s !! o = Some ob → (length (waiting_threads ob) <= fuel)%nat →
  ∃ s' ob', wakeup_loop other_wakeup fuel o s = Some s' ∧ kinv s' ∧ sync_waits s' ∧ P s' ∧
    timing s' = timing s ∧ objects s' !! o = Some ob' ∧ waiting_threads ob' `sublist_of` waiting_threads ob ∧
    ∀ t p, t ∈ waiting_threads ob' → ~ runnable s' o t p.
Proof.
  intros HP. revert s ob. induction fuel as [|fuel IH]; intros s ob Hi Hsw Hs Ho Hf;
    destruct (GetHighestPriorityReadyThread_ok s o ob Hi Ho) as (r & Er & Hr); simpl; rewrite Er; simpl.
  - destruct r as [t|]; [|by eauto 10]. destruct Hr as (l1 & l2 & p & El & _). exfalso.
    rewrite El, length_app in Hf. simpl in Hf. lia.
  - destruct r as [t|]; [|by eauto 10]. destruct Hr as (l1 & l2 & p & El & (th & Ht & Hrun & _) & _).
    assert (t ∈ waiting_threads ob) as Hin by (rewrite El; set_solver).
    destruct (wake_one_ok o ob t th s Hi Hsw Ho Hin Ht Hrun) as (s1 & E1 & Hi1 & Hwk & Ht1).
    rewrite E1. simpl. destruct (wk_objects _ _ _ _ _ Hwk o ob Ho) as (ob1 & Ho1 & Hw1 & _).
    destruct (IH s1 ob1) as (s' & ob' & E' & Hi' & Hsw' & HP' & Ht' & Ho' & Hsub & Hno); try done.
    + by eapply woken_sync_waits.
    + by eapply HP.
    + rewrite Hw1. pose proof (filter_length_lt t (waiting_threads ob) Hin). lia.
    + exists s', ob'. split_and!; try done; [congruence|]. etrans; [done|]. rewrite Hw1. apply sublist_filter.
Qed.

(** Waking the waiters of [o]: some of them become ready and wait for nothing (so that, by the
    invariant, no list names them), the other threads stay as they are. *)
Definition wakes_only (o : Z) (s s' : KState) : Prop :=
  ∀ t, thread_view <$> threads s' !! t = thread_view <$> threads s !! t ∨
    (∃ ob th', objects s !! o = Some ob ∧ t ∈ waiting_threads ob ∧ threads s' !! t = Some th' ∧
       status th' = Ready ∧ wait_objects th' = []).

Lemma wakes_only_view o s s1 s2 t :
  wakes_only o s s1 → thread_view <$> threads s2 !! t = thread_view <$> threads s1 !! t →
  thread_view <$> threads s2 !! t = thread_view <$> threads s !! t ∨
    (∃ ob th', objects s !! o = Some ob ∧ t ∈ waiting_threads ob ∧ threads s2 !! t = Some th' ∧
       status th' = Ready ∧ wait_objects th' = []).
Proof.
  intros H E. destruct (H t) as [E1|(ob & th1 & Ho & Hin & Ht1 & Hs & Hw)]; [left; congruence|].
  right. rewrite Ht1 in E. destruct (threads s2 !! t) as [th2|] eqn:Ht2; [|done]. simpl in E.
  apply (inj Some), thread_view_eq in E as (E1 & E2 & _). exists ob, th2. by rewrite E1, E2.
Qed.


(** ** Events

    What signalling an event does to the threads that wait for it alone. *)

Lemma wakes_kinv_event o rt b ob s :
  kinv s → sync_waits s → objects s !! o = Some ob → kind_class (kind ob) = 3%nat →
  let s1 := upd_object o (set_kind (KEvent rt b)) s in
  kinv s1 ∧ sync_waits s1 ∧ objects s1 !! o = Some (mkObject (waiting_threads ob) (KEvent rt b)).
Proof.
  intros Hi Hsw Ho Hk s1. split_and!.
  - apply kinv_set_kind; [done| |done|done]. intros ob' Ho'. by assert (ob' = ob) as -> by congruence.
  - intros o1 ob1 t th Ho1. simpl in Ho1. rewrite lookup_alter in Ho1. case_decide; [|by apply (Hsw o1)].
    subst o1. rewrite Ho in Ho1. injection Ho1 as <-. by apply (Hsw o ob).
  - simpl. by rewrite lookup_alter_eq, Ho.
Qed.

Lemma event_ready s o ob rt b t th :
  objects s !! o = Some ob → kind ob = KEvent rt b → status th ≠ WaitSynchAll →
  ready_to_run o t th s = Some b.
Proof.
  intros Ho Hk Hs. unfold ready_to_run, ShouldWait. rewrite Ho. simpl. rewrite Hk. simpl.
  destruct b; simpl; [|done]. by rewrite decide_False.
Qed.

(** A signalled event that is not one-shot stays signalled while its waiters are woken. *)
Lemma latched_loop_ok o rt ob s fuel :
  rt ≠ OneShot → kinv s → sync_waits s → objects s !! o = Some ob → kind ob = KEvent rt true →
  (∀ t th, t ∈ waiting_threads ob → threads s !! t = Some th → status th ≠ WaitSynchAll) →
  (length (waiting_threads ob) <= fuel)%nat →
  ∃ s' ob', wakeup_loop other_wakeup fuel o s = Some s' ∧ kinv s' ∧ sync_waits s' ∧
    objects s' !! o = Some ob' ∧ waiting_threads ob' = [] ∧ kind ob' = KEvent rt true.
Proof.
  intros Hrt Hi Hsw Ho Hk Hall Hf.
  destruct (wakeup_loop_ok (λ s', ∃ ob', objects s' !! o = Some ob' ∧ kind ob' = KEvent rt true ∧
      ∀ t th, t ∈ waiting_threads ob' → threads s' !! t = Some th → status th ≠ WaitSynchAll)
    o fuel ob s) as (s' & ob' & E & Hi' & Hsw' & (ob1 & Ho1 & Hk' & Hall') & _ & Ho' & _ & Hno); try done.
  - intros s1 s2 ob1 t th (ob1' & Ho1' & Hk1 & Hall1) Hi1 Ho1 Hin Ht Hr [Hoth (th' & Ht' & _) Hobj _].
    assert (ob1' = ob1) as -> by congruence. destruct (Hobj o ob1 Ho1) as (ob2 & Ho2 & Hw2 & Hk2).
    exists ob2. split; [done|]. split.
    + assert (acquired (ipc s1) t (KEvent rt true) = KEvent rt true) as Ea by (simpl; by rewrite decide_False).
      rewrite Hk1, Ea in Hk2. case_decide; simpl in Hk2; by destruct (kind ob2).
    + intros t2 th2 Hin2 Ht2. rewrite Hw2 in Hin2. apply list_elem_of_filter in Hin2 as [Hne Hin2].
      specialize (Hoth t2 Hne). rewrite Ht2 in Hoth. destruct (threads s1 !! t2) as [th1|] eqn:Ht1; [|done].
      simpl in Hoth. apply (inj Some), thread_view_eq in Hoth as (-> & _). by eapply Hall1.
  - by exists ob.
  - assert (ob1 = ob') as -> by congruence. exists s', ob'. split_and!; try done.
    destruct (waiting_threads ob') as [|t l] eqn:El; [done|]. exfalso.
    assert (t ∈ waiting_threads ob') as Hin by (rewrite El; by left).
    destruct (ki_waiters _ Hi' o ob' t Ho' Hin) as (th & Ht & _). rewrite <- El in Hno, Hall'.
    apply (Hno t (current_priority th) Hin). exists th. split_and!; [done| |done].
    eapply event_ready; [done..|]. by eapply Hall'.
Qed.

(** [t] comes first among the waiters of best priority. *)
Definition first_best (s : KState) (l1 : list Z) (t : Z) (l2 : list Z) : Prop :=
  ∃ th, threads s !! t = Some th ∧
    (∀ t' th', t' ∈ l1 → threads s !! t' = Some th' → (current_priority th < current_priority th')%nat) ∧
    (∀ t' th', t' ∈ l2 → threads s !! t' = Some th' → (current_priority th <= current_priority th')%nat).

(** An object that one acquisition makes unavailable to the others (a signalled one-shot event, a
    free mutex) wakes one thread. *)
Definition exclusive (k : ObjectKind) : bool :=
  match k with
  | KMutex lock_count _ _ => lock_count =? 0
  | KEvent reset_type signaled => bool_decide (reset_type = OneShot) && signaled
  | KTimer reset_type signaled _ _ _ => bool_decide (reset_type = OneShot) && signaled
  | KSemaphore _ available => available =? 1
  | KThread | KServerSession _ _ _ _ _ | KServerPort _ _ => false
  end.

Lemma exclusive_free o ob t s :
  objects s !! o = Some ob → exclusive (kind ob) = true → ShouldWait o t s = Some false.
Proof.
  intros Ho Hx. unfold ShouldWait. rewrite Ho. simpl. destruct (kind ob) as [|lc p h|mx av| | | |]; simpl in Hx; destruct_bools; simplify_eq/=; try done;
    by apply Z.eqb_eq in Hx as ->.
Qed.

Lemma exclusive_taken o ob' i k t t' s :
  objects s !! o = Some ob' → exclusive k = true → kind_core (kind ob') = kind_core (acquired i t k) → t' ≠ t →
  ShouldWait o t' s = Some true.
Proof.
  intros Ho Hx Hk Hne. unfold ShouldWait. rewrite Ho. simpl.
  destruct k; simpl in Hx; destruct_bools; try done; try apply Z.eqb_eq in Hx as ->; simplify_eq/=;
    destruct (kind ob'); simplify_eq/=; try done.
  rewrite bool_decide_false; [done|]. naive_solver.
Qed.

Lemma exclusive_loop_ok o ob s fuel :
  kinv s → sync_waits s → objects s !! o = Some ob → exclusive (kind ob) = true →
  (∀ t th, t ∈ waiting_threads ob → threads s !! t = Some th → status th ≠ WaitSynchAll) →
  (length (waiting_threads ob) <= fuel)%nat →
  ∃ s' ob', wakeup_loop other_wakeup fuel o s = Some s' ∧ kinv s' ∧ objects s' !! o = Some ob' ∧
    ((waiting_threads ob = [] ∧ waiting_threads ob' = [] ∧ kind ob' = kind ob) ∨
     ∃ l1 t l2, waiting_threads ob = l1 ++ t :: l2 ∧ waiting_threads ob' = l1 ++ l2 ∧
       kind_core (kind ob') = kind_core (acquired (ipc s) t (kind ob)) ∧ first_best s l1 t l2).
Proof.
  intros Hi Hsw Ho Hx Hall Hf.
  assert (∀ t th, t ∈ waiting_threads ob → threads s !! t = Some th → runnable s o t (current_priority th)) as Hrun.
  { intros t th Hin Ht. exists th. split_and!; [done| |done]. unfold ready_to_run.
    rewrite (exclusive_free o ob) by done. simpl. rewrite decide_False; [done|]. by eapply Hall. }
  destruct (GetHighestPriorityReadyThread_ok s o ob Hi Ho) as ([t|] & Er & Hr).
  - destruct Hr as (l1 & l2 & p & El & (th & Ht & Hr & <-) & Hl1 & Hl2).
    assert (t ∈ waiting_threads ob) as Hin by (rewrite El; set_solver).
    destruct (wake_one_ok o ob t th s Hi Hsw Ho Hin Ht Hr) as (s' & E' & Hi' & Hwk & _).
    destruct (wk_objects _ _ _ _ _ Hwk o ob Ho) as (ob' & Ho' & Hw' & Hk').
    unfold taken in Hk'. rewrite (decide_True (P := status th ≠ WaitSynchAll)) in Hk' by by eapply Hall.
    rewrite decide_True in Hk' by set_solver.
    exists s', ob'. destruct fuel as [|fuel]; [rewrite El, length_app in Hf; simpl in Hf; lia|].
    simpl. rewrite Er. simpl. rewrite E'. simpl.
    assert (GetHighestPriorityReadyThread o s' = Some None) as Enone.
    { destruct (GetHighestPriorityReadyThread_ok s' o ob' Hi' Ho') as ([t2|] & -> & Hr2); [|done].
      destruct Hr2 as (l1' & l2' & p & El2 & (th2 & _ & Hr2 & _) & _). exfalso.
      assert (t2 ∈ waiting_threads ob') as Hin2 by (rewrite El2; set_solver).
      rewrite Hw' in Hin2. apply list_elem_of_filter in Hin2 as [Hne _].
      unfold ready_to_run in Hr2. by rewrite (exclusive_taken o ob' (ipc s) (kind ob) t) in Hr2. }
    split_and!; [destruct fuel; simpl; by rewrite Enone|done|done|]. right. exists l1, t, l2.
    split_and!; try done.
    + rewrite Hw', El. pose proof (ki_nodup _ Hi o ob Ho) as Hnd. rewrite El in Hnd.
      apply NoDup_app in Hnd as (_ & Hd & [Hn _]%NoDup_cons). rewrite filter_app, filter_cons.
      rewrite decide_False by (intros E; by apply E). rewrite !filter_id; [done|done|].
      intros Hin1. by apply (Hd t Hin1), list_elem_of_here.
    + exists th. split; [done|]. split; intros t' th' Hin' Ht'; [eapply Hl1|eapply Hl2]; try done;
        (apply Hrun; [rewrite El; set_solver|done]).
  - exists s, ob. split; [destruct fuel; simpl; by rewrite Er|]. split; [done|]. split; [done|]. left.
    destruct (waiting_threads ob) as [|t l] eqn:El; [done|]. exfalso.
    destruct (ki_waiters _ Hi o ob t Ho) as (th & Ht & _); [rewrite El; by left|].
    apply (Hr t (current_priority th)); [by left|]. apply Hrun; [by left|done].
Qed.

(** Signalling an event that threads wait for with [WaitSynchronization1] or for any of
    several objects.  A sticky or pulsed event wakes every one of them, and stays signalled when it
    is sticky and is reset when it is pulsed.  A one-shot event nobody waits for stays signalled;
    otherwise it wakes exactly one thread, the first on the list of those with the best priority,
    and is reset; the others keep waiting in their order. *)
Theorem event_signal_spec (o : Z) (ob : WaitObject) (rt : ResetType) (sg : bool) (s : KState) :
  kinv s → sync_waits s → objects s !! o = Some ob → kind ob = KEvent rt sg →
  (∀ t th, t ∈ waiting_threads ob → threads s !! t = Some th → status th ≠ WaitSynchAll) →
  ∃ s' ob', Event_Signal other_wakeup o s = Some s' ∧ kinv s' ∧ objects s' !! o = Some ob' ∧
    match rt with
    | Sticky => waiting_threads ob' = [] ∧ kind ob' = KEvent rt true
    | Pulse => waiting_threads ob' = [] ∧ kind ob' = KEvent rt false
    | OneShot =>
        (waiting_threads ob = [] ∧ waiting_threads ob' = [] ∧ kind ob' = KEvent rt true) ∨
        ∃ l1 t l2, waiting_threads ob = l1 ++ t :: l2 ∧ waiting_threads ob' = l1 ++ l2 ∧
          kind ob' = KEvent rt false ∧ first_best s l1 t l2
    end.
Proof.
  intros Hi Hsw Ho Hk Hall. unfold Event_Signal. rewrite Ho. simpl. rewrite Hk.
  destruct (wakes_kinv_event o rt true ob s) as (Hi1 & Hsw1 & Ho1); try done; [by rewrite Hk|].
  set (s1 := upd_object o (set_kind (KEvent rt true)) s) in *. set (ob1 := mkObject _ _) in Ho1.
  assert (threads s1 = threads s) as Et by done. unfold first_best. rewrite <- Et in Hall |- *.
  unfold WakeupAllWaitingThreads, WaitObject_WakeupAllWaitingThreads. rewrite Ho1. simpl.
  destruct (decide (rt = OneShot)) as [->|Hrt].
  - destruct (exclusive_loop_ok o ob1 s1 (length (waiting_threads ob))) as (s' & ob' & E & Hi' & Ho' & Hor);
      try done. rewrite E. simpl. rewrite Ho'. simpl. exists s', ob'.
    destruct Hor as [(? & ? & Hk')|(l1 & t & l2 & ? & ? & Hk' & ?)].
    + rewrite Hk'. split; [done|]. split; [done|]. split; [done|]. by left.
    + assert (kind ob' = KEvent OneShot false) as Hk2 by (by destruct (kind ob')). rewrite Hk2.
      split; [done|]. split; [done|]. split; [done|]. right. by exists l1, t, l2.
  - destruct (latched_loop_ok o rt ob1 s1 (length (waiting_threads ob)))
      as (s' & ob' & E & Hi' & Hsw' & Ho' & Hw' & Hk'); try done.
    rewrite E. simpl. rewrite Ho'. simpl. rewrite Hk'. destruct rt; [done|by eauto 10|].
    destruct (wakes_kinv_event o Pulse false ob' s') as (Hi2 & Hsw2 & Ho2); try done; [by rewrite Hk'|].
    eexists _, _. split; [done|]. split; [done|]. split; [done|]. by rewrite Hw'.
Qed.

End Waking.

(** ** Joining a waiting list *)

Definition with_waiter (t : Z) (l : list Z) : list Z := if decide (t ∈ l) then l else l ++ [t].

(** The step keeps every thread where it is and puts [t] on the list of [o]. *)
Record joins (o t : Z) (s s' : KState) : Prop := {
  jn_threads : ∀ t', thread_view <$> threads s' !! t' = thread_view <$> threads s !! t';
  jn_objects : ∀ o1 ob, objects s !! o1 = Some ob → ∃ ob', objects s' !! o1 = Some ob' ∧
    waiting_threads ob' = (if decide (o1 = o) then with_waiter t (waiting_threads ob) else waiting_threads ob) ∧
    kind_core (kind ob') = kind_core (kind ob) }.

Lemma list_waiter_ok o t th ob s :
  kinv s → objects s !! o = Some ob → threads s !! t = Some th →
  waits_for_object (status th) = true → o ∈ wait_objects th →
  ∃ s', WaitObject_AddWaitingThread o t s = Some s' ∧ kinv s' ∧ joins o t s s' ∧ threads s' = threads s ∧
    timing s' = timing s ∧
    objects s' !! o = Some (set_waiters (with_waiter t (waiting_threads ob)) ob).
Proof.
  intros Hi Ho Ht Hs Hw. unfold WaitObject_AddWaitingThread, with_waiter. rewrite Ho. simpl.
  case_decide as Hin.
  - exists s. split_and!; try done; [|by destruct ob]. split; [done|]. intros o1 ob1 Ho1. exists ob1.
    split_and!; try done. case_decide; [|done]. subst o1. assert (ob1 = ob) as -> by congruence.
    unfold with_waiter. by rewrite decide_True.
  - eexists. split; [done|]. split; [|split; [|split_and!]]; try done.
    + eapply kinv_set_waiters; [done..| |].
      * apply NoDup_app. split_and!; [by eapply (ki_nodup _ Hi)| |apply NoDup_singleton]. set_solver.
      * intros t' [Hin'|Hin']%elem_of_app; [by eapply (ki_waiters _ Hi)|].
        apply list_elem_of_singleton in Hin' as ->. by exists th.
    + split; [done|]. intros o1 ob1 Ho1. simpl. rewrite lookup_alter. case_decide.
      * subst o1. assert (ob1 = ob) as -> by congruence. rewrite Ho. eexists. split_and!; try done.
        simpl. rewrite decide_True by done. unfold with_waiter. by rewrite decide_False.
      * exists ob1. split_and!; try done. rewrite decide_False; done.
    + simpl. by rewrite lookup_alter_eq, Ho.
Qed.

Lemma joins_same o t s1 s2 s3 : joins o t s1 s2 → same_waits s2 s3 → joins o t s1 s3.
Proof.
  intros [A1 B1] [A2 B2 _ _]. split.
  - intros t'. by rewrite A2, A1.
  - intros o1 ob Ho. destruct (B1 o1 ob Ho) as (ob1 & H1 & Hw1 & Hk1).
    destruct (B2 o1 ob1 H1) as (ob2 & H2 & Hw2 & _ & Hk2). exists ob2. split_and!; [done|by rewrite Hw2, Hw1|].
    rewrite Hk2 by set_solver. done.
Qed.

Lemma AddWaitingThread_ok o t th ob s :
  kinv s → objects s !! o = Some ob → threads s !! t = Some th →
  waits_for_object (status th) = true → o ∈ wait_objects th →
  ∃ s', AddWaitingThread o t s = Some s' ∧ kinv s' ∧ joins o t s s' ∧ timing s' = timing s.
Proof.
  intros Hi Ho Ht Hs Hw. unfold AddWaitingThread. rewrite Ho. simpl.
  destruct (list_waiter_ok o t th ob s Hi Ho Ht Hs Hw) as (s1 & E1 & Hi1 & Hj1 & Ht1 & Htm1 & Ho1).
  rewrite E1. simpl. destruct (kind ob) as [|lc p h| | | | |] eqn:Ek; try by eauto.
  set (s2 := upd_thread t _ s1).
  assert (kinv s2) as Hi2.
  { apply kinv_upd_thread; [done|]. intros th' Ht'. split_and!; [done..|]. intros m Hm.
    by eapply (ki_held _ Hi1). }
  destruct (Mutex_UpdatePriority_ok o _ s2 Hi2 Ho1) as (s' & E & Hs' & Hi' & Ht'); [by simpl; rewrite Ek|].
  exists s'. split_and!; [done|done| |by rewrite Ht', <- Htm1]. eapply joins_same; [done|]. eapply same_waits_trans; [|done].
  by apply upd_thread_same.
Qed.

(** ** Priority inheritance *)

Lemma Mutex_UpdatePriority_boosts m ob lc p h thh s :
  kinv s → objects s !! m = Some ob → kind ob = KMutex lc p (Some h) →
  threads s !! h = Some thh → m ∈ held_mutexes thh → (current_priority thh <= p)%nat →
  ∃ s' thh', Mutex_UpdatePriority m s = Some s' ∧ threads s' !! h = Some thh' ∧
    ∀ w thw, w ∈ waiting_threads ob → threads s' !! w = Some thw →
      (current_priority thh' <= current_priority thw)%nat.
Proof.
  intros Hi Ho Hk Hh Hheld Hp. unfold Mutex_UpdatePriority. rewrite Ho. simpl. rewrite Hk.
  destruct (best_waiter_ok s (waiting_threads ob) ThreadPrioLowest) as (b & E & Hb & _ & _ & Hall);
    [by eapply waiter_priorities|unfold prio_ok, NUM_PRIO, ThreadPrioLowest; lia|].
  rewrite E. simpl. case_decide as Hne.
  - set (s1 := upd_object m _ s).
    assert (kinv s1) as Hi1.
    { apply kinv_set_kind; [done| | |done].
      - intros ob' Ho'. assert (ob' = ob) as -> by congruence. by rewrite Hk.
      - intros lc' p' h' [= <- <- <-]. split; [done|]. intros t [= <-]. by eexists. }
    destruct (UpdatePriority_ok h thh s1 Hi1 Hh) as (s' & b' & E' & _ & _ & _ & _ & Ht' & Hbest).
    destruct (best_held_ok s1 (held_mutexes thh) (nominal_priority thh)) as (b2 & E2 & _ & _ & Hmin).
    { intros m' Hm'. by eapply held_priorities. }
    { by eapply (ki_threads _ Hi). }
    assert (b2 = b') as -> by congruence.
    assert (b' <= b)%nat as Hle.
    { apply (Hmin m b Hheld). unfold mutex_priority. simpl. by rewrite lookup_alter_eq, Ho. }
    exists s', (set_priorities (nominal_priority thh) b' thh). split; [done|]. rewrite Ht'.
    split; [by rewrite lookup_insert_eq|]. intros w thw Hin. simpl. rewrite lookup_insert. case_decide.
    + by intros [= <-].
    + intros Hw. specialize (Hall w thw Hin Hw). lia.
  - subst b. exists s, thh. split_and!; [done|done|]. intros w thw Hin Hw.
    specialize (Hall w thw Hin Hw). lia.
Qed.

(** When a thread starts to wait for a mutex that another thread holds, the holder runs at
    least at the priority of every thread that now waits for the mutex, the new one included. *)
Theorem mutex_wait_boosts_holder (m t h : Z) (ob : WaitObject) (lc : Z) (p : nat) (th thh : Thread) (s : KState) :
  kinv s → objects s !! m = Some ob → kind ob = KMutex lc p (Some h) →
  threads s !! h = Some thh → m ∈ held_mutexes thh → (current_priority thh <= p)%nat →
  threads s !! t = Some th → waits_for_object (status th) = true → m ∈ wait_objects th →
  ∃ s' ob' thh', AddWaitingThread m t s = Some s' ∧ kinv s' ∧
    objects s' !! m = Some ob' ∧ t ∈ waiting_threads ob' ∧ threads s' !! h = Some thh' ∧
    ∀ w thw, w ∈ waiting_threads ob' → threads s' !! w = Some thw →
      (current_priority thh' <= current_priority thw)%nat.
Proof.
  intros Hi Ho Hk Hh Hheld Hp Ht Hs Hw.
  destruct (AddWaitingThread_ok m t th ob s Hi Ho Ht Hs Hw) as (s' & E & Hi' & [_ Hj] & _).
  destruct (Hj m ob Ho) as (ob' & Ho' & Hw' & _). rewrite decide_True in Hw' by done.
  assert (t ∈ waiting_threads ob') as Htin.
  { rewrite Hw'. unfold with_waiter. case_decide; set_solver. }
  unfold AddWaitingThread in E. rewrite Ho in E. simpl in E.
  destruct (list_waiter_ok m t th ob s Hi Ho Ht Hs Hw) as (s1 & E1 & Hi1 & _ & Ht1 & _ & Ho1).
  rewrite E1, Hk in E. simpl in E. set (s2 := upd_thread t _ s1) in E.
  assert (kinv s2) as Hi2.
  { apply kinv_upd_thread; [done|]. intros th' Ht'. split_and!; [done..|]. intros m' Hm.
    by eapply (ki_held _ Hi1). }
  set (thh2 := if decide (t = h) then set_mutexes (held_mutexes thh) (flat_set_insert m (pending_mutexes thh)) thh
               else thh).
  assert (threads s2 !! h = Some thh2) as Hh2.
  { unfold thh2. simpl. rewrite Ht1, lookup_alter. case_decide; [|done]. subst h. rewrite Ht in Hh |- *.
    by injection Hh as ->. }
  destruct (Mutex_UpdatePriority_boosts m _ lc p h thh2 s2 Hi2 Ho1) as (s3 & thh' & E3 & Hh3 & Hall);
    [by simpl|done|by unfold thh2; case_decide..|].
  assert (s3 = s') as -> by congruence. exists s', ob', thh'. split_and!; try done.
  - unfold AddWaitingThread. rewrite Ho. simpl. by rewrite E1, Hk.
  - intros w thw Hin. apply Hall. simpl. by rewrite <- Hw'.
Qed.

(** ** Releasing a mutex *)

Section Release.
Context (other_wakeup : WakeupCallback → ThreadWakeupReason → Z → option Z → KState → option KState).

Lemma sync_waits_evolves ch s s' : kinv s → evolves ch 0 [] s s' → kinv s' → sync_waits s → sync_waits s'.
Proof.
  intros Hi He Hi' Hsw o ob t th Ho Hin Ht.
  destruct (evolves_thread_inv _ _ _ _ _ _ _ He Ht) as (th0 & Ht0 & Hv).
  destruct (ki_waiters _ Hi' o ob t Ho Hin) as (th1 & H1 & _ & Hw). assert (th1 = th) as -> by congruence.
  apply thread_view_eq in Hv as (Est & Ewo & _ & Ecb). rewrite Ewo in Hw.
  destruct (ki_objects _ Hi t th0 o Ht0 Hw) as (ob0 & Ho0 & _).
  destruct (ev_objects _ _ _ _ _ He o ob0 Ho0) as (ob' & Ho' & Hwt & _).
  assert (ob' = ob) as -> by congruence. rewrite Ecb, Est, Ewo. apply (Hsw o ob0 t); try done.
  by rewrite Hwt in Hin.
Qed.

(** The mutex of a thread that fully releases it: nobody holds it, its lists are as before. *)
Lemma mutex_freed m t th ob p s :
  kinv s → sync_waits s → objects s !! m = Some ob → kind ob = KMutex 1 p (Some t) → threads s !! t = Some th →
  ∃ s2 s3, UpdatePriority t
      (upd_thread t (λ th, set_mutexes (flat_set_erase m (held_mutexes th)) (pending_mutexes th) th)
         (upd_object m (set_kind (KMutex 0 p (Some t))) s)) = Some s2 ∧
    s3 = upd_object m (set_kind (KMutex 0 p None)) s2 ∧ kinv s3 ∧ sync_waits s3 ∧ evolves [m] 0 [] s s3 ∧
    objects s3 !! m = Some (mkObject (waiting_threads ob) (KMutex 0 p None)) ∧
    ∀ t', t' ≠ t → threads s3 !! t' = threads s !! t'.
Proof.
  intros Hi Hsw Ho Hk Ht. set (s0 := upd_object m _ s).
  destruct (ki_mutex _ Hi m ob 1 p (Some t) Ho Hk) as [Hp _].
  assert (∀ ob', objects s !! m = Some ob' → kind_class (KMutex 0 p (Some t)) = kind_class (kind ob')) as Hc0.
  { intros ob' Ho'. assert (ob' = ob) as -> by congruence. by rewrite Hk. }
  assert (kinv s0) as Hi0.
  { apply kinv_set_kind; [done|done| |done]. intros lc p' h [= <- <- <-]. split; [done|]. intros t' [= <-]. by eexists. }
  set (s1 := upd_thread t _ s0).
  assert (kinv s1) as Hi1.
  { apply kinv_upd_thread; [done|]. intros th1 Ht1. split_and!; [done..|]. intros m1 Hm1.
    apply (ki_held _ Hi0 t th1 m1 Ht1). simpl in Hm1. unfold flat_set_erase in Hm1.
    apply list_elem_of_In, List.filter_In in Hm1 as [Hm1 _]. by apply list_elem_of_In. }
  assert (evolves [m] 0 [] s s1) as He1.
  { apply (evolves_trans [m] [] 0 [] [] s s0); [by apply upd_kind_evolves|by apply upd_thread_same]. }
  destruct (evolves_thread _ _ _ _ _ _ _ He1 Ht) as (th1 & Ht1 & _).
  destruct (UpdatePriority_ok t th1 s1 Hi1 Ht1) as (s2 & b & E2 & He2 & Hi2 & Hob2 & _ & Hth2 & _).
  exists s2, (upd_object m (set_kind (KMutex 0 p None)) s2). split; [done|]. split; [done|].
  assert (objects s2 !! m = Some (mkObject (waiting_threads ob) (KMutex 0 p (Some t)))) as Ho2.
  { rewrite Hob2. simpl. by rewrite lookup_alter_eq, Ho. }
  assert (∀ ob', objects s2 !! m = Some ob' → kind_class (KMutex 0 p None) = kind_class (kind ob')) as Hc2.
  { intros ob' Ho'. rewrite Ho2 in Ho'. by injection Ho' as <-. }
  set (s3 := upd_object m _ s2).
  assert (kinv s3) as Hi3.
  { apply kinv_set_kind; [done|done| |done]. intros lc p' h [= <- <- <-]. by split. }
  assert (evolves [m] 0 [] s s3) as He3.
  { apply (evolves_mono ([m] ++ [m])); [|set_solver]. apply (evolves_trans [m] [m] 0 [] [] s s2).
    - apply (evolves_trans [m] [] 0 [] [] s s1); done.
    - by apply upd_kind_evolves. }
  split; [done|]. split; [exact (sync_waits_evolves _ _ _ Hi He3 Hi3 Hsw)|]. split; [done|]. split.
  - simpl. by rewrite lookup_alter_eq, Ho2.
  - intros t' Hne. simpl. rewrite Hth2, lookup_insert_ne by done. simpl. by rewrite lookup_alter_ne.
Qed.


End Release.

(** ** Examples

    Thread 1 runs and may hold the object 100; the threads 2 and 3 wait for it. *)
Module Examples.

Definition demo_thread (id : Z) (st : ThreadStatus) (p : nat) (held waits : list Z) : Thread :=
  mkThread id st p p held [] waits 0 (match st with WaitSynchAny => Some (SyncCallback false) | _ => None end)
    0 0 0 0 0 0 Application 0.

Definition demo_queue : ThreadQueueList Z :=
  default (tql_new NUM_PRIO)
    (q ← prepare 10 (tql_new NUM_PRIO); q ← prepare 20 q; prepare 30 q).

Lemma demo_queue_ok :
  ∃ a, rep NUM_PRIO demo_queue a ∧ ∀ p, p ∈ [10; 20; 30]%nat → p ∈ prepared a.
Proof.
  destruct (prepare_refines NUM_PRIO (tql_new NUM_PRIO) (abs_new (T := Z) NUM_PRIO) 10 (rep_new NUM_PRIO))
    as (q1 & E1 & H1); [unfold NUM_PRIO, ThreadPrioLowest; lia|].
  destruct (prepare_refines NUM_PRIO q1 _ 20 H1) as (q2 & E2 & H2); [unfold NUM_PRIO, ThreadPrioLowest; lia|].
  destruct (prepare_refines NUM_PRIO q2 _ 30 H2) as (q3 & E3 & H3); [unfold NUM_PRIO, ThreadPrioLowest; lia|].
  assert (demo_queue = q3) as ->.
  { unfold demo_queue. rewrite E1. simpl. rewrite E2. simpl. by rewrite E3. }
  eexists. split; [exact H3|]. simpl. intros p Hp. set_solver.
Qed.

Definition demo (k : ObjectKind) (held : list Z) : KState :=
  mkK (list_to_map [(1, demo_thread 1 Running 30 held []); (2, demo_thread 2 WaitSynchAny 20 [] [100]);
                    (3, demo_thread 3 WaitSynchAny 10 [] [100])])
      (list_to_map [(100, mkObject [2; 3] k)]) ∅
      [mkManager (Some 1) demo_queue ∅ [1; 2; 3]]
      (Timing_new 1 0) false Single
      (mkLimiter false false 0 false []) (mkLimiter false false 0 false []) Kernel.Examples.no_ipc Kernel.Examples.no_system ∅.

Ltac cases_in H :=
  simpl in H; repeat (apply lookup_insert_Some in H as [[<- <-]|[_ H]]; [|try by rewrite lookup_empty in H]).

Lemma demo_inv k held :
  (∀ m, m ∈ held → m = 100 ∧ is_mutex k = true) →
  (∀ lc p h, k = KMutex lc p h → prio_ok p ∧ (h = Some 1 ∨ h = None)) → (0 < kind_class k < 5)%nat →
  kinv (demo k held).
Proof.
  intros Hheld Hk Hcl. split; simpl.
  - intros core m Hm. destruct core; [|done]. simpl in Hm. injection Hm as <-.
    destruct demo_queue_ok as (a & Ha & Hp). exists a. split; [done|]. intros t th Ht _.
    simpl in Ht. cases_in Ht; apply Hp; set_solver.
  - intros t th Ht. cases_in Ht; (split; [by eexists|split; vm_compute; lia]).
  - intros t th m Ht Hm. cases_in Ht; simpl in Hm; [|by apply elem_of_nil in Hm..].
    destruct (Hheld m Hm) as [-> Hmu]. by exists (mkObject [2; 3] k).
  - intros m ob lc p h Hm Ek. cases_in Hm. destruct (Hk lc p h Ek) as [Hp [->| ->]]; (split; [done|]);
      [intros t [= <-]; by eexists|done].
  - intros o ob t Ho Hin. cases_in Ho. simpl in Hin.
    apply elem_of_cons in Hin as [->|Hin]; [|apply list_elem_of_singleton in Hin as ->];
      (eexists; split; [done|]; split; [done|]; simpl; set_solver).
  - intros o ob Ho. cases_in Ho. simpl. by apply (bool_decide_unpack _).
  - intros t th o Ht Hin. cases_in Ht; simpl in Hin; [by apply elem_of_nil in Hin|..];
      (apply list_elem_of_singleton in Hin as ->; exists (mkObject [2; 3] k); split; [done|];
       intros Hkt; simpl in Hkt; rewrite Hkt in Hcl; simpl in Hcl; lia).
  - intros o ob parent Ho Ep. cases_in Ho. simpl in Ep. destruct k; simpl in *; (done || lia).
Qed.

Lemma demo_sync k held : sync_waits (demo k held).
Proof.
  intros o ob t th Ho Hin Ht. simpl in Ho, Ht. cases_in Ht; simpl; (split; [done|]); intros; try done.
Qed.

Definition no_callback (cb : WakeupCallback) (r : ThreadWakeupReason) (t : Z) (o : option Z) (s : KState)
  : option KState := None.


Lemma event_signal_witness :
  ∃ s' ob', Event_Signal no_callback 100 (demo (KEvent Pulse false) []) = Some s' ∧
    objects s' !! 100 = Some ob' ∧ waiting_threads ob' = [] ∧ kind ob' = KEvent Pulse false.
Proof.
  destruct (event_signal_spec no_callback 100 (mkObject [2; 3] (KEvent Pulse false)) Pulse false
              (demo (KEvent Pulse false) [])) as (s' & ob' & E & _ & Ho & Hw & Hk).
  - apply demo_inv; [by intros m Hm%elem_of_nil|done|simpl; lia].
  - apply demo_sync.
  - reflexivity.
  - reflexivity.
  - intros t th Hin Ht. simpl in Ht. cases_in Ht; done.
  - exists s', ob'. by split_and!.
Defined.

Lemma mutex_wait_witness :
  ∃ s' ob' thh', AddWaitingThread 100 3 (demo (KMutex 1 30 (Some 1)) [100]) = Some s' ∧
    objects s' !! 100 = Some ob' ∧ threads s' !! 1 = Some thh' ∧
    ∀ w thw, w ∈ waiting_threads ob' → threads s' !! w = Some thw →
      (current_priority thh' <= current_priority thw)%nat.
Proof.
  destruct (mutex_wait_boosts_holder 100 3 1 (mkObject [2; 3] (KMutex 1 30 (Some 1))) 1 30
              (demo_thread 3 WaitSynchAny 10 [] [100]) (demo_thread 1 Running 30 [100] [])
              (demo (KMutex 1 30 (Some 1)) [100])) as (s' & ob' & thh' & E & _ & Ho & _ & Hh & Hall);
    try reflexivity.
  - apply demo_inv; [intros m Hm; split; [set_solver|done]| |simpl; lia].
    intros lc p h [= <- <- <-]. split; [vm_compute; lia|by left].
  - simpl. set_solver.
  - simpl. set_solver.
  - exists s', ob', thh'. by split_and!.
Defined.


End Examples.
