(* ===== verification/Session.v ===== *)
(** * Sessions and ports
    ([src/src/core/hle/kernel/client_port.cpp], [server_port.cpp], [client_session.cpp],
    [server_session.cpp], [session.h]; the calls on them in [svc.cpp])

    A client connects to a port, which makes a session with two ends.  A thread of the client sends a
    request through its end and sleeps; a thread of the server waits on its end, receives the
    request, for which the kernel translates the command buffer, and replies, which translates
    it back and wakes the client.  The state is that of [Kernel]: the server ends are wait
    objects, so that the waiting and waking of [WaitSynch] apply to them.

    When the server end has a handler of the emulator, the request goes to it through a context of
    [HLEContext], and the client sleeps for a fixed time, or until the handler's event.

    The destructors are operations of their own, which run when the last reference to an object goes
    away; the addresses of new objects are arguments. *)

From S2P Require Import IntervalSet PageTable Memory HandleTable Process SharedMemory IPC HLEContext.
From S2P Require Import Prelude BitField ThreadQueueList CoreTiming ResourceLimit Kernel.

(** ** Updates *)

Definition set_sessions (m : gmap Z Session) (i : IPCObjects) : IPCObjects :=
  mkIPC m (client_sessions i) (client_ports i) (connected_sessions i) (named_ports i).
Definition set_client_sessions (m : gmap Z Z) (i : IPCObjects) : IPCObjects :=
  mkIPC (sessions i) m (client_ports i) (connected_sessions i) (named_ports i).
Definition set_client_ports (m : gmap Z ClientPort) (i : IPCObjects) : IPCObjects :=
  mkIPC (sessions i) (client_sessions i) m (connected_sessions i) (named_ports i).
Definition set_connected (m : gmap Z (list Z)) (i : IPCObjects) : IPCObjects :=
  mkIPC (sessions i) (client_sessions i) (client_ports i) m (named_ports i).

Definition upd_ipc (f : IPCObjects → IPCObjects) (s : KState) : KState := set_ipc s (f (ipc s)).
Definition put_session (a : Z) (se : Session) (s : KState) : KState := upd_ipc (λ i, set_sessions (<[a := se]> (sessions i)) i) s.
Definition put_object (a : Z) (ob : WaitObject) (s : KState) : KState := set_objects s (<[a := ob]> (objects s)).
Definition set_active (n : Z) (p : ClientPort) : ClientPort := mkPort (server_port p) (max_sessions p) n.
(** [AddNamedPort]: a name that is taken keeps its port. *)
Definition AddNamedPort (name : list Z) (port : Z) (i : IPCObjects) : IPCObjects :=
  mkIPC (sessions i) (client_sessions i) (client_ports i) (connected_sessions i)
    (match named_ports i !! name with Some _ => named_ports i | None => <[name := port]> (named_ports i) end).
Definition put_port (a : Z) (p : ClientPort) (s : KState) : KState :=
  upd_ipc (λ i, set_client_ports (<[a := p]> (client_ports i)) i) s.

(** The data of the server end at [o]. *)
Definition server_of (o : Z) (s : KState)
  : option (Z * option Z * list Z * option Z * list MappedBufferContext) :=
  ob ← objects s !! o;
  match kind ob with
  | KServerSession parent hle pending handling context => Some (parent, hle, pending, handling, context)
  | _ => None
  end.

Section Sessions.
(** The renderer, the registers, and where the host puts a new buffer. *)
Context (rasterizer : FlushMode → Z → Z → gmap Z Z → gmap Z Z) (ReadReg : Z → Z) (new_buffer : MemorySystem → Z → Z).
(** Where the object of a process is, and what the array of a translation held before. *)
Context (process_object : Z → Z) (stack : list Z).
(** The emulated services: [HandleSyncRequest] of a handler for a session, a thread and a context (at an
    address); the callback that a service left with a context, nothing if it left none; and where the
    host puts a new context. *)
Context (hle_handler : Z → Z → Z → Z → HLERequestContext → KState → option (KState * HLERequestContext)).
Context (hle_callback : Z → ThreadWakeupReason → Z → HLERequestContext → KState → option (KState * HLERequestContext)).
Context (new_request : KState → Z).

(** ** Creating sessions and ports *)

Definition CreateSessionPair (server client parent : Z) (port : option Z) (s : KState) : KState :=
  let s := put_object server (mkObject [] (KServerSession parent None [] None [])) s in
  let s := put_session parent (mkSession (Some client) (Some server) port) s in
  upd_ipc (λ i, set_client_sessions (<[client := parent]> (client_sessions i)) i) s.

Definition CreatePortPair (server client max_sessions : Z) (s : KState) : KState :=
  put_port client (mkPort server max_sessions 0) (put_object server (mkObject [] (KServerPort [] None)) s).

(** [SessionRequestHandler::ClientConnected] and [ClientDisconnected]. *)
Definition set_hle (o : Z) (handler : option Z) (s : KState) : option KState :=
  '(parent, _, pending, handling, context) ← server_of o s;
  Some (upd_object o (set_kind (KServerSession parent handler pending handling context)) s).
Definition ClientConnected (handler server : Z) (s : KState) : option KState :=
  s ← set_hle server (Some handler) s;
  Some (upd_ipc (λ i, set_connected (<[handler := default [] (connected_sessions i !! handler) ++ [server]]> (connected_sessions i)) i) s).
Definition ClientDisconnected (handler server : Z) (s : KState) : option KState :=
  s ← set_hle server None s;
  Some (upd_ipc (λ i, set_connected (<[handler := filter (λ x, x ≠ server) (default [] (connected_sessions i !! handler))]>
                                       (connected_sessions i)) i) s).

(** ** The command buffers of two threads *)

Definition GetCommandBufferAddress (th : Thread) : Z := u32 (tls_address th + 0x80).

(** A thread and its process, as one side of a translation. *)
Definition peer_of (t : Z) (th : Thread) : Peer := mkPeer t (process_object (owner_process th)) (owner_process th).

(** [TranslateCommandBuffer] between two threads, with the list of contexts of the session [o]. *)
Definition translate_between (src dst o : Z) (reply : bool) (s : KState) : option (KState * Z) :=
  src_thread ← threads s !! src;
  dst_thread ← threads s !! dst;
  '(parent, hle, pending, handling, context) ← server_of o s;
  '(system, context, result) ←
     TranslateCommandBuffer rasterizer new_buffer (peer_of src src_thread) (peer_of dst dst_thread) stack
       (GetCommandBufferAddress src_thread) (GetCommandBufferAddress dst_thread) context reply (system s);
  Some (upd_object o (set_kind (KServerSession parent hle pending handling context)) (set_system s system), result).

Definition set_handling (o : Z) (handling : option Z) (s : KState) : option KState :=
  '(parent, hle, pending, _, context) ← server_of o s;
  Some (upd_object o (set_kind (KServerSession parent hle pending handling context)) s).

(** A translation error resumes the client and then stops the emulator. *)
Definition ReceiveIPCRequest (o t : Z) (s : KState) : option (KState * Z) :=
  '(parent, _, _, handling, _) ← server_of o s;
  session ← sessions (ipc s) !! parent;
  match session_client session with
  | None => Some (s, ResultSessionClosed)
  | Some _ =>
      currently_handling ← handling;
      '(s, translation_result) ← translate_between currently_handling t o false s;
      if negb (IsSuccess translation_result) then
        s ← ResumeFromWait currently_handling (SetWaitSynchronizationResult currently_handling translation_result s);
        s ← set_handling o None s;
        ASSERT false ;; Some (s, translation_result)
      else Some (s, translation_result)
  end.

Definition is_server_session (o : Z) (s : KState) : bool :=
  match server_of o s with Some _ => true | None => false end.

(** [SVC_IPCCallback::WakeUp]. *)
Definition IPCCallback_WakeUp (reason : ThreadWakeupReason) (t : Z) (object : option Z) (s : KState) : option KState :=
  th ← threads s !! t;
  ASSERT (bool_decide (status th = WaitSynchAny)) ;;
  ASSERT (match reason with Signal => true | Timeout => false end) ;;
  o ← object;
  '(s, result) ← (if is_server_session o s then ReceiveIPCRequest o t s else Some (s, ResultSuccess));
  let s := SetWaitSynchronizationResult t result s in
  index ← GetWaitObjectIndex t o s;
  Some (SetWaitSynchronizationOutput t index s).

(** *** Requests to emulated services *)

Definition put_request (id : Z) (c : HLERequestContext) (s : KState) : KState := set_requests s (<[id := c]> (hle_requests s)).

(** The words that [HandleSyncRequest] and [ThreadCallback] copy: the command buffer and the slots for static buffers. *)
Definition FULL_COMMAND_LENGTH : nat := COMMAND_BUFFER_LENGTH + 2 * MAX_STATIC_BUFFERS.

Definition read_command (th : Thread) (s : KState) : option (KState * list Z) :=
  '(system, data) ← read_process rasterizer (owner_process th) (GetCommandBufferAddress th) (4 * Z.of_nat FULL_COMMAND_LENGTH) (system s);
  Some (set_system s system, words_of data FULL_COMMAND_LENGTH).

(** The reply of a context goes to the buffer of its thread, which held [cmd_buf]. *)
Definition write_reply (t : Z) (th : Thread) (c : HLERequestContext) (cmd_buf : list Z) (s : KState) : option KState :=
  '(cmd_buf, system) ← WriteToOutgoingCommandBuffer rasterizer (peer_of t th) c cmd_buf (system s);
  system ← write_process rasterizer (owner_process th) (GetCommandBufferAddress th) (bytes_of cmd_buf) system;
  Some (set_system s system).

(** [HLERequestContext::SleepClientThread], with the address of the new event. *)
Definition SleepClientThread (id t event timeout : Z) (s : KState) : option KState :=
  let s := upd_thread t (λ th, set_waiting (wait_objects th) (Some (HLECallback id)) th) s in
  let s := put_object event (mkObject [] (KEvent OneShot false)) s in
  let s := upd_thread t (set_status WaitHleEvent) s in
  let s := upd_thread t (λ th, set_waiting [event] (wakeup_callback th) th) s in
  s ← AddWaitingThread event t s;
  if 0 <? timeout then WakeAfterDelay t timeout false s else Some s.

(** [HLERequestContext::ThreadCallback::WakeUp]. *)
Definition ThreadCallback_WakeUp (id : Z) (reason : ThreadWakeupReason) (t : Z) (s : KState) : option KState :=
  th ← threads s !! t;
  ASSERT (bool_decide (status th = WaitHleEvent)) ;;
  c ← hle_requests s !! id;
  '(s, c) ← hle_callback id reason t c s;
  let s := put_request id c s in
  th ← threads s !! t;
  '(s, cmd_buff) ← read_command th s;
  write_reply t th c cmd_buff s.

Definition ipc_wakeup (cb : WakeupCallback) (reason : ThreadWakeupReason) (t : Z) (object : option Z) (s : KState)
  : option KState :=
  match cb with
  | IPCCallback => IPCCallback_WakeUp reason t object s
  | HLECallback id => ThreadCallback_WakeUp id reason t s
  | SyncCallback _ | ArbiterCallback _ => None
  end.

(** The part of [HandleSyncRequest] for a handler of the emulator.  The reply is written at once unless
    the handler put the thread to sleep. *)
Definition handle_hle_request (handler o t : Z) (s : KState) : option KState :=
  th ← threads s !! t;
  '(s, cmd_buf) ← read_command th s;
  '(c, system) ← PopulateFromIncomingCommandBuffer rasterizer (peer_of t th) cmd_buf (HLERequestContext_new stack) (system s);
  let s := set_system s system in
  let id := new_request s in
  '(s, c) ← hle_handler handler o t id c s;
  let s := put_request id c s in
  th ← threads s !! t;
  ASSERT (bool_decide (status th = Running) || bool_decide (status th = WaitHleEvent)) ;;
  if decide (status th = Running) then write_reply t th c cmd_buf s else Some s.

(** ** Ports *)

(** [ClientPort::Connect], with the addresses of the new session. *)
Definition ClientPort_Connect (port server client parent : Z) (s : KState) : option (KState * Z) :=
  p ← client_ports (ipc s) !! port;
  if negb (active_sessions p <? max_sessions p) then Some (s, ResultMaxConnectionsReached)
  else
    let s := put_port port (set_active (u32 (active_sessions p + 1)) p) s in
    let s := CreateSessionPair server client parent (Some port) s in
    ob ← objects s !! server_port p;
    match kind ob with
    | KServerPort pending hle =>
        s ← (match hle with
             | Some handler => ClientConnected handler server s
             | None => Some (upd_object (server_port p) (set_kind (KServerPort (pending ++ [server]) hle)) s)
             end);
        s ← WakeupAllWaitingThreads ipc_wakeup (server_port p) s;
        Some (s, ResultSuccess)
    | _ => None
    end.

Definition ConnectionClosed (port : Z) (s : KState) : option KState :=
  p ← client_ports (ipc s) !! port;
  ASSERT (0 <? active_sessions p) ;;
  Some (put_port port (set_active (active_sessions p - 1) p) s).

Definition ServerPort_Accept (o : Z) (s : KState) : option (KState * ResultVal Z) :=
  ob ← objects s !! o;
  match kind ob with
  | KServerPort pending hle =>
      match last pending with
      | None => Some (s, inl ResultNoPendingSessions)
      | Some session => Some (upd_object o (set_kind (KServerPort (removelast pending) hle)) s, inr session)
      end
  | _ => None
  end.

(** ** Requests *)

Definition IPCDelayNanoseconds : Z := 39000.

(** [ServerSession::HandleSyncRequest]. *)
Definition ServerSession_HandleSyncRequest (o t : Z) (s : KState) : option (KState * Z) :=
  '(_, hle, _, _, _) ← server_of o s;
  s ← (match hle with
       | Some handler => handle_hle_request handler o t s
       | None => Some s
       end);
  th ← threads s !! t;
  '(parent, hle, pending, handling, context) ← server_of o s;
  s ← (if decide (status th = Running) then
         let s := upd_thread t (set_status WaitIPC) s in
         match hle with
         | Some _ => WakeAfterDelay t IPCDelayNanoseconds false s
         | None => Some (upd_object o (set_kind (KServerSession parent hle (pending ++ [t]) handling context)) s)
         end
       else Some s);
  s ← WakeupAllWaitingThreads ipc_wakeup o s;
  Some (s, ResultSuccess).

(** [ClientSession::SendSyncRequest]. *)
Definition ClientSession_SendSyncRequest (client t : Z) (s : KState) : option (KState * Z) :=
  parent ← client_sessions (ipc s) !! client;
  session ← sessions (ipc s) !! parent;
  match session_server session with
  | None => Some (s, ResultSessionClosed)
  | Some server => ServerSession_HandleSyncRequest server t s
  end.

(** ** The end of a session *)

(** [ClientSession::~ClientSession]. *)
Definition ClientSession_destroy (client : Z) (s : KState) : option KState :=
  parent ← client_sessions (ipc s) !! client;
  session ← sessions (ipc s) !! parent;
  s ← (match session_server session with
       | None => Some s
       | Some server =>
           '(_, hle, _, _, _) ← server_of server s;
           s ← (match hle with Some handler => ClientDisconnected handler server s | None => Some s end);
           '(parent, hle, _, _, context) ← server_of server s;
           Some (upd_object server (set_kind (KServerSession parent hle [] None context)) s)
       end);
  let s := put_session parent (mkSession None (session_server session) (session_port session)) s in
  s ← (match session_server session with
       | None => Some s
       | Some server => WakeupAllWaitingThreads ipc_wakeup server s
       end);
  Some (upd_ipc (λ i, set_client_sessions (delete client (client_sessions i)) i) s).

(** [ServerSession::~ServerSession]. *)
Definition ServerSession_destroy (server : Z) (s : KState) : option KState :=
  '(parent, _, _, _, _) ← server_of server s;
  session ← sessions (ipc s) !! parent;
  s ← (match session_port session with Some port => ConnectionClosed port s | None => Some s end);
  let s := put_session parent (mkSession (session_client session) None (session_port session)) s in
  Some (set_objects s (delete server (objects s))).

(** ** The system calls

    [t] is the current thread and [pid] its process, whose handle table and memory the calls use. *)

Section Calls.
Context (t pid : Z).

Definition GetGeneric_of (handle : Z) (s : KState) : option (option Z) :=
  table ← handle_tables (system s) !! pid;
  Some (GetGeneric (Some t) (Some (process_object pid)) handle table).

(** [Get<T>] casts to the type: the object must be in the store of the type. *)
Definition Get_wait_object (handle : Z) (s : KState) : option (option Z) :=
  object ← GetGeneric_of handle s;
  Some (o ← object; _ ← objects s !! o; Some o).
Definition Get_server_session (handle : Z) (s : KState) : option (option Z) :=
  object ← GetGeneric_of handle s;
  Some (o ← object; _ ← server_of o s; Some o).
Definition Get_client_session (handle : Z) (s : KState) : option (option Z) :=
  object ← GetGeneric_of handle s;
  Some (o ← object; _ ← client_sessions (ipc s) !! o; Some o).
Definition Get_client_port (handle : Z) (s : KState) : option (option Z) :=
  object ← GetGeneric_of handle s;
  Some (o ← object; _ ← client_ports (ipc s) !! o; Some o).
Definition Get_server_port (handle : Z) (s : KState) : option (option Z) :=
  object ← GetGeneric_of handle s;
  Some (o ← object; ob ← objects s !! o; match kind ob with KServerPort _ _ => Some o | _ => None end).

(** [handle_table.Create] in the current process. *)
Definition create_handle (o : Z) (s : KState) : option (KState * ResultVal Z) :=
  table ← handle_tables (system s) !! pid;
  '(handle, table) ← Create (Some o) table;
  Some (set_system s (put_table pid table (system s)), handle).

Definition svc_read32 (address : Z) (s : KState) : option (KState * Z) :=
  p ← processes (system s) !! pid;
  '(ms, v) ← Read32 rasterizer ReadReg (process_pages p) address (k_memory (system s));
  Some (set_system s (put_memory ms (system s)), v).

(** *** Ports and sessions *)

Definition PortNameMaxLength : nat := 11.

(** [ConnectToPort]; [client] and [parent] are the new client session and [Session]. *)
Definition ConnectToPort (port_name_address server client parent : Z) (s : KState) : option (KState * ResultVal Z) :=
  p ← processes (system s) !! pid;
  if negb (IsValidVirtualAddress (process_pages p) port_name_address) then Some (s, inl ResultNotFound)
  else
    '(ms, port_name) ← ReadCString rasterizer ReadReg (process_pages p) port_name_address (S PortNameMaxLength) (k_memory (system s));
    let s := set_system s (put_memory ms (system s)) in
    if (PortNameMaxLength <? length port_name)%nat then Some (s, inl ResultPortNameTooLong)
    else match named_ports (ipc s) !! port_name with
         | None => Some (s, inl ResultNotFound)
         | Some client_port =>
             '(s, result) ← ClientPort_Connect client_port server client parent s;
             if negb (IsSuccess result) then Some (s, inl result) else create_handle client s
         end.

Definition CreatePort (name_address server client max_sessions : Z) (s : KState) : option (KState * ResultVal (Z * Z)) :=
  ASSERT (name_address =? 0) ;;
  let s := CreatePortPair server client max_sessions s in
  '(s, client_port) ← create_handle client s;
  match client_port with
  | inl result => Some (s, inl result)
  | inr client_port =>
      '(s, server_port) ← create_handle server s;
      match server_port with
      | inl result => Some (s, inl result)
      | inr server_port => Some (s, inr (server_port, client_port))
      end
  end.

Definition CreateSessionToPort (client_port_handle server client parent : Z) (s : KState) : option (KState * ResultVal Z) :=
  client_port ← Get_client_port client_port_handle s;
  match client_port with
  | None => Some (s, inl ResultInvalidHandle)
  | Some port =>
      '(s, result) ← ClientPort_Connect port server client parent s;
      if negb (IsSuccess result) then Some (s, inl result) else create_handle client s
  end.

Definition CreateSession (server client parent : Z) (s : KState) : option (KState * ResultVal (Z * Z)) :=
  let s := CreateSessionPair server client parent None s in
  '(s, server_session) ← create_handle server s;
  match server_session with
  | inl result => Some (s, inl result)
  | inr server_session =>
      '(s, client_session) ← create_handle client s;
      match client_session with
      | inl result => Some (s, inl result)
      | inr client_session => Some (s, inr (server_session, client_session))
      end
  end.

Definition AcceptSession (server_port_handle : Z) (s : KState) : option (KState * ResultVal Z) :=
  server_port ← Get_server_port server_port_handle s;
  match server_port with
  | None => Some (s, inl ResultInvalidHandle)
  | Some port =>
      '(s, session) ← ServerPort_Accept port s;
      match session with
      | inl result => Some (s, inl result)
      | inr session => create_handle session s
      end
  end.

Definition SendSyncRequest (handle : Z) (s : KState) : option (KState * Z) :=
  session ← Get_client_session handle s;
  match session with
  | None => Some (s, ResultInvalidHandle)
  | Some client => ClientSession_SendSyncRequest client t (PrepareReschedule s)
  end.

(** *** Waiting *)

(** The objects of the handles at [handles_address]. *)
Fixpoint get_objects (n : nat) (i handles_address : Z) (s : KState) : option (KState * ResultVal (list Z)) :=
  match n with
  | O => Some (s, inr [])
  | S n =>
      '(s, handle) ← svc_read32 (u32 (handles_address + i * 4)) s;
      object ← Get_wait_object handle s;
      match object with
      | None => Some (s, inl ResultInvalidHandle)
      | Some o =>
          '(s, rest) ← get_objects n (i + 1) handles_address s;
          Some (s, match rest with inl result => inl result | inr l => inr (o :: l) end)
      end
  end.

(** [std::find_if] for an object that need not be waited for, and its index. *)
Fixpoint first_available (objs : list Z) (i : Z) (s : KState) : option (option (Z * Z)) :=
  match objs with
  | [] => Some None
  | o :: objs => wait ← ShouldWait o t s; if wait : bool then first_available objs (i + 1) s else Some (Some (i, o))
  end.

Fixpoint add_to_all (objs : list Z) (s : KState) : option KState :=
  match objs with
  | [] => Some s
  | o :: objs => s ← AddWaitingThread o t s; add_to_all objs s
  end.

(** The thread sleeps until one or all of the objects are available, or the time is over. *)
Definition wait_for (st : ThreadStatus) (objs : list Z) (cb : WakeupCallback) (nano_seconds : Z) (s : KState) : option KState :=
  s ← add_to_all objs (upd_thread t (set_status st) s);
  let s := upd_thread t (λ th, set_waiting objs (wakeup_callback th) th) s in
  s ← WakeAfterDelay t nano_seconds false s;
  Some (PrepareReschedule (upd_thread t (λ th, set_waiting (wait_objects th) (Some cb) th) s)).

Definition WaitSynchronization1 (handle nano_seconds : Z) (s : KState) : option (KState * Z) :=
  object ← Get_wait_object handle s;
  match object with
  | None => Some (s, ResultInvalidHandle)
  | Some o =>
      wait ← ShouldWait o t s;
      if wait : bool then
        if nano_seconds =? 0 then Some (s, ResultTimeout)
        else
          let s := upd_thread t (λ th, set_waiting [o] (wakeup_callback th) th) s in
          s ← AddWaitingThread o t s;
          let s := upd_thread t (set_status WaitSynchAny) s in
          s ← WakeAfterDelay t nano_seconds false s;
          Some (PrepareReschedule (upd_thread t (λ th, set_waiting (wait_objects th) (Some (SyncCallback false)) th) s), ResultTimeout)
      else s ← Acquire o t s; Some (s, ResultSuccess)
  end.

(** The new state, what [out] is set to, if anything, and the result. *)
Definition WaitSynchronizationN (handles_address handle_count : Z) (wait_all : bool) (nano_seconds : Z) (s : KState)
  : option (KState * option Z * Z) :=
  p ← processes (system s) !! pid;
  if negb (IsValidVirtualAddress (process_pages p) handles_address) then Some (s, None, ResultInvalidPointer)
  else if negb (0 <=? handle_count) then Some (s, None, ResultOutOfRange)
  else
    '(s, objs) ← get_objects (Z.to_nat handle_count) 0 handles_address s;
    match objs with
    | inl result => Some (s, None, result)
    | inr objs =>
        if wait_all then
          all_available ← none_should_wait objs t s;
          if all_available : bool then s ← acquire_all objs t s; Some (s, None, ResultSuccess)
          else if nano_seconds =? 0 then Some (s, None, ResultTimeout)
          else s ← wait_for WaitSynchAll objs (SyncCallback false) nano_seconds s; Some (s, Some (-1), ResultTimeout)
        else
          found ← first_available objs 0 s;
          match found with
          | Some (index, o) => s ← Acquire o t s; Some (s, Some index, ResultSuccess)
          | None =>
              if nano_seconds =? 0 then Some (s, None, ResultTimeout)
              else s ← wait_for WaitSynchAny objs (SyncCallback true) nano_seconds s; Some (s, Some (-1), ResultTimeout)
          end
    end.

(** *** The server *)

(** The part of [ReplyAndReceive] that replies: [inl] is the early return, [inr] tells whether a
    reply was sent. *)
Definition send_reply (reply_target : Z) (s : KState) : option (KState * ((option Z * Z) + bool)) :=
  th ← threads s !! t;
  '(s, cmd_buff_header) ← svc_read32 (GetCommandBufferAddress th) s;
  if negb (reply_target =? 0) && negb (command_id_of cmd_buff_header =? 0xFFFF) then
    session ← Get_server_session reply_target s;
    match session with
    | None => Some (s, inl (None, ResultInvalidHandle))
    | Some o =>
        '(parent, _, _, request_thread, _) ← server_of o s;
        s ← set_handling o None s;
        se ← sessions (ipc s) !! parent;
        match request_thread, session_client se with
        | Some request_thread, Some _ =>
            '(s, translation_result) ← translate_between t request_thread o true s;
            ASSERT (IsSuccess translation_result) ;;
            s ← ResumeFromWait request_thread s;
            Some (s, inr true)
        | _, _ => Some (s, inl (Some (-1), ResultSessionClosed))
        end
    end
  else Some (s, inr false).

(** The part that receives. *)
Definition receive (objs : list Z) (s : KState) : option (KState * option Z * Z) :=
  found ← first_available objs 0 s;
  match found with
  | Some (index, o) =>
      s ← Acquire o t s;
      if negb (is_server_session o s) then Some (s, Some index, ResultSuccess)
      else '(s, result) ← ReceiveIPCRequest o t s; Some (s, Some index, result)
  | None =>
      s ← add_to_all objs (upd_thread t (set_status WaitSynchAny) s);
      Some (PrepareReschedule (upd_thread t (set_waiting objs (Some IPCCallback)) s), Some (-1), ResultSuccess)
  end.

Definition ReplyAndReceive (handles_address handle_count reply_target : Z) (s : KState) : option (KState * option Z * Z) :=
  p ← processes (system s) !! pid;
  if negb (IsValidVirtualAddress (process_pages p) handles_address) then Some (s, None, ResultInvalidPointer)
  else if negb (0 <=? handle_count) then Some (s, None, ResultOutOfRange)
  else
    '(s, objs) ← get_objects (Z.to_nat handle_count) 0 handles_address s;
    match objs with
    | inl result => Some (s, None, result)
    | inr objs =>
        '(s, replied) ← send_reply reply_target s;
        match replied with
        | inl (index, result) => Some (s, index, result)
        | inr sent =>
            if handle_count =? 0 then Some (s, Some 0, if sent : bool then ResultSuccess else 0xE7E3FFFF)
            else receive objs s
        end
    end.

End Calls.

End Sessions.
