(* ===== verification/SessionInv.v ===== *)
(** * Sessions and ports: the invariant

    The two ends of a session, their link and the port agree, and a port counts its sessions: what
    every sequence of connections, requests, replies and closings keeps, and why the assertion of
    [ClientPort::ConnectionClosed] never fails. *)

From S2P Require Import IntervalSet PageTable Memory HandleTable Process SharedMemory IPC HLEContext.
From S2P Require Import Prelude BitField ThreadQueueList CoreTiming ResourceLimit Kernel WaitSynch Session.

(** ** What waking threads leaves alone *)

Definition parent_of (o : Z) (s : KState) : option Z := ob ← objects s !! o; session_parent (kind ob).

(** The step changes neither the links nor which objects are server ends, and of which session. *)
Definition keeps (s s' : KState) : Prop := ipc s' = ipc s ∧ ∀ o, parent_of o s' = parent_of o s.

#[export] Instance keeps_preorder : PreOrder keeps.
Proof.
  split; [by intros s|]. intros s1 s2 s3 [E1 H1] [E2 H2]. split; [congruence|]. intros o. by rewrite H2, H1.
Qed.

Lemma keeps_threads s m : keeps s (set_threads s m).
Proof. done. Qed.
Lemma keeps_managers s l : keeps s (set_managers s l).
Proof. done. Qed.
Lemma keeps_timing s tm : keeps s (set_timing s tm).
Proof. done. Qed.
Lemma keeps_arbiters s m : keeps s (set_arbiters s m).
Proof. done. Qed.
Lemma keeps_system s y : keeps s (set_system s y).
Proof. done. Qed.
Lemma keeps_reschedule s : keeps s (PrepareReschedule s).
Proof. done. Qed.
Lemma keeps_thread t f s : keeps s (upd_thread t f s).
Proof. done. Qed.
Lemma keeps_result t r s : keeps s (SetWaitSynchronizationResult t r s).
Proof. done. Qed.
Lemma keeps_output t r s : keeps s (SetWaitSynchronizationOutput t r s).
Proof. done. Qed.

Lemma keeps_object o f s :
  (∀ ob, objects s !! o = Some ob → session_parent (kind (f ob)) = session_parent (kind ob)) → keeps s (upd_object o f s).
Proof.
  intros Hf. split; [done|]. intros o'. unfold parent_of. simpl. rewrite lookup_alter. case_decide; [|done].
  subst o'. destruct (objects s !! o) as [ob|]; simpl; [|done]. by apply Hf.
Qed.
Lemma keeps_waiters o l s : keeps s (upd_object o (set_waiters l) s).
Proof. by apply keeps_object. Qed.
Lemma keeps_kind o k ob s :
  objects s !! o = Some ob → session_parent k = session_parent (kind ob) → keeps s (upd_object o (set_kind k) s).
Proof. intros Ho Hk. apply keeps_object. intros ob' Ho'. by simplify_eq. Qed.

Create HintDb keeps discriminated.
#[export] Hint Resolve keeps_threads keeps_managers keeps_timing keeps_arbiters keeps_system keeps_reschedule keeps_thread
  keeps_result keeps_output keeps_waiters : keeps.

Lemma keeps_trans s1 s2 s3 : keeps s1 s2 → keeps s2 s3 → keeps s1 s3.
Proof. apply transitivity. Qed.

Lemma queue_keeps core f s s' : on_ready_queue core f s = Some s' → keeps s s'.
Proof. unfold on_ready_queue. intros H. inv_opt. apply keeps_managers. Qed.
#[export] Hint Resolve queue_keeps : keeps.

Lemma BoostPriority_keeps t p s s' : BoostPriority t p s = Some s' → keeps s s'.
Proof.
  unfold BoostPriority. intros H. destruct (threads s !! t) as [th|]; [|done]. simpl in H.
  case_decide; inv_opt; (eapply keeps_trans; [by eapply queue_keeps|apply keeps_thread]).
Qed.
Lemma UpdatePriority_keeps t s s' : UpdatePriority t s = Some s' → keeps s s'.
Proof. unfold UpdatePriority. intros H. inv_opt. by eapply BoostPriority_keeps. Qed.
#[export] Hint Resolve UpdatePriority_keeps : keeps.

Lemma Mutex_UpdatePriority_keeps m s s' : Mutex_UpdatePriority m s = Some s' → keeps s s'.
Proof.
  unfold Mutex_UpdatePriority. intros H. destruct (objects s !! m) as [ob|] eqn:Ho; [|done]. simpl in H.
  destruct (kind ob) as [|lc p [h|]| | | | |] eqn:Ek; try done; inv_opt; [|done]. case_decide; [|by inv_opt].
  eapply keeps_trans; [|by eapply UpdatePriority_keeps]. eapply keeps_kind; [done|]. by rewrite Ek.
Qed.
#[export] Hint Resolve Mutex_UpdatePriority_keeps : keeps.

Lemma AddWaitingThread_keeps o t s s' : AddWaitingThread o t s = Some s' → keeps s s'.
Proof.
  unfold AddWaitingThread, WaitObject_AddWaitingThread. intros H. destruct (objects s !! o) as [ob|]; [|done]. simpl in H.
  set (s1 := if decide _ then _ else _) in H. assert (keeps s s1) as H1 by (unfold s1; case_decide; [done|apply keeps_waiters]).
  destruct (kind ob); inv_opt; try done. eapply keeps_trans; [done|]. eapply keeps_trans; [|by eapply Mutex_UpdatePriority_keeps].
  apply keeps_thread.
Qed.

Lemma RemoveWaitingThread_keeps o t s s' : RemoveWaitingThread o t s = Some s' → keeps s s'.
Proof.
  unfold RemoveWaitingThread, WaitObject_RemoveWaitingThread. intros H. destruct (objects s !! o) as [ob|]; [|done]. simpl in H.
  destruct (kind ob); inv_opt; try apply keeps_waiters. eapply keeps_trans; [apply keeps_waiters|].
  eapply keeps_trans; [|by eapply Mutex_UpdatePriority_keeps]. apply keeps_thread.
Qed.

Lemma remove_from_all_keeps objs t s s' : remove_from_all objs t s = Some s' → keeps s s'.
Proof.
  revert s. induction objs as [|o objs IH]; intros s H; simpl in H; inv_opt; [done|].
  eapply keeps_trans; [by eapply RemoveWaitingThread_keeps|]. by apply IH.
Qed.

Lemma add_to_all_keeps t objs s s' : add_to_all t objs s = Some s' → keeps s s'.
Proof.
  revert s. induction objs as [|o objs IH]; intros s H; simpl in H; inv_opt; [done|].
  eapply keeps_trans; [by eapply AddWaitingThread_keeps|]. by apply IH.
Qed.

Lemma Acquire_keeps o t s s' : Acquire o t s = Some s' → keeps s s'.
Proof.
  unfold Acquire. intros H. destruct (objects s !! o) as [ob|] eqn:Ho; [|done]. simpl in H.
  assert (∀ k, session_parent k = session_parent (kind ob) → keeps s (upd_object o (set_kind k) s)) as Hk.
  { intros k Ek. by eapply keeps_kind. }
  destruct (kind ob) as [|lc p h|mx av|rt sg|rt sg ini itv id|par hle pend cur ctx|pend hle] eqn:Ek.
  - by inv_opt.
  - unfold Mutex_Acquire in H. rewrite Ho in H. inv_opt. rewrite Ek in H. destruct (lc =? 0); inv_opt; [|by apply Hk].
    eapply keeps_trans; [by apply (Hk (KMutex lc (current_priority t0) (Some t)))|].
    eapply keeps_trans; [apply keeps_thread|]. eapply keeps_trans; [by eapply UpdatePriority_keeps|].
    eapply keeps_trans; [apply keeps_reschedule|].
    match goal with Eu : UpdatePriority _ _ = Some _ |- _ => apply UpdatePriority_objects in Eu as Eo; simpl in Eo end.
    eapply keeps_object. intros ob1 Ho1. simpl in Ho1. rewrite Eo, lookup_alter_eq, Ho in Ho1. by injection Ho1 as <-.
  - inv_opt. case_match; [done|]. by apply Hk.
  - inv_opt. case_decide; [|done]. by apply Hk.
  - inv_opt. case_decide; [|done]. by apply Hk.
  - inv_opt. case_match; inv_opt; [|done]. by apply Hk.
  - by inv_opt.
Qed.

Lemma acquire_all_keeps objs t s s' : acquire_all objs t s = Some s' → keeps s s'.
Proof.
  revert s. induction objs as [|o objs IH]; intros s H; simpl in H; inv_opt; [done|].
  eapply keeps_trans; [by eapply Acquire_keeps|]. by apply IH.
Qed.

Lemma ResumeFromWait_keeps t s s' : ResumeFromWait t s = Some s' → keeps s s'.
Proof.
  unfold ResumeFromWait. intros H. destruct (threads s !! t) as [th|]; [|done]. simpl in H.
  apply bind_Some in H as (u & _ & H). destruct (status th); inv_opt; try done;
    (eapply keeps_trans; [apply keeps_thread|]; eapply keeps_trans; [by eapply queue_keeps|];
     eapply keeps_trans; [apply keeps_thread|apply keeps_reschedule]).
Qed.

Lemma SyncCallback_keeps b reason t object s s' : SyncCallback_WakeUp b reason t object s = Some s' → keeps s s'.
Proof.
  unfold SyncCallback_WakeUp. intros H. destruct reason; [|inv_opt; apply keeps_result].
  destruct b; inv_opt; [|apply keeps_result]. eapply keeps_trans; [apply keeps_result|apply keeps_output].
Qed.

Lemma WakeAfterDelay_keeps t n b s s' : WakeAfterDelay t n b s = Some s' → keeps s s'.
Proof. unfold WakeAfterDelay. intros H. destruct (n =? -1); inv_opt; [done|apply keeps_timing]. Qed.

Lemma server_of_parent o s parent hle pending handling context :
  server_of o s = Some (parent, hle, pending, handling, context) →
  ∃ ob, objects s !! o = Some ob ∧ kind ob = KServerSession parent hle pending handling context.
Proof.
  unfold server_of. intros H. destruct (objects s !! o) as [ob|]; [|done]. simpl in H. exists ob. split; [done|].
  by destruct (kind ob); simplify_eq.
Qed.

Lemma parent_server o s a : parent_of o s = Some a → ∃ hle pending handling context, server_of o s = Some (a, hle, pending, handling, context).
Proof.
  unfold parent_of, server_of. intros H. destruct (objects s !! o) as [ob|]; [|done]. simpl in H |- *.
  destruct (kind ob); simplify_eq/=. by eauto 10.
Qed.

Lemma server_parent o s parent hle pending handling context :
  server_of o s = Some (parent, hle, pending, handling, context) → parent_of o s = Some parent.
Proof. intros (ob & Ho & Ek)%server_of_parent. unfold parent_of. rewrite Ho. simpl. by rewrite Ek. Qed.

(** An update of a server end that does not move it to another session. *)
Lemma keeps_server o s parent hle pending handling context hle' pending' handling' context' :
  server_of o s = Some (parent, hle, pending, handling, context) →
  keeps s (upd_object o (set_kind (KServerSession parent hle' pending' handling' context')) s).
Proof. intros (ob & Ho & Ek)%server_of_parent. eapply keeps_kind; [done|]. by rewrite Ek. Qed.

Section Invariant.
Context (rasterizer : FlushMode → Z → Z → gmap Z Z → gmap Z Z) (ReadReg : Z → Z) (new_buffer : MemorySystem → Z → Z).
Context (process_object : Z → Z) (stack : list Z).
(** The emulated services serve requests; they make and close no sessions while they do so. *)
Context (hle_handler : Z → Z → Z → Z → HLERequestContext → KState → option (KState * HLERequestContext)).
Context (hle_callback : Z → ThreadWakeupReason → Z → HLERequestContext → KState → option (KState * HLERequestContext)).
Context (new_request : KState → Z).
Context (Hhandler : ∀ handler o t id c s s' c', hle_handler handler o t id c s = Some (s', c') → keeps s s').
Context (Hcallback : ∀ id reason t c s s' c', hle_callback id reason t c s = Some (s', c') → keeps s s').

Local Abbreviation ipc_wakeup := (ipc_wakeup rasterizer new_buffer process_object stack hle_callback).

Lemma translate_keeps src dst o reply s s' r :
  translate_between rasterizer new_buffer process_object stack src dst o reply s = Some (s', r) → keeps s s'.
Proof.
  unfold translate_between. intros H. apply bind_Some in H as (src_thread & _ & H). apply bind_Some in H as (dst_thread & _ & H).
  apply bind_Some in H as ([[[[parent hle] pending] handling] context] & Hs & H).
  apply bind_Some in H as ([[y context'] r'] & _ & H). injection H as <- <-.
  eapply keeps_trans; [apply keeps_system|]. by eapply keeps_server.
Qed.

Lemma set_handling_keeps o h s s' : set_handling o h s = Some s' → keeps s s'.
Proof.
  unfold set_handling. intros H. inv_opt. destruct p as [[[[parent hle] pending] handling] context]. inv_opt. by eapply keeps_server.
Qed.

Lemma Receive_keeps o t s s' r :
  ReceiveIPCRequest rasterizer new_buffer process_object stack o t s = Some (s', r) → keeps s s'.
Proof.
  unfold ReceiveIPCRequest. intros H. apply bind_Some in H as ([[[[parent hle] pending] handling] context] & _ & H).
  apply bind_Some in H as (se & _ & H). destruct (session_client se); [|by inv_opt].
  apply bind_Some in H as (c & _ & H). apply bind_Some in H as ([s1 r1] & E & H). cbv iota in H.
  destruct (negb (IsSuccess r1)).
  - apply bind_Some in H as (s2 & _ & H). apply bind_Some in H as (s3 & _ & H). done.
  - injection H as <- <-. by eapply translate_keeps.
Qed.

(** Requests to emulated services. *)
Lemma keeps_request id c s : keeps s (put_request id c s).
Proof. done. Qed.

Lemma read_command_keeps th s s' l : read_command rasterizer th s = Some (s', l) → keeps s s'.
Proof. unfold read_command. intros H. apply bind_Some in H as ([y d] & _ & H). injection H as <- <-. apply keeps_system. Qed.

Lemma write_reply_keeps t th c l s s' : write_reply rasterizer process_object t th c l s = Some s' → keeps s s'.
Proof.
  unfold write_reply. intros H. apply bind_Some in H as ([l' y] & _ & H). apply bind_Some in H as (y' & _ & H). injection H as <-.
  apply keeps_system.
Qed.

Lemma ThreadCallback_keeps id reason t s s' :
  ThreadCallback_WakeUp rasterizer process_object hle_callback id reason t s = Some s' → keeps s s'.
Proof.
  unfold ThreadCallback_WakeUp. intros H. apply bind_Some in H as (th & _ & H). apply bind_Some in H as (u & _ & H).
  apply bind_Some in H as (c & _ & H). apply bind_Some in H as ([s1 c1] & E1 & H). apply bind_Some in H as (th1 & _ & H).
  apply bind_Some in H as ([s2 l] & E2 & H). transitivity s1; [by eapply Hcallback|]. transitivity (put_request id c1 s1); [apply keeps_request|].
  transitivity s2; [by eapply read_command_keeps|by eapply write_reply_keeps].
Qed.

Lemma handle_hle_keeps handler o t s s' :
  handle_hle_request rasterizer process_object stack hle_handler new_request handler o t s = Some s' → keeps s s'.
Proof.
  unfold handle_hle_request. intros H. apply bind_Some in H as (th & _ & H). apply bind_Some in H as ([s1 l] & E1 & H).
  apply bind_Some in H as ([c y] & _ & H). apply bind_Some in H as ([s2 c2] & E2 & H). apply bind_Some in H as (th2 & _ & H).
  apply bind_Some in H as (u & _ & H). transitivity s1; [by eapply read_command_keeps|].
  transitivity (set_system s1 y); [apply keeps_system|]. transitivity s2; [by eapply Hhandler|].
  eapply keeps_trans; [apply keeps_request|]. case_decide; [by eapply write_reply_keeps|by injection H as <-].
Qed.

Lemma ipc_wakeup_keeps cb reason t object s s' : ipc_wakeup cb reason t object s = Some s' → keeps s s'.
Proof.
  intros H. destruct cb; try done; [|by eapply ThreadCallback_keeps]. unfold Session.ipc_wakeup, IPCCallback_WakeUp in H.
  apply bind_Some in H as (th & _ & H). apply bind_Some in H as (u1 & _ & H). apply bind_Some in H as (u2 & _ & H).
  apply bind_Some in H as (o & _ & H). apply bind_Some in H as ([s1 r] & E & H). inv_opt.
  eapply keeps_trans; [|eapply keeps_trans; [apply keeps_result|apply keeps_output]].
  destruct (is_server_session o s); [by eapply Receive_keeps|by inv_opt].
Qed.

Lemma wake_one_keeps o t s s' : wake_one ipc_wakeup o t s = Some s' → keeps s s'.
Proof.
  unfold wake_one. intros H. apply bind_Some in H as (th & _ & H). apply bind_Some in H as (s1 & E1 & H).
  apply bind_Some in H as (s2 & E2 & H). apply bind_Some in H as (th2 & _ & H). apply bind_Some in H as (s3 & E3 & H).
  transitivity s1; [case_decide; [by eapply Acquire_keeps|by eapply acquire_all_keeps]|].
  transitivity s2.
  { destruct (wakeup_callback th) as [cb|]; [|by inv_opt]. destruct cb as [b|a| |id]; cbn [WakeUp] in E2.
    - by eapply SyncCallback_keeps.
    - unfold Arbiter_WakeUp in E2. done.
    - by eapply (ipc_wakeup_keeps IPCCallback).
    - by eapply (ipc_wakeup_keeps (HLECallback id)). }
  transitivity s3; [by eapply remove_from_all_keeps|].
  eapply keeps_trans; [apply keeps_thread|by eapply ResumeFromWait_keeps].
Qed.

Lemma WakeupAll_keeps o s s' : WakeupAllWaitingThreads ipc_wakeup o s = Some s' → keeps s s'.
Proof.
  unfold WakeupAllWaitingThreads. intros H. apply bind_Some in H as (s1 & E1 & H). apply bind_Some in H as (ob & Ho & H).
  transitivity s1.
  - unfold WaitObject_WakeupAllWaitingThreads in E1. apply bind_Some in E1 as (ob0 & _ & E1). clear H.
    revert s E1. induction (length (waiting_threads ob0)) as [|n IH]; intros s E1; simpl in E1;
      apply bind_Some in E1 as ([t|] & _ & E1); inv_opt; try done.
    etrans; [by eapply wake_one_keeps|]. by apply IH.
  - destruct (kind ob) eqn:Ek; try by inv_opt.
    + destruct reset_type; inv_opt; try done. eapply keeps_kind; [done|]. by rewrite Ek.
    + destruct reset_type; inv_opt; try done. eapply keeps_kind; [done|]. by rewrite Ek.
Qed.

(** ** The invariant *)

(** A session of the port whose server end is there. *)
Definition live (port : Z) (se : Session) : Prop := session_port se = Some port ∧ session_server se ≠ None.
#[export] Instance live_dec port se : Decision (live port se).
Proof. unfold live. apply _. Defined.

Definition live_sessions (port : Z) (i : IPCObjects) : gmap Z Session := filter (λ x, live port x.2) (sessions i).

(** The links agree, and the count of a port is [e port] ahead of its sessions. *)
Record linked (e : Z → Z) (s : KState) : Prop := {
  so_server : ∀ a se o, sessions (ipc s) !! a = Some se → session_server se = Some o → parent_of o s = Some a;
  so_parent : ∀ o a, parent_of o s = Some a → ∃ se, sessions (ipc s) !! a = Some se ∧ session_server se = Some o;
  so_client : ∀ a se c, sessions (ipc s) !! a = Some se → session_client se = Some c → client_sessions (ipc s) !! c = Some a;
  so_link : ∀ c a, client_sessions (ipc s) !! c = Some a → ∃ se, sessions (ipc s) !! a = Some se ∧ session_client se = Some c;
  so_port : ∀ a se port, sessions (ipc s) !! a = Some se → session_port se = Some port → is_Some (client_ports (ipc s) !! port);
  so_count : ∀ port p, client_ports (ipc s) !! port = Some p →
    active_sessions p = Z.of_nat (size (live_sessions port (ipc s))) + e port ∧ active_sessions p <= max_sessions p < 2 ^ 32 }.
Definition sessions_ok : KState → Prop := linked (λ _, 0).

Lemma linked_keeps e s s' : keeps s s' → linked e s → linked e s'.
Proof. intros [E H] [A B C D F G]. split; rewrite ?E; try done; intros *; rewrite H; [apply A|apply B]. Qed.

(** Replacing a session, or adding one. *)
Lemma live_put port a se i :
  size (live_sessions port (set_sessions (<[a := se]> (sessions i)) i)) =
  ((if decide (live port se) then 1 else 0) + size (delete a (live_sessions port i)))%nat.
Proof.
  unfold live_sessions. cbn [sessions set_sessions]. case_decide as Hl.
  - rewrite map_filter_insert_True by done. rewrite <- insert_delete_eq, map_size_insert_None by apply lookup_delete_eq. done.
  - rewrite map_filter_insert_False by done. by rewrite map_filter_delete.
Qed.

Lemma live_delete port a se i :
  sessions i !! a = Some se →
  size (live_sessions port i) = ((if decide (live port se) then 1 else 0) + size (delete a (live_sessions port i)))%nat.
Proof.
  intros Ha. unfold live_sessions. rewrite <- (insert_id _ _ _ Ha) at 1. case_decide as Hl.
  - rewrite map_filter_insert_True by done. rewrite <- insert_delete_eq, map_size_insert_None by apply lookup_delete_eq. done.
  - rewrite map_filter_insert_False by done. by rewrite map_filter_delete.
Qed.

Lemma live_fresh port a i : sessions i !! a = None → delete a (live_sessions port i) = live_sessions port i.
Proof. intros Ha. apply delete_id. unfold live_sessions. apply map_lookup_filter_None. by left. Qed.

(** The count of a port changes. *)
Lemma linked_count e s port p n :
  linked e s → client_ports (ipc s) !! port = Some p → active_sessions p + n <= max_sessions p →
  linked (λ q, e q + if decide (q = port) then n else 0) (put_port port (set_active (active_sessions p + n) p) s).
Proof.
  intros [A B C D F G] Hp Hn. split; try done.
  - intros a se q Hs Hq. cbn. rewrite lookup_insert. case_decide; [by eexists|]. by eapply F.
  - intros q pq Hq. cbn in Hq. rewrite lookup_insert in Hq. change (live_sessions q (ipc (put_port _ _ s))) with (live_sessions q (ipc s)).
    case_decide as E; destruct (decide (q = port)) as [E'|E']; simplify_eq; simpl.
    + destruct (G port p Hp). lia.
    + destruct (G q pq Hq). lia.
Qed.

(** What a new session must not use. *)
Definition fresh_session (server client parent : Z) (s : KState) : Prop :=
  objects s !! server = None ∧ client_sessions (ipc s) !! client = None ∧ sessions (ipc s) !! parent = None.

Lemma linked_pair e s server client parent port :
  linked (λ q, e q + if decide (port = Some q) then 1 else 0) s → fresh_session server client parent s →
  (∀ q, port = Some q → is_Some (client_ports (ipc s) !! q)) →
  linked e (CreateSessionPair server client parent port s).
Proof.
  intros [A B C D F G] (Ho & Hc & Hs) Hport.
  assert (∀ o, parent_of o (CreateSessionPair server client parent port s) = if decide (o = server) then Some parent else parent_of o s) as Hpar.
  { intros o. unfold parent_of. cbn. rewrite lookup_insert. repeat case_decide; subst; try done. }
  assert (parent_of server s = None) as Hno by (unfold parent_of; by rewrite Ho).
  split.
  - intros a se o. rewrite Hpar. cbn. rewrite lookup_insert. case_decide as Ea.
    + intros [= <-] [= <-]. by rewrite decide_True, Ea by done.
    + intros Ha Hse. case_decide as Eo; [|by eapply A]. subst o. rewrite (A a se server) in Hno by done. done.
  - intros o a. rewrite Hpar. cbn. case_decide as Eo.
    + intros [= <-]. eexists. rewrite lookup_insert_eq. split; [done|]. by subst o.
    + intros Ha. destruct (B o a Ha) as (se & Hse & Hse'). exists se. split; [|done]. rewrite lookup_insert_ne; [done|]. congruence.
  - intros a se c. cbn. rewrite !lookup_insert. case_decide as Ea.
    + intros [= <-] [= <-]. by rewrite decide_True, Ea by done.
    + intros Ha Hse. pose proof (C a se c Ha Hse). rewrite decide_False by congruence. done.
  - intros c a. cbn. rewrite !lookup_insert. case_decide as Ec.
    + intros [= <-]. eexists. rewrite decide_True by done. split; [done|]. by subst c.
    + intros Ha. destruct (D c a Ha) as (se & Hse & Hse'). exists se. rewrite decide_False by congruence. done.
  - intros a se q. cbn. rewrite lookup_insert. case_decide as Ea; [|by apply F]. intros [= <-] Hq. by apply Hport.
  - intros q p Hq. destruct (G q p Hq) as [Ea Hm]. split; [|done]. rewrite Ea. clear Ea.
    change (ipc (CreateSessionPair server client parent port s))
      with (set_client_sessions (<[client := parent]> (client_sessions (ipc s)))
              (set_sessions (<[parent := mkSession (Some client) (Some server) port]> (sessions (ipc s))) (ipc s))).
    change (live_sessions q (set_client_sessions _ ?i)) with (live_sessions q i). rewrite live_put, live_fresh by done.
    assert (live q (mkSession (Some client) (Some server) port) ↔ port = Some q) as Hl by (unfold live; simpl; naive_solver).
    repeat case_decide; try tauto; lia.
Qed.

Lemma linked_port_pair e s server client max :
  linked e s → objects s !! server = None → client_ports (ipc s) !! client = None → 0 <= max < 2 ^ 32 → e client = 0 →
  linked e (CreatePortPair server client max s).
Proof.
  intros [A B C D F G] Ho Hc Hm He.
  assert (∀ o, parent_of o (CreatePortPair server client max s) = parent_of o s) as Hpar.
  { intros o. unfold parent_of. cbn. rewrite lookup_insert. case_decide; [|done]. subst o. by rewrite Ho. }
  split.
  - intros a se o. rewrite Hpar. apply A.
  - intros o a. rewrite Hpar. apply B.
  - apply C.
  - apply D.
  - intros a se q Ha Hq. cbn. rewrite lookup_insert. case_decide; [by eexists|]. by eapply F.
  - intros q p. change (live_sessions q (ipc (CreatePortPair _ _ _ s))) with (live_sessions q (ipc s)).
    change (client_ports (ipc (CreatePortPair server client max s))) with (<[client := mkPort server max 0]> (client_ports (ipc s))).
    rewrite lookup_insert. case_decide as Eq; [|apply G]. intros [= <-]. subst q. cbn [active_sessions max_sessions]. rewrite He.
    assert (live_sessions client (ipc s) = ∅) as ->; [|by rewrite map_size_empty; lia].
    apply map_empty. intros a. apply map_lookup_filter_None. right. intros se Ha [Hp _].
    destruct (F a se client Ha Hp) as [? ?]. congruence.
Qed.

(** The client end goes. *)
Lemma linked_close_client e s c a se :
  linked e s → client_sessions (ipc s) !! c = Some a → sessions (ipc s) !! a = Some se →
  linked e (upd_ipc (λ i, set_client_sessions (delete c (client_sessions i)) i)
              (put_session a (mkSession None (session_server se) (session_port se)) s)).
Proof.
  intros [A B C D F G] Hc Ha. destruct (D c a Hc) as (se' & Ha' & Hcl). assert (se' = se) as -> by congruence.
  split.
  - intros a' se' o. cbn. rewrite lookup_insert. case_decide as E; [|apply A]. intros [= <-]. subst a'. exact (A a se o Ha).
  - intros o a' Ho. destruct (B o a' Ho) as (se' & Hs & Hs'). cbn. rewrite lookup_insert. case_decide as E; [|by eauto].
    subst a'. simplify_eq. by eexists.
  - intros a' se' c'. cbn. rewrite lookup_insert. case_decide as E; [by intros [= <-]|]. intros Hs Hs'.
    pose proof (C a' se' c' Hs Hs') as Hl. rewrite lookup_delete_ne; [done|]. congruence.
  - intros c' a'. cbn. rewrite lookup_delete_Some. intros [Hne Hl]. destruct (D c' a' Hl) as (se' & Hs & Hs').
    rewrite lookup_insert. case_decide as E; [|by eauto]. subst a'. congruence.
  - intros a' se' q. cbn. rewrite lookup_insert. case_decide as E; [|apply F]. intros [= <-]. subst a'. exact (F a se q Ha).
  - intros q p Hq. destruct (G q p Hq) as [Ea Hm]. split; [|done]. rewrite Ea. clear Ea.
    change (live_sessions q (ipc (upd_ipc _ (put_session ?a ?x s)))) with (live_sessions q (set_sessions (<[a := x]> (sessions (ipc s))) (ipc s))).
    rewrite live_put, (live_delete q a se) by done.
    assert (live q (mkSession None (session_server se) (session_port se)) ↔ live q se) as Hl by done.
    repeat case_decide; (lia || tauto).
Qed.

(** The server end goes, after its port counted it off. *)
Lemma linked_close_server e s o a se :
  linked (λ q, e q - if decide (session_port se = Some q) then 1 else 0) s → parent_of o s = Some a → sessions (ipc s) !! a = Some se →
  linked e (set_objects (put_session a (mkSession (session_client se) None (session_port se)) s)
              (delete o (objects s))).
Proof.
  intros [A B C D F G] Ho Ha. destruct (B o a Ho) as (se' & Ha' & Hse). assert (se' = se) as -> by congruence. clear Ha'.
  set (s' := set_objects _ _).
  assert (∀ o', parent_of o' s' = if decide (o' = o) then None else parent_of o' s) as Hpar.
  { intros o'. unfold parent_of, s'. cbn. rewrite lookup_delete. repeat case_decide; subst; done. }
  split.
  - intros a' se' o'. rewrite Hpar. unfold s'. cbn. rewrite lookup_insert. case_decide as E; [by intros [= <-]|]. intros Hs Hs'.
    pose proof (A a' se' o' Hs Hs') as Hl. rewrite decide_False by congruence. done.
  - intros o' a'. rewrite Hpar. case_decide as E; [done|]. intros Hl. destruct (B o' a' Hl) as (se' & Hs & Hs').
    unfold s'. cbn. rewrite lookup_insert. case_decide as E'; [|by eauto]. congruence.
  - intros a' se' c. unfold s'. cbn. rewrite lookup_insert. case_decide as E; [|apply C]. intros [= <-]. subst a'. exact (C a se c Ha).
  - intros c a' Hl. destruct (D c a' Hl) as (se' & Hs & Hs'). unfold s'. cbn. rewrite lookup_insert. case_decide as E; [|by eauto].
    subst a'. simplify_eq. by eexists.
  - intros a' se' q. unfold s'. cbn. rewrite lookup_insert. case_decide as E; [|apply F]. intros [= <-]. subst a'. exact (F a se q Ha).
  - intros q p Hq. destruct (G q p Hq) as [Ea Hm]. split; [|done]. rewrite Ea. clear Ea.
    change (live_sessions q (ipc s')) with (live_sessions q (set_sessions (<[a := mkSession (session_client se) None (session_port se)]> (sessions (ipc s))) (ipc s))).
    rewrite live_put, (live_delete q a se) by done.
    assert (~ live q (mkSession (session_client se) None (session_port se))) as Hl by (intros [_ H]; done).
    assert (live q se ↔ session_port se = Some q) as Hl' by (unfold live; rewrite Hse; naive_solver).
    repeat case_decide; (lia || tauto).
Qed.

Lemma linked_connected e m s : linked e s → linked e (upd_ipc (set_connected m) s).
Proof. by intros [A B C D F G]. Qed.

Lemma set_hle_keeps o handler s s' : set_hle o handler s = Some s' → keeps s s'.
Proof.
  unfold set_hle. intros H. apply bind_Some in H as ([[[[parent hle] pending] handling] context] & Hs & H). inv_opt. by eapply keeps_server.
Qed.

Lemma Connected_linked e handler server s s' : linked e s → ClientConnected handler server s = Some s' → linked e s'.
Proof.
  intros Hl H. unfold ClientConnected in H. apply bind_Some in H as (s1 & E & H). inv_opt.
  apply (linked_connected e _ s1). by eapply linked_keeps; [eapply set_hle_keeps|].
Qed.

Lemma Disconnected_linked e handler server s s' : linked e s → ClientDisconnected handler server s = Some s' → linked e s'.
Proof.
  intros Hl H. unfold ClientDisconnected in H. apply bind_Some in H as (s1 & E & H). inv_opt.
  apply (linked_connected e _ s1). by eapply linked_keeps; [eapply set_hle_keeps|].
Qed.

(** ** The operations *)

Local Abbreviation Connect := (ClientPort_Connect rasterizer new_buffer process_object stack hle_callback).

Lemma Connect_ok port server client parent s s' r :
  sessions_ok s → fresh_session server client parent s → Connect port server client parent s = Some (s', r) → sessions_ok s'.
Proof.
  intros Hs Hf H. unfold ClientPort_Connect in H. apply bind_Some in H as (p & Hp & H).
  destruct (Z.ltb_spec (active_sessions p) (max_sessions p)) as [Hlt|]; cbn [negb] in H; [|by inv_opt].
  destruct (so_count _ _ Hs port p Hp) as [Ea Hm]. rewrite u32_id in H by lia.
  set (s1 := put_port _ _ s) in H. set (s2 := CreateSessionPair _ _ _ _ s1) in H.
  assert (sessions_ok s2) as H2.
  { apply linked_pair; [|done|].
    - pose proof (linked_count (λ _, 0) s port p 1 Hs Hp ltac:(lia)) as Hc. fold s1 in Hc. clear -Hc.
      destruct Hc as [A B C D F G]. split; try done. intros q pq Hq. destruct (G q pq Hq) as [-> ?]. split; [|done].
      repeat case_decide; simplify_eq; (lia || congruence).
    - intros q [= <-]. unfold s1. cbn. rewrite lookup_insert_eq. by eexists. }
  apply bind_Some in H as (ob & Ho & H). destruct (kind ob) eqn:Ek; try done.
  apply bind_Some in H as (s3 & E3 & H). apply bind_Some in H as (s4 & E4 & H). inv_opt.
  eapply linked_keeps; [by eapply WakeupAll_keeps|]. destruct hle_handler0 as [handler|]; [by eapply Connected_linked|].
  inv_opt. eapply linked_keeps; [|exact H2]. eapply keeps_kind; [done|]. by rewrite Ek.
Qed.

Lemma Accept_keeps o s s' r : ServerPort_Accept o s = Some (s', r) → keeps s s'.
Proof.
  unfold ServerPort_Accept. intros H. apply bind_Some in H as (ob & Ho & H). destruct (kind ob) eqn:Ek; try done.
  destruct (last _); inv_opt; [|done]. eapply keeps_kind; [done|]. by rewrite Ek.
Qed.

Local Abbreviation HandleSyncRequest :=
  (ServerSession_HandleSyncRequest rasterizer new_buffer process_object stack hle_handler hle_callback new_request).
Local Abbreviation SendRequest :=
  (ClientSession_SendSyncRequest rasterizer new_buffer process_object stack hle_handler hle_callback new_request).

Lemma HandleSyncRequest_keeps o t s s' r : HandleSyncRequest o t s = Some (s', r) → keeps s s'.
Proof.
  unfold ServerSession_HandleSyncRequest. intros H. apply bind_Some in H as ([[[[pa0 hle0] pe0] ha0] co0] & _ & H).
  apply bind_Some in H as (s1 & E1 & H). apply bind_Some in H as (th & Ht & H).
  apply bind_Some in H as ([[[[parent hle] pending] handling] context] & Hs & H).
  apply bind_Some in H as (s2 & E2 & H). apply bind_Some in H as (s3 & E3 & H). inv_opt.
  transitivity s1.
  { destruct hle0 as [handler|]; [by eapply handle_hle_keeps|by inv_opt]. }
  transitivity s2; [|by eapply WakeupAll_keeps]. case_decide; [|by inv_opt]. destruct hle.
  - eapply keeps_trans; [apply keeps_thread|by eapply WakeAfterDelay_keeps].
  - inv_opt. eapply keeps_trans; [apply keeps_thread|]. by eapply keeps_server.
Qed.

Lemma SendRequest_keeps client t s s' r : SendRequest client t s = Some (s', r) → keeps s s'.
Proof.
  unfold ClientSession_SendSyncRequest. intros H. apply bind_Some in H as (parent & _ & H). apply bind_Some in H as (se & _ & H).
  destruct (session_server se); [by eapply HandleSyncRequest_keeps|by inv_opt].
Qed.

Lemma svc_read32_keeps pid a s s' v : svc_read32 rasterizer ReadReg pid a s = Some (s', v) → keeps s s'.
Proof.
  unfold svc_read32. intros H. apply bind_Some in H as (p & _ & H). apply bind_Some in H as ([ms x] & _ & H). injection H as <- <-.
  apply keeps_system.
Qed.

Lemma send_reply_keeps t pid target s s' r :
  send_reply rasterizer ReadReg new_buffer process_object stack t pid target s = Some (s', r) → keeps s s'.
Proof.
  unfold send_reply. intros H. apply bind_Some in H as (th & _ & H). apply bind_Some in H as ([s1 h] & E1 & H).
  apply svc_read32_keeps in E1. cbv iota in H. destruct (_ && _); [|by injection H as <- <-].
  apply bind_Some in H as ([o|] & _ & H); [|by injection H as <- <-].
  apply bind_Some in H as ([[[[parent hle] pending] handling] context] & _ & H). apply bind_Some in H as (s2 & E2 & H).
  apply set_handling_keeps in E2. apply bind_Some in H as (se & _ & H).
  transitivity s1; [done|]. transitivity s2; [done|]. destruct handling as [c|], (session_client se); try by injection H as <- <-.
  apply bind_Some in H as ([s3 r3] & E3 & H). apply bind_Some in H as (u & _ & H). apply bind_Some in H as (s4 & E4 & H).
  injection H as <- <-. transitivity s3; [by eapply translate_keeps|by eapply ResumeFromWait_keeps].
Qed.

Lemma receive_keeps t objs s s' i r :
  receive rasterizer new_buffer process_object stack t objs s = Some (s', i, r) → keeps s s'.
Proof.
  unfold receive. intros H. apply bind_Some in H as ([[index o]|] & _ & H).
  - apply bind_Some in H as (s1 & E1 & H). apply Acquire_keeps in E1. transitivity s1; [done|].
    destruct (negb _); [by injection H as <- <- <-|]. apply bind_Some in H as ([s2 r2] & E2 & H). injection H as <- <- <-.
    by eapply Receive_keeps.
  - apply bind_Some in H as (s1 & E1 & H). injection H as <- <- <-. eapply keeps_trans; [apply keeps_thread|].
    eapply keeps_trans; [by eapply add_to_all_keeps|]. eapply keeps_trans; [apply keeps_thread|apply keeps_reschedule].
Qed.

Lemma get_objects_keeps t pid n i a s s' r :
  get_objects rasterizer ReadReg process_object t pid n i a s = Some (s', r) → keeps s s'.
Proof.
  revert i s r. induction n as [|n IH]; intros i s r H; cbn [get_objects] in H; [by injection H as <- <-|].
  apply bind_Some in H as ([s1 h] & E1 & H). apply svc_read32_keeps in E1. apply bind_Some in H as ([o|] & _ & H); [|by injection H as <- <-].
  apply bind_Some in H as ([s2 rest] & E2 & H). injection H as <- <-. transitivity s1; [done|]. by eapply IH.
Qed.

Local Abbreviation ReplyReceive := (ReplyAndReceive rasterizer ReadReg new_buffer process_object stack).

Lemma ReplyAndReceive_keeps t pid a n target s s' i r : ReplyReceive t pid a n target s = Some (s', i, r) → keeps s s'.
Proof.
  unfold ReplyAndReceive. intros H. apply bind_Some in H as (p & _ & H).
  destruct (negb _); [by injection H as <- <- <-|]. destruct (negb _); [by injection H as <- <- <-|].
  apply bind_Some in H as ([s1 [e|objs]] & E1 & H); apply get_objects_keeps in E1; [by injection H as <- <- <-|].
  apply bind_Some in H as ([s2 [[i2 r2]|sent]] & E2 & H); apply send_reply_keeps in E2.
  - injection H as <- <- <-. by transitivity s1.
  - transitivity s1; [done|]. transitivity s2; [done|]. cbv iota in H. destruct (n =? 0); [by injection H as <- <- <-|]. by eapply receive_keeps.
Qed.

Local Abbreviation destroy_client := (ClientSession_destroy rasterizer new_buffer process_object stack hle_callback).

Lemma destroy_client_ok client s s' : sessions_ok s → destroy_client client s = Some s' → sessions_ok s'.
Proof.
  intros Hs H. unfold ClientSession_destroy in H. apply bind_Some in H as (a & Ha & H). apply bind_Some in H as (se & Hse & H).
  apply bind_Some in H as (s1 & E1 & H). apply bind_Some in H as (s2 & E2 & H). inv_opt.
  assert (sessions_ok s1 ∧ client_sessions (ipc s1) !! client = Some a ∧ sessions (ipc s1) !! a = Some se) as (H1 & Ha1 & Hse1).
  { destruct (session_server se) as [server|]; [|by inv_opt].
    apply bind_Some in E1 as ([[[[pa0 hle0] pe0] ha0] co0] & _ & E1). apply bind_Some in E1 as (s0 & E0 & E1).
    apply bind_Some in E1 as ([[[[parent hle] pending] handling] context] & Hsv & E1). inv_opt.
    assert (sessions_ok s0 ∧ client_sessions (ipc s0) = client_sessions (ipc s) ∧ sessions (ipc s0) = sessions (ipc s)) as (H0 & Ec & Es).
    { destruct hle0 as [handler|]; [|by inv_opt]. split; [by eapply Disconnected_linked|].
      unfold ClientDisconnected in E0. apply bind_Some in E0 as (s00 & E00 & E0). inv_opt. apply set_hle_keeps in E00 as [Ei _]. cbn. by rewrite Ei. }
    split; [eapply linked_keeps; [by eapply keeps_server|done]|]. cbn. by rewrite Ec, Es. }
  set (s1' := put_session _ _ s1) in E2.
  assert (keeps s1' s2) as [Ei Hp] by (destruct (session_server se); [by eapply WakeupAll_keeps|by inv_opt]).
  eapply linked_keeps; [|exact (linked_close_client _ s1 client a se H1 Ha1 Hse1)]. fold s1'.
  split; [unfold upd_ipc; cbn; by rewrite Ei|exact Hp].
Qed.

(** The assertion of [ConnectionClosed] holds. *)
Lemma destroy_server_ok o s :
  sessions_ok s → is_server_session o s = true → ∃ s', ServerSession_destroy o s = Some s' ∧ sessions_ok s'.
Proof.
  intros Hs Ho. unfold is_server_session in Ho. unfold ServerSession_destroy.
  destruct (server_of o s) as [[[[[a hle] pending] handling] context]|] eqn:Esv; [|done].
  pose proof (server_parent _ _ _ _ _ _ _ Esv) as Hpar. destruct (so_parent _ _ Hs o a Hpar) as (se & Hse & Hsrv).
  cbn [mbind option_bind]. rewrite Hse. cbn [mbind option_bind].
  assert (linked (λ q, 0 - if decide (session_port se = Some q) then 1 else 0) s → session_port se = None →
    ∃ s', Some (set_objects (put_session a (mkSession (session_client se) None (session_port se)) s) (delete o (objects s))) = Some s' ∧
          sessions_ok s') as Hnone.
  { intros Hl _. eexists. split; [done|]. by apply linked_close_server. }
  destruct (session_port se) as [port|] eqn:Eport; cbn [mbind option_bind].
  - destruct (so_port _ _ Hs a se port Hse Eport) as [p Hp]. destruct (so_count _ _ Hs port p Hp) as [Ea Hm].
    assert (0 < size (live_sessions port (ipc s)))%nat as Hpos.
    { rewrite (live_delete port a se) by done. rewrite decide_True; [lia|]. unfold live. by rewrite Eport, Hsrv. }
    unfold ConnectionClosed. rewrite Hp. cbn [mbind option_bind]. rewrite (proj2 (Z.ltb_lt 0 _)) by lia. cbn [assert_ mbind option_bind].
    eexists. split; [done|]. set (s1 := put_port _ _ s). rewrite <- Eport.
    apply (linked_close_server _ s1 o a se); [|done|done].
    pose proof (linked_count (λ _, 0) s port p (-1) Hs Hp ltac:(lia)) as Hc. replace (active_sessions p + -1) with (active_sessions p - 1) in Hc by lia.
    fold s1 in Hc. clear -Hc Eport.
    destruct Hc as [A B C D F G]. split; try done. intros q pq Hq. destruct (G q pq Hq) as [-> ?]. split; [|done].
    rewrite Eport. repeat case_decide; simplify_eq; (lia || congruence).
  - apply Hnone; [|done]. clear -Hs. by destruct Hs as [A B C D F G].
Qed.

(** ** Reachable states *)

(** The operations on sessions and ports, by any thread and process; the destructors; and the steps of
    the rest of the kernel, which leave sessions alone. *)
Inductive ipc_step : KState → KState → Prop :=
| step_port server client max s :
    objects s !! server = None → client_ports (ipc s) !! client = None → 0 <= max < 2 ^ 32 →
    ipc_step s (CreatePortPair server client max s)
| step_session server client parent s :
    fresh_session server client parent s → ipc_step s (CreateSessionPair server client parent None s)
| step_connect port server client parent s s' r :
    fresh_session server client parent s → Connect port server client parent s = Some (s', r) → ipc_step s s'
| step_accept o s s' r : ServerPort_Accept o s = Some (s', r) → ipc_step s s'
| step_send client t s s' r : SendRequest client t s = Some (s', r) → ipc_step s s'
| step_reply t pid a n target s s' i r : ReplyReceive t pid a n target s = Some (s', i, r) → ipc_step s s'
| step_close_client client s s' : destroy_client client s = Some s' → ipc_step s s'
| step_close_server o s s' : is_server_session o s = true → ServerSession_destroy o s = Some s' → ipc_step s s'
| step_name name port s : ipc_step s (upd_ipc (AddNamedPort name port) s)
| step_other s s' : keeps s s' → ipc_step s s'.

Lemma ipc_step_ok s s' : ipc_step s s' → sessions_ok s → sessions_ok s'.
Proof.
  intros [server client max s0 Ho Hc Hm|server client parent s0 Hf|port server client parent s0 s1 r Hf E|o s0 s1 r E|client t s0 s1 r E
         |t pid a n target s0 s1 i r E|client s0 s1 E|o s0 s1 Ho E|name port s0|s0 s1 E] Hs.
  - by apply linked_port_pair.
  - apply linked_pair; [|done|done]. by destruct Hs as [A B C D F G].
  - by eapply Connect_ok.
  - eapply linked_keeps; [by eapply Accept_keeps|done].
  - eapply linked_keeps; [by eapply SendRequest_keeps|done].
  - eapply linked_keeps; [by eapply ReplyAndReceive_keeps|done].
  - by eapply destroy_client_ok.
  - destruct (destroy_server_ok o s0 Hs Ho) as (s2 & E' & H2). congruence.
  - by destruct Hs as [A B C D F G].
  - by eapply linked_keeps.
Qed.

(** A kernel without sessions and ports. *)
Definition no_sessions (s : KState) : Prop := ipc s = mkIPC ∅ ∅ ∅ ∅ ∅ ∧ ∀ o, parent_of o s = None.


End Invariant.

(** ** An example *)

Module Examples.

Definition no_handler (handler o t id : Z) (c : HLERequestContext) (s : KState) : option (KState * HLERequestContext) := None.
Definition no_callback (id : Z) (reason : ThreadWakeupReason) (t : Z) (c : HLERequestContext) (s : KState)
  : option (KState * HLERequestContext) := None.
Definition start : KState := WaitSynch.Examples.demo (KSemaphore 5 1) [].
(** A port for two sessions, and a session through it. *)
Definition with_port : KState := CreatePortPair 200 201 2 start.
Definition connected : KState :=
  match ClientPort_Connect (λ _ _ _ h, h) (λ _ _, 0) (λ p, p) [] no_callback 201 300 301 302 with_port with
  | Some (s, _) => s
  | None => with_port
  end.


End Examples.
