(* ===== verification/RPC.v ===== *)
(** * A request and its reply

    The composition of sessions, the translation of command buffers, the memory of two processes and
    the scheduler's queues: a client thread sends a request, a thread of the server receives and
    answers it.  Commands here have no parameters to translate; those are the subject of [IPC] and
    [MappedBuffer]. *)

From S2P Require Import IntervalSet PageTable Memory MemoryCopy HandleTable Process SharedMemory IPC HLEContext.
From S2P Require Import Prelude BitField ThreadQueueList CoreTiming ResourceLimit Kernel WaitSynch Session.

(** ** Command buffers

    The buffer of a thread and the slots behind it lie in one page: [ref] backs the page, so that they are the host
    memory from [buffer_ptr]. *)

Record command_buffer (pages : Pages) (ms : MemorySystem) (address : Z) (ref : MemoryRef) : Prop := {
  cb_low : 0 <= address;
  cb_high : address + 0x180 <= 2 ^ 31;
  cb_page : address `mod` CITRA_PAGE_SIZE + 0x180 <= CITRA_PAGE_SIZE;
  cb_backing : page_backing pages ms (address / CITRA_PAGE_SIZE) (Some ref) }.

Definition buffer_ptr (address : Z) (ref : MemoryRef) : Z := GetPtr ref + address `mod` CITRA_PAGE_SIZE.

Section Buffer.
Context (rasterizer : FlushMode → Z → Z → gmap Z Z → gmap Z Z) (ReadReg : Z → Z).
Context (Hras : ∀ mode h, no_writeback rasterizer mode h).
Implicit Types (pages : Pages) (ms : MemorySystem).

Lemma buffer_page pages ms address ref i :
  command_buffer pages ms address ref → 0 <= i < 0x180 →
  page_backing pages ms ((address + i) / CITRA_PAGE_SIZE) (Some ref) ∧
  GetPtr ref + (address + i) `mod` CITRA_PAGE_SIZE = buffer_ptr address ref + i.
Proof.
  intros [H0 H1 H2 H3] Hi. destruct (chunk_split address 0x180 i) as [Ed Em]; [lia..|]. rewrite Ed, Em. unfold buffer_ptr. split; [done|lia].
Qed.

Lemma buffer_separate pages ms address ref n :
  command_buffer pages ms address ref → n <= 0x180 → separate_range pages ms address (address + n).
Proof.
  intros Hb Hn. assert (∀ a, address <= a < address + n → page_backing pages ms (a / CITRA_PAGE_SIZE) (Some ref) ∧
    GetPtr ref + a `mod` CITRA_PAGE_SIZE = buffer_ptr address ref + (a - address)) as Hp.
  { intros a Ha. pose proof (buffer_page pages ms address ref (a - address) Hb ltac:(lia)) as Hp. by replace (address + (a - address)) with a in Hp by lia. }
  split; [intros a Ha; exists ref; by apply Hp|]. intros a b ra rb Ha Hb' Hra Hrb E. destruct (Hp a Ha) as [Ha1 Ha2], (Hp b Hb') as [Hb1 Hb2].
  pose proof (page_backing_det _ _ _ _ _ Hra Ha1). pose proof (page_backing_det _ _ _ _ _ Hrb Hb1). simplify_eq. lia.
Qed.

Lemma buffer_range pages ms address ref n : command_buffer pages ms address ref → n <= 0x180 → range_ok pages ms address (address + n).
Proof. intros Hb Hn a Ha. destruct (proj1 (buffer_separate pages ms address ref n Hb Hn) a Ha) as (r & Hr). by exists (Some r). Qed.

(** Reading a buffer is reading host memory. *)
Lemma buffer_read pages ms address ref (n : nat) :
  command_buffer pages ms address ref → Z.of_nat n <= 0x180 →
  ReadBlock rasterizer pages address (Z.of_nat n) ms = Some (ms, host_bytes (host ms) (buffer_ptr address ref) n).
Proof.
  intros Hb Hn. pose proof Hb as [H0 H1 _ _].
  destruct (read_block_ok rasterizer (λ _, 0) pages ms address (Z.of_nat n)) as (d & -> & Hl & Hd); try (done || lia); [by eapply buffer_range|].
  do 2 f_equal. rewrite Nat2Z.id in Hl. apply list_eq_same_length with (n := n); [by rewrite host_bytes_length|done|].
  intros i x y Hi Hx%Hd [_ ->]%host_bytes_lookup. destruct (buffer_page pages ms address ref (Z.of_nat i) Hb ltac:(lia)) as [Hp Ep].
  rewrite (Read8_ok _ _ _ _ _ (Some ref)) in Hx by (done || lia). injection Hx as <-. simpl. by rewrite Ep.
Qed.

(** The first word of a buffer. *)
Lemma buffer_word pages ms address ref :
  command_buffer pages ms address ref →
  Read32 rasterizer ReadReg pages address ms = Some (ms, le_value (host_bytes (host ms) (buffer_ptr address ref) 4)).
Proof.
  intros [H0 H1 H2 H3]. unfold Read32. rewrite (Read_ok rasterizer ReadReg pages ms 4 address (Some ref)) by (done || lia). done.
Qed.

(** Writing one. *)
Lemma buffer_write pages ms address ref data :
  command_buffer pages ms address ref → Z.of_nat (length data) <= 0x180 → Forall (λ x, 0 <= x < 2 ^ 8) data →
  ∃ h, WriteBlock rasterizer pages address (FromBuffer data) (Z.of_nat (length data)) ms = Some (set_host ms h) ∧
    host_bytes h (buffer_ptr address ref) (length data) = data ∧
    (∀ x, ~ (buffer_ptr address ref <= x < buffer_ptr address ref + Z.of_nat (length data)) → host_byte h x = host_byte (host ms) x) ∧
    (host_wf ms → ∀ x, 0 <= host_byte h x < 2 ^ 8).
Proof.
  intros Hb Hn Hd. pose proof Hb as [H0 H1 _ _].
  destruct (write_read_across rasterizer (λ _, 0) (Hras Invalidate) pages pages ms address address data (Hras Flush)) as (h & Ew & Er & Hf); try (done || lia).
  { by eapply buffer_separate. }
  { intros i Hi. destruct (buffer_page pages ms address ref i Hb ltac:(lia)) as [Hp _]. by exists ref, ref. }
  exists h. split; [done|]. assert (command_buffer pages (set_host ms h) address ref) as Hb' by (by destruct Hb).
  rewrite (buffer_read pages (set_host ms h) address ref (length data) Hb' Hn) in Er. injection Er as Er. split; [done|].
  assert (∀ x, ~ (buffer_ptr address ref <= x < buffer_ptr address ref + Z.of_nat (length data)) → host_byte h x = host_byte (host ms) x) as Hout.
  { intros x Hx. apply Hf. intros a r Ha Hr ->. apply Hx.
    destruct (buffer_page pages ms address ref (a - address) Hb ltac:(lia)) as [Hp Ep].
    replace (address + (a - address)) with a in Hp, Ep by lia. pose proof (page_backing_det _ _ _ _ _ Hr Hp). simplify_eq. lia. }
  split; [done|]. intros Hwf x. destruct (decide (buffer_ptr address ref <= x < buffer_ptr address ref + Z.of_nat (length data))) as [Hx|Hx]; [|rewrite Hout by done; apply Hwf].
  assert (data !! Z.to_nat (x - buffer_ptr address ref) = Some (host_byte h x)) as Hl; [|exact (Forall_lookup_1 _ _ _ _ Hd Hl)].
  rewrite <- Er. apply host_bytes_lookup. split; [lia|]. f_equal. lia.
Qed.

(** *** A command without parameters to translate *)

(** [data] are the bytes of a command of [n] words. *)
Record plain_command (data : list Z) (n : nat) : Prop := {
  pl_length : length data = (4 * n)%nat;
  pl_words : (1 <= n <= COMMAND_BUFFER_LENGTH)%nat;
  pl_bytes : Forall (λ x, 0 <= x < 2 ^ 8) data;
  pl_normal : normal_params_size_of (le_value (take 4 data)) = Z.of_nat n - 1;
  pl_translate : translate_params_size_of (le_value (take 4 data)) = 0 }.

Lemma translate_plain {IS} (new_buffer : MemorySystem → Z → Z) (src dst : Peer) stack source target context reply
    (k : SharedMemory.KState IS) p q rs rd data n :
  processes k !! process_id src = Some p → processes k !! process_id dst = Some q →
  command_buffer (process_pages p) (k_memory k) source rs → command_buffer (process_pages q) (k_memory k) target rd →
  host_bytes (host (k_memory k)) (buffer_ptr source rs) (4 * n) = data → plain_command data n →
  ∃ h, TranslateCommandBuffer rasterizer new_buffer src dst stack source target context reply k =
         Some (put_memory (set_host (k_memory k) h) k, context, ResultSuccess) ∧
    host_bytes h (buffer_ptr target rd) (4 * n) = data ∧
    (∀ x, ~ (buffer_ptr target rd <= x < buffer_ptr target rd + 0x100) → host_byte h x = host_byte (host (k_memory k)) x) ∧
    (host_wf (k_memory k) → ∀ x, 0 <= host_byte h x < 2 ^ 8).
Proof.
  intros Hp Hq Hs Hd Edata [Hlen Hn Hb Hnormal Htr]. unfold COMMAND_BUFFER_LENGTH in Hn.
  assert (∀ m : nat, Z.of_nat m <= 0x100 → read_process rasterizer (process_id src) source (Z.of_nat m) k =
            Some (k, host_bytes (host (k_memory k)) (buffer_ptr source rs) m)) as Hread.
  { intros m Hm. apply (read_process_ok rasterizer _ p); [done|]. apply buffer_read; [done|lia]. }
  destruct (buffer_write (process_pages q) (k_memory k) target rd data Hd ltac:(lia) Hb) as (h & Ew & Eh & Hout & Hwf).
  exists h. rewrite Hlen in Eh, Hout. split; [|split; [done|split; [intros x Hx; apply Hout; lia|done]]].
  pose proof (Hread 4%nat ltac:(lia)) as Hheader. change (Z.of_nat 4) with 4 in Hheader.
  unfold TranslateCommandBuffer. rewrite Hheader. cbn [mbind option_bind].
  assert (host_bytes (host (k_memory k)) (buffer_ptr source rs) 4 = take 4 data) as ->.
  { rewrite <- Edata. rewrite <- (drop_0 (host_bytes _ _ (4 * n))), host_bytes_slice by lia. f_equal. lia. }
  rewrite Hnormal, Htr. change (Z.to_nat 0) with 0%nat. replace (Z.to_nat (1 + (Z.of_nat n - 1))) with n by lia.
  rewrite Nat.add_0_r, Nat.sub_diag, (proj2 (Nat.leb_le _ _)) by (unfold COMMAND_BUFFER_LENGTH; lia). cbn [assert_ mbind option_bind].
  replace (Z.of_nat n * 4) with (Z.of_nat (4 * n)) by lia. rewrite Hread by lia. cbn [mbind option_bind]. rewrite Edata.
  cbn [translate_loop]. rewrite Nat.ltb_irrefl. cbn [mbind option_bind]. change (negb (IsSuccess ResultSuccess)) with false. cbv iota.
  cbn [cmd_buf t_kernel mapped_buffer_context]. rewrite take_app_length' by (by rewrite words_of_length).
  rewrite bytes_of_words by done. unfold write_process. rewrite Hq. cbn [mbind option_bind]. rewrite Ew. done.
Qed.

End Buffer.

(** ** The round trip *)

Section Roundtrip.
Context (rasterizer : FlushMode → Z → Z → gmap Z Z → gmap Z Z) (ReadReg : Z → Z) (new_buffer : MemorySystem → Z → Z).
Context (Hras : ∀ mode h, no_writeback rasterizer mode h).
Context (process_object : Z → Z) (stack : list Z).
Context (hle_handler : Z → Z → Z → Z → HLERequestContext → KState → option (KState * HLERequestContext)).
Context (hle_callback : Z → ThreadWakeupReason → Z → HLERequestContext → KState → option (KState * HLERequestContext)).
Context (new_request : KState → Z).

(** The client thread [c] runs; the thread [v] of the server, whose end [o] nobody waits on, has other
    requests [pending]; the two command buffers are apart. *)
Record rpc_ready (s : KState) (client parent o c v : Z) (port : option Z) (thc thv : Thread) (pc pv : Process seg_set) (rc rv : MemoryRef)
    (pending : list Z) (context : list MappedBufferContext) : Prop := {
  rp_inv : kinv s;
  rp_client : threads s !! c = Some thc;
  rp_running : status thc = Running;
  rp_idle : wait_objects thc = [];
  rp_server : threads s !! v = Some thv;
  rp_distinct : c ≠ v;
  rp_link : client_sessions (ipc s) !! client = Some parent;
  rp_session : sessions (ipc s) !! parent = Some (mkSession (Some client) (Some o) port);
  rp_end : objects s !! o = Some (mkObject [] (KServerSession parent None pending None context));
  rp_pc : processes (system s) !! owner_process thc = Some pc;
  rp_pv : processes (system s) !! owner_process thv = Some pv;
  rp_cbuf : command_buffer (process_pages pc) (k_memory (system s)) (GetCommandBufferAddress thc) rc;
  rp_vbuf : command_buffer (process_pages pv) (k_memory (system s)) (GetCommandBufferAddress thv) rv;
  rp_apart : buffer_ptr (GetCommandBufferAddress thc) rc + 0x100 <= buffer_ptr (GetCommandBufferAddress thv) rv ∨
             buffer_ptr (GetCommandBufferAddress thv) rv + 0x100 <= buffer_ptr (GetCommandBufferAddress thc) rc;
  rp_bytes : host_wf (k_memory (system s)) }.

(** The states on the way: the client thread is [th], the end has the state [k], the memory is [y]. *)
Definition rpc_at (s : KState) (c : Z) (th : Thread) (o : Z) (k : ObjectKind) (y : System) : KState :=
  set_objects (set_threads (set_system s y) (<[c := th]> (threads s))) (<[o := mkObject [] k]> (objects s)).

Lemma rpc_at_start s c th o k : threads s !! c = Some th → objects s !! o = Some (mkObject [] k) → rpc_at s c th o k (system s) = s.
Proof. intros Ht Ho. unfold rpc_at, set_objects, set_threads, set_system. cbn. rewrite !insert_id by done. by destruct s. Qed.

Lemma rpc_at_kind s c th o k k' y : upd_object o (set_kind k') (rpc_at s c th o k y) = rpc_at s c th o k' y.
Proof.
  unfold rpc_at, upd_object, set_objects. cbn. f_equal.
  rewrite (alter_some _ _ _ (mkObject [] k)) by apply lookup_insert_eq. by rewrite insert_insert_eq.
Qed.

Lemma rpc_at_thread s c th f o k y : upd_thread c f (rpc_at s c th o k y) = rpc_at s c (f th) o k y.
Proof.
  unfold rpc_at, upd_thread, set_objects, set_threads. cbn. f_equal.
  rewrite (alter_some _ _ _ th) by apply lookup_insert_eq. by rewrite insert_insert_eq.
Qed.

Lemma rpc_at_server s c th o parent hle pending handling context y :
  server_of o (rpc_at s c th o (KServerSession parent hle pending handling context) y) = Some (parent, hle, pending, handling, context).
Proof. unfold server_of, rpc_at. cbn. by rewrite lookup_insert_eq. Qed.

(** Waking the waiters of an object that has none. *)
Lemma wake_nobody s c th o k y wake :
  (match k with KServerSession _ _ _ _ _ => True | _ => False end) → WakeupAllWaitingThreads wake o (rpc_at s c th o k y) = Some (rpc_at s c th o k y).
Proof.
  intros Hk. assert (objects (rpc_at s c th o k y) !! o = Some (mkObject [] k)) as Ho by apply lookup_insert_eq.
  unfold WakeupAllWaitingThreads, WaitObject_WakeupAllWaitingThreads. rewrite Ho. cbn [mbind option_bind waiting_threads length wakeup_loop].
  unfold GetHighestPriorityReadyThread. rewrite Ho. cbn [mbind option_bind waiting_threads highest_priority_loop]. rewrite Ho. cbn [mbind option_bind kind].
  by destruct k.
Qed.

Local Abbreviation SendRequest :=
  (ClientSession_SendSyncRequest rasterizer new_buffer process_object stack hle_handler hle_callback new_request).
Local Abbreviation translate := (translate_between rasterizer new_buffer process_object stack).

Lemma send_ok s client parent o c v port thc thv pc pv rc rv pending context :
  rpc_ready s client parent o c v port thc thv pc pv rc rv pending context →
  SendRequest client c s =
    Some (rpc_at s c (set_status WaitIPC thc) o (KServerSession parent None (pending ++ [c]) None context) (system s), ResultSuccess).
Proof.
  intros [Hi Hc Hrun _ _ _ Hl Hs Ho _ _ _ _ _ _]. unfold ClientSession_SendSyncRequest. rewrite Hl. cbn [mbind option_bind]. rewrite Hs. cbn [mbind option_bind session_server].
  unfold ServerSession_HandleSyncRequest.
  assert (server_of o s = Some (parent, None, pending, None, context)) as Esv by (unfold server_of; by rewrite Ho).
  rewrite Esv. cbn [mbind option_bind]. rewrite Hc. cbn [mbind option_bind]. rewrite Esv. cbn [mbind option_bind]. rewrite decide_True by done.
  rewrite <- (rpc_at_start s c thc o _ Hc Ho) at 1. rewrite rpc_at_thread, rpc_at_kind. cbn [mbind option_bind]. rewrite wake_nobody by done. done.
Qed.

(** A plain command from one thread to another. *)
Lemma translate_at s c th o parent hle pending handling context y src dst ths thd ps pd rs rd data n reply :
  let s' := rpc_at s c th o (KServerSession parent hle pending handling context) in
  threads (s' y) !! src = Some ths → threads (s' y) !! dst = Some thd →
  processes y !! owner_process ths = Some ps → processes y !! owner_process thd = Some pd →
  command_buffer (process_pages ps) (k_memory y) (GetCommandBufferAddress ths) rs →
  command_buffer (process_pages pd) (k_memory y) (GetCommandBufferAddress thd) rd →
  host_bytes (host (k_memory y)) (buffer_ptr (GetCommandBufferAddress ths) rs) (4 * n) = data → plain_command data n →
  ∃ h, translate src dst o reply (s' y) = Some (s' (put_memory (set_host (k_memory y) h) y), ResultSuccess) ∧
    host_bytes h (buffer_ptr (GetCommandBufferAddress thd) rd) (4 * n) = data ∧
    (∀ x, ~ (buffer_ptr (GetCommandBufferAddress thd) rd <= x < buffer_ptr (GetCommandBufferAddress thd) rd + 0x100) →
       host_byte h x = host_byte (host (k_memory y)) x) ∧
    (host_wf (k_memory y) → ∀ x, 0 <= host_byte h x < 2 ^ 8).
Proof.
  intros s' Hs Hd Hps Hpd Hbs Hbd Edata Hpl.
  destruct (translate_plain rasterizer Hras new_buffer (peer_of process_object src ths) (peer_of process_object dst thd) stack
              (GetCommandBufferAddress ths) (GetCommandBufferAddress thd) context reply y ps pd rs rd data n Hps Hpd Hbs Hbd Edata Hpl)
    as (h & Et & Hrest).
  exists h. split; [|done]. unfold translate_between. rewrite Hs. cbn [mbind option_bind]. rewrite Hd. cbn [mbind option_bind].
  unfold s'. rewrite rpc_at_server. cbn [mbind option_bind]. change (system (rpc_at s c th o ?k y)) with y. rewrite Et. cbn [mbind option_bind].
  change (set_system (rpc_at s c th o ?k y) ?z) with (rpc_at s c th o k z). by rewrite rpc_at_kind.
Qed.

(** The server receives the latest request. *)
Lemma receive_ok s client parent o c v port thc thv pc pv rc rv pending context data n :
  rpc_ready s client parent o c v port thc thv pc pv rc rv pending context → plain_command data n →
  host_bytes (host (k_memory (system s))) (buffer_ptr (GetCommandBufferAddress thc) rc) (4 * n) = data →
  let s1 := rpc_at s c (set_status WaitIPC thc) o (KServerSession parent None (pending ++ [c]) None context) (system s) in
  ∃ h, let y := put_memory (set_host (k_memory (system s)) h) (system s) in
    receive rasterizer new_buffer process_object stack v [o] s1 =
      Some (rpc_at s c (set_status WaitIPC thc) o (KServerSession parent None pending (Some c) context) y, Some 0, ResultSuccess) ∧
    host_bytes h (buffer_ptr (GetCommandBufferAddress thv) rv) (4 * n) = data ∧ (∀ x, 0 <= host_byte h x < 2 ^ 8).
Proof.
  intros [Hi Hc Hrun Hidle Hv Hne Hl Hs Ho Hpc Hpv Hcb Hvb Hap Hwf] Hpl Edata s1.
  assert (ShouldWait o v s1 = Some false) as Hw.
  { unfold ShouldWait, s1, rpc_at. cbn. rewrite lookup_insert_eq. cbn. rewrite Hs. cbn. by rewrite bool_decide_false by (by destruct pending). }
  unfold receive. cbn [first_available]. rewrite Hw. cbn [mbind option_bind].
  assert (Acquire o v s1 = Some (rpc_at s c (set_status WaitIPC thc) o (KServerSession parent None pending (Some c) context) (system s))) as ->.
  { unfold Acquire. replace (objects s1 !! o) with (Some (mkObject [] (KServerSession parent None (pending ++ [c]) None context)))
      by (symmetry; apply lookup_insert_eq). cbn [mbind option_bind kind]. rewrite Hw. cbn [mbind option_bind negb assert_].
    change (sessions (ipc s1)) with (sessions (ipc s)). rewrite Hs. cbn [mbind option_bind session_client]. rewrite last_snoc, removelast_last.
    cbn [mbind option_bind]. unfold s1. by rewrite rpc_at_kind. }
  cbn [mbind option_bind]. unfold is_server_session. rewrite rpc_at_server. cbn [negb].
  unfold ReceiveIPCRequest. rewrite rpc_at_server. cbn [mbind option_bind]. change (ipc (rpc_at s c ?t o ?k ?y)) with (ipc s). rewrite Hs.
  cbn [mbind option_bind session_client].
  destruct (translate_at s c (set_status WaitIPC thc) o parent None pending (Some c) context (system s) c v (set_status WaitIPC thc) thv pc pv rc rv data n false)
    as (h & -> & Eh & _ & Hb); try done.
  { apply lookup_insert_eq. } { cbn. by rewrite lookup_insert_ne. }
  exists h. cbn [mbind option_bind]. change (negb (IsSuccess ResultSuccess)) with false. cbv iota. cbn [mbind option_bind]. split; [done|]. split; [done|]. by apply Hb.
Qed.

Lemma kinv_system s y : kinv s → kinv (set_system s y).
Proof. intros [I1 I2 I3 I4 I5 I6 I7 I8]. by split. Qed.

(** A thread whose status is not that of a waiter is on no list. *)
Lemma not_listed s c th : kinv s → threads s !! c = Some th → waits_for_object (status th) = false →
  ∀ o ob, objects s !! o = Some ob → c ∉ waiting_threads ob.
Proof. intros Hi Hc Hs o ob Ho Hin. destruct (ki_waiters _ Hi o ob c Ho Hin) as (th' & Hth & Hw & _). congruence. Qed.

Lemma rpc_at_inv s client parent o c v port thc thv pc pv rc rv pending context pending' handling' y :
  rpc_ready s client parent o c v port thc thv pc pv rc rv pending context →
  kinv (rpc_at s c (set_status WaitIPC thc) o (KServerSession parent None pending' handling' context) y).
Proof.
  intros [Hi Hc Hrun Hidle _ _ _ Hs Ho _ _ _ _ _ _]. apply (kinv_system _ y) in Hi as Hi1.
  set (s1 := set_threads (set_system s y) (<[c := set_status WaitIPC thc]> (threads s))).
  assert (kinv s1) as H1.
  { apply (kinv_set_thread (set_system s y) c thc); try done. intros o' ob Ho' Hin.
    by destruct (not_listed s c thc Hi Hc ltac:(by rewrite Hrun) o' ob Ho'). }
  assert (rpc_at s c (set_status WaitIPC thc) o (KServerSession parent None pending' handling' context) y =
          upd_object o (set_kind (KServerSession parent None pending' handling' context)) s1) as ->.
  { unfold rpc_at, upd_object, set_objects. cbn. f_equal. by rewrite (alter_some _ _ _ _ Ho). }
  apply kinv_set_kind; [done| |done|].
  - intros ob Hob. assert (ob = mkObject [] (KServerSession parent None pending None context)) as -> by (cbn in Hob; congruence). done.
  - intros pa [= <-]. cbn. by rewrite Hs.
Qed.

Local Abbreviation reply := (send_reply rasterizer ReadReg new_buffer process_object stack).

(** The server replies with a command that is not the one that means no reply. *)
Lemma reply_ok s client parent o c v port thc thv pc pv rc rv pending context h data n target table :
  rpc_ready s client parent o c v port thc thv pc pv rc rv pending context → (∀ x, 0 <= host_byte h x < 2 ^ 8) →
  plain_command data n → command_id_of (le_value (take 4 data)) ≠ 0xFFFF → target ≠ 0 →
  handle_tables (system s) !! owner_process thv = Some table →
  GetGeneric (Some v) (Some (process_object (owner_process thv))) target table = Some o →
  host_bytes h (buffer_ptr (GetCommandBufferAddress thv) rv) (4 * n) = data →
  let y := put_memory (set_host (k_memory (system s)) h) (system s) in
  ∃ h' s', reply v (owner_process thv) target
        (rpc_at s c (set_status WaitIPC thc) o (KServerSession parent None pending (Some c) context) y) = Some (s', inr true) ∧
    system s' = put_memory (set_host (k_memory (system s)) h') (system s) ∧
    host_bytes h' (buffer_ptr (GetCommandBufferAddress thc) rc) (4 * n) = data ∧
    threads s' !! c = Some (resumed (set_status WaitIPC thc)) ∧ kinv s' ∧
    server_of o s' = Some (parent, None, pending, None, context).
Proof.
  intros Hq Hwf Hpl Hcmd Htg Htab Hget Edata y. pose proof Hq as [Hi Hc Hrun Hidle Hv Hne Hl Hs Ho Hpc Hpv Hcb Hvb Hap _].
  set (s2 := rpc_at s c (set_status WaitIPC thc) o (KServerSession parent None pending (Some c) context) y).
  assert (threads s2 !! v = Some thv) as Hv2 by (cbn; by rewrite lookup_insert_ne).
  assert (command_buffer (process_pages pv) (k_memory y) (GetCommandBufferAddress thv) rv) as Hvb2 by (by destruct Hvb).
  assert (command_buffer (process_pages pc) (k_memory y) (GetCommandBufferAddress thc) rc) as Hcb2 by (by destruct Hcb).
  assert (host_bytes h (buffer_ptr (GetCommandBufferAddress thv) rv) 4 = take 4 data) as Ehead.
  { rewrite <- Edata. rewrite <- (drop_0 (host_bytes _ _ (4 * n))), host_bytes_slice by (destruct Hpl; lia). f_equal. lia. }
  unfold send_reply. rewrite Hv2. cbn [mbind option_bind]. unfold svc_read32. change (system s2) with y. change (processes y) with (processes (system s)). rewrite Hpv.
  cbn [mbind option_bind]. rewrite (buffer_word rasterizer ReadReg Hras _ _ _ rv) by done. cbn [mbind option_bind].
  change (host (k_memory y)) with h. rewrite Ehead. change (set_system s2 (put_memory (k_memory y) y)) with s2.
  rewrite (proj2 (Z.eqb_neq target 0)), (proj2 (Z.eqb_neq _ 0xFFFF)) by done. cbn [negb andb].
  unfold Get_server_session, GetGeneric_of. change (system s2) with y. change (handle_tables y) with (handle_tables (system s)). rewrite Htab.
  cbn [mbind option_bind]. rewrite Hget. cbn [mbind option_bind]. unfold s2. rewrite rpc_at_server. cbn [mbind option_bind].
  unfold set_handling. rewrite rpc_at_server. cbn [mbind option_bind]. rewrite rpc_at_kind. change (ipc (rpc_at s c ?t o ?k ?z)) with (ipc s).
  rewrite Hs. cbn [mbind option_bind session_client].
  destruct (translate_at s c (set_status WaitIPC thc) o parent None pending None context y v c thv (set_status WaitIPC thc) pv pc rv rc data n true)
    as (h' & -> & Eh & _); try done.
  { apply lookup_insert_eq. }
  cbn [mbind option_bind]. change (IsSuccess ResultSuccess) with true. cbn [assert_ mbind option_bind].
  set (s3 := rpc_at s c (set_status WaitIPC thc) o (KServerSession parent None pending None context) _).
  assert (kinv s3) as Hi3 by (by eapply rpc_at_inv).
  assert (threads s3 !! c = Some (set_status WaitIPC thc)) as Hc3 by apply lookup_insert_eq.
  destruct (ResumeFromWait_ok c (set_status WaitIPC thc) s3 Hi3 Hc3) as (s4 & -> & Hi4 & Ho4 & _ & Ht4 & _ & _ & _ & Hy4); try done.
  { by apply (not_listed s3 c _ Hi3 Hc3). }
  exists h', s4. cbn [mbind option_bind]. split; [done|]. split; [by rewrite Hy4|]. split; [done|].
  split; [by rewrite Ht4, lookup_insert_eq|]. split; [done|]. unfold server_of. rewrite Ho4. apply rpc_at_server.
Qed.

(** C12: A remote procedure call.  The client sends a plain command: it sleeps until the reply.  The
    server takes the request that was sent last, and finds the client's command in its own command buffer.
    When it has written a reply there and replies to the session, the client becomes ready,
    finds the reply in its command buffer, and the session is as it was before the call. *)
Theorem rpc_roundtrip s client parent o c v port thc thv pc pv rc rv pending context data n :
  rpc_ready s client parent o c v port thc thv pc pv rc rv pending context → plain_command data n →
  let read th m y := read_process rasterizer (owner_process th) (GetCommandBufferAddress th) (Z.of_nat (4 * m)) y in
  read thc n (system s) = Some (system s, data) →
  ∃ s1 s2,
    SendRequest client c s = Some (s1, ResultSuccess) ∧ status <$> threads s1 !! c = Some WaitIPC ∧
    server_of o s1 = Some (parent, None, pending ++ [c], None, context) ∧
    receive rasterizer new_buffer process_object stack v [o] s1 = Some (s2, Some 0, ResultSuccess) ∧
    read thv n (system s2) = Some (system s2, data) ∧ server_of o s2 = Some (parent, None, pending, Some c, context) ∧
    ∀ data' m target table,
      plain_command data' m → command_id_of (le_value (take 4 data')) ≠ 0xFFFF → target ≠ 0 →
      handle_tables (system s) !! owner_process thv = Some table →
      GetGeneric (Some v) (Some (process_object (owner_process thv))) target table = Some o →
      ∃ y s3, write_process rasterizer (owner_process thv) (GetCommandBufferAddress thv) data' (system s2) = Some y ∧
        reply v (owner_process thv) target (set_system s2 y) = Some (s3, inr true) ∧
        status <$> threads s3 !! c = Some Ready ∧ read thc m (system s3) = Some (system s3, data') ∧
        server_of o s3 = Some (parent, None, pending, None, context) ∧ kinv s3.
Proof.
  intros Hq Hpl read Er. pose proof Hq as [Hi Hc Hrun Hidle Hv Hne Hl Hs Ho Hpc Hpv Hcb Hvb Hap Hwf].
  assert (∀ th p r m h, processes (system s) !! owner_process th = Some p → (m <= 64)%nat →
    command_buffer (process_pages p) (k_memory (system s)) (GetCommandBufferAddress th) r →
    let y := put_memory (set_host (k_memory (system s)) h) (system s) in
    read th m y = Some (y, host_bytes h (buffer_ptr (GetCommandBufferAddress th) r) (4 * m))) as Hread.
  { intros th p r m h Hp Hm Hb y. apply (read_process_ok rasterizer y p); [done|]. apply (buffer_read rasterizer Hras _ (k_memory y)); [by destruct Hb|lia]. }
  assert (put_memory (set_host (k_memory (system s)) (host (k_memory (system s)))) (system s) = system s) as Esame.
  { unfold put_memory. rewrite set_host_id. by destruct (system s). }
  assert (n <= 64)%nat as Hn by (destruct Hpl; unfold COMMAND_BUFFER_LENGTH in *; lia).
  pose proof (Hread thc pc rc n (host (k_memory (system s))) Hpc Hn Hcb) as Er'. cbv zeta in Er'. rewrite Esame, Er in Er'. injection Er' as Edata.
  destruct (receive_ok s client parent o c v port thc thv pc pv rc rv pending context data n Hq Hpl (eq_sym Edata)) as (h & Erec & Eh & Hb).
  eexists _, _. split; [by eapply send_ok|]. split; [cbn; by rewrite lookup_insert_eq|]. split; [apply rpc_at_server|].
  split; [exact Erec|]. split; [rewrite <- Eh; by eapply Hread|]. split; [apply rpc_at_server|].
  intros data' m target table Hpl' Hcmd Htg Htab Hget.
  assert (Z.of_nat (length data') <= 0x180) as Hlen by (destruct Hpl'; unfold COMMAND_BUFFER_LENGTH in *; lia).
  set (y := put_memory (set_host (k_memory (system s)) h) (system s)).
  destruct (buffer_write rasterizer Hras (process_pages pv) (k_memory y) (GetCommandBufferAddress thv) rv data' ltac:(by destruct Hvb) Hlen
              (pl_bytes _ _ Hpl')) as (h2 & Ew & Eh2 & _ & Hb2). rewrite (pl_length _ _ Hpl') in Eh2.
  destruct (reply_ok s client parent o c v port thc thv pc pv rc rv pending context h2 data' m target table Hq (Hb2 Hb) Hpl' Hcmd Htg Htab Hget Eh2)
    as (h3 & s3 & Erep & Ey3 & Eh3 & Ht3 & Hi3 & Hsv3).
  exists (put_memory (set_host (k_memory (system s)) h2) (system s)), s3. split.
  { unfold write_process. change (processes (system (rpc_at s c ?t o ?k ?z))) with (processes (system s)). rewrite Hpv. cbn [mbind option_bind].
    change (k_memory (system (rpc_at s c ?t o ?k y))) with (k_memory y). by rewrite Ew. }
  split; [exact Erep|]. split; [by rewrite Ht3|]. split; [|done]. rewrite Ey3, <- Eh3. eapply Hread; [done| |done].
  destruct Hpl'; unfold COMMAND_BUFFER_LENGTH in *; lia.
Qed.

End Roundtrip.

(** ** An example *)

Module Examples.
Import IPC.Examples SharedMemory.Examples.

(** Thread 1 of process 1 calls thread 2 of process 2, which runs on the other core; the session is 302, its ends
    301 and 300, and the server's handle of its end is 1. *)
Definition rpc_thread (id core owner tls : Z) : Thread :=
  mkThread id Running 30 30 [] [] [] 0 None (Z.to_nat core) 0 0 0 0 owner Application tls.
Definition client_thread : Thread := rpc_thread 1 0 1 0x8000000.
Definition server_thread : Thread := rpc_thread 2 1 2 0x8001000.

Definition request : list Z := bytes_of [MakeHeader 0x12 2 0; 7; 9].
Definition answer : list Z := bytes_of [MakeHeader 0x12 1 0; 0].
Definition rpc_memory : MemorySystem := set_host Memory.Examples.demo_memory (host_set 0x100001080 request ∅).
Definition rpc_system : System :=
  put_memory rpc_memory (put_process 1 two_pages (put_process 2 two_pages
    (put_table 2 (opened 300 HandleTable_new) (put_table 1 HandleTable_new kdemo)))).
Definition rpc_state : KState :=
  mkK (list_to_map [(1, client_thread); (2, server_thread)])
      (list_to_map [(300, mkObject [] (KServerSession 302 None [] None []))]) ∅
      [mkManager (Some 1) WaitSynch.Examples.demo_queue ∅ [1]; mkManager (Some 2) WaitSynch.Examples.demo_queue ∅ [2]]
      (Timing_new 2 0) false Single
      (mkLimiter false false 0 false []) (mkLimiter false false 0 false [])
      (mkIPC {[ 302 := mkSession (Some 301) (Some 300) None ]} {[ 301 := 302 ]} ∅ ∅ ∅) rpc_system ∅.

Lemma rpc_state_inv : kinv rpc_state.
Proof.
  split; simpl.
  - intros core m Hm. assert (ready_queue m = WaitSynch.Examples.demo_queue) as Eq by (by destruct core as [|[|]]; simplify_eq/=).
    destruct WaitSynch.Examples.demo_queue_ok as (a & Ha & Hp). exists a. rewrite Eq. split; [done|]. intros t th Ht _.
    WaitSynch.Examples.cases_in Ht; apply Hp; set_solver.
  - intros t th Ht. WaitSynch.Examples.cases_in Ht; (split; [by eexists|split; vm_compute; lia]).
  - intros t th m Ht Hm. WaitSynch.Examples.cases_in Ht; simpl in Hm; by apply elem_of_nil in Hm.
  - intros m ob lc p h Hm Ek. by WaitSynch.Examples.cases_in Hm.
  - intros o ob t Ho Hin. WaitSynch.Examples.cases_in Ho. by apply elem_of_nil in Hin.
  - intros o ob Ho. WaitSynch.Examples.cases_in Ho. constructor.
  - intros t th o Ht Hin. WaitSynch.Examples.cases_in Ht; simpl in Hin; by apply elem_of_nil in Hin.
  - intros o ob parent Ho Ep. WaitSynch.Examples.cases_in Ho. injection Ep as <-. by eexists.
Qed.

Definition page_ref (off : Z) : MemoryRef := mkRef (Some Memory.Examples.fcram) off.

Lemma rpc_buffer tls n off :
  (tls = 0x8000000 ∧ off = 0x1000 ∧ n = 0x8000 ∨ tls = 0x8001000 ∧ off = 0x7000 ∧ n = 0x8001) →
  command_buffer (process_pages two_pages) (k_memory rpc_system) (u32 (tls + 0x80)) (page_ref off).
Proof.
  intros H. split.
  - destruct H as [(-> & _)|(-> & _)]; by vm_compute.
  - destruct H as [(-> & _)|(-> & _)]; by vm_compute.
  - destruct H as [(-> & _)|(-> & _)]; by vm_compute.
  - replace (u32 (tls + 0x80) / CITRA_PAGE_SIZE) with n by (destruct H as [(-> & -> & ->)|(-> & -> & ->)]; by vm_compute).
    assert (n = 0x8000 ∧ off = 0x1000 ∨ n = 0x8001 ∧ off = 0x7000) as Hn by lia. exact (two_pages_backing n off Hn).
Qed.

Lemma rpc_bytes : host_wf rpc_memory.
Proof.
  intros x. unfold host_byte. destruct (host rpc_memory !! x) as [y|] eqn:E; [|simpl; lia]. apply elem_of_map_to_list in E.
  vm_compute in E. simpl. set_unfold. naive_solver lia.
Qed.

Lemma rpc_state_ready :
  rpc_ready rpc_state 301 302 300 1 2 None client_thread server_thread two_pages two_pages (page_ref 0x1000) (page_ref 0x7000) [] [].
Proof.
  split; try reflexivity; try done.
  - exact rpc_state_inv.
  - by apply (rpc_buffer _ 0x8000); left.
  - by apply (rpc_buffer _ 0x8001); right.
  - left. by vm_compute.
  - exact rpc_bytes.
Qed.

(** The client's two words reach the server, and the server's result the client. *)
Lemma rpc_roundtrip_witness :
  ∃ s1 s2 y s3,
    ClientSession_SendSyncRequest Memory.Examples.no_cache (λ _ _, 0) (λ p, 10 * p + 1) [] (λ _ _ _ _ _ _, None)
      (λ _ _ _ _ _, None) (λ _, 0) 301 1 rpc_state = Some (s1, ResultSuccess) ∧
    receive Memory.Examples.no_cache (λ _ _, 0) (λ p, 10 * p + 1) [] 2 [300] s1 = Some (s2, Some 0, ResultSuccess) ∧
    read_process Memory.Examples.no_cache 2 0x8001080 12 (system s2) = Some (system s2, request) ∧
    write_process Memory.Examples.no_cache 2 0x8001080 answer (system s2) = Some y ∧
    send_reply Memory.Examples.no_cache (λ _, 0) (λ _ _, 0) (λ p, 10 * p + 1) [] 2 2 1 (set_system s2 y) = Some (s3, inr true) ∧
    read_process Memory.Examples.no_cache 1 0x8000080 8 (system s3) = Some (system s3, answer).
Proof.
  destruct (rpc_roundtrip Memory.Examples.no_cache (λ _, 0) (λ _ _, 0) ltac:(intros mode h p n; reflexivity) (λ p, 10 * p + 1) []
              (λ _ _ _ _ _ _, None) (λ _ _ _ _ _, None) (λ _, 0) rpc_state 301 302 300 1 2 None client_thread server_thread two_pages two_pages
              (page_ref 0x1000) (page_ref 0x7000) [] [] request 3 rpc_state_ready) as (s1 & s2 & E1 & _ & _ & E2 & E3 & _ & Hreply).
  - split; try (vm_compute; done || lia). by apply (bool_decide_unpack _); vm_compute.
  - vm_compute. reflexivity.
  - destruct (Hreply answer 2%nat 1 (opened 300 HandleTable_new)) as (y & s3 & E4 & E5 & _ & E6 & _).
    + split; try (vm_compute; done || lia). by apply (bool_decide_unpack _); vm_compute.
    + by vm_compute.
    + done.
    + reflexivity.
    + by vm_compute.
    + exists s1, s2, y, s3. split; [exact E1|]. split; [exact E2|]. split; [exact E3|]. split; [exact E4|]. split; [exact E5|exact E6].
Defined.

End Examples.
