(* ===== verification/HLECall.v ===== *)
(** * A call of an emulated service

    The counterpart of [RPC] for a session whose server end has a handler of the emulator: sessions, request
    contexts, the memory of the client, the event scheduler and the ready queue together. *)

From S2P Require Import IntervalSet PageTable Memory MemoryCopy HandleTable Process SharedMemory IPC HLEContext.
From S2P Require Import Prelude BitField ThreadQueueList CoreTiming ResourceLimit Kernel WaitSynch Session RPC.

(** ** Requests without parameters to translate *)

Lemma take_bytes_of n ws : take (4 * n) (bytes_of ws) = bytes_of (take n ws).
Proof.
  revert ws. induction n as [|n IH]; intros ws; [done|]. destruct ws as [|w ws]; [by rewrite take_nil|].
  unfold bytes_of. cbn [take fmap list_fmap mjoin list_join]. replace (4 * S n)%nat with (4 + 4 * n)%nat by lia.
  change (mjoin (le_bytes 4 <$> ws)) with (bytes_of ws). change (mjoin (le_bytes 4 <$> take n ws)) with (bytes_of (take n ws)).
  rewrite <- IH. reflexivity.
Qed.

Section Plain.
Context {IS : Type} (rasterizer : FlushMode → Z → Z → gmap Z Z → gmap Z Z) (client : Peer).
Implicit Types k : SharedMemory.KState IS.

Lemma populate_plain src header n c k :
  src !! 0%nat = Some header → normal_params_size_of header = Z.of_nat n → translate_params_size_of header = 0 →
  (S n <= COMMAND_BUFFER_LENGTH)%nat →
  PopulateFromIncomingCommandBuffer rasterizer client src c k = Some (set_ctx_buf (take (S n) src ++ drop (S n) (ctx_cmd_buf c)) c, k).
Proof.
  intros H0 Hn Ht Hl. unfold PopulateFromIncomingCommandBuffer. rewrite H0. cbn [mbind option_bind]. rewrite Hn, Ht.
  replace (Z.to_nat (1 + Z.of_nat n)) with (S n) by lia. change (Z.to_nat 0) with 0%nat.
  rewrite Nat.add_0_r, Nat.sub_diag, (proj2 (Nat.leb_le _ _)) by done. cbn [assert_ mbind option_bind populate_loop]. by rewrite Nat.ltb_irrefl.
Qed.

Lemma write_plain dst header n c k :
  ctx_cmd_buf c !! 0%nat = Some header → normal_params_size_of header = Z.of_nat n → translate_params_size_of header = 0 →
  (S n <= COMMAND_BUFFER_LENGTH)%nat →
  WriteToOutgoingCommandBuffer rasterizer client c dst k = Some (take (S n) (ctx_cmd_buf c) ++ drop (S n) dst, k).
Proof.
  intros H0 Hn Ht Hl. unfold WriteToOutgoingCommandBuffer, CommandHeader. rewrite H0. cbn [mbind option_bind]. rewrite Hn, Ht.
  replace (Z.to_nat (1 + Z.of_nat n)) with (S n) by lia. change (Z.to_nat 0) with 0%nat.
  rewrite Nat.add_0_r, Nat.sub_diag, (proj2 (Nat.leb_le _ _)) by done. cbn [assert_ mbind option_bind write_loop]. by rewrite Nat.ltb_irrefl.
Qed.

End Plain.

(** A service that computes the words of its reply from the words of the request. *)
Definition plain_service (n : nat) (f : list Z → list Z) (c : HLERequestContext) : option HLERequestContext :=
  rp ← RequestParser_new c;
  '(rp, words) ← pop_words n rp;
  rb ← MakeBuilder (Z.of_nat (length (f words))) 0 rp;
  rb ← push_words (f words) rb;
  Some (h_context rb).

Lemma words_at_take buf ws : words_at buf 0 ws → take (length ws) buf = ws.
Proof.
  intros H. apply list_eq. intros i. destruct (decide (i < length ws)%nat) as [Hi|Hi].
  - rewrite lookup_take_lt by done. destruct (lookup_lt_is_Some_2 ws i Hi) as [w Hw]. rewrite Hw. exact (H i w Hw).
  - rewrite lookup_take_ge by lia. symmetry. apply lookup_ge_None_2. lia.
Qed.

Lemma plain_service_ok id n f c words :
  filled 1 c → words_at (ctx_cmd_buf c) 0 (MakeHeader id (Z.of_nat n) 0 :: words) → length words = n →
  0 <= id < 2 ^ 16 → (S n <= COMMAND_BUFFER_LENGTH)%nat → (S (length (f words)) <= COMMAND_BUFFER_LENGTH)%nat →
  ∃ c', plain_service n f c = Some c' ∧ words_at (ctx_cmd_buf c') 0 (MakeHeader id (Z.of_nat (length (f words))) 0 :: f words).
Proof.
  intros Hf Hw Hn Hid Hl Hout. pose proof (proj1 (words_at_cons _ _ _ _) Hw) as [H0 Hws]. unfold COMMAND_BUFFER_LENGTH in *.
  destruct (header_fields id (Z.of_nat n) 0) as (Eid & _); [lia..|]. unfold plain_service, RequestParser_new, CommandHeader. rewrite H0. cbn [mbind option_bind].
  rewrite <- Hn. rewrite pop_words_at by done. cbn [mbind option_bind]. unfold MakeBuilder, RequestBuilder_new. cbn [h_header h_context]. rewrite Hn, Eid, u16_id by done.
  assert (filled 1 (ClearIncomingObjects c)) as Hf0 by (destruct Hf as [F1 F2 F3 F4]; split; [done|done|cbn; lia|done]).
  destruct (ctx_put_ok 0 (MakeHeader id (Z.of_nat (length (f words))) 0) _ 1 Hf0) as (-> & Hf1 & _ & Hw0); [unfold COMMAND_BUFFER_LENGTH; lia|].
  cbn [mbind option_bind]. destruct (push_words_ok (f words) 1 1 _ (MakeHeader id (Z.of_nat (length (f words))) 0) Hf1)
    as (c2 & -> & _ & Hg & Hw2 & _); [unfold COMMAND_BUFFER_LENGTH; lia|]. cbn [mbind option_bind h_context]. exists c2. split; [done|].
  apply words_at_cons. split; [|done]. rewrite (gr_words _ _ _ _ Hg) by lia. exact Hw0.
Qed.

(** ** The call *)

Section Call.
Context (rasterizer : FlushMode → Z → Z → gmap Z Z → gmap Z Z) (new_buffer : MemorySystem → Z → Z).
Context (Hras : ∀ mode h, no_writeback rasterizer mode h).
Context (process_object : Z → Z) (stack : list Z).
Context (hle_handler : Z → Z → Z → Z → HLERequestContext → KState → option (KState * HLERequestContext)).
Context (hle_callback : Z → ThreadWakeupReason → Z → HLERequestContext → KState → option (KState * HLERequestContext)).
Context (new_request : KState → Z).

(** The client thread [c] runs, and its session ends in [o], which the service [handler] handles. *)
Record hle_ready (s : KState) (client parent o c handler : Z) (port : option Z) (thc : Thread) (pc : Process seg_set) (rc : MemoryRef)
    (tm : Timing TimedCallback) : Prop := {
  hr_inv : kinv s;
  hr_client : threads s !! c = Some thc;
  hr_running : status thc = Running;
  hr_idle : wait_objects thc = [];
  hr_link : client_sessions (ipc s) !! client = Some parent;
  hr_session : sessions (ipc s) !! parent = Some (mkSession (Some client) (Some o) port);
  hr_end : objects s !! o = Some (mkObject [] (KServerSession parent (Some handler) [] None []));
  hr_pc : processes (system s) !! owner_process thc = Some pc;
  hr_cbuf : command_buffer (process_pages pc) (k_memory (system s)) (GetCommandBufferAddress thc) rc;
  hr_bytes : host_wf (k_memory (system s));
  hr_timer : ScheduleEvent (timing s) (nsToCycles_s64 IPCDelayNanoseconds) (Some (ThreadWakeupEventType (core_id thc))) (thread_id thc)
               None false = Some tm;
  hr_table : ∃ m, managers s !! core_id thc = Some m ∧ wakeup_callback_table m !! thread_id thc = Some c }.

Lemma put_same_memory (y : System) : put_memory (set_host (k_memory y) (host (k_memory y))) y = y.
Proof. unfold put_memory. rewrite set_host_id. by destruct y. Qed.

Lemma set_system_id s : set_system s (system s) = s.
Proof. by destruct s. Qed.

(** The client's buffer, as words. *)
Definition command_words (y : System) (thc : Thread) (rc : MemoryRef) : list Z :=
  words_of (host_bytes (host (k_memory y)) (buffer_ptr (GetCommandBufferAddress thc) rc) (4 * FULL_COMMAND_LENGTH)) FULL_COMMAND_LENGTH.

Lemma read_command_ok s thc pc rc :
  processes (system s) !! owner_process thc = Some pc →
  command_buffer (process_pages pc) (k_memory (system s)) (GetCommandBufferAddress thc) rc →
  read_command rasterizer thc s = Some (s, command_words (system s) thc rc).
Proof.
  intros Hp Hb. unfold read_command. change (4 * Z.of_nat FULL_COMMAND_LENGTH) with (Z.of_nat (4 * FULL_COMMAND_LENGTH)).
  rewrite (read_process_ok rasterizer (system s) pc (owner_process thc) (GetCommandBufferAddress thc) (Z.of_nat (4 * FULL_COMMAND_LENGTH))
             (host_bytes (host (k_memory (system s))) (buffer_ptr (GetCommandBufferAddress thc) rc) (4 * FULL_COMMAND_LENGTH)) Hp).
  - cbn [mbind option_bind]. by rewrite set_system_id.
  - by apply (buffer_read rasterizer Hras).
Qed.

(** The kernel's part of a request with [n] words to a plain service: the reply is in the client's buffer. *)
Lemma handle_hle_ok s client parent o c handler port thc pc rc tm id n f words rest :
  hle_ready s client parent o c handler port thc pc rc tm → length stack = COMMAND_BUFFER_LENGTH →
  (∀ r x s, hle_handler handler o c r x s = (x ← plain_service n f x; Some (s, x))) →
  command_words (system s) thc rc = MakeHeader id (Z.of_nat n) 0 :: words ++ rest → length words = n → 0 <= id < 2 ^ 16 →
  (S n <= COMMAND_BUFFER_LENGTH)%nat → (S (length (f words)) <= COMMAND_BUFFER_LENGTH)%nat →
  Forall (λ w, 0 <= w < 2 ^ 32) (f words) →
  ∃ h r x, let y := put_memory (set_host (k_memory (system s)) h) (system s) in
    handle_hle_request rasterizer process_object stack hle_handler new_request handler o c s = Some (set_system (put_request r x s) y) ∧
    host_bytes h (buffer_ptr (GetCommandBufferAddress thc) rc) (4 * S (length (f words))) =
      bytes_of (MakeHeader id (Z.of_nat (length (f words))) 0 :: f words) ∧
    (∀ a, 0 <= host_byte h a < 2 ^ 8).
Proof.
  intros [Hi Hc Hrun _ _ _ _ Hpc Hb Hwf _ _] Hst Hsvc Ew Hn Hid Hl Hout Hrange. set (src := command_words (system s) thc rc) in *.
  set (m := length (f words)) in *. unfold COMMAND_BUFFER_LENGTH in *.
  destruct (header_fields id (Z.of_nat n) 0) as (_ & En & Et); [lia..|]. destruct (header_fields id (Z.of_nat m) 0) as (_ & Em & Et'); [lia..|].
  assert (length src = FULL_COMMAND_LENGTH) as Hsrc by apply words_of_length.
  unfold handle_hle_request. rewrite Hc. cbn [mbind option_bind]. rewrite (read_command_ok s thc pc rc Hpc Hb). cbn [mbind option_bind].
  rewrite (populate_plain rasterizer _ src (MakeHeader id (Z.of_nat n) 0) n) by (rewrite ?Ew; (done || unfold COMMAND_BUFFER_LENGTH; lia)).
  cbn [mbind option_bind]. rewrite set_system_id. set (c0 := set_ctx_buf _ _).
  assert (words_at (ctx_cmd_buf c0) 0 (MakeHeader id (Z.of_nat n) 0 :: words)) as Hw0.
  { intros j w Hj. pose proof (lookup_lt_Some _ _ _ Hj) as Hlt. cbn [length] in Hlt. unfold c0. cbn [ctx_cmd_buf set_ctx_buf].
    rewrite lookup_app_l by (rewrite length_take, Hsrc; unfold FULL_COMMAND_LENGTH, COMMAND_BUFFER_LENGTH; lia).
    rewrite lookup_take_lt by lia. rewrite Ew. change (0 + j)%nat with j. change (?a :: words ++ rest) with ((a :: words) ++ rest).
    by rewrite lookup_app_l by (cbn [length]; lia). }
  assert (filled 1 c0) as Hf0.
  { split; [|done|cbn; lia|cbn; lia]. unfold c0. cbn [ctx_cmd_buf set_ctx_buf HLERequestContext_new].
    rewrite length_app, length_take, length_drop, length_insert, Hsrc. unfold FULL_COMMAND_LENGTH, COMMAND_BUFFER_LENGTH in *. lia. }
  rewrite Hsvc. destruct (plain_service_ok id n f c0 words Hf0 Hw0 Hn Hid) as (c1 & -> & Hw1); [unfold COMMAND_BUFFER_LENGTH; lia..|]. fold m in Hw1.
  cbn [mbind option_bind]. change (threads (put_request ?r c1 s)) with (threads s). rewrite Hc. cbn [mbind option_bind]. rewrite Hrun.
  rewrite bool_decide_true by done. cbn [orb assert_ mbind option_bind]. rewrite decide_True by done.
  unfold write_reply. change (system (put_request ?r c1 s)) with (system s).
  rewrite (write_plain rasterizer _ src (MakeHeader id (Z.of_nat m) 0) m) by
    (first [by apply (proj1 (proj1 (words_at_cons _ _ _ _) Hw1)) | done | unfold COMMAND_BUFFER_LENGTH; lia]).
  cbn [mbind option_bind]. pose proof (words_at_take _ _ Hw1) as Etake. cbn [length] in Etake. fold m in Etake. rewrite Etake.
  set (dst := (MakeHeader id (Z.of_nat m) 0 :: f words) ++ drop (S m) src).
  assert (length dst = FULL_COMMAND_LENGTH) as Hdst.
  { unfold dst. rewrite length_app, length_drop, Hsrc. cbn [length]. fold m. unfold FULL_COMMAND_LENGTH, COMMAND_BUFFER_LENGTH. lia. }
  destruct (buffer_write rasterizer Hras (process_pages pc) (k_memory (system s)) (GetCommandBufferAddress thc) rc (bytes_of dst) Hb)
    as (h & Ewr & Eh & _ & Hb'); [rewrite bytes_of_length, Hdst; done|apply bytes_of_range|].
  unfold write_process. rewrite Hpc. cbn [mbind option_bind]. rewrite Ewr. cbn [mbind option_bind].
  eexists h, _, c1. split; [reflexivity|]. split; [|by apply Hb'].
  rewrite bytes_of_length, Hdst in Eh.
  rewrite <- (drop_0 (host_bytes _ _ (4 * S m))).
  assert (host_bytes h (buffer_ptr (GetCommandBufferAddress thc) rc) (4 * S m) = take (4 * S m) (bytes_of dst)) as ->.
  { rewrite <- Eh. rewrite <- (drop_0 (host_bytes h _ (4 * FULL_COMMAND_LENGTH))), host_bytes_slice by (unfold FULL_COMMAND_LENGTH, COMMAND_BUFFER_LENGTH; lia).
    f_equal. lia. }
  rewrite drop_0, take_bytes_of. unfold dst. by rewrite take_app_length' by done.
Qed.

Local Abbreviation SendRequest :=
  (ClientSession_SendSyncRequest rasterizer new_buffer process_object stack hle_handler hle_callback new_request).
Local Abbreviation ipc_wakeup := (Session.ipc_wakeup rasterizer new_buffer process_object stack hle_callback).

(** Waking the waiters of the session, of which there are none. *)
Lemma wake_no_waiter s o parent hle :
  objects s !! o = Some (mkObject [] (KServerSession parent hle [] None [])) → WakeupAllWaitingThreads ipc_wakeup o s = Some s.
Proof.
  intros Ho. unfold WakeupAllWaitingThreads, WaitObject_WakeupAllWaitingThreads. rewrite Ho. cbn [mbind option_bind waiting_threads length wakeup_loop].
  unfold GetHighestPriorityReadyThread. rewrite Ho. cbn [mbind option_bind waiting_threads highest_priority_loop]. by rewrite Ho.
Qed.

(** The state after the call: the request is kept, the memory is [y], the client sleeps, the event is scheduled. *)
Definition called (s : KState) (c : Z) (thc : Thread) (r : Z) (x : HLERequestContext) (y : System) (tm : Timing TimedCallback) : KState :=
  set_timing (upd_thread c (set_status WaitIPC) (set_system (put_request r x s) y)) tm.

Lemma called_inv s c thc r x y tm :
  kinv s → threads s !! c = Some thc → status thc = Running → wait_objects thc = [] → kinv (called s c thc r x y tm).
Proof.
  intros Hi Hc Hrun Hidle. assert (kinv (set_system (put_request r x s) y)) as Hi1 by (destruct Hi as [I1 I2 I3 I4 I5 I6 I7 I8]; by split).
  assert (kinv (upd_thread c (set_status WaitIPC) (set_system (put_request r x s) y))) as [I1 I2 I3 I4 I5 I6 I7 I8]; [|by split].
  unfold upd_thread. change (threads (set_system (put_request r x s) y)) with (threads s). rewrite (alter_some _ _ _ thc) by done.
  apply (kinv_set_thread (set_system (put_request r x s) y) c thc); try done.
  intros o ob Ho Hin. by destruct (not_listed s c thc Hi Hc ltac:(by rewrite Hrun) o ob Ho).
Qed.

(** C13: A call of an emulated service.  The service computes the words of a reply from those of a request; the client's
    buffer holds a request with [n] words.  The call succeeds: the reply with the command's id and the
    words of the service is in the client's buffer, the client sleeps with a wakeup scheduled after the
    delay that stands for the cost of the call, and when the timer calls back, the client is ready and its buffer is as it was. *)
Theorem hle_call s client parent o c handler port thc pc rc tm id n f words rest :
  hle_ready s client parent o c handler port thc pc rc tm → length stack = COMMAND_BUFFER_LENGTH →
  (∀ r x s, hle_handler handler o c r x s = (x ← plain_service n f x; Some (s, x))) →
  command_words (system s) thc rc = MakeHeader id (Z.of_nat n) 0 :: words ++ rest → length words = n → 0 <= id < 2 ^ 16 →
  (S n <= COMMAND_BUFFER_LENGTH)%nat → (S (length (f words)) <= COMMAND_BUFFER_LENGTH)%nat →
  Forall (λ w, 0 <= w < 2 ^ 32) (f words) →
  let m := length (f words) in
  let read y := read_process rasterizer (owner_process thc) (GetCommandBufferAddress thc) (Z.of_nat (4 * S m)) y in
  ∃ s1, SendRequest client c s = Some (s1, ResultSuccess) ∧ status <$> threads s1 !! c = Some WaitIPC ∧ timing s1 = tm ∧
    read (system s1) = Some (system s1, bytes_of (MakeHeader id (Z.of_nat m) 0 :: f words)) ∧
    ∀ cycles_late, ∃ s2, ThreadWakeupCallback ipc_wakeup (core_id thc) (thread_id thc) cycles_late s1 = Some s2 ∧
      status <$> threads s2 !! c = Some Ready ∧ kinv s2 ∧ system s2 = system s1.
Proof.
  intros Hq Hst Hsvc Ew Hn Hid Hl Hout Hrange m read. pose proof Hq as [Hi Hc Hrun Hidle Hlk Hs Ho Hpc Hb Hwf Htm (mg & Hm & Htab)].
  destruct (handle_hle_ok s client parent o c handler port thc pc rc tm id n f words rest Hq Hst Hsvc Ew Hn Hid Hl Hout Hrange)
    as (h & r & x & E & Eh & Hb'). set (y := put_memory (set_host (k_memory (system s)) h) (system s)) in *.
  pose proof (called_inv s c thc r x y tm Hi Hc Hrun Hidle) as Hi1. set (s1 := called s c thc r x y tm) in *.
  assert (server_of o s = Some (parent, Some handler, [], None, [])) as Esv by (unfold server_of; by rewrite Ho).
  assert (threads s1 !! c = Some (set_status WaitIPC thc)) as Hc1 by (unfold s1; cbn; by rewrite lookup_alter_eq, Hc).
  exists s1. split; [|split; [by rewrite Hc1|split; [done|split]]].
  - unfold ClientSession_SendSyncRequest. rewrite Hlk. cbn [mbind option_bind]. rewrite Hs. cbn [mbind option_bind session_server].
    unfold ServerSession_HandleSyncRequest. rewrite Esv. cbn [mbind option_bind]. rewrite E. cbn [mbind option_bind].
    set (s0 := set_system (put_request r x s) y). change (threads s0) with (threads s). rewrite Hc. cbn [mbind option_bind].
    change (server_of o s0) with (server_of o s). rewrite Esv. cbn [mbind option_bind]. rewrite decide_True by done.
    unfold WakeAfterDelay. change (IPCDelayNanoseconds =? -1) with false. cbv iota.
    assert (threads (upd_thread c (set_status WaitIPC) s0) !! c = Some (set_status WaitIPC thc)) as -> by (cbn; by rewrite lookup_alter_eq, Hc).
    cbn [mbind option_bind]. change (timing (upd_thread c (set_status WaitIPC) s0)) with (timing s).
    change (core_id (set_status WaitIPC thc)) with (core_id thc). change (thread_id (set_status WaitIPC thc)) with (thread_id thc).
    rewrite Htm. cbn [mbind option_bind]. change (set_timing _ tm) with s1.
    assert (WakeupAllWaitingThreads ipc_wakeup o s1 = Some s1) as Ewake by (apply (wake_no_waiter s1 o parent (Some handler)); exact Ho).
    rewrite Ewake. done.
  - unfold read. fold m in Eh. rewrite <- Eh. apply (read_process_ok rasterizer _ pc); [exact Hpc|].
    apply (buffer_read rasterizer Hras _ (set_host (k_memory (system s)) h)); [by destruct Hb|]. unfold m, COMMAND_BUFFER_LENGTH in *. lia.
  - intros late. unfold ThreadWakeupCallback. change (managers s1) with (managers s). rewrite Hm. cbn [mbind option_bind]. rewrite Htab.
    cbn [mbind option_bind]. rewrite Hc1. cbn [mbind option_bind status set_status].
    destruct (ResumeFromWait_ok c (set_status WaitIPC thc) s1 Hi1 Hc1) as (s2 & E2 & Hi2 & _ & _ & Ht2 & _ & _ & _ & Hy2); try done.
    { by apply (not_listed s1 c _ Hi1 Hc1). }
    exists s2. rewrite E2. split; [done|]. split; [by rewrite Ht2, lookup_insert_eq|]. by split.
Qed.

End Call.

(** ** An example *)

Module Examples.
Import IPC.Examples SharedMemory.Examples RPC.Examples.

(** The client of [RPC.Examples] asks a service that adds the words of a request; the first word of a reply is a result. *)
Definition sum_of (words : list Z) : list Z := [0; u32 (foldr Z.add 0 words)].
Definition hle_state : KState :=
  mkK (list_to_map [(1, client_thread)])
      (list_to_map [(300, mkObject [] (KServerSession 302 (Some 7) [] None []))]) ∅
      [mkManager (Some 1) WaitSynch.Examples.demo_queue {[ 1 := 1 ]} [1]]
      (Timing_new 1 0) false Single
      (mkLimiter false false 0 false []) (mkLimiter false false 0 false [])
      (mkIPC {[ 302 := mkSession (Some 301) (Some 300) None ]} {[ 301 := 302 ]} ∅ {[ 7 := [300] ]} ∅) rpc_system ∅.

Lemma hle_state_inv : kinv hle_state.
Proof.
  split; simpl.
  - intros core m Hm. destruct core; [|done]. injection Hm as <-. destruct WaitSynch.Examples.demo_queue_ok as (a & Ha & Hp).
    exists a. split; [done|]. intros t th Ht _. WaitSynch.Examples.cases_in Ht; apply Hp; set_solver.
  - intros t th Ht. WaitSynch.Examples.cases_in Ht; (split; [by eexists|split; vm_compute; lia]).
  - intros t th m Ht Hm. WaitSynch.Examples.cases_in Ht; simpl in Hm; by apply elem_of_nil in Hm.
  - intros m ob lc p h Hm Ek. by WaitSynch.Examples.cases_in Hm.
  - intros o ob t Ho Hin. WaitSynch.Examples.cases_in Ho. by apply elem_of_nil in Hin.
  - intros o ob Ho. WaitSynch.Examples.cases_in Ho. constructor.
  - intros t th o Ht Hin. WaitSynch.Examples.cases_in Ht; simpl in Hin; by apply elem_of_nil in Hin.
  - intros o ob parent Ho Ep. WaitSynch.Examples.cases_in Ho. injection Ep as <-. by eexists.
Qed.

(** [7 + 9 = 16]. *)
Lemma hle_call_witness :
  ∃ s1, ClientSession_SendSyncRequest Memory.Examples.no_cache (λ _ _, 0) (λ p, 10 * p + 1) (replicate 64 0)
          (λ _ _ _ _ x s, x ← plain_service 2 sum_of x; Some (s, x)) (λ _ _ _ _ _, None) (λ _, 500) 301 1 hle_state = Some (s1, ResultSuccess) ∧
    read_process Memory.Examples.no_cache 1 0x8000080 12 (system s1) = Some (system s1, bytes_of [MakeHeader 0x12 2 0; 0; 16]).
Proof.
  destruct (ScheduleEvent (timing hle_state) (nsToCycles_s64 IPCDelayNanoseconds) (Some (ThreadWakeupEventType 0)) 1 None false) as [tm|] eqn:Etm;
    [|exfalso; revert Etm; by vm_compute].
  destruct (hle_call Memory.Examples.no_cache (λ _ _, 0) ltac:(intros mode h p n; reflexivity) (λ p, 10 * p + 1) (replicate 64 0)
              (λ _ _ _ _ x s, x ← plain_service 2 sum_of x; Some (s, x)) (λ _ _ _ _ _, None) (λ _, 500) hle_state 301 302 300 1 7 None
              client_thread two_pages (page_ref 0x1000) tm 0x12 2 sum_of [7; 9] (replicate 93 0)) as (s1 & E1 & _ & _ & E2 & _).
  - split; try (vm_compute; reflexivity).
    + exact hle_state_inv.
    + by apply (rpc_buffer _ 0x8000); left.
    + exact rpc_bytes.
    + exact Etm.
    + eexists. split; vm_compute; reflexivity.
  - reflexivity.
  - reflexivity.
  - vm_compute. reflexivity.
  - reflexivity.
  - lia.
  - vm_compute. lia.
  - vm_compute. lia.
  - repeat constructor; vm_compute; (done || congruence).
  - exists s1. split; [exact E1|exact E2].
Defined.

End Examples.
