(* ===== verification/AddressArbiter.v ===== *)
(** * Address arbiters ([src/src/core/hle/kernel/address_arbiter.cpp])

    An arbiter keeps a list of threads, each waiting on a guest address.  Signalling an address
    wakes the waiters of that address by priority; waiting compares (and may decrement) the word
    at the address first.  The lists live in [arbiters] of [KState]; guest memory is an interface
    with 32-bit reads and writes. *)

From S2P Require Import Prelude BitField ThreadQueueList CoreTiming ResourceLimit Kernel WaitSynch.

(** What the arbiter needs of guest memory ([MemorySystem::Read32] and [Write32]). *)
Class GuestMemory (M : Type) := {
  Read32 : Z → M → Z;
  Write32 : Z → Z → M → M;
  read32_range : ∀ a m, 0 <= Read32 a m < 2 ^ 32;
  read32_write32 : ∀ a v m, Read32 a (Write32 a v m) = u32 v }.

Inductive ArbitrationType : Type :=
| ArbSignal | WaitIfLessThan | DecrementAndWaitIfLessThan | WaitIfLessThanWithTimeout
| DecrementAndWaitIfLessThanWithTimeout.

#[export] Instance ArbitrationType_eq_dec : EqDecision ArbitrationType.
Proof. solve_decision. Defined.

(** [static_cast<ArbitrationType>(type)]; other values have no name. *)
Definition ArbitrationType_of (type : Z) : option ArbitrationType :=
  if type =? 0 then Some ArbSignal
  else if type =? 1 then Some WaitIfLessThan
  else if type =? 2 then Some DecrementAndWaitIfLessThan
  else if type =? 3 then Some WaitIfLessThanWithTimeout
  else if type =? 4 then Some DecrementAndWaitIfLessThanWithTimeout
  else None.

Definition set_waiting_list (arbiter : Z) (l : list Z) (s : KState) : KState :=
  set_arbiters s (<[arbiter := l]> (arbiters s)).

Definition WaitThread (arbiter t wait_address : Z) (s : KState) : option KState :=
  waiting ← arbiters s !! arbiter;
  _ ← threads s !! t;
  let s := upd_thread t (λ th, set_status WaitArb (set_wait_address wait_address th)) s in
  Some (set_waiting_list arbiter (waiting ++ [t]) s).

(** [std::stable_partition]: the threads that wait for other addresses, then the matching ones.
    The predicate asserts the state of every thread it is called on. *)
Fixpoint partition_waiting (address : Z) (ws : list Z) (s : KState) : option (list Z * list Z) :=
  match ws with
  | [] => Some ([], [])
  | t :: ws =>
      th ← threads s !! t;
      ASSERT (bool_decide (status th = WaitArb)) ;;
      '(others, matches) ← partition_waiting address ws s;
      Some (if negb (Kernel.wait_address th =? address) then (t :: others, matches)
            else (others, t :: matches))
  end.

Fixpoint resume_all (ts : list Z) (s : KState) : option KState :=
  match ts with
  | [] => Some s
  | t :: ts => s ← ResumeFromWait t s; resume_all ts s
  end.

Definition ResumeAllThreads (arbiter address : Z) (s : KState) : option (KState * Z) :=
  waiting ← arbiters s !! arbiter;
  '(others, matches) ← partition_waiting address waiting s;
  s ← resume_all matches s;
  Some (set_waiting_list arbiter others s, Z.of_nat (length matches)).

(** [std::min_element]: the first of the threads with the least priority value. *)
Fixpoint min_loop (best : Z) (best_priority : nat) (ts : list Z) (s : KState) : option Z :=
  match ts with
  | [] => Some best
  | t :: ts =>
      th ← threads s !! t;
      if (current_priority th <? best_priority)%nat then min_loop t (current_priority th) ts s
      else min_loop best best_priority ts s
  end.
Definition min_element (ts : list Z) (s : KState) : option (option Z) :=
  match ts with
  | [] => Some None
  | t :: ts => th ← threads s !! t; m ← min_loop t (current_priority th) ts s; Some (Some m)
  end.

Definition ResumeHighestPriorityThread (arbiter address : Z) (s : KState) : option (KState * bool) :=
  waiting ← arbiters s !! arbiter;
  '(others, matches) ← partition_waiting address waiting s;
  best ← min_element matches s;
  match best with
  | None => Some (set_waiting_list arbiter (others ++ matches) s, false)
  | Some t =>
      s ← ResumeFromWait t s;
      Some (set_waiting_list arbiter (others ++ erase_first t matches) s, true)
  end.

(** [for (s32 i = 0; i < value; i++) num_threads += ResumeHighestPriorityThread(address)]. *)
Fixpoint resume_first (n : nat) (arbiter address : Z) (s : KState) : option (KState * Z) :=
  match n with
  | O => Some (s, 0)
  | S n =>
      '(s, resumed) ← ResumeHighestPriorityThread arbiter address s;
      '(s, count) ← resume_first n arbiter address s;
      Some (s, (if resumed : bool then 1 else 0) + count)
  end.

Section Arbitrate.
Context {M : Type} `{GuestMemory M}.
(** The clock scaling of [AddTicks]. *)
Context (scale : Z → Z).

(** [kernel.current_cpu->GetTimer().AddTicks(1614u)]. *)
Definition add_ticks (core : nat) (s : KState) : option KState :=
  timer ← timers (timing s) !! core;
  Some (set_timing s (set_timer (timing s) core (AddTicks scale timer 1614))).

Definition set_timeout (arbiter t nanoseconds : Z) (s : KState) : option KState :=
  _ ← threads s !! t;
  WakeAfterDelay t nanoseconds false
    (upd_thread t (λ th, set_waiting (wait_objects th) (Some (ArbiterCallback arbiter)) th) s).

(** [(s32)memory_value - 1] is a signed subtraction: at the least value it is undefined. *)
Definition decrement (address memory_value : Z) (m : M) : option M :=
  value ← s32_add memory_value (-1);
  Some (Write32 address (u32 value) m).

(** [type] is what [ArbitrationType_of] made of the argument. *)
Definition ArbitrateAddress (core : nat) (arbiter t : Z) (type : option ArbitrationType) (address value nanoseconds : Z)
    (m : M) (s : KState) : option (M * KState * Z) :=
  th ← threads s !! t;
  let memory_value := s32 (Read32 address m) in
  match type with
  | Some ArbSignal =>
      '(s, num_threads) ←
        (if value <? 0 then ResumeAllThreads arbiter address s
         else resume_first (Z.to_nat value) arbiter address s);
      s ← (if (num_threads =? 0) && (49 <=? current_priority th)%nat then add_ticks core s else Some s);
      Some (m, s, ResultSuccess)
  | Some WaitIfLessThan =>
      s ← (if memory_value <? value then WaitThread arbiter t address s else Some s);
      Some (m, s, ResultSuccess)
  | Some WaitIfLessThanWithTimeout =>
      s ← (if memory_value <? value
           then s ← set_timeout arbiter t nanoseconds s; WaitThread arbiter t address s else Some s);
      Some (m, s, ResultTimeout)
  | Some DecrementAndWaitIfLessThan =>
      if memory_value <? value then
        m ← decrement address memory_value m;
        s ← WaitThread arbiter t address s;
        Some (m, s, ResultSuccess)
      else Some (m, s, ResultSuccess)
  | Some DecrementAndWaitIfLessThanWithTimeout =>
      if memory_value <? value then
        m ← decrement address memory_value m;
        s ← set_timeout arbiter t nanoseconds s;
        s ← WaitThread arbiter t address s;
        Some (m, s, ResultTimeout)
      else Some (m, s, ResultTimeout)
  | None => Some (m, s, ResultInvalidEnumValueFnd)
  end.

End Arbitrate.

Definition CreateAddressArbiter (arbiter : Z) (s : KState) : KState := set_waiting_list arbiter [] s.

(** ** Specification *)

(** The list of an arbiter names each waiting thread once. *)
Record arb_ok (s : KState) (arbiter : Z) (ws : list Z) : Prop := {
  ao_list : arbiters s !! arbiter = Some ws;
  ao_nodup : NoDup ws;
  ao_waits : ∀ t, t ∈ ws → ∃ th, threads s !! t = Some th ∧ status th = WaitArb ∧ wait_objects th = [] }.

Definition waits_at (s : KState) (address t : Z) : Prop :=
  ∃ th, threads s !! t = Some th ∧ Kernel.wait_address th = address.
#[export] Instance waits_at_dec s address t : Decision (waits_at s address t).
Proof.
  refine (match threads s !! t as o return (threads s !! t = o → Decision (waits_at s address t)) with
          | Some th => λ E, cast_if (decide (Kernel.wait_address th = address))
          | None => λ E, right _
          end eq_refl).
  - by exists th.
  - intros (th' & E' & H). congruence.
  - intros (th' & E' & _). congruence.
Defined.

Definition prio_of (s : KState) (t : Z) : nat := from_option current_priority 0%nat (threads s !! t).

(** [w] goes before [r] in the order of priority and, among equals, of the list [l]. *)
Definition goes_before (s : KState) (l : list Z) (w r : Z) : Prop :=
  (prio_of s w < prio_of s r)%nat ∨ (prio_of s w = prio_of s r ∧ [w; r] `sublist_of` l).

Lemma partition_waiting_ok s address ws :
  (∀ t, t ∈ ws → ∃ th, threads s !! t = Some th ∧ status th = WaitArb) →
  partition_waiting address ws s =
    Some (filter (λ t, ~ waits_at s address t) ws, filter (λ t, waits_at s address t) ws).
Proof.
  induction ws as [|t ws IH]; intros H; simpl; [done|].
  destruct (H t) as (th & Ht & Hs); [by left|]. rewrite Ht. simpl. rewrite bool_decide_true by done. simpl.
  rewrite IH by (intros; apply H; by right). simpl. rewrite !filter_cons.
  assert (waits_at s address t ↔ Kernel.wait_address th = address) as E.
  { unfold waits_at. rewrite Ht. naive_solver. }
  destruct (Z.eqb_spec (Kernel.wait_address th) address) as [Ea|Ea]; simpl.
  - rewrite (decide_True (P := waits_at s address t)) by by apply E. by rewrite decide_False by tauto.
  - rewrite (decide_False (P := waits_at s address t)) by tauto. by rewrite decide_True by tauto.
Qed.

Lemma min_loop_ok s best ts :
  (∀ t, t ∈ ts → is_Some (threads s !! t)) → is_Some (threads s !! best) →
  ∃ t, min_loop best (prio_of s best) ts s = Some t ∧
    ((t = best ∧ ∀ x, x ∈ ts → (prio_of s best <= prio_of s x)%nat) ∨
     ∃ l1 l2, ts = l1 ++ t :: l2 ∧ (prio_of s t < prio_of s best)%nat ∧
       (∀ x, x ∈ l1 → (prio_of s t < prio_of s x)%nat) ∧ (∀ x, x ∈ l2 → (prio_of s t <= prio_of s x)%nat)).
Proof.
  revert best. induction ts as [|t ts IH]; intros best Hts Hb; simpl.
  - exists best. split; [done|]. left. split; [done|]. by intros x Hx%elem_of_nil.
  - destruct (Hts t) as [th Ht]; [by left|]. rewrite Ht. simpl.
    assert (prio_of s t = current_priority th) as Ep by (unfold prio_of; by rewrite Ht).
    rewrite <- Ep. destruct (Nat.ltb_spec (prio_of s t) (prio_of s best)) as [Hlt|Hge].
    + destruct (IH t ltac:(intros; apply Hts; by right) ltac:(by eexists))
        as (b & E & [[-> Hall]|(l1 & l2 & -> & Hlt' & H1 & H2)]).
      * exists t. split; [done|]. right. exists [], ts. split_and!; try done. by intros x Hx%elem_of_nil.
      * exists b. split; [done|]. right. exists (t :: l1), l2. split_and!; try done; [lia|].
        intros x [->|Hx]%elem_of_cons; [done|by apply H1].
    + destruct (IH best ltac:(intros; apply Hts; by right) Hb)
        as (b & E & [[-> Hall]|(l1 & l2 & -> & Hlt' & H1 & H2)]).
      * exists best. split; [done|]. left. split; [done|]. intros x [->|Hx]%elem_of_cons; [done|by apply Hall].
      * exists b. split; [done|]. right. exists (t :: l1), l2. split_and!; try done.
        intros x [->|Hx]%elem_of_cons; [lia|by apply H1].
Qed.

Lemma min_element_ok s ts :
  (∀ t, t ∈ ts → is_Some (threads s !! t)) →
  (ts = [] ∧ min_element ts s = Some None) ∨
  ∃ t l1 l2, min_element ts s = Some (Some t) ∧ ts = l1 ++ t :: l2 ∧
    (∀ x, x ∈ l1 → (prio_of s t < prio_of s x)%nat) ∧ (∀ x, x ∈ l2 → (prio_of s t <= prio_of s x)%nat).
Proof.
  intros H. destruct ts as [|b ts]; [by left|]. right. simpl. destruct (H b) as [th Hb]; [by left|].
  rewrite Hb. simpl. replace (current_priority th) with (prio_of s b) by (unfold prio_of; by rewrite Hb).
  destruct (min_loop_ok s b ts) as (t & E & Hor).
  { intros t Ht. apply H. by right. }
  { by eexists. }
  rewrite E. simpl. destruct Hor as [[-> Hall]|(l1 & l2 & -> & Hlt & H1 & H2)].
  - exists b, [], ts. split_and!; try done. by intros x Hx%elem_of_nil.
  - exists t, (b :: l1), l2. split_and!; try done. intros x [->|Hx]%elem_of_cons; [done|by apply H1].
Qed.

Lemma set_waiting_list_inv arbiter l s : kinv s → kinv (set_waiting_list arbiter l s).
Proof. intros [H1 H2 H3 H4 H5 H6 H7]. by split. Qed.

Lemma erase_first_app (t : Z) l1 l2 : t ∉ l1 → erase_first t (l1 ++ t :: l2) = l1 ++ l2.
Proof.
  induction l1 as [|x l1 IH]; simpl; intros Hn; [by rewrite Z.eqb_refl|].
  apply not_elem_of_cons in Hn as [Hx Hn]. rewrite (proj2 (Z.eqb_neq x t)) by congruence. by rewrite IH.
Qed.

(** Waking one waiter of the arbiter. *)
Lemma resume_waiter_ok arbiter t th ws ws' s :
  kinv s → arb_ok s arbiter ws → threads s !! t = Some th → t ∈ ws → NoDup ws' → ws' ⊆ ws → t ∉ ws' →
  ∃ s1, ResumeFromWait t s = Some s1 ∧ kinv (set_waiting_list arbiter ws' s1) ∧
    arb_ok (set_waiting_list arbiter ws' s1) arbiter ws' ∧
    threads s1 = <[t := resumed th]> (threads s) ∧ arbiters s1 = arbiters s.
Proof.
  intros Hi [Hl Hnd Hw] Ht Hin Hnd' Hsub Hn. destruct (Hw t Hin) as (th0 & H0 & Hs & Ho).
  assert (th0 = th) as -> by congruence.
  destruct (ResumeFromWait_ok t th s Hi Ht Ho) as (s1 & E & Hi1 & _ & _ & Ht1 & Ha1 & _).
  { by rewrite Hs. }
  { intros o ob Hob Hl'. destruct (ki_waiters _ Hi o ob t Hob Hl') as (th1 & H1 & Hwo & _).
    assert (th1 = th) as -> by congruence. by rewrite Hs in Hwo. }
  exists s1. split; [done|]. split; [by apply set_waiting_list_inv|]. split; [|done]. split.
  - simpl. by rewrite lookup_insert_eq.
  - done.
  - intros x Hx. destruct (Hw x (Hsub x Hx)) as (thx & Hthx & ? & ?). exists thx. simpl.
    rewrite Ht1, lookup_insert_ne by (by intros ->). done.
Qed.

Lemma resume_highest_ok arbiter address ws s :
  kinv s → arb_ok s arbiter ws →
  let others := filter (λ t, ~ waits_at s address t) ws in
  let matches := filter (λ t, waits_at s address t) ws in
  (matches = [] ∧
   ResumeHighestPriorityThread arbiter address s = Some (set_waiting_list arbiter others s, false)) ∨
  ∃ t th l1 l2 s', matches = l1 ++ t :: l2 ∧ threads s !! t = Some th ∧
    (∀ x, x ∈ l1 → (prio_of s t < prio_of s x)%nat) ∧ (∀ x, x ∈ l2 → (prio_of s t <= prio_of s x)%nat) ∧
    ResumeHighestPriorityThread arbiter address s = Some (s', true) ∧
    kinv s' ∧ arb_ok s' arbiter (others ++ l1 ++ l2) ∧ threads s' = <[t := resumed th]> (threads s).
Proof.
  intros Hi Hok others matches. pose proof Hok as [Hl Hnd Hw]. unfold ResumeHighestPriorityThread. rewrite Hl. simpl.
  rewrite partition_waiting_ok by (intros t Ht; destruct (Hw t Ht) as (th & ? & ? & _); by exists th).
  simpl. fold others matches.
  assert (∀ t, t ∈ matches → t ∈ ws) as Hm by (intros t Ht; by apply list_elem_of_filter in Ht as [_ ?]).
  destruct (min_element_ok s matches) as [[Em ->]|(t & l1 & l2 & -> & Em & H1 & H2)].
  { intros t Ht. destruct (Hw t (Hm t Ht)) as (th & ? & _). by eexists. }
  - left. split; [done|]. simpl. by rewrite Em, app_nil_r.
  - right. assert (t ∈ matches) as Htm by (rewrite Em; set_solver).
    destruct (Hw t (Hm t Htm)) as (th & Ht & _ & _). simpl.
    assert (NoDup matches) as Hndm by by apply NoDup_filter.
    rewrite Em in Hndm. apply NoDup_app in Hndm as (Hnd1 & Hd & [Hn2 Hnd2]%NoDup_cons).
    assert (t ∉ l1) as Hn1 by (intros Hx; by apply (Hd t Hx), list_elem_of_here).
    destruct (resume_waiter_ok arbiter t th ws (others ++ l1 ++ l2) s) as (s1 & E1 & Hi1 & Hok1 & Ht1 & _); try done.
    + by apply Hm.
    + apply NoDup_app. split_and!; [by apply NoDup_filter| |].
      * intros x Hx Hx'. apply list_elem_of_filter in Hx as [Hx _].
        assert (x ∈ matches) as Hxm by (rewrite Em; set_solver). by apply list_elem_of_filter in Hxm as [? _].
      * apply NoDup_app. split_and!; try done. intros x Hx Hx'. apply (Hd x Hx). by right.
    + intros x [Hx|Hx]%elem_of_app; [by apply list_elem_of_filter in Hx as [_ ?]|].
      apply Hm. rewrite Em. set_solver.
    + intros [Hx|Hx]%elem_of_app; [|set_solver]. apply list_elem_of_filter in Hx as [Hx _].
      by apply list_elem_of_filter in Htm as [? _].
    + exists t, th, l1, l2, (set_waiting_list arbiter (others ++ l1 ++ l2) s1).
      rewrite E1. simpl. rewrite Em, erase_first_app by done. split_and!; done.
Qed.

Lemma resumed_same s s' t th address :
  threads s !! t = Some th → threads s' = <[t := resumed th]> (threads s) →
  (∀ x, waits_at s' address x ↔ waits_at s address x) ∧ ∀ x, prio_of s' x = prio_of s x.
Proof.
  intros Ht E. split; intros x.
  - unfold waits_at. rewrite E, lookup_insert. case_decide; [|done]. subst x. rewrite Ht. naive_solver.
  - unfold prio_of. rewrite E, lookup_insert. case_decide; [|done]. subst x. by rewrite Ht.
Qed.

(** What a signal did: the threads [woken] are ready, the others are as before; the list [ws']
    keeps the waiters of other addresses in order, and [woken] are the first of the matching ones. *)
Record signalled (s s' : KState) (address : Z) (ws ws' woken : list Z) : Prop := {
  sg_woken : ∀ t, t ∈ woken → threads s' !! t = resumed <$> threads s !! t;
  sg_others : ∀ t, t ∉ woken → threads s' !! t = threads s !! t;
  sg_kept : filter (λ t, ~ waits_at s address t) ws' = filter (λ t, ~ waits_at s address t) ws;
  sg_left : filter (λ t, waits_at s address t) ws' `sublist_of` filter (λ t, waits_at s address t) ws;
  sg_perm : woken ++ filter (λ t, waits_at s address t) ws' ≡ₚ filter (λ t, waits_at s address t) ws;
  sg_order : ∀ w r, w ∈ woken → r ∈ filter (λ t, waits_at s address t) ws' →
               goes_before s (filter (λ t, waits_at s address t) ws) w r }.

Lemma signalled_refl s address ws ws' :
  filter (λ t, ~ waits_at s address t) ws' = filter (λ t, ~ waits_at s address t) ws →
  filter (λ t, waits_at s address t) ws' = filter (λ t, waits_at s address t) ws →
  ∀ s', threads s' = threads s → signalled s s' address ws ws' [].
Proof.
  intros E1 E2 s' Et. split.
  - by intros t Ht%elem_of_nil.
  - by rewrite Et.
  - done.
  - by rewrite E2.
  - by rewrite E2.
  - by intros w r Hw%elem_of_nil.
Qed.

Lemma filter_none {A} (P : A → Prop) `{∀ x, Decision (P x)} (l : list A) : (∀ x, x ∈ l → ~ P x) → filter P l = [].
Proof.
  induction l as [|x l IH]; intros Hn; [done|]. rewrite filter_cons, decide_False by (apply Hn; by left).
  apply IH. intros y Hy. apply Hn. by right.
Qed.

Lemma filter_all {A} (P : A → Prop) `{∀ x, Decision (P x)} (l : list A) : (∀ x, x ∈ l → P x) → filter P l = l.
Proof.
  induction l as [|x l IH]; intros Hn; [done|]. rewrite filter_cons, decide_True by (apply Hn; by left).
  f_equal. apply IH. intros y Hy. apply Hn. by right.
Qed.

Lemma filter_split s address ws l1 l2 t :
  filter (λ t, waits_at s address t) ws = l1 ++ t :: l2 →
  let ws1 := filter (λ t, ~ waits_at s address t) ws ++ l1 ++ l2 in
  filter (λ t, waits_at s address t) ws1 = l1 ++ l2 ∧
  filter (λ t, ~ waits_at s address t) ws1 = filter (λ t, ~ waits_at s address t) ws.
Proof.
  intros E ws1. unfold ws1. rewrite !filter_app.
  assert (∀ x, x ∈ l1 ++ l2 → waits_at s address x) as Hin.
  { intros x Hx. assert (x ∈ filter (λ t, waits_at s address t) ws) as Hf by (rewrite E; set_solver).
    by apply list_elem_of_filter in Hf as [? _]. }
  rewrite <- !filter_app. split.
  - rewrite filter_app, filter_none, (filter_all _ (l1 ++ l2)) by (done || by intros x [? _]%list_elem_of_filter).
    done.
  - rewrite filter_app, (filter_none _ (l1 ++ l2)), app_nil_r by (intros x Hx Hn; by apply Hn, Hin).
    rewrite filter_all; [done|]. by intros x [? _]%list_elem_of_filter.
Qed.

(** Waking [t], the first of the best, and then as [signalled] says. *)
Lemma signalled_cons s s1 s' address ws t th l1 l2 ws' woken :
  threads s !! t = Some th → threads s1 = <[t := resumed th]> (threads s) → NoDup ws →
  filter (λ t, waits_at s address t) ws = l1 ++ t :: l2 →
  (∀ x, x ∈ l1 → (prio_of s t < prio_of s x)%nat) → (∀ x, x ∈ l2 → (prio_of s t <= prio_of s x)%nat) →
  signalled s1 s' address (filter (λ t, ~ waits_at s address t) ws ++ l1 ++ l2) ws' woken →
  signalled s s' address ws ws' (t :: woken).
Proof.
  intros Ht E Hnd El H1 H2 [A1 A2 A3 A4 A5 A6]. destruct (resumed_same s s1 t th address Ht E) as [Hwa Hpr].
  destruct (filter_split s address ws l1 l2 t El) as [F1 F2].
  assert (∀ l : list Z, filter (λ t, waits_at s1 address t) l = filter (λ t, waits_at s address t) l) as Ef.
  { intros l. apply list_filter_iff. intros x. apply Hwa. }
  assert (∀ l : list Z, filter (λ t, ~ waits_at s1 address t) l = filter (λ t, ~ waits_at s address t) l) as Ef'.
  { intros l. apply list_filter_iff. intros x. by rewrite Hwa. }
  rewrite !Ef' in A3. rewrite !Ef, F1 in A4, A5. rewrite F2 in A3.
  assert (t ∉ l1 ++ l2) as Hnt.
  { assert (NoDup (l1 ++ t :: l2)) as Hn by (rewrite <- El; by apply NoDup_filter).
    apply NoDup_app in Hn as (_ & Hd & [Hn2 _]%NoDup_cons). intros [Hx|Hx]%elem_of_app; [|done].
    by apply (Hd t Hx), list_elem_of_here. }
  assert (∀ x, x ∈ woken → x ≠ t) as Hwt.
  { intros x Hx ->. apply Hnt. rewrite <- A5. set_solver. }
  split.
  - intros x [->|Hx]%elem_of_cons.
    + rewrite A2 by (intros Hx; by destruct (Hwt t Hx)). by rewrite E, lookup_insert_eq, Ht.
    + rewrite A1 by done. rewrite E, lookup_insert_ne; [done|]. intros ->. by destruct (Hwt x Hx).
  - intros x [Hxt Hx]%not_elem_of_cons. rewrite A2 by done. by rewrite E, lookup_insert_ne.
  - done.
  - rewrite El. etrans; [done|]. apply sublist_app; [done|]. by apply sublist_cons.
  - rewrite El. simpl. rewrite A5. by rewrite Permutation_middle.
  - rewrite El. intros w r [->|Hw]%elem_of_cons Hr.
    + assert (r ∈ l1 ++ l2) as Hr' by (rewrite <- A5; set_solver). apply elem_of_app in Hr' as [Hr'|Hr'].
      * left. by apply H1.
      * destruct (decide (prio_of s t < prio_of s r)%nat) as [|Hge]; [by left|]. right.
        specialize (H2 r Hr'). split; [lia|]. apply sublist_inserts_l, sublist_skip.
        apply list_elem_of_split in Hr' as (k1 & k2 & ->). apply sublist_inserts_l, sublist_skip, sublist_nil_l.
    + specialize (A6 w r Hw). rewrite !Ef, F1 in A6. destruct (A6 Hr) as [Hlt|[Heq Hsub]].
      * left. by rewrite <- !Hpr.
      * right. rewrite <- !Hpr. split; [done|]. etrans; [done|]. apply sublist_app; [done|]. by apply sublist_cons.
Qed.

Lemma resume_first_ok n arbiter address ws s :
  kinv s → arb_ok s arbiter ws →
  ∃ s' ws' woken, resume_first n arbiter address s = Some (s', Z.of_nat (length woken)) ∧
    kinv s' ∧ arb_ok s' arbiter ws' ∧ signalled s s' address ws ws' woken ∧
    length woken = Nat.min n (length (filter (λ t, waits_at s address t) ws)).
Proof.
  revert ws s. induction n as [|n IH]; intros ws s Hi Hok; simpl.
  - exists s, ws, []. split; [done|]. split; [done|]. split; [done|]. split; [by apply signalled_refl|done].
  - destruct (resume_highest_ok arbiter address ws s Hi Hok)
      as [[Em ->]|(t & th & l1 & l2 & s1 & Em & Ht & H1 & H2 & -> & Hi1 & Hok1 & Ht1)]; simpl.
    + assert (filter (λ t, ~ waits_at s address t) ws = ws) as Eo.
      { apply filter_all. intros x Hx Hw. assert (x ∈ filter (λ t, waits_at s address t) ws) as Hf
          by by apply list_elem_of_filter. rewrite Em in Hf. by apply elem_of_nil in Hf. }
      rewrite Eo. destruct (IH ws (set_waiting_list arbiter ws s)) as (s' & ws' & woken & E & Hi' & Hok' & Hsg & Hlen).
      { by apply set_waiting_list_inv. }
      { destruct Hok as [Hl Hnd Hw]. split; [simpl; by rewrite lookup_insert_eq|done|done]. }
      rewrite E. simpl. exists s', ws', woken. split; [done|]. split; [done|]. split; [done|].
      split; [destruct Hsg; by split|]. change (length woken = Nat.min n (length (filter (λ t, waits_at s address t) ws))) in Hlen.
      rewrite Em in Hlen |- *. simpl in Hlen |- *. lia.
    + destruct (IH _ s1 Hi1 Hok1) as (s' & ws' & woken & -> & Hi' & Hok' & Hsg & Hlen). simpl.
      exists s', ws', (t :: woken). split; [by simpl; f_equal; f_equal; lia|]. split; [done|]. split; [done|].
      split; [eapply signalled_cons; [done|done|by apply Hok|done|done|done|done]|].
      destruct (resumed_same s s1 t th address Ht Ht1) as [Hwa _].
      rewrite (list_filter_iff (λ t, waits_at s1 address t) (λ t, waits_at s address t)) in Hlen by apply Hwa.
      destruct (filter_split s address ws l1 l2 t Em) as [F1 _]. rewrite F1, length_app in Hlen.
      rewrite Em, length_app. cbn [length]. rewrite Nat.add_succ_r. lia.
Qed.

Lemma resume_all_ok ts s :
  kinv s → NoDup ts →
  (∀ t, t ∈ ts → ∃ th, threads s !! t = Some th ∧ status th = WaitArb ∧ wait_objects th = []) →
  ∃ s', resume_all ts s = Some s' ∧ kinv s' ∧ arbiters s' = arbiters s ∧
    (∀ t, t ∈ ts → threads s' !! t = resumed <$> threads s !! t) ∧
    (∀ t, t ∉ ts → threads s' !! t = threads s !! t).
Proof.
  revert s. induction ts as [|t ts IH]; intros s Hi Hnd Hw; simpl.
  - exists s. split; [done|]. split; [done|]. split; [done|]. split; [by intros t Ht%elem_of_nil|done].
  - apply NoDup_cons in Hnd as [Hn Hnd]. destruct (Hw t) as (th & Ht & Hs & Ho); [by left|].
    destruct (ResumeFromWait_ok t th s Hi Ht Ho) as (s1 & -> & Hi1 & _ & _ & Ht1 & Ha1 & _).
    { by rewrite Hs. }
    { intros o ob Hob Hl. destruct (ki_waiters _ Hi o ob t Hob Hl) as (th1 & H1 & Hwo & _).
      assert (th1 = th) as -> by congruence. by rewrite Hs in Hwo. }
    simpl. destruct (IH s1 Hi1 Hnd) as (s' & E & Hi' & Ha' & Hin & Hout).
    { intros x Hx. destruct (Hw x) as (thx & Hthx & ? & ?); [by right|]. exists thx.
      rewrite Ht1, lookup_insert_ne by (by intros ->). done. }
    exists s'. split; [done|]. split; [done|]. split; [congruence|]. split.
    + intros x [->|Hx]%elem_of_cons.
      * rewrite Hout by done. by rewrite Ht1, lookup_insert_eq, Ht.
      * rewrite Hin by done. rewrite Ht1, lookup_insert_ne; [done|]. by intros ->.
    + intros x [Hxt Hx]%not_elem_of_cons. rewrite Hout by done. by rewrite Ht1, lookup_insert_ne.
Qed.

Lemma ResumeAllThreads_ok arbiter address ws s :
  kinv s → arb_ok s arbiter ws →
  ∃ s' ws' woken, ResumeAllThreads arbiter address s = Some (s', Z.of_nat (length woken)) ∧
    kinv s' ∧ arb_ok s' arbiter ws' ∧ signalled s s' address ws ws' woken ∧
    length woken = length (filter (λ t, waits_at s address t) ws).
Proof.
  intros Hi [Hl Hnd Hw]. unfold ResumeAllThreads. rewrite Hl. simpl.
  rewrite partition_waiting_ok by (intros t Ht; destruct (Hw t Ht) as (th & ? & ? & _); by exists th). simpl.
  set (others := filter (λ t, ~ waits_at s address t) ws). set (matches := filter (λ t, waits_at s address t) ws).
  destruct (resume_all_ok matches s) as (s1 & E & Hi1 & Ha1 & Hin & Hout); [done|by apply NoDup_filter| |].
  { intros t [_ Ht]%list_elem_of_filter. by apply Hw. }
  rewrite E. simpl. exists (set_waiting_list arbiter others s1), others, matches. split; [done|].
  split; [by apply set_waiting_list_inv|].
  assert (∀ x, x ∈ others → ~ waits_at s address x) as Hno by (by intros x [? _]%list_elem_of_filter).
  assert (filter (λ t, waits_at s address t) others = []) as Em by by apply filter_none.
  split; [|split; [|done]]; split.
  - simpl. by rewrite lookup_insert_eq.
  - by apply NoDup_filter.
  - intros t Ht. simpl. rewrite Hout; [apply Hw; by apply list_elem_of_filter in Ht as [_ ?]|].
    intros [? _]%list_elem_of_filter. by apply (Hno t).
  - done.
  - done.
  - by apply filter_all.
  - rewrite Em. apply sublist_nil_l.
  - by rewrite Em, app_nil_r.
  - rewrite Em. by intros w r _ Hr%elem_of_nil.
Qed.

Lemma ResumeFromWait_timing t s s' : ResumeFromWait t s = Some s' → timing s' = timing s.
Proof.
  unfold ResumeFromWait, on_ready_queue. intros H. inv_opt. destruct (status _); inv_opt; done.
Qed.

Lemma resume_all_timing ts s s' : resume_all ts s = Some s' → timing s' = timing s.
Proof.
  revert s. induction ts as [|t ts IH]; intros s H; simpl in H; inv_opt; [done|].
  erewrite IH by done. by eapply ResumeFromWait_timing.
Qed.

Lemma resume_first_timing n arbiter address s s' c :
  resume_first n arbiter address s = Some (s', c) → timing s' = timing s.
Proof.
  revert s s' c. induction n as [|n IH]; intros s s' c H; simpl in H; inv_opt; [done|].
  destruct p as [s1 r]. simpl in *. inv_opt. destruct p as [s2 c2]. simpl in *. simplify_eq.
  erewrite IH by done. unfold ResumeHighestPriorityThread in E. inv_opt. destruct p as [others matches].
  simpl in *. inv_opt. destruct o; inv_opt; simpl; [by eapply ResumeFromWait_timing|done].
Qed.

#[local] Arguments Nat.leb : simpl never.

Section Theorems.
Context {M : Type} `{GuestMemory M} (scale : Z → Z).

(** C38: Signalling an address.  The call returns for every state whose lists are well-formed, it
    wakes as many of the threads that wait for the address as [value] asks for (all of them for a
    negative value), by priority and, among equals, in the order in which they came to wait; the
    other waiters stay on the list in their order, memory does not change, and the result is
    success. *)
Theorem arbiter_signal_spec (core : nat) (arbiter t address value nanoseconds : Z) (th : Thread) (ws : list Z)
    (m : M) (s : KState) :
  kinv s → arb_ok s arbiter ws → threads s !! t = Some th → is_Some (timers (timing s) !! core) →
  ∃ s' ws' woken,
    ArbitrateAddress scale core arbiter t (Some ArbSignal) address value nanoseconds m s
      = Some (m, s', ResultSuccess) ∧
    kinv s' ∧ arb_ok s' arbiter ws' ∧ signalled s s' address ws ws' woken ∧
    length woken = (if value <? 0 then length (filter (λ t, waits_at s address t) ws)
                    else Nat.min (Z.to_nat value) (length (filter (λ t, waits_at s address t) ws))).
Proof.
  intros Hi Hok Ht Htm. unfold ArbitrateAddress. rewrite Ht. simpl.
  assert (∃ s' ws' woken, (if value <? 0 then ResumeAllThreads arbiter address s
            else resume_first (Z.to_nat value) arbiter address s) = Some (s', Z.of_nat (length woken)) ∧
          timing s' = timing s ∧ kinv s' ∧ arb_ok s' arbiter ws' ∧ signalled s s' address ws ws' woken ∧
          length woken = (if value <? 0 then length (filter (λ t, waits_at s address t) ws)
                    else Nat.min (Z.to_nat value) (length (filter (λ t, waits_at s address t) ws))))
    as (s1 & ws' & woken & E & Htm1 & Hi1 & Hok1 & Hsg & Hlen).
  { destruct (value <? 0).
    - destruct (ResumeAllThreads_ok arbiter address ws s Hi Hok) as (s' & ws' & woken & E & ? & ? & ? & ?).
      exists s', ws', woken. split; [done|]. split; [|done]. unfold ResumeAllThreads in E. inv_opt.
      destruct p as [others matches]. simpl in *. inv_opt. simpl. by eapply resume_all_timing.
    - destruct (resume_first_ok (Z.to_nat value) arbiter address ws s Hi Hok)
        as (s' & ws' & woken & E & ? & ? & ? & ?).
      exists s', ws', woken. split; [done|]. split; [by eapply resume_first_timing|done]. }
  rewrite E. simpl. destruct ((Z.of_nat (length woken) =? 0) && (49 <=? current_priority th)%nat).
  - unfold add_ticks. rewrite Htm1. destruct Htm as [timer Htimer]. rewrite Htimer. simpl.
    eexists _, ws', woken. split; [done|]. split; [destruct Hi1; by split|].
    split; [destruct Hok1; by split|]. split; [destruct Hsg; by split|done].
  - simpl. exists s1, ws', woken. done.
Qed.

(** Waiting on an address.  A word that is not less than [value] changes nothing.  Otherwise the
    thread waits on the address at the end of the arbiter's list, the word is decremented if the
    call asks for it, and nothing else changes; the one exception is the least word, whose decrement
    overflows. *)
Theorem arbiter_wait_spec (core : nat) (arbiter t address value nanoseconds : Z) (th : Thread) (ws : list Z)
    (decrements : bool) (m : M) (s : KState) :
  kinv s → arb_ok s arbiter ws → threads s !! t = Some th → status th = Running → wait_objects th = [] →
  let type := if decrements then DecrementAndWaitIfLessThan else WaitIfLessThan in
  let word := s32 (Read32 address m) in
  let run := ArbitrateAddress scale core arbiter t (Some type) address value nanoseconds m s in
  if value <=? word then run = Some (m, s, ResultSuccess)
  else if decrements && (word =? - 2 ^ 31) then run = None
  else ∃ m' s', run = Some (m', s', ResultSuccess) ∧ kinv s' ∧ arb_ok s' arbiter (ws ++ [t]) ∧
    waits_at s' address t ∧ (∀ x, x ≠ t → threads s' !! x = threads s !! x) ∧ objects s' = objects s ∧
    (if decrements then Read32 address m' = u32 (word - 1) else m' = m).
Proof.
  intros Hi [Hl Hnd Hw] Ht Hs Ho type word run. unfold run, ArbitrateAddress. rewrite Ht. simpl. fold word.
  assert (t ∉ ws) as Hn.
  { intros Hin. destruct (Hw t Hin) as (th0 & H0 & Hs0 & _). congruence. }
  set (th' := set_status WaitArb (set_wait_address address th)).
  assert (∃ s', WaitThread arbiter t address s = Some s' ∧ kinv s' ∧ arb_ok s' arbiter (ws ++ [t]) ∧
            waits_at s' address t ∧ (∀ x, x ≠ t → threads s' !! x = threads s !! x) ∧ objects s' = objects s)
    as (s' & Ew & Hi' & Hok' & Hwa & Hoth & Hob).
  { unfold WaitThread. rewrite Hl. simpl. rewrite Ht. simpl.
    assert (alter (λ th, set_status WaitArb (set_wait_address address th)) t (threads s) =
            <[t := th']> (threads s)) as Ealt.
    { exact (alter_some (λ th, set_status WaitArb (set_wait_address address th)) _ _ _ Ht). }
    eexists. split; [done|]. unfold upd_thread. rewrite Ealt.
    assert (kinv (set_threads s (<[t := th']> (threads s)))) as Hi1.
    { apply (kinv_set_thread s t th); try done. intros o ob Hob Hin.
      destruct (ki_waiters _ Hi o ob t Hob Hin) as (th0 & H0 & Hwo & _). assert (th0 = th) as -> by congruence.
      by rewrite Hs in Hwo. }
    split; [by apply set_waiting_list_inv|]. split; [split|split; [|split]].
    - simpl. by rewrite lookup_insert_eq.
    - apply NoDup_app. split_and!; [done| |apply NoDup_singleton]. set_solver.
    - intros x [Hx|Hx]%elem_of_app; simpl.
      + rewrite lookup_insert_ne by (by intros ->). by apply Hw.
      + apply list_elem_of_singleton in Hx as ->. exists th'. by rewrite lookup_insert_eq.
    - exists th'. simpl. by rewrite lookup_insert_eq.
    - intros x Hx. simpl. by rewrite lookup_insert_ne.
    - done. }
  destruct (Z.leb_spec value word) as [Hge|Hlt].
  - unfold type. destruct decrements; destruct (Z.ltb_spec word value); try lia; done.
  - destruct decrements; simpl; (destruct (Z.ltb_spec word value); [|lia]).
    + unfold decrement, s32_add. destruct (Z.eqb_spec word (- 2 ^ 31)) as [Hmin|Hmin].
      * destruct (Z.leb_spec (- 2 ^ 31) (word + -1)); [lia|]. done.
      * pose proof (swrap_range 32 (Read32 address m) ltac:(lia)) as Hr. fold (s32 (Read32 address m)) in Hr.
        fold word in Hr. change (2 ^ (32 - 1)) with (2 ^ 31) in Hr.
        destruct (Z.leb_spec (- 2 ^ 31) (word + -1)); [|lia].
        destruct (Z.ltb_spec (word + -1) (2 ^ 31)); [|lia]. cbn [andb mbind option_bind].
        rewrite Ew. cbn [mbind option_bind]. eexists _, s'. split; [done|]. split; [done|]. split; [done|].
        split; [done|]. split; [done|]. split; [done|]. rewrite read32_write32. unfold u32.
        by rewrite Z.mod_mod by lia.
    + rewrite Ew. simpl. exists m, s'. done.
Qed.

End Theorems.

(** ** Memory as bytes

    Little-endian words over a map from addresses to bytes implement the interface. *)

Definition ByteMemory : Type := Z → Z.

Definition byte_at (m : ByteMemory) (a : Z) : Z := m a `mod` 2 ^ 8.
Definition bytes_read32 (a : Z) (m : ByteMemory) : Z :=
  byte_at m a + byte_at m (a + 1) * 2 ^ 8 + byte_at m (a + 2) * 2 ^ 16 + byte_at m (a + 3) * 2 ^ 24.
Definition bytes_write32 (a v : Z) (m : ByteMemory) : ByteMemory :=
  λ x, if in_range a (a + 4) x then Z.shiftr v (8 * (x - a)) else m x.

#[export, program] Instance ByteMemory_guest : GuestMemory ByteMemory :=
  {| Read32 := bytes_read32; Write32 := bytes_write32 |}.
Next Obligation.
  intros a m. unfold bytes_read32, byte_at.
  pose proof (Z.mod_pos_bound (m a) (2 ^ 8)). pose proof (Z.mod_pos_bound (m (a + 1)) (2 ^ 8)).
  pose proof (Z.mod_pos_bound (m (a + 2)) (2 ^ 8)). pose proof (Z.mod_pos_bound (m (a + 3)) (2 ^ 8)). lia.
Qed.
Next Obligation.
  intros a v m. unfold bytes_read32, byte_at, bytes_write32.
  assert (∀ i, 0 <= i < 4 → in_range a (a + 4) (a + i) = true) as Hr by (intros i Hi; apply in_range_iff; lia).
  assert (in_range a (a + 4) a = true) as -> by (apply in_range_iff; lia). rewrite !Hr by lia. unfold u32.
  replace (a - a) with 0 by lia. replace (a + 1 - a) with 1 by lia.
  replace (a + 2 - a) with 2 by lia. replace (a + 3 - a) with 3 by lia.
  rewrite !Z.shiftr_div_pow2 by lia. change (2 ^ (8 * 0)) with 1. rewrite Z.div_1_r.
  change (2 ^ (8 * 3)) with (2 ^ 8 * 2 ^ 8 * 2 ^ 8). change (2 ^ (8 * 2)) with (2 ^ 8 * 2 ^ 8).
  change (2 ^ (8 * 1)) with (2 ^ 8).
  change (2 ^ 24) with (2 ^ 8 * 2 ^ 8 * 2 ^ 8). change (2 ^ 16) with (2 ^ 8 * 2 ^ 8).
  rewrite <- !Z.div_div by lia.
  pose proof (Z.div_mod v (2 ^ 8)). pose proof (Z.div_mod (v / 2 ^ 8) (2 ^ 8)).
  pose proof (Z.div_mod (v / 2 ^ 8 / 2 ^ 8) (2 ^ 8)).
  pose proof (Z.div_mod (v / 2 ^ 8 / 2 ^ 8 / 2 ^ 8) (2 ^ 8)).
  pose proof (Z.mod_pos_bound v (2 ^ 8)). pose proof (Z.mod_pos_bound (v / 2 ^ 8) (2 ^ 8)).
  pose proof (Z.mod_pos_bound (v / 2 ^ 8 / 2 ^ 8) (2 ^ 8)).
  pose proof (Z.mod_pos_bound (v / 2 ^ 8 / 2 ^ 8 / 2 ^ 8) (2 ^ 8)).
  apply (Z.mod_unique_pos v (2 ^ 32) (v / 2 ^ 8 / 2 ^ 8 / 2 ^ 8 / 2 ^ 8)); lia.
Qed.

(** ** Examples

    The threads 2 and 3 wait on the address 0x1000, thread 4 on 0x2000; thread 1 runs. *)
Module Examples.

Definition demo_thread (id : Z) (st : ThreadStatus) (p : nat) (address : Z) : Thread :=
  mkThread id st p p [] [] [] address None 0 0 0 0 0 0 Application 0.

Definition demo : KState :=
  mkK (list_to_map [(1, demo_thread 1 Running 30 0); (2, demo_thread 2 WaitArb 20 0x1000);
                    (3, demo_thread 3 WaitArb 10 0x1000); (4, demo_thread 4 WaitArb 10 0x2000)])
      ∅ (list_to_map [(7, [2; 3; 4])]) [mkManager (Some 1) WaitSynch.Examples.demo_queue ∅ [1; 2; 3; 4]]
      (Timing_new 1 0) false Single
      (mkLimiter false false 0 false []) (mkLimiter false false 0 false []) Kernel.Examples.no_ipc Kernel.Examples.no_system ∅.

Lemma arb_demo_inv : kinv demo.
Proof.
  split; simpl.
  - intros core m Hm. destruct core; [|done]. simpl in Hm. injection Hm as <-.
    destruct WaitSynch.Examples.demo_queue_ok as (a & Ha & Hp). exists a. split; [done|]. intros t th Ht _.
    WaitSynch.Examples.cases_in Ht; apply Hp; set_solver.
  - intros t th Ht. WaitSynch.Examples.cases_in Ht; (split; [by eexists|split; vm_compute; lia]).
  - intros t th m Ht Hm. WaitSynch.Examples.cases_in Ht; by apply elem_of_nil in Hm.
  - intros m ob lc p h Hm. by rewrite lookup_empty in Hm.
  - intros o ob t Ho. by rewrite lookup_empty in Ho.
  - intros o ob Ho. by rewrite lookup_empty in Ho.
  - intros t th o Ht Hin. WaitSynch.Examples.cases_in Ht; by apply elem_of_nil in Hin.
  - intros o ob parent Ho. by rewrite lookup_empty in Ho.
Qed.

Lemma demo_arb : arb_ok demo 7 [2; 3; 4].
Proof.
  split; [done|by apply (bool_decide_unpack _)|]. intros t Ht.
  repeat (apply elem_of_cons in Ht as [->|Ht]; [by eexists|]). by apply elem_of_nil in Ht.
Qed.

Lemma arbiter_signal_witness :
  ∃ s' ws' woken,
    ArbitrateAddress (λ n, n) 0 7 1 (Some ArbSignal) 0x1000 1 0 (λ _, 0 : Z) demo
      = Some ((λ _, 0) : ByteMemory, s', ResultSuccess) ∧
    signalled demo s' 0x1000 [2; 3; 4] ws' woken ∧ length woken = 1%nat.
Proof.
  destruct (arbiter_signal_spec (M := ByteMemory) (λ n, n) 0 7 1 0x1000 1 0 (demo_thread 1 Running 30 0) [2; 3; 4]
              (λ _, 0) demo arb_demo_inv demo_arb eq_refl ltac:(by eexists)) as (s' & ws' & woken & E & _ & _ & Hsg & Hlen).
  exists s', ws', woken. split; [exact E|]. split; [exact Hsg|]. rewrite Hlen. reflexivity.
Defined.

Lemma arbiter_wait_witness :
  ∃ m' s', ArbitrateAddress (λ n, n) 0 7 1 (Some DecrementAndWaitIfLessThan) 0x1000 1 0 ((λ _, 0) : ByteMemory) demo
      = Some (m', s', ResultSuccess) ∧
    arb_ok s' 7 [2; 3; 4; 1] ∧ Read32 0x1000 m' = 2 ^ 32 - 1.
Proof.
  destruct (arbiter_wait_spec (M := ByteMemory) (λ n, n) 0 7 1 0x1000 1 0 (demo_thread 1 Running 30 0) [2; 3; 4]
              true (λ _, 0) demo arb_demo_inv demo_arb eq_refl eq_refl eq_refl) as (m' & s' & E & _ & Hok & _ & _ & _ & Hr).
  exists m', s'. split; [exact E|]. split; [exact Hok|]. rewrite Hr. reflexivity.
Defined.

End Examples.
