(* ===== verification/Scheduler.v ===== *)
(** * The scheduler of a core ([ThreadManager] and [CpuLimiterMulti] of
    [src/src/core/hle/kernel/thread.cpp])

    [PopNextReadyThread] picks the next thread, [SwitchContext] makes it the running one, and
    [Reschedule] does both.  On core 1 a limiter may put the chosen thread to sleep, and then the
    choice starts again.  The processor's registers ([SaveContext], [LoadContext], the exclusive
    monitor, the page table of the process) are not part of the state. *)

From stdpp Require Import strings.
From S2P Require Import Prelude BitField ThreadQueueList CoreTiming ResourceLimit Kernel.

Definition core_manager (core : nat) (s : KState) : option ThreadManager := managers s !! core.

Definition set_queue_of (core : nat) (q : ThreadQueueList Z) (s : KState) : option KState :=
  on_ready_queue core (λ _, Some q) s.

Definition set_current (core : nat) (t : option Z) (s : KState) : option KState :=
  m ← managers s !! core;
  Some (set_managers s (<[core := mkManager t (ready_queue m) (wakeup_callback_table m)
                                            (thread_list m)]> (managers s))).

(** ** The limiter of core 1 *)

Definition GetCpuLimiter (s : KState) : CpuLimiter :=
  match schedule_mode s with Single => single_limiter s | Multi => multi_limiter s end.
Definition set_limiter (l : CpuLimiter) (s : KState) : KState :=
  match schedule_mode s with
  | Single => mkK (threads s) (objects s) (arbiters s) (managers s) (timing s) (reschedule s) Single l (multi_limiter s) (ipc s) (system s) (hle_requests s)
  | Multi => mkK (threads s) (objects s) (arbiters s) (managers s) (timing s) (reschedule s) Multi (single_limiter s) l (ipc s) (system s) (hle_requests s)
  end.
Definition tick_event (mode : Core1ScheduleMode) : string :=
  match mode with
  | Single => "Kernel::CpuLimiterSingle::tick_event"
  | Multi => "Kernel::CpuLimiterMulti::tick_event"
  end.

Definition base_tick_interval : Z := nsToCycles_int 2000000.

Definition GetThreadByID (core : nat) (id : Z) (s : KState) : option (option Z) :=
  m ← managers s !! core;
  ths ← mapM (λ t, threads s !! t) (thread_list m);
  Some (match list_find (λ '(_, th), thread_id th = id) (zip (thread_list m) ths) with
        | Some (_, (t, _)) => Some t
        | None => None
        end).

(** [WakeupSleepingThreads] pops the ids in order. *)
Fixpoint wakeup_sleeping (ids : list Z) (s : KState) : option KState :=
  match ids with
  | [] => Some s
  | id :: ids =>
      found ← GetThreadByID 1 id s;
      s ← (match found with
           | Some t =>
               th ← threads s !! t;
               if decide (status th = WaitSleep) then ResumeFromWait t s else Some s
           | None => Some s
           end);
      wakeup_sleeping ids s
  end.
Definition WakeupSleepingThreads (s : KState) : option KState :=
  let l := GetCpuLimiter s in
  s ← wakeup_sleeping (sleeping_thread_ids l) s;
  Some (set_limiter (mkLimiter (ready l) (active l) (app_cpu_time l) (app_turn l) []) s).

Section Limiter.
(** [static_cast<s64>(base_tick_interval * (app_cpu_time / 100.f))]. *)
Context (app_slice : Z → Z).
(** [GetLimitValue(CpuTime)] of a category, and [GetCurrentValue(CpuTime)] of the applications. *)
Context (cpu_time_limit : ResourceLimitCategory → Z) (app_current_cpu_time : Z).

Definition ChangeState (cycles_late : Z) (s : KState) : option KState :=
  let l := GetCpuLimiter s in
  let turn := negb (app_turn l) in
  let s := set_limiter (mkLimiter (ready l) (active l) (app_cpu_time l) turn (sleeping_thread_ids l)) s in
  let next_timer := app_slice (app_cpu_time l) in
  let next_timer := if turn then next_timer else base_tick_interval - next_timer in
  let next_timer := if cycles_late <? next_timer then next_timer - cycles_late else next_timer in
  tm ← ScheduleEvent (timing s) next_timer (Some (tick_event (schedule_mode s))) 0 (Some 1%nat) false;
  Some (set_timing s tm).

Definition OnTick (cycles_late : Z) (s : KState) : option KState :=
  s ← WakeupSleepingThreads s;
  ChangeState cycles_late s.

Definition Limiter_Start (s : KState) : KState :=
  let l := GetCpuLimiter s in
  if ready l then s
  else set_limiter (mkLimiter true false PREEMPTION_DISABLED true (sleeping_thread_ids l)) s.

Definition Limiter_End (s : KState) : option KState :=
  let l := GetCpuLimiter s in
  if negb (ready l) then Some s
  else
    let s := set_limiter (mkLimiter false false (app_cpu_time l) (app_turn l) (sleeping_thread_ids l)) s in
    let s := set_timing s (UnscheduleEvent (timing s) (tick_event (schedule_mode s)) 0) in
    WakeupSleepingThreads s.

Definition UpdateAppCpuLimit (s : KState) : option KState :=
  let l := GetCpuLimiter s in
  if negb (ready l) then Some s
  else if 90 <=? app_current_cpu_time then Some s
  else if app_current_cpu_time =? PREEMPTION_DISABLED then
    let s := set_limiter (mkLimiter (ready l) false app_current_cpu_time (app_turn l)
                                    (sleeping_thread_ids l)) s in
    let s := set_timing s (UnscheduleEvent (timing s) (tick_event (schedule_mode s)) 0) in
    WakeupSleepingThreads s
  else
    let s := if active l
             then set_timing s (UnscheduleEvent (timing s) (tick_event (schedule_mode s)) 0) else s in
    let s := set_limiter (mkLimiter (ready l) true app_current_cpu_time (app_turn l)
                                    (sleeping_thread_ids l)) s in
    ChangeState 0 s.

Definition set_mode (mode : Core1ScheduleMode) (s : KState) : KState :=
  mkK (threads s) (objects s) (arbiters s) (managers s) (timing s) (reschedule s) mode (single_limiter s)
      (multi_limiter s) (ipc s) (system s) (hle_requests s).
Definition SetScheduleMode (mode : Core1ScheduleMode) (s : KState) : option KState :=
  s ← Limiter_End s;
  Some (Limiter_Start (set_mode mode s)).

Definition DoTimeLimit (t : Z) (s : KState) : option (KState * bool) :=
  let l := GetCpuLimiter s in
  if negb (ready l) || negb (active l) then Some (s, false)
  else
    th ← threads s !! t;
    if cpu_time_limit (resource_limit_category th) =? PREEMPTION_EXCEMPTED then Some (s, false)
    else if (bool_decide (resource_limit_category th = Application) && negb (app_turn l)) ||
            (bool_decide (resource_limit_category th = Other) && app_turn l) then
      let s := upd_thread t (set_status WaitSleep) s in
      Some (set_limiter (mkLimiter (ready l) (active l) (app_cpu_time l) (app_turn l)
                                   (sleeping_thread_ids l ++ [thread_id th])) s, true)
    else Some (s, false).

(** ** Choosing a thread *)

(** The inner loops pop threads until one can be scheduled; the others are collected. *)
Fixpoint pop_better_loop (fuel : nat) (cur : Z) (priority : nat) (q : ThreadQueueList Z)
    (skipped : list (nat * Z)) (s : KState) : option (ThreadQueueList Z * Z * list (nat * Z)) :=
  '((next_priority, next), q) ← pop_first_better nullptr NUM_PRIO q priority;
  if next =? nullptr then Some (q, cur, skipped)
  else
    th ← threads s !! next;
    if CanSchedule th then Some (q, next, skipped)
    else match fuel with
         | O => None
         | S fuel => pop_better_loop fuel cur priority q (skipped ++ [(next_priority, next)]) s
         end.

Fixpoint pop_any_loop (fuel : nat) (q : ThreadQueueList Z) (skipped : list (nat * Z)) (s : KState)
  : option (ThreadQueueList Z * Z * list (nat * Z)) :=
  '((next_priority, next), q) ← pop_first nullptr NUM_PRIO q;
  if next =? nullptr then Some (q, nullptr, skipped)
  else
    th ← threads s !! next;
    if CanSchedule th then Some (q, next, skipped)
    else match fuel with
         | O => None
         | S fuel => pop_any_loop fuel q (skipped ++ [(next_priority, next)]) s
         end.

(** [for (auto it = skipped.rbegin(); ...) ready_queue.push_front(...)]. *)
Fixpoint push_skipped (skipped : list (nat * Z)) (q : ThreadQueueList Z) : option (ThreadQueueList Z) :=
  match skipped with
  | [] => Some q
  | (p, t) :: skipped => q ← push_skipped skipped q; push_front p t q
  end.

(** The number of threads in a ready queue. *)
Definition queue_size (q : ThreadQueueList Z) : nat := length (concat (data <$> queues q)).

(** One choice: the thread (or null) and the state with the queue updated. *)
Definition choose_next (core : nat) (s : KState) : option (KState * Z) :=
  m ← managers s !! core;
  let q := ready_queue m in
  let any := pop_any_loop (queue_size q) q [] s in
  '(q, next, skipped) ←
    (match current_thread m with
     | Some cur =>
         th ← threads s !! cur;
         if bool_decide (status th = Running) && CanSchedule th
         then pop_better_loop (queue_size q) cur (current_priority th) q [] s
         else any
     | None => any
     end);
  q ← push_skipped skipped q;
  s ← set_queue_of core q s;
  Some (s, next).

(** The outer loop: a time-limited thread is put to sleep and the choice is made again. *)
Fixpoint PopNextReadyThread (fuel : nat) (core : nat) (s : KState) : option (KState * Z) :=
  '(s, next) ← choose_next core s;
  '(s, limited) ← (if (core =? 1)%nat && negb (next =? nullptr) then DoTimeLimit next s
                   else Some (s, false));
  if limited : bool
  then match fuel with O => None | S fuel => PopNextReadyThread fuel core s end
  else Some (s, next).

(** ** Switching *)

(** "Save context for previous thread": a thread that was still running goes back to the front of
    its level. *)
Definition save_context (core : nat) (previous : Z) (s : KState) : option KState :=
  timer ← timers (timing s) !! core;
  let s := upd_thread previous (set_running_ticks (Timer_GetTicks timer)) s in
  th ← threads s !! previous;
  if decide (status th = Running) then
    s ← on_ready_queue core (push_front (current_priority th) previous) s;
    Some (upd_thread previous (set_status Ready) s)
  else Some s.

(** "Load context of new thread": a thread that is neither running nor ready any more is put back. *)
Definition load_context (core : nat) (new_thread : Z) (s : KState) : option KState :=
  th ← threads s !! new_thread;
  if bool_decide (status th = Running) || bool_decide (status th = Ready) then
    let s := set_timing s (UnscheduleEvent (timing s) (ThreadWakeupEventType core) (thread_id th)) in
    s ← set_current core (Some new_thread) s;
    s ← on_ready_queue core (remove (current_priority th) new_thread) s;
    Some (upd_thread new_thread (set_status Running) s)
  else on_ready_queue core (push_back (current_priority th) new_thread) s.

Definition SwitchContext (core : nat) (new_thread : Z) (s : KState) : option KState :=
  m ← managers s !! core;
  s ← (match current_thread m with Some previous => save_context core previous s | None => Some s end);
  if negb (new_thread =? nullptr) then load_context core new_thread s else set_current core None s.

Definition Reschedule (fuel core : nat) (s : KState) : option KState :=
  m ← managers s !! core;
  '(s, next) ← PopNextReadyThread fuel core s;
  match current_thread m with
  | None => if next =? nullptr then Some s else SwitchContext core next s
  | Some _ => SwitchContext core next s
  end.

Definition HaveReadyThreads (core : nat) (s : KState) : option bool :=
  m ← managers s !! core;
  t ← get_first nullptr NUM_PRIO (ready_queue m);
  Some (negb (t =? nullptr)).

Definition WaitCurrentThread_Sleep (core : nat) (s : KState) : option KState :=
  m ← managers s !! core;
  t ← current_thread m;
  _ ← threads s !! t;
  Some (upd_thread t (set_status WaitSleep) s).

(** ** Ending threads *)

Section Exit.
Context (other_wakeup : WakeupCallback → ThreadWakeupReason → Z → option Z → KState → option KState).

Definition erase_from_list (core : nat) (t : Z) (s : KState) : option KState :=
  m ← managers s !! core;
  Some (set_managers s (<[core := mkManager (current_thread m) (ready_queue m) (wakeup_callback_table m)
                                            (flat_set_erase t (thread_list m))]> (managers s))).

Definition ExitCurrentThread (core : nat) (s : KState) : option KState :=
  m ← managers s !! core;
  t ← current_thread m;
  s ← Stop other_wakeup t s;
  s ← erase_from_list core t s;
  Some (PrepareReschedule s).

(** The loop of [TerminateProcessThreads] over the thread list. *)
Fixpoint terminate_loop (ts : list Z) (core : nat) (cur : option Z) (process : Z) (s : KState)
  : option KState :=
  match ts with
  | [] => Some s
  | t :: ts =>
      th ← threads s !! t;
      if bool_decide (cur = Some t) || negb (owner_process th =? process)
      then terminate_loop ts core cur process s
      else
        s ← Stop other_wakeup t s;
        s ← erase_from_list core t s;
        terminate_loop ts core cur process s
  end.
Definition TerminateProcessThreads (core : nat) (process : Z) (s : KState) : option KState :=
  m ← managers s !! core;
  s ← terminate_loop (thread_list m) core (current_thread m) process s;
  match current_thread m with
  | Some t =>
      th ← threads s !! t;
      if owner_process th =? process then ExitCurrentThread core s else Some s
  | None => Some s
  end.

End Exit.
End Limiter.

(** ** Creating threads *)

(** [KernelSystem::CreateThread].  Parameters: whether the entry point is a valid address, the
    address and id of the new thread, and the result of [AllocateThreadLocalStorage], which
    comes after the thread was put on the lists.  [thread_managers] is a vector with one manager
    per core; an index outside it is undefined. *)
Definition CreateThread (entry_valid : bool) (t id : Z) (tls : ResultVal Z) (priority arg processor_id : Z)
    (process : Z) (category : ResourceLimitCategory) (make_ready : bool) (s : KState)
  : option (KState * ResultVal Z) :=
  if Z.of_nat ThreadPrioLowest <? priority then Some (s, inl ResultOutOfRange)
  else if ThreadProcessorIdMax <? processor_id then Some (s, inl ResultOutOfRangeKernel)
  else if negb entry_valid then
    Some (s, inl (mkResult 1013 ErrorModule_Kernel ErrorSummary_InvalidArgument ErrorLevel_Permanent))
  else if processor_id <? 0 then None
  else
    let core := Z.to_nat processor_id in
    let prio := Z.to_nat priority in
    m ← managers s !! core;
    timer ← timers (timing s) !! core;
    q ← prepare prio (ready_queue m);
    let th := mkThread id Dormant prio prio [] [] [] 0 None core 0 (Timer_GetTicks timer) 0 0 process
                       category 0 in
    let s := set_threads s (<[t := th]> (threads s)) in
    let s := set_objects s (<[t := mkObject [] KThread]> (objects s)) in
    let s := set_managers s
               (<[core := mkManager (current_thread m) q (<[id := t]> (wakeup_callback_table m))
                                    (thread_list m ++ [t])]> (managers s)) in
    match tls with
    | inl code => Some (s, inl code)
    | inr tls_address =>
        let s := upd_thread t (λ th, set_registers arg 0 (set_tls tls_address th)) s in
        if make_ready then
          s ← on_ready_queue core (push_back prio t) s;
          Some (upd_thread t (set_status Ready) s, inr t)
        else Some (s, inr t)
    end.

(** The processor check of [SVC::CreateThread]: the core the new thread gets. *)
Definition svc_processor (processor_id ideal_processor : Z) : option (ResultVal Z) :=
  let id := if processor_id =? -2 then ideal_processor else processor_id in
  ASSERT (negb ((processor_id =? -2) && (id =? -2))) ;;
  Some (if id =? 0 then inr 0
        else if id =? -1 then inr 0
        else if (id =? 1) || (id =? 2) || (id =? 3) then inr id
        else inl ResultOutOfRange).

(** [SVC::CreateThread] up to the handle of the new thread: [limit] is the resource limit of the
    current process, whose thread count is reserved before the thread is made. *)
Definition ResultOutOfThreads : Z := mkResult 12 ErrorModule_OS ErrorSummary_OutOfResource ErrorLevel_Status.

Definition svc_CreateThread (entry_valid : bool) (t id : Z) (tls : ResultVal Z) (priority arg processor_id : Z)
    (ideal_processor process : Z) (no_thread_restrictions : bool) (limit : ResourceLimit) (s : KState)
  : option (KState * ResourceLimit * ResultVal Z) :=
  if Z.of_nat ThreadPrioLowest <? priority then Some (s, limit, inl ResultOutOfRange)
  else
    max_priority ← GetLimitValue RL_Priority limit;
    if negb ((u32 max_priority <=? priority) || no_thread_restrictions)
    then Some (s, limit, inl ResultNotAuthorized)
    else
      processor ← svc_processor processor_id ideal_processor;
      match processor with
      | inl error => Some (s, limit, inl error)
      | inr processor_id =>
          '(limit, reserved) ← Reserve RL_Thread 1 limit;
          if negb reserved then Some (s, limit, inl ResultOutOfThreads)
          else
            '(s, result) ← CreateThread entry_valid t id tls priority arg processor_id process
                             (m_category limit) true s;
            match result with
            | inl error => Some (s, limit, inl error)
            | inr thread => Some (PrepareReschedule s, limit, inr thread)
            end
      end.

(** ** The choice, on the abstract queue *)

(** The threads of the queue exist; none sits at the null address. *)
Definition known (s : KState) (ls : list (list Z)) : Prop :=
  ∀ i l t, ls !! i = Some l → t ∈ l → t ≠ nullptr ∧ is_Some (threads s !! t).

Definition schedulable (s : KState) (t : Z) : Prop := ∃ th, threads s !! t = Some th ∧ CanSchedule th = true.

(** [t] is the first thread that can be scheduled, in the order of the levels below [bound] and, at
    one level, of arrival; without it the levels [ls] become [ls']. *)
Definition takes_first (s : KState) (bound : nat) (ls ls' : list (list Z)) (t : Z) : Prop :=
  ∃ i l1 l2, (i < bound)%nat ∧ ls !! i = Some (l1 ++ t :: l2) ∧ ls' = <[i := l1 ++ l2]> ls ∧
    schedulable s t ∧ (∀ x, x ∈ l1 → ~ schedulable s x) ∧
    (∀ j l x, (j < i)%nat → ls !! j = Some l → x ∈ l → ~ schedulable s x).
Definition none_to_take (s : KState) (bound : nat) (ls : list (list Z)) : Prop :=
  ∀ j l x, (j < bound)%nat → ls !! j = Some l → x ∈ l → ~ schedulable s x.

(** Both inner loops, over the way they pop. *)
Fixpoint pop_loop (pop : ThreadQueueList Z → option ((nat * Z) * ThreadQueueList Z)) (otherwise : Z)
    (fuel : nat) (q : ThreadQueueList Z) (skipped : list (nat * Z)) (s : KState)
  : option (ThreadQueueList Z * Z * list (nat * Z)) :=
  '((next_priority, next), q) ← pop q;
  if next =? nullptr then Some (q, otherwise, skipped)
  else
    th ← threads s !! next;
    if CanSchedule th then Some (q, next, skipped)
    else match fuel with
         | O => None
         | S fuel => pop_loop pop otherwise fuel q (skipped ++ [(next_priority, next)]) s
         end.

Lemma pop_better_loop_eq fuel cur p q skipped s :
  pop_better_loop fuel cur p q skipped s =
  pop_loop (λ q, pop_first_better nullptr NUM_PRIO q p) cur fuel q skipped s.
Proof.
  revert q skipped. induction fuel as [|fuel IH]; intros q skipped; simpl; [done|].
  destruct (pop_first_better nullptr NUM_PRIO q p) as [[[np n] q']|]; simpl; [|done].
  destruct (n =? nullptr); [done|]. destruct (threads s !! n); simpl; [|done]. by destruct (CanSchedule _).
Qed.

Lemma pop_any_loop_eq fuel q skipped s :
  pop_any_loop fuel q skipped s = pop_loop (pop_first nullptr NUM_PRIO) nullptr fuel q skipped s.
Proof.
  revert q skipped. induction fuel as [|fuel IH]; intros q skipped; simpl; [done|].
  destruct (pop_first nullptr NUM_PRIO q) as [[[np n] q']|]; simpl; [|done].
  destruct (n =? nullptr); [done|]. destruct (threads s !! n); simpl; [|done]. by destruct (CanSchedule _).
Qed.

Definition abs_size (ls : list (list Z)) : nat := length (concat ls).

Lemma abs_size_insert ls i x r :
  ls !! i = Some (x :: r) → abs_size ls = S (abs_size (<[i := r]> ls)).
Proof.
  unfold abs_size. revert i. induction ls as [|l ls IH]; intros i H; [done|].
  destruct i as [|i]; simpl in *.
  - injection H as ->. simpl. done.
  - rewrite !length_app, (IH i H). lia.
Qed.

Lemma known_insert s ls i x r : known s ls → ls !! i = Some (x :: r) → known s (<[i := r]> ls).
Proof.
  intros Hk Hi j l t Hj Ht. apply lookup_insert_case in Hj as [(-> & -> & _)|[_ Hj]]; [|by eapply Hk].
  eapply Hk; [done|]. by right.
Qed.

Lemma list_insert_same {A} (l : list A) i x y : l !! i = Some x → <[i := x]> (<[i := y]> l) = l.
Proof. intros H. rewrite list_insert_insert_eq. by apply list_insert_id. Qed.

(** Putting back a skipped thread in front of its level. *)
Lemma takes_first_skip s bound ls ls' i x r t :
  takes_first s bound (<[i := r]> ls) ls' t → ls !! i = Some (x :: r) →
  (∀ j, (j < i)%nat → ls !! j = Some []) → ~ schedulable s x →
  takes_first s bound ls (alter (cons x) i ls') t.
Proof.
  intros (k & l1 & l2 & Hk & Hl & -> & Ht & Hl1 & Hbef) Hi Hemp Hx.
  destruct (lookup_insert_case _ _ _ _ _ Hl) as [(<- & <- & Hlt)|[Hne Hlk]].
  - exists i, (x :: l1), l2. split_and!; try done.
    + rewrite list_insert_insert_eq. apply list_eq. intros j. destruct (decide (i = j)) as [<-|Hne].
      * rewrite list_lookup_alter_eq, !list_lookup_insert_eq by done. done.
      * by rewrite list_lookup_alter_ne, !list_lookup_insert_ne by done.
    + intros y [->|Hy]%elem_of_cons; [done|by apply Hl1].
    + intros j l y Hj Hlj Hy. rewrite Hemp in Hlj by done. injection Hlj as <-. by apply elem_of_nil in Hy.
  - assert (i < k)%nat as Hik.
    { destruct (decide (k < i)%nat) as [Hki|]; [|lia]. rewrite Hemp in Hlk by done.
      injection Hlk as E. by destruct l1. }
    exists k, l1, l2. split_and!; try done.
    + apply list_eq. intros j. destruct (decide (i = j)) as [<-|Hnj].
      * rewrite list_lookup_alter_eq, list_lookup_insert_ne by done.
        rewrite list_lookup_insert_eq by (by eapply lookup_lt_Some). rewrite list_lookup_insert_ne by done.
        by rewrite Hi.
      * rewrite list_lookup_alter_ne by done. destruct (decide (k = j)) as [<-|Hkj].
        -- rewrite !list_lookup_insert_eq; [done|by eapply lookup_lt_Some|].
           rewrite length_insert. by eapply lookup_lt_Some.
        -- by rewrite !list_lookup_insert_ne by done.
    + intros j l y Hj Hlj Hy. destruct (decide (j = i)) as [->|Hji].
      * rewrite Hi in Hlj. injection Hlj as <-. apply elem_of_cons in Hy as [->|Hy]; [done|].
        apply (Hbef i r y Hik); [|done]. by rewrite list_lookup_insert_eq by (by eapply lookup_lt_Some).
      * apply (Hbef j l y Hj); [|done]. by rewrite list_lookup_insert_ne by done.
Qed.

Lemma none_to_take_skip s bound ls i x r :
  none_to_take s bound (<[i := r]> ls) → ls !! i = Some (x :: r) → ~ schedulable s x → none_to_take s bound ls.
Proof.
  intros Hn Hi Hx j l y Hj Hlj Hy. destruct (decide (j = i)) as [->|Hji].
  - rewrite Hi in Hlj. injection Hlj as <-. apply elem_of_cons in Hy as [->|Hy]; [done|].
    apply (Hn i r y Hj); [|done]. by rewrite list_lookup_insert_eq by (by eapply lookup_lt_Some).
  - apply (Hn j l y Hj); [|done]. by rewrite list_lookup_insert_ne by done.
Qed.

(** The inner loop with the skipped threads put back. *)
Lemma pop_loop_ok pop bound otherwise s fuel q a skipped :
  (∀ q a', rep NUM_PRIO q a' → prepared a' = prepared a →
     ∃ q', pop q = Some ((abs_take nullptr bound a').1, q') ∧ rep NUM_PRIO q' (abs_take nullptr bound a').2) →
  (∀ i l, levels a !! i = Some l → l ≠ [] → i ∈ prepared a) →
  rep NUM_PRIO q a → known s (levels a) → (abs_size (levels a) <= fuel)%nat →
  ∃ q1 next sk q2 a2, pop_loop pop otherwise fuel q skipped s = Some (q1, next, skipped ++ sk) ∧
    push_skipped sk q1 = Some q2 ∧ rep NUM_PRIO q2 a2 ∧ prepared a2 = prepared a ∧
    ((next = otherwise ∧ levels a2 = levels a ∧ none_to_take s bound (levels a)) ∨
     takes_first s bound (levels a) (levels a2) next).
Proof.
  intros Hpop. revert q a skipped Hpop.
  induction fuel as [|fuel IH]; intros q a skipped Hpop Hused Hrep Hkn Hf;
    destruct (Hpop q a Hrep eq_refl) as (q' & E & Hrep'); unfold abs_take in E, Hrep';
    destruct (abs_front (take bound (levels a))) as [[[i x] r]|] eqn:Ef; simpl in E, Hrep'.
  2,4: (simpl; rewrite E; simpl; exists q', otherwise, [], q', a; rewrite app_nil_r; split_and!; try done;
        left; split_and!; try done; intros j l y Hj Hlj Hy;
        assert (l = []) as -> by (eapply (abs_front_empty _ j); [done|]; by rewrite lookup_take_lt);
        by apply elem_of_nil in Hy).
  1: { exfalso. apply abs_front_inv in Ef as [Hi _]. apply lookup_take_Some in Hi as [Hi _].
       rewrite (abs_size_insert _ _ _ _ Hi) in Hf. lia. }
  apply abs_front_inv in Ef as [Hi Hemp]. apply lookup_take_Some in Hi as [Hi Hib].
  assert (∀ j, (j < i)%nat → levels a !! j = Some []) as Hemp'.
  { intros j Hj. rewrite <- (Hemp j Hj). rewrite lookup_take_lt by lia. done. }
  destruct (Hkn i (x :: r) x Hi) as [Hx0 [th Hth]]; [by left|].
  simpl. rewrite E. simpl. rewrite (proj2 (Z.eqb_neq x nullptr)) by done. rewrite Hth. simpl.
  destruct (CanSchedule th) eqn:Ec.
  - exists q', x, [], q', (mkAbs (<[i := r]> (levels a)) (prepared a)). rewrite app_nil_r.
    split_and!; try done. right. exists i, [], r. split_and!; try done; [by exists th|set_solver|].
    intros j l y Hj Hlj Hy. rewrite Hemp' in Hlj by done. injection Hlj as <-. by apply elem_of_nil in Hy.
  - assert (~ schedulable s x) as Hns. { intros (th' & Hth' & Hc'). congruence. }
    set (a' := mkAbs (<[i := r]> (levels a)) (prepared a)) in Hrep'.
    destruct (IH q' a' (skipped ++ [(i, x)])) as (q1 & next & sk & q2 & a2 & E1 & E2 & Hrep2 & Hp2 & Hor).
    + done.
    + intros j l Hj Hne. simpl in Hj. apply lookup_insert_case in Hj as [(-> & -> & _)|[_ Hj]];
        [|by eapply Hused]. eapply Hused; [exact Hi|done].
    + done.
    + by eapply known_insert.
    + simpl. rewrite (abs_size_insert _ _ _ _ Hi) in Hf. lia.
    + destruct (push_refines NUM_PRIO q2 a2 i (cons x) Hrep2) as (c & Hc & Hrep3).
      { rewrite Hp2. simpl. eapply Hused; [exact Hi|done]. }
      exists q1, next, ((i, x) :: sk), (set_data i (x :: data c) q2), (abs_upd i (cons x) a2).
      split; [rewrite E1; by rewrite <- app_assoc|]. split.
      { simpl. rewrite E2. simpl. unfold push_front. by rewrite Hc. }
      split; [done|]. split; [done|]. destruct Hor as [(-> & El & Hn)|Ht]; [left|right].
      * split_and!; [done| |eapply none_to_take_skip; [exact Hn|exact Hi|done]]. simpl. rewrite El. simpl.
        apply list_eq. intros j. destruct (decide (i = j)) as [<-|Hne].
        -- rewrite list_lookup_alter_eq, list_lookup_insert_eq by (by eapply lookup_lt_Some). by rewrite Hi.
        -- by rewrite list_lookup_alter_ne, list_lookup_insert_ne by done.
      * eapply takes_first_skip; [exact Ht|exact Hi|done|done].
Qed.

Lemma rep_used q (a : AbsQueue Z) i l : rep NUM_PRIO q a → levels a !! i = Some l → l ≠ [] → i ∈ prepared a.
Proof.
  intros Hrep Hi Hne. pose proof Hrep as (_ & Hlev & Hprep). rewrite Hlev, list_lookup_fmap in Hi.
  destruct (queues q !! i) as [c|] eqn:Hc; simplify_eq/=. apply Hprep. by eapply used_linked.
Qed.

Lemma rep_size q (a : AbsQueue Z) : rep NUM_PRIO q a → queue_size q = abs_size (levels a).
Proof. intros (_ & Hlev & _). unfold queue_size, abs_size. by rewrite Hlev. Qed.

(** What is compared with the ready threads: the running thread, if it can be scheduled. *)
Definition keeps_running (s : KState) (cur : option Z) : option (Z * nat) :=
  cur ← cur; th ← threads s !! cur;
  if bool_decide (status th = Running) && CanSchedule th then Some (cur, current_priority th) else None.

Definition set_ready_queue (core : nat) (m : ThreadManager) (q : ThreadQueueList Z) (s : KState) : KState :=
  set_managers s (<[core := mkManager (current_thread m) q (wakeup_callback_table m) (thread_list m)]>
                    (managers s)).

Lemma choose_next_ok core m (a : AbsQueue Z) s :
  managers s !! core = Some m → rep NUM_PRIO (ready_queue m) a → known s (levels a) →
  (∀ cur, current_thread m = Some cur → ∃ th, threads s !! cur = Some th ∧ current_priority th ∈ prepared a) →
  ∃ next q' a', choose_next core s = Some (set_ready_queue core m q' s, next) ∧
    rep NUM_PRIO q' a' ∧ prepared a' = prepared a ∧
    let '(otherwise, bound) := default (nullptr, NUM_PRIO) (keeps_running s (current_thread m)) in
    (next = otherwise ∧ levels a' = levels a ∧ none_to_take s bound (levels a)) ∨
    takes_first s bound (levels a) (levels a') next.
Proof.
  intros Hm Hrep Hkn Hcur. unfold choose_next. rewrite Hm. simpl.
  assert (∀ (next : Z) sk q1 q2 a2, push_skipped sk q1 = Some q2 → rep NUM_PRIO q2 a2 →
    (q ← push_skipped sk q1; s' ← set_queue_of core q s; Some (s', next)) =
      Some (set_ready_queue core m q2 s, next)) as Hfin.
  { intros next sk q1 q2 a2 E _. rewrite E. simpl. unfold set_queue_of, on_ready_queue. by rewrite Hm. }
  assert (∀ i l, levels a !! i = Some l → l ≠ [] → i ∈ prepared a) as Hused by (intros; by eapply rep_used).
  pose proof (rep_size _ _ Hrep) as Hsz.
  assert (keeps_running s (current_thread m) = None → ∃ next q' a',
    ('(q, next, skipped) ← pop_any_loop (queue_size (ready_queue m)) (ready_queue m) [] s;
     q ← push_skipped skipped q; s' ← set_queue_of core q s; Some (s', next)) =
      Some (set_ready_queue core m q' s, next) ∧ rep NUM_PRIO q' a' ∧ prepared a' = prepared a ∧
    let '(otherwise, bound) := default (nullptr, NUM_PRIO) (keeps_running s (current_thread m)) in
    (next = otherwise ∧ levels a' = levels a ∧ none_to_take s bound (levels a)) ∨
    takes_first s bound (levels a) (levels a') next) as Hany.
  { intros ->. rewrite pop_any_loop_eq.
    destruct (pop_loop_ok (pop_first nullptr NUM_PRIO) NUM_PRIO nullptr s (queue_size (ready_queue m))
                (ready_queue m) a []) as (q1 & next & sk & q2 & a2 & E1 & E2 & Hrep2 & Hp2 & Hor); try done.
    - intros q a' Hr _. by apply pop_first_refines.
    - lia.
    - rewrite E1. simpl. exists next, q2, a2. split; [by eapply Hfin|]. done. }
  assert (∀ any, match current_thread m with
     | Some cur =>
         th ← threads s !! cur;
         if bool_decide (status th = Running) && CanSchedule th
         then pop_better_loop (queue_size (ready_queue m)) cur (current_priority th) (ready_queue m) [] s
         else any
     | None => any
     end = match keeps_running s (current_thread m) with
           | Some (cur, p) => pop_better_loop (queue_size (ready_queue m)) cur p (ready_queue m) [] s
           | None => any
           end ∧ ∀ cur p, keeps_running s (current_thread m) = Some (cur, p) → p ∈ prepared a) as Hcase.
  { intros any. unfold keeps_running. destruct (current_thread m) as [cur|] eqn:Ec; [|done]. simpl.
    destruct (Hcur cur eq_refl) as (th & Hth & Hpr). rewrite Hth. simpl.
    destruct (bool_decide _ && _); (split; [done|]); intros ?? [= <- <-]; done. }
  destruct (Hcase (pop_any_loop (queue_size (ready_queue m)) (ready_queue m) [] s)) as [-> Hpr].
  destruct (keeps_running s (current_thread m)) as [[cur p]|]; [|by apply Hany]. simpl. specialize (Hpr cur p eq_refl).
  rewrite pop_better_loop_eq.
  destruct (pop_loop_ok (λ q, pop_first_better nullptr NUM_PRIO q p) p
              cur s (queue_size (ready_queue m)) (ready_queue m) a [])
    as (q1 & next & sk & q2 & a2 & E1 & E2 & Hrep2 & Hp2 & Hor); try done.
  - intros q a' Hr Hpa. apply pop_first_better_refines; [done|]. by rewrite Hpa.
  - lia.
  - rewrite E1. simpl. exists next, q2, a2. split; [by eapply Hfin|]. done.
Qed.

(** ** Switching, on the abstract queue *)

Definition sched_view (th : Thread) : nat * Z := (current_priority th, unschedule_mode th).

(** The core's manager and the abstract value of its ready queue. *)
Definition core_at (core : nat) (s : KState) (cur : option Z) (a : AbsQueue Z) : Prop :=
  ∃ m, managers s !! core = Some m ∧ current_thread m = cur ∧ rep NUM_PRIO (ready_queue m) a.

Lemma on_ready_queue_at core f s cur a a' :
  core_at core s cur a →
  (∀ q, rep NUM_PRIO q a → ∃ q', f q = Some q' ∧ rep NUM_PRIO q' a') →
  ∃ s', on_ready_queue core f s = Some s' ∧ core_at core s' cur a' ∧ threads s' = threads s ∧
    timing s' = timing s.
Proof.
  intros (m & Hm & Hc & Hrep) Hf. destruct (Hf _ Hrep) as (q' & E & Hrep'). unfold on_ready_queue.
  rewrite Hm. simpl. rewrite E. simpl. eexists. split; [done|]. split_and!; try done.
  eexists. simpl. rewrite list_lookup_insert_eq by (by eapply lookup_lt_Some). by split_and!.
Qed.

Lemma upd_thread_at core t f s cur a : core_at core s cur a → core_at core (upd_thread t f s) cur a.
Proof. by intros (m & ? & ? & ?); exists m. Qed.

Lemma save_context_ok core previous th timer cur a s :
  core_at core s cur a → threads s !! previous = Some th → timers (timing s) !! core = Some timer →
  current_priority th ∈ prepared a →
  ∃ s' th', save_context core previous s = Some s' ∧ timing s' = timing s ∧
    threads s' = <[previous := th']> (threads s) ∧ sched_view th' = sched_view th ∧
    status th' = (if decide (status th = Running) then Ready else status th) ∧
    core_at core s' cur
      (if decide (status th = Running) then abs_upd (current_priority th) (cons previous) a else a).
Proof.
  intros Hat Hth Htm Hp. unfold save_context. rewrite Htm. simpl. rewrite lookup_alter_eq, Hth. simpl.
  set (s1 := upd_thread previous _ s).
  assert (threads s1 = <[previous := set_running_ticks (Timer_GetTicks timer) th]> (threads s)) as E1.
  { apply map_eq. intros i. simpl. rewrite lookup_alter, lookup_insert. repeat case_decide; try done.
    by subst; rewrite Hth. }
  destruct (decide (status th = Running)) as [Hs|Hs].
  - destruct (on_ready_queue_at core (push_front (current_priority th) previous) s1 cur a
                (abs_upd (current_priority th) (cons previous) a)) as (s2 & E2 & Hat2 & Ht2 & Htm2).
    { by apply upd_thread_at. }
    { intros q Hq. destruct (push_refines NUM_PRIO q a _ (cons previous) Hq Hp) as (c & Hc & Hr).
      unfold push_front. rewrite Hc. by eauto. }
    rewrite E2. simpl. eexists _, (set_status Ready (set_running_ticks (Timer_GetTicks timer) th)).
    split; [done|]. split_and!; try done. simpl. rewrite Ht2, E1.
    apply map_eq. intros i. rewrite lookup_alter, !lookup_insert. repeat case_decide; done.
  - eexists s1, _. split; [done|]. split; [done|]. split; [exact E1|]. by split_and!.
Qed.

Lemma load_context_ok core t th cur a s :
  core_at core s cur a → threads s !! t = Some th → status th = Ready → (current_priority th < NUM_PRIO)%nat →
  ∃ s', load_context core t s = Some s' ∧
    threads s' = <[t := set_status Running th]> (threads s) ∧
    timing s' = UnscheduleEvent (timing s) (ThreadWakeupEventType core) (thread_id th) ∧
    core_at core s' (Some t) (abs_upd (current_priority th) (filter (λ y, y ≠ t)) a).
Proof.
  intros (m & Hm & Hc & Hrep) Hth Hs Hp. unfold load_context. rewrite Hth. simpl. rewrite Hs. simpl.
  set (s1 := set_timing _ _). unfold set_current. change (managers s1) with (managers s). rewrite Hm. simpl.
  set (s2 := set_managers s1 _).
  assert (core_at core s2 (Some t) a) as Hat2.
  { eexists. simpl. rewrite list_lookup_insert_eq by (by eapply lookup_lt_Some). by split_and!. }
  destruct (on_ready_queue_at core (remove (current_priority th) t) s2 (Some t) a
              (abs_upd (current_priority th) (filter (λ y, y ≠ t)) a)) as (s3 & E3 & Hat3 & Ht3 & Htm3); [done| |].
  { intros q Hq. by apply remove_refines. }
  rewrite E3. simpl. eexists. split; [done|]. split_and!.
  - simpl. rewrite Ht3. simpl. apply map_eq. intros i. rewrite lookup_alter, lookup_insert.
    repeat case_decide; try done. by subst; rewrite Hth.
  - simpl. by rewrite Htm3.
  - by apply upd_thread_at.
Qed.

(** ** Rescheduling *)

Definition queued (ls : list (list Z)) (t : Z) : Prop := ∃ i l, ls !! i = Some l ∧ t ∈ l.

Definition runs (s : KState) (cur : option Z) (t : Z) : Prop :=
  cur = Some t ∧ ∃ th, threads s !! t = Some th ∧ status th = Running.

(** The levels hold ready threads, each once and at the level of its priority. *)
Record ready_ok (s : KState) (ls : list (list Z)) : Prop := {
  ro_known : known s ls;
  ro_ready : ∀ i l t th, ls !! i = Some l → t ∈ l → threads s !! t = Some th →
               status th = Ready ∧ current_priority th = i;
  ro_nodup : ∀ i l, ls !! i = Some l → NoDup l }.

(** A core between two calls: its current thread is not ready, so not in the queue. *)
Record sched_ok (core : nat) (s : KState) (cur : option Z) (a : AbsQueue Z) : Prop := {
  so_at : core_at core s cur a;
  so_ready : ready_ok s (levels a);
  so_cur : ∀ t, cur = Some t → ∃ th, threads s !! t = Some th ∧ t ≠ nullptr ∧ status th ≠ Ready ∧
             current_priority th ∈ prepared a;
  so_timer : is_Some (timers (timing s) !! core) }.

(** The levels after a running thread was put back in front. *)
Definition put_back (s : KState) (cur : option Z) (ls : list (list Z)) : list (list Z) :=
  match cur with
  | Some t =>
      match threads s !! t with
      | Some th => if decide (status th = Running) then alter (cons t) (current_priority th) ls else ls
      | None => ls
      end
  | None => ls
  end.

Lemma UnscheduleEvent_timer (tm : Timing TimedCallback) name data core :
  is_Some (timers tm !! core) → is_Some (timers (UnscheduleEvent tm name data) !! core).
Proof.
  intros [t Ht]. unfold UnscheduleEvent. destruct (event_queue_locked tm); [by eexists|]. simpl.
  rewrite list_lookup_fmap, Ht. by eexists.
Qed.

Lemma rep_level q (a : AbsQueue Z) p : rep NUM_PRIO q a → p ∈ prepared a → (p < NUM_PRIO)%nat.
Proof.
  intros ((ch & Hch) & _ & Hprep) Hp. apply Hprep in Hp as (c & Hc & _).
  rewrite <- (wf_len _ _ _ Hch). by eapply lookup_lt_Some.
Qed.


Lemma ready_not_queued s ls t th :
  ready_ok s ls → threads s !! t = Some th → status th ≠ Ready → ∀ i l, ls !! i = Some l → t ∉ l.
Proof. intros [_ Hr _] Ht Hs i l Hi Hin. by destruct (Hr i l t th Hi Hin Ht). Qed.

Lemma alter_cases {A} (f : A → A) (ls : list A) i j y :
  alter f i ls !! j = Some y → (i = j ∧ ∃ x, ls !! i = Some x ∧ y = f x) ∨ (i ≠ j ∧ ls !! j = Some y).
Proof.
  destruct (decide (i = j)) as [<-|Hne].
  - rewrite list_lookup_alter_eq. destruct (ls !! i) as [x|]; simpl; [|done]. intros [= <-]. left. eauto.
  - rewrite list_lookup_alter_ne by done. by right.
Qed.

(** Putting a ready thread that is not queued in front of its level. *)
Lemma ready_ok_push s s' ls t th th' :
  ready_ok s ls → threads s !! t = Some th → status th ≠ Ready → t ≠ nullptr →
  threads s' = <[t := th']> (threads s) → status th' = Ready → current_priority th' = current_priority th →
  ready_ok s' (alter (cons t) (current_priority th) ls).
Proof.
  intros Hro Ht Hs Hne E Hs' Hp'. pose proof (ready_not_queued s ls t th Hro Ht Hs) as Hnq.
  destruct Hro as [Hk Hr Hn]. split.
  - intros i l x Hi Hx. assert (x = t ∨ ∃ l', ls !! i = Some l' ∧ x ∈ l') as [->|(l' & Hl' & Hx')].
    { apply alter_cases in Hi as [(-> & l' & Hl' & ->)|[_ Hi]]; [|by eauto].
      apply elem_of_cons in Hx as [->|Hx]; eauto. }
    + split; [done|]. rewrite E, lookup_insert_eq. by eexists.
    + destruct (Hk i l' x Hl' Hx') as [? ?]. split; [done|]. rewrite E, lookup_insert.
      case_decide; [by eexists|done].
  - intros i l x thx Hi Hx Hthx. rewrite E, lookup_insert in Hthx. case_decide as Hxt.
    + subst x. injection Hthx as <-. split; [done|]. apply alter_cases in Hi as [(<- & _)|[_ Hi]]; [done|].
      by destruct (Hnq i l Hi).
    + apply alter_cases in Hi as [(<- & l' & Hl' & ->)|[_ Hi]]; [|by eapply Hr].
      apply elem_of_cons in Hx as [->|Hx]; [done|]. by eapply Hr.
  - intros i l Hi. apply alter_cases in Hi as [(<- & l' & Hl' & ->)|[_ Hi]]; [|by eapply Hn].
    apply NoDup_cons. split; [by eapply Hnq|by eapply Hn].
Qed.

(** A thread that is not queued may change freely. *)
Lemma ready_ok_other s s' ls t th' :
  ready_ok s ls → (∀ i l, ls !! i = Some l → t ∉ l) → threads s' = <[t := th']> (threads s) → ready_ok s' ls.
Proof.
  intros [Hk Hr Hn] Hnq E. split; [| |done].
  - intros i l x Hi Hx. destruct (Hk i l x Hi Hx). split; [done|]. rewrite E, lookup_insert.
    case_decide; [by eexists|done].
  - intros i l x thx Hi Hx Hthx. rewrite E, lookup_insert in Hthx. case_decide; [|by eapply Hr].
    subst x. by destruct (Hnq i l Hi).
Qed.

Lemma save_current_ok core s cur a :
  sched_ok core s cur a →
  ∃ s1 a1, (match cur with Some previous => save_context core previous s | None => Some s end) = Some s1 ∧
    core_at core s1 cur a1 ∧ levels a1 = put_back s cur (levels a) ∧ prepared a1 = prepared a ∧
    ready_ok s1 (levels a1) ∧ timing s1 = timing s ∧
    (∀ t, sched_view <$> threads s1 !! t = sched_view <$> threads s !! t) ∧
    (∀ t, cur ≠ Some t → threads s1 !! t = threads s !! t) ∧
    (∀ t th, cur = Some t → threads s !! t = Some th → ∃ th', threads s1 !! t = Some th' ∧
       status th' = (if decide (status th = Running) then Ready else status th)).
Proof.
  intros [Hat Hro Hcur [timer Htm]]. unfold put_back. destruct cur as [t|]; [|by exists s, a].
  destruct (Hcur t eq_refl) as (th & Hth & Ht0 & Hs & Hp). rewrite Hth.
  destruct (save_context_ok core t th timer (Some t) a s Hat Hth Htm Hp)
    as (s1 & th' & E & Htm1 & Ht1 & Hv & Hst & Hat1).
  exists s1, (if decide (status th = Running) then abs_upd (current_priority th) (cons t) a else a).
  assert (current_priority th' = current_priority th) as Hcp by (unfold sched_view in Hv; congruence).
  assert (∀ x, sched_view <$> threads s1 !! x = sched_view <$> threads s !! x) as Hview.
  { intros x. rewrite Ht1, lookup_insert. destruct (decide (t = x)) as [<-|]; [|done]. rewrite Hth. simpl.
    by rewrite Hv. }
  assert (∀ x, Some t ≠ Some x → threads s1 !! x = threads s !! x) as Hoth.
  { intros x Hne. rewrite Ht1, lookup_insert_ne; [done|congruence]. }
  assert (∀ x thx, Some t = Some x → threads s !! x = Some thx → ∃ thx', threads s1 !! x = Some thx' ∧
            status thx' = (if decide (status thx = Running) then Ready else status thx)) as Hme.
  { intros x thx [= <-] Hx. assert (thx = th) as -> by congruence. exists th'.
    by rewrite Ht1, lookup_insert_eq. }
  split; [done|]. split; [done|].
  destruct (decide (status th = Running)) as [Hrun|Hrun]; (split; [done|]); (split; [done|]); (split; [|by split_and!]).
  - simpl. eapply ready_ok_push; done.
  - eapply ready_ok_other; [done| |exact Ht1]. by eapply ready_not_queued.
Qed.

(** Taking a thread off its level, to run it. *)
Lemma ready_ok_remove s s' ls t th th' :
  ready_ok s ls → threads s !! t = Some th → threads s' = <[t := th']> (threads s) →
  ready_ok s' (alter (filter (λ y, y ≠ t)) (current_priority th) ls).
Proof.
  intros Hro Ht E. apply (ready_ok_other s _ _ t th'); [| |done].
  - destruct Hro as [Hk Hr Hn]. split.
    + intros i l x Hi Hx. apply alter_cases in Hi as [(<- & l' & Hl' & ->)|[_ Hi]]; [|by eapply Hk].
      apply list_elem_of_filter in Hx as [_ Hx]. by eapply Hk.
    + intros i l x thx Hi Hx Hthx. apply alter_cases in Hi as [(<- & l' & Hl' & ->)|[_ Hi]]; [|by eapply Hr].
      apply list_elem_of_filter in Hx as [_ Hx]. by eapply Hr.
    + intros i l Hi. apply alter_cases in Hi as [(<- & l' & Hl' & ->)|[_ Hi]]; [|by eapply Hn].
      apply NoDup_filter. by eapply Hn.
  - intros i l Hi Hin. apply alter_cases in Hi as [(<- & l' & Hl' & ->)|[Hne Hi]].
    + by apply list_elem_of_filter in Hin as [? _].
    + destruct (ro_ready _ _ Hro i l t th Hi Hin Ht). congruence.
Qed.

Lemma queued_remove s ls t th x :
  ready_ok s ls → threads s !! t = Some th →
  queued (alter (filter (λ y, y ≠ t)) (current_priority th) ls) x ↔ queued ls x ∧ x ≠ t.
Proof.
  intros Hro Ht. split.
  - intros (i & l & Hi & Hin). apply alter_cases in Hi as [(<- & l0 & Hl0 & ->)|[Hne Hi]].
    + apply list_elem_of_filter in Hin as [Hxt Hin]. split; [by eexists _, _|done].
    + split; [by eexists _, _|]. intros ->. destruct (ro_ready _ _ Hro i l t th Hi Hin Ht). done.
  - intros [(i & l & Hi & Hin) Hxt]. destruct (decide (current_priority th = i)) as [<-|Hne].
    + eexists _, _. rewrite list_lookup_alter_eq, Hi. split; [done|]. by apply list_elem_of_filter.
    + exists i, l. by rewrite list_lookup_alter_ne.
Qed.

Lemma switch_ok core s cur a next thn :
  sched_ok core s cur a → threads s !! next = Some thn → next ≠ nullptr →
  status thn = Ready ∨ (cur = Some next ∧ status thn = Running) → current_priority thn ∈ prepared a →
  ∃ s' a' thn', SwitchContext core next s = Some s' ∧ sched_ok core s' (Some next) a' ∧
    levels a' = alter (filter (λ y, y ≠ next)) (current_priority thn) (put_back s cur (levels a)) ∧
    (∀ t, queued (levels a') t ↔ queued (put_back s cur (levels a)) t ∧ t ≠ next) ∧
    (∀ t, sched_view <$> threads s' !! t = sched_view <$> threads s !! t) ∧
    threads s' !! next = Some thn' ∧ status thn' = Running.
Proof.
  intros Hok Hn Hn0 Hst Hp. pose proof (so_at _ _ _ _ Hok) as (m & Hm & Hc & Hrep).
  destruct (save_current_ok core s cur a Hok) as (s1 & a1 & E1 & Hat1 & Hl1 & Hp1 & Hro1 & Htm1 & Hv1 & Hoth & Hme).
  unfold SwitchContext. rewrite Hm. simpl. rewrite Hc, E1. simpl.
  rewrite (proj2 (Z.eqb_neq next nullptr)) by done. simpl.
  assert (∃ th1, threads s1 !! next = Some th1 ∧ status th1 = Ready ∧ current_priority th1 = current_priority thn)
    as (th1 & Hth1 & Hs1 & Hcp1).
  { pose proof (Hv1 next) as Ev. rewrite Hn in Ev.
    destruct (threads s1 !! next) as [th1|] eqn:Hth1; [|done]. simpl in Ev. exists th1.
    assert (current_priority th1 = current_priority thn) as Hcp by (unfold sched_view in Ev; congruence).
    split_and!; [done| |done]. destruct (decide (cur = Some next)) as [Hcn|Hcn].
    - destruct (Hme next thn Hcn Hn) as (th' & Hth' & Est). assert (th' = th1) as -> by congruence. rewrite Est.
      destruct (so_cur _ _ _ _ Hok next Hcn) as (th0 & H0 & _ & Hs0 & _).
      destruct Hst as [Hr|[_ Hr]]; [congruence|]. by rewrite decide_True.
    - destruct Hst as [Hr|[? _]]; [|done]. rewrite Hoth in Hth1 by done. congruence. }
  destruct (load_context_ok core next th1 cur a1 s1 Hat1 Hth1 Hs1) as (s' & E' & Ht' & Htm' & Hat').
  { rewrite Hcp1. by eapply rep_level. }
  exists s', (abs_upd (current_priority th1) (filter (λ y, y ≠ next)) a1), (set_status Running th1).
  split; [done|]. split; [split|split_and!].
  - done.
  - simpl. by eapply ready_ok_remove.
  - intros t [= <-]. exists (set_status Running th1). rewrite Ht', lookup_insert_eq. split_and!; try done.
    simpl. by rewrite Hcp1, Hp1.
  - rewrite Htm', Htm1. apply UnscheduleEvent_timer. by apply (so_timer _ _ _ _ Hok).
  - simpl. by rewrite Hl1, Hcp1.
  - intros t. simpl. rewrite <- Hl1. by eapply queued_remove.
  - intros t. rewrite <- Hv1, Ht', lookup_insert. case_decide; [|done]. subst t. by rewrite Hth1.
  - by rewrite Ht', lookup_insert_eq.
  - done.
Qed.

Lemma switch_idle_ok core s cur a :
  sched_ok core s cur a →
  ∃ s' a', SwitchContext core nullptr s = Some s' ∧ sched_ok core s' None a' ∧
    levels a' = put_back s cur (levels a) ∧
    (∀ t, sched_view <$> threads s' !! t = sched_view <$> threads s !! t).
Proof.
  intros Hok. pose proof (so_at _ _ _ _ Hok) as (m & Hm & Hc & Hrep).
  destruct (save_current_ok core s cur a Hok) as (s1 & a1 & E1 & Hat1 & Hl1 & Hp1 & Hro1 & Htm1 & Hv1 & _).
  unfold SwitchContext. rewrite Hm. simpl. rewrite Hc, E1. simpl. unfold set_current.
  destruct Hat1 as (m1 & Hm1 & Hc1 & Hrep1). rewrite Hm1. simpl. eexists _, a1. split; [done|].
  split; [split|done].
  - eexists. simpl. rewrite list_lookup_insert_eq by (by eapply lookup_lt_Some). by split_and!.
  - destruct Hro1. by split.
  - done.
  - simpl. rewrite Htm1. by apply (so_timer _ _ _ _ Hok).
Qed.

(** The running thread or its absence, against the levels that are left. *)
Definition best_runs (s : KState) (cur : option Z) (ls : list (list Z)) : Prop :=
  match cur with
  | Some t => ∃ th, threads s !! t = Some th ∧ status th = Running ∧ CanSchedule th = true ∧
      none_to_take s (current_priority th) ls
  | None => none_to_take s NUM_PRIO ls
  end.

Lemma schedulable_view s s' t :
  sched_view <$> threads s' !! t = sched_view <$> threads s !! t → schedulable s' t ↔ schedulable s t.
Proof.
  intros E. unfold schedulable, CanSchedule.
  destruct (threads s !! t) as [th|], (threads s' !! t) as [th'|]; simplify_eq/=; [|naive_solver].
  unfold sched_view in E. split; intros (th0 & [= <-] & Hu); eexists; (split; [done|]); congruence.
Qed.

Lemma queued_put_back s cur ls t :
  (∀ x th, cur = Some x → threads s !! x = Some th → is_Some (ls !! current_priority th)) →
  queued (put_back s cur ls) t ↔ queued ls t ∨ runs s cur t.
Proof.
  intros Hlen. unfold put_back, runs. destruct cur as [x|]; [|naive_solver].
  destruct (threads s !! x) as [th|] eqn:Hx; [|naive_solver congruence].
  case_decide as Hrun.
  - destruct (Hlen x th eq_refl Hx) as [l Hl]. split.
    + intros (i & l' & Hi & Hin). apply alter_cases in Hi as [(<- & l0 & Hl0 & ->)|[_ Hi]]; [|left; by exists i, l'].
      apply elem_of_cons in Hin as [->|Hin]; [right; by eauto|left; by exists (current_priority th), l0].
    + intros [(i & l' & Hi & Hin)|([= <-] & _)].
      * destruct (decide (current_priority th = i)) as [<-|Hne].
        -- exists (current_priority th), (x :: l'). rewrite list_lookup_alter_eq, Hi. split; [done|by right].
        -- exists i, l'. by rewrite list_lookup_alter_ne.
      * exists (current_priority th), (x :: l). rewrite list_lookup_alter_eq, Hl. split; [done|by left].
  - split; [by left|]. intros [?|([= <-] & th' & Hth' & Hs)]; [done|]. congruence.
Qed.

Lemma takes_first_queued s bound ls ls' t :
  takes_first s bound ls ls' t → ready_ok s ls → ready_ok s ls' ∧ (∀ x, queued ls x ↔ queued ls' x ∨ x = t) ∧
  ∃ th, threads s !! t = Some th ∧ status th = Ready ∧ t ≠ nullptr ∧ CanSchedule th = true ∧
    (current_priority th < bound)%nat ∧ none_to_take s (current_priority th) ls' ∧ queued ls t ∧
    is_Some (ls !! current_priority th).
Proof.
  intros (i & l1 & l2 & Hi & Hl & -> & (th & Ht & Hc) & Hl1 & Hbef) [Hk Hr Hn].
  assert (t ∈ l1 ++ t :: l2) as Hin by set_solver.
  destruct (Hr i _ t th Hl Hin Ht) as [Hs Hp]. destruct (Hk i _ t Hl Hin) as [Ht0 _].
  assert (∀ j l, <[i := l1 ++ l2]> ls !! j = Some l → ∃ l', ls !! j = Some l' ∧ l ⊆ l') as Hsub.
  { intros j l Hj. apply lookup_insert_case in Hj as [(<- & -> & _)|[_ Hj]]; [|by eauto].
    exists (l1 ++ t :: l2). split; [done|]. set_solver. }
  split; [|split].
  - split.
    + intros j l x Hj Hx. destruct (Hsub j l Hj) as (l' & Hl' & Hs'). by eapply Hk; [|apply Hs'].
    + intros j l x thx Hj Hx. destruct (Hsub j l Hj) as (l' & Hl' & Hs'). eapply Hr; [done|]. by apply Hs'.
    + intros j l Hj. apply lookup_insert_case in Hj as [(<- & -> & _)|[_ Hj]]; [|by eapply Hn].
      specialize (Hn i _ Hl). apply NoDup_app in Hn as (? & Hd & [_ ?]%NoDup_cons). apply NoDup_app.
      split_and!; try done. intros x Hx Hx2. apply (Hd x Hx). by right.
  - intros x. split.
    + intros (j & l & Hj & Hx). destruct (decide (j = i)) as [->|Hne].
      * rewrite Hl in Hj. injection Hj as <-. destruct (decide (x = t)) as [->|Hxt]; [by right|]. left.
        exists i, (l1 ++ l2). rewrite list_lookup_insert_eq by (by eapply lookup_lt_Some). split; [done|]. set_solver.
      * left. exists j, l. by rewrite list_lookup_insert_ne.
    + intros [(j & l & Hj & Hx)| ->]; [|by exists i, (l1 ++ t :: l2)].
      destruct (Hsub j l Hj) as (l' & Hl' & Hs'). exists j, l'. split; [done|]. by apply Hs'.
  - exists th. rewrite Hp. split_and!; try done; [|by exists i, (l1 ++ t :: l2)].
    intros j l x Hj Hlj Hx. destruct (Hsub j l Hlj) as (l' & Hl' & Hs'). eapply Hbef; [done..|]. by apply Hs'.
Qed.

Lemma sched_ok_choose core s cur a :
  sched_ok core s cur a →
  ∃ next q m a1, choose_next core s = Some (set_ready_queue core m q s, next) ∧
    sched_ok core (set_ready_queue core m q s) cur a1 ∧ prepared a1 = prepared a ∧
    let '(otherwise, bound) := default (nullptr, NUM_PRIO) (keeps_running s cur) in
    (next = otherwise ∧ levels a1 = levels a ∧ none_to_take s bound (levels a)) ∨
    takes_first s bound (levels a) (levels a1) next.
Proof.
  intros [(m & Hm & Hc & Hrep) Hro Hcur Htm].
  destruct (choose_next_ok core m a s Hm Hrep) as (next & q & a1 & E & Hrep1 & Hp1 & Hor).
  { apply Hro. }
  { intros t Ht. rewrite Hc in Ht. destruct (Hcur t Ht) as (th & ? & _ & _ & ?). by exists th. }
  rewrite Hc in Hor. exists next, q, m, a1. split; [done|]. split; [|done]. split.
  - eexists. simpl. rewrite list_lookup_insert_eq by (by eapply lookup_lt_Some). by split_and!.
  - assert (ready_ok s (levels a1)) as [H1 H2 H3].
    { destruct (default _ _) as [otherwise bound]. destruct Hor as [(_ & -> & _)|Ht]; [done|].
      by destruct (takes_first_queued _ _ _ _ _ Ht Hro). }
    by split.
  - intros t Ht. destruct (Hcur t Ht) as (th & ? & ? & ? & ?). exists th. by rewrite Hp1.
  - done.
Qed.

(** No thread of the core is limited at the moment. *)
Definition unlimited (core : nat) (s : KState) : Prop :=
  core ≠ 1%nat ∨ ready (GetCpuLimiter s) = false ∨ active (GetCpuLimiter s) = false.

Lemma none_to_take_put_back s s' cur ls bound p :
  none_to_take s bound ls → (p <= bound)%nat → (∀ x, schedulable s' x ↔ schedulable s x) →
  (∀ x q, keeps_running s cur = Some (x, q) → (p <= q)%nat) →
  none_to_take s' p (put_back s cur ls).
Proof.
  intros Hn Hpb Hv Hkr j l x Hj Hl Hx. rewrite Hv.
  unfold put_back, keeps_running in *. destruct cur as [c|]; [|eapply Hn; [|done..]; lia]. simpl in Hkr.
  destruct (threads s !! c) as [th|] eqn:Hc; [|eapply Hn; [|done..]; lia]. simpl in Hkr.
  destruct (decide (status th = Running)) as [Hrun|]; [|eapply Hn; [|done..]; lia].
  apply alter_cases in Hl as [(<- & l0 & Hl0 & ->)|[_ Hl]]; [|eapply Hn; [|done..]; lia].
  apply elem_of_cons in Hx as [->|Hx]; [|eapply Hn; [|done..]; lia].
  rewrite bool_decide_true in Hkr by done. intros (th' & Hth' & Hcs). assert (th' = th) as -> by congruence.
  rewrite Hcs in Hkr. specialize (Hkr c _ eq_refl). lia.
Qed.

Lemma none_to_take_alter s f p ls : none_to_take s p ls → none_to_take s p (alter f p ls).
Proof. intros Hn j l x Hj. rewrite list_lookup_alter_ne by lia. by apply Hn. Qed.

Lemma current_level_exists core s cur a :
  sched_ok core s cur a →
  ∀ x th, cur = Some x → threads s !! x = Some th → is_Some (levels a !! current_priority th).
Proof.
  intros Hok x th -> Hx. destruct (so_cur _ _ _ _ Hok x eq_refl) as (th0 & H0 & _ & _ & Hpr).
  assert (th0 = th) as -> by congruence. destruct (so_at _ _ _ _ Hok) as (m & _ & _ & Hrep).
  pose proof (rep_level _ _ _ Hrep Hpr) as Hlt. destruct (level_of_index NUM_PRIO _ _ _ Hrep Hlt) as [c Hc].
  destruct Hrep as (_ & Hlev & _). rewrite Hlev, list_lookup_fmap, Hc. by eexists.
Qed.

Section Rescheduling.
Context (cpu_time_limit : ResourceLimitCategory → Z).

Lemma PopNextReadyThread_unlimited fuel core s s1 next :
  unlimited core s → choose_next core s = Some (s1, next) → GetCpuLimiter s1 = GetCpuLimiter s →
  PopNextReadyThread cpu_time_limit fuel core s = Some (s1, next).
Proof.
  intros Hu E El. destruct fuel; simpl; rewrite E; simpl;
    (destruct ((core =? 1)%nat && negb (next =? nullptr)) eqn:Ec; [|done]);
    apply andb_true_iff in Ec as [->%Nat.eqb_eq _]; unfold DoTimeLimit; rewrite El;
    destruct Hu as [?|[->| ->]]; try done; by rewrite ?orb_true_r.
Qed.

(** Running [next] (chosen from the queue, or the current thread) leaves the best thread running. *)
Lemma run_next_ok core s cur a next thn :
  sched_ok core s cur a → threads s !! next = Some thn → next ≠ nullptr →
  status thn = Ready ∨ (cur = Some next ∧ status thn = Running) → current_priority thn ∈ prepared a →
  CanSchedule thn = true → none_to_take s (current_priority thn) (levels a) →
  (∀ x q, keeps_running s cur = Some (x, q) → (current_priority thn <= q)%nat) →
  ∃ s' a', SwitchContext core next s = Some s' ∧ sched_ok core s' (Some next) a' ∧
    best_runs s' (Some next) (levels a') ∧
    ∀ t, queued (levels a') t ∨ Some next = Some t ↔ queued (levels a) t ∨ runs s cur t ∨ t = next.
Proof.
  intros Hok Hn Hn0 Hst Hp Hcs Hnone Hkr.
  destruct (switch_ok core s cur a next thn Hok Hn Hn0 Hst Hp) as (s' & a' & thn' & E & Hok' & Hl' & Hq' & Hv' & Hn' & Hs').
  exists s', a'. split; [done|]. split; [done|].
  assert (∀ x, schedulable s' x ↔ schedulable s x) as Hsv by (intros x; apply schedulable_view, Hv').
  pose proof (Hv' next) as Ev. rewrite Hn, Hn' in Ev. simpl in Ev. unfold sched_view in Ev.
  split.
  - exists thn'. split_and!; [done|done| |].
    + unfold CanSchedule in *. by replace (unschedule_mode thn') with (unschedule_mode thn) by congruence.
    + replace (current_priority thn') with (current_priority thn) by congruence. rewrite Hl'.
      apply none_to_take_alter. by eapply none_to_take_put_back.
  - intros t. rewrite Hq'.
    rewrite queued_put_back.
    + destruct (decide (t = next)) as [->|]; naive_solver.
    + by eapply current_level_exists.
Qed.

Lemma keeps_running_inv (s : KState) (cur : option Z) (c : Z) (p : nat) :
  keeps_running s cur = Some (c, p) →
  ∃ th, cur = Some c ∧ threads s !! c = Some th ∧ status th = Running ∧ CanSchedule th = true ∧
    current_priority th = p.
Proof.
  unfold keeps_running. destruct cur as [c'|]; [|done]. simpl.
  destruct (threads s !! c') as [th|] eqn:Hth; [|done]. simpl.
  destruct (bool_decide (status th = Running)) eqn:Eb; simpl; [|done].
  destruct (CanSchedule th) eqn:Ec; [|done]. apply bool_decide_eq_true in Eb. intros [= <- <-].
  by exists th.
Qed.

(** Switching to the thread that was taken from the queue. *)
Lemma switch_taken_ok (core : nat) (s : KState) (cur : option Z) (a a1 : AbsQueue Z) (next : Z)
    (m : ThreadManager) (q : ThreadQueueList Z) :
  sched_ok core s cur a → sched_ok core (set_ready_queue core m q s) cur a1 → prepared a1 = prepared a →
  takes_first s (default (nullptr, NUM_PRIO) (keeps_running s cur)).2 (levels a) (levels a1) next →
  ∃ s' a', SwitchContext core next (set_ready_queue core m q s) = Some s' ∧ sched_ok core s' (Some next) a' ∧
    best_runs s' (Some next) (levels a') ∧
    ∀ t, queued (levels a') t ∨ Some next = Some t ↔ queued (levels a) t ∨ runs s cur t.
Proof.
  intros Hok Hok1 Hp1 Ht. pose proof (so_at _ _ _ _ Hok) as (m0 & Hm & Hc & Hrep).
  destruct (takes_first_queued _ _ _ _ _ Ht (so_ready _ _ _ _ Hok))
    as (_ & Hq & th & Hth & Hs & Hn0 & Hcs & Hb & Hnone & (i & l & Hi & Hin) & _).
  destruct (run_next_ok core _ cur a1 next th Hok1 Hth Hn0) as (s' & a' & E' & Hok' & Hbest & Hq'); try done.
  - by left.
  - rewrite Hp1. destruct (ro_ready _ _ (so_ready _ _ _ _ Hok) i l next th Hi Hin Hth) as [_ ->].
    eapply rep_used; [exact Hrep|exact Hi|]. by intros ->; apply elem_of_nil in Hin.
  - intros x p' Hkr. change (keeps_running s cur = Some (x, p')) in Hkr. rewrite Hkr in Hb. simpl in Hb. lia.
  - exists s', a'. split_and!; try done. intros t. rewrite Hq', Hq.
    change (runs (set_ready_queue core m q s) cur t) with (runs s cur t). tauto.
Qed.

(** C3: [Reschedule] on a core whose threads are not limited at the moment: it returns, the thread
    that runs afterwards can be scheduled and no thread that could be scheduled is ready at a more
    urgent level, or nothing runs and no ready thread can be scheduled.  The threads that are ready
    or running are the same as before, so none is lost, and the ready queue stays well-formed with
    every thread at the level of its priority. *)
Theorem reschedule_runs_best (fuel core : nat) (s : KState) (cur : option Z) (a : AbsQueue Z) :
  sched_ok core s cur a → unlimited core s →
  ∃ s' cur' a', Reschedule cpu_time_limit fuel core s = Some s' ∧ sched_ok core s' cur' a' ∧
    best_runs s' cur' (levels a') ∧
    ∀ t, queued (levels a') t ∨ cur' = Some t ↔ queued (levels a) t ∨ runs s cur t.
Proof.
  intros Hok Hu. destruct (sched_ok_choose core s cur a Hok) as (next & q & m & a1 & E & Hok1 & Hp1 & Hor).
  pose proof (so_at _ _ _ _ Hok) as (m0 & Hm & Hc & Hrep).
  unfold Reschedule. rewrite Hm. simpl. erewrite PopNextReadyThread_unlimited by done. simpl. rewrite Hc.
  set (s1 := set_ready_queue core m q s) in *.
  pose proof (switch_taken_ok core s cur a a1 next m q Hok Hok1 Hp1) as Htake. fold s1 in Htake.
  destruct (keeps_running s cur) as [[c p]|] eqn:Ekr; simpl in Hor.
  - destruct (keeps_running_inv _ _ _ _ Ekr) as (th & -> & Hth & Hrun & Hcs & Hpr).
    destruct Hor as [(-> & El & Hnone)|Ht].
    + destruct (so_cur _ _ _ _ Hok c eq_refl) as (th0 & H0 & Hc0 & _ & Hpp).
      assert (th0 = th) as -> by congruence.
      destruct (run_next_ok core s1 (Some c) a1 c th Hok1 Hth Hc0) as (s' & a' & E' & Hok' & Hbest & Hq'); try done.
      * by right.
      * by rewrite Hp1.
      * rewrite El, Hpr. done.
      * intros x p' Hkr. change (keeps_running s (Some c) = Some (x, p')) in Hkr. rewrite Ekr in Hkr.
        injection Hkr as <- <-. lia.
      * exists s', (Some c), a'. split_and!; try done. intros t. rewrite Hq', El.
        change (runs s1 (Some c) t) with (runs s (Some c) t). unfold runs. naive_solver.
    + destruct (Htake Ht) as (s' & a' & ? & ? & ? & ?). by exists s', (Some next), a'.
  - destruct Hor as [(-> & El & Hnone)|Ht].
    + destruct cur as [c|].
      * destruct (switch_idle_ok core s1 (Some c) a1 Hok1) as (s' & a' & E' & Hok' & Hl' & Hv').
        exists s', None, a'. split_and!; try done.
        -- simpl. rewrite Hl', El. eapply none_to_take_put_back; [exact Hnone|done| |].
           ++ intros x. apply (schedulable_view s1), Hv'.
           ++ intros x p' Hkr. change (keeps_running s (Some c) = Some (x, p')) in Hkr. congruence.
        -- intros t. rewrite Hl', El, queued_put_back; [naive_solver|].
           exact (current_level_exists core s (Some c) a Hok).
      * simpl. exists s1, None, a1. split_and!; try done; [by rewrite El|].
        intros t. rewrite El. unfold runs. naive_solver.
    + destruct (Htake Ht) as (s' & a' & Es & ? & ? & ?). exists s', (Some next), a'.
      destruct (takes_first_queued _ _ _ _ _ Ht (so_ready _ _ _ _ Hok)) as (_ & _ & th & _ & _ & Hn0 & _).
      split_and!; try done. destruct cur; [done|]. by rewrite (proj2 (Z.eqb_neq next nullptr)).
Qed.

End Rescheduling.

(** ** Creating threads *)

Lemma svc_create_reserves entry_valid t id tls priority arg processor_id ideal process restr limit s cur processor :
  priority <= Z.of_nat ThreadPrioLowest → GetLimitValue RL_Priority limit = Some 0 → 0 <= priority →
  is_Some (GetLimitValue RL_Thread limit) →
  GetCurrentValue RL_Thread limit = Some cur → - 2 ^ 31 <= cur < 2 ^ 31 - 1 →
  svc_processor processor_id ideal = Some (inr processor) →
  ∃ limit', GetCurrentValue RL_Thread limit' = Some (cur + 1) ∧
    svc_CreateThread entry_valid t id tls priority arg processor_id ideal process restr limit s =
      ('(s, result) ← CreateThread entry_valid t id tls priority arg processor process (m_category limit) true s;
       match result with
       | inl error => Some (s, limit', inl error)
       | inr thread => Some (PrepareReschedule s, limit', inr thread)
       end).
Proof.
  intros Hp Hlim Hp0 [tl Htl] Hcur Hrange Hproc. unfold svc_CreateThread.
  destruct (Z.ltb_spec (Z.of_nat ThreadPrioLowest) priority); [lia|].
  rewrite Hlim. simpl. change (u32 0) with 0. destruct (Z.leb_spec 0 priority); [simpl|lia].
  rewrite Hproc. simpl. unfold Reserve, s32_add. rewrite Htl, Hcur. cbn [mbind option_bind].
  destruct (Z.leb_spec (- 2 ^ 31) (cur + 1)); [|lia]. destruct (Z.ltb_spec (cur + 1) (2 ^ 31)); [|lia].
  cbn [andb mbind option_bind]. unfold SetCurrentValue, array_set, GetCurrentValue in *. rewrite Hcur. simpl.
  eexists. split; [|done]. unfold array_get in *. simpl. apply list_lookup_insert_eq. by eapply lookup_lt_Some.
Qed.

(** [SVC::CreateThread] with an entry point that is not mapped returns the error of
    [KernelSystem::CreateThread] and makes no thread, but the thread it reserved in the resource
    limit stays counted. *)
Theorem create_thread_error_keeps_reservation (t id : Z) (tls : ResultVal Z) (priority arg processor_id : Z)
    (ideal process : Z) (restr : bool) (limit : ResourceLimit) (s : KState) (cur processor : Z) :
  priority <= Z.of_nat ThreadPrioLowest → GetLimitValue RL_Priority limit = Some 0 → 0 <= priority →
  is_Some (GetLimitValue RL_Thread limit) →
  GetCurrentValue RL_Thread limit = Some cur → - 2 ^ 31 <= cur < 2 ^ 31 - 1 →
  svc_processor processor_id ideal = Some (inr processor) →
  ∃ limit' error, svc_CreateThread false t id tls priority arg processor_id ideal process restr limit s
                    = Some (s, limit', inl error) ∧
    GetCurrentValue RL_Thread limit' = Some (cur + 1).
Proof.
  intros Hp Hlim Hp0 Htl Hcur Hrange Hproc.
  destruct (svc_create_reserves false t id tls priority arg processor_id ideal process restr limit s cur processor)
    as (limit' & Hc & ->); try done.
  assert (processor <= 3) as H3.
  { unfold svc_processor in Hproc. inv_opt. repeat case_match; simplify_eq/=; try done.
    all: repeat match goal with
                | H : (_ || _) = true |- _ => apply orb_true_iff in H as [H|H]
                | H : (_ =? _) = true |- _ => apply Z.eqb_eq in H
                end; lia. }
  unfold CreateThread. destruct (Z.ltb_spec (Z.of_nat ThreadPrioLowest) priority); [lia|].
  unfold ThreadProcessorIdMax. destruct (Z.ltb_spec 4 processor); [lia|]. simpl. by eauto.
Qed.

(** On a system with two cores (an Old 3DS) [SVC::CreateThread] accepts the processors 2 and 3
    and indexes the vector of thread managers outside its bounds. *)
Theorem create_thread_processor_without_core (t id : Z) (tls : ResultVal Z) (priority arg processor_id : Z)
    (ideal process : Z) (restr : bool) (limit : ResourceLimit) (s : KState) (cur : Z) :
  length (managers s) = 2%nat → processor_id = 2 ∨ processor_id = 3 →
  priority <= Z.of_nat ThreadPrioLowest → GetLimitValue RL_Priority limit = Some 0 → 0 <= priority →
  is_Some (GetLimitValue RL_Thread limit) →
  GetCurrentValue RL_Thread limit = Some cur → - 2 ^ 31 <= cur < 2 ^ 31 - 1 →
  svc_CreateThread true t id tls priority arg processor_id ideal process restr limit s = None.
Proof.
  intros Hlen Hpid Hp Hlim Hp0 Htl Hcur Hrange.
  destruct (svc_create_reserves true t id tls priority arg processor_id ideal process restr limit s cur processor_id)
    as (limit' & Hc & ->); try done.
  { destruct Hpid as [->| ->]; done. }
  unfold CreateThread. destruct (Z.ltb_spec (Z.of_nat ThreadPrioLowest) priority); [lia|].
  unfold ThreadProcessorIdMax. destruct (Z.ltb_spec 4 processor_id); [lia|]. simpl.
  destruct (Z.ltb_spec processor_id 0); [lia|].
  rewrite (lookup_ge_None_2 (managers s)) by lia. done.
Qed.

(** ** Examples

    Thread 1 runs with the priority 30; the threads 2 (priority 10, not to be scheduled) and 3
    (priority 20) are ready. *)
Module Examples.

Definition demo_thread (id : Z) (st : ThreadStatus) (p : nat) (mode : Z) : Thread :=
  mkThread id st p p [] [] [] 0 None 0 mode 0 0 0 0 Application 0.

Definition demo_ops : list (qop Z) :=
  [OpPrepare 10; OpPrepare 20; OpPrepare 30; OpPushBack 10 2; OpPushBack 20 3].
Definition demo_abs : AbsQueue Z := (abs_trace nullptr NUM_PRIO demo_ops (abs_new NUM_PRIO)).2.
Definition demo_queue : ThreadQueueList Z :=
  from_option snd (tql_new NUM_PRIO) (run_trace nullptr NUM_PRIO demo_ops (tql_new NUM_PRIO)).

Lemma demo_rep : rep NUM_PRIO demo_queue demo_abs.
Proof.
  destruct (run_trace_refines nullptr NUM_PRIO demo_ops (tql_new NUM_PRIO) (abs_new NUM_PRIO) (rep_new NUM_PRIO))
    as (q' & E & Hrep).
  { unfold demo_ops, NUM_PRIO, ThreadPrioLowest. simpl. split_and!; try lia; try done; set_solver. }
  unfold demo_queue. rewrite E. exact Hrep.
Qed.

Definition demo : KState :=
  mkK (list_to_map [(1, demo_thread 1 Running 30 0); (2, demo_thread 2 Ready 10 1); (3, demo_thread 3 Ready 20 0)])
      ∅ ∅ [mkManager (Some 1) demo_queue ∅ [1; 2; 3]; mkManager None (tql_new NUM_PRIO) ∅ []]
      (Timing_new 2 0) false Single
      (mkLimiter false false 0 false []) (mkLimiter false false 0 false []) Kernel.Examples.no_ipc Kernel.Examples.no_system ∅.

Lemma demo_levels i l : levels demo_abs !! i = Some l → l = [] ∨ (i = 10%nat ∧ l = [2]) ∨ (i = 20%nat ∧ l = [3]).
Proof.
  intros H. assert (i < 64)%nat as Hi.
  { apply lookup_lt_Some in H. revert H. by vm_compute. }
  do 64 (destruct i as [|i]; [vm_compute in H; injection H as <-; tauto|]). lia.
Qed.

Lemma demo_ok : sched_ok 0 demo (Some 1) demo_abs.
Proof.
  split.
  - eexists. split; [done|]. split; [done|]. exact demo_rep.
  - split.
    + intros i l t Hi Ht. destruct (demo_levels i l Hi) as [->|[[-> ->]|[-> ->]]];
        [by apply elem_of_nil in Ht|apply list_elem_of_singleton in Ht as ->..]; (split; [done|by eexists]).
    + intros i l t th Hi Ht Hth. destruct (demo_levels i l Hi) as [->|[[-> ->]|[-> ->]]];
        [by apply elem_of_nil in Ht|apply list_elem_of_singleton in Ht as ->..]; vm_compute in Hth; by injection Hth as <-.
    + intros i l Hi. destruct (demo_levels i l Hi) as [->|[[_ ->]|[_ ->]]];
        [apply NoDup_nil|apply NoDup_singleton..]; done.
  - intros t [= <-]. eexists. split; [done|]. split; [done|]. split; [done|]. simpl. set_solver.
  - by eexists.
Qed.

Lemma reschedule_witness :
  ∃ s' cur' a', Reschedule (λ _, 0) 0 0 demo = Some s' ∧ sched_ok 0 s' cur' a' ∧ best_runs s' cur' (levels a').
Proof.
  destruct (reschedule_runs_best (λ _, 0) 0 0 demo (Some 1) demo_abs demo_ok ltac:(by left))
    as (s' & cur' & a' & E & Hok & Hb & _).
  exists s', cur', a'. by split_and!.
Defined.

(** The same run, evaluated: thread 3 runs, thread 2 is skipped and thread 1 waits at its level. *)
Example reschedule_demo :
  (s' ← Reschedule (λ _, 0) 0 0 demo; m ← managers s' !! 0%nat;
   Some (current_thread m, data <$> queues (ready_queue m) !! 10%nat, data <$> queues (ready_queue m) !! 30%nat))
  = Some (Some 3, Some [2], Some [1]).
Proof. vm_compute. reflexivity. Qed.

Definition demo_limit : ResourceLimit := ResourceLimit_Create Application.

Lemma create_error_witness :
  ∃ limit' error, svc_CreateThread false 4 4 (inr 0) 40 0 0 0 0 false demo_limit demo = Some (demo, limit', inl error) ∧
    GetCurrentValue RL_Thread limit' = Some 1.
Proof.
  apply (create_thread_error_keeps_reservation 4 4 (inr 0) 40 0 0 0 0 false demo_limit demo 0 0);
    try reflexivity; try lia; try (vm_compute; congruence). by eexists.
Defined.

Lemma create_without_core_witness :
  svc_CreateThread true 4 4 (inr 0) 40 0 2 0 0 false demo_limit demo = None.
Proof.
  apply (create_thread_processor_without_core 4 4 (inr 0) 40 0 2 0 0 false demo_limit demo 0);
    try reflexivity; try lia; try (vm_compute; congruence). by eexists.
Defined.

End Examples.
