(* ===== verification/ArmSupp.v ===== *)
(** * The arithmetic of the ARM interpreter
    ([src/src/core/arm/skyeye_common/armsupp.h], [armsupp.cpp])

    Sums with carry and overflow, and the saturating operations on bytes, halfwords and words.  The
    theorems compare them with the arithmetic that they stand for: a sum of integers, and a value that is
    brought into a range. *)

From stdpp Require Import base list.
From S2P Require Import Prelude.

(** ** Bits of a word *)

Definition BITS (s a b : Z) : Z := Z.shiftr (u32 (Z.shiftl s (31 - b))) (31 - b + a).
Definition BIT (s n : Z) : Z := Z.land (Z.shiftr s n) 1.
Definition POS (i : Z) : Z := Z.shiftr (u32 (Z.lnot i)) 31.
Definition NEG (i : Z) : Z := Z.shiftr i 31.

Definition s8 (z : Z) : Z := swrap 8 z.
Definition not32 (i : Z) : Z := u32 (Z.lnot i).

(** ** The operations *)

Definition ARMul_UnsignedAbsoluteDifference (left right : Z) : Z :=
  if right <? left then u8 (left - right) else u8 (right - left).

(** The sum, the carry and the overflow. *)
Definition AddWithCarry (left right carry_in : Z) : Z * bool * bool :=
  let unsigned_sum := u64 (left + right + carry_in) in
  let signed_sum := s32 left + s32 right + carry_in in
  let result := Z.land unsigned_sum 0xFFFFFFFF in
  (result, negb (result =? unsigned_sum), negb (s32 result =? signed_sum)).

Definition truth (z : Z) : bool := negb (z =? 0).

Definition AddOverflow (a b result : Z) : bool :=
  (truth (NEG a) && truth (NEG b) && truth (POS result)) || (truth (POS a) && truth (POS b) && truth (NEG result)).
Definition SubOverflow (a b result : Z) : bool :=
  (truth (NEG a) && truth (POS b) && truth (POS result)) || (truth (POS a) && truth (NEG b) && truth (NEG result)).

Definition ARMul_AddOverflowQ (a b : Z) : bool :=
  let result := u32 (a + b) in
  truth (Z.land (Z.lxor result a) 0x80000000) && (Z.land (Z.lxor a b) 0x80000000 =? 0).

Definition ARMul_SignedSaturatedAdd8 (left right : Z) : Z :=
  let result := u8 (left + right) in
  if truth (Z.land (Z.lxor result left) 0x80) && (Z.land (Z.lxor left right) 0x80 =? 0) then
    if truth (Z.land left 0x80) then 0x80 else 0x7F
  else result.
Definition ARMul_SignedSaturatedSub8 (left right : Z) : Z :=
  let result := u8 (left - right) in
  if truth (Z.land (Z.lxor result left) 0x80) && negb (Z.land (Z.lxor left right) 0x80 =? 0) then
    if truth (Z.land left 0x80) then 0x80 else 0x7F
  else result.
Definition ARMul_SignedSaturatedAdd16 (left right : Z) : Z :=
  let result := u16 (left + right) in
  if truth (Z.land (Z.lxor result left) 0x8000) && (Z.land (Z.lxor left right) 0x8000 =? 0) then
    if truth (Z.land left 0x8000) then 0x8000 else 0x7FFF
  else result.
Definition ARMul_SignedSaturatedSub16 (left right : Z) : Z :=
  let result := u16 (left - right) in
  if truth (Z.land (Z.lxor result left) 0x8000) && negb (Z.land (Z.lxor left right) 0x8000 =? 0) then
    if truth (Z.land left 0x8000) then 0x8000 else 0x7FFF
  else result.

Definition ARMul_UnsignedSaturatedAdd8 (left right : Z) : Z :=
  let result := u8 (left + right) in if result <? left then 0xFF else result.
Definition ARMul_UnsignedSaturatedAdd16 (left right : Z) : Z :=
  let result := u16 (left + right) in if result <? left then 0xFFFF else result.
Definition ARMul_UnsignedSaturatedSub8 (left right : Z) : Z :=
  if left <=? right then 0 else u8 (left - right).
Definition ARMul_UnsignedSaturatedSub16 (left right : Z) : Z :=
  if left <=? right then 0 else u16 (left - right).

(** [(1 << shift) - 1] is a computation on [int], which overflows for 31. *)
Definition max_of (shift : Z) : option Z := ASSERT (shift <? 31) ;; Some (Z.shiftl 1 shift - 1).

(** The value and whether it was saturated; [value] is an [s32]. *)
Definition ARMul_SignedSatQ (value shift : Z) : option (Z * bool) :=
  max ← max_of shift;
  let top := Z.shiftr value shift in
  Some (if 0 <? top then (max, true) else if top <? -1 then (not32 max, true) else (u32 value, false)).
Definition ARMul_UnsignedSatQ (value shift : Z) : option (Z * bool) :=
  max ← max_of shift;
  Some (if value <? 0 then (0, true) else if max <? u32 value then (max, true) else (u32 value, false)).

(** ** Lemmas *)

Lemma BITS_div s a b : 0 <= s < 2 ^ 32 → 0 <= a → a <= b <= 31 → BITS s a b = (s / 2 ^ a) `mod` 2 ^ (b - a + 1).
Proof.
  intros Hs Ha Hb. unfold BITS. apply Z.bits_inj'. intros i Hi.
  rewrite Z.shiftr_spec, <- Z.shiftr_div_pow2, mod_pow2_testbit, Z.shiftr_spec by lia. unfold u32.
  rewrite mod_pow2_testbit, Z.shiftl_spec by lia.
  destruct (Z.ltb_spec i (b - a + 1)); destruct (Z.ltb_spec (i + (31 - b + a)) 32); try lia.
  - simpl. f_equal. lia.
Qed.

Lemma BITS_range s a b : 0 <= a → a <= b <= 31 → 0 <= BITS s a b < 2 ^ (b - a + 1).
Proof.
  intros Ha Hb. unfold BITS. rewrite Z.shiftr_div_pow2 by lia. pose proof (u32_range (Z.shiftl s (31 - b))).
  split; [apply Z.div_pos; lia|]. apply Z.div_lt_upper_bound; [lia|]. rewrite <- Z.pow_add_r by lia.
  replace (31 - b + a + (b - a + 1)) with 32 by lia. lia.
Qed.

Lemma BIT_b2z s n : 0 <= n → BIT s n = Z.b2z (Z.testbit s n).
Proof.
  intros Hn. unfold BIT. change 1 with (Z.ones 1). rewrite Z.land_ones by lia. rewrite Z.shiftr_div_pow2 by lia.
  change (2 ^ 1) with 2. by rewrite <- Z.testbit_spec'.
Qed.

(** A bit that is the top bit of a [w]-bit value is the sign of its signed reading. *)
Lemma land_pow2 x n : 0 <= n → (Z.land x (2 ^ n) =? 0) = negb (Z.testbit x n).
Proof.
  intros Hn. rewrite <- Z.shiftl_1_l. destruct (Z.testbit x n) eqn:E; simpl.
  - apply Z.eqb_neq. intros H. apply (f_equal (λ z, Z.testbit z n)) in H.
    rewrite Z.land_spec, Z.shiftl_spec, Z.sub_diag, E, Z.bits_0 in H by lia. done.
  - apply Z.eqb_eq. apply Z.bits_inj'. intros i Hi. rewrite Z.land_spec, Z.shiftl_spec, Z.bits_0 by lia.
    destruct (decide (i = n)) as [->|Hne]; [by rewrite E|]. destruct (decide (i < n)).
    + rewrite (Z.testbit_neg_r 1) by lia. apply andb_false_r.
    + rewrite (Z.bits_above_log2 1 (i - n)) by (simpl; lia). apply andb_false_r.
Qed.

Lemma testbit_sign w x : 0 < w → 0 <= x < 2 ^ w → Z.testbit x (w - 1) = (2 ^ (w - 1) <=? x).
Proof.
  intros Hw Hx. pose proof (pow2_double w Hw) as E. rewrite Z.testbit_eqb by lia.
  destruct (Z.leb_spec (2 ^ (w - 1)) x) as [H|H].
  - apply Z.eqb_eq. replace (x / 2 ^ (w - 1)) with 1; [done|]. apply (Z.div_unique _ _ _ (x - 2 ^ (w - 1))); lia.
  - apply Z.eqb_neq. rewrite Z.div_small by lia. done.
Qed.

Lemma swrap_sign w x : 0 < w → 0 <= x < 2 ^ w → swrap w x = x - (if Z.testbit x (w - 1) then 2 ^ w else 0).
Proof. intros Hw Hx. rewrite testbit_sign, swrap_cases by done. destruct (Z.ltb_spec x (2 ^ (w - 1))), (Z.leb_spec (2 ^ (w - 1)) x); lia. Qed.

(** A number brought into a range. *)
Definition clamp (lo hi x : Z) : Z := Z.max lo (Z.min hi x).

Definition byte (x : Z) : Prop := 0 <= x < 2 ^ 8.
Definition halfword (x : Z) : Prop := 0 <= x < 2 ^ 16.
Definition word (x : Z) : Prop := 0 <= x < 2 ^ 32.

(** Tests of sign bits become comparisons. *)
Lemma sign_test w m x : 0 < w → m = 2 ^ (w - 1) → 0 <= x < 2 ^ w → (Z.land x m =? 0) = (x <? m).
Proof.
  intros Hw -> Hx. rewrite land_pow2, testbit_sign by lia. destruct (Z.leb_spec (2 ^ (w - 1)) x), (Z.ltb_spec x (2 ^ (w - 1))); try done; lia.
Qed.
Lemma sign_xor_test w m x y :
  0 < w → m = 2 ^ (w - 1) → 0 <= x < 2 ^ w → 0 <= y < 2 ^ w → (Z.land (Z.lxor x y) m =? 0) = Bool.eqb (x <? m) (y <? m).
Proof.
  intros Hw -> Hx Hy. rewrite land_pow2, Z.lxor_spec, !testbit_sign by lia.
  destruct (Z.leb_spec (2 ^ (w - 1)) x), (Z.leb_spec (2 ^ (w - 1)) y), (Z.ltb_spec x (2 ^ (w - 1))), (Z.ltb_spec y (2 ^ (w - 1))); try done; lia.
Qed.

Lemma signed_add_ok w m l r :
  0 < w → m = 2 ^ (w - 1) → 0 <= l < 2 ^ w → 0 <= r < 2 ^ w →
  (let result := (l + r) `mod` 2 ^ w in
   if truth (Z.land (Z.lxor result l) m) && (Z.land (Z.lxor l r) m =? 0) then
     if truth (Z.land l m) then m else m - 1
   else result) = clamp (- 2 ^ (w - 1)) (2 ^ (w - 1) - 1) (swrap w l + swrap w r) `mod` 2 ^ w.
Proof.
  intros Hw Hm Hl Hr. pose proof (pow2_double w Hw) as E2. unfold truth. cbv zeta.
  pose proof (Z.mod_pos_bound (l + r) (2 ^ w) ltac:(lia)) as Hb.
  assert ((l + r) `mod` 2 ^ w = l + r ∨ (l + r) `mod` 2 ^ w = l + r - 2 ^ w) as Hcase.
  { destruct (decide (l + r < 2 ^ w)); [left; apply Z.mod_small; lia|right].
    rewrite <- (Z.mod_add (l + r) (-1)) by lia. rewrite Z.mod_small by lia. lia. }
  rewrite !(sign_xor_test w m), (sign_test w m), !swrap_cases by done. set (result := (l + r) `mod` 2 ^ w) in *.
  rewrite <- Hm in *. unfold clamp.
  assert (∀ z, - m <= z < 0 → z `mod` 2 ^ w = z + 2 ^ w) as Hneg.
  { intros z Hz. rewrite <- (Z.mod_add z 1), Z.mod_small by lia. lia. }
  destruct (Z.ltb_spec l m), (Z.ltb_spec r m), (Z.ltb_spec result m); simpl; try lia;
    match goal with |- _ = ?x `mod` _ => destruct (decide (x < 0)); [rewrite Hneg by lia|rewrite (Z.mod_small x) by lia] end; lia.
Qed.

Lemma signed_sub_ok w m l r :
  0 < w → m = 2 ^ (w - 1) → 0 <= l < 2 ^ w → 0 <= r < 2 ^ w →
  (let result := (l - r) `mod` 2 ^ w in
   if truth (Z.land (Z.lxor result l) m) && negb (Z.land (Z.lxor l r) m =? 0) then
     if truth (Z.land l m) then m else m - 1
   else result) = clamp (- 2 ^ (w - 1)) (2 ^ (w - 1) - 1) (swrap w l - swrap w r) `mod` 2 ^ w.
Proof.
  intros Hw Hm Hl Hr. pose proof (pow2_double w Hw) as E2. unfold truth. cbv zeta.
  pose proof (Z.mod_pos_bound (l - r) (2 ^ w) ltac:(lia)) as Hb.
  assert ((l - r) `mod` 2 ^ w = l - r ∨ (l - r) `mod` 2 ^ w = l - r + 2 ^ w) as Hcase.
  { destruct (decide (0 <= l - r)); [left; apply Z.mod_small; lia|right].
    rewrite <- (Z.mod_add (l - r) 1) by lia. rewrite Z.mod_small by lia. lia. }
  rewrite !(sign_xor_test w m), (sign_test w m), !swrap_cases by done. set (result := (l - r) `mod` 2 ^ w) in *.
  rewrite <- Hm in *. unfold clamp.
  assert (∀ z, - m <= z < 0 → z `mod` 2 ^ w = z + 2 ^ w) as Hneg.
  { intros z Hz. rewrite <- (Z.mod_add z 1), Z.mod_small by lia. lia. }
  destruct (Z.ltb_spec l m), (Z.ltb_spec r m), (Z.ltb_spec result m); simpl; try lia;
    match goal with |- _ = ?x `mod` _ => destruct (decide (x < 0)); [rewrite Hneg by lia|rewrite (Z.mod_small x) by lia] end; lia.
Qed.

Lemma land_mask32 x : Z.land x 0xFFFFFFFF = u32 x.
Proof. change 0xFFFFFFFF with (Z.ones 32). by apply Z.land_ones. Qed.

Lemma u32_mod_carry s : 0 <= s < 2 ^ 33 → u32 s = s - (if s <? 2 ^ 32 then 0 else 2 ^ 32).
Proof.
  intros Hs. unfold u32. destruct (Z.ltb_spec s (2 ^ 32)); [rewrite Z.mod_small; lia|].
  rewrite <- (Z.mod_add s (-1)), Z.mod_small by lia. lia.
Qed.

(** What [AddWithCarry] computes, for operands of 32 bits and a carry bit. *)
Lemma AddWithCarry_eq left right c :
  word left → word right → 0 <= c <= 1 →
  AddWithCarry left right c =
    (u32 (left + right + c), 2 ^ 32 <=? left + right + c, negb (s32 (u32 (left + right + c)) =? s32 left + s32 right + c)).
Proof.
  unfold word. intros Hl Hr Hc. unfold AddWithCarry. rewrite (u64_id (left + right + c)) by lia. rewrite land_mask32. f_equal. f_equal.
  rewrite u32_mod_carry by lia. destruct (Z.ltb_spec (left + right + c) (2 ^ 32)), (Z.leb_spec (2 ^ 32) (left + right + c)); try lia.
Qed.

(** The sum of two words and a carry bit: the result and the carry are the unsigned sum of 33 bits,
    the overflow tells whether the result is the signed sum, and the operands come back from a
    subtraction. *)
Theorem add_with_carry_spec left right c :
  word left → word right → 0 <= c <= 1 →
  ∃ result carry overflow, AddWithCarry left right c = (result, carry, overflow) ∧ word result ∧
    result + Z.b2z carry * 2 ^ 32 = left + right + c ∧
    (overflow = false ↔ s32 result = s32 left + s32 right + c) ∧
    (overflow = false ↔ - 2 ^ 31 <= s32 left + s32 right + c < 2 ^ 31) ∧
    AddWithCarry result (not32 right) (1 - c) = (left, negb carry, overflow).
Proof.
  intros Hl Hr Hc. rewrite (AddWithCarry_eq left right c) by done. eexists _, _, _. split; [done|]. unfold word in *.
  pose proof (u32_range (left + right + c)) as Hu. pose proof (u32_mod_carry (left + right + c) ltac:(lia)) as Eu.
  set (r := u32 (left + right + c)) in *.
  assert (not32 right = 2 ^ 32 - 1 - right) as En.
  { unfold not32, u32. replace (Z.lnot right) with (- right - 1) by (unfold Z.lnot; lia).
    rewrite <- (Z.mod_add _ 1), Z.mod_small by lia. lia. }
  assert (∀ x, word x → s32 x = x - if x <? 2 ^ 31 then 0 else 2 ^ 32) as Es.
  { intros x Hx. unfold s32. rewrite swrap_cases by (done || lia). change (2 ^ (32 - 1)) with (2 ^ 31). destruct (x <? 2 ^ 31); lia. }
  split; [done|]. split; [|split; [|split]].
  - rewrite Eu. destruct (Z.ltb_spec (left + right + c) (2 ^ 32)), (Z.leb_spec (2 ^ 32) (left + right + c)); simpl; lia.
  - rewrite negb_false_iff, Z.eqb_eq. done.
  - rewrite negb_false_iff, Z.eqb_eq, !Es by (unfold word; lia). rewrite Eu.
    destruct (Z.ltb_spec (left + right + c) (2 ^ 32)), (Z.ltb_spec left (2 ^ 31)), (Z.ltb_spec right (2 ^ 31));
      match goal with |- context [?a <? 2 ^ 31] => destruct (Z.ltb_spec a (2 ^ 31)) end; lia.
  - rewrite AddWithCarry_eq by (unfold word; rewrite ?En; lia). rewrite En.
    replace (r + (2 ^ 32 - 1 - right) + (1 - c)) with (r + 2 ^ 32 - right - c) by lia.
    assert (u32 (r + 2 ^ 32 - right - c) = left) as E1.
    { rewrite u32_mod_carry by lia. rewrite Eu. destruct (Z.ltb_spec (left + right + c) (2 ^ 32));
        match goal with |- context [?a <? 2 ^ 32] => destruct (Z.ltb_spec a (2 ^ 32)) end; lia. }
    rewrite E1. f_equal; [f_equal|].
    + destruct (Z.leb_spec (2 ^ 32) (left + right + c)), (Z.leb_spec (2 ^ 32) (r + 2 ^ 32 - right - c)), (Z.ltb_spec (left + right + c) (2 ^ 32)); simpl; lia.
    + f_equal. rewrite !Es by (unfold word; lia). 
      destruct (Z.ltb_spec left (2 ^ 31)), (Z.ltb_spec right (2 ^ 31)), (Z.ltb_spec (2 ^ 32 - 1 - right) (2 ^ 31)), (Z.ltb_spec r (2 ^ 31));
      match goal with |- (?a =? ?b) = (?x =? ?y) => destruct (Z.eqb_spec a b), (Z.eqb_spec x y) end; lia.
Qed.

(** Saturating arithmetic brings the exact result into the range of the type. *)
Theorem saturating_arithmetic :
  (∀ l r, byte l → byte r →
     ARMul_SignedSaturatedAdd8 l r = u8 (clamp (-128) 127 (s8 l + s8 r)) ∧
     ARMul_SignedSaturatedSub8 l r = u8 (clamp (-128) 127 (s8 l - s8 r)) ∧
     ARMul_UnsignedSaturatedAdd8 l r = clamp 0 255 (l + r) ∧ ARMul_UnsignedSaturatedSub8 l r = clamp 0 255 (l - r) ∧
     ARMul_UnsignedAbsoluteDifference l r = Z.abs (l - r)) ∧
  (∀ l r, halfword l → halfword r →
     ARMul_SignedSaturatedAdd16 l r = u16 (clamp (-32768) 32767 (s16 l + s16 r)) ∧
     ARMul_SignedSaturatedSub16 l r = u16 (clamp (-32768) 32767 (s16 l - s16 r)) ∧
     ARMul_UnsignedSaturatedAdd16 l r = clamp 0 65535 (l + r) ∧ ARMul_UnsignedSaturatedSub16 l r = clamp 0 65535 (l - r)) ∧
  (∀ v shift, - 2 ^ 31 <= v < 2 ^ 31 → 0 <= shift →
     ARMul_SignedSatQ v shift = (if shift <? 31 then Some (u32 (clamp (- 2 ^ shift) (2 ^ shift - 1) v), negb (clamp (- 2 ^ shift) (2 ^ shift - 1) v =? v)) else None) ∧
     ARMul_UnsignedSatQ v shift = (if shift <? 31 then Some (clamp 0 (2 ^ shift - 1) v, negb (clamp 0 (2 ^ shift - 1) v =? v)) else None)).
Proof.
  split; [|split].
  - intros l r Hl Hr. unfold byte in *. split; [|split; [|split; [|split]]].
    + by apply (signed_add_ok 8 128).
    + by apply (signed_sub_ok 8 128).
    + unfold ARMul_UnsignedSaturatedAdd8, u8, clamp. destruct (Z.ltb_spec ((l + r) `mod` 2 ^ 8) l); Z.div_mod_to_equations; lia.
    + unfold ARMul_UnsignedSaturatedSub8, u8, clamp. destruct (Z.leb_spec l r); [lia|]. rewrite Z.mod_small; lia.
    + unfold ARMul_UnsignedAbsoluteDifference, u8. destruct (Z.ltb_spec r l); rewrite Z.mod_small; lia.
  - intros l r Hl Hr. unfold halfword in *. split; [|split; [|split]].
    + by apply (signed_add_ok 16 32768).
    + by apply (signed_sub_ok 16 32768).
    + unfold ARMul_UnsignedSaturatedAdd16, u16, clamp. destruct (Z.ltb_spec ((l + r) `mod` 2 ^ 16) l); Z.div_mod_to_equations; lia.
    + unfold ARMul_UnsignedSaturatedSub16, u16, clamp. destruct (Z.leb_spec l r); [lia|]. rewrite Z.mod_small; lia.
  - intros v shift Hv Hs. unfold ARMul_SignedSatQ, ARMul_UnsignedSatQ, max_of. destruct (Z.ltb_spec shift 31) as [Hlt|]; [|done].
    cbn [assert_ mbind option_bind]. rewrite Z.shiftl_1_l, Z.shiftr_div_pow2 by lia.
    assert (0 < 2 ^ shift < 2 ^ 31) as Hp by (split; [lia|]; apply Z.pow_lt_mono_r; lia).
    set (p := 2 ^ shift) in *. pose proof (Z.div_mod v p ltac:(lia)). pose proof (Z.mod_pos_bound v p ltac:(lia)). set (q := v / p) in *.
    unfold clamp. split; f_equal.
    + destruct (Z.ltb_spec 0 q) as [Hq|Hq]; [|destruct (Z.ltb_spec q (-1)) as [Hq'|Hq']].
      * rewrite Z.min_l, Z.max_r, u32_id by nia. f_equal. symmetry. apply negb_true_iff, Z.eqb_neq. nia.
      * rewrite Z.min_r, Z.max_l by nia. f_equal; [|symmetry; apply negb_true_iff, Z.eqb_neq; nia]. unfold not32. f_equal. unfold Z.lnot. lia.
      * rewrite Z.min_r, Z.max_r, Z.eqb_refl by nia. done.
    + destruct (Z.ltb_spec v 0).
      * rewrite Z.min_r, Z.max_l by lia. f_equal. symmetry. apply negb_true_iff, Z.eqb_neq. lia.
      * rewrite u32_id by lia. destruct (Z.ltb_spec (p - 1) v); rewrite ?Z.min_l, ?Z.min_r, Z.max_r by lia.
        -- f_equal. symmetry. apply negb_true_iff, Z.eqb_neq. lia.
        -- by rewrite Z.eqb_refl.
Qed.

(** ** Examples *)

Module Examples.

Lemma add_with_carry_spec_witness :
  ∃ result carry overflow, AddWithCarry 0x7FFFFFFF 1 0 = (result, carry, overflow) ∧ word result ∧
    result + Z.b2z carry * 2 ^ 32 = 0x7FFFFFFF + 1 + 0 ∧
    (overflow = false ↔ s32 result = s32 0x7FFFFFFF + s32 1 + 0) ∧
    (overflow = false ↔ - 2 ^ 31 <= s32 0x7FFFFFFF + s32 1 + 0 < 2 ^ 31) ∧
    AddWithCarry result (not32 1) (1 - 0) = (0x7FFFFFFF, negb carry, overflow).
Proof. apply add_with_carry_spec; unfold word; lia. Defined.

End Examples.
