(* ===== verification/ArmState.v ===== *)
(** * The state of the interpreted processor
    ([src/src/core/arm/skyeye_common/armstate.h], [armstate.cpp], [arm_regformat.h];
    the register accesses of [dyncom/arm_dyncom_run.h])

    The registers of the current mode, the banks of the other modes, the status register with its flags
    kept apart, the system control coprocessor, and the local exclusive monitor.  Guest memory is an
    interface: a bus that reads and writes values of 1, 2, 4 and 8 bytes, which [MemorySystem]
    implements for the page table of a process.

    The theorems: changing the mode keeps the registers of every mode, except that the fast interrupt
    mode loses [r8] to [r12] of the others; a program in user mode reads and writes only its own
    registers of the coprocessor, and a register that can be read and written reads as written. *)

From stdpp Require Import base list.
From S2P Require Import Prelude ArmSupp Memory.

(** ** Constants *)

Definition USER32MODE : Z := 16.
Definition FIQ32MODE : Z := 17.
Definition IRQ32MODE : Z := 18.
Definition SVC32MODE : Z := 19.
Definition ABORT32MODE : Z := 23.
Definition UNDEF32MODE : Z := 27.
Definition SYSTEM32MODE : Z := 31.

Definition USERBANK : Z := 0.
Definition FIQBANK : Z := 1.
Definition IRQBANK : Z := 2.
Definition SVCBANK : Z := 3.
Definition ABORTBANK : Z := 4.
Definition UNDEFBANK : Z := 5.
Definition SYSTEMBANK : Z := 7.

Definition INTBITS : Z := 0x1C0.
Definition RUN : Z := 3.
Definition LOW : Z := 0.
Definition HIGH : Z := 1.

(** *** The registers of the coprocessor *)

Definition CP15_MAIN_ID : Z := 0.
Definition CP15_CACHE_TYPE : Z := 1.
Definition CP15_TCM_STATUS : Z := 2.
Definition CP15_TLB_TYPE : Z := 3.
Definition CP15_CPU_ID : Z := 4.
Definition CP15_PROCESSOR_FEATURE_0 : Z := 5.
Definition CP15_PROCESSOR_FEATURE_1 : Z := 6.
Definition CP15_DEBUG_FEATURE_0 : Z := 7.
Definition CP15_AUXILIARY_FEATURE_0 : Z := 8.
Definition CP15_MEMORY_MODEL_FEATURE_0 : Z := 9.
Definition CP15_MEMORY_MODEL_FEATURE_1 : Z := 10.
Definition CP15_MEMORY_MODEL_FEATURE_2 : Z := 11.
Definition CP15_MEMORY_MODEL_FEATURE_3 : Z := 12.
Definition CP15_ISA_FEATURE_0 : Z := 13.
Definition CP15_ISA_FEATURE_1 : Z := 14.
Definition CP15_ISA_FEATURE_2 : Z := 15.
Definition CP15_ISA_FEATURE_3 : Z := 16.
Definition CP15_ISA_FEATURE_4 : Z := 17.
Definition CP15_CONTROL : Z := 18.
Definition CP15_AUXILIARY_CONTROL : Z := 19.
Definition CP15_COPROCESSOR_ACCESS_CONTROL : Z := 20.
Definition CP15_TRANSLATION_BASE_TABLE_0 : Z := 21.
Definition CP15_TRANSLATION_BASE_TABLE_1 : Z := 22.
Definition CP15_TRANSLATION_BASE_CONTROL : Z := 23.
Definition CP15_DOMAIN_ACCESS_CONTROL : Z := 24.
Definition CP15_RESERVED : Z := 25.
Definition CP15_FAULT_STATUS : Z := 26.
Definition CP15_INSTR_FAULT_STATUS : Z := 27.
Definition CP15_COMBINED_DATA_FSR : Z := 26.
Definition CP15_INST_FSR : Z := 27.
Definition CP15_FAULT_ADDRESS : Z := 28.
Definition CP15_COMBINED_DATA_FAR : Z := 28.
Definition CP15_WFAR : Z := 29.
Definition CP15_IFAR : Z := 30.
Definition CP15_WAIT_FOR_INTERRUPT : Z := 31.
Definition CP15_PHYS_ADDRESS : Z := 32.
Definition CP15_INVALIDATE_INSTR_CACHE : Z := 33.
Definition CP15_INVALIDATE_INSTR_CACHE_USING_MVA : Z := 34.
Definition CP15_INVALIDATE_INSTR_CACHE_USING_INDEX : Z := 35.
Definition CP15_FLUSH_PREFETCH_BUFFER : Z := 36.
Definition CP15_FLUSH_BRANCH_TARGET_CACHE : Z := 37.
Definition CP15_FLUSH_BRANCH_TARGET_CACHE_ENTRY : Z := 38.
Definition CP15_INVALIDATE_DATA_CACHE : Z := 39.
Definition CP15_INVALIDATE_DATA_CACHE_LINE_USING_MVA : Z := 40.
Definition CP15_INVALIDATE_DATA_CACHE_LINE_USING_INDEX : Z := 41.
Definition CP15_INVALIDATE_DATA_AND_INSTR_CACHE : Z := 42.
Definition CP15_CLEAN_DATA_CACHE : Z := 43.
Definition CP15_CLEAN_DATA_CACHE_LINE_USING_MVA : Z := 44.
Definition CP15_CLEAN_DATA_CACHE_LINE_USING_INDEX : Z := 45.
Definition CP15_DATA_SYNC_BARRIER : Z := 46.
Definition CP15_DATA_MEMORY_BARRIER : Z := 47.
Definition CP15_CLEAN_AND_INVALIDATE_DATA_CACHE : Z := 48.
Definition CP15_CLEAN_AND_INVALIDATE_DATA_CACHE_LINE_USING_MVA : Z := 49.
Definition CP15_CLEAN_AND_INVALIDATE_DATA_CACHE_LINE_USING_INDEX : Z := 50.
Definition CP15_INVALIDATE_ITLB : Z := 51.
Definition CP15_INVALIDATE_ITLB_SINGLE_ENTRY : Z := 52.
Definition CP15_INVALIDATE_ITLB_ENTRY_ON_ASID_MATCH : Z := 53.
Definition CP15_INVALIDATE_ITLB_ENTRY_ON_MVA : Z := 54.
Definition CP15_INVALIDATE_DTLB : Z := 55.
Definition CP15_INVALIDATE_DTLB_SINGLE_ENTRY : Z := 56.
Definition CP15_INVALIDATE_DTLB_ENTRY_ON_ASID_MATCH : Z := 57.
Definition CP15_INVALIDATE_DTLB_ENTRY_ON_MVA : Z := 58.
Definition CP15_INVALIDATE_UTLB : Z := 59.
Definition CP15_INVALIDATE_UTLB_SINGLE_ENTRY : Z := 60.
Definition CP15_INVALIDATE_UTLB_ENTRY_ON_ASID_MATCH : Z := 61.
Definition CP15_INVALIDATE_UTLB_ENTRY_ON_MVA : Z := 62.
Definition CP15_DATA_CACHE_LOCKDOWN : Z := 63.
Definition CP15_TLB_LOCKDOWN : Z := 64.
Definition CP15_PRIMARY_REGION_REMAP : Z := 65.
Definition CP15_NORMAL_REGION_REMAP : Z := 66.
Definition CP15_PID : Z := 67.
Definition CP15_CONTEXT_ID : Z := 68.
Definition CP15_THREAD_UPRW : Z := 69.
Definition CP15_THREAD_URO : Z := 70.
Definition CP15_THREAD_PRW : Z := 71.
Definition CP15_PERFORMANCE_MONITOR_CONTROL : Z := 72.
Definition CP15_CYCLE_COUNTER : Z := 73.
Definition CP15_COUNT_0 : Z := 74.
Definition CP15_COUNT_1 : Z := 75.
Definition CP15_READ_MAIN_TLB_LOCKDOWN_ENTRY : Z := 76.
Definition CP15_WRITE_MAIN_TLB_LOCKDOWN_ENTRY : Z := 77.
Definition CP15_MAIN_TLB_LOCKDOWN_VIRT_ADDRESS : Z := 78.
Definition CP15_MAIN_TLB_LOCKDOWN_PHYS_ADDRESS : Z := 79.
Definition CP15_MAIN_TLB_LOCKDOWN_ATTRIBUTE : Z := 80.
Definition CP15_TLB_DEBUG_CONTROL : Z := 81.
Definition CP15_TLB_FAULT_ADDR : Z := 82.
Definition CP15_TLB_FAULT_STATUS : Z := 83.
Definition CP15_REGISTER_COUNT : Z := 84.

(** ** The state *)

Record ARMul_State := mkArm {
  Reg : list Z;
  Reg_usr : list Z;
  Reg_svc : list Z;
  Reg_abort : list Z;
  Reg_undef : list Z;
  Reg_irq : list Z;
  Reg_firq : list Z;
  Spsr : list Z;
  CP15 : list Z;
  VFP : list Z;
  ExtReg : list Z;
  Emulate : Z;
  Cpsr : Z;
  Spsr_copy : Z;
  Mode : Z;
  Bank : Z;
  NFlag : Z;
  ZFlag : Z;
  CFlag : Z;
  VFlag : Z;
  shifter_carry_out : Z;
  TFlag : Z;
  NumInstrs : Z;
  NumInstrsToExecute : Z;
  NresetSig : Z;
  NfiqSig : Z;
  NirqSig : Z;
  NtransSig : Z;
  abortSig : Z;
  exclusive_tag : Z;
  exclusive_state : bool }.

Definition set_Reg (x : list Z) (s : ARMul_State) : ARMul_State :=
  mkArm x (Reg_usr s) (Reg_svc s) (Reg_abort s) (Reg_undef s) (Reg_irq s) (Reg_firq s) (Spsr s)
    (CP15 s) (VFP s) (ExtReg s) (Emulate s) (Cpsr s) (Spsr_copy s) (Mode s) (Bank s) (NFlag s)
    (ZFlag s) (CFlag s) (VFlag s) (shifter_carry_out s) (TFlag s) (NumInstrs s)
    (NumInstrsToExecute s) (NresetSig s) (NfiqSig s) (NirqSig s) (NtransSig s) (abortSig s)
    (exclusive_tag s) (exclusive_state s).
Definition set_Reg_usr (x : list Z) (s : ARMul_State) : ARMul_State :=
  mkArm (Reg s) x (Reg_svc s) (Reg_abort s) (Reg_undef s) (Reg_irq s) (Reg_firq s) (Spsr s)
    (CP15 s) (VFP s) (ExtReg s) (Emulate s) (Cpsr s) (Spsr_copy s) (Mode s) (Bank s) (NFlag s)
    (ZFlag s) (CFlag s) (VFlag s) (shifter_carry_out s) (TFlag s) (NumInstrs s)
    (NumInstrsToExecute s) (NresetSig s) (NfiqSig s) (NirqSig s) (NtransSig s) (abortSig s)
    (exclusive_tag s) (exclusive_state s).
Definition set_Reg_svc (x : list Z) (s : ARMul_State) : ARMul_State :=
  mkArm (Reg s) (Reg_usr s) x (Reg_abort s) (Reg_undef s) (Reg_irq s) (Reg_firq s) (Spsr s)
    (CP15 s) (VFP s) (ExtReg s) (Emulate s) (Cpsr s) (Spsr_copy s) (Mode s) (Bank s) (NFlag s)
    (ZFlag s) (CFlag s) (VFlag s) (shifter_carry_out s) (TFlag s) (NumInstrs s)
    (NumInstrsToExecute s) (NresetSig s) (NfiqSig s) (NirqSig s) (NtransSig s) (abortSig s)
    (exclusive_tag s) (exclusive_state s).
Definition set_Reg_abort (x : list Z) (s : ARMul_State) : ARMul_State :=
  mkArm (Reg s) (Reg_usr s) (Reg_svc s) x (Reg_undef s) (Reg_irq s) (Reg_firq s) (Spsr s)
    (CP15 s) (VFP s) (ExtReg s) (Emulate s) (Cpsr s) (Spsr_copy s) (Mode s) (Bank s) (NFlag s)
    (ZFlag s) (CFlag s) (VFlag s) (shifter_carry_out s) (TFlag s) (NumInstrs s)
    (NumInstrsToExecute s) (NresetSig s) (NfiqSig s) (NirqSig s) (NtransSig s) (abortSig s)
    (exclusive_tag s) (exclusive_state s).
Definition set_Reg_undef (x : list Z) (s : ARMul_State) : ARMul_State :=
  mkArm (Reg s) (Reg_usr s) (Reg_svc s) (Reg_abort s) x (Reg_irq s) (Reg_firq s) (Spsr s)
    (CP15 s) (VFP s) (ExtReg s) (Emulate s) (Cpsr s) (Spsr_copy s) (Mode s) (Bank s) (NFlag s)
    (ZFlag s) (CFlag s) (VFlag s) (shifter_carry_out s) (TFlag s) (NumInstrs s)
    (NumInstrsToExecute s) (NresetSig s) (NfiqSig s) (NirqSig s) (NtransSig s) (abortSig s)
    (exclusive_tag s) (exclusive_state s).
Definition set_Reg_irq (x : list Z) (s : ARMul_State) : ARMul_State :=
  mkArm (Reg s) (Reg_usr s) (Reg_svc s) (Reg_abort s) (Reg_undef s) x (Reg_firq s) (Spsr s)
    (CP15 s) (VFP s) (ExtReg s) (Emulate s) (Cpsr s) (Spsr_copy s) (Mode s) (Bank s) (NFlag s)
    (ZFlag s) (CFlag s) (VFlag s) (shifter_carry_out s) (TFlag s) (NumInstrs s)
    (NumInstrsToExecute s) (NresetSig s) (NfiqSig s) (NirqSig s) (NtransSig s) (abortSig s)
    (exclusive_tag s) (exclusive_state s).
Definition set_Reg_firq (x : list Z) (s : ARMul_State) : ARMul_State :=
  mkArm (Reg s) (Reg_usr s) (Reg_svc s) (Reg_abort s) (Reg_undef s) (Reg_irq s) x (Spsr s)
    (CP15 s) (VFP s) (ExtReg s) (Emulate s) (Cpsr s) (Spsr_copy s) (Mode s) (Bank s) (NFlag s)
    (ZFlag s) (CFlag s) (VFlag s) (shifter_carry_out s) (TFlag s) (NumInstrs s)
    (NumInstrsToExecute s) (NresetSig s) (NfiqSig s) (NirqSig s) (NtransSig s) (abortSig s)
    (exclusive_tag s) (exclusive_state s).
Definition set_Spsr (x : list Z) (s : ARMul_State) : ARMul_State :=
  mkArm (Reg s) (Reg_usr s) (Reg_svc s) (Reg_abort s) (Reg_undef s) (Reg_irq s) (Reg_firq s) x
    (CP15 s) (VFP s) (ExtReg s) (Emulate s) (Cpsr s) (Spsr_copy s) (Mode s) (Bank s) (NFlag s)
    (ZFlag s) (CFlag s) (VFlag s) (shifter_carry_out s) (TFlag s) (NumInstrs s)
    (NumInstrsToExecute s) (NresetSig s) (NfiqSig s) (NirqSig s) (NtransSig s) (abortSig s)
    (exclusive_tag s) (exclusive_state s).
Definition set_CP15 (x : list Z) (s : ARMul_State) : ARMul_State :=
  mkArm (Reg s) (Reg_usr s) (Reg_svc s) (Reg_abort s) (Reg_undef s) (Reg_irq s) (Reg_firq s)
    (Spsr s) x (VFP s) (ExtReg s) (Emulate s) (Cpsr s) (Spsr_copy s) (Mode s) (Bank s)
    (NFlag s) (ZFlag s) (CFlag s) (VFlag s) (shifter_carry_out s) (TFlag s) (NumInstrs s)
    (NumInstrsToExecute s) (NresetSig s) (NfiqSig s) (NirqSig s) (NtransSig s) (abortSig s)
    (exclusive_tag s) (exclusive_state s).
Definition set_VFP (x : list Z) (s : ARMul_State) : ARMul_State :=
  mkArm (Reg s) (Reg_usr s) (Reg_svc s) (Reg_abort s) (Reg_undef s) (Reg_irq s) (Reg_firq s)
    (Spsr s) (CP15 s) x (ExtReg s) (Emulate s) (Cpsr s) (Spsr_copy s) (Mode s) (Bank s)
    (NFlag s) (ZFlag s) (CFlag s) (VFlag s) (shifter_carry_out s) (TFlag s) (NumInstrs s)
    (NumInstrsToExecute s) (NresetSig s) (NfiqSig s) (NirqSig s) (NtransSig s) (abortSig s)
    (exclusive_tag s) (exclusive_state s).
Definition set_ExtReg (x : list Z) (s : ARMul_State) : ARMul_State :=
  mkArm (Reg s) (Reg_usr s) (Reg_svc s) (Reg_abort s) (Reg_undef s) (Reg_irq s) (Reg_firq s)
    (Spsr s) (CP15 s) (VFP s) x (Emulate s) (Cpsr s) (Spsr_copy s) (Mode s) (Bank s) (NFlag s)
    (ZFlag s) (CFlag s) (VFlag s) (shifter_carry_out s) (TFlag s) (NumInstrs s)
    (NumInstrsToExecute s) (NresetSig s) (NfiqSig s) (NirqSig s) (NtransSig s) (abortSig s)
    (exclusive_tag s) (exclusive_state s).
Definition set_Emulate (x : Z) (s : ARMul_State) : ARMul_State :=
  mkArm (Reg s) (Reg_usr s) (Reg_svc s) (Reg_abort s) (Reg_undef s) (Reg_irq s) (Reg_firq s)
    (Spsr s) (CP15 s) (VFP s) (ExtReg s) x (Cpsr s) (Spsr_copy s) (Mode s) (Bank s) (NFlag s)
    (ZFlag s) (CFlag s) (VFlag s) (shifter_carry_out s) (TFlag s) (NumInstrs s)
    (NumInstrsToExecute s) (NresetSig s) (NfiqSig s) (NirqSig s) (NtransSig s) (abortSig s)
    (exclusive_tag s) (exclusive_state s).
Definition set_Cpsr (x : Z) (s : ARMul_State) : ARMul_State :=
  mkArm (Reg s) (Reg_usr s) (Reg_svc s) (Reg_abort s) (Reg_undef s) (Reg_irq s) (Reg_firq s)
    (Spsr s) (CP15 s) (VFP s) (ExtReg s) (Emulate s) x (Spsr_copy s) (Mode s) (Bank s)
    (NFlag s) (ZFlag s) (CFlag s) (VFlag s) (shifter_carry_out s) (TFlag s) (NumInstrs s)
    (NumInstrsToExecute s) (NresetSig s) (NfiqSig s) (NirqSig s) (NtransSig s) (abortSig s)
    (exclusive_tag s) (exclusive_state s).
Definition set_Spsr_copy (x : Z) (s : ARMul_State) : ARMul_State :=
  mkArm (Reg s) (Reg_usr s) (Reg_svc s) (Reg_abort s) (Reg_undef s) (Reg_irq s) (Reg_firq s)
    (Spsr s) (CP15 s) (VFP s) (ExtReg s) (Emulate s) (Cpsr s) x (Mode s) (Bank s) (NFlag s)
    (ZFlag s) (CFlag s) (VFlag s) (shifter_carry_out s) (TFlag s) (NumInstrs s)
    (NumInstrsToExecute s) (NresetSig s) (NfiqSig s) (NirqSig s) (NtransSig s) (abortSig s)
    (exclusive_tag s) (exclusive_state s).
Definition set_Mode (x : Z) (s : ARMul_State) : ARMul_State :=
  mkArm (Reg s) (Reg_usr s) (Reg_svc s) (Reg_abort s) (Reg_undef s) (Reg_irq s) (Reg_firq s)
    (Spsr s) (CP15 s) (VFP s) (ExtReg s) (Emulate s) (Cpsr s) (Spsr_copy s) x (Bank s)
    (NFlag s) (ZFlag s) (CFlag s) (VFlag s) (shifter_carry_out s) (TFlag s) (NumInstrs s)
    (NumInstrsToExecute s) (NresetSig s) (NfiqSig s) (NirqSig s) (NtransSig s) (abortSig s)
    (exclusive_tag s) (exclusive_state s).
Definition set_Bank (x : Z) (s : ARMul_State) : ARMul_State :=
  mkArm (Reg s) (Reg_usr s) (Reg_svc s) (Reg_abort s) (Reg_undef s) (Reg_irq s) (Reg_firq s)
    (Spsr s) (CP15 s) (VFP s) (ExtReg s) (Emulate s) (Cpsr s) (Spsr_copy s) (Mode s) x
    (NFlag s) (ZFlag s) (CFlag s) (VFlag s) (shifter_carry_out s) (TFlag s) (NumInstrs s)
    (NumInstrsToExecute s) (NresetSig s) (NfiqSig s) (NirqSig s) (NtransSig s) (abortSig s)
    (exclusive_tag s) (exclusive_state s).
Definition set_NFlag (x : Z) (s : ARMul_State) : ARMul_State :=
  mkArm (Reg s) (Reg_usr s) (Reg_svc s) (Reg_abort s) (Reg_undef s) (Reg_irq s) (Reg_firq s)
    (Spsr s) (CP15 s) (VFP s) (ExtReg s) (Emulate s) (Cpsr s) (Spsr_copy s) (Mode s) (Bank s) x
    (ZFlag s) (CFlag s) (VFlag s) (shifter_carry_out s) (TFlag s) (NumInstrs s)
    (NumInstrsToExecute s) (NresetSig s) (NfiqSig s) (NirqSig s) (NtransSig s) (abortSig s)
    (exclusive_tag s) (exclusive_state s).
Definition set_ZFlag (x : Z) (s : ARMul_State) : ARMul_State :=
  mkArm (Reg s) (Reg_usr s) (Reg_svc s) (Reg_abort s) (Reg_undef s) (Reg_irq s) (Reg_firq s)
    (Spsr s) (CP15 s) (VFP s) (ExtReg s) (Emulate s) (Cpsr s) (Spsr_copy s) (Mode s) (Bank s)
    (NFlag s) x (CFlag s) (VFlag s) (shifter_carry_out s) (TFlag s) (NumInstrs s)
    (NumInstrsToExecute s) (NresetSig s) (NfiqSig s) (NirqSig s) (NtransSig s) (abortSig s)
    (exclusive_tag s) (exclusive_state s).
Definition set_CFlag (x : Z) (s : ARMul_State) : ARMul_State :=
  mkArm (Reg s) (Reg_usr s) (Reg_svc s) (Reg_abort s) (Reg_undef s) (Reg_irq s) (Reg_firq s)
    (Spsr s) (CP15 s) (VFP s) (ExtReg s) (Emulate s) (Cpsr s) (Spsr_copy s) (Mode s) (Bank s)
    (NFlag s) (ZFlag s) x (VFlag s) (shifter_carry_out s) (TFlag s) (NumInstrs s)
    (NumInstrsToExecute s) (NresetSig s) (NfiqSig s) (NirqSig s) (NtransSig s) (abortSig s)
    (exclusive_tag s) (exclusive_state s).
Definition set_VFlag (x : Z) (s : ARMul_State) : ARMul_State :=
  mkArm (Reg s) (Reg_usr s) (Reg_svc s) (Reg_abort s) (Reg_undef s) (Reg_irq s) (Reg_firq s)
    (Spsr s) (CP15 s) (VFP s) (ExtReg s) (Emulate s) (Cpsr s) (Spsr_copy s) (Mode s) (Bank s)
    (NFlag s) (ZFlag s) (CFlag s) x (shifter_carry_out s) (TFlag s) (NumInstrs s)
    (NumInstrsToExecute s) (NresetSig s) (NfiqSig s) (NirqSig s) (NtransSig s) (abortSig s)
    (exclusive_tag s) (exclusive_state s).
Definition set_shifter_carry_out (x : Z) (s : ARMul_State) : ARMul_State :=
  mkArm (Reg s) (Reg_usr s) (Reg_svc s) (Reg_abort s) (Reg_undef s) (Reg_irq s) (Reg_firq s)
    (Spsr s) (CP15 s) (VFP s) (ExtReg s) (Emulate s) (Cpsr s) (Spsr_copy s) (Mode s) (Bank s)
    (NFlag s) (ZFlag s) (CFlag s) (VFlag s) x (TFlag s) (NumInstrs s) (NumInstrsToExecute s)
    (NresetSig s) (NfiqSig s) (NirqSig s) (NtransSig s) (abortSig s) (exclusive_tag s)
    (exclusive_state s).
Definition set_TFlag (x : Z) (s : ARMul_State) : ARMul_State :=
  mkArm (Reg s) (Reg_usr s) (Reg_svc s) (Reg_abort s) (Reg_undef s) (Reg_irq s) (Reg_firq s)
    (Spsr s) (CP15 s) (VFP s) (ExtReg s) (Emulate s) (Cpsr s) (Spsr_copy s) (Mode s) (Bank s)
    (NFlag s) (ZFlag s) (CFlag s) (VFlag s) (shifter_carry_out s) x (NumInstrs s)
    (NumInstrsToExecute s) (NresetSig s) (NfiqSig s) (NirqSig s) (NtransSig s) (abortSig s)
    (exclusive_tag s) (exclusive_state s).
Definition set_NumInstrs (x : Z) (s : ARMul_State) : ARMul_State :=
  mkArm (Reg s) (Reg_usr s) (Reg_svc s) (Reg_abort s) (Reg_undef s) (Reg_irq s) (Reg_firq s)
    (Spsr s) (CP15 s) (VFP s) (ExtReg s) (Emulate s) (Cpsr s) (Spsr_copy s) (Mode s) (Bank s)
    (NFlag s) (ZFlag s) (CFlag s) (VFlag s) (shifter_carry_out s) (TFlag s) x
    (NumInstrsToExecute s) (NresetSig s) (NfiqSig s) (NirqSig s) (NtransSig s) (abortSig s)
    (exclusive_tag s) (exclusive_state s).
Definition set_NumInstrsToExecute (x : Z) (s : ARMul_State) : ARMul_State :=
  mkArm (Reg s) (Reg_usr s) (Reg_svc s) (Reg_abort s) (Reg_undef s) (Reg_irq s) (Reg_firq s)
    (Spsr s) (CP15 s) (VFP s) (ExtReg s) (Emulate s) (Cpsr s) (Spsr_copy s) (Mode s) (Bank s)
    (NFlag s) (ZFlag s) (CFlag s) (VFlag s) (shifter_carry_out s) (TFlag s) (NumInstrs s) x
    (NresetSig s) (NfiqSig s) (NirqSig s) (NtransSig s) (abortSig s) (exclusive_tag s)
    (exclusive_state s).
Definition set_NresetSig (x : Z) (s : ARMul_State) : ARMul_State :=
  mkArm (Reg s) (Reg_usr s) (Reg_svc s) (Reg_abort s) (Reg_undef s) (Reg_irq s) (Reg_firq s)
    (Spsr s) (CP15 s) (VFP s) (ExtReg s) (Emulate s) (Cpsr s) (Spsr_copy s) (Mode s) (Bank s)
    (NFlag s) (ZFlag s) (CFlag s) (VFlag s) (shifter_carry_out s) (TFlag s) (NumInstrs s)
    (NumInstrsToExecute s) x (NfiqSig s) (NirqSig s) (NtransSig s) (abortSig s) (exclusive_tag s)
    (exclusive_state s).
Definition set_NfiqSig (x : Z) (s : ARMul_State) : ARMul_State :=
  mkArm (Reg s) (Reg_usr s) (Reg_svc s) (Reg_abort s) (Reg_undef s) (Reg_irq s) (Reg_firq s)
    (Spsr s) (CP15 s) (VFP s) (ExtReg s) (Emulate s) (Cpsr s) (Spsr_copy s) (Mode s) (Bank s)
    (NFlag s) (ZFlag s) (CFlag s) (VFlag s) (shifter_carry_out s) (TFlag s) (NumInstrs s)
    (NumInstrsToExecute s) (NresetSig s) x (NirqSig s) (NtransSig s) (abortSig s)
    (exclusive_tag s) (exclusive_state s).
Definition set_NirqSig (x : Z) (s : ARMul_State) : ARMul_State :=
  mkArm (Reg s) (Reg_usr s) (Reg_svc s) (Reg_abort s) (Reg_undef s) (Reg_irq s) (Reg_firq s)
    (Spsr s) (CP15 s) (VFP s) (ExtReg s) (Emulate s) (Cpsr s) (Spsr_copy s) (Mode s) (Bank s)
    (NFlag s) (ZFlag s) (CFlag s) (VFlag s) (shifter_carry_out s) (TFlag s) (NumInstrs s)
    (NumInstrsToExecute s) (NresetSig s) (NfiqSig s) x (NtransSig s) (abortSig s)
    (exclusive_tag s) (exclusive_state s).
Definition set_NtransSig (x : Z) (s : ARMul_State) : ARMul_State :=
  mkArm (Reg s) (Reg_usr s) (Reg_svc s) (Reg_abort s) (Reg_undef s) (Reg_irq s) (Reg_firq s)
    (Spsr s) (CP15 s) (VFP s) (ExtReg s) (Emulate s) (Cpsr s) (Spsr_copy s) (Mode s) (Bank s)
    (NFlag s) (ZFlag s) (CFlag s) (VFlag s) (shifter_carry_out s) (TFlag s) (NumInstrs s)
    (NumInstrsToExecute s) (NresetSig s) (NfiqSig s) (NirqSig s) x (abortSig s) (exclusive_tag s)
    (exclusive_state s).
Definition set_abortSig (x : Z) (s : ARMul_State) : ARMul_State :=
  mkArm (Reg s) (Reg_usr s) (Reg_svc s) (Reg_abort s) (Reg_undef s) (Reg_irq s) (Reg_firq s)
    (Spsr s) (CP15 s) (VFP s) (ExtReg s) (Emulate s) (Cpsr s) (Spsr_copy s) (Mode s) (Bank s)
    (NFlag s) (ZFlag s) (CFlag s) (VFlag s) (shifter_carry_out s) (TFlag s) (NumInstrs s)
    (NumInstrsToExecute s) (NresetSig s) (NfiqSig s) (NirqSig s) (NtransSig s) x (exclusive_tag s)
    (exclusive_state s).
Definition set_exclusive_tag (x : Z) (s : ARMul_State) : ARMul_State :=
  mkArm (Reg s) (Reg_usr s) (Reg_svc s) (Reg_abort s) (Reg_undef s) (Reg_irq s) (Reg_firq s)
    (Spsr s) (CP15 s) (VFP s) (ExtReg s) (Emulate s) (Cpsr s) (Spsr_copy s) (Mode s) (Bank s)
    (NFlag s) (ZFlag s) (CFlag s) (VFlag s) (shifter_carry_out s) (TFlag s) (NumInstrs s)
    (NumInstrsToExecute s) (NresetSig s) (NfiqSig s) (NirqSig s) (NtransSig s) (abortSig s) x
    (exclusive_state s).
Definition set_exclusive_state (x : bool) (s : ARMul_State) : ARMul_State :=
  mkArm (Reg s) (Reg_usr s) (Reg_svc s) (Reg_abort s) (Reg_undef s) (Reg_irq s) (Reg_firq s)
    (Spsr s) (CP15 s) (VFP s) (ExtReg s) (Emulate s) (Cpsr s) (Spsr_copy s) (Mode s) (Bank s)
    (NFlag s) (ZFlag s) (CFlag s) (VFlag s) (shifter_carry_out s) (TFlag s) (NumInstrs s)
    (NumInstrsToExecute s) (NresetSig s) (NfiqSig s) (NirqSig s) (NtransSig s) (abortSig s)
    (exclusive_tag s) x.

(** ** Registers *)

(** The array of a register file, read and written at an index that the source computes from four bits. *)
Definition reg (n : Z) (s : ARMul_State) : Z := Reg s !!! Z.to_nat n.
Definition put_reg (n v : Z) (s : ARMul_State) : ARMul_State := set_Reg (<[Z.to_nat n := v]> (Reg s)) s.
Definition cp15 (r : Z) (s : ARMul_State) : Z := CP15 s !!! Z.to_nat r.
Definition put_cp15 (r v : Z) (s : ARMul_State) : ARMul_State := set_CP15 (<[Z.to_nat r := v]> (CP15 s)) s.
Definition put_spsr (bank : Z) (s : ARMul_State) : ARMul_State := set_Spsr (<[Z.to_nat bank := Spsr_copy s]> (Spsr s)) s.
Definition get_spsr (bank : Z) (s : ARMul_State) : ARMul_State := set_Spsr_copy (Spsr s !!! Z.to_nat bank) s.

Definition InBigEndianMode (s : ARMul_State) : bool := truth (Z.land (Cpsr s) (Z.shiftl 1 9)).
Definition InAPrivilegedMode (s : ARMul_State) : bool := negb (Mode s =? USER32MODE).
Definition CurrentModeHasSPSR (s : ARMul_State) : bool := negb (Mode s =? SYSTEM32MODE) && InAPrivilegedMode s.
Definition GetInstructionSize (s : ARMul_State) : Z := if truth (TFlag s) then 2 else 4.

(** The program counter as an operand: two instructions ahead, aligned to a word for addresses. *)
Definition CHECK_READ_REG15_WA (s : ARMul_State) (Rn : Z) : Z :=
  if Rn =? 15 then u32 (Z.land (reg 15 s) (not32 3) + GetInstructionSize s * 2) else reg Rn s.
Definition CHECK_READ_REG15 (s : ARMul_State) (Rn : Z) : Z :=
  if Rn =? 15 then u32 (Z.land (reg 15 s) (not32 1) + GetInstructionSize s * 2) else reg Rn s.

(** *** The exclusive monitor *)

Definition RESERVATION_GRANULE_MASK : Z := 0xFFFFFFF8.
Definition IsExclusiveMemoryAccess (address : Z) (s : ARMul_State) : bool :=
  exclusive_state s && (exclusive_tag s =? Z.land address RESERVATION_GRANULE_MASK).
Definition SetExclusiveMemoryAddress (address : Z) (s : ARMul_State) : ARMul_State :=
  set_exclusive_state true (set_exclusive_tag (Z.land address RESERVATION_GRANULE_MASK) s).
Definition UnsetExclusiveMemoryAddress (s : ARMul_State) : ARMul_State :=
  set_exclusive_state false (set_exclusive_tag 0xFFFFFFFF s).

(** *** The flags *)

Definition UPDATE_NFLAG (dst : Z) (s : ARMul_State) : ARMul_State := set_NFlag (if truth (BIT dst 31) then 1 else 0) s.
Definition UPDATE_ZFLAG (dst : Z) (s : ARMul_State) : ARMul_State := set_ZFlag (if truth dst then 0 else 1) s.
Definition UPDATE_CFLAG_WITH_SC (s : ARMul_State) : ARMul_State := set_CFlag (shifter_carry_out s) s.
Definition SAVE_NZCVT (s : ARMul_State) : ARMul_State :=
  set_Cpsr (Z.lor (Z.lor (Z.lor (Z.lor (Z.lor (Z.land (Cpsr s) 0x0fffffdf) (u32 (Z.shiftl (NFlag s) 31))) (u32 (Z.shiftl (ZFlag s) 30)))
    (u32 (Z.shiftl (CFlag s) 29))) (u32 (Z.shiftl (VFlag s) 28))) (u32 (Z.shiftl (TFlag s) 5))) s.
Definition LOAD_NZCVT (s : ARMul_State) : ARMul_State :=
  let s := set_NFlag (Z.shiftr (Cpsr s) 31) s in
  let s := set_ZFlag (Z.land (Z.shiftr (Cpsr s) 30) 1) s in
  let s := set_CFlag (Z.land (Z.shiftr (Cpsr s) 29) 1) s in
  let s := set_VFlag (Z.land (Z.shiftr (Cpsr s) 28) 1) s in
  set_TFlag (Z.land (Z.shiftr (Cpsr s) 5) 1) s.

(** ** Modes *)

(** The registers of the current mode go to its bank. *)
Definition save_bank (s : ARMul_State) : ARMul_State :=
  let sp_lr := [reg 13 s; reg 14 s] in
  if (Mode s =? SYSTEM32MODE) || (Mode s =? USER32MODE) then set_Reg_usr sp_lr s
  else if Mode s =? IRQ32MODE then put_spsr IRQBANK (set_Reg_irq sp_lr s)
  else if Mode s =? SVC32MODE then put_spsr SVCBANK (set_Reg_svc sp_lr s)
  else if Mode s =? ABORT32MODE then put_spsr ABORTBANK (set_Reg_abort sp_lr s)
  else if Mode s =? UNDEF32MODE then put_spsr UNDEFBANK (set_Reg_undef sp_lr s)
  else if Mode s =? FIQ32MODE then put_spsr FIQBANK (set_Reg_firq (take 7 (drop 8 (Reg s))) s)
  else s.
(** The registers of the new mode come from its bank. *)
Definition load_sp_lr (bank : list Z) (s : ARMul_State) : ARMul_State := put_reg 14 (bank !!! 1%nat) (put_reg 13 (bank !!! 0%nat) s).
Definition load_bank (new_mode : Z) (s : ARMul_State) : ARMul_State :=
  if new_mode =? USER32MODE then set_Bank USERBANK (load_sp_lr (Reg_usr s) s)
  else if new_mode =? IRQ32MODE then set_Bank IRQBANK (get_spsr IRQBANK (load_sp_lr (Reg_irq s) s))
  else if new_mode =? SVC32MODE then set_Bank SVCBANK (get_spsr SVCBANK (load_sp_lr (Reg_svc s) s))
  else if new_mode =? ABORT32MODE then set_Bank ABORTBANK (get_spsr ABORTBANK (load_sp_lr (Reg_abort s) s))
  else if new_mode =? UNDEF32MODE then set_Bank UNDEFBANK (get_spsr UNDEFBANK (load_sp_lr (Reg_undef s) s))
  else if new_mode =? FIQ32MODE then
    set_Bank FIQBANK (get_spsr FIQBANK (set_Reg (take 8 (Reg s) ++ Reg_firq s ++ drop 15 (Reg s)) s))
  else if new_mode =? SYSTEM32MODE then set_Bank SYSTEMBANK (load_sp_lr (Reg_usr s) s)
  else s.
(** The source compares the mode with the number of a bank, which no mode is. *)
Definition ChangePrivilegeMode (new_mode : Z) (s : ARMul_State) : ARMul_State :=
  if Mode s =? new_mode then s
  else if new_mode =? USERBANK then s
  else
    let s := load_bank new_mode (save_bank s) in
    set_Mode new_mode (set_Cpsr (Z.lor (Z.land (Cpsr s) (not32 (Mode s))) new_mode) s).

(** ** Reset *)

Definition VFPInit (s : ARMul_State) : ARMul_State :=
  let VFP_FPSID := Z.lor (Z.lor (Z.lor (Z.lor (Z.lor (Z.shiftl 0x41 24) (Z.shiftl 0 23)) (Z.shiftl 1 16)) (Z.shiftl 0x20 8)) (Z.shiftl 0xB 4)) 4 in
  set_VFP (<[0%nat := VFP_FPSID]> (<[2%nat := 0]> (<[1%nat := 0]> (<[3%nat := 0xEE000A00]> (<[4%nat := 0]>
    (<[5%nat := 0x11111111]> (<[6%nat := 0]> (VFP s)))))))) s.

Definition ResetMPCoreCP15Registers (s : ARMul_State) : ARMul_State :=
  foldl (λ s '(reg, value), put_cp15 reg value s) s
    [(CP15_MAIN_ID, 0x410FB024);
     (CP15_TLB_TYPE, 0x00000800);
     (CP15_PROCESSOR_FEATURE_0, 0x00000111);
     (CP15_PROCESSOR_FEATURE_1, 0x00000001);
     (CP15_DEBUG_FEATURE_0, 0x00000002);
     (CP15_MEMORY_MODEL_FEATURE_0, 0x01100103);
     (CP15_MEMORY_MODEL_FEATURE_1, 0x10020302);
     (CP15_MEMORY_MODEL_FEATURE_2, 0x01222000);
     (CP15_MEMORY_MODEL_FEATURE_3, 0x00000000);
     (CP15_ISA_FEATURE_0, 0x00100011);
     (CP15_ISA_FEATURE_1, 0x12002111);
     (CP15_ISA_FEATURE_2, 0x11221011);
     (CP15_ISA_FEATURE_3, 0x01102131);
     (CP15_ISA_FEATURE_4, 0x00000141);
     (CP15_CONTROL, 0x00054078);
     (CP15_AUXILIARY_CONTROL, 0x0000000F);
     (CP15_COPROCESSOR_ACCESS_CONTROL, 0x00000000);
     (CP15_TRANSLATION_BASE_TABLE_0, 0x00000000);
     (CP15_TRANSLATION_BASE_TABLE_1, 0x00000000);
     (CP15_TRANSLATION_BASE_CONTROL, 0x00000000);
     (CP15_DOMAIN_ACCESS_CONTROL, 0x00000000);
     (CP15_PHYS_ADDRESS, 0x00000000);
     (CP15_DATA_CACHE_LOCKDOWN, 0xFFFFFFF0);
     (CP15_TLB_LOCKDOWN, 0x00000000);
     (CP15_PRIMARY_REGION_REMAP, 0x00098AA4);
     (CP15_NORMAL_REGION_REMAP, 0x44E048E0);
     (CP15_PID, 0x00000000);
     (CP15_CONTEXT_ID, 0x00000000);
     (CP15_THREAD_UPRW, 0x00000000);
     (CP15_THREAD_URO, 0x00000000);
     (CP15_THREAD_PRW, 0x00000000);
     (CP15_PERFORMANCE_MONITOR_CONTROL, 0x00000000);
     (CP15_MAIN_TLB_LOCKDOWN_VIRT_ADDRESS, 0x00000000);
     (CP15_MAIN_TLB_LOCKDOWN_PHYS_ADDRESS, 0x00000000);
     (CP15_MAIN_TLB_LOCKDOWN_ATTRIBUTE, 0x00000000);
     (CP15_TLB_DEBUG_CONTROL, 0x00000000)].

Definition ARMul_Reset (s : ARMul_State) : ARMul_State :=
  let s := VFPInit s in
  let s := put_reg 15 0 (put_reg 13 0x10000000 s) in
  let s := set_Bank SVCBANK (set_Mode SVC32MODE (set_Cpsr (Z.lor INTBITS SVC32MODE) s)) in
  let s := ResetMPCoreCP15Registers s in
  let s := set_NirqSig HIGH (set_NfiqSig HIGH (set_NresetSig HIGH s)) in
  let s := set_NtransSig (if truth (Z.land (Mode s) 3) then HIGH else LOW) s in
  set_Emulate RUN (set_NumInstrs 0 (set_abortSig LOW s)).

(** The constructor: the arrays start as zeros; the fields that [Reset] leaves alone are
    indeterminate, here those of [s]. *)
Definition ARMul_State_new (initial_mode : Z) (s : ARMul_State) : ARMul_State :=
  let s := set_Reg (replicate 16 0) s in
  let s := set_Reg_usr (replicate 2 0) (set_Reg_svc (replicate 2 0) (set_Reg_abort (replicate 2 0) s)) in
  let s := set_Reg_firq (replicate 7 0) (set_Reg_irq (replicate 2 0) (set_Reg_undef (replicate 2 0) s)) in
  let s := set_ExtReg (replicate 64 0) (set_VFP (replicate 7 0) s) in
  let s := (set_CP15 (replicate (Z.to_nat CP15_REGISTER_COUNT) 0) (set_Spsr (replicate 7 0) s)) in
  ChangePrivilegeMode initial_mode (ARMul_Reset s).

(** ** The system control coprocessor

    The chains of conditions of [ReadCP15Register] and [WriteCP15Register] as lists: the first condition
    that holds selects the register.  The conditions of one list exclude each other. *)

Definition first_match (l : list (bool * Z)) : option Z := snd <$> head (filter (λ x, x.1 = true) l).

Definition read_unprivileged (crn opcode_1 crm opcode_2 : Z) : option Z :=
  let at13 := (crn =? 13) && (opcode_1 =? 0) && (crm =? 0) in
  first_match [(at13 && (opcode_2 =? 2), CP15_THREAD_UPRW); (at13 && (opcode_2 =? 3), CP15_THREAD_URO)].

Definition read_privileged (crn opcode_1 crm opcode_2 : Z) : option Z :=
  let op n := opcode_2 =? n in
  let c0 m := (crn =? 0) && (opcode_1 =? 0) && (crm =? m) in
  let at_ n m := (crn =? n) && (opcode_1 =? 0) && (crm =? m) in
  let c13 := (crn =? 13) && (crm =? 0) in
  let c15 n m := (crn =? 15) && (opcode_1 =? n) && (crm =? m) in
  first_match
    [(c0 0 && op 0, CP15_MAIN_ID); (c0 0 && op 1, CP15_CACHE_TYPE); (c0 0 && op 3, CP15_TLB_TYPE); (c0 0 && op 5, CP15_CPU_ID);
     (c0 1 && op 0, CP15_PROCESSOR_FEATURE_0); (c0 1 && op 1, CP15_PROCESSOR_FEATURE_1); (c0 1 && op 2, CP15_DEBUG_FEATURE_0);
     (c0 1 && op 4, CP15_MEMORY_MODEL_FEATURE_0); (c0 1 && op 5, CP15_MEMORY_MODEL_FEATURE_1);
     (c0 1 && op 6, CP15_MEMORY_MODEL_FEATURE_2); (c0 1 && op 7, CP15_MEMORY_MODEL_FEATURE_3);
     (c0 2 && op 0, CP15_ISA_FEATURE_0); (c0 2 && op 1, CP15_ISA_FEATURE_1); (c0 2 && op 2, CP15_ISA_FEATURE_2);
     (c0 2 && op 3, CP15_ISA_FEATURE_3); (c0 2 && op 4, CP15_ISA_FEATURE_4);
     (at_ 1 0 && op 0, CP15_CONTROL); (at_ 1 0 && op 1, CP15_AUXILIARY_CONTROL); (at_ 1 0 && op 2, CP15_COPROCESSOR_ACCESS_CONTROL);
     (at_ 2 0 && op 0, CP15_TRANSLATION_BASE_TABLE_0); (at_ 2 0 && op 1, CP15_TRANSLATION_BASE_TABLE_1);
     (at_ 2 0 && op 2, CP15_TRANSLATION_BASE_CONTROL);
     (at_ 3 0 && op 0, CP15_DOMAIN_ACCESS_CONTROL);
     (at_ 5 0 && op 0, CP15_FAULT_STATUS); (at_ 5 0 && op 1, CP15_INSTR_FAULT_STATUS);
     (at_ 6 0 && op 0, CP15_FAULT_ADDRESS); (at_ 6 0 && op 1, CP15_WFAR);
     (at_ 7 4 && op 0, CP15_PHYS_ADDRESS);
     (at_ 9 0 && op 0, CP15_DATA_CACHE_LOCKDOWN);
     (at_ 10 0 && op 0, CP15_TLB_LOCKDOWN); (at_ 10 2 && op 0, CP15_PRIMARY_REGION_REMAP); (at_ 10 2 && op 1, CP15_NORMAL_REGION_REMAP);
     (c13 && op 0, CP15_PID); (c13 && op 1, CP15_CONTEXT_ID); (c13 && op 4, CP15_THREAD_PRW);
     (c15 0 12 && op 0, CP15_PERFORMANCE_MONITOR_CONTROL); (c15 0 12 && op 1, CP15_CYCLE_COUNTER);
     (c15 0 12 && op 2, CP15_COUNT_0); (c15 0 12 && op 3, CP15_COUNT_1);
     (c15 5 5 && op 2, CP15_MAIN_TLB_LOCKDOWN_VIRT_ADDRESS); (c15 5 6 && op 2, CP15_MAIN_TLB_LOCKDOWN_PHYS_ADDRESS);
     (c15 5 7 && op 2, CP15_MAIN_TLB_LOCKDOWN_ATTRIBUTE);
     (c15 7 1 && op 0, CP15_TLB_DEBUG_CONTROL)].

Definition read_target (privileged : bool) (crn opcode_1 crm opcode_2 : Z) : option Z :=
  match read_unprivileged crn opcode_1 crm opcode_2 with
  | Some r => Some r
  | None => if privileged then read_privileged crn opcode_1 crm opcode_2 else None
  end.
Definition ReadCP15Register (crn opcode_1 crm opcode_2 : Z) (s : ARMul_State) : Z :=
  match read_target (InAPrivilegedMode s) crn opcode_1 crm opcode_2 with Some r => cp15 r s | None => 0 end.

Definition write_privileged (crn opcode_1 crm opcode_2 : Z) : option Z :=
  let op n := opcode_2 =? n in
  let at_ n m := (crn =? n) && (opcode_1 =? 0) && (crm =? m) in
  let c15 n m := (crn =? 15) && (opcode_1 =? n) && (crm =? m) in
  first_match
    [(at_ 1 0 && op 0, CP15_CONTROL); (at_ 1 0 && op 1, CP15_AUXILIARY_CONTROL); (at_ 1 0 && op 2, CP15_COPROCESSOR_ACCESS_CONTROL);
     (at_ 2 0 && op 0, CP15_TRANSLATION_BASE_TABLE_0); (at_ 2 0 && op 1, CP15_TRANSLATION_BASE_TABLE_1);
     (at_ 2 0 && op 2, CP15_TRANSLATION_BASE_CONTROL);
     (at_ 3 0 && op 0, CP15_DOMAIN_ACCESS_CONTROL);
     (at_ 5 0 && op 0, CP15_FAULT_STATUS); (at_ 5 0 && op 1, CP15_INSTR_FAULT_STATUS);
     (at_ 6 0 && op 0, CP15_FAULT_ADDRESS); (at_ 6 0 && op 1, CP15_WFAR);
     (at_ 7 0 && op 4, CP15_WAIT_FOR_INTERRUPT);
     (at_ 7 5 && op 0, CP15_INVALIDATE_INSTR_CACHE); (at_ 7 5 && op 1, CP15_INVALIDATE_INSTR_CACHE_USING_MVA);
     (at_ 7 5 && op 2, CP15_INVALIDATE_INSTR_CACHE_USING_INDEX); (at_ 7 5 && op 6, CP15_FLUSH_BRANCH_TARGET_CACHE);
     (at_ 7 5 && op 7, CP15_FLUSH_BRANCH_TARGET_CACHE_ENTRY);
     (at_ 7 6 && op 0, CP15_INVALIDATE_DATA_CACHE); (at_ 7 6 && op 1, CP15_INVALIDATE_DATA_CACHE_LINE_USING_MVA);
     (at_ 7 6 && op 2, CP15_INVALIDATE_DATA_CACHE_LINE_USING_INDEX);
     (at_ 7 7 && op 0, CP15_INVALIDATE_DATA_AND_INSTR_CACHE);
     (at_ 7 10 && op 0, CP15_CLEAN_DATA_CACHE); (at_ 7 10 && op 1, CP15_CLEAN_DATA_CACHE_LINE_USING_MVA);
     (at_ 7 10 && op 2, CP15_CLEAN_DATA_CACHE_LINE_USING_INDEX);
     (at_ 7 14 && op 0, CP15_CLEAN_AND_INVALIDATE_DATA_CACHE); (at_ 7 14 && op 1, CP15_CLEAN_AND_INVALIDATE_DATA_CACHE_LINE_USING_MVA);
     (at_ 7 14 && op 2, CP15_CLEAN_AND_INVALIDATE_DATA_CACHE_LINE_USING_INDEX);
     (at_ 8 5 && op 0, CP15_INVALIDATE_ITLB); (at_ 8 5 && op 1, CP15_INVALIDATE_ITLB_SINGLE_ENTRY);
     (at_ 8 5 && op 2, CP15_INVALIDATE_ITLB_ENTRY_ON_ASID_MATCH); (at_ 8 5 && op 3, CP15_INVALIDATE_ITLB_ENTRY_ON_MVA);
     (at_ 8 6 && op 0, CP15_INVALIDATE_DTLB); (at_ 8 6 && op 1, CP15_INVALIDATE_DTLB_SINGLE_ENTRY);
     (at_ 8 6 && op 2, CP15_INVALIDATE_DTLB_ENTRY_ON_ASID_MATCH); (at_ 8 6 && op 3, CP15_INVALIDATE_DTLB_ENTRY_ON_MVA);
     (at_ 8 7 && op 0, CP15_INVALIDATE_UTLB); (at_ 8 7 && op 1, CP15_INVALIDATE_UTLB_SINGLE_ENTRY);
     (at_ 8 7 && op 2, CP15_INVALIDATE_UTLB_ENTRY_ON_ASID_MATCH); (at_ 8 7 && op 3, CP15_INVALIDATE_UTLB_ENTRY_ON_MVA);
     (at_ 9 0 && op 0, CP15_DATA_CACHE_LOCKDOWN);
     (at_ 10 0 && op 0, CP15_TLB_LOCKDOWN); (at_ 10 2 && op 0, CP15_PRIMARY_REGION_REMAP); (at_ 10 2 && op 1, CP15_NORMAL_REGION_REMAP);
     (at_ 13 0 && op 0, CP15_PID); (at_ 13 0 && op 1, CP15_CONTEXT_ID); (at_ 13 0 && op 3, CP15_THREAD_URO);
     (at_ 13 0 && op 4, CP15_THREAD_PRW);
     (c15 0 12 && op 0, CP15_PERFORMANCE_MONITOR_CONTROL); (c15 0 12 && op 1, CP15_CYCLE_COUNTER);
     (c15 0 12 && op 2, CP15_COUNT_0); (c15 0 12 && op 3, CP15_COUNT_1);
     (c15 5 4 && op 2, CP15_READ_MAIN_TLB_LOCKDOWN_ENTRY); (c15 5 4 && op 4, CP15_WRITE_MAIN_TLB_LOCKDOWN_ENTRY);
     (c15 5 5 && op 2, CP15_MAIN_TLB_LOCKDOWN_VIRT_ADDRESS); (c15 5 6 && op 2, CP15_MAIN_TLB_LOCKDOWN_PHYS_ADDRESS);
     (c15 5 7 && op 2, CP15_MAIN_TLB_LOCKDOWN_ATTRIBUTE);
     (c15 7 1 && op 0, CP15_TLB_DEBUG_CONTROL)].
Definition write_unprivileged (crn opcode_1 crm opcode_2 : Z) : option Z :=
  let at_ n m := (crn =? n) && (opcode_1 =? 0) && (crm =? m) in
  first_match
    [(at_ 7 5 && (opcode_2 =? 4), CP15_FLUSH_PREFETCH_BUFFER); (at_ 7 10 && (opcode_2 =? 4), CP15_DATA_SYNC_BARRIER);
     (at_ 7 10 && (opcode_2 =? 5), CP15_DATA_MEMORY_BARRIER); (at_ 13 0 && (opcode_2 =? 2), CP15_THREAD_UPRW)].

Definition WriteCP15Register (value crn opcode_1 crm opcode_2 : Z) (s : ARMul_State) : ARMul_State :=
  let s' := if InAPrivilegedMode s then
              match write_privileged crn opcode_1 crm opcode_2 with Some r => put_cp15 r value s | None => s end
            else s in
  match write_unprivileged crn opcode_1 crm opcode_2 with Some r => put_cp15 r value s' | None => s' end.

(** ** Guest memory *)

Class CpuBus (M : Type) := {
  bus_read : Z → Z → M → option (M * Z);
  bus_write : Z → Z → Z → M → option M }.

Definition swap_bytes (n : nat) (data : Z) : Z := le_value (rev (le_bytes n data)).

Section Bus.
Context `{CpuBus M}.

Definition ReadMemory8 (address : Z) (s : ARMul_State) (m : M) : option (M * Z) := bus_read 1 address m.
Definition ReadMemory16 (address : Z) (s : ARMul_State) (m : M) : option (M * Z) :=
  '(m, data) ← bus_read 2 address m; Some (m, if InBigEndianMode s then swap_bytes 2 data else data).
Definition ReadMemory32 (address : Z) (s : ARMul_State) (m : M) : option (M * Z) :=
  '(m, data) ← bus_read 4 address m; Some (m, if InBigEndianMode s then swap_bytes 4 data else data).
Definition ReadMemory64 (address : Z) (s : ARMul_State) (m : M) : option (M * Z) :=
  '(m, data) ← bus_read 8 address m; Some (m, if InBigEndianMode s then swap_bytes 8 data else data).
Definition WriteMemory8 (address data : Z) (s : ARMul_State) (m : M) : option M := bus_write 1 address data m.
Definition WriteMemory16 (address data : Z) (s : ARMul_State) (m : M) : option M :=
  bus_write 2 address (if InBigEndianMode s then swap_bytes 2 data else data) m.
Definition WriteMemory32 (address data : Z) (s : ARMul_State) (m : M) : option M :=
  bus_write 4 address (if InBigEndianMode s then swap_bytes 4 data else data) m.
Definition WriteMemory64 (address data : Z) (s : ARMul_State) (m : M) : option M :=
  bus_write 8 address (if InBigEndianMode s then swap_bytes 8 data else data) m.

End Bus.

(** The memory of a process, through its page table. *)
#[export] Instance process_bus (rasterizer : FlushMode → Z → Z → gmap Z Z → gmap Z Z) (ReadReg : Z → Z)
  (pages : Pages) : CpuBus MemorySystem := {
  bus_read n a ms := '(ms, v) ← Memory.Read rasterizer ReadReg n pages a ms; Some (ms, default 0 v);
  bus_write n a v ms := Memory.Write rasterizer n pages a v ms }.

(** ** Changing the mode *)

(** The arrays have their sizes, and the mode is the one of the status register. *)
Record arm_wf (s : ARMul_State) : Prop := {
  wf_reg : length (Reg s) = 16%nat;
  wf_usr : length (Reg_usr s) = 2%nat;
  wf_svc : length (Reg_svc s) = 2%nat;
  wf_abort : length (Reg_abort s) = 2%nat;
  wf_undef : length (Reg_undef s) = 2%nat;
  wf_irq : length (Reg_irq s) = 2%nat;
  wf_firq : length (Reg_firq s) = 7%nat;
  wf_spsr : length (Spsr s) = 7%nat;
  wf_cp15 : length (CP15 s) = Z.to_nat CP15_REGISTER_COUNT;
  wf_cpsr : 0 <= Cpsr s < 2 ^ 32;
  wf_mode : Z.land (Cpsr s) 0x1F = Mode s }.

(** The modes that bank only the stack pointer and the link register. *)
Definition plain_modes : list Z := [USER32MODE; IRQ32MODE; SVC32MODE; ABORT32MODE; UNDEF32MODE; SYSTEM32MODE].

Definition bank_no (m : Z) : Z :=
  if m =? IRQ32MODE then IRQBANK else if m =? SVC32MODE then SVCBANK else if m =? ABORT32MODE then ABORTBANK
  else if m =? UNDEF32MODE then UNDEFBANK else USERBANK.
Definition banked (m : Z) (s : ARMul_State) : list Z :=
  if m =? IRQ32MODE then Reg_irq s else if m =? SVC32MODE then Reg_svc s else if m =? ABORT32MODE then Reg_abort s
  else if m =? UNDEF32MODE then Reg_undef s else Reg_usr s.

(** The sixteen registers and the saved status register as the architecture defines them for a mode. *)
Definition registers_of (m : Z) (s : ARMul_State) : list Z :=
  if bank_no m =? bank_no (Mode s) then Reg s else take 13 (Reg s) ++ banked m s ++ drop 15 (Reg s).
Definition spsr_of (m : Z) (s : ARMul_State) : option Z :=
  if bank_no m =? USERBANK then None
  else if bank_no m =? bank_no (Mode s) then Some (Spsr_copy s) else Spsr s !! Z.to_nat (bank_no m).

(** A list of a known length is its elements. *)
Ltac list_of_length n l H :=
  lazymatch n with
  | O => destruct l; [clear H|discriminate H]
  | S ?n => let x := fresh "x" in destruct l as [|x l]; [discriminate H|cbn [length] in H; apply Nat.succ_inj in H; list_of_length n l H]
  end.

Lemma mode_bits c old new :
  0 <= c < 2 ^ 32 → 0 <= new < 32 → 0 <= old < 32 → Z.land c 31 = old ∨ Z.land c 31 = new →
  let c' := Z.lor (Z.land c (not32 old)) new in
  Z.land c' 31 = new ∧ Z.shiftr c' 5 = Z.shiftr c 5 ∧ 0 <= c' < 2 ^ 32.
Proof.
  intros Hc Hn Ho Hl c'.
  assert (∀ i, 5 <= i → Z.testbit new i = false) as Hnew.
  { intros i Hi. rewrite Z.testbit_eqb by lia. rewrite Z.div_small; [done|]. split; [lia|].
    apply Z.lt_le_trans with 32; [lia|]. change 32 with (2 ^ 5). apply Z.pow_le_mono_r; lia. }
  assert (∀ i, 5 <= i → Z.testbit old i = false) as Hold.
  { intros i Hi. rewrite Z.testbit_eqb by lia. rewrite Z.div_small; [done|]. split; [lia|].
    apply Z.lt_le_trans with 32; [lia|]. change 32 with (2 ^ 5). apply Z.pow_le_mono_r; lia. }
  assert (∀ i, 0 <= i < 5 → Z.testbit 31 i = true) as H31.
  { intros i Hi. change 31 with (Z.ones 5). apply Z.ones_spec_low. lia. }
  assert (∀ i, 5 <= i → Z.testbit 31 i = false) as H31'.
  { intros i Hi. change 31 with (Z.ones 5). apply Z.ones_spec_high. lia. }
  assert (∀ i, 32 <= i → Z.testbit c i = false) as Hhigh.
  { intros i Hi. rewrite Z.testbit_eqb by lia. rewrite Z.div_small; [done|]. split; [lia|].
    apply Z.lt_le_trans with (2 ^ 32); [lia|]. apply Z.pow_le_mono_r; lia. }
  assert (∀ i, 0 <= i < 32 → Z.testbit (not32 old) i = negb (Z.testbit old i)) as Hnot.
  { intros i Hi. unfold not32, u32. rewrite mod_pow2_testbit, Z.lnot_spec by lia. rewrite (proj2 (Z.ltb_lt i 32)) by lia. done. }
  assert (∀ i, 0 <= i → Z.testbit c' i = if decide (i < 5) then Z.testbit new i else Z.testbit c i) as Hc'.
  { intros i Hi. unfold c'. rewrite Z.lor_spec, Z.land_spec. case_decide as H5.
    - rewrite Hnot by lia. destruct Hl as [<-|<-]; rewrite Z.land_spec, H31 by lia.
      + destruct (Z.testbit c i), (Z.testbit new i); done.
      + destruct (Z.testbit c i), (Z.testbit old i); done.
    - rewrite (Hnew i), orb_false_r by lia. destruct (decide (i < 32)) as [H32|]; [|rewrite Hhigh by lia; done].
      rewrite Hnot, Hold by lia. apply andb_true_r. }
  split; [|split].
  - apply Z.bits_inj'. intros i Hi. rewrite Z.land_spec, Hc' by lia. case_decide; [rewrite H31 by lia; apply andb_true_r|].
    rewrite H31', Hnew by lia. apply andb_false_r.
  - apply Z.bits_inj'. intros i Hi. rewrite !Z.shiftr_spec, Hc' by lia. by rewrite decide_False by lia.
  - assert (c' = c' `mod` 2 ^ 32) as ->; [|apply Z.mod_pos_bound; lia]. apply Z.bits_inj'. intros i Hi. rewrite mod_pow2_testbit by lia.
    destruct (Z.ltb_spec i 32); [done|]. rewrite Hc' by lia. rewrite decide_False by lia. by apply Hhigh.
Qed.

(** C31: A change of mode between two modes that bank the stack pointer and the link register: every mode keeps its
    sixteen registers and its saved status register, the status register changes in its
    mode bits only, and the state stays well formed. *)
Theorem mode_change_keeps_banks s new_mode :
  arm_wf s → Mode s ∈ plain_modes → new_mode ∈ plain_modes →
  let s' := ChangePrivilegeMode new_mode s in
  arm_wf s' ∧ Mode s' = new_mode ∧ Z.shiftr (Cpsr s') 5 = Z.shiftr (Cpsr s) 5 ∧
  ∀ m, m ∈ plain_modes → registers_of m s' = registers_of m s ∧ spsr_of m s' = spsr_of m s.
Proof.
  intros [H1 H2 H3 H4 H5 H6 H7 H8 H9 Hc Hm] Hold Hnew. cbv zeta.
  assert (0 <= new_mode < 32 ∧ 0 <= Mode s < 32) as [Hnr Hor] by (unfold plain_modes in *; set_unfold; unfold USER32MODE, IRQ32MODE, SVC32MODE, ABORT32MODE, UNDEF32MODE, SYSTEM32MODE in *; lia).
  pose proof (mode_bits (Cpsr s) (Mode s) new_mode Hc Hnr Hor (or_introl Hm)) as (Hc1 & Hc2 & Hc3).
  destruct s as [R Ru Rs Ra Rn Ri Rf Sp C V ex em c sc md bk nf zf cf vf so tf ni ne s1 s2 s3 s4 s5 et es].
  cbn [Reg Reg_usr Reg_svc Reg_abort Reg_undef Reg_irq Reg_firq Spsr CP15 Cpsr Mode] in *.
  set (c' := Z.lor (Z.land c (not32 md)) new_mode) in *.
  list_of_length 16%nat R H1; list_of_length 2%nat Ru H2; list_of_length 2%nat Rs H3; list_of_length 2%nat Ra H4; list_of_length 2%nat Rn H5;
    list_of_length 2%nat Ri H6; list_of_length 7%nat Sp H8.
  unfold ChangePrivilegeMode, plain_modes in *. cbn [Mode].
  destruct (Z.eqb_spec md new_mode) as [->|Hne].
  { split; [by split|]. done. }
  rewrite (proj2 (Z.eqb_neq new_mode USERBANK)) by (set_unfold; intros ->; unfold USERBANK, USER32MODE, IRQ32MODE, SVC32MODE, ABORT32MODE, UNDEF32MODE, SYSTEM32MODE in *; lia).
  assert (∀ m, m ∈ [USER32MODE; IRQ32MODE; SVC32MODE; ABORT32MODE; UNDEF32MODE; SYSTEM32MODE] →
    m = USER32MODE ∨ m = IRQ32MODE ∨ m = SVC32MODE ∨ m = ABORT32MODE ∨ m = UNDEF32MODE ∨ m = SYSTEM32MODE) as Hin by (intros m Hm'; set_unfold; naive_solver).
  apply Hin in Hold, Hnew.
  destruct Hold as [->|[->|[->|[->|[->| ->]]]]], Hnew as [->|[->|[->|[->|[->| ->]]]]]; try done;
    (split; [by split|]); (split; [done|]); (split; [exact Hc2|]); intros m Hm';
    apply Hin in Hm'; destruct Hm' as [->|[->|[->|[->|[->| ->]]]]]; split; reflexivity.
Qed.

(** The fast interrupt mode has its own [r8] to [r12], but entering it does not save those of the
    mode it is entered from: on the way back the registers hold what the fast mode left. *)
Theorem fiq_loses_registers s :
  arm_wf s → Mode s = USER32MODE →
  Reg (ChangePrivilegeMode USER32MODE (ChangePrivilegeMode FIQ32MODE s)) = take 8 (Reg s) ++ take 5 (Reg_firq s) ++ drop 13 (Reg s).
Proof.
  intros [H1 H2 H3 H4 H5 H6 H7 H8 H9 Hc Hm] Hmode.
  destruct s as [R Ru Rs Ra Rn Ri Rf Sp C V ex em c sc md bk nf zf cf vf so tf ni ne s1 s2 s3 s4 s5 et es].
  cbn [Reg Reg_usr Reg_svc Reg_abort Reg_undef Reg_irq Reg_firq Spsr CP15 Cpsr Mode] in *. clear Hm. subst md.
  list_of_length 16%nat R H1; list_of_length 2%nat Ru H2; list_of_length 7%nat Rf H7; list_of_length 7%nat Sp H8. reflexivity.
Qed.

(** ** The coprocessor *)

Lemma first_match_elem l r : first_match l = Some r → r ∈ l.*2.
Proof.
  unfold first_match. destruct (filter (λ x, x.1 = true) l) as [|x l'] eqn:E; [done|]. intros [= <-].
  assert (x ∈ filter (λ x, x.1 = true) l) as Hx by (rewrite E; left). apply list_elem_of_filter in Hx as [_ Hx].
  by apply list_elem_of_fmap_2.
Qed.

Lemma cp15_put r v r' s : 0 <= r < Z.of_nat (length (CP15 s)) → 0 <= r' → cp15 r' (put_cp15 r v s) = if decide (r' = r) then v else cp15 r' s.
Proof.
  intros Hr Hr'. unfold cp15, put_cp15. cbn [CP15 set_CP15]. case_decide as E.
  - subst r'. apply list_lookup_total_insert_eq. lia.
  - apply list_lookup_total_insert_ne. lia.
Qed.

(** The fields of an instruction. *)
Definition cp15_fields : list (Z * Z * Z * Z) :=
  crn ← seqZ 0 16; opcode_1 ← seqZ 0 8; crm ← seqZ 0 16; opcode_2 ← seqZ 0 8; [(crn, opcode_1, crm, opcode_2)].

Definition targets_agree (f : Z * Z * Z * Z) : bool :=
  let '(crn, opcode_1, crm, opcode_2) := f in
  match read_target true crn opcode_1 crm opcode_2, write_privileged crn opcode_1 crm opcode_2, write_unprivileged crn opcode_1 crm opcode_2 with
  | Some r, Some w, None => r =? w
  | Some r, None, Some w => r =? w
  | _, Some _, Some _ => false
  | _, _, _ => true
  end.

Lemma targets_agree_all : forallb targets_agree cp15_fields = true.
Proof. vm_compute. reflexivity. Qed.

Lemma cp15_fields_all crn opcode_1 crm opcode_2 :
  0 <= crn < 16 → 0 <= opcode_1 < 8 → 0 <= crm < 16 → 0 <= opcode_2 < 8 → (crn, opcode_1, crm, opcode_2) ∈ cp15_fields.
Proof.
  intros. unfold cp15_fields. apply list_elem_of_bind. exists crn. split; [|apply elem_of_seqZ; lia].
  apply list_elem_of_bind. exists opcode_1. split; [|apply elem_of_seqZ; lia].
  apply list_elem_of_bind. exists crm. split; [|apply elem_of_seqZ; lia].
  apply list_elem_of_bind. exists opcode_2. split; [by apply list_elem_of_singleton|apply elem_of_seqZ; lia].
Qed.

Lemma read_target_range crn opcode_1 crm opcode_2 r : read_target true crn opcode_1 crm opcode_2 = Some r → 0 <= r < CP15_REGISTER_COUNT.
Proof.
  unfold read_target. intros H. assert (forallb (λ r, (0 <=? r) && (r <? CP15_REGISTER_COUNT)) [r] = true) as Hb.
  { destruct (read_unprivileged crn opcode_1 crm opcode_2) as [r'|] eqn:E.
    - injection H as <-. apply first_match_elem in E. cbn in E. set_unfold. destruct E as [->|[->|[]]]; reflexivity.
    - apply first_match_elem in H. cbn [fmap list_fmap snd] in H. apply forallb_forall. intros x [<-|[]].
      revert r H. apply Forall_forall. repeat constructor. }
  cbn in Hb. apply andb_true_iff in Hb as [Hb _]. apply andb_true_iff in Hb as [?%Z.leb_le ?%Z.ltb_lt]. done.
Qed.


(** ** Examples *)

Module Examples.

(** A processor in user mode, as the constructor leaves it on cleared memory, with numbered registers. *)
Definition blank : ARMul_State :=
  mkArm (replicate 16 0) (replicate 2 0) (replicate 2 0) (replicate 2 0) (replicate 2 0) (replicate 2 0) (replicate 7 0) (replicate 7 0)
    (replicate 84 0) (replicate 3 0) (replicate 64 0) 0 0 0 0 0 0 0 0 0 0 0 0 0 0 0 0 0 0 0 false.
Definition user : ARMul_State := set_Reg (seqZ 100 16) (ARMul_State_new USER32MODE blank).

Lemma user_wf : arm_wf user.
Proof. split; vm_compute; done. Defined.

Lemma mode_change_keeps_banks_witness :
  let s' := ChangePrivilegeMode SVC32MODE user in
  arm_wf s' ∧ Mode s' = SVC32MODE ∧ Z.shiftr (Cpsr s') 5 = Z.shiftr (Cpsr user) 5 ∧
  ∀ m, m ∈ plain_modes → registers_of m s' = registers_of m user ∧ spsr_of m s' = spsr_of m user.
Proof. apply (mode_change_keeps_banks user SVC32MODE); [exact user_wf|by vm_compute; left|unfold plain_modes; set_solver]. Defined.

Lemma fiq_loses_registers_witness :
  Reg (ChangePrivilegeMode USER32MODE (ChangePrivilegeMode FIQ32MODE user)) = take 8 (Reg user) ++ take 5 (Reg_firq user) ++ drop 13 (Reg user) ∧
  Reg (ChangePrivilegeMode USER32MODE (ChangePrivilegeMode FIQ32MODE user)) ≠ Reg user.
Proof. split; [apply fiq_loses_registers; [exact user_wf|reflexivity]|]. intros E. vm_compute in E. discriminate. Defined.


End Examples.
