(* ===== verification/ArmOperands.v ===== *)
(** * Conditions, shifter operands and addressing modes
    ([src/src/core/arm/dyncom/arm_dyncom_interpreter.cpp])

    What an instruction of the interpreter takes from the state before it does its work: whether its
    condition holds, the second operand of a data-processing instruction with its carry, and the address of a
    load or store, which may update the base register.

    The theorems compare them with the manual of the architecture: the routines of the
    shifter are one shift of a kind by an amount; the routines of the addressing modes are one
    formula in the base, the offset and the bits P, U and W. *)

From stdpp Require Import base list.
From S2P Require Import Prelude ArmSupp Memory ArmState.

(** ** Conditions *)

Definition CondPassed (cpu : ARMul_State) (cond : Z) : bool :=
  let n_flag := truth (NFlag cpu) in
  let z_flag := truth (ZFlag cpu) in
  let c_flag := truth (CFlag cpu) in
  let v_flag := truth (VFlag cpu) in
  if cond =? 0 then z_flag
  else if cond =? 1 then negb z_flag
  else if cond =? 2 then c_flag
  else if cond =? 3 then negb c_flag
  else if cond =? 4 then n_flag
  else if cond =? 5 then negb n_flag
  else if cond =? 6 then v_flag
  else if cond =? 7 then negb v_flag
  else if cond =? 8 then c_flag && negb z_flag
  else if cond =? 9 then negb c_flag || z_flag
  else if cond =? 10 then Bool.eqb n_flag v_flag
  else if cond =? 11 then negb (Bool.eqb n_flag v_flag)
  else if cond =? 12 then negb z_flag && Bool.eqb n_flag v_flag
  else if cond =? 13 then z_flag || negb (Bool.eqb n_flag v_flag)
  else (cond =? 14) || (cond =? 15).

(** ** The shifter

    A routine takes the low 12 bits of the instruction and leaves the carry in the state. *)

(** The shift to the left by 32 that a rotation by 0 does has no defined result; on the hosts it is
    the value or 0, and with either the disjunction is the value. *)
Definition ROTATE_RIGHT_32 (n i : Z) : Z := Z.lor (u32 (Z.shiftl n (32 - i))) (Z.shiftr n i).

Definition RM (sht_oper : Z) : Z := BITS sht_oper 0 3.
Definition RS (sht_oper : Z) : Z := BITS sht_oper 8 11.

Definition DPO_Immediate (cpu : ARMul_State) (sht_oper : Z) : Z * ARMul_State :=
  let immed_8 := BITS sht_oper 0 7 in
  let rotate_imm := BITS sht_oper 8 11 in
  let shifter_operand := ROTATE_RIGHT_32 immed_8 (rotate_imm * 2) in
  (shifter_operand, set_shifter_carry_out (if rotate_imm =? 0 then CFlag cpu else BIT shifter_operand 31) cpu).

Definition DPO_Register (cpu : ARMul_State) (sht_oper : Z) : Z * ARMul_State :=
  let rm := CHECK_READ_REG15 cpu (RM sht_oper) in
  (rm, set_shifter_carry_out (CFlag cpu) cpu).

Definition DPO_LogicalShiftLeftByImmediate (cpu : ARMul_State) (sht_oper : Z) : Z * ARMul_State :=
  let shift_imm := BITS sht_oper 7 11 in
  let rm := CHECK_READ_REG15 cpu (RM sht_oper) in
  if shift_imm =? 0 then (rm, set_shifter_carry_out (CFlag cpu) cpu)
  else (u32 (Z.shiftl rm shift_imm), set_shifter_carry_out (BIT rm (32 - shift_imm)) cpu).

Definition DPO_LogicalShiftLeftByRegister (cpu : ARMul_State) (sht_oper : Z) : Z * ARMul_State :=
  let rm := CHECK_READ_REG15 cpu (RM sht_oper) in
  let rs := CHECK_READ_REG15 cpu (RS sht_oper) in
  if BITS rs 0 7 =? 0 then (rm, set_shifter_carry_out (CFlag cpu) cpu)
  else if BITS rs 0 7 <? 32 then (u32 (Z.shiftl rm (BITS rs 0 7)), set_shifter_carry_out (BIT rm (32 - BITS rs 0 7)) cpu)
  else if BITS rs 0 7 =? 32 then (0, set_shifter_carry_out (BIT rm 0) cpu)
  else (0, set_shifter_carry_out 0 cpu).

Definition DPO_LogicalShiftRightByImmediate (cpu : ARMul_State) (sht_oper : Z) : Z * ARMul_State :=
  let rm := CHECK_READ_REG15 cpu (RM sht_oper) in
  let shift_imm := BITS sht_oper 7 11 in
  if shift_imm =? 0 then (0, set_shifter_carry_out (BIT rm 31) cpu)
  else (Z.shiftr rm shift_imm, set_shifter_carry_out (BIT rm (shift_imm - 1)) cpu).

Definition DPO_LogicalShiftRightByRegister (cpu : ARMul_State) (sht_oper : Z) : Z * ARMul_State :=
  let rs := CHECK_READ_REG15 cpu (RS sht_oper) in
  let rm := CHECK_READ_REG15 cpu (RM sht_oper) in
  if BITS rs 0 7 =? 0 then (rm, set_shifter_carry_out (CFlag cpu) cpu)
  else if BITS rs 0 7 <? 32 then (Z.shiftr rm (BITS rs 0 7), set_shifter_carry_out (BIT rm (BITS rs 0 7 - 1)) cpu)
  else if BITS rs 0 7 =? 32 then (0, set_shifter_carry_out (BIT rm 31) cpu)
  else (0, set_shifter_carry_out 0 cpu).

Definition DPO_ArithmeticShiftRightByImmediate (cpu : ARMul_State) (sht_oper : Z) : Z * ARMul_State :=
  let rm := CHECK_READ_REG15 cpu (RM sht_oper) in
  let shift_imm := BITS sht_oper 7 11 in
  if shift_imm =? 0 then (if BIT rm 31 =? 0 then 0 else 0xFFFFFFFF, set_shifter_carry_out (BIT rm 31) cpu)
  else (u32 (Z.shiftr (s32 rm) shift_imm), set_shifter_carry_out (BIT rm (shift_imm - 1)) cpu).

Definition DPO_ArithmeticShiftRightByRegister (cpu : ARMul_State) (sht_oper : Z) : Z * ARMul_State :=
  let rs := CHECK_READ_REG15 cpu (RS sht_oper) in
  let rm := CHECK_READ_REG15 cpu (RM sht_oper) in
  if BITS rs 0 7 =? 0 then (rm, set_shifter_carry_out (CFlag cpu) cpu)
  else if BITS rs 0 7 <? 32 then (u32 (Z.shiftr (s32 rm) (BITS rs 0 7)), set_shifter_carry_out (BIT rm (BITS rs 0 7 - 1)) cpu)
  else (if BIT rm 31 =? 0 then 0 else 0xffffffff, set_shifter_carry_out (BIT rm 31) cpu).

Definition DPO_RotateRightByImmediate (cpu : ARMul_State) (sht_oper : Z) : Z * ARMul_State :=
  let rm := CHECK_READ_REG15 cpu (RM sht_oper) in
  let shift_imm := BITS sht_oper 7 11 in
  if shift_imm =? 0 then (Z.lor (u32 (Z.shiftl (CFlag cpu) 31)) (Z.shiftr rm 1), set_shifter_carry_out (BIT rm 0) cpu)
  else (ROTATE_RIGHT_32 rm shift_imm, set_shifter_carry_out (BIT rm (shift_imm - 1)) cpu).

Definition DPO_RotateRightByRegister (cpu : ARMul_State) (sht_oper : Z) : Z * ARMul_State :=
  let rm := CHECK_READ_REG15 cpu (RM sht_oper) in
  let rs := CHECK_READ_REG15 cpu (RS sht_oper) in
  if BITS rs 0 7 =? 0 then (rm, set_shifter_carry_out (CFlag cpu) cpu)
  else if BITS rs 0 4 =? 0 then (rm, set_shifter_carry_out (BIT rm 31) cpu)
  else (ROTATE_RIGHT_32 rm (BITS rs 0 4), set_shifter_carry_out (BIT rm (BITS rs 0 4 - 1)) cpu).

(** The routine of an instruction, nothing for a null pointer. *)
Definition GetShifterOp (inst : Z) : option (ARMul_State → Z → Z * ARMul_State) :=
  if truth (BIT inst 25) then Some DPO_Immediate
  else if BITS inst 4 11 =? 0 then Some DPO_Register
  else if BITS inst 4 6 =? 0 then Some DPO_LogicalShiftLeftByImmediate
  else if BITS inst 4 7 =? 1 then Some DPO_LogicalShiftLeftByRegister
  else if BITS inst 4 6 =? 2 then Some DPO_LogicalShiftRightByImmediate
  else if BITS inst 4 7 =? 3 then Some DPO_LogicalShiftRightByRegister
  else if BITS inst 4 6 =? 4 then Some DPO_ArithmeticShiftRightByImmediate
  else if BITS inst 4 7 =? 5 then Some DPO_ArithmeticShiftRightByRegister
  else if BITS inst 4 6 =? 6 then Some DPO_RotateRightByImmediate
  else if BITS inst 4 7 =? 7 then Some DPO_RotateRightByRegister
  else None.

(** ** Addressing modes

    A routine takes the instruction and gives the address; it may update the base register. *)

Definition W_BIT (inst : Z) : Z := BIT inst 21.
Definition U_BIT (inst : Z) : Z := BIT inst 23.
Definition OFFSET_12 (inst : Z) : Z := BITS inst 0 11.

Definition up_down (inst base offset : Z) : Z := if truth (U_BIT inst) then u32 (base + offset) else u32 (base - offset).

Definition LnSWoUB_ImmediateOffset (cpu : ARMul_State) (inst : Z) : Z * ARMul_State :=
  let Rn := BITS inst 16 19 in
  (up_down inst (CHECK_READ_REG15_WA cpu Rn) (OFFSET_12 inst), cpu).

Definition LnSWoUB_RegisterOffset (cpu : ARMul_State) (inst : Z) : Z * ARMul_State :=
  let rn := CHECK_READ_REG15_WA cpu (BITS inst 16 19) in
  let rm := CHECK_READ_REG15_WA cpu (BITS inst 0 3) in
  (up_down inst rn rm, cpu).

Definition LnSWoUB_ImmediatePostIndexed (cpu : ARMul_State) (inst : Z) : Z * ARMul_State :=
  let Rn := BITS inst 16 19 in
  let addr := CHECK_READ_REG15_WA cpu Rn in
  (addr, put_reg Rn (up_down inst (reg Rn cpu) (OFFSET_12 inst)) cpu).

Definition if_passed (inst : Z) (f : ARMul_State → ARMul_State) (cpu : ARMul_State) : ARMul_State :=
  if CondPassed cpu (BITS inst 28 31) then f cpu else cpu.

Definition LnSWoUB_ImmediatePreIndexed (cpu : ARMul_State) (inst : Z) : Z * ARMul_State :=
  let Rn := BITS inst 16 19 in
  let addr := up_down inst (CHECK_READ_REG15_WA cpu Rn) (OFFSET_12 inst) in
  (addr, if_passed inst (put_reg Rn addr) cpu).

Definition MLnS_RegisterPreIndexed (cpu : ARMul_State) (inst : Z) : Z * ARMul_State :=
  let Rn := BITS inst 16 19 in
  let rn := CHECK_READ_REG15_WA cpu Rn in
  let rm := CHECK_READ_REG15_WA cpu (BITS inst 0 3) in
  let addr := up_down inst rn rm in
  (addr, if_passed inst (put_reg Rn addr) cpu).

Definition LnSWoUB_RegisterPreIndexed (cpu : ARMul_State) (inst : Z) : Z * ARMul_State :=
  let Rn := BITS inst 16 19 in
  let rn := CHECK_READ_REG15_WA cpu Rn in
  let rm := CHECK_READ_REG15_WA cpu (BITS inst 0 3) in
  let addr := up_down inst rn rm in
  (addr, if_passed inst (put_reg Rn addr) cpu).

(** The index of the three scaled modes. *)
Definition scaled_index (cpu : ARMul_State) (inst rm : Z) : Z :=
  let shift := BITS inst 5 6 in
  let shift_imm := BITS inst 7 11 in
  if shift =? 0 then u32 (Z.shiftl rm shift_imm)
  else if shift =? 1 then (if shift_imm =? 0 then 0 else Z.shiftr rm shift_imm)
  else if shift =? 2 then
    (if shift_imm =? 0 then (if BIT rm 31 =? 1 then 0xFFFFFFFF else 0) else u32 (Z.shiftr (s32 rm) shift_imm))
  else if shift =? 3 then
    (if shift_imm =? 0 then Z.lor (u32 (Z.shiftl (CFlag cpu) 31)) (Z.shiftr rm 1) else ROTATE_RIGHT_32 rm shift_imm)
  else 0.

Definition LnSWoUB_ScaledRegisterPreIndexed (cpu : ARMul_State) (inst : Z) : Z * ARMul_State :=
  let Rn := BITS inst 16 19 in
  let rm := CHECK_READ_REG15_WA cpu (BITS inst 0 3) in
  let rn := CHECK_READ_REG15_WA cpu Rn in
  let addr := up_down inst rn (scaled_index cpu inst rm) in
  (addr, if_passed inst (put_reg Rn addr) cpu).

Definition LnSWoUB_ScaledRegisterPostIndexed (cpu : ARMul_State) (inst : Z) : Z * ARMul_State :=
  let Rn := BITS inst 16 19 in
  let addr := CHECK_READ_REG15_WA cpu Rn in
  let rm := CHECK_READ_REG15_WA cpu (BITS inst 0 3) in
  let index := scaled_index cpu inst rm in
  (addr, if_passed inst (λ cpu, put_reg Rn (up_down inst (reg Rn cpu) index) cpu) cpu).

Definition LnSWoUB_RegisterPostIndexed (cpu : ARMul_State) (inst : Z) : Z * ARMul_State :=
  let Rn := BITS inst 16 19 in
  let rm := CHECK_READ_REG15_WA cpu (BITS inst 0 3) in
  (CHECK_READ_REG15_WA cpu Rn, if_passed inst (λ cpu, put_reg Rn (up_down inst (reg Rn cpu) rm) cpu) cpu).

Definition LnSWoUB_ScaledRegisterOffset (cpu : ARMul_State) (inst : Z) : Z * ARMul_State :=
  let rm := CHECK_READ_REG15_WA cpu (BITS inst 0 3) in
  let rn := CHECK_READ_REG15_WA cpu (BITS inst 16 19) in
  (up_down inst rn (scaled_index cpu inst rm), cpu).

(** *** Halfwords, signed bytes and double words *)

Definition offset_8 (inst : Z) : Z := Z.lor (Z.shiftl (BITS inst 8 11) 4) (BITS inst 0 3).

Definition MLnS_ImmediateOffset (cpu : ARMul_State) (inst : Z) : Z * ARMul_State :=
  (up_down inst (CHECK_READ_REG15_WA cpu (BITS inst 16 19)) (offset_8 inst), cpu).
Definition MLnS_RegisterOffset (cpu : ARMul_State) (inst : Z) : Z * ARMul_State :=
  let rn := CHECK_READ_REG15_WA cpu (BITS inst 16 19) in
  let rm := CHECK_READ_REG15_WA cpu (BITS inst 0 3) in
  (up_down inst rn rm, cpu).
Definition MLnS_ImmediatePreIndexed (cpu : ARMul_State) (inst : Z) : Z * ARMul_State :=
  let Rn := BITS inst 16 19 in
  let addr := up_down inst (CHECK_READ_REG15_WA cpu Rn) (offset_8 inst) in
  (addr, if_passed inst (put_reg Rn addr) cpu).
Definition MLnS_ImmediatePostIndexed (cpu : ARMul_State) (inst : Z) : Z * ARMul_State :=
  let Rn := BITS inst 16 19 in
  let rn := CHECK_READ_REG15_WA cpu Rn in
  (rn, if_passed inst (put_reg Rn (up_down inst rn (offset_8 inst))) cpu).
Definition MLnS_RegisterPostIndexed (cpu : ARMul_State) (inst : Z) : Z * ARMul_State :=
  let Rn := BITS inst 16 19 in
  let rm := CHECK_READ_REG15_WA cpu (BITS inst 0 3) in
  (CHECK_READ_REG15_WA cpu Rn, if_passed inst (λ cpu, put_reg Rn (up_down inst (reg Rn cpu) rm) cpu) cpu).

(** *** Multiple registers *)

(** The number of registers in the list. *)
Fixpoint count_bits (fuel : nat) (i : Z) : Z :=
  match fuel with
  | O => 0
  | S fuel => if i =? 0 then 0 else Z.land i 1 + count_bits fuel (Z.shiftr i 1)
  end.
Definition register_count (inst : Z) : Z := count_bits 16 (BITS inst 0 15).

Definition write_back (inst : Z) (f : Z → Z) (cpu : ARMul_State) : ARMul_State :=
  let Rn := BITS inst 16 19 in
  if CondPassed cpu (BITS inst 28 31) && truth (BIT inst 21) then put_reg Rn (u32 (f (reg Rn cpu))) cpu else cpu.

Definition LdnStM_DecrementBefore (cpu : ARMul_State) (inst : Z) : Z * ARMul_State :=
  let count := register_count inst in
  (u32 (CHECK_READ_REG15_WA cpu (BITS inst 16 19) - count * 4), write_back inst (λ rn, rn - count * 4) cpu).
Definition LdnStM_IncrementBefore (cpu : ARMul_State) (inst : Z) : Z * ARMul_State :=
  let count := register_count inst in
  (u32 (CHECK_READ_REG15_WA cpu (BITS inst 16 19) + 4), write_back inst (λ rn, rn + count * 4) cpu).
Definition LdnStM_IncrementAfter (cpu : ARMul_State) (inst : Z) : Z * ARMul_State :=
  let count := register_count inst in
  (CHECK_READ_REG15_WA cpu (BITS inst 16 19), write_back inst (λ rn, rn + count * 4) cpu).
Definition LdnStM_DecrementAfter (cpu : ARMul_State) (inst : Z) : Z * ARMul_State :=
  let count := register_count inst in
  (u32 (CHECK_READ_REG15_WA cpu (BITS inst 16 19) - count * 4 + 4), write_back inst (λ rn, rn - count * 4) cpu).

Definition get_addr_fp : Type := ARMul_State → Z → Z * ARMul_State.

Definition GetAddressingOp (inst : Z) : option get_addr_fp :=
  let misc := (BIT inst 7 =? 1) && (BIT inst 4 =? 1) in
  if (BITS inst 24 27 =? 5) && (BIT inst 21 =? 0) then Some LnSWoUB_ImmediateOffset
  else if (BITS inst 24 27 =? 7) && (BIT inst 21 =? 0) && (BITS inst 4 11 =? 0) then Some LnSWoUB_RegisterOffset
  else if (BITS inst 24 27 =? 7) && (BIT inst 21 =? 0) && (BIT inst 4 =? 0) then Some LnSWoUB_ScaledRegisterOffset
  else if (BITS inst 24 27 =? 5) && (BIT inst 21 =? 1) then Some LnSWoUB_ImmediatePreIndexed
  else if (BITS inst 24 27 =? 7) && (BIT inst 21 =? 1) && (BITS inst 4 11 =? 0) then Some LnSWoUB_RegisterPreIndexed
  else if (BITS inst 24 27 =? 7) && (BIT inst 21 =? 1) && (BIT inst 4 =? 0) then Some LnSWoUB_ScaledRegisterPreIndexed
  else if (BITS inst 24 27 =? 4) && (BIT inst 21 =? 0) then Some LnSWoUB_ImmediatePostIndexed
  else if (BITS inst 24 27 =? 6) && (BIT inst 21 =? 0) && (BITS inst 4 11 =? 0) then Some LnSWoUB_RegisterPostIndexed
  else if (BITS inst 24 27 =? 6) && (BIT inst 21 =? 0) && (BIT inst 4 =? 0) then Some LnSWoUB_ScaledRegisterPostIndexed
  else if (BITS inst 24 27 =? 1) && (BITS inst 21 22 =? 2) && misc then Some MLnS_ImmediateOffset
  else if (BITS inst 24 27 =? 1) && (BITS inst 21 22 =? 0) && misc then Some MLnS_RegisterOffset
  else if (BITS inst 24 27 =? 1) && (BITS inst 21 22 =? 3) && misc then Some MLnS_ImmediatePreIndexed
  else if (BITS inst 24 27 =? 1) && (BITS inst 21 22 =? 1) && misc then Some MLnS_RegisterPreIndexed
  else if (BITS inst 24 27 =? 0) && (BITS inst 21 22 =? 2) && misc then Some MLnS_ImmediatePostIndexed
  else if (BITS inst 24 27 =? 0) && (BITS inst 21 22 =? 0) && misc then Some MLnS_RegisterPostIndexed
  else if BITS inst 23 27 =? 0x11 then Some LdnStM_IncrementAfter
  else if BITS inst 23 27 =? 0x13 then Some LdnStM_IncrementBefore
  else if BITS inst 23 27 =? 0x10 then Some LdnStM_DecrementAfter
  else if BITS inst 23 27 =? 0x12 then Some LdnStM_DecrementBefore
  else None.

Definition GetAddressingOpLoadStoreT (inst : Z) : option get_addr_fp :=
  if BITS inst 25 27 =? 2 then Some LnSWoUB_ImmediatePostIndexed
  else if BITS inst 25 27 =? 3 then Some LnSWoUB_ScaledRegisterPostIndexed
  else None.

(** ** The manual of the architecture *)

(** *** Shifts: a kind and an amount, with the carry. *)

Inductive SRType := SRType_LSL | SRType_LSR | SRType_ASR | SRType_ROR | SRType_RRX.
#[export] Instance SRType_eq_dec : EqDecision SRType.
Proof. solve_decision. Defined.

Definition Shift_C (value : Z) (type : SRType) (amount carry : Z) : Z * Z :=
  if amount =? 0 then (value, carry)
  else match type with
       | SRType_LSL => ((value * 2 ^ amount) `mod` 2 ^ 32, (value * 2 ^ amount / 2 ^ 32) `mod` 2)
       | SRType_LSR => (value / 2 ^ amount, (value / 2 ^ (amount - 1)) `mod` 2)
       | SRType_ASR => ((s32 value / 2 ^ amount) `mod` 2 ^ 32, (s32 value / 2 ^ (amount - 1)) `mod` 2)
       | SRType_ROR =>
           let m := amount `mod` 32 in
           let result := value / 2 ^ m + (value `mod` 2 ^ m) * 2 ^ (32 - m) in (result, result / 2 ^ 31)
       | SRType_RRX => (carry * 2 ^ 31 + value / 2, value `mod` 2)
       end.

Definition DecodeRegShift (type : Z) : SRType :=
  if type =? 0 then SRType_LSL else if type =? 1 then SRType_LSR else if type =? 2 then SRType_ASR else SRType_ROR.
Definition DecodeImmShift (type imm5 : Z) : SRType * Z :=
  if type =? 0 then (SRType_LSL, imm5)
  else if type =? 1 then (SRType_LSR, if imm5 =? 0 then 32 else imm5)
  else if type =? 2 then (SRType_ASR, if imm5 =? 0 then 32 else imm5)
  else if imm5 =? 0 then (SRType_RRX, 1) else (SRType_ROR, imm5).

(** A field of an instruction word. *)
Definition field (inst a b : Z) : Z := (inst / 2 ^ a) `mod` 2 ^ (b - a + 1).

(** The second operand of a data-processing instruction: the value, the kind and the amount; nothing where
    the encodings of the multiplications and of the extra loads and stores are. *)
Definition operand2 (cpu : ARMul_State) (inst : Z) : option (Z * SRType * Z) :=
  if field inst 25 25 =? 1 then Some (field inst 0 7, SRType_ROR, 2 * field inst 8 11)
  else
    let rm := CHECK_READ_REG15 cpu (field inst 0 3) in
    if field inst 4 4 =? 0 then let '(type, amount) := DecodeImmShift (field inst 5 6) (field inst 7 11) in Some (rm, type, amount)
    else if field inst 7 7 =? 0 then
      Some (rm, DecodeRegShift (field inst 5 6), CHECK_READ_REG15 cpu (field inst 8 11) `mod` 2 ^ 8)
    else None.

(** The registers hold words and the flags bits. *)
Record arm_values (s : ARMul_State) : Prop := {
  av_length : length (Reg s) = 16%nat;
  av_reg : Forall word (Reg s);
  av_n : 0 <= NFlag s <= 1;
  av_z : 0 <= ZFlag s <= 1;
  av_c : 0 <= CFlag s <= 1;
  av_v : 0 <= VFlag s <= 1;
  av_t : 0 <= TFlag s <= 1;
  av_cpsr : word (Cpsr s) }.

(** ** Lemmas *)

Lemma BIT_div s n : 0 <= n → BIT s n = (s / 2 ^ n) `mod` 2.
Proof. intros Hn. rewrite BIT_b2z by done. by rewrite <- Z.testbit_spec' by done. Qed.

Lemma BITS_field s a b : word s → 0 <= a → a <= b <= 31 → BITS s a b = field s a b.
Proof. intros. by apply BITS_div. Qed.
Lemma BIT_field s a : word s → 0 <= a → BIT s a = field s a a.
Proof. intros. rewrite BIT_div by done. unfold field. by replace (a - a + 1) with 1 by lia. Qed.

Lemma field_range s a b : a <= b → 0 <= field s a b < 2 ^ (b - a + 1).
Proof. intros. unfold field. apply Z.mod_pos_bound. lia. Qed.
Lemma field_word s a b : 0 <= a → a <= b <= 31 → word (field s a b).
Proof.
  intros. pose proof (field_range s a b ltac:(lia)). unfold word. split; [lia|].
  apply Z.lt_le_trans with (2 ^ (b - a + 1)); [lia|]. apply Z.pow_le_mono_r; lia.
Qed.

(** A field of a field. *)
Lemma field_field s n a b : 0 <= a → a <= b < n → field (field s 0 (n - 1)) a b = field s a b.
Proof.
  intros. unfold field. rewrite Z.sub_0_r, Z.pow_0_r, Z.div_1_r. replace (n - 1 + 1) with n by lia.
  apply Z.bits_inj'. intros i Hi. rewrite !mod_pow2_testbit, !Z.div_pow2_bits, mod_pow2_testbit by lia.
  destruct (Z.ltb_spec i (b - a + 1)), (Z.ltb_spec (i + a) n); lia || done.
Qed.

(** Adjacent fields make one. *)
Lemma field_split s a b c : 0 <= a → a <= b < c → field s a c = field s a b + field s (b + 1) c * 2 ^ (b - a + 1).
Proof.
  intros. unfold field. set (w := b - a + 1) in *. replace (b + 1) with (a + w) by lia.
  rewrite (Z.pow_add_r 2 a w), <- Z.div_div by lia. replace (c - a + 1) with (w + (c - (a + w) + 1)) by lia.
  rewrite (Z.pow_add_r 2 w), Z.rem_mul_r by lia. lia.
Qed.

Lemma reg_word cpu n : arm_values cpu → 0 <= n <= 15 → word (reg n cpu).
Proof.
  intros H Hn. unfold reg. pose proof (av_reg _ H) as Hf. rewrite Forall_lookup in Hf.
  destruct (lookup_lt_is_Some_2 (Reg cpu) (Z.to_nat n)) as [x Hx]; [rewrite (av_length _ H); lia|].
  rewrite (list_lookup_total_correct _ _ _ Hx). by apply (Hf (Z.to_nat n)).
Qed.
Lemma read_reg_word cpu n : arm_values cpu → 0 <= n <= 15 → word (CHECK_READ_REG15 cpu n).
Proof. intros. unfold CHECK_READ_REG15. destruct (n =? 15); [apply u32_range|by apply reg_word]. Qed.
Lemma read_reg_wa_word cpu n : arm_values cpu → 0 <= n <= 15 → word (CHECK_READ_REG15_WA cpu n).
Proof. intros. unfold CHECK_READ_REG15_WA. destruct (n =? 15); [apply u32_range|by apply reg_word]. Qed.

(** The rotation. *)
Lemma rotate_value n i :
  word n → 0 <= i < 32 → ROTATE_RIGHT_32 n i = n / 2 ^ i + (n `mod` 2 ^ i) * 2 ^ (32 - i).
Proof.
  intros Hn Hi. unfold ROTATE_RIGHT_32. rewrite Z.lor_comm, Z.shiftl_mul_pow2, Z.shiftr_div_pow2 by lia.
  assert (u32 (n * 2 ^ (32 - i)) = (n `mod` 2 ^ i) * 2 ^ (32 - i)) as E.
  { unfold u32. replace (2 ^ 32) with (2 ^ i * 2 ^ (32 - i)) by (rewrite <- Z.pow_add_r by lia; f_equal; lia).
    rewrite Z.mul_mod_distr_r by lia. done. }
  rewrite E. rewrite <- (Z.shiftl_mul_pow2 (n `mod` 2 ^ i)) at 1 by lia. rewrite lor_shiftl_add; [done|lia|].
  split; [apply Z.div_pos; unfold word in *; lia|]. apply Z.div_lt_upper_bound; [lia|].
  rewrite <- Z.pow_add_r by lia. replace (i + (32 - i)) with 32 by lia. unfold word in *. lia.
Qed.

(** *** The kinds of shift as the routines compute them *)

Lemma shift_lsl v n c :
  word v → 0 < n →
  Shift_C v SRType_LSL n c =
    if n <? 32 then (u32 (Z.shiftl v n), BIT v (32 - n)) else if n =? 32 then (0, BIT v 0) else (0, 0).
Proof.
  intros Hv Hn. unfold Shift_C. rewrite (proj2 (Z.eqb_neq n 0)) by lia. destruct (Z.ltb_spec n 32).
  - rewrite Z.shiftl_mul_pow2, BIT_div by lia. f_equal. f_equal.
    replace (2 ^ 32) with (2 ^ (32 - n) * 2 ^ n) by (rewrite <- Z.pow_add_r by lia; f_equal; lia).
    by rewrite Z.div_mul_cancel_r by lia.
  - replace (v * 2 ^ n) with (v * 2 ^ (n - 32) * 2 ^ 32)
      by (replace n with (n - 32 + 32) at 2 by lia; rewrite (Z.pow_add_r 2 (n - 32)) by lia; lia).
    rewrite Z.mod_mul, Z.div_mul by lia. destruct (Z.eqb_spec n 32) as [->|].
    + rewrite BIT_div by lia. rewrite Z.pow_0_r, Z.mul_1_r, Z.div_1_r. done.
    + f_equal. replace (n - 32) with (n - 33 + 1) by lia. rewrite Z.pow_add_r, Z.mul_assoc by lia. apply Z.mod_mul. lia.
Qed.

Lemma shift_lsr v n c :
  word v → 0 < n →
  Shift_C v SRType_LSR n c =
    if n <? 32 then (Z.shiftr v n, BIT v (n - 1)) else if n =? 32 then (0, BIT v 31) else (0, 0).
Proof.
  intros Hv Hn. unfold Shift_C. rewrite (proj2 (Z.eqb_neq n 0)) by lia. unfold word in Hv.
  assert (∀ k, 32 <= k → v / 2 ^ k = 0) as Hz.
  { intros k Hk. apply Z.div_small. split; [lia|]. apply Z.lt_le_trans with (2 ^ 32); [lia|]. apply Z.pow_le_mono_r; lia. }
  destruct (Z.ltb_spec n 32); [by rewrite Z.shiftr_div_pow2, BIT_div by lia|]. rewrite Hz by lia.
  destruct (Z.eqb_spec n 32) as [->|]; [by rewrite BIT_div by lia|]. by rewrite Hz by lia.
Qed.

(** The sign does not change the lower bits. *)
Lemma s32_bits v n : word v → 0 <= n <= 31 → (s32 v / 2 ^ n) `mod` 2 = (v / 2 ^ n) `mod` 2.
Proof.
  intros Hv Hn. unfold s32. rewrite swrap_sign by (done || lia). destruct (Z.testbit v (32 - 1)); [|by rewrite Z.sub_0_r].
  replace (2 ^ 32) with (2 ^ (31 - n) * 2 * 2 ^ n) by (change 2 with (2 ^ 1) at 2; rewrite <- !Z.pow_add_r by lia; f_equal; lia).
  replace (v - 2 ^ (31 - n) * 2 * 2 ^ n) with (v + - (2 ^ (31 - n)) * 2 * 2 ^ n) by lia.
  rewrite Z.div_add by lia. apply Z.mod_add. lia.
Qed.

Lemma shift_asr v n c :
  word v → 0 < n →
  Shift_C v SRType_ASR n c =
    if n <? 32 then (u32 (Z.shiftr (s32 v) n), BIT v (n - 1)) else (if BIT v 31 =? 0 then 0 else 0xFFFFFFFF, BIT v 31).
Proof.
  intros Hv Hn. unfold Shift_C. rewrite (proj2 (Z.eqb_neq n 0)) by lia. destruct (Z.ltb_spec n 32).
  - rewrite Z.shiftr_div_pow2, BIT_div, s32_bits by (done || lia). done.
  - rewrite BIT_b2z by lia. unfold s32. rewrite swrap_sign by (done || lia). change (32 - 1) with 31.
    pose proof (testbit_sign 32 v ltac:(lia) Hv) as Ht. change (32 - 1) with 31 in Ht. unfold word in Hv.
    assert (∀ k, 31 <= k → 2 ^ 31 <= 2 ^ k) as Hp by (intros; apply Z.pow_le_mono_r; lia).
    pose proof (Hp n ltac:(lia)). pose proof (Hp (n - 1) ltac:(lia)). destruct (Z.testbit v 31); simpl Z.b2z; cbn [Z.eqb].
    + symmetry in Ht. apply Z.leb_le in Ht.
      assert (∀ k, 31 <= k → (v - 2 ^ 32) / 2 ^ k = -1) as Hm.
      { intros k Hk. specialize (Hp k Hk). symmetry. apply (Z.div_unique _ _ _ (v - 2 ^ 32 + 2 ^ k)); [left|]; lia. }
      by rewrite !Hm by lia.
    + symmetry in Ht. apply Z.leb_gt in Ht. rewrite !Z.div_small by lia. done.
Qed.

Lemma shift_ror v n c :
  word v → 0 < n →
  Shift_C v SRType_ROR n c =
    if n `mod` 32 =? 0 then (v, BIT v 31) else (ROTATE_RIGHT_32 v (n `mod` 32), BIT v (n `mod` 32 - 1)).
Proof.
  intros Hv Hn. unfold Shift_C. rewrite (proj2 (Z.eqb_neq n 0)) by lia. pose proof (Z.mod_pos_bound n 32 ltac:(lia)) as Hm.
  set (m := n `mod` 32) in *. cbv zeta. destruct (Z.eqb_spec m 0) as [->|].
  - rewrite BIT_div by lia. rewrite Z.pow_0_r, Z.mod_1_r, Z.div_1_r, Z.add_0_r. f_equal.
    symmetry. apply Z.mod_small. unfold word in Hv. split; [apply Z.div_pos; lia|]. apply Z.div_lt_upper_bound; lia.
  - rewrite rotate_value, BIT_div by (done || lia). f_equal. unfold word in Hv.
    assert (v `mod` 2 ^ m = v `mod` 2 ^ (m - 1) + 2 ^ (m - 1) * ((v / 2 ^ (m - 1)) `mod` 2)) as ->.
    { rewrite <- Z.rem_mul_r by lia. f_equal. change 2 with (2 ^ 1) at 3. rewrite <- Z.pow_add_r by lia. f_equal. lia. }
    set (b := (v / 2 ^ (m - 1)) `mod` 2). pose proof (Z.mod_pos_bound v (2 ^ (m - 1)) ltac:(lia)) as Hlow. set (low := v `mod` 2 ^ (m - 1)) in *.
    assert (v / 2 ^ m < 2 ^ (32 - m)) as Hhi.
    { apply Z.div_lt_upper_bound; [lia|]. rewrite <- Z.pow_add_r by lia. replace (m + (32 - m)) with 32 by lia. lia. }
    pose proof (Z.div_pos v (2 ^ m) ltac:(lia) ltac:(lia)).
    assert (2 ^ 31 = 2 ^ (m - 1) * 2 ^ (32 - m)) as E31 by (rewrite <- Z.pow_add_r by lia; f_equal; lia).
    symmetry. apply (Z.div_unique _ _ _ (v / 2 ^ m + low * 2 ^ (32 - m))); rewrite E31; [left; nia|lia].
Qed.

(** A routine of the shifter computes the shift of a value by a kind and an amount. *)
Definition computes (cpu : ARMul_State) (r : Z * ARMul_State) (value : Z) (type : SRType) (amount : Z) : Prop :=
  let '(result, carry) := Shift_C value type amount (CFlag cpu) in r = (result, set_shifter_carry_out carry cpu).

Lemma shift_zero v type c : Shift_C v type 0 c = (v, c).
Proof. done. Qed.

Section Routines.
Context (cpu : ARMul_State) (Hcpu : arm_values cpu) (sht_oper : Z) (Hop : 0 <= sht_oper < 2 ^ 12).
Lemma op_word : word sht_oper.
Proof. unfold word. lia. Qed.
Let rm := CHECK_READ_REG15 cpu (field sht_oper 0 3).
Let rs := CHECK_READ_REG15 cpu (field sht_oper 8 11).
Lemma rm_word : word rm.
Proof. apply read_reg_word; [done|]. pose proof (field_range sht_oper 0 3). lia. Qed.
Lemma rs_word : word rs.
Proof. apply read_reg_word; [done|]. pose proof (field_range sht_oper 8 11). lia. Qed.
Let amount := rs `mod` 2 ^ 8.
Lemma amount_bits : BITS rs 0 7 = amount.
Proof. rewrite BITS_field by (auto using op_word, rm_word, rs_word || lia). unfold field. by rewrite Z.pow_0_r, Z.div_1_r. Qed.
Lemma amount_low : BITS rs 0 4 = amount `mod` 32.
Proof.
  rewrite BITS_field by (auto using op_word, rm_word, rs_word || lia). unfold field, amount. rewrite Z.pow_0_r, Z.div_1_r. change (2 ^ (4 - 0 + 1)) with 32.
  change (2 ^ 8) with (32 * 8). rewrite Z.rem_mul_r by lia. rewrite Z.mul_comm, Z.mod_add, Z.mod_mod by lia. done.
Qed.
Lemma amount_pos : 0 <= amount.
Proof. apply Z.mod_pos_bound. lia. Qed.

Ltac routine :=
  unfold computes, RM, RS; rewrite ?(BITS_field sht_oper) by (auto using op_word, rm_word, rs_word || lia); fold rm rs; rewrite ?amount_bits, ?amount_low.

Lemma dpo_immediate : computes cpu (DPO_Immediate cpu sht_oper) (field sht_oper 0 7) SRType_ROR (2 * field sht_oper 8 11).
Proof.
  unfold DPO_Immediate. routine. pose proof (field_range sht_oper 8 11 ltac:(lia)) as Hr. pose proof (field_word sht_oper 0 7 ltac:(lia) ltac:(lia)) as Hi.
  rewrite Z.mul_comm. destruct (Z.eqb_spec (field sht_oper 8 11) 0) as [->|Hne].
  - rewrite Z.mul_0_l, shift_zero. rewrite rotate_value by (auto using op_word, rm_word, rs_word || lia). by rewrite Z.pow_0_r, Z.mod_1_r, Z.div_1_r, Z.add_0_r.
  - unfold Shift_C. rewrite (proj2 (Z.eqb_neq _ 0)) by lia. rewrite (Z.mod_small _ 32), rotate_value by (auto using op_word, rm_word, rs_word || lia). cbv zeta. do 2 f_equal.
    rewrite BIT_div by lia. apply Z.mod_small. set (i := field sht_oper 8 11 * 2) in *. unfold word in Hi.
    pose proof (Z.mod_pos_bound (field sht_oper 0 7) (2 ^ i) ltac:(lia)).
    pose proof (Z.div_pos (field sht_oper 0 7) (2 ^ i) ltac:(lia) ltac:(lia)).
    assert (2 ^ 32 = 2 ^ i * 2 ^ (32 - i)) as E by (rewrite <- Z.pow_add_r by lia; f_equal; lia).
    assert (field sht_oper 0 7 / 2 ^ i < 2 ^ (32 - i)) by (apply Z.div_lt_upper_bound; lia).
    split; [apply Z.div_pos; nia|]. apply Z.div_lt_upper_bound; [lia|]. change (2 ^ 31 * 2) with (2 ^ 32). rewrite E. nia.
Qed.

(** The amount of an immediate shift. *)
Definition by_immediate (r : Z * ARMul_State) (type : Z) : Prop :=
  let '(kind, n) := DecodeImmShift type (field sht_oper 7 11) in computes cpu r rm kind n.

Lemma dpo_lsl_imm : by_immediate (DPO_LogicalShiftLeftByImmediate cpu sht_oper) 0.
Proof.
  unfold by_immediate, DPO_LogicalShiftLeftByImmediate. cbn [DecodeImmShift Z.eqb Pos.eqb]. routine. pose proof (field_range sht_oper 7 11 ltac:(lia)).
  destruct (Z.eqb_spec (field sht_oper 7 11) 0) as [->|]; [done|]. rewrite shift_lsl by (auto using op_word, rm_word, rs_word || lia).
  by rewrite (proj2 (Z.ltb_lt _ 32)) by lia.
Qed.
Lemma dpo_lsr_imm : by_immediate (DPO_LogicalShiftRightByImmediate cpu sht_oper) 1.
Proof.
  unfold by_immediate, DPO_LogicalShiftRightByImmediate. cbn [DecodeImmShift Z.eqb Pos.eqb]. routine. pose proof (field_range sht_oper 7 11 ltac:(lia)).
  destruct (Z.eqb_spec (field sht_oper 7 11) 0); rewrite shift_lsr by (auto using op_word, rm_word, rs_word || lia); [done|].
  by rewrite (proj2 (Z.ltb_lt _ 32)) by lia.
Qed.
Lemma dpo_asr_imm : by_immediate (DPO_ArithmeticShiftRightByImmediate cpu sht_oper) 2.
Proof.
  unfold by_immediate, DPO_ArithmeticShiftRightByImmediate. cbn [DecodeImmShift Z.eqb Pos.eqb]. routine. pose proof (field_range sht_oper 7 11 ltac:(lia)).
  destruct (Z.eqb_spec (field sht_oper 7 11) 0); rewrite shift_asr by (auto using op_word, rm_word, rs_word || lia); [done|].
  by rewrite (proj2 (Z.ltb_lt _ 32)) by lia.
Qed.
Lemma dpo_ror_imm : by_immediate (DPO_RotateRightByImmediate cpu sht_oper) 3.
Proof.
  unfold by_immediate, DPO_RotateRightByImmediate. cbn [DecodeImmShift Z.eqb Pos.eqb]. routine. pose proof (field_range sht_oper 7 11 ltac:(lia)).
  destruct (Z.eqb_spec (field sht_oper 7 11) 0).
  - unfold computes, Shift_C. cbn [Z.eqb]. pose proof (av_c _ Hcpu). pose proof rm_word as Hr. unfold word in Hr.
    rewrite BIT_div, Z.pow_0_r, Z.div_1_r by lia. do 2 f_equal. rewrite Z.lor_comm, Z.shiftr_div_pow2 by lia.
    assert (u32 (Z.shiftl (CFlag cpu) 31) = Z.shiftl (CFlag cpu) 31) as -> by (apply u32_id; rewrite Z.shiftl_mul_pow2 by lia; lia).
    change (2 ^ 1) with 2. rewrite lor_shiftl_add; [lia..|]. split; [apply Z.div_pos; lia|apply Z.div_lt_upper_bound; lia].
  - unfold computes. rewrite shift_ror by (auto using op_word, rm_word, rs_word || lia). rewrite Z.mod_small by lia.
    by rewrite (proj2 (Z.eqb_neq (field sht_oper 7 11) 0)) by lia.
Qed.

Lemma dpo_lsl_reg : computes cpu (DPO_LogicalShiftLeftByRegister cpu sht_oper) rm SRType_LSL amount.
Proof.
  unfold DPO_LogicalShiftLeftByRegister. routine. pose proof amount_pos. destruct (Z.eqb_spec amount 0) as [->|]; [done|]. rewrite shift_lsl by (auto using op_word, rm_word, rs_word || lia).
  destruct (amount <? 32); [done|]. by destruct (amount =? 32).
Qed.
Lemma dpo_lsr_reg : computes cpu (DPO_LogicalShiftRightByRegister cpu sht_oper) rm SRType_LSR amount.
Proof.
  unfold DPO_LogicalShiftRightByRegister. routine. pose proof amount_pos. destruct (Z.eqb_spec amount 0) as [->|]; [done|]. rewrite shift_lsr by (auto using op_word, rm_word, rs_word || lia).
  destruct (amount <? 32); [done|]. by destruct (amount =? 32).
Qed.
Lemma dpo_asr_reg : computes cpu (DPO_ArithmeticShiftRightByRegister cpu sht_oper) rm SRType_ASR amount.
Proof.
  unfold DPO_ArithmeticShiftRightByRegister. routine. pose proof amount_pos. destruct (Z.eqb_spec amount 0) as [->|]; [done|]. rewrite shift_asr by (auto using op_word, rm_word, rs_word || lia).
  by destruct (amount <? 32).
Qed.
Lemma dpo_ror_reg : computes cpu (DPO_RotateRightByRegister cpu sht_oper) rm SRType_ROR amount.
Proof.
  unfold DPO_RotateRightByRegister. routine. pose proof amount_pos. destruct (Z.eqb_spec amount 0) as [->|]; [done|]. rewrite shift_ror by (auto using op_word, rm_word, rs_word || lia).
  by destruct (amount `mod` 32 =? 0).
Qed.
End Routines.

(** The routine that the fields select. *)
Definition shifter_routine (I type imm5 b4 b7 : Z) : option (ARMul_State → Z → Z * ARMul_State) :=
  if I =? 1 then Some DPO_Immediate
  else if b4 =? 0 then
    Some (if type =? 0 then if imm5 =? 0 then DPO_Register else DPO_LogicalShiftLeftByImmediate
          else if type =? 1 then DPO_LogicalShiftRightByImmediate
          else if type =? 2 then DPO_ArithmeticShiftRightByImmediate else DPO_RotateRightByImmediate)
  else if b7 =? 0 then
    Some (if type =? 0 then DPO_LogicalShiftLeftByRegister else if type =? 1 then DPO_LogicalShiftRightByRegister
          else if type =? 2 then DPO_ArithmeticShiftRightByRegister else DPO_RotateRightByRegister)
  else None.

Lemma shifter_select inst :
  word inst → GetShifterOp inst = shifter_routine (field inst 25 25) (field inst 5 6) (field inst 7 11) (field inst 4 4) (field inst 7 7).
Proof.
  intros Hi. unfold GetShifterOp, shifter_routine. rewrite BIT_field, !BITS_field by (done || lia).
  rewrite (field_split inst 4 6 11), (field_split inst 4 6 7), (field_split inst 4 4 6) by lia.
  change (4 + 1) with 5. change (6 + 1) with 7. change (2 ^ (4 - 4 + 1)) with 2. change (2 ^ (6 - 4 + 1)) with 8.
  pose proof (field_range inst 25 25 ltac:(lia)). pose proof (field_range inst 7 11 ltac:(lia)). pose proof (field_range inst 7 7 ltac:(lia)).
  pose proof (field_range inst 4 4 ltac:(lia)). pose proof (field_range inst 5 6 ltac:(lia)).
  generalize dependent (field inst 25 25). generalize dependent (field inst 7 11). generalize dependent (field inst 7 7).
  generalize dependent (field inst 4 4). generalize dependent (field inst 5 6). intros t Ht b4 H4 b7 H7 n Hn I HI.
  assert (I = 0 ∨ I = 1) as [->| ->] by lia; [|done]. cbn [truth negb Z.eqb].
  assert (t = 0 ∨ t = 1 ∨ t = 2 ∨ t = 3) as [->|[->|[->| ->]]] by lia; assert (b4 = 0 ∨ b4 = 1) as [->| ->] by lia;
    assert (b7 = 0 ∨ b7 = 1) as [->| ->] by lia; repeat (case_match; try done; try lia).
Qed.

Lemma shifter_operand_correct cpu inst :
  word inst → arm_values cpu →
  match operand2 cpu inst with
  | Some (value, type, amount) =>
      ∃ f, GetShifterOp inst = Some f ∧ computes cpu (f cpu (BITS inst 0 11)) value type amount
  | None => GetShifterOp inst = None
  end.
Proof.
  intros Hi Hc. rewrite shifter_select, BITS_field by (done || lia). unfold operand2, shifter_routine.
  pose proof (field_range inst 0 11 ltac:(lia)) as Hop.
  assert (∀ a b, 0 <= a → a <= b < 12 → field (field inst 0 11) a b = field inst a b) as Hf by (intros; by apply (field_field inst 12)).
  pose proof (dpo_immediate cpu _ Hop) as L0. pose proof (dpo_lsl_imm cpu Hc _ Hop) as L1. pose proof (dpo_lsr_imm cpu Hc _ Hop) as L2.
  pose proof (dpo_asr_imm cpu Hc _ Hop) as L3. pose proof (dpo_ror_imm cpu Hc _ Hop) as L4.
  pose proof (dpo_lsl_reg cpu Hc _ Hop) as L5. pose proof (dpo_lsr_reg cpu Hc _ Hop) as L6.
  pose proof (dpo_asr_reg cpu Hc _ Hop) as L7. pose proof (dpo_ror_reg cpu Hc _ Hop) as L8.
  unfold by_immediate in *. rewrite !Hf in * by lia. destruct (field inst 25 25 =? 1); [eauto|].
  pose proof (field_range inst 5 6 ltac:(lia)) as Ht.
  assert (field inst 5 6 = 0 ∨ field inst 5 6 = 1 ∨ field inst 5 6 = 2 ∨ field inst 5 6 = 3) as [E|[E|[E|E]]] by lia; rewrite E;
    (destruct (field inst 4 4 =? 0); [|destruct (field inst 7 7 =? 0); [|done]; eexists; split; [reflexivity|assumption]]).
  2-4: match goal with L : let '(kind, n) := ?d in _ |- context [?d] => destruct d as [kind n] end; eexists; split; [reflexivity|assumption].
  cbn [DecodeImmShift Z.eqb] in *. destruct (Z.eqb_spec (field inst 7 11) 0) as [E0|]; [|by eauto].
  exists DPO_Register. split; [done|]. rewrite E0. unfold computes, DPO_Register, RM. rewrite shift_zero, BITS_field by (unfold word; lia). by rewrite Hf by lia.
Qed.

(** C26: The second operand of a data-processing instruction is the one of the manual, with its carry: the routine that
    the decoder selects shifts the value of the manual by the kind and the amount of the manual, for each of the
    ten forms, a shift by 32 and by more than 32 included; there is no routine exactly for the
    encodings that are not data-processing instructions. *)
Theorem shifter_operand_spec cpu inst :
  word inst → arm_values cpu →
  match operand2 cpu inst with
  | Some (value, type, amount) =>
      ∃ f, GetShifterOp inst = Some f ∧ computes cpu (f cpu (BITS inst 0 11)) value type amount
  | None => GetShifterOp inst = None
  end.
Proof. apply shifter_operand_correct. Qed.

(** *** Addressing modes *)

Definition offset_address (inst base offset : Z) : Z := if field inst 23 23 =? 1 then u32 (base + offset) else u32 (base - offset).

(** The address and the new value of the base register for the bits P and W; the unprivileged accesses have P = 0
    and W = 1 and are selected apart. *)
Definition indexed (inst base offset : Z) : option (Z * option Z) :=
  let oa := offset_address inst base offset in
  if field inst 24 24 =? 1 then Some (oa, if field inst 21 21 =? 1 then Some oa else None)
  else if field inst 21 21 =? 1 then None else Some (base, Some oa).

(** The lowest address of a multiple transfer, and the new base. *)
Definition multiple (inst base : Z) : Z * option Z :=
  let n := 4 * register_count inst in
  let P := field inst 24 24 =? 1 in
  let up := field inst 23 23 =? 1 in
  (u32 (if up then if P then base + 4 else base else if P then base - n else base - n + 4),
   if field inst 21 21 =? 1 then Some (u32 (if up then base + n else base - n)) else None).

(** The offset of a load or store of a word or a byte in its register form. *)
Definition scaled_offset (cpu : ARMul_State) (inst : Z) : Z :=
  let '(kind, n) := DecodeImmShift (field inst 5 6) (field inst 7 11) in
  fst (Shift_C (CHECK_READ_REG15_WA cpu (field inst 0 3)) kind n (CFlag cpu)).

Definition architected_address (cpu : ARMul_State) (inst : Z) : option (Z * option Z) :=
  let base := CHECK_READ_REG15_WA cpu (field inst 16 19) in
  let c := field inst 25 27 in
  if c =? 2 then indexed inst base (field inst 0 11)
  else if c =? 3 then if field inst 4 4 =? 1 then None else indexed inst base (scaled_offset cpu inst)
  else if (c =? 0) && (field inst 7 7 =? 1) && (field inst 4 4 =? 1) then
    indexed inst base (if field inst 22 22 =? 1 then field inst 8 11 * 16 + field inst 0 3 else CHECK_READ_REG15_WA cpu (field inst 0 3))
  else if c =? 4 then Some (multiple inst base)
  else None.

(** The same for the unprivileged accesses. *)
Definition architected_address_T (cpu : ARMul_State) (inst : Z) : option (Z * option Z) :=
  let base := CHECK_READ_REG15_WA cpu (field inst 16 19) in
  if field inst 25 27 =? 2 then Some (base, Some (offset_address inst base (field inst 0 11)))
  else if field inst 25 27 =? 3 then Some (base, Some (offset_address inst base (scaled_offset cpu inst)))
  else None.

(** The effect of a routine that gives an address and a new base. *)
Definition addresses (inst : Z) (cpu : ARMul_State) (r : Z * option Z) : Z * ARMul_State :=
  (fst r, match snd r with Some v => put_reg (field inst 16 19) v cpu | None => cpu end).

(** The routine that the fields select. *)
Definition addressing_routine (c P U b22 W b4 b7 : Z) (plain : bool) : option get_addr_fp :=
  if c =? 2 then
    if P =? 1 then Some (if W =? 1 then LnSWoUB_ImmediatePreIndexed else LnSWoUB_ImmediateOffset)
    else if W =? 1 then None else Some LnSWoUB_ImmediatePostIndexed
  else if c =? 3 then
    if b4 =? 1 then None
    else if P =? 1 then
      Some (if W =? 1 then if plain then LnSWoUB_RegisterPreIndexed else LnSWoUB_ScaledRegisterPreIndexed
            else if plain then LnSWoUB_RegisterOffset else LnSWoUB_ScaledRegisterOffset)
    else if W =? 1 then None else Some (if plain then LnSWoUB_RegisterPostIndexed else LnSWoUB_ScaledRegisterPostIndexed)
  else if (c =? 0) && (b7 =? 1) && (b4 =? 1) then
    if P =? 1 then
      Some (if W =? 1 then if b22 =? 1 then MLnS_ImmediatePreIndexed else MLnS_RegisterPreIndexed
            else if b22 =? 1 then MLnS_ImmediateOffset else MLnS_RegisterOffset)
    else if W =? 1 then None else Some (if b22 =? 1 then MLnS_ImmediatePostIndexed else MLnS_RegisterPostIndexed)
  else if c =? 4 then
    Some (if U =? 1 then if P =? 1 then LdnStM_IncrementBefore else LdnStM_IncrementAfter
          else if P =? 1 then LdnStM_DecrementBefore else LdnStM_DecrementAfter)
  else None.

Ltac field_cases x lo hi :=
  let H := fresh in
  pose proof (field_range x lo hi ltac:(lia)) as H; generalize dependent (field x lo hi); intros ? H.

Lemma addressing_select inst :
  word inst →
  GetAddressingOp inst =
    addressing_routine (field inst 25 27) (field inst 24 24) (field inst 23 23) (field inst 22 22) (field inst 21 21)
      (field inst 4 4) (field inst 7 7) ((field inst 5 6 =? 0) && (field inst 7 11 =? 0)).
Proof.
  intros Hi. unfold GetAddressingOp, addressing_routine. rewrite !BIT_field, !BITS_field by (done || lia).
  rewrite (field_split inst 23 23 27), (field_split inst 24 24 27), (field_split inst 21 21 22), (field_split inst 4 6 11), (field_split inst 4 4 6) by lia.
  change (4 + 1) with 5. change (6 + 1) with 7. change (23 + 1) with 24. change (24 + 1) with 25. change (21 + 1) with 22.
  change (2 ^ (4 - 4 + 1)) with 2. change (2 ^ (6 - 4 + 1)) with 8. change (2 ^ (23 - 23 + 1)) with 2. change (2 ^ (24 - 24 + 1)) with 2. change (2 ^ (21 - 21 + 1)) with 2.
  assert (field inst 7 7 = 0 ∨ field inst 7 7 = 1) as H7 by (pose proof (field_range inst 7 7); lia).
  generalize dependent (field inst 7 7).
  field_cases inst 7 11; field_cases inst 5 6; field_cases inst 4 4; field_cases inst 21 21; field_cases inst 22 22; field_cases inst 23 23.
  rewrite (field_split inst 24 24 27) by lia. change (24 + 1) with 25. change (2 ^ (24 - 24 + 1)) with 2.
  field_cases inst 24 24. field_cases inst 25 27. intros b7 H7.
  assert ((z1 + z0 * 2 + z * 8 =? 0) = (z1 =? 0) && ((z0 =? 0) && (z =? 0))) as ->.
  { destruct (Z.eqb_spec z1 0), (Z.eqb_spec z0 0), (Z.eqb_spec z 0), (Z.eqb_spec (z1 + z0 * 2 + z * 8) 0); try done; lia. }
  generalize ((z0 =? 0) && (z =? 0)). intros plain.
  assert (∀ x, 0 <= x < 2 → x = 0 ∨ x = 1) as H01 by lia.
  assert (z6 = 0 ∨ z6 = 1 ∨ z6 = 2 ∨ z6 = 3 ∨ z6 = 4 ∨ z6 = 5 ∨ z6 = 6 ∨ z6 = 7) as H6' by lia.
  destruct (H01 z1 H1) as [->| ->], (H01 z2 H2) as [->| ->], (H01 z3 H3) as [->| ->], (H01 z4 H4) as [->| ->], (H01 z5 H5) as [->| ->], plain;
    destruct H7 as [->| ->]; destruct H6' as [->|[->|[->|[->|[->|[->|[->| ->]]]]]]]; reflexivity.
Qed.

Section Addressing.
Context (cpu : ARMul_State) (inst : Z) (Hcpu : arm_values cpu) (Hinst : word inst) (Hpassed : CondPassed cpu (BITS inst 28 31) = true).
Let n := field inst 16 19.
Let base := CHECK_READ_REG15_WA cpu n.
Let rm := CHECK_READ_REG15_WA cpu (field inst 0 3).

Lemma up_down_eq b o : up_down inst b o = offset_address inst b o.
Proof.
  unfold up_down, offset_address, U_BIT. rewrite BIT_field by (done || lia). pose proof (field_range inst 23 23 ltac:(lia)).
  assert (field inst 23 23 = 0 ∨ field inst 23 23 = 1) as [->| ->] by lia; done.
Qed.

Lemma if_passed_eq f : if_passed inst f cpu = f cpu.
Proof. unfold if_passed. by rewrite Hpassed. Qed.

Lemma base_word : word base.
Proof. apply read_reg_wa_word; [done|]. pose proof (field_range inst 16 19). unfold n. lia. Qed.
Lemma index_word : word rm.
Proof. apply read_reg_wa_word; [done|]. pose proof (field_range inst 0 3). lia. Qed.

Lemma scaled_index_eq : scaled_index cpu inst rm = scaled_offset cpu inst.
Proof.
  unfold scaled_index, scaled_offset. fold rm. rewrite !BITS_field by (done || lia). pose proof index_word as Hrm.
  pose proof (field_range inst 5 6 ltac:(lia)). pose proof (field_range inst 7 11 ltac:(lia)). set (i := field inst 7 11) in *.
  assert (field inst 5 6 = 0 ∨ field inst 5 6 = 1 ∨ field inst 5 6 = 2 ∨ field inst 5 6 = 3) as [->|[->|[->| ->]]] by lia; cbn [DecodeImmShift Z.eqb Pos.eqb].
  - destruct (Z.eqb_spec i 0) as [->|]; [rewrite shift_zero, Z.shiftl_0_r; by apply u32_id|].
    rewrite shift_lsl by (done || lia). by rewrite (proj2 (Z.ltb_lt i 32)) by lia.
  - destruct (Z.eqb_spec i 0) as [->|]; rewrite shift_lsr by (done || lia); [done|]. by rewrite (proj2 (Z.ltb_lt i 32)) by lia.
  - destruct (Z.eqb_spec i 0) as [->|]; rewrite shift_asr by (done || lia).
    + cbn [Z.ltb Z.compare Pos.compare Pos.compare_cont fst]. rewrite BIT_b2z by lia. by destruct (Z.testbit rm 31).
    + by rewrite (proj2 (Z.ltb_lt i 32)) by lia.
  - destruct (Z.eqb_spec i 0) as [->|].
    + unfold Shift_C. cbn [Z.eqb fst]. pose proof (av_c _ Hcpu). unfold word in Hrm. rewrite Z.lor_comm, Z.shiftr_div_pow2 by lia.
      assert (u32 (Z.shiftl (CFlag cpu) 31) = Z.shiftl (CFlag cpu) 31) as -> by (apply u32_id; rewrite Z.shiftl_mul_pow2 by lia; lia).
      change (2 ^ 1) with 2. rewrite lor_shiftl_add; [lia..|]. split; [apply Z.div_pos; lia|apply Z.div_lt_upper_bound; lia].
    + rewrite shift_ror by (done || lia). rewrite Z.mod_small by lia. by rewrite (proj2 (Z.eqb_neq i 0)) by lia.
Qed.

(** The register form without a shift. *)
Lemma plain_offset : (field inst 5 6 =? 0) && (field inst 7 11 =? 0) = true → scaled_offset cpu inst = rm.
Proof. intros [?%Z.eqb_eq E%Z.eqb_eq]%andb_true_iff. unfold scaled_offset. by rewrite H, E. Qed.

Lemma offset_8_eq : offset_8 inst = field inst 8 11 * 16 + field inst 0 3.
Proof.
  unfold offset_8. rewrite !BITS_field by (done || lia). rewrite Z.lor_comm. pose proof (field_range inst 0 3 ltac:(lia)).
  rewrite lor_shiftl_add by lia. lia.
Qed.

Lemma base_reg : n ≠ 15 → reg n cpu = base.
Proof. intros Hn. unfold base, CHECK_READ_REG15_WA. by rewrite (proj2 (Z.eqb_neq n 15)). Qed.

Lemma write_back_eq f :
  (field inst 21 21 = 1 → n ≠ 15) → write_back inst f cpu = if field inst 21 21 =? 1 then put_reg n (u32 (f base)) cpu else cpu.
Proof.
  intros Hn. unfold write_back. rewrite Hpassed, BIT_field, BITS_field by (done || lia). fold n. pose proof (field_range inst 21 21 ltac:(lia)).
  assert (field inst 21 21 = 0 ∨ field inst 21 21 = 1) as [E|E] by lia; rewrite E; [done|]. cbn. by rewrite base_reg by auto.
Qed.

Ltac mode := rewrite ?BITS_field by (done || lia); fold n; fold base; fold rm;
  rewrite ?if_passed_eq, ?up_down_eq, ?scaled_index_eq, ?offset_8_eq, ?base_reg by done.

(** Three routines for one offset make the indexed mode. *)
Lemma select_indexed (f_off f_pre f_post : get_addr_fp) offset :
  let oa := offset_address inst base offset in
  f_off cpu inst = (oa, cpu) → f_pre cpu inst = (oa, put_reg n oa cpu) → (n ≠ 15 → f_post cpu inst = (base, put_reg n oa cpu)) →
  (is_Some (indexed inst base offset ≫= snd) → n ≠ 15) →
  (f ← (if field inst 24 24 =? 1 then Some (if field inst 21 21 =? 1 then f_pre else f_off)
        else if field inst 21 21 =? 1 then None else Some f_post); Some (f cpu inst)) =
  addresses inst cpu <$> indexed inst base offset.
Proof.
  cbv zeta. intros E1 E2 E3. unfold indexed, addresses. fold n. destruct (field inst 24 24 =? 1), (field inst 21 21 =? 1); cbn [mbind option_bind fmap option_fmap option_map fst snd]; intros Hn.
  - by rewrite E2.
  - by rewrite E1.
  - done.
  - by rewrite E3 by eauto.
Qed.

(** The routines without a new base. *)
Lemma offset_forms :
  LnSWoUB_ImmediateOffset cpu inst = (offset_address inst base (field inst 0 11), cpu) ∧
  LnSWoUB_RegisterOffset cpu inst = (offset_address inst base rm, cpu) ∧
  LnSWoUB_ScaledRegisterOffset cpu inst = (offset_address inst base (scaled_offset cpu inst), cpu) ∧
  MLnS_ImmediateOffset cpu inst = (offset_address inst base (field inst 8 11 * 16 + field inst 0 3), cpu) ∧
  MLnS_RegisterOffset cpu inst = (offset_address inst base rm, cpu).
Proof.
  unfold LnSWoUB_ImmediateOffset, LnSWoUB_RegisterOffset, LnSWoUB_ScaledRegisterOffset, MLnS_ImmediateOffset, MLnS_RegisterOffset, OFFSET_12.
  by mode.
Qed.
Lemma pre_forms :
  let pre o := (offset_address inst base o, put_reg n (offset_address inst base o) cpu) in
  LnSWoUB_ImmediatePreIndexed cpu inst = pre (field inst 0 11) ∧
  LnSWoUB_RegisterPreIndexed cpu inst = pre rm ∧
  LnSWoUB_ScaledRegisterPreIndexed cpu inst = pre (scaled_offset cpu inst) ∧
  MLnS_ImmediatePreIndexed cpu inst = pre (field inst 8 11 * 16 + field inst 0 3) ∧
  MLnS_RegisterPreIndexed cpu inst = pre rm.
Proof.
  unfold LnSWoUB_ImmediatePreIndexed, LnSWoUB_RegisterPreIndexed, LnSWoUB_ScaledRegisterPreIndexed, MLnS_ImmediatePreIndexed,
    MLnS_RegisterPreIndexed, OFFSET_12.
  by mode.
Qed.
Lemma post_forms :
  n ≠ 15 →
  let post o := (base, put_reg n (offset_address inst base o) cpu) in
  LnSWoUB_ImmediatePostIndexed cpu inst = post (field inst 0 11) ∧
  LnSWoUB_RegisterPostIndexed cpu inst = post rm ∧
  LnSWoUB_ScaledRegisterPostIndexed cpu inst = post (scaled_offset cpu inst) ∧
  MLnS_ImmediatePostIndexed cpu inst = post (field inst 8 11 * 16 + field inst 0 3) ∧
  MLnS_RegisterPostIndexed cpu inst = post rm.
Proof.
  intros Hn. unfold LnSWoUB_ImmediatePostIndexed, LnSWoUB_RegisterPostIndexed, LnSWoUB_ScaledRegisterPostIndexed, MLnS_ImmediatePostIndexed,
    MLnS_RegisterPostIndexed, OFFSET_12.
  by mode.
Qed.
Lemma multiple_forms :
  (field inst 21 21 = 1 → n ≠ 15) →
  addresses inst cpu (multiple inst base) =
    (if field inst 23 23 =? 1 then if field inst 24 24 =? 1 then LdnStM_IncrementBefore else LdnStM_IncrementAfter
     else if field inst 24 24 =? 1 then LdnStM_DecrementBefore else LdnStM_DecrementAfter) cpu inst.
Proof.
  intros Hn. unfold addresses, multiple. cbn [fst snd]. fold n. pose proof base_word as Hb.
  destruct (field inst 23 23 =? 1), (field inst 24 24 =? 1);
    unfold LdnStM_IncrementBefore, LdnStM_IncrementAfter, LdnStM_DecrementBefore, LdnStM_DecrementAfter;
    rewrite write_back_eq, BITS_field by (done || lia); fold n; fold base; rewrite ?(u32_id base) by done;
    (apply (f_equal2 pair); [first [done|f_equal; lia]|destruct (field inst 21 21 =? 1); [do 2 f_equal; lia|done]]).
Qed.

End Addressing.

(** C27: The address of a load or a store, and the new value of the base register, are those of the manual: for every
    instruction word the decoder selects a routine exactly where the manual has an addressing mode, and the routine is
    the formula in the base, the offset and the bits P, U and W, for words and bytes with
    immediate, register and scaled register offsets, for halfwords, for multiple registers and
    for unprivileged accesses.  The condition of the instruction holds, and the program counter is not written back. *)
Theorem addressing_spec cpu inst :
  word inst → arm_values cpu → CondPassed cpu (BITS inst 28 31) = true →
  ((is_Some (architected_address cpu inst ≫= snd) → field inst 16 19 ≠ 15) →
   (f ← GetAddressingOp inst; Some (f cpu inst)) = addresses inst cpu <$> architected_address cpu inst) ∧
  (field inst 16 19 ≠ 15 →
   (f ← GetAddressingOpLoadStoreT inst; Some (f cpu inst)) = addresses inst cpu <$> architected_address_T cpu inst).
Proof.
  intros Hi Hc Hp. destruct (offset_forms cpu inst Hc Hi) as (O1 & O2 & O3 & O4 & O5).
  destruct (pre_forms cpu inst Hc Hi Hp) as (P1 & P2 & P3 & P4 & P5). pose proof (post_forms cpu inst Hc Hi Hp) as Hpost.
  pose proof (multiple_forms cpu inst Hc Hi Hp) as M. pose proof (plain_offset cpu inst) as Hplain.
  split; intros Hn.
  - rewrite addressing_select by done. unfold addressing_routine. unfold architected_address in *.
    destruct (field inst 25 27 =? 2); [by apply select_indexed; try (intros; apply Hpost)|].
    destruct (field inst 25 27 =? 3).
    { destruct (field inst 4 4 =? 1); [done|].
      destruct ((field inst 5 6 =? 0) && (field inst 7 11 =? 0)); [rewrite Hplain in * by done|]; by apply select_indexed; try (intros; apply Hpost). }
    destruct ((field inst 25 27 =? 0) && (field inst 7 7 =? 1) && (field inst 4 4 =? 1)).
    { destruct (field inst 22 22 =? 1); by apply select_indexed; try (intros; apply Hpost). }
    destruct (field inst 25 27 =? 4); [|done]. cbn [fmap option_fmap option_map mbind option_bind] in *. rewrite M; [done|].
    intros E. apply Hn. unfold multiple. rewrite E. cbn. eauto.
  - destruct (Hpost Hn) as (Q1 & Q2 & Q3 & _). unfold GetAddressingOpLoadStoreT, architected_address_T. rewrite !BITS_field by (done || lia).
    destruct (field inst 25 27 =? 2); cbn; [by rewrite Q1|]. destruct (field inst 25 27 =? 3); cbn; [by rewrite Q3|done].
Qed.

(** ** Examples *)

Module Examples.
Import ArmState.Examples.

Lemma user_values : arm_values user.
Proof.
  split; [reflexivity| |vm_compute; split; (discriminate || reflexivity)..]. apply (Forall_seqZ word 100 16). intros x Hx. unfold word. lia.
Defined.

(** [ADDS r0, r1, r2, ROR #4]. *)
Lemma shifter_operand_spec_witness :
  ∃ f, GetShifterOp 0xE0910262 = Some f ∧ computes user (f user (BITS 0xE0910262 0 11)) 102 SRType_ROR 4.
Proof.
  pose proof (shifter_operand_spec user 0xE0910262 ltac:(unfold word; lia) user_values) as H. exact H.
Defined.

(** [LDR r0, [r1, #4]!]. *)
Lemma addressing_spec_witness :
  (f ← GetAddressingOp 0xE5B10004; Some (f user 0xE5B10004)) = addresses 0xE5B10004 user <$> architected_address user 0xE5B10004 ∧
  architected_address user 0xE5B10004 = Some (105, Some 105).
Proof.
  split; [|vm_compute; reflexivity].
  apply (addressing_spec user 0xE5B10004); [unfold word; lia|exact user_values|reflexivity|]. intros _. vm_compute. discriminate.
Defined.

End Examples.
