(* ===== verification/ArmExec.v ===== *)
(** * The instructions of the interpreter
    ([src/src/core/arm/dyncom/arm_dyncom_interpreter.cpp], [arm_dyncom_trans.cpp])

    One definition per label of the interpreter loop, for the instructions of integers, of memory and of
    control.  A routine gets the instruction word, from which it takes the fields that the
    translation of [arm_dyncom_trans.cpp] stores; it gives the state, the memory, and whether it jumped to
    [DISPATCH].  [conditional] and [finish] are the frame that the labels share: the
    test of the condition, and the step of the program counter when there was no jump.

    Nothing is the result where the source fails an assertion, calls a null pointer or leaves the
    array of the registers. *)

From stdpp Require Import base list.
From S2P Require Import Prelude ArmSupp Memory ArmState ArmOperands.

Definition AL : Z := 14.

(** The fields of an instruction that the translation reads for most instructions. *)
Definition f_Rn (inst : Z) : Z := BITS inst 16 19.
Definition f_Rd (inst : Z) : Z := BITS inst 12 15.
Definition f_Rm (inst : Z) : Z := BITS inst 0 3.
Definition f_Rs (inst : Z) : Z := BITS inst 8 11.
Definition f_S (inst : Z) : Z := BIT inst 20.
Definition f_I (inst : Z) : Z := BIT inst 25.
Definition f_op2 (inst : Z) : Z := BITS inst 5 7.

(** The register file at an index that can be 16. *)
Definition reg_at (n : Z) (s : ARMul_State) : option Z := Reg s !! Z.to_nat n.
Definition put_reg_at (n v : Z) (s : ARMul_State) : option ARMul_State := ASSERT (n <? 16) ;; Some (put_reg n v s).

Definition next_pc (s : ARMul_State) : ARMul_State := put_reg 15 (u32 (reg 15 s + GetInstructionSize s)) s.

(** The flags from the register that was written. *)
Definition update_nz (r : Z) (s : ARMul_State) : ARMul_State := UPDATE_ZFLAG (reg r s) (UPDATE_NFLAG (reg r s) s).
Definition set_q (s : ARMul_State) : ARMul_State := set_Cpsr (Z.lor (Cpsr s) (Z.shiftl 1 27)) s.
Definition set_q_if (b : bool) (s : ARMul_State) : ARMul_State := if b then set_q s else s.

(** ** Data processing *)

(** The operand from the shifter; the pointer is null for words that are no data-processing instructions. *)
Definition SHIFTER_OPERAND (inst : Z) (s : ARMul_State) : option (Z * ARMul_State) :=
  f ← GetShifterOp inst; Some (f s (BITS inst 0 11)).

(** The first operand, two instructions ahead for the program counter. *)
Definition RN_ahead (inst : Z) (s : ARMul_State) : Z :=
  let rn := reg (f_Rn inst) s in if f_Rn inst =? 15 then u32 (rn + 2 * GetInstructionSize s) else rn.

Definition restore_cpsr (s : ARMul_State) : ARMul_State :=
  if CurrentModeHasSPSR s then
    let s := set_Cpsr (Spsr_copy s) s in LOAD_NZCVT (ChangePrivilegeMode (Z.land (Cpsr s) 0x1F) s)
  else s.

(** What follows the write of the result: the flags, or the saved status for a write of the program counter. *)
Definition logical_flags (inst : Z) (s : ARMul_State) : ARMul_State * bool :=
  let Rd := f_Rd inst in
  let s := if truth (f_S inst) && (Rd =? 15) then restore_cpsr s
           else if truth (f_S inst) then UPDATE_CFLAG_WITH_SC (update_nz Rd s) else s in
  (s, Rd =? 15).
Definition arith_flags (inst : Z) (carry overflow : bool) (s : ARMul_State) : ARMul_State * bool :=
  let Rd := f_Rd inst in
  let s := if truth (f_S inst) && (Rd =? 15) then restore_cpsr s
           else if truth (f_S inst) then set_VFlag (Z.b2z overflow) (set_CFlag (Z.b2z carry) (update_nz Rd s)) else s in
  (s, Rd =? 15).

Definition logical (inst : Z) (f : Z → Z → Z) (s : ARMul_State) : option (ARMul_State * bool) :=
  let lop := RN_ahead inst s in
  '(rop, s) ← SHIFTER_OPERAND inst s;
  Some (logical_flags inst (put_reg (f_Rd inst) (f lop rop) s)).
Definition arith (inst : Z) (rn_val : Z) (f : Z → Z → Z * bool * bool) (s : ARMul_State) : option (ARMul_State * bool) :=
  '(rop, s) ← SHIFTER_OPERAND inst s;
  let '(result, carry, overflow) := f rn_val rop in
  Some (arith_flags inst carry overflow (put_reg (f_Rd inst) result s)).

Definition ADC_INST (inst : Z) (s : ARMul_State) := arith inst (RN_ahead inst s) (λ rn op, AddWithCarry rn op (CFlag s)) s.
Definition ADD_INST (inst : Z) (s : ARMul_State) :=
  let rn_val := if truth (f_I inst) then CHECK_READ_REG15_WA s (f_Rn inst) else CHECK_READ_REG15 s (f_Rn inst) in
  arith inst rn_val (λ rn op, AddWithCarry rn op 0) s.
Definition AND_INST (inst : Z) (s : ARMul_State) := logical inst Z.land s.
Definition BIC_INST (inst : Z) (s : ARMul_State) := logical inst (λ lop rop, Z.land lop (not32 rop)) s.
Definition EOR_INST (inst : Z) (s : ARMul_State) := logical inst Z.lxor s.
Definition ORR_INST (inst : Z) (s : ARMul_State) := logical inst Z.lor s.
Definition MOV_INST (inst : Z) (s : ARMul_State) := logical inst (λ _ rop, rop) s.
Definition MVN_INST (inst : Z) (s : ARMul_State) := logical inst (λ _ rop, not32 rop) s.
Definition RSB_INST (inst : Z) (s : ARMul_State) := arith inst (RN_ahead inst s) (λ rn op, AddWithCarry (not32 rn) op 1) s.
Definition RSC_INST (inst : Z) (s : ARMul_State) := arith inst (RN_ahead inst s) (λ rn op, AddWithCarry (not32 rn) op (CFlag s)) s.
Definition SBC_INST (inst : Z) (s : ARMul_State) := arith inst (RN_ahead inst s) (λ rn op, AddWithCarry rn (not32 op) (CFlag s)) s.
Definition SUB_INST (inst : Z) (s : ARMul_State) :=
  arith inst (CHECK_READ_REG15_WA s (f_Rn inst)) (λ rn op, AddWithCarry rn (not32 op) 1) s.
Definition CPY_INST (inst : Z) (s : ARMul_State) : option (ARMul_State * bool) :=
  '(rop, s) ← SHIFTER_OPERAND inst s; Some (put_reg (f_Rd inst) rop s, f_Rd inst =? 15).

(** The comparisons keep the result for themselves. *)
Definition result_nz (result : Z) (s : ARMul_State) : ARMul_State := UPDATE_ZFLAG result (UPDATE_NFLAG result s).
Definition compare (inst : Z) (f : Z → Z → Z * bool * bool) (s : ARMul_State) : option (ARMul_State * bool) :=
  let rn_val := RN_ahead inst s in
  '(rop, s) ← SHIFTER_OPERAND inst s;
  let '(result, carry, overflow) := f rn_val rop in
  Some (set_VFlag (Z.b2z overflow) (set_CFlag (Z.b2z carry) (result_nz result s)), false).
Definition test (inst : Z) (f : Z → Z → Z) (s : ARMul_State) : option (ARMul_State * bool) :=
  let lop := RN_ahead inst s in
  '(rop, s) ← SHIFTER_OPERAND inst s;
  Some (UPDATE_CFLAG_WITH_SC (result_nz (f lop rop) s), false).

Definition CMN_INST (inst : Z) (s : ARMul_State) := compare inst (λ rn op, AddWithCarry rn op 0) s.
Definition CMP_INST (inst : Z) (s : ARMul_State) := compare inst (λ rn op, AddWithCarry rn (not32 op) 1) s.
Definition TEQ_INST (inst : Z) (s : ARMul_State) := test inst Z.lxor s.
Definition TST_INST (inst : Z) (s : ARMul_State) := test inst Z.land s.

(** ** Multiplication

    Products of 64 bits; where the source computes on [long long] the sums wrap around, as they do on the hosts. *)

Definition MUL_INST (inst : Z) (s : ARMul_State) : ARMul_State :=
  let Rd := BITS inst 16 19 in
  let s := put_reg Rd (Z.land (u64 (reg (f_Rm inst) s * reg (f_Rs inst) s)) 0xffffffff) s in
  if truth (f_S inst) then update_nz Rd s else s.
Definition MLA_INST (inst : Z) (s : ARMul_State) : ARMul_State :=
  let Rd := BITS inst 16 19 in
  let Rn := BITS inst 12 15 in
  let s := put_reg Rd (Z.land (u64 (u64 (reg (f_Rm inst) s * reg (f_Rs inst) s) + reg Rn s)) 0xffffffff) s in
  if truth (f_S inst) then update_nz Rd s else s.

Definition RdHi (inst : Z) : Z := BITS inst 16 19.
Definition RdLo (inst : Z) : Z := BITS inst 12 15.
Definition long_flags (inst : Z) (s : ARMul_State) : ARMul_State :=
  if truth (f_S inst) then
    set_ZFlag (Z.b2z ((reg (RdHi inst) s =? 0) && (reg (RdLo inst) s =? 0))) (set_NFlag (BIT (reg (RdHi inst) s) 31) s)
  else s.
(** The lower word is written first by the accumulating forms, the upper one by the others. *)
Definition write_lo_hi (inst result : Z) (s : ARMul_State) : ARMul_State :=
  put_reg (RdHi inst) (u32 (Z.shiftr result 32)) (put_reg (RdLo inst) (u32 result) s).
Definition write_hi_lo (inst result : Z) (s : ARMul_State) : ARMul_State :=
  put_reg (RdLo inst) (u32 result) (put_reg (RdHi inst) (u32 (Z.shiftr result 32)) s).

Definition UMULL_INST (inst : Z) (s : ARMul_State) : ARMul_State :=
  long_flags inst (write_hi_lo inst (u64 (reg (f_Rm inst) s * reg (f_Rs inst) s)) s).
Definition SMULL_INST (inst : Z) (s : ARMul_State) : ARMul_State :=
  long_flags inst (write_hi_lo inst (s64 (s32 (reg (f_Rm inst) s) * s32 (reg (f_Rs inst) s))) s).
Definition UMLAL_INST (inst : Z) (s : ARMul_State) : ARMul_State :=
  let rst := u64 (reg (f_Rm inst) s * reg (f_Rs inst) s) in
  let add := u64 (u64 (Z.shiftl (reg (RdHi inst) s) 32) + reg (RdLo inst) s) in
  long_flags inst (write_lo_hi inst (u64 (rst + add)) s).
Definition SMLAL_INST (inst : Z) (s : ARMul_State) : ARMul_State :=
  let rst := s64 (s32 (reg (f_Rm inst) s) * s32 (reg (f_Rs inst) s)) in
  let hilo := s64 (s64 (Z.shiftl (reg (RdHi inst) s) 32) + reg (RdLo inst) s) in
  long_flags inst (write_lo_hi inst (s64 (rst + hilo)) s).
Definition UMAAL_INST (inst : Z) (s : ARMul_State) : ARMul_State :=
  let rm := reg (BITS inst 8 11) s in
  let rn := reg (BITS inst 0 3) s in
  let result := u64 (u64 (u64 (rm * rn) + reg (RdLo inst) s) + reg (RdHi inst) s) in
  write_lo_hi inst result s.

(** *** Halves of the operands *)

Definition half (x v : Z) : Z := if x =? 0 then s16 (BITS v 0 15) else s16 (BITS v 16 31).

Definition SMLA_INST (inst : Z) (s : ARMul_State) : ARMul_State :=
  let operand1 := half (BIT inst 5) (reg (f_Rm inst) s) in
  let operand2 := half (BIT inst 6) (reg (f_Rs inst) s) in
  let rn := reg (BITS inst 12 15) s in
  let product := u32 (operand1 * operand2) in
  let result := u32 (product + rn) in
  put_reg (BITS inst 16 19) result (set_q_if (AddOverflow product rn result) s).
Definition SMUL_INST (inst : Z) (s : ARMul_State) : ARMul_State :=
  let operand1 := u32 (half (BIT inst 5) (reg (f_Rm inst) s)) in
  let operand2 := u32 (half (BIT inst 6) (reg (f_Rs inst) s)) in
  put_reg (BITS inst 16 19) (u32 (operand1 * operand2)) s.
Definition SMLALXY_INST (inst : Z) (s : ARMul_State) : ARMul_State :=
  let sign v := if truth (Z.land v 0x8000) then u64 (v - 65536) else v in
  let pick x v := Z.land (if truth x then Z.shiftr v 16 else v) 0xFFFF in
  let operand1 := sign (pick (BIT inst 5) (reg (BITS inst 0 4) s)) in
  let operand2 := sign (pick (BIT inst 6) (reg (BITS inst 8 11) s)) in
  let dest := u64 (Z.lor (u64 (Z.shiftl (reg (RdHi inst) s) 32)) (reg (RdLo inst) s) + u64 (operand1 * operand2)) in
  write_lo_hi inst dest s.
Definition SMLAW_INST (inst : Z) (s : ARMul_State) : ARMul_State :=
  let rm_val := reg (BITS inst 8 11) s in
  let rn_val := reg (BITS inst 0 3) s in
  let ra_val := reg (BITS inst 12 15) s in
  let operand2 := s16 (if BIT inst 6 =? 1 then Z.land (Z.shiftr rm_val 16) 0xFFFF else Z.land rm_val 0xFFFF) in
  let result := s64 (s32 rn_val * operand2 + Z.shiftl (s32 ra_val) 16) in
  let rd := u32 (Z.shiftr result 16) in
  set_q_if (negb (Z.shiftr result 16 =? s32 rd)) (put_reg (BITS inst 16 19) rd s).
Definition SMULW_INST (inst : Z) (s : ARMul_State) : ARMul_State :=
  let v := reg (BITS inst 8 11) s in
  let rm := s16 (if BIT inst 6 =? 1 then Z.land (Z.shiftr v 16) 0xFFFF else Z.land v 0xFFFF) in
  let result := s64 (rm * s32 (reg (BITS inst 0 3) s)) in
  put_reg (BITS inst 16 19) (u32 (Z.shiftr result 16)) s.

Definition swap_halves (b : bool) (v : Z) : Z :=
  if b then Z.lor (u32 (Z.shiftl (Z.land v 0xFFFF) 16)) (Z.shiftr v 16) else v.
Definition lo16 (v : Z) : Z := s16 (Z.land v 0xFFFF).
Definition hi16 (v : Z) : Z := s16 (Z.land (Z.shiftr v 16) 0xFFFF).

Definition SMLAD_INST (inst : Z) (s : ARMul_State) : ARMul_State :=
  let rm_val := swap_halves (truth (BIT inst 5)) (reg (BITS inst 8 11) s) in
  let rn_val := reg (BITS inst 0 3) s in
  let Ra := BITS inst 12 15 in
  let product1 := u32 (lo16 rn_val * lo16 rm_val) in
  let product2 := u32 (hi16 rn_val * hi16 rm_val) in
  let accumulate p s :=
    if Ra =? 15 then (p, s) else (u32 (p + reg Ra s), set_q_if (ARMul_AddOverflowQ p (reg Ra s)) s) in
  if BIT (f_op2 inst) 1 =? 0 then
    let '(rd_val, s) := accumulate (u32 (product1 + product2)) s in
    set_q_if (ARMul_AddOverflowQ product1 product2) (put_reg (BITS inst 16 19) rd_val s)
  else
    let '(rd_val, s) := accumulate (u32 (product1 - product2)) s in
    put_reg (BITS inst 16 19) rd_val s.
(** The sum of the products is of 32 bits. *)
Definition SMLALD_INST (inst : Z) (s : ARMul_State) : ARMul_State :=
  let rn_val := reg (BITS inst 0 3) s in
  let rm_val := swap_halves (BIT inst 5 =? 1) (reg (BITS inst 8 11) s) in
  let product1 := lo16 rn_val * lo16 rm_val in
  let product2 := hi16 rn_val * hi16 rm_val in
  let acc := Z.lor (reg (RdLo inst) s) (s64 (Z.shiftl (reg (RdHi inst) s) 32)) in
  let result := if BIT (f_op2 inst) 1 =? 0 then s64 (s32 (product1 + product2) + acc) else s64 (s32 (product1 - product2) + acc) in
  write_lo_hi inst result s.
Definition SMMUL_INST (inst : Z) (s : ARMul_State) : ARMul_State :=
  let rm_val := reg (BITS inst 8 11) s in
  let rn_val := reg (BITS inst 0 3) s in
  let Ra := BITS inst 12 15 in
  let product := s64 (s32 rn_val * s32 rm_val) in
  let result :=
    if Ra =? 15 then product
    else let ra := s64 (Z.shiftl (reg Ra s) 32) in if BIT (f_op2 inst) 1 =? 0 then s64 (product + ra) else s64 (ra - product) in
  let result := if BIT inst 5 =? 1 then s64 (result + 0x80000000) else result in
  put_reg (BITS inst 16 19) (Z.land (Z.shiftr result 32) 0xFFFFFFFF) s.

(** ** Saturation *)

Definition saturate32 (overflow : bool) (result : Z) (s : ARMul_State) : Z * ARMul_State :=
  if overflow then (if truth (POS result) then 0x80000000 else 0x7FFFFFFF, set_q s) else (result, s).

Definition QADD_INST (inst : Z) (s : ARMul_State) : ARMul_State :=
  let op1 := BITS inst 21 22 in
  let rm_val := reg (f_Rm inst) s in
  let rn_val := reg (f_Rn inst) s in
  let add a b s := let r := u32 (a + b) in saturate32 (AddOverflow a b r) r s in
  let sub a b s := let r := u32 (a - b) in saturate32 (SubOverflow a b r) r s in
  let '(result, s) :=
    if op1 =? 0 then add rm_val rn_val s
    else if op1 =? 1 then sub rm_val rn_val s
    else if op1 =? 2 then let '(mul, s) := add rn_val rn_val s in add rm_val mul s
    else let '(mul, s) := add rn_val rn_val s in sub rm_val mul s in
  put_reg (f_Rd inst) result s.

(** The operand of the saturating instructions, shifted. *)
Definition sat_operand (inst : Z) (s : ARMul_State) : Z :=
  let shift_type := BIT inst 6 in
  let shift_amount := BITS inst 7 11 in
  let shift_amount := if (shift_type =? 1) && (shift_amount =? 0) then 31 else shift_amount in
  let rn_val := reg (BITS inst 0 3) s in
  if shift_type =? 0 then u32 (Z.shiftl rn_val shift_amount) else u32 (Z.shiftr (s32 rn_val) shift_amount).
Definition SSAT_INST (inst : Z) (s : ARMul_State) : option ARMul_State :=
  '(v, saturated) ← ARMul_SignedSatQ (s32 (sat_operand inst s)) (BITS inst 16 20);
  Some (put_reg (f_Rd inst) v (set_q_if saturated s)).
Definition USAT_INST (inst : Z) (s : ARMul_State) : option ARMul_State :=
  '(v, saturated) ← ARMul_UnsignedSatQ (s32 (sat_operand inst s)) (BITS inst 16 20);
  Some (put_reg (f_Rd inst) v (set_q_if saturated s)).
Definition SSAT16_INST (inst : Z) (s : ARMul_State) : option ARMul_State :=
  let rn := reg (BITS inst 0 3) s in
  '(lo, sat1) ← ARMul_SignedSatQ (s16 rn) (BITS inst 16 19);
  '(hi, sat2) ← ARMul_SignedSatQ (Z.shiftr (s32 rn) 16) (BITS inst 16 19);
  Some (set_q_if (sat1 || sat2) (put_reg (f_Rd inst) (Z.lor (Z.land lo 0xFFFF) (u32 (Z.shiftl hi 16))) s)).
Definition USAT16_INST (inst : Z) (s : ARMul_State) : option ARMul_State :=
  let rn := reg (BITS inst 0 3) s in
  '(lo, sat1) ← ARMul_UnsignedSatQ (s16 rn) (BITS inst 16 19);
  '(hi, sat2) ← ARMul_UnsignedSatQ (Z.shiftr (s32 rn) 16) (BITS inst 16 19);
  Some (set_q_if (sat1 || sat2) (put_reg (f_Rd inst) (Z.lor (Z.land lo 0xFFFF) (u32 (Z.shiftl hi 16))) s)).

(** ** Parallel addition and subtraction

    [op2] selects the operation: 0 and 3 on halves, 1 and 2 on exchanged halves, 4 and 7 on bytes. *)

Definition byte_of (i v : Z) : Z := Z.land (Z.shiftr v (8 * i)) 0xFF.
Definition ulo (v : Z) : Z := Z.land v 0xFFFF.
Definition uhi (v : Z) : Z := Z.land (Z.shiftr v 16) 0xFFFF.

Definition pack16 (lo hi : Z) : Z := Z.lor (Z.land lo 0xFFFF) (u32 (Z.shiftl (Z.land hi 0xFFFF) 16)).
Definition pack8 (a b c d : Z) : Z :=
  Z.lor (Z.lor (Z.lor (Z.land a 0xFF) (Z.shiftl (Z.land b 0xFF) 8)) (Z.shiftl (Z.land c 0xFF) 16)) (u32 (Z.shiftl (Z.land d 0xFF) 24)).

(** A bit of the status register. *)
Definition set_bit (n : Z) (b : bool) (s : ARMul_State) : ARMul_State :=
  set_Cpsr (if b then Z.lor (Cpsr s) (Z.shiftl 1 n) else Z.land (Cpsr s) (not32 (Z.shiftl 1 n))) s.
(** The four GE bits. *)
Definition set_ge (b0 b1 b2 b3 : bool) (s : ARMul_State) : ARMul_State := set_bit 19 b3 (set_bit 18 b2 (set_bit 17 b1 (set_bit 16 b0 s))).

(** The operations on halves: what becomes of the lower and the upper result. *)
Definition halves (op2 : Z) (add sub : Z → Z → Z) (lo hi : Z → Z) (rn rm : Z) : Z * Z :=
  if op2 =? 0 then (add (lo rn) (lo rm), add (hi rn) (hi rm))
  else if op2 =? 1 then (sub (lo rn) (hi rm), add (hi rn) (lo rm))
  else if op2 =? 2 then (add (lo rn) (hi rm), sub (hi rn) (lo rm))
  else (sub (lo rn) (lo rm), sub (hi rn) (hi rm)).

Definition on_halves (op2 : Z) : bool := (op2 =? 0) || (op2 =? 1) || (op2 =? 2) || (op2 =? 3).
Definition on_bytes (op2 : Z) : bool := (op2 =? 4) || (op2 =? 7).

Definition SADD_INST (inst : Z) (s : ARMul_State) : ARMul_State :=
  let op2 := f_op2 inst in
  let rn := reg (f_Rn inst) s in
  let rm := reg (f_Rm inst) s in
  if on_halves op2 then
    let '(lo, hi) := halves op2 Z.add Z.sub lo16 hi16 rn rm in
    set_ge (0 <=? lo) (0 <=? lo) (0 <=? hi) (0 <=? hi) (put_reg (f_Rd inst) (pack16 lo hi) s)
  else if on_bytes op2 then
    let f i := if op2 =? 4 then s8 (byte_of i rn) + s8 (byte_of i rm) else s8 (byte_of i rn) - s8 (byte_of i rm) in
    set_ge (0 <=? f 0) (0 <=? f 1) (0 <=? f 2) (0 <=? f 3) (put_reg (f_Rd inst) (pack8 (f 0) (f 1) (f 2) (f 3)) s)
  else s.

(** The unsigned operations test a carry or a missing borrow, written in several ways; other values of [op2] clear the result. *)
Definition UADD_INST (inst : Z) (s : ARMul_State) : ARMul_State :=
  let op2 := f_op2 inst in
  let rm := reg (f_Rm inst) s in
  let rn := reg (f_Rn inst) s in
  let write lo hi s := put_reg (f_Rd inst) (pack16 lo hi) s in
  let over v := truth (Z.land (u32 v) 0xFFFF0000) in
  if op2 =? 0 then
    let lo := ulo rn + ulo rm in let hi := uhi rn + uhi rm in
    write lo hi (set_ge (over lo) (over lo) (over hi) (over hi) s)
  else if op2 =? 1 then
    let lo := ulo rn - uhi rm in let hi := uhi rn + ulo rm in
    write lo hi (set_ge (0 <=? lo) (0 <=? lo) (0x10000 <=? hi) (0x10000 <=? hi) s)
  else if op2 =? 2 then
    let lo := ulo rn + uhi rm in let hi := uhi rn - ulo rm in
    write lo hi (set_ge (0x10000 <=? lo) (0x10000 <=? lo) (0 <=? hi) (0 <=? hi) s)
  else if op2 =? 3 then
    let lo := ulo rn - ulo rm in let hi := uhi rn - uhi rm in
    write lo hi (set_ge (negb (over lo)) (negb (over lo)) (negb (over hi)) (negb (over hi)) s)
  else if op2 =? 4 then
    let sum i := byte_of i rn + byte_of i rm in
    let s := set_ge (0x100 <=? sum 0) (0x100 <=? sum 1) (0x100 <=? sum 2) (0x100 <=? sum 3) s in
    write (Z.lor (Z.land (sum 0) 0xFF) (Z.shiftl (Z.land (sum 1) 0xFF) 8)) (Z.lor (Z.land (sum 2) 0xFF) (Z.shiftl (Z.land (sum 3) 0xFF) 8)) s
  else if op2 =? 7 then
    let diff i := byte_of i rn - byte_of i rm in
    let s := set_ge (0 <=? diff 0) (0 <=? diff 1) (0 <=? diff 2) (0 <=? diff 3) s in
    write (Z.lor (Z.land (diff 0) 0xFF) (Z.shiftl (Z.land (diff 1) 0xFF) 8)) (Z.lor (Z.land (diff 2) 0xFF) (Z.shiftl (Z.land (diff 3) 0xFF) 8)) s
  else write 0 0 s.

(** The halving operations. *)
Definition SHADD_INST (inst : Z) (s : ARMul_State) : ARMul_State :=
  let op2 := f_op2 inst in
  let rm := reg (f_Rm inst) s in
  let rn := reg (f_Rn inst) s in
  if on_halves op2 then
    let '(lo, hi) := halves op2 Z.add Z.sub lo16 hi16 rn rm in put_reg (f_Rd inst) (pack16 (Z.shiftr lo 1) (Z.shiftr hi 1)) s
  else if on_bytes op2 then
    let f i := Z.shiftr (if op2 =? 4 then s8 (byte_of i rn) + s8 (byte_of i rm) else s8 (byte_of i rn) - s8 (byte_of i rm)) 1 in
    put_reg (f_Rd inst) (pack8 (f 0) (f 1) (f 2) (f 3)) s
  else s.
Definition UHADD_INST (inst : Z) (s : ARMul_State) : ARMul_State :=
  let op2 := f_op2 inst in
  let rm := reg (f_Rm inst) s in
  let rn := reg (f_Rn inst) s in
  if on_halves op2 then
    let '(lo, hi) := halves op2 (λ a b, u32 (a + b)) (λ a b, u32 (a - b)) ulo uhi rn rm in
    put_reg (f_Rd inst) (pack16 (Z.shiftr lo 1) (Z.shiftr hi 1)) s
  else if on_bytes op2 then
    let f i := Z.shiftr (u32 (if op2 =? 4 then byte_of i rn + byte_of i rm else byte_of i rn - byte_of i rm)) 1 in
    put_reg (f_Rd inst) (pack8 (f 0) (f 1) (f 2) (f 3)) s
  else s.

(** The saturating operations. *)
Definition QADD8_INST (inst : Z) (s : ARMul_State) : ARMul_State :=
  let op2 := f_op2 inst in
  let rm := reg (f_Rm inst) s in
  let rn := reg (f_Rn inst) s in
  let bytes f := (Z.lor (f (Z.land (ulo rn) 0xFF) (Z.land (ulo rm) 0xFF)) (Z.shiftl (f (Z.shiftr (ulo rn) 8) (Z.shiftr (ulo rm) 8)) 8),
                  Z.lor (f (Z.land (uhi rn) 0xFF) (Z.land (uhi rm) 0xFF)) (Z.shiftl (f (Z.shiftr (uhi rn) 8) (Z.shiftr (uhi rm) 8)) 8)) in
  let '(lo, hi) :=
    if on_halves op2 then halves op2 ARMul_SignedSaturatedAdd16 ARMul_SignedSaturatedSub16 ulo uhi rn rm
    else if op2 =? 4 then bytes ARMul_SignedSaturatedAdd8
    else if op2 =? 7 then bytes ARMul_SignedSaturatedSub8
    else (0, 0) in
  put_reg (f_Rd inst) (pack16 lo hi) s.
(** The arguments of the byte operations are converted to bytes by the call. *)
Definition UQADD_INST (inst : Z) (s : ARMul_State) : ARMul_State :=
  let op2 := f_op2 inst in
  let rm := reg (f_Rm inst) s in
  let rn := reg (f_Rn inst) s in
  let bytes f := (Z.lor (f (u8 rn) (u8 rm)) (Z.shiftl (f (u8 (Z.shiftr rn 8)) (u8 (Z.shiftr rm 8))) 8),
                  Z.lor (f (u8 (Z.shiftr rn 16)) (u8 (Z.shiftr rm 16))) (Z.shiftl (f (u8 (Z.shiftr rn 24)) (u8 (Z.shiftr rm 24))) 8)) in
  let '(lo, hi) :=
    if on_halves op2 then halves op2 ARMul_UnsignedSaturatedAdd16 ARMul_UnsignedSaturatedSub16 ulo uhi rn rm
    else if op2 =? 4 then bytes ARMul_UnsignedSaturatedAdd8
    else bytes ARMul_UnsignedSaturatedSub8 in
  put_reg (f_Rd inst) (Z.lor (Z.land lo 0xFFFF) (u32 (Z.shiftl hi 16))) s.

(** Sum of absolute differences. *)
Definition USAD8_INST (inst : Z) (s : ARMul_State) : ARMul_State :=
  let Ra := BITS inst 12 15 in
  let rm := reg (BITS inst 8 11) s in
  let rn := reg (BITS inst 0 3) s in
  let diff i := ARMul_UnsignedAbsoluteDifference (byte_of i rn) (byte_of i rm) in
  let finalDif := diff 0 + diff 1 + diff 2 + diff 3 in
  put_reg (BITS inst 16 19) (if Ra =? 15 then finalDif else u32 (finalDif + reg Ra s)) s.

Definition SEL_INST (inst : Z) (s : ARMul_State) : ARMul_State :=
  let to := reg (f_Rm inst) s in
  let from := reg (f_Rn inst) s in
  let pick n mask := Z.land (if truth (Z.land (Cpsr s) (Z.shiftl 1 n)) then from else to) mask in
  put_reg (f_Rd inst) (Z.lor (Z.lor (Z.lor (pick 16 0xff) (pick 17 0xff00)) (pick 18 0xff0000)) (pick 19 0xff000000)) s.

(** ** Extension, packing, reversal *)

Definition rotated (inst : Z) (s : ARMul_State) : Z := ROTATE_RIGHT_32 (reg (f_Rm inst) s) (8 * BITS inst 10 11).
Definition sext8 (v : Z) : Z := if truth (BIT v 7) then Z.lor v 0xffffff00 else Z.land v 0xff.
Definition sext16 (v : Z) : Z := if truth (BIT v 15) then Z.lor v 0xffff0000 else Z.land v 0xffff.

Definition SXTB_INST (inst : Z) (s : ARMul_State) : ARMul_State := put_reg (f_Rd inst) (sext8 (rotated inst s)) s.
Definition SXTH_INST (inst : Z) (s : ARMul_State) : ARMul_State := put_reg (f_Rd inst) (sext16 (rotated inst s)) s.
Definition UXTB_INST (inst : Z) (s : ARMul_State) : ARMul_State := put_reg (f_Rd inst) (Z.land (rotated inst s) 0xff) s.
Definition UXTH_INST (inst : Z) (s : ARMul_State) : ARMul_State := put_reg (f_Rd inst) (Z.land (rotated inst s) 0xffff) s.
Definition UXTAB_INST (inst : Z) (s : ARMul_State) : ARMul_State :=
  put_reg (f_Rd inst) (u32 (reg (f_Rn inst) s + Z.land (rotated inst s) 0xff)) s.
Definition UXTAH_INST (inst : Z) (s : ARMul_State) : ARMul_State :=
  put_reg (f_Rd inst) (u32 (reg (f_Rn inst) s + Z.land (rotated inst s) 0xffff)) s.
Definition SXTAB_INST (inst : Z) (s : ARMul_State) : ARMul_State :=
  let operand2 := Z.land (rotated inst s) 0xff in
  let operand2 := if truth (Z.land 0x80 operand2) then Z.lor 0xFFFFFF00 operand2 else operand2 in
  put_reg (f_Rd inst) (u32 (reg (f_Rn inst) s + operand2)) s.
Definition SXTAH_INST (inst : Z) (s : ARMul_State) : ARMul_State :=
  let operand2 := Z.land (rotated inst s) 0xffff in
  let operand2 := if truth (Z.land 0x8000 operand2) then Z.lor 0xFFFF0000 operand2 else operand2 in
  put_reg (f_Rd inst) (u32 (reg (f_Rn inst) s + operand2)) s.
Definition SXTAB16_INST (inst : Z) (s : ARMul_State) : ARMul_State :=
  let rotation := 8 * BITS inst 10 11 in
  let rm := reg (f_Rm inst) s in
  let rn := reg (f_Rn inst) s in
  let rm := if truth rotation then ROTATE_RIGHT_32 rm rotation else rm in
  if f_Rn inst =? 15 then
    let lo := u32 (s8 rm) in let hi := u32 (s8 (Z.shiftr rm 16)) in
    put_reg (f_Rd inst) (Z.lor (Z.land lo 0xFFFF) (u32 (Z.shiftl hi 16))) s
  else
    let lo := u32 (rn + u32 (s8 (Z.land rm 0xFF))) in let hi := u32 (Z.shiftr rn 16 + u32 (s8 (Z.land (Z.shiftr rm 16) 0xFF))) in
    put_reg (f_Rd inst) (Z.lor (Z.land lo 0xFFFF) (u32 (Z.shiftl hi 16))) s.
Definition UXTAB16_INST (inst : Z) (s : ARMul_State) : ARMul_State :=
  let rotated_rm := rotated inst s in
  if f_Rn inst =? 15 then put_reg (f_Rd inst) (Z.land rotated_rm 0x00FF00FF) s
  else
    let rn := reg (f_Rn inst) s in
    let lo_result := u16 (Z.land rn 0xFFFF + Z.land rotated_rm 0xFF) in
    let hi_result := u16 (Z.shiftr rn 16 + Z.land (Z.shiftr rotated_rm 16) 0xFF) in
    put_reg (f_Rd inst) (Z.lor (u32 (Z.shiftl hi_result 16)) (Z.land lo_result 0xFFFF)) s.

Definition PKHBT_INST (inst : Z) (s : ARMul_State) : ARMul_State :=
  let imm := BITS inst 7 11 in
  put_reg (f_Rd inst) (Z.lor (Z.land (reg (f_Rn inst) s) 0xFFFF) (Z.land (u32 (Z.shiftl (reg (f_Rm inst) s) imm)) 0xFFFF0000)) s.
Definition PKHTB_INST (inst : Z) (s : ARMul_State) : ARMul_State :=
  let imm := BITS inst 7 11 in
  let shift_imm := if truth imm then imm else 31 in
  put_reg (f_Rd inst)
    (Z.lor (Z.land (Z.shiftr (s32 (reg (f_Rm inst) s)) shift_imm) 0xFFFF) (Z.land (reg (f_Rn inst) s) 0xFFFF0000)) s.

Definition REV_INST (inst : Z) (s : ARMul_State) : ARMul_State :=
  let op1 := BITS inst 20 22 in
  let op2 := f_op2 inst in
  let rm := reg (f_Rm inst) s in
  if (op1 =? 3) && (op2 =? 1) then put_reg (f_Rd inst) (pack8 (byte_of 3 rm) (byte_of 2 rm) (byte_of 1 rm) (byte_of 0 rm)) s
  else if (op1 =? 3) && (op2 =? 5) then
    put_reg (f_Rd inst)
      (Z.lor (Z.lor (Z.lor (Z.shiftl (Z.land rm 0xFF) 8) (Z.shiftr (Z.land rm 0xFF00) 8)) (u32 (Z.shiftl (Z.land rm 0xFF0000) 8)))
         (Z.shiftr (Z.land rm 0xFF000000) 8)) s
  else if (op1 =? 7) && (op2 =? 5) then
    let v := Z.lor (Z.shiftl (Z.land rm 0xFF) 8) (Z.shiftr (Z.land rm 0xFF00) 8) in
    put_reg (f_Rd inst) (if truth (Z.land v 0x8000) then Z.lor v 0xffff0000 else v) s
  else s.

(** Leading zeros, by halving. *)
Definition clz (x : Z) : Z :=
  if x =? 0 then 32
  else
    let '(n, x) := (1, x) in
    let '(n, x) := if Z.shiftr x 16 =? 0 then (n + 16, u32 (Z.shiftl x 16)) else (n, x) in
    let '(n, x) := if Z.shiftr x 24 =? 0 then (n + 8, u32 (Z.shiftl x 8)) else (n, x) in
    let '(n, x) := if Z.shiftr x 28 =? 0 then (n + 4, u32 (Z.shiftl x 4)) else (n, x) in
    let '(n, x) := if Z.shiftr x 30 =? 0 then (n + 2, u32 (Z.shiftl x 2)) else (n, x) in
    n - Z.shiftr x 31.
Definition CLZ_INST (inst : Z) (s : ARMul_State) : ARMul_State := put_reg (f_Rd inst) (clz (reg (f_Rm inst) s)) s.

(** ** Status registers and the coprocessor *)

Definition MRS_INST (inst : Z) (s : ARMul_State) : ARMul_State :=
  if truth (BIT inst 22) then put_reg (f_Rd inst) (Spsr_copy s) s
  else let s := SAVE_NZCVT s in put_reg (f_Rd inst) (Cpsr s) s.

Definition UserMask : Z := 0xf80f0200.
Definition PrivMask : Z := 0x000001df.
Definition StateMask : Z := 0x01000020.
Definition MSR_INST (inst : Z) (s : ARMul_State) : ARMul_State :=
  let operand := if truth (BIT inst 25) then ROTATE_RIGHT_32 (BITS inst 0 7) (BITS inst 8 11 * 2) else reg (BITS inst 0 3) s in
  let field_of n m := if truth (BIT inst n) then m else 0 in
  let byte_mask := Z.lor (Z.lor (Z.lor (field_of 16 0xff) (field_of 17 0xff00)) (field_of 18 0xff0000)) (field_of 19 0xff000000) in
  if BIT inst 22 =? 0 then
    let mask :=
      if InAPrivilegedMode s then
        if truth (Z.land operand StateMask) then 0 else Z.land byte_mask (Z.lor UserMask PrivMask)
      else Z.land byte_mask UserMask in
    let s := SAVE_NZCVT s in
    let s := set_Cpsr (Z.lor (Z.land (Cpsr s) (not32 mask)) (Z.land operand mask)) s in
    LOAD_NZCVT (ChangePrivilegeMode (Z.land (Cpsr s) 0x1F) s)
  else if CurrentModeHasSPSR s then
    let mask := Z.land byte_mask (Z.lor (Z.lor UserMask PrivMask) StateMask) in
    set_Spsr_copy (Z.lor (Z.land (Spsr_copy s) (not32 mask)) (Z.land operand mask)) s
  else s.

Definition CPS_INST (inst : Z) (s : ARMul_State) : ARMul_State :=
  let imod0 := BIT inst 18 in
  let bit b n v := if truth b then v else 0 in
  if InAPrivilegedMode s then
    let s :=
      if truth (BIT inst 19) then
        let aif_val := Z.lor (Z.lor (bit (BIT inst 8) 8 (Z.shiftl imod0 8)) (bit (BIT inst 7) 7 (Z.shiftl imod0 7))) (bit (BIT inst 6) 6 (Z.shiftl imod0 6)) in
        let aif_mask := Z.lor (Z.lor (bit (BIT inst 8) 8 (Z.shiftl 1 8)) (bit (BIT inst 7) 7 (Z.shiftl 1 7))) (bit (BIT inst 6) 6 (Z.shiftl 1 6)) in
        set_Cpsr (Z.lor (Z.land (Cpsr s) (not32 aif_mask)) aif_val) s
      else s in
    if truth (BIT inst 17) then
      let mode := BITS inst 0 4 in ChangePrivilegeMode mode (set_Cpsr (Z.lor (Z.land (Cpsr s) 0xffffffe0) mode) s)
    else s
  else s.
Definition SETEND_INST (inst : Z) (s : ARMul_State) : ARMul_State := set_bit 9 (BIT inst 9 =? 1) s.

Definition MCR_INST (inst : Z) (s : ARMul_State) : ARMul_State :=
  if f_Rd inst =? 15 then s
  else if BITS inst 8 11 =? 15 then
    WriteCP15Register (reg (f_Rd inst) s) (BITS inst 16 19) (BITS inst 21 23) (BITS inst 0 3) (BITS inst 5 7) s
  else s.
Definition MRC_INST (inst : Z) (s : ARMul_State) : ARMul_State :=
  if BITS inst 8 11 =? 15 then
    let value := ReadCP15Register (BITS inst 16 19) (BITS inst 21 23) (BITS inst 0 3) (BITS inst 5 7) s in
    if f_Rd inst =? 15 then LOAD_NZCVT (set_Cpsr (Z.lor (Z.land (Cpsr s) (not32 0xF0000000)) (Z.land value 0xF0000000)) s)
    else put_reg (f_Rd inst) value s
  else s.

(** ** Branches *)

Definition BBL_INST (inst : Z) (s : ARMul_State) : ARMul_State :=
  let signed_immed_24 :=
    if truth (BIT inst 23) then u32 (Z.shiftl (Z.lor 0xff000000 (Z.land inst 0xffffff)) 2) else u32 (Z.shiftl (Z.land inst 0x7fffff) 2) in
  let s := if truth (BIT inst 24) then put_reg 14 (u32 (reg 15 s + 4)) s else s in
  put_reg 15 (u32 (reg 15 s + 8 + signed_immed_24)) s.
Definition BX_INST (inst : Z) (s : ARMul_State) : ARMul_State :=
  let address := reg (f_Rm inst) s in
  let address := if f_Rm inst =? 15 then u32 (address + 2 * GetInstructionSize s) else address in
  put_reg 15 (Z.land address 0xfffffffe) (set_TFlag (Z.land address 1) s).
Definition BLX_INST (inst : Z) (s : ARMul_State) : ARMul_State :=
  if (BITS inst 20 27 =? 0x12) && (BITS inst 4 7 =? 3) then
    let jump_address := reg (f_Rm inst) s in
    let link := u32 (reg 15 s + GetInstructionSize s) in
    let s := put_reg 14 (if truth (TFlag s) then Z.lor link 1 else link) s in
    set_TFlag (Z.land jump_address 1) (put_reg 15 (Z.land jump_address 0xfffffffe) s)
  else
    let s := put_reg 14 (u32 (reg 15 s + GetInstructionSize s)) s in
    let s := set_TFlag 1 s in
    let signed_int := BITS inst 0 23 in
    let signed_int := if truth (Z.land signed_int 0x800000) then Z.lor 0x3F000000 signed_int else signed_int in
    let signed_int := s32 (Z.shiftl signed_int 2) in
    put_reg 15 (u32 (reg 15 s + 8 + signed_int + Z.shiftl (BIT inst 24) 1)) s.

(** The branches of Thumb; the word is the halfword of the instruction. *)
Definition B_2_THUMB (tinst : Z) (s : ARMul_State) : ARMul_State :=
  let imm := Z.lor (Z.shiftl (Z.land tinst 0x3FF) 1) (if truth (Z.land tinst (Z.shiftl 1 10)) then 0xFFFFF800 else 0) in
  put_reg 15 (u32 (reg 15 s + 4 + imm)) s.
Definition B_COND_THUMB (tinst : Z) (s : ARMul_State) : ARMul_State :=
  let imm := Z.lor (Z.shiftl (Z.land tinst 0x7F) 1) (if truth (Z.land tinst (Z.shiftl 1 7)) then 0xFFFFFF00 else 0) in
  let cond := Z.land (Z.shiftr tinst 8) 0xf in
  put_reg 15 (if CondPassed s cond then u32 (reg 15 s + 4 + imm) else u32 (reg 15 s + 2)) s.
Definition BL_1_THUMB (tinst : Z) (s : ARMul_State) : ARMul_State :=
  let imm := Z.lor (Z.shiftl (Z.land tinst 0x07FF) 12) (if truth (Z.land tinst (Z.shiftl 1 10)) then 0xFF800000 else 0) in
  put_reg 14 (u32 (reg 15 s + 4 + imm)) s.
Definition BL_2_THUMB (tinst : Z) (s : ARMul_State) : ARMul_State :=
  let imm := Z.shiftl (Z.land tinst 0x07FF) 1 in
  let tmp := Z.lor (u32 (reg 15 s + 2)) 1 in
  put_reg 14 tmp (put_reg 15 (u32 (reg 14 s + imm)) s).
Definition BLX_1_THUMB (tinst : Z) (s : ARMul_State) : ARMul_State :=
  let imm := Z.shiftl (Z.land tinst 0x07FF) 1 in
  let tmp := reg 15 s in
  let s := put_reg 15 (Z.land (u32 (reg 14 s + imm)) 0xFFFFFFFC) s in
  set_TFlag 0 (put_reg 14 (Z.lor (u32 (tmp + 2)) 1) s).

(** ** Loads and stores *)

Section Memory.
Context `{CpuBus M}.

Definition get_addr (inst : Z) (s : ARMul_State) : option (Z * ARMul_State) := f ← GetAddressingOp inst; Some (f s inst).
Definition get_addr_T (inst : Z) (s : ARMul_State) : option (Z * ARMul_State) := f ← GetAddressingOpLoadStoreT inst; Some (f s inst).

Definition LDR_INST (inst : Z) (s : ARMul_State) (m : M) : option (ARMul_State * M * bool) :=
  '(addr, s) ← get_addr inst s;
  '(m, value) ← ReadMemory32 addr s m;
  let s := put_reg (f_Rd inst) value s in
  if f_Rd inst =? 15 then
    let s := set_TFlag (Z.land value 1) s in Some (put_reg 15 (Z.land (reg 15 s) 0xFFFFFFFE) s, m, true)
  else Some (s, m, false).

(** A load of a narrow value, extended by [f]. *)
Definition load_narrow (read : Z → ARMul_State → M → option (M * Z)) (f : Z → Z) (inst : Z) (s : ARMul_State) (m : M) : option (ARMul_State * M) :=
  '(addr, s) ← get_addr inst s; '(m, value) ← read addr s m; Some (put_reg (f_Rd inst) (f value) s, m).
Definition LDRB_INST := load_narrow ReadMemory8 (λ v, v).
Definition LDRH_INST := load_narrow ReadMemory16 (λ v, v).
Definition LDRSB_INST := load_narrow ReadMemory8 (λ v, if truth (BIT v 7) then Z.lor v 0xffffff00 else v).
Definition LDRSH_INST := load_narrow ReadMemory16 (λ v, if truth (BIT v 15) then Z.lor v 0xffff0000 else v).
Definition LDRD_INST (inst : Z) (s : ARMul_State) (m : M) : option (ARMul_State * M) :=
  '(addr, s) ← get_addr inst s;
  '(m, v0) ← ReadMemory32 addr s m;
  let s := put_reg (f_Rd inst) v0 s in
  '(m, v1) ← ReadMemory32 (u32 (addr + 4)) s m;
  s ← put_reg_at (f_Rd inst + 1) v1 s;
  Some (s, m).
(** The unprivileged loads read in user mode. *)
Definition load_T (read : Z → ARMul_State → M → option (M * Z)) (inst : Z) (s : ARMul_State) (m : M) : option (ARMul_State * M) :=
  '(addr, s) ← get_addr_T inst s;
  let previous_mode := Mode s in
  let s := ChangePrivilegeMode USER32MODE s in
  '(m, value) ← read addr s m;
  Some (put_reg (f_Rd inst) value (ChangePrivilegeMode previous_mode s), m).
Definition LDRBT_INST := load_T ReadMemory8.
Definition LDRT_INST := load_T ReadMemory32.

Definition STR_INST (inst : Z) (s : ARMul_State) (m : M) : option (ARMul_State * M) :=
  '(addr, s) ← get_addr inst s;
  let value := reg (f_Rd inst) s in
  let value := if f_Rd inst =? 15 then u32 (value + 2 * GetInstructionSize s) else value in
  m ← WriteMemory32 addr value s m; Some (s, m).
Definition STRB_INST (inst : Z) (s : ARMul_State) (m : M) : option (ARMul_State * M) :=
  '(addr, s) ← get_addr inst s; m ← WriteMemory8 addr (Z.land (reg (f_Rd inst) s) 0xff) s m; Some (s, m).
Definition STRH_INST (inst : Z) (s : ARMul_State) (m : M) : option (ARMul_State * M) :=
  '(addr, s) ← get_addr inst s; m ← WriteMemory16 addr (Z.land (reg (f_Rd inst) s) 0xffff) s m; Some (s, m).
Definition STRD_INST (inst : Z) (s : ARMul_State) (m : M) : option (ARMul_State * M) :=
  '(addr, s) ← get_addr inst s;
  m ← WriteMemory32 addr (reg (f_Rd inst) s) s m;
  v ← reg_at (f_Rd inst + 1) s;
  m ← WriteMemory32 (u32 (addr + 4)) v s m;
  Some (s, m).
Definition STRBT_INST (inst : Z) (s : ARMul_State) (m : M) : option (ARMul_State * M) :=
  '(addr, s) ← get_addr_T inst s;
  let previous_mode := Mode s in
  let value := Z.land (reg (f_Rd inst) s) 0xff in
  let s := ChangePrivilegeMode USER32MODE s in
  m ← WriteMemory8 addr value s m;
  Some (ChangePrivilegeMode previous_mode s, m).
Definition STRT_INST (inst : Z) (s : ARMul_State) (m : M) : option (ARMul_State * M) :=
  '(addr, s) ← get_addr_T inst s;
  let previous_mode := Mode s in
  let value := reg (f_Rd inst) s in
  let value := if f_Rd inst =? 15 then u32 (value + 2 * GetInstructionSize s) else value in
  let s := ChangePrivilegeMode USER32MODE s in
  m ← WriteMemory32 addr value s m;
  Some (ChangePrivilegeMode previous_mode s, m).

(** *** Multiple registers *)

(** The loops over a list of registers: each one in the list of the instruction takes the next word. *)
Fixpoint load_list (regs : list Z) (inst : Z) (write : Z → Z → ARMul_State → ARMul_State) (addr : Z) (s : ARMul_State) (m : M) :
  option (Z * ARMul_State * M) :=
  match regs with
  | [] => Some (addr, s, m)
  | i :: regs =>
      if truth (BIT inst i) then
        '(m, v) ← ReadMemory32 addr s m; load_list regs inst write (u32 (addr + 4)) (write i v s) m
      else load_list regs inst write addr s m
  end.
Fixpoint store_list (regs : list Z) (inst : Z) (read : Z → ARMul_State → Z) (addr : Z) (s : ARMul_State) (m : M) : option (Z * M) :=
  match regs with
  | [] => Some (addr, m)
  | i :: regs =>
      if truth (BIT inst i) then
        m ← WriteMemory32 addr (read i s) s m; store_list regs inst read (u32 (addr + 4)) s m
      else store_list regs inst read addr s m
  end.

(** The stack pointer and the link register of user mode. *)
Definition put_user (i v : Z) (s : ARMul_State) : ARMul_State :=
  if (i =? 13) || (i =? 14) then
    if Mode s =? USER32MODE then put_reg i v s else set_Reg_usr (<[Z.to_nat (i - 13) := v]> (Reg_usr s)) s
  else put_reg i v s.
Definition get_user (i : Z) (s : ARMul_State) : Z :=
  if (i =? 13) || (i =? 14) then if Mode s =? USER32MODE then reg i s else Reg_usr s !!! Z.to_nat (i - 13) else reg i s.
(** A load of the program counter selects the instruction set. *)
Definition put_interworking (i v : Z) (s : ARMul_State) : ARMul_State :=
  if i =? 15 then put_reg 15 (Z.land v 0xFFFFFFFE) (set_TFlag (Z.land v 1) s) else put_reg i v s.

Definition LDM_INST (inst : Z) (s : ARMul_State) (m : M) : option (ARMul_State * M * bool) :=
  '(addr, s) ← get_addr inst s;
  let to_pc := truth (BIT inst 15) in
  '(s, m) ←
    (if truth (BIT inst 22) && negb to_pc then
       '(_, s, m) ← load_list (seqZ 0 15) inst put_user addr s m; Some (s, m)
     else if negb (truth (BIT inst 22)) then
       '(_, s, m) ← load_list (seqZ 0 16) inst put_interworking addr s m; Some (s, m)
     else
       '(addr, s, m) ← load_list (seqZ 0 15) inst put_reg addr s m;
       let s := restore_cpsr s in
       '(m, v) ← ReadMemory32 addr s m;
       Some (put_reg 15 v s, m));
  Some (s, m, to_pc).

Definition STM_INST (inst : Z) (s : ARMul_State) (m : M) : option (ARMul_State * M) :=
  let Rn := f_Rn inst in
  let old_RN := reg Rn s in
  '(addr, s) ← get_addr inst s;
  let read := if BIT inst 22 =? 1 then get_user else λ i s, if i =? Rn then old_RN else reg i s in
  '(addr, m) ← store_list (seqZ 0 15) inst read addr s m;
  if truth (BIT inst 15) then m ← WriteMemory32 addr (u32 (reg 15 s + 8)) s m; Some (s, m) else Some (s, m).

(** *** Swaps and exclusive accesses *)

Definition SWP_INST (inst : Z) (s : ARMul_State) (m : M) : option (ARMul_State * M) :=
  let addr := reg (f_Rn inst) s in
  '(m, value) ← ReadMemory32 addr s m;
  m ← WriteMemory32 addr (reg (f_Rm inst) s) s m;
  Some (put_reg (f_Rd inst) value s, m).
Definition SWPB_INST (inst : Z) (s : ARMul_State) (m : M) : option (ARMul_State * M) :=
  let addr := reg (f_Rn inst) s in
  '(m, value) ← ReadMemory8 addr s m;
  m ← WriteMemory8 addr (Z.land (reg (f_Rm inst) s) 0xFF) s m;
  Some (put_reg (f_Rd inst) value s, m).

Definition load_exclusive (read : Z → ARMul_State → M → option (M * Z)) (inst : Z) (s : ARMul_State) (m : M) : option (ARMul_State * M) :=
  let read_addr := reg (f_Rn inst) s in
  let s := SetExclusiveMemoryAddress read_addr s in
  '(m, v) ← read read_addr s m; Some (put_reg (f_Rd inst) v s, m).
Definition LDREX_INST := load_exclusive ReadMemory32.
Definition LDREXB_INST := load_exclusive ReadMemory8.
Definition LDREXH_INST := load_exclusive ReadMemory16.
Definition LDREXD_INST (inst : Z) (s : ARMul_State) (m : M) : option (ARMul_State * M) :=
  let read_addr := reg (f_Rn inst) s in
  let s := SetExclusiveMemoryAddress read_addr s in
  '(m, v0) ← ReadMemory32 read_addr s m;
  let s := put_reg (f_Rd inst) v0 s in
  '(m, v1) ← ReadMemory32 (u32 (read_addr + 4)) s m;
  s ← put_reg_at (f_Rd inst + 1) v1 s;
  Some (s, m).

(** The store happens and gives 0 when the monitor holds the address; it gives 1 otherwise. *)
Definition store_exclusive (write : Z → ARMul_State → M → option M) (inst : Z) (s : ARMul_State) (m : M) : option (ARMul_State * M) :=
  let write_addr := reg (f_Rn inst) s in
  if IsExclusiveMemoryAccess write_addr s then
    let s := UnsetExclusiveMemoryAddress s in
    m ← write write_addr s m; Some (put_reg (f_Rd inst) 0 s, m)
  else Some (put_reg (f_Rd inst) 1 s, m).
Definition STREX_INST (inst : Z) := store_exclusive (λ a s m, WriteMemory32 a (reg (f_Rm inst) s) s m) inst.
Definition STREXB_INST (inst : Z) := store_exclusive (λ a s m, WriteMemory8 a (u8 (reg (f_Rm inst) s)) s m) inst.
Definition STREXH_INST (inst : Z) := store_exclusive (λ a s m, WriteMemory16 a (u16 (reg (f_Rm inst) s)) s m) inst.
Definition STREXD_INST (inst : Z) :=
  store_exclusive (λ a s m,
    let rt := reg (f_Rm inst) s in
    rt2 ← reg_at (f_Rm inst + 1) s;
    let value := if InBigEndianMode s then Z.lor (u64 (Z.shiftl rt 32)) rt2 else Z.lor (u64 (Z.shiftl rt2 32)) rt in
    WriteMemory64 a value s m) inst.

(** *** Exceptions *)

Definition RFE_INST (inst : Z) (s : ARMul_State) (m : M) : option (ARMul_State * M) :=
  '(address, s) ← get_addr inst s;
  '(m, cpsr) ← ReadMemory32 address s m;
  let s := set_Cpsr cpsr s in
  '(m, pc) ← ReadMemory32 (u32 (address + 4)) s m;
  Some (put_reg 15 pc s, m).
Definition SRS_INST (inst : Z) (s : ARMul_State) (m : M) : option (ARMul_State * M) :=
  '(address, s) ← get_addr inst s;
  m ← WriteMemory32 address (reg 14 s) s m;
  m ← WriteMemory32 (u32 (address + 4)) (Spsr_copy s) s m;
  Some (s, m).

End Memory.

(** ** The table of labels *)

Inductive label :=
  | L_VMLA | L_VMLS | L_VNMLA | L_VNMLS | L_VNMUL | L_VMUL | L_VADD | L_VSUB | L_VDIV | L_VMOVI | L_VMOVR |
  L_VABS | L_VNEG | L_VSQRT | L_VCMP | L_VCMP2 | L_VCVTBDS | L_VCVTBFF | L_VCVTBFI | L_VMOVBRS | L_VMSR |
  L_VMOVBRC | L_VMRS | L_VMOVBCR | L_VMOVBRRSS | L_VMOVBRRD | L_VSTR | L_VPUSH | L_VSTM | L_VPOP | L_VLDR |
  L_VLDM | L_SRS | L_RFE | L_BKPT | L_BLX | L_CPS | L_PLD | L_SETEND | L_CLREX | L_REV16 | L_USAD8 | L_SXTB |
  L_UXTB | L_SXTH | L_SXTB16 | L_UXTH | L_UXTB16 | L_CPY | L_UXTAB | L_SSUB8 | L_SHSUB8 | L_SSUBADDX | L_STREX
  | L_STREXB | L_SWP | L_SWPB | L_SSUB16 | L_SSAT16 | L_SHSUBADDX | L_QSUBADDX | L_SHADDSUBX | L_SHADD8 |
  L_SHADD16 | L_SEL | L_SADDSUBX | L_SADD8 | L_SADD16 | L_SHSUB16 | L_UMAAL | L_UXTAB16 | L_USUBADDX | L_USUB8
  | L_USUB16 | L_USAT16 | L_USADA8 | L_UQSUBADDX | L_UQSUB8 | L_UQSUB16 | L_UQADDSUBX | L_UQADD8 | L_UQADD16 |
  L_SXTAB | L_UHSUBADDX | L_UHSUB8 | L_UHSUB16 | L_UHADDSUBX | L_UHADD8 | L_UHADD16 | L_UADDSUBX | L_UADD8 |
  L_UADD16 | L_SXTAH | L_SXTAB16 | L_QADD8 | L_BXJ | L_CLZ | L_UXTAH | L_BX | L_REV | L_REVSH | L_QADD |
  L_QADD16 | L_QADDSUBX | L_LDREX | L_QDADD | L_QDSUB | L_QSUB | L_LDREXB | L_QSUB8 | L_QSUB16 | L_SMUAD |
  L_SMMUL | L_SMUSD | L_SMLSD | L_SMLSLD | L_SMMLA | L_SMMLS | L_SMLALD | L_SMLAD | L_SMLAW | L_SMULW |
  L_PKHTB | L_PKHBT | L_SMUL | L_SMLALXY | L_SMLA | L_MCRR | L_MRRC | L_CMP | L_TST | L_TEQ | L_CMN | L_SMULL
  | L_UMULL | L_UMLAL | L_SMLAL | L_MUL | L_MLA | L_SSAT | L_USAT | L_MRS | L_MSR | L_AND | L_BIC | L_LDM |
  L_EOR | L_ADD | L_RSB | L_RSC | L_SBC | L_ADC | L_SUB | L_ORR | L_MVN | L_MOV | L_STM | L_LDRSH | L_LDRSB |
  L_STRD | L_LDRH | L_STRH | L_LDRD | L_STRT | L_STRBT | L_LDRBT | L_LDRT | L_MRC | L_MCR | L_LDRB | L_STRB |
  L_LDR | L_LDRCOND | L_STR | L_CDP | L_STC | L_LDC | L_LDREXD | L_STREXD | L_LDREXH | L_STREXH | L_NOP |
  L_YIELD | L_WFE | L_WFI | L_SEV | L_SWI | L_BBL | L_B_2_THUMB | L_B_COND_THUMB | L_BL_1_THUMB | L_BL_2_THUMB
  | L_BLX_1_THUMB | L_DISPATCH | L_INIT_LENGTH | L_END.

Definition InstLabel : list label :=
  [L_VMLA; L_VMLS; L_VNMLA; L_VNMLS; L_VNMUL; L_VMUL; L_VADD; L_VSUB; L_VDIV; L_VMOVI; L_VMOVR; L_VABS;
   L_VNEG; L_VSQRT; L_VCMP; L_VCMP2; L_VCVTBDS; L_VCVTBFF; L_VCVTBFI; L_VMOVBRS; L_VMSR; L_VMOVBRC; L_VMRS;
   L_VMOVBCR; L_VMOVBRRSS; L_VMOVBRRD; L_VSTR; L_VPUSH; L_VSTM; L_VPOP; L_VLDR; L_VLDM; L_SRS; L_RFE; L_BKPT;
   L_BLX; L_CPS; L_PLD; L_SETEND; L_CLREX; L_REV16; L_USAD8; L_SXTB; L_UXTB; L_SXTH; L_SXTB16; L_UXTH;
   L_UXTB16; L_CPY; L_UXTAB; L_SSUB8; L_SHSUB8; L_SSUBADDX; L_STREX; L_STREXB; L_SWP; L_SWPB; L_SSUB16;
   L_SSAT16; L_SHSUBADDX; L_QSUBADDX; L_SHADDSUBX; L_SHADD8; L_SHADD16; L_SEL; L_SADDSUBX; L_SADD8; L_SADD16;
   L_SHSUB16; L_UMAAL; L_UXTAB16; L_USUBADDX; L_USUB8; L_USUB16; L_USAT16; L_USADA8; L_UQSUBADDX; L_UQSUB8;
   L_UQSUB16; L_UQADDSUBX; L_UQADD8; L_UQADD16; L_SXTAB; L_UHSUBADDX; L_UHSUB8; L_UHSUB16; L_UHADDSUBX;
   L_UHADD8; L_UHADD16; L_UADDSUBX; L_UADD8; L_UADD16; L_SXTAH; L_SXTAB16; L_QADD8; L_BXJ; L_CLZ; L_UXTAH;
   L_BX; L_REV; L_BLX; L_REVSH; L_QADD; L_QADD16; L_QADDSUBX; L_LDREX; L_QDADD; L_QDSUB; L_QSUB; L_LDREXB;
   L_QSUB8; L_QSUB16; L_SMUAD; L_SMMUL; L_SMUSD; L_SMLSD; L_SMLSLD; L_SMMLA; L_SMMLS; L_SMLALD; L_SMLAD;
   L_SMLAW; L_SMULW; L_PKHTB; L_PKHBT; L_SMUL; L_SMLALXY; L_SMLA; L_MCRR; L_MRRC; L_CMP; L_TST; L_TEQ; L_CMN;
   L_SMULL; L_UMULL; L_UMLAL; L_SMLAL; L_MUL; L_MLA; L_SSAT; L_USAT; L_MRS; L_MSR; L_AND; L_BIC; L_LDM; L_EOR;
   L_ADD; L_RSB; L_RSC; L_SBC; L_ADC; L_SUB; L_ORR; L_MVN; L_MOV; L_STM; L_LDM; L_LDRSH; L_STM; L_LDM;
   L_LDRSB; L_STRD; L_LDRH; L_STRH; L_LDRD; L_STRT; L_STRBT; L_LDRBT; L_LDRT; L_MRC; L_MCR; L_MSR; L_MSR;
   L_MSR; L_MSR; L_MSR; L_LDRB; L_STRB; L_LDR; L_LDRCOND; L_STR; L_CDP; L_STC; L_LDC; L_LDREXD; L_STREXD;
   L_LDREXH; L_STREXH; L_NOP; L_YIELD; L_WFE; L_WFI; L_SEV; L_SWI; L_BBL; L_B_2_THUMB; L_B_COND_THUMB;
   L_BL_1_THUMB; L_BL_2_THUMB; L_BLX_1_THUMB; L_DISPATCH; L_INIT_LENGTH; L_END].

(** What the translation says of an instruction: whether the block ends after it. *)
Inductive TransExtData := COND | NON_BRANCH | DIRECT_BRANCH | INDIRECT_BRANCH | CALL | RET | END_OF_PAGE | THUMB | SINGLE_STEP.
#[export] Instance TransExtData_eq_dec : EqDecision TransExtData.
Proof. solve_decision. Defined.

(** A translated instruction, with the word that its component is taken from. *)
Record arm_inst := mkInst { ai_idx : Z; ai_cond : Z; ai_br : TransExtData; ai_word : Z }.

Definition ends_if (b : bool) : TransExtData := if b then INDIRECT_BRANCH else NON_BRANCH.
Definition br_of (l : label) (inst : Z) : TransExtData :=
  match l with
  | L_ADC | L_ADD | L_AND | L_BIC | L_CPY | L_EOR | L_MOV | L_MVN | L_ORR | L_RSB | L_RSC | L_SBC | L_SUB
  | L_LDR | L_LDRCOND | L_LDRT | L_LDREX | L_LDREXB | L_LDREXH | L_LDREXD => ends_if (BITS inst 12 15 =? 15)
  | L_LDM => ends_if (truth (BIT inst 15))
  | L_BBL => if truth (BIT inst 24) then CALL else DIRECT_BRANCH
  | L_BLX | L_BX | L_BXJ | L_RFE => INDIRECT_BRANCH
  | L_B_2_THUMB | L_B_COND_THUMB | L_BL_2_THUMB | L_BLX_1_THUMB => DIRECT_BRANCH
  | _ => NON_BRANCH
  end.
Definition cond_of (l : label) (inst : Z) : Z := match l with L_RFE | L_SRS | L_SETEND => AL | _ => BITS inst 28 31 end.

(** [arm_instruction_trans[idx](inst, idx)]; nothing for an index outside the table. *)
Definition arm_instruction_trans (idx inst : Z) : option arm_inst :=
  ASSERT (idx <? 202) ;;
  l ← InstLabel !! Z.to_nat idx;
  Some (mkInst idx (cond_of l inst) (br_of l inst) inst).

(** ** The routine of a label *)

(** What follows a routine: the next instruction of the block, a new look-up, or the end of the loop. *)
Inductive next := NEXT | DISPATCH | RETURN.

Section Exec.
Context `{CpuBus M}.

Definition jumps (r : option (ARMul_State * M * bool)) : option (ARMul_State * M * next) :=
  '(s, m, jumped) ← r; Some (if jumped : bool then (s, m, DISPATCH) else (next_pc s, m, NEXT)).
Definition passed (cond : Z) (s : ARMul_State) : bool := (cond =? AL) || CondPassed s cond.

(** The frames: a routine of the state; one of the state and the memory; one that may jump. *)
Definition pure_inst (cond : Z) (f : ARMul_State → ARMul_State) (s : ARMul_State) (m : M) : option (ARMul_State * M * next) :=
  Some (next_pc (if passed cond s then f s else s), m, NEXT).
Definition option_inst (cond : Z) (f : ARMul_State → option ARMul_State) (s : ARMul_State) (m : M) : option (ARMul_State * M * next) :=
  s ← (if passed cond s then f s else Some s); Some (next_pc s, m, NEXT).
Definition mem_inst (cond : Z) (f : ARMul_State → M → option (ARMul_State * M)) (s : ARMul_State) (m : M) : option (ARMul_State * M * next) :=
  '(s, m) ← (if passed cond s then f s m else Some (s, m)); Some (next_pc s, m, NEXT).
Definition data_inst (cond : Z) (f : ARMul_State → option (ARMul_State * bool)) (s : ARMul_State) (m : M) : option (ARMul_State * M * next) :=
  if passed cond s then jumps ('(s, j) ← f s; Some (s, m, j)) else Some (next_pc s, m, NEXT).
Definition jump_inst (cond : Z) (f : ARMul_State → M → option (ARMul_State * M * bool)) (s : ARMul_State) (m : M) :
  option (ARMul_State * M * next) :=
  if passed cond s then jumps (f s m) else Some (next_pc s, m, NEXT).
(** The branches look up the next instruction also when the condition fails. *)
Definition branch_inst (cond : Z) (f : ARMul_State → ARMul_State) (s : ARMul_State) (m : M) : option (ARMul_State * M * next) :=
  Some (if passed cond s then f s else next_pc s, m, DISPATCH).

(** The labels of the integer instructions; the system call and the floating-point instructions are none of them. *)
Definition exec_label (l : label) (cond inst : Z) (s : ARMul_State) (m : M) : option (ARMul_State * M * next) :=
  match l with
  | L_ADC => data_inst cond (ADC_INST inst) s m
  | L_ADD => data_inst cond (ADD_INST inst) s m
  | L_AND => data_inst cond (AND_INST inst) s m
  | L_BIC => data_inst cond (BIC_INST inst) s m
  | L_CMN => data_inst cond (CMN_INST inst) s m
  | L_CMP => data_inst cond (CMP_INST inst) s m
  | L_CPY => data_inst cond (CPY_INST inst) s m
  | L_EOR => data_inst cond (EOR_INST inst) s m
  | L_MOV => data_inst cond (MOV_INST inst) s m
  | L_MVN => data_inst cond (MVN_INST inst) s m
  | L_ORR => data_inst cond (ORR_INST inst) s m
  | L_RSB => data_inst cond (RSB_INST inst) s m
  | L_RSC => data_inst cond (RSC_INST inst) s m
  | L_SBC => data_inst cond (SBC_INST inst) s m
  | L_SUB => data_inst cond (SUB_INST inst) s m
  | L_TEQ => data_inst cond (TEQ_INST inst) s m
  | L_TST => data_inst cond (TST_INST inst) s m
  | L_MUL => pure_inst cond (MUL_INST inst) s m
  | L_MLA => pure_inst cond (MLA_INST inst) s m
  | L_UMULL => pure_inst cond (UMULL_INST inst) s m
  | L_SMULL => pure_inst cond (SMULL_INST inst) s m
  | L_UMLAL => pure_inst cond (UMLAL_INST inst) s m
  | L_SMLAL => pure_inst cond (SMLAL_INST inst) s m
  | L_UMAAL => pure_inst cond (UMAAL_INST inst) s m
  | L_SMLA => pure_inst cond (SMLA_INST inst) s m
  | L_SMUL => pure_inst cond (SMUL_INST inst) s m
  | L_SMLALXY => pure_inst cond (SMLALXY_INST inst) s m
  | L_SMLAW => pure_inst cond (SMLAW_INST inst) s m
  | L_SMULW => pure_inst cond (SMULW_INST inst) s m
  | L_SMLAD | L_SMLSD | L_SMUAD | L_SMUSD => pure_inst cond (SMLAD_INST inst) s m
  | L_SMLALD | L_SMLSLD => pure_inst cond (SMLALD_INST inst) s m
  | L_SMMLA | L_SMMLS | L_SMMUL => pure_inst cond (SMMUL_INST inst) s m
  | L_QADD | L_QDADD | L_QDSUB | L_QSUB => pure_inst cond (QADD_INST inst) s m
  | L_SSAT => option_inst cond (SSAT_INST inst) s m
  | L_USAT => option_inst cond (USAT_INST inst) s m
  | L_SSAT16 => option_inst cond (SSAT16_INST inst) s m
  | L_USAT16 => option_inst cond (USAT16_INST inst) s m
  | L_SADD8 | L_SSUB8 | L_SADD16 | L_SADDSUBX | L_SSUBADDX | L_SSUB16 => pure_inst cond (SADD_INST inst) s m
  | L_UADD8 | L_UADD16 | L_UADDSUBX | L_USUB8 | L_USUB16 | L_USUBADDX => pure_inst cond (UADD_INST inst) s m
  | L_SHADD8 | L_SHADD16 | L_SHADDSUBX | L_SHSUB8 | L_SHSUB16 | L_SHSUBADDX => pure_inst cond (SHADD_INST inst) s m
  | L_UHADD8 | L_UHADD16 | L_UHADDSUBX | L_UHSUBADDX | L_UHSUB8 | L_UHSUB16 => pure_inst cond (UHADD_INST inst) s m
  | L_QADD8 | L_QADD16 | L_QADDSUBX | L_QSUB8 | L_QSUB16 | L_QSUBADDX => pure_inst cond (QADD8_INST inst) s m
  | L_UQADD8 | L_UQADD16 | L_UQADDSUBX | L_UQSUB8 | L_UQSUB16 | L_UQSUBADDX => pure_inst cond (UQADD_INST inst) s m
  | L_USAD8 | L_USADA8 => pure_inst cond (USAD8_INST inst) s m
  | L_SEL => pure_inst cond (SEL_INST inst) s m
  | L_SXTB => pure_inst cond (SXTB_INST inst) s m
  | L_SXTH => pure_inst cond (SXTH_INST inst) s m
  | L_UXTB => pure_inst cond (UXTB_INST inst) s m
  | L_UXTH => pure_inst cond (UXTH_INST inst) s m
  | L_UXTAB => pure_inst cond (UXTAB_INST inst) s m
  | L_UXTAH => pure_inst cond (UXTAH_INST inst) s m
  | L_SXTAB => pure_inst cond (SXTAB_INST inst) s m
  | L_SXTAH => pure_inst cond (SXTAH_INST inst) s m
  | L_SXTAB16 | L_SXTB16 => pure_inst cond (SXTAB16_INST inst) s m
  | L_UXTAB16 | L_UXTB16 => pure_inst cond (UXTAB16_INST inst) s m
  | L_PKHBT => pure_inst cond (PKHBT_INST inst) s m
  | L_PKHTB => pure_inst cond (PKHTB_INST inst) s m
  | L_REV | L_REV16 | L_REVSH => pure_inst cond (REV_INST inst) s m
  | L_CLZ => pure_inst cond (CLZ_INST inst) s m
  | L_MRS => pure_inst cond (MRS_INST inst) s m
  | L_MSR => pure_inst cond (MSR_INST inst) s m
  | L_MCR => pure_inst cond (MCR_INST inst) s m
  | L_MRC => pure_inst cond (MRC_INST inst) s m
  | L_CPS => Some (next_pc (CPS_INST inst s), m, NEXT)
  | L_SETEND => Some (next_pc (SETEND_INST inst s), m, NEXT)
  | L_CLREX => Some (next_pc (UnsetExclusiveMemoryAddress s), m, NEXT)
  | L_BKPT | L_LDC | L_STC | L_PLD | L_MCRR | L_MRRC | L_NOP | L_YIELD | L_WFE | L_WFI | L_SEV => Some (next_pc s, m, NEXT)
  | L_CDP => Some (if passed cond s then (set_NumInstrsToExecute 0 s, m, RETURN) else (next_pc s, m, NEXT))
  | L_BBL => branch_inst cond (BBL_INST inst) s m
  | L_BX | L_BXJ => branch_inst cond (BX_INST inst) s m
  | L_BLX => branch_inst cond (BLX_INST inst) s m
  | L_B_2_THUMB => Some (B_2_THUMB inst s, m, DISPATCH)
  | L_B_COND_THUMB => Some (B_COND_THUMB inst s, m, DISPATCH)
  | L_BL_1_THUMB => Some (next_pc (BL_1_THUMB inst s), m, NEXT)
  | L_BL_2_THUMB => Some (BL_2_THUMB inst s, m, DISPATCH)
  | L_BLX_1_THUMB => Some (BLX_1_THUMB inst s, m, DISPATCH)
  | L_LDM => jump_inst cond (LDM_INST inst) s m
  | L_LDR => jumps (LDR_INST inst s m)
  | L_LDRCOND => if CondPassed s cond then jumps (LDR_INST inst s m) else Some (next_pc s, m, NEXT)
  | L_LDRB => mem_inst cond (LDRB_INST inst) s m
  | L_LDRH => mem_inst cond (LDRH_INST inst) s m
  | L_LDRSB => mem_inst cond (LDRSB_INST inst) s m
  | L_LDRSH => mem_inst cond (LDRSH_INST inst) s m
  | L_LDRD =>
      '(s, m) ← (if passed cond s then LDRD_INST inst s m else Some (s, m)); Some (put_reg 15 (u32 (reg 15 s + 4)) s, m, NEXT)
  | L_LDRBT => mem_inst cond (LDRBT_INST inst) s m
  | L_LDRT => mem_inst cond (LDRT_INST inst) s m
  | L_STM => mem_inst cond (STM_INST inst) s m
  | L_STR => mem_inst cond (STR_INST inst) s m
  | L_STRB => mem_inst cond (STRB_INST inst) s m
  | L_STRH => mem_inst cond (STRH_INST inst) s m
  | L_STRD => mem_inst cond (STRD_INST inst) s m
  | L_STRBT => mem_inst cond (STRBT_INST inst) s m
  | L_STRT => mem_inst cond (STRT_INST inst) s m
  | L_SWP => mem_inst cond (SWP_INST inst) s m
  | L_SWPB => mem_inst cond (SWPB_INST inst) s m
  | L_LDREX => mem_inst cond (LDREX_INST inst) s m
  | L_LDREXB => mem_inst cond (LDREXB_INST inst) s m
  | L_LDREXH => mem_inst cond (LDREXH_INST inst) s m
  | L_LDREXD => mem_inst cond (LDREXD_INST inst) s m
  | L_STREX => mem_inst cond (STREX_INST inst) s m
  | L_STREXB => mem_inst cond (STREXB_INST inst) s m
  | L_STREXH => mem_inst cond (STREXH_INST inst) s m
  | L_STREXD => mem_inst cond (STREXD_INST inst) s m
  | L_RFE => '(s, m) ← RFE_INST inst s m; Some (s, m, DISPATCH)
  | L_SRS => '(s, m) ← SRS_INST inst s m; Some (next_pc s, m, NEXT)
  | _ => None
  end.

End Exec.
