(* ===== verification/ArmDecode.v ===== *)
(** * Decoding
    ([src/src/core/arm/dyncom/arm_dyncom_dec.cpp])

    The decoder goes through a table of patterns, triples of a first bit, a last bit and a value, and a
    second table of exclusions at the same index.  The theorem compares it with the
    diagrams of the manual of the architecture: every word that fits a diagram is decoded to the entry
    with that name.  It is proved by running the decoder on the diagram itself, with the bits that the diagram leaves
    open unknown; the run is sound for all the words that fit. *)

From Stdlib Require Import String Ascii.
From stdpp Require Import base list strings.
From S2P Require Import Prelude ArmSupp ArmOperands.
Open Scope Z_scope.

Record InstructionSetEncodingItem := item { it_name : string; attribute_value : nat; version : Z; content : list Z }.

Definition INVALID : Z := 0.
Definition ARMVFP2 : Z := 9.
Definition ARMVFP3 : Z := 10.
Definition ARMV6K : Z := 11.

Definition arm_instruction : list InstructionSetEncodingItem :=
  [item "vmla" 5 ARMVFP2 [23; 27; 28; 20; 21; 0; 9; 11; 5; 6; 6; 0; 4; 4; 0];
   item "vmls" 5 ARMVFP2 [23; 27; 28; 20; 21; 0; 9; 11; 5; 6; 6; 1; 4; 4; 0];
   item "vnmla" 5 ARMVFP2 [23; 27; 28; 20; 21; 1; 9; 11; 5; 6; 6; 1; 4; 4; 0];
   item "vnmls" 5 ARMVFP2 [23; 27; 28; 20; 21; 1; 9; 11; 5; 6; 6; 0; 4; 4; 0];
   item "vnmul" 5 ARMVFP2 [23; 27; 28; 20; 21; 2; 9; 11; 5; 6; 6; 1; 4; 4; 0];
   item "vmul" 5 ARMVFP2 [23; 27; 28; 20; 21; 2; 9; 11; 5; 6; 6; 0; 4; 4; 0];
   item "vadd" 5 ARMVFP2 [23; 27; 28; 20; 21; 3; 9; 11; 5; 6; 6; 0; 4; 4; 0];
   item "vsub" 5 ARMVFP2 [23; 27; 28; 20; 21; 3; 9; 11; 5; 6; 6; 1; 4; 4; 0];
   item "vdiv" 5 ARMVFP2 [23; 27; 29; 20; 21; 0; 9; 11; 5; 6; 6; 0; 4; 4; 0];
   item "vmov(i)" 4 ARMVFP3 [23; 27; 29; 20; 21; 3; 9; 11; 5; 4; 7; 0];
   item "vmov(r)" 5 ARMVFP3 [23; 27; 29; 16; 21; 0x30; 9; 11; 5; 6; 7; 1; 4; 4; 0];
   item "vabs" 5 ARMVFP2 [23; 27; 29; 16; 21; 0x30; 9; 11; 5; 6; 7; 3; 4; 4; 0];
   item "vneg" 5 ARMVFP2 [23; 27; 29; 17; 21; 24; 9; 11; 5; 6; 7; 1; 4; 4; 0];
   item "vsqrt" 5 ARMVFP2 [23; 27; 29; 16; 21; 0x31; 9; 11; 5; 6; 7; 3; 4; 4; 0];
   item "vcmp" 5 ARMVFP2 [23; 27; 29; 16; 21; 0x34; 9; 11; 5; 6; 6; 1; 4; 4; 0];
   item "vcmp2" 5 ARMVFP2 [23; 27; 29; 16; 21; 0x35; 9; 11; 5; 0; 6; 0x40];
   item "vcvt(bds)" 5 ARMVFP2 [23; 27; 29; 16; 21; 0x37; 9; 11; 5; 6; 7; 3; 4; 4; 0];
   item "vcvt(bff)" 6 ARMVFP3 [23; 27; 29; 19; 21; 7; 17; 17; 1; 9; 11; 5; 6; 6; 1];
   item "vcvt(bfi)" 5 ARMVFP2 [23; 27; 29; 19; 21; 7; 9; 11; 5; 6; 6; 1; 4; 4; 0];
   item "vmovbrs" 3 ARMVFP2 [21; 27; 0x70; 8; 11; 10; 0; 6; 16];
   item "vmsr" 2 ARMVFP2 [20; 27; 0xee; 0; 11; 0xa10];
   item "vmovbrc" 4 ARMVFP2 [23; 27; 28; 20; 20; 0; 8; 11; 11; 0; 4; 16];
   item "vmrs" 2 ARMVFP2 [20; 27; 0xef; 0; 11; 0xa10];
   item "vmovbcr" 4 ARMVFP2 [24; 27; 14; 20; 20; 1; 8; 11; 11; 0; 4; 16];
   item "vmovbrrss" 3 ARMVFP2 [21; 27; 0x62; 8; 11; 10; 4; 4; 1];
   item "vmovbrrd" 3 ARMVFP2 [21; 27; 0x62; 6; 11; 0x2c; 4; 4; 1];
   item "vstr" 3 ARMVFP2 [24; 27; 13; 20; 21; 0; 9; 11; 5];
   item "vpush" 3 ARMVFP2 [23; 27; 26; 16; 21; 0x2d; 9; 11; 5];
   item "vstm" 3 ARMVFP2 [25; 27; 6; 20; 20; 0; 9; 11; 5];
   item "vpop" 3 ARMVFP2 [23; 27; 25; 16; 21; 0x3d; 9; 11; 5];
   item "vldr" 3 ARMVFP2 [24; 27; 13; 20; 21; 1; 9; 11; 5];
   item "vldm" 3 ARMVFP2 [25; 27; 6; 20; 20; 1; 9; 11; 5];
   item "srs" 4 6 [25; 31; 0x7c; 22; 22; 1; 16; 20; 13; 8; 11; 5];
   item "rfe" 4 6 [25; 31; 0x7c; 22; 22; 0; 20; 20; 1; 8; 11; 10];
   item "bkpt" 2 3 [20; 27; 18; 4; 7; 7];
   item "blx" 1 3 [25; 31; 0x7d];
   item "cps" 3 6 [20; 31; 0xf10; 16; 16; 0; 5; 5; 0];
   item "pld" 4 4 [26; 31; 0x3d; 24; 24; 1; 20; 22; 5; 12; 15; 15];
   item "setend" 2 6 [16; 31; 0xf101; 4; 7; 0];
   item "clrex" 1 6 [0; 31; 0xf57ff01f];
   item "rev16" 2 6 [16; 27; 0x6bf; 4; 11; 0xfb];
   item "usad8" 3 6 [20; 27; 0x78; 12; 15; 15; 4; 7; 1];
   item "sxtb" 2 6 [16; 27; 0x6af; 4; 7; 7];
   item "uxtb" 2 6 [16; 27; 0x6ef; 4; 7; 7];
   item "sxth" 2 6 [16; 27; 0x6bf; 4; 7; 7];
   item "sxtb16" 2 6 [16; 27; 0x68f; 4; 7; 7];
   item "uxth" 2 6 [16; 27; 0x6ff; 4; 7; 7];
   item "uxtb16" 2 6 [16; 27; 0x6cf; 4; 7; 7];
   item "cpy" 2 6 [20; 27; 26; 4; 11; 0];
   item "uxtab" 2 6 [20; 27; 0x6e; 4; 9; 7];
   item "ssub8" 2 6 [20; 27; 0x61; 4; 7; 15];
   item "shsub8" 2 6 [20; 27; 0x63; 4; 7; 15];
   item "ssubaddx" 2 6 [20; 27; 0x61; 4; 7; 5];
   item "strex" 2 6 [20; 27; 24; 4; 7; 9];
   item "strexb" 2 7 [20; 27; 28; 4; 7; 9];
   item "swp" 2 0 [20; 27; 16; 4; 7; 9];
   item "swpb" 2 0 [20; 27; 20; 4; 7; 9];
   item "ssub16" 2 6 [20; 27; 0x61; 4; 7; 7];
   item "ssat16" 2 6 [20; 27; 0x6a; 4; 7; 3];
   item "shsubaddx" 2 6 [20; 27; 0x63; 4; 7; 5];
   item "qsubaddx" 2 6 [20; 27; 0x62; 4; 7; 5];
   item "shaddsubx" 2 6 [20; 27; 0x63; 4; 7; 3];
   item "shadd8" 2 6 [20; 27; 0x63; 4; 7; 9];
   item "shadd16" 2 6 [20; 27; 0x63; 4; 7; 1];
   item "sel" 2 6 [20; 27; 0x68; 4; 7; 11];
   item "saddsubx" 2 6 [20; 27; 0x61; 4; 7; 3];
   item "sadd8" 2 6 [20; 27; 0x61; 4; 7; 9];
   item "sadd16" 2 6 [20; 27; 0x61; 4; 7; 1];
   item "shsub16" 2 6 [20; 27; 0x63; 4; 7; 7];
   item "umaal" 2 6 [20; 27; 4; 4; 7; 9];
   item "uxtab16" 2 6 [20; 27; 0x6c; 4; 7; 7];
   item "usubaddx" 2 6 [20; 27; 0x65; 4; 7; 5];
   item "usub8" 2 6 [20; 27; 0x65; 4; 7; 15];
   item "usub16" 2 6 [20; 27; 0x65; 4; 7; 7];
   item "usat16" 2 6 [20; 27; 0x6e; 4; 7; 3];
   item "usada8" 2 6 [20; 27; 0x78; 4; 7; 1];
   item "uqsubaddx" 2 6 [20; 27; 0x66; 4; 7; 5];
   item "uqsub8" 2 6 [20; 27; 0x66; 4; 7; 15];
   item "uqsub16" 2 6 [20; 27; 0x66; 4; 7; 7];
   item "uqaddsubx" 2 6 [20; 27; 0x66; 4; 7; 3];
   item "uqadd8" 2 6 [20; 27; 0x66; 4; 7; 9];
   item "uqadd16" 2 6 [20; 27; 0x66; 4; 7; 1];
   item "sxtab" 2 6 [20; 27; 0x6a; 4; 7; 7];
   item "uhsubaddx" 2 6 [20; 27; 0x67; 4; 7; 5];
   item "uhsub8" 2 6 [20; 27; 0x67; 4; 7; 15];
   item "uhsub16" 2 6 [20; 27; 0x67; 4; 7; 7];
   item "uhaddsubx" 2 6 [20; 27; 0x67; 4; 7; 3];
   item "uhadd8" 2 6 [20; 27; 0x67; 4; 7; 9];
   item "uhadd16" 2 6 [20; 27; 0x67; 4; 7; 1];
   item "uaddsubx" 2 6 [20; 27; 0x65; 4; 7; 3];
   item "uadd8" 2 6 [20; 27; 0x65; 4; 7; 9];
   item "uadd16" 2 6 [20; 27; 0x65; 4; 7; 1];
   item "sxtah" 2 6 [20; 27; 0x6b; 4; 7; 7];
   item "sxtab16" 2 6 [20; 27; 0x68; 4; 7; 7];
   item "qadd8" 2 6 [20; 27; 0x62; 4; 7; 9];
   item "bxj" 2 5 [20; 27; 18; 4; 7; 2];
   item "clz" 2 3 [20; 27; 22; 4; 7; 1];
   item "uxtah" 2 6 [20; 27; 0x6f; 4; 7; 7];
   item "bx" 2 2 [20; 27; 18; 4; 7; 1];
   item "rev" 2 6 [20; 27; 0x6b; 4; 7; 3];
   item "blx" 2 3 [20; 27; 18; 4; 7; 3];
   item "revsh" 2 6 [20; 27; 0x6f; 4; 7; 11];
   item "qadd" 2 4 [20; 27; 16; 4; 7; 5];
   item "qadd16" 2 6 [20; 27; 0x62; 4; 7; 1];
   item "qaddsubx" 2 6 [20; 27; 0x62; 4; 7; 3];
   item "ldrex" 2 0 [20; 27; 25; 4; 7; 9];
   item "qdadd" 2 4 [20; 27; 20; 4; 7; 5];
   item "qdsub" 2 4 [20; 27; 22; 4; 7; 5];
   item "qsub" 2 4 [20; 27; 18; 4; 7; 5];
   item "ldrexb" 2 7 [20; 27; 29; 4; 7; 9];
   item "qsub8" 2 6 [20; 27; 0x62; 4; 7; 15];
   item "qsub16" 2 6 [20; 27; 0x62; 4; 7; 7];
   item "smuad" 4 6 [20; 27; 0x70; 12; 15; 15; 6; 7; 0; 4; 4; 1];
   item "smmul" 4 6 [20; 27; 0x75; 12; 15; 15; 6; 7; 0; 4; 4; 1];
   item "smusd" 4 6 [20; 27; 0x70; 12; 15; 15; 6; 7; 1; 4; 4; 1];
   item "smlsd" 3 6 [20; 27; 0x70; 6; 7; 1; 4; 4; 1];
   item "smlsld" 3 6 [20; 27; 0x74; 6; 7; 1; 4; 4; 1];
   item "smmla" 3 6 [20; 27; 0x75; 6; 7; 0; 4; 4; 1];
   item "smmls" 3 6 [20; 27; 0x75; 6; 7; 3; 4; 4; 1];
   item "smlald" 3 6 [20; 27; 0x74; 6; 7; 0; 4; 4; 1];
   item "smlad" 3 6 [20; 27; 0x70; 6; 7; 0; 4; 4; 1];
   item "smlaw" 3 4 [20; 27; 18; 7; 7; 1; 4; 5; 0];
   item "smulw" 3 4 [20; 27; 18; 7; 7; 1; 4; 5; 2];
   item "pkhtb" 2 6 [20; 27; 0x68; 4; 6; 5];
   item "pkhbt" 2 6 [20; 27; 0x68; 4; 6; 1];
   item "smul" 3 4 [20; 27; 22; 7; 7; 1; 4; 4; 0];
   item "smlalxy" 3 4 [20; 27; 20; 7; 7; 1; 4; 4; 0];
   item "smla" 3 4 [20; 27; 16; 7; 7; 1; 4; 4; 0];
   item "mcrr" 1 6 [20; 27; 0xc4];
   item "mrrc" 1 6 [20; 27; 0xc5];
   item "cmp" 2 0 [26; 27; 0; 20; 24; 21];
   item "tst" 2 0 [26; 27; 0; 20; 24; 17];
   item "teq" 2 0 [26; 27; 0; 20; 24; 19];
   item "cmn" 2 0 [26; 27; 0; 20; 24; 23];
   item "smull" 2 0 [21; 27; 6; 4; 7; 9];
   item "umull" 2 0 [21; 27; 4; 4; 7; 9];
   item "umlal" 2 0 [21; 27; 5; 4; 7; 9];
   item "smlal" 2 0 [21; 27; 7; 4; 7; 9];
   item "mul" 2 0 [21; 27; 0; 4; 7; 9];
   item "mla" 2 0 [21; 27; 1; 4; 7; 9];
   item "ssat" 2 6 [21; 27; 0x35; 4; 5; 1];
   item "usat" 2 6 [21; 27; 0x37; 4; 5; 1];
   item "mrs" 4 0 [23; 27; 2; 20; 21; 0; 16; 19; 15; 0; 11; 0];
   item "msr" 3 0 [23; 27; 2; 20; 21; 2; 4; 7; 0];
   item "and" 2 0 [26; 27; 0; 21; 24; 0];
   item "bic" 2 0 [26; 27; 0; 21; 24; 14];
   item "ldm" 3 0 [25; 27; 4; 20; 22; 5; 15; 15; 0];
   item "eor" 2 0 [26; 27; 0; 21; 24; 1];
   item "add" 2 0 [26; 27; 0; 21; 24; 4];
   item "rsb" 2 0 [26; 27; 0; 21; 24; 3];
   item "rsc" 2 0 [26; 27; 0; 21; 24; 7];
   item "sbc" 2 0 [26; 27; 0; 21; 24; 6];
   item "adc" 2 0 [26; 27; 0; 21; 24; 5];
   item "sub" 2 0 [26; 27; 0; 21; 24; 2];
   item "orr" 2 0 [26; 27; 0; 21; 24; 12];
   item "mvn" 2 0 [26; 27; 0; 21; 24; 15];
   item "mov" 2 0 [26; 27; 0; 21; 24; 13];
   item "stm" 2 0 [25; 27; 4; 20; 22; 4];
   item "ldm" 4 0 [25; 27; 4; 22; 22; 1; 20; 20; 1; 15; 15; 1];
   item "ldrsh" 3 2 [25; 27; 0; 20; 20; 1; 4; 7; 15];
   item "stm" 3 0 [25; 27; 4; 22; 22; 0; 20; 20; 0];
   item "ldm" 3 0 [25; 27; 4; 22; 22; 0; 20; 20; 1];
   item "ldrsb" 3 2 [25; 27; 0; 20; 20; 1; 4; 7; 13];
   item "strd" 3 4 [25; 27; 0; 20; 20; 0; 4; 7; 15];
   item "ldrh" 3 0 [25; 27; 0; 20; 20; 1; 4; 7; 11];
   item "strh" 3 0 [25; 27; 0; 20; 20; 0; 4; 7; 11];
   item "ldrd" 3 4 [25; 27; 0; 20; 20; 0; 4; 7; 13];
   item "strt" 3 0 [26; 27; 1; 24; 24; 0; 20; 22; 2];
   item "strbt" 3 0 [26; 27; 1; 24; 24; 0; 20; 22; 6];
   item "ldrbt" 3 0 [26; 27; 1; 24; 24; 0; 20; 22; 7];
   item "ldrt" 3 0 [26; 27; 1; 24; 24; 0; 20; 22; 3];
   item "mrc" 3 6 [24; 27; 14; 20; 20; 1; 4; 4; 1];
   item "mcr" 3 0 [24; 27; 14; 20; 20; 0; 4; 4; 1];
   item "msr" 3 0 [23; 27; 6; 20; 21; 2; 22; 22; 1];
   item "msr" 4 0 [23; 27; 6; 20; 21; 2; 22; 22; 0; 16; 19; 4];
   item "msr" 5 0 [23; 27; 6; 20; 21; 2; 22; 22; 0; 19; 19; 1; 16; 17; 0];
   item "msr" 4 0 [23; 27; 6; 20; 21; 2; 22; 22; 0; 16; 17; 1];
   item "msr" 4 0 [23; 27; 6; 20; 21; 2; 22; 22; 0; 17; 17; 1];
   item "ldrb" 3 0 [26; 27; 1; 22; 22; 1; 20; 20; 1];
   item "strb" 3 0 [26; 27; 1; 22; 22; 1; 20; 20; 0];
   item "ldr" 4 0 [28; 31; 14; 26; 27; 1; 22; 22; 0; 20; 20; 1];
   item "ldrcond" 3 0 [26; 27; 1; 22; 22; 0; 20; 20; 1];
   item "str" 3 0 [26; 27; 1; 22; 22; 0; 20; 20; 0];
   item "cdp" 2 0 [24; 27; 14; 4; 4; 0];
   item "stc" 2 0 [25; 27; 6; 20; 20; 0];
   item "ldc" 2 0 [25; 27; 6; 20; 20; 1];
   item "ldrexd" 2 ARMV6K [20; 27; 27; 4; 7; 9];
   item "strexd" 2 ARMV6K [20; 27; 26; 4; 7; 9];
   item "ldrexh" 2 ARMV6K [20; 27; 31; 4; 7; 9];
   item "strexh" 2 ARMV6K [20; 27; 30; 4; 7; 9];
   item "nop" 5 ARMV6K [23; 27; 6; 22; 22; 0; 20; 21; 2; 16; 19; 0; 0; 7; 0];
   item "yield" 5 ARMV6K [23; 27; 6; 22; 22; 0; 20; 21; 2; 16; 19; 0; 0; 7; 1];
   item "wfe" 5 ARMV6K [23; 27; 6; 22; 22; 0; 20; 21; 2; 16; 19; 0; 0; 7; 2];
   item "wfi" 5 ARMV6K [23; 27; 6; 22; 22; 0; 20; 21; 2; 16; 19; 0; 0; 7; 3];
   item "sev" 5 ARMV6K [23; 27; 6; 22; 22; 0; 20; 21; 2; 16; 19; 0; 0; 7; 4];
   item "swi" 1 0 [24; 27; 15];
   item "bbl" 1 0 [25; 27; 5]].

Definition arm_exclusion_code : list InstructionSetEncodingItem :=
  [item "vmla" 0 ARMVFP2 [0];
   item "vmls" 0 ARMVFP2 [0];
   item "vnmla" 0 ARMVFP2 [0];
   item "vnmls" 0 ARMVFP2 [0];
   item "vnmul" 0 ARMVFP2 [0];
   item "vmul" 0 ARMVFP2 [0];
   item "vadd" 0 ARMVFP2 [0];
   item "vsub" 0 ARMVFP2 [0];
   item "vdiv" 0 ARMVFP2 [0];
   item "vmov(i)" 0 ARMVFP3 [0];
   item "vmov(r)" 0 ARMVFP3 [0];
   item "vabs" 0 ARMVFP2 [0];
   item "vneg" 0 ARMVFP2 [0];
   item "vsqrt" 0 ARMVFP2 [0];
   item "vcmp" 0 ARMVFP2 [0];
   item "vcmp2" 0 ARMVFP2 [0];
   item "vcvt(bff)" 0 ARMVFP3 [4; 4; 1];
   item "vcvt(bds)" 0 ARMVFP2 [0];
   item "vcvt(bfi)" 0 ARMVFP2 [0];
   item "vmovbrs" 0 ARMVFP2 [0];
   item "vmsr" 0 ARMVFP2 [0];
   item "vmovbrc" 0 ARMVFP2 [0];
   item "vmrs" 0 ARMVFP2 [0];
   item "vmovbcr" 0 ARMVFP2 [0];
   item "vmovbrrss" 0 ARMVFP2 [0];
   item "vmovbrrd" 0 ARMVFP2 [0];
   item "vstr" 0 ARMVFP2 [0];
   item "vpush" 0 ARMVFP2 [0];
   item "vstm" 0 ARMVFP2 [0];
   item "vpop" 0 ARMVFP2 [0];
   item "vldr" 0 ARMVFP2 [0];
   item "vldm" 0 ARMVFP2 [0];
   item "srs" 0 6 [0];
   item "rfe" 0 6 [0];
   item "bkpt" 0 3 [0];
   item "blx" 0 3 [0];
   item "cps" 0 6 [0];
   item "pld" 0 4 [0];
   item "setend" 0 6 [0];
   item "clrex" 0 6 [0];
   item "rev16" 0 6 [0];
   item "usad8" 0 6 [0];
   item "sxtb" 0 6 [0];
   item "uxtb" 0 6 [0];
   item "sxth" 0 6 [0];
   item "sxtb16" 0 6 [0];
   item "uxth" 0 6 [0];
   item "uxtb16" 0 6 [0];
   item "cpy" 0 6 [0];
   item "uxtab" 0 6 [0];
   item "ssub8" 0 6 [0];
   item "shsub8" 0 6 [0];
   item "ssubaddx" 0 6 [0];
   item "strex" 0 6 [0];
   item "strexb" 0 7 [0];
   item "swp" 0 0 [0];
   item "swpb" 0 0 [0];
   item "ssub16" 0 6 [0];
   item "ssat16" 0 6 [0];
   item "shsubaddx" 0 6 [0];
   item "qsubaddx" 0 6 [0];
   item "shaddsubx" 0 6 [0];
   item "shadd8" 0 6 [0];
   item "shadd16" 0 6 [0];
   item "sel" 0 6 [0];
   item "saddsubx" 0 6 [0];
   item "sadd8" 0 6 [0];
   item "sadd16" 0 6 [0];
   item "shsub16" 0 6 [0];
   item "umaal" 0 6 [0];
   item "uxtab16" 0 6 [0];
   item "usubaddx" 0 6 [0];
   item "usub8" 0 6 [0];
   item "usub16" 0 6 [0];
   item "usat16" 0 6 [0];
   item "usada8" 0 6 [0];
   item "uqsubaddx" 0 6 [0];
   item "uqsub8" 0 6 [0];
   item "uqsub16" 0 6 [0];
   item "uqaddsubx" 0 6 [0];
   item "uqadd8" 0 6 [0];
   item "uqadd16" 0 6 [0];
   item "sxtab" 0 6 [0];
   item "uhsubaddx" 0 6 [0];
   item "uhsub8" 0 6 [0];
   item "uhsub16" 0 6 [0];
   item "uhaddsubx" 0 6 [0];
   item "uhadd8" 0 6 [0];
   item "uhadd16" 0 6 [0];
   item "uaddsubx" 0 6 [0];
   item "uadd8" 0 6 [0];
   item "uadd16" 0 6 [0];
   item "sxtah" 0 6 [0];
   item "sxtab16" 0 6 [0];
   item "qadd8" 0 6 [0];
   item "bxj" 0 5 [0];
   item "clz" 0 3 [0];
   item "uxtah" 0 6 [0];
   item "bx" 0 2 [0];
   item "rev" 0 6 [0];
   item "blx" 0 3 [0];
   item "revsh" 0 6 [0];
   item "qadd" 0 4 [0];
   item "qadd16" 0 6 [0];
   item "qaddsubx" 0 6 [0];
   item "ldrex" 0 0 [0];
   item "qdadd" 0 4 [0];
   item "qdsub" 0 4 [0];
   item "qsub" 0 4 [0];
   item "ldrexb" 0 7 [0];
   item "qsub8" 0 6 [0];
   item "qsub16" 0 6 [0];
   item "smuad" 0 6 [0];
   item "smmul" 0 6 [0];
   item "smusd" 0 6 [0];
   item "smlsd" 0 6 [0];
   item "smlsld" 0 6 [0];
   item "smmla" 0 6 [0];
   item "smmls" 0 6 [0];
   item "smlald" 0 6 [0];
   item "smlad" 0 6 [0];
   item "smlaw" 0 4 [0];
   item "smulw" 0 4 [0];
   item "pkhtb" 0 6 [0];
   item "pkhbt" 0 6 [0];
   item "smul" 0 4 [0];
   item "smlal" 0 4 [0];
   item "smla" 0 4 [0];
   item "mcrr" 0 6 [0];
   item "mrrc" 0 6 [0];
   item "cmp" 3 0 [4; 4; 1; 7; 7; 1; 25; 25; 0];
   item "tst" 3 0 [4; 4; 1; 7; 7; 1; 25; 25; 0];
   item "teq" 3 0 [4; 4; 1; 7; 7; 1; 25; 25; 0];
   item "cmn" 3 0 [4; 4; 1; 7; 7; 1; 25; 25; 0];
   item "smull" 0 0 [0];
   item "umull" 0 0 [0];
   item "umlal" 0 0 [0];
   item "smlal" 0 0 [0];
   item "mul" 0 0 [0];
   item "mla" 0 0 [0];
   item "ssat" 0 6 [0];
   item "usat" 0 6 [0];
   item "mrs" 0 0 [0];
   item "msr" 0 0 [0];
   item "and" 3 0 [4; 4; 1; 7; 7; 1; 25; 25; 0];
   item "bic" 3 0 [4; 4; 1; 7; 7; 1; 25; 25; 0];
   item "ldm" 0 0 [0];
   item "eor" 3 0 [4; 4; 1; 7; 7; 1; 25; 25; 0];
   item "add" 3 0 [4; 4; 1; 7; 7; 1; 25; 25; 0];
   item "rsb" 3 0 [4; 4; 1; 7; 7; 1; 25; 25; 0];
   item "rsc" 3 0 [4; 4; 1; 7; 7; 1; 25; 25; 0];
   item "sbc" 3 0 [4; 4; 1; 7; 7; 1; 25; 25; 0];
   item "adc" 3 0 [4; 4; 1; 7; 7; 1; 25; 25; 0];
   item "sub" 3 0 [4; 4; 1; 7; 7; 1; 25; 25; 0];
   item "orr" 3 0 [4; 4; 1; 7; 7; 1; 25; 25; 0];
   item "mvn" 3 0 [4; 4; 1; 7; 7; 1; 25; 25; 0];
   item "mov" 3 0 [4; 4; 1; 7; 7; 1; 25; 25; 0];
   item "stm" 0 0 [0];
   item "ldm" 0 0 [0];
   item "ldrsh" 0 2 [0];
   item "stm" 0 0 [0];
   item "ldm" 0 0 [0];
   item "ldrsb" 0 2 [0];
   item "strd" 0 4 [0];
   item "ldrh" 0 0 [0];
   item "strh" 0 0 [0];
   item "ldrd" 0 4 [0];
   item "strt" 0 0 [0];
   item "strbt" 0 0 [0];
   item "ldrbt" 0 0 [0];
   item "ldrt" 0 0 [0];
   item "mrc" 0 6 [0];
   item "mcr" 0 0 [0];
   item "msr" 0 0 [0];
   item "msr" 0 0 [0];
   item "msr" 0 0 [0];
   item "msr" 0 0 [0];
   item "msr" 0 0 [0];
   item "ldrb" 0 0 [0];
   item "strb" 0 0 [0];
   item "ldr" 0 0 [0];
   item "ldrcond" 1 0 [28; 31; 14];
   item "str" 0 0 [0];
   item "cdp" 0 0 [0];
   item "stc" 0 0 [0];
   item "ldc" 0 0 [0];
   item "ldrexd" 0 ARMV6K [0];
   item "strexd" 0 ARMV6K [0];
   item "ldrexh" 0 ARMV6K [0];
   item "strexh" 0 ARMV6K [0];
   item "nop" 0 ARMV6K [0];
   item "yield" 0 ARMV6K [0];
   item "wfe" 0 ARMV6K [0];
   item "wfi" 0 ARMV6K [0];
   item "sev" 0 ARMV6K [0];
   item "swi" 0 0 [0];
   item "bbl" 0 0 [0];
   item "bl_1_thumb" 0 INVALID [0];
   item "bl_2_thumb" 0 INVALID [0];
   item "blx_1_thumb" 0 INVALID [0];
   item "invalid" 0 INVALID [0]].

(** An element of the content, which the initialiser pads with zeros. *)
Definition at_ (c : list Z) (i : nat) : Z := default 0 (c !! i).

(** The [n] triples from [base]; the triple for the whole word is compared as it is. *)
Fixpoint all_match (instr : Z) (c : list Z) (base n : nat) : bool :=
  match n with
  | O => true
  | S n =>
      let a := at_ c base in let b := at_ c (base + 1) in let v := at_ c (base + 2) in
      if (b =? 31) && (a =? 0) then (instr =? v) && all_match instr c (base + 3) n
      else (BITS instr a b =? v) && all_match instr c (base + 3) n
  end.
Fixpoint all_excluded (instr : Z) (c : list Z) (base n : nat) : bool :=
  match n with
  | O => true
  | S n => (BITS instr (at_ c base) (at_ c (base + 1)) =? at_ c (base + 2)) && all_excluded instr c (base + 3) n
  end.

(** One step of the loop: the entry is taken. *)
Definition entry_matches (instr : Z) (i : nat) : bool :=
  match arm_instruction !! i, arm_exclusion_code !! i with
  | Some e, Some x =>
      negb (version e =? ARMVFP3) && all_match instr (content e) 0 (attribute_value e) &&
      negb (negb (Nat.eqb (attribute_value x) 0) && all_excluded instr (content x) 0 (attribute_value x))
  | _, _ => false
  end.
Fixpoint decode_from (instr : Z) (i fuel : nat) : option nat :=
  match fuel with
  | O => None
  | S fuel => if entry_matches instr i then Some i else decode_from instr (S i) fuel
  end.
(** The index of the entry, nothing for a failure. *)
Definition DecodeARMInstruction (instr : Z) : option nat := decode_from instr 0 (length arm_instruction).
Definition name_of (i : nat) : string := default EmptyString (it_name <$> arm_instruction !! i).

Example decode_samples :
  (name_of <$> DecodeARMInstruction 0xE0921003) = Some "add"%string ∧
  (name_of <$> DecodeARMInstruction 0xE92D4010) = Some "stm"%string ∧
  (name_of <$> DecodeARMInstruction 0xDEADC0DE) = Some "mcr"%string ∧
  (name_of <$> DecodeARMInstruction 0xE320F000) = Some "nop"%string ∧
  (name_of <$> DecodeARMInstruction 0xE7F000F0) = Some "ldrb"%string ∧
  DecodeARMInstruction 0xE0500090 = None.
Proof. repeat split; vm_compute; reflexivity. Qed.

(** ** Diagrams

    A diagram is a string of 0, 1 and letters for the bits of a word from the top; spaces do not count. *)

(** The bits of a pattern, from bit 0. *)
Definition pattern := list (option bool).
Fixpoint pattern_onto (p : pattern) (d : string) : pattern :=
  match d with
  | EmptyString => p
  | String c d =>
      if Ascii.eqb c " " then pattern_onto p d
      else pattern_onto ((if Ascii.eqb c "0" then Some false else if Ascii.eqb c "1" then Some true else None) :: p) d
  end.
Definition pattern_of (d : string) : pattern := pattern_onto [] d.

Definition pbit (p : pattern) (i : nat) : option bool := default None (p !! i).
(** A word fits a pattern when it has its bits. *)
Definition fits (p : pattern) (w : Z) : Prop := ∀ i b, (i < length p)%nat → pbit p i = Some b → Z.testbit w (Z.of_nat i) = b.

(** A word fits a pattern, as a test with a mask. *)
Definition mask_of (p : pattern) : Z := foldr (λ b acc, 2 * acc + Z.b2z (bool_decide (is_Some b))) 0 p.
Definition value_of (p : pattern) : Z := foldr (λ b acc, 2 * acc + Z.b2z (default false b)) 0 p.
Lemma foldr_bit (f : option bool → bool) p i :
  (i < length p)%nat → Z.testbit (foldr (λ b acc, 2 * acc + Z.b2z (f b)) 0 p) (Z.of_nat i) = f (pbit p i).
Proof.
  revert i. induction p as [|b p IH]; intros i Hi; cbn [length foldr] in *; [lia|].
  destruct i as [|i]; [by rewrite Z.testbit_0_r|].
  rewrite Nat2Z.inj_succ, Z.testbit_succ_r by lia. apply IH. lia.
Qed.
Lemma fits_mask p w : Z.land w (mask_of p) = value_of p → fits p w.
Proof.
  intros H i b Hi Hb. apply (f_equal (λ z, Z.testbit z (Z.of_nat i))) in H. rewrite Z.land_spec in H. unfold mask_of, value_of in H.
  rewrite !foldr_bit, Hb in H by done. by rewrite andb_true_r in H.
Qed.

(** *** The decoder on a pattern: yes, no, or unknown *)

(** The bits of a field, where they are known, against a value; [todo] bits from [i]. *)
Fixpoint sym_bits (p : pattern) (i todo : nat) (v : Z) : option bool :=
  match todo with
  | O => Some (v =? 0)
  | S todo =>
      match pbit p i, sym_bits p (S i) todo (Z.div2 v) with
      | _, Some false => Some false
      | Some b, r => if Bool.eqb b (Z.odd v) then r else Some false
      | None, _ => None
      end
  end.
Definition sym_and (x y : option bool) : option bool :=
  match x, y with Some false, _ | _, Some false => Some false | Some true, Some true => Some true | _, _ => None end.
Fixpoint sym_all (p : pattern) (c : list Z) (base n : nat) : option bool :=
  match n with
  | O => Some true
  | S n =>
      let a := at_ c base in let b := at_ c (base + 1) in
      sym_and (sym_bits p (Z.to_nat a) (Z.to_nat (b - a + 1)) (at_ c (base + 2))) (sym_all p c (base + 3) n)
  end.
Definition sym_entry (p : pattern) (i : nat) : option bool :=
  match arm_instruction !! i, arm_exclusion_code !! i with
  | Some e, Some x =>
      if version e =? ARMVFP3 then Some false
      else sym_and (sym_all p (content e) 0 (attribute_value e))
             (if Nat.eqb (attribute_value x) 0 then Some true else negb <$> sym_all p (content x) 0 (attribute_value x))
  | _, _ => None
  end.
Fixpoint sym_decode (p : pattern) (i fuel : nat) : option nat :=
  match fuel with
  | O => None
  | S fuel => match sym_entry p i with Some true => Some i | Some false => sym_decode p (S i) fuel | None => None end
  end.

(** The fields of the tables are fields of a word. *)
Definition good_triples (c : list Z) (n : nat) : bool :=
  forallb (λ k, let a := at_ c (3 * k) in let b := at_ c (3 * k + 1) in (0 <=? a) && (a <=? b) && (b <=? 31) && (0 <=? at_ c (3 * k + 2))) (seq 0 n).
Lemma tables_good :
  forallb (λ e, good_triples (content e) (attribute_value e)) arm_instruction = true ∧
  forallb (λ e, good_triples (content e) (attribute_value e)) arm_exclusion_code = true.
Proof. split; vm_compute; reflexivity. Qed.

Lemma sym_bits_sound p w i todo v r :
  fits p w → (i + todo <= length p)%nat → 0 <= v → sym_bits p i todo v = Some r →
  ((w / 2 ^ Z.of_nat i) `mod` 2 ^ Z.of_nat todo =? v) = r.
Proof.
  intros Hf. revert i v r. induction todo as [|todo IH]; intros i v r Hl Hv Hs; simpl in Hs.
  - injection Hs as <-. rewrite Z.mod_1_r. destruct (Z.eqb_spec v 0), (Z.eqb_spec 0 v); lia || done.
  - assert (Z.odd (w / 2 ^ Z.of_nat i) = Z.testbit w (Z.of_nat i)) as Hodd.
    { rewrite <- Z.shiftr_div_pow2, <- Z.bit0_odd, Z.shiftr_spec by lia. done. }
    set (x := w / 2 ^ Z.of_nat i) in *.
    assert (w / 2 ^ Z.of_nat (S i) = x / 2) as Hx.
    { unfold x. rewrite Z.div_div by lia. f_equal. rewrite Nat2Z.inj_succ, Z.pow_succ_r by lia. lia. }
    assert (x `mod` 2 ^ Z.of_nat (S todo) = Z.b2z (Z.odd x) + 2 * ((x / 2) `mod` 2 ^ Z.of_nat todo)) as Hm.
    { rewrite Nat2Z.inj_succ, Z.pow_succ_r, Z.rem_mul_r by lia. by rewrite Zmod_odd. }
    rewrite Hm. assert (v = Z.b2z (Z.odd v) + 2 * Z.div2 v) as Ev.
    { rewrite (Z.div2_odd v) at 1. destruct (Z.odd v); simpl; lia. }
    assert (0 <= Z.div2 v) as Hv2 by (by apply Z.div2_nonneg).
    specialize (IH (S i) (Z.div2 v)). rewrite Hx in IH. rewrite Ev at 1. clear Ev.
    destruct (sym_bits p (S i) todo (Z.div2 v)) as [[|]|] eqn:E.
    + specialize (IH true ltac:(lia) Hv2 eq_refl). apply Z.eqb_eq in IH. rewrite IH.
      destruct (pbit p i) as [b|] eqn:Eb; [|done]. apply Hf in Eb; [|lia]. rewrite <- Hodd in Eb. rewrite Eb.
      destruct b, (Z.odd v); simpl in *; simplify_eq; apply Z.eqb_eq || apply Z.eqb_neq; simpl; lia.
    + specialize (IH false ltac:(lia) Hv2 eq_refl). apply Z.eqb_neq in IH.
      assert (r = false) as -> by (by destruct (pbit p i); simplify_eq). apply Z.eqb_neq.
      destruct (Z.odd x), (Z.odd v); simpl; lia.
    + destruct (pbit p i) as [b|] eqn:Eb; [|done]. apply Hf in Eb; [|lia]. rewrite <- Hodd in Eb.
      destruct (Bool.eqb b (Z.odd v)) eqn:Eq; [done|]. injection Hs as <-. apply Z.eqb_neq. rewrite Eb. destruct b, (Z.odd v); simpl in *; try done; lia.
Qed.

Lemma sym_and_Some x y r : sym_and x y = Some r →
  (x = Some false ∧ r = false) ∨ (y = Some false ∧ r = false) ∨ (x = Some true ∧ y = Some true ∧ r = true).
Proof. destruct x as [[|]|], y as [[|]|]; simpl; intros [= <-]; auto. Qed.

Section Sound.
Context (p : pattern) (w : Z) (Hlen : length p = 32%nat) (Hfits : fits p w) (Hw : 0 <= w < 2 ^ 32).

Lemma field_sound a b v r :
  0 <= a → a <= b <= 31 → 0 <= v → sym_bits p (Z.to_nat a) (Z.to_nat (b - a + 1)) v = Some r → (BITS w a b =? v) = r.
Proof.
  intros Ha Hb Hv Hs. apply (sym_bits_sound p w) in Hs; [|done|lia|done]. rewrite BITS_div by lia. rewrite !Z2Nat.id in Hs by lia. done.
Qed.

Lemma good_triple c base n k :
  good_triples c n = true → base = (3 * k)%nat → (k < n)%nat →
  0 <= at_ c base ∧ at_ c base <= at_ c (base + 1) <= 31 ∧ 0 <= at_ c (base + 2).
Proof.
  unfold good_triples. intros Hg -> Hk. rewrite forallb_forall in Hg. specialize (Hg k). rewrite in_seq in Hg. specialize (Hg ltac:(lia)).
  cbv zeta in Hg. rewrite !andb_true_iff, !Z.leb_le in Hg. lia.
Qed.

Lemma sym_all_sound c N n k r :
  good_triples c N = true → (k + n <= N)%nat → sym_all p c (3 * k) n = Some r →
  all_match w c (3 * k) n = r ∧ all_excluded w c (3 * k) n = r.
Proof.
  intros Hg. revert k r. induction n as [|n IH]; intros k r Hk Hs; cbn [sym_all] in Hs; [by injection Hs as <-|].
  destruct (good_triple c (3 * k) N k Hg eq_refl ltac:(lia)) as (Ha & Hb & Hv).
  replace (3 * k + 3)%nat with (3 * S k)%nat in Hs by lia. cbn [all_match all_excluded].
  replace (3 * k + 3)%nat with (3 * S k)%nat by lia.
  assert ((at_ c (3 * k + 1) =? 31) && (at_ c (3 * k) =? 0) = true → BITS w (at_ c (3 * k)) (at_ c (3 * k + 1)) = w) as Hwhole.
  { intros [E1%Z.eqb_eq E2%Z.eqb_eq]%andb_true_iff. rewrite E1, E2, BITS_div by lia. rewrite Z.pow_0_r, Z.div_1_r. by apply Z.mod_small. }
  assert (∀ x, (if (at_ c (3 * k + 1) =? 31) && (at_ c (3 * k) =? 0) then (w =? at_ c (3 * k + 2)) && x
               else (BITS w (at_ c (3 * k)) (at_ c (3 * k + 1)) =? at_ c (3 * k + 2)) && x)
              = (BITS w (at_ c (3 * k)) (at_ c (3 * k + 1)) =? at_ c (3 * k + 2)) && x) as ->.
  { intros x. destruct ((at_ c (3 * k + 1) =? 31) && (at_ c (3 * k) =? 0)); [by rewrite Hwhole|done]. }
  apply sym_and_Some in Hs as [[Hs ->]|[[Hs ->]|(Hs & Hs' & ->)]].
  - apply field_sound in Hs as ->; done.
  - apply IH in Hs as [-> ->]; [|lia]. by rewrite !andb_false_r.
  - apply field_sound in Hs as ->; [|done..]. apply IH in Hs' as [-> ->]; [done|lia].
Qed.

Lemma sym_entry_sound i r : sym_entry p i = Some r → entry_matches w i = r.
Proof.
  unfold sym_entry, entry_matches. destruct tables_good as [G1 G2]. rewrite forallb_forall in G1, G2.
  destruct (arm_instruction !! i) as [e|] eqn:Ee; [|done]. destruct (arm_exclusion_code !! i) as [x|] eqn:Ex; [|done].
  assert (good_triples (content e) (attribute_value e) = true) as Ge by (apply G1, list_elem_of_In; by eapply list_elem_of_lookup_2).
  assert (good_triples (content x) (attribute_value x) = true) as Gx by (apply G2, list_elem_of_In; by eapply list_elem_of_lookup_2).
  destruct (version e =? ARMVFP3); [by intros [= <-]|]. cbn [negb andb]. intros Hs.
  assert (∀ b, (if Nat.eqb (attribute_value x) 0 then Some true else negb <$> sym_all p (content x) 0 (attribute_value x)) = Some b →
    negb (negb (Nat.eqb (attribute_value x) 0) && all_excluded w (content x) 0 (attribute_value x)) = b) as Hx.
  { intros b. destruct (Nat.eqb (attribute_value x) 0); [by intros [= <-]|]. cbn [negb andb].
    destruct (sym_all p (content x) 0 (attribute_value x)) as [b'|] eqn:E; [|done]. intros [= <-].
    apply (sym_all_sound _ _ _ 0 _ Gx) in E as [_ E]; [|lia]. change (3 * 0)%nat with 0%nat in E. by rewrite E. }
  assert (∀ b, sym_all p (content e) 0 (attribute_value e) = Some b → all_match w (content e) 0 (attribute_value e) = b) as He.
  { intros b E. by apply (sym_all_sound _ _ _ 0 _ Ge) in E as [E _]. }
  apply sym_and_Some in Hs as [[Hs ->]|[[Hs ->]|(Hs & Hs' & ->)]].
  - by rewrite (He _ Hs).
  - by rewrite (Hx _ Hs), andb_false_r.
  - by rewrite (He _ Hs), (Hx _ Hs').
Qed.

Lemma sym_decode_sound i fuel k : sym_decode p i fuel = Some k → decode_from w i fuel = Some k.
Proof.
  revert i. induction fuel as [|fuel IH]; intros i; simpl; [done|]. destruct (sym_entry p i) as [[|]|] eqn:E; [| |done].
  - intros [= <-]. by rewrite (sym_entry_sound _ _ E).
  - rewrite (sym_entry_sound _ _ E). apply IH.
Qed.

End Sound.

(** ** The diagrams of the manual

    The instructions of ARMv6K except the floating-point ones.  A diagram of 28 bits holds for the fifteen conditions.
    Where the manual gives an encoding to another instruction, the diagram is split, as for the additions with extension,
    whose first operand is not the program counter. *)

Definition conditional_diagrams : list (string * string) :=
  [("and", "001 0000 s nnnn dddd rrrr iiiiiiii");
   ("and", "000 0000 s nnnn dddd ssss 0tt1 mmmm");
   ("and", "000 0000 s nnnn dddd iiii itt0 mmmm");
   ("eor", "001 0001 s nnnn dddd rrrr iiiiiiii");
   ("eor", "000 0001 s nnnn dddd ssss 0tt1 mmmm");
   ("eor", "000 0001 s nnnn dddd iiii itt0 mmmm");
   ("sub", "001 0010 s nnnn dddd rrrr iiiiiiii");
   ("sub", "000 0010 s nnnn dddd ssss 0tt1 mmmm");
   ("sub", "000 0010 s nnnn dddd iiii itt0 mmmm");
   ("rsb", "001 0011 s nnnn dddd rrrr iiiiiiii");
   ("rsb", "000 0011 s nnnn dddd ssss 0tt1 mmmm");
   ("rsb", "000 0011 s nnnn dddd iiii itt0 mmmm");
   ("add", "001 0100 s nnnn dddd rrrr iiiiiiii");
   ("add", "000 0100 s nnnn dddd ssss 0tt1 mmmm");
   ("add", "000 0100 s nnnn dddd iiii itt0 mmmm");
   ("adc", "001 0101 s nnnn dddd rrrr iiiiiiii");
   ("adc", "000 0101 s nnnn dddd ssss 0tt1 mmmm");
   ("adc", "000 0101 s nnnn dddd iiii itt0 mmmm");
   ("sbc", "001 0110 s nnnn dddd rrrr iiiiiiii");
   ("sbc", "000 0110 s nnnn dddd ssss 0tt1 mmmm");
   ("sbc", "000 0110 s nnnn dddd iiii itt0 mmmm");
   ("rsc", "001 0111 s nnnn dddd rrrr iiiiiiii");
   ("rsc", "000 0111 s nnnn dddd ssss 0tt1 mmmm");
   ("rsc", "000 0111 s nnnn dddd iiii itt0 mmmm");
   ("tst", "001 1000 1 nnnn dddd rrrr iiiiiiii");
   ("tst", "000 1000 1 nnnn dddd ssss 0tt1 mmmm");
   ("tst", "000 1000 1 nnnn dddd iiii itt0 mmmm");
   ("teq", "001 1001 1 nnnn dddd rrrr iiiiiiii");
   ("teq", "000 1001 1 nnnn dddd ssss 0tt1 mmmm");
   ("teq", "000 1001 1 nnnn dddd iiii itt0 mmmm");
   ("cmp", "001 1010 1 nnnn dddd rrrr iiiiiiii");
   ("cmp", "000 1010 1 nnnn dddd ssss 0tt1 mmmm");
   ("cmp", "000 1010 1 nnnn dddd iiii itt0 mmmm");
   ("cmn", "001 1011 1 nnnn dddd rrrr iiiiiiii");
   ("cmn", "000 1011 1 nnnn dddd ssss 0tt1 mmmm");
   ("cmn", "000 1011 1 nnnn dddd iiii itt0 mmmm");
   ("orr", "001 1100 s nnnn dddd rrrr iiiiiiii");
   ("orr", "000 1100 s nnnn dddd ssss 0tt1 mmmm");
   ("orr", "000 1100 s nnnn dddd iiii itt0 mmmm");
   ("mov", "001 1101 s nnnn dddd rrrr iiiiiiii");
   ("mov", "000 1101 s nnnn dddd ssss 0tt1 mmmm");
   ("bic", "001 1110 s nnnn dddd rrrr iiiiiiii");
   ("bic", "000 1110 s nnnn dddd ssss 0tt1 mmmm");
   ("bic", "000 1110 s nnnn dddd iiii itt0 mmmm");
   ("mvn", "001 1111 s nnnn dddd rrrr iiiiiiii");
   ("mvn", "000 1111 s nnnn dddd ssss 0tt1 mmmm");
   ("mvn", "000 1111 s nnnn dddd iiii itt0 mmmm");
   ("mov", "000 1101 1 nnnn dddd iiii itt0 mmmm");
   ("mov", "000 1101 0 nnnn dddd iiii i1t0 mmmm");
   ("mov", "000 1101 0 nnnn dddd iiii i010 mmmm");
   ("mov", "000 1101 0 nnnn dddd 1iii i000 mmmm");
   ("mov", "000 1101 0 nnnn dddd 01ii i000 mmmm");
   ("mov", "000 1101 0 nnnn dddd 001i i000 mmmm");
   ("mov", "000 1101 0 nnnn dddd 0001 i000 mmmm");
   ("mov", "000 1101 0 nnnn dddd 0000 1000 mmmm");
   ("cpy", "000 1101 0 nnnn dddd 0000 0000 mmmm");
   ("mul", "0000 000s dddd nnnn ssss 1001 mmmm");
   ("mla", "0000 001s dddd nnnn ssss 1001 mmmm");
   ("umaal", "0000 0100 dddd nnnn ssss 1001 mmmm");
   ("umull", "0000 100s dddd nnnn ssss 1001 mmmm");
   ("umlal", "0000 101s dddd nnnn ssss 1001 mmmm");
   ("smull", "0000 110s dddd nnnn ssss 1001 mmmm");
   ("smlal", "0000 111s dddd nnnn ssss 1001 mmmm");
   ("smla", "0001 0000 dddd nnnn ssss 1yx0 mmmm");
   ("smlaw", "0001 0010 dddd nnnn ssss 1y00 mmmm");
   ("smulw", "0001 0010 dddd 0000 ssss 1y10 mmmm");
   ("smlalxy", "0001 0100 hhhh llll ssss 1yx0 mmmm");
   ("smul", "0001 0110 dddd 0000 ssss 1yx0 mmmm");
   ("qadd", "0001 0000 nnnn dddd 0000 0101 mmmm");
   ("qsub", "0001 0010 nnnn dddd 0000 0101 mmmm");
   ("qdadd", "0001 0100 nnnn dddd 0000 0101 mmmm");
   ("qdsub", "0001 0110 nnnn dddd 0000 0101 mmmm");
   ("mrs", "0001 0r00 1111 dddd 0000 0000 0000");
   ("msr", "0001 0r10 kkkk 1111 0000 0000 nnnn");
   ("msr", "0011 0110 kkkk 1111 rrrr iiiiiiii");
   ("msr", "0011 0010 0001 1111 rrrr iiiiiiii");
   ("msr", "0011 0010 0010 1111 rrrr iiiiiiii");
   ("msr", "0011 0010 0011 1111 rrrr iiiiiiii");
   ("msr", "0011 0010 0100 1111 rrrr iiiiiiii");
   ("msr", "0011 0010 0101 1111 rrrr iiiiiiii");
   ("msr", "0011 0010 0110 1111 rrrr iiiiiiii");
   ("msr", "0011 0010 0111 1111 rrrr iiiiiiii");
   ("msr", "0011 0010 1000 1111 rrrr iiiiiiii");
   ("msr", "0011 0010 1001 1111 rrrr iiiiiiii");
   ("msr", "0011 0010 1010 1111 rrrr iiiiiiii");
   ("msr", "0011 0010 1011 1111 rrrr iiiiiiii");
   ("msr", "0011 0010 1100 1111 rrrr iiiiiiii");
   ("msr", "0011 0010 1101 1111 rrrr iiiiiiii");
   ("msr", "0011 0010 1110 1111 rrrr iiiiiiii");
   ("msr", "0011 0010 1111 1111 rrrr iiiiiiii");
   ("nop", "0011 0010 0000 1111 0000 0000 0000");
   ("yield", "0011 0010 0000 1111 0000 0000 0001");
   ("wfe", "0011 0010 0000 1111 0000 0000 0010");
   ("wfi", "0011 0010 0000 1111 0000 0000 0011");
   ("sev", "0011 0010 0000 1111 0000 0000 0100");
   ("bx", "0001 0010 1111 1111 1111 0001 mmmm");
   ("bxj", "0001 0010 1111 1111 1111 0010 mmmm");
   ("blx", "0001 0010 1111 1111 1111 0011 mmmm");
   ("clz", "0001 0110 1111 dddd 1111 0001 mmmm");
   ("bkpt", "0001 0010 iiii iiii iiii 0111 iiii");
   ("swp", "0001 0000 nnnn dddd 0000 1001 mmmm");
   ("swpb", "0001 0100 nnnn dddd 0000 1001 mmmm");
   ("strex", "0001 1000 nnnn dddd 1111 1001 mmmm");
   ("strexd", "0001 1010 nnnn dddd 1111 1001 mmmm");
   ("strexb", "0001 1100 nnnn dddd 1111 1001 mmmm");
   ("strexh", "0001 1110 nnnn dddd 1111 1001 mmmm");
   ("ldrex", "0001 1001 nnnn dddd 1111 1001 1111");
   ("ldrexd", "0001 1011 nnnn dddd 1111 1001 1111");
   ("ldrexb", "0001 1101 nnnn dddd 1111 1001 1111");
   ("ldrexh", "0001 1111 nnnn dddd 1111 1001 1111");
   ("strh", "000p uiw0 nnnn dddd iiii 1011 iiii");
   ("ldrh", "000p uiw1 nnnn dddd iiii 1011 iiii");
   ("ldrd", "000p uiw0 nnnn dddd iiii 1101 iiii");
   ("ldrsb", "000p uiw1 nnnn dddd iiii 1101 iiii");
   ("strd", "000p uiw0 nnnn dddd iiii 1111 iiii");
   ("ldrsh", "000p uiw1 nnnn dddd iiii 1111 iiii");
   ("str", "0101 u0w0 nnnn dddd iiii iiii iiii");
   ("str", "0111 u0w0 nnnn dddd iiii itt0 mmmm");
   ("str", "0100 u000 nnnn dddd iiii iiii iiii");
   ("str", "0110 u000 nnnn dddd iiii itt0 mmmm");
   ("strb", "0101 u1w0 nnnn dddd iiii iiii iiii");
   ("strb", "0111 u1w0 nnnn dddd iiii itt0 mmmm");
   ("strb", "0100 u100 nnnn dddd iiii iiii iiii");
   ("strb", "0110 u100 nnnn dddd iiii itt0 mmmm");
   ("ldrb", "0101 u1w1 nnnn dddd iiii iiii iiii");
   ("ldrb", "0111 u1w1 nnnn dddd iiii itt0 mmmm");
   ("ldrb", "0100 u101 nnnn dddd iiii iiii iiii");
   ("ldrb", "0110 u101 nnnn dddd iiii itt0 mmmm");
   ("strt", "0100 u010 nnnn dddd iiii iiii iiii");
   ("strt", "0110 u010 nnnn dddd iiii itt0 mmmm");
   ("strbt", "0100 u110 nnnn dddd iiii iiii iiii");
   ("strbt", "0110 u110 nnnn dddd iiii itt0 mmmm");
   ("ldrt", "0100 u011 nnnn dddd iiii iiii iiii");
   ("ldrt", "0110 u011 nnnn dddd iiii itt0 mmmm");
   ("ldrbt", "0100 u111 nnnn dddd iiii iiii iiii");
   ("ldrbt", "0110 u111 nnnn dddd iiii itt0 mmmm");
   ("sadd16", "0110 0001 nnnn dddd 1111 0001 mmmm");
   ("saddsubx", "0110 0001 nnnn dddd 1111 0011 mmmm");
   ("ssubaddx", "0110 0001 nnnn dddd 1111 0101 mmmm");
   ("ssub16", "0110 0001 nnnn dddd 1111 0111 mmmm");
   ("sadd8", "0110 0001 nnnn dddd 1111 1001 mmmm");
   ("ssub8", "0110 0001 nnnn dddd 1111 1111 mmmm");
   ("qadd16", "0110 0010 nnnn dddd 1111 0001 mmmm");
   ("qaddsubx", "0110 0010 nnnn dddd 1111 0011 mmmm");
   ("qsubaddx", "0110 0010 nnnn dddd 1111 0101 mmmm");
   ("qsub16", "0110 0010 nnnn dddd 1111 0111 mmmm");
   ("qadd8", "0110 0010 nnnn dddd 1111 1001 mmmm");
   ("qsub8", "0110 0010 nnnn dddd 1111 1111 mmmm");
   ("shadd16", "0110 0011 nnnn dddd 1111 0001 mmmm");
   ("shaddsubx", "0110 0011 nnnn dddd 1111 0011 mmmm");
   ("shsubaddx", "0110 0011 nnnn dddd 1111 0101 mmmm");
   ("shsub16", "0110 0011 nnnn dddd 1111 0111 mmmm");
   ("shadd8", "0110 0011 nnnn dddd 1111 1001 mmmm");
   ("shsub8", "0110 0011 nnnn dddd 1111 1111 mmmm");
   ("uadd16", "0110 0101 nnnn dddd 1111 0001 mmmm");
   ("uaddsubx", "0110 0101 nnnn dddd 1111 0011 mmmm");
   ("usubaddx", "0110 0101 nnnn dddd 1111 0101 mmmm");
   ("usub16", "0110 0101 nnnn dddd 1111 0111 mmmm");
   ("uadd8", "0110 0101 nnnn dddd 1111 1001 mmmm");
   ("usub8", "0110 0101 nnnn dddd 1111 1111 mmmm");
   ("uqadd16", "0110 0110 nnnn dddd 1111 0001 mmmm");
   ("uqaddsubx", "0110 0110 nnnn dddd 1111 0011 mmmm");
   ("uqsubaddx", "0110 0110 nnnn dddd 1111 0101 mmmm");
   ("uqsub16", "0110 0110 nnnn dddd 1111 0111 mmmm");
   ("uqadd8", "0110 0110 nnnn dddd 1111 1001 mmmm");
   ("uqsub8", "0110 0110 nnnn dddd 1111 1111 mmmm");
   ("uhadd16", "0110 0111 nnnn dddd 1111 0001 mmmm");
   ("uhaddsubx", "0110 0111 nnnn dddd 1111 0011 mmmm");
   ("uhsubaddx", "0110 0111 nnnn dddd 1111 0101 mmmm");
   ("uhsub16", "0110 0111 nnnn dddd 1111 0111 mmmm");
   ("uhadd8", "0110 0111 nnnn dddd 1111 1001 mmmm");
   ("uhsub8", "0110 0111 nnnn dddd 1111 1111 mmmm");
   ("pkhbt", "0110 1000 nnnn dddd iiii i001 mmmm");
   ("pkhtb", "0110 1000 nnnn dddd iiii i101 mmmm");
   ("ssat", "0110 101i iiii dddd iiii is01 nnnn");
   ("usat", "0110 111i iiii dddd iiii is01 nnnn");
   ("ssat16", "0110 1010 iiii dddd 1111 0011 nnnn");
   ("usat16", "0110 1110 iiii dddd 1111 0011 nnnn");
   ("sxtb16", "0110 1000 1111 dddd rr00 0111 mmmm");
   ("sxtab16", "0110 1000 0nnn dddd rr00 0111 mmmm");
   ("sxtab16", "0110 1000 10nn dddd rr00 0111 mmmm");
   ("sxtab16", "0110 1000 110n dddd rr00 0111 mmmm");
   ("sxtab16", "0110 1000 1110 dddd rr00 0111 mmmm");
   ("sxtb", "0110 1010 1111 dddd rr00 0111 mmmm");
   ("sxtab", "0110 1010 0nnn dddd rr00 0111 mmmm");
   ("sxtab", "0110 1010 10nn dddd rr00 0111 mmmm");
   ("sxtab", "0110 1010 110n dddd rr00 0111 mmmm");
   ("sxtab", "0110 1010 1110 dddd rr00 0111 mmmm");
   ("sxth", "0110 1011 1111 dddd rr00 0111 mmmm");
   ("sxtah", "0110 1011 0nnn dddd rr00 0111 mmmm");
   ("sxtah", "0110 1011 10nn dddd rr00 0111 mmmm");
   ("sxtah", "0110 1011 110n dddd rr00 0111 mmmm");
   ("sxtah", "0110 1011 1110 dddd rr00 0111 mmmm");
   ("uxtb16", "0110 1100 1111 dddd rr00 0111 mmmm");
   ("uxtab16", "0110 1100 0nnn dddd rr00 0111 mmmm");
   ("uxtab16", "0110 1100 10nn dddd rr00 0111 mmmm");
   ("uxtab16", "0110 1100 110n dddd rr00 0111 mmmm");
   ("uxtab16", "0110 1100 1110 dddd rr00 0111 mmmm");
   ("uxtb", "0110 1110 1111 dddd rr00 0111 mmmm");
   ("uxtab", "0110 1110 0nnn dddd rr00 0111 mmmm");
   ("uxtab", "0110 1110 10nn dddd rr00 0111 mmmm");
   ("uxtab", "0110 1110 110n dddd rr00 0111 mmmm");
   ("uxtab", "0110 1110 1110 dddd rr00 0111 mmmm");
   ("uxth", "0110 1111 1111 dddd rr00 0111 mmmm");
   ("uxtah", "0110 1111 0nnn dddd rr00 0111 mmmm");
   ("uxtah", "0110 1111 10nn dddd rr00 0111 mmmm");
   ("uxtah", "0110 1111 110n dddd rr00 0111 mmmm");
   ("uxtah", "0110 1111 1110 dddd rr00 0111 mmmm");
   ("sel", "0110 1000 nnnn dddd 1111 1011 mmmm");
   ("rev", "0110 1011 1111 dddd 1111 0011 mmmm");
   ("rev16", "0110 1011 1111 dddd 1111 1011 mmmm");
   ("revsh", "0110 1111 1111 dddd 1111 1011 mmmm");
   ("usad8", "0111 1000 dddd 1111 ssss 0001 mmmm");
   ("usada8", "0111 1000 dddd 0aaa ssss 0001 mmmm");
   ("usada8", "0111 1000 dddd 10aa ssss 0001 mmmm");
   ("usada8", "0111 1000 dddd 110a ssss 0001 mmmm");
   ("usada8", "0111 1000 dddd 1110 ssss 0001 mmmm");
   ("smuad", "0111 0000 dddd 1111 ssss 00x1 mmmm");
   ("smlad", "0111 0000 dddd 0aaa ssss 00x1 mmmm");
   ("smlad", "0111 0000 dddd 10aa ssss 00x1 mmmm");
   ("smlad", "0111 0000 dddd 110a ssss 00x1 mmmm");
   ("smlad", "0111 0000 dddd 1110 ssss 00x1 mmmm");
   ("smusd", "0111 0000 dddd 1111 ssss 01x1 mmmm");
   ("smlsd", "0111 0000 dddd 0aaa ssss 01x1 mmmm");
   ("smlsd", "0111 0000 dddd 10aa ssss 01x1 mmmm");
   ("smlsd", "0111 0000 dddd 110a ssss 01x1 mmmm");
   ("smlsd", "0111 0000 dddd 1110 ssss 01x1 mmmm");
   ("smmul", "0111 0101 dddd 1111 ssss 00r1 mmmm");
   ("smmla", "0111 0101 dddd 0aaa ssss 00r1 mmmm");
   ("smmla", "0111 0101 dddd 10aa ssss 00r1 mmmm");
   ("smmla", "0111 0101 dddd 110a ssss 00r1 mmmm");
   ("smmla", "0111 0101 dddd 1110 ssss 00r1 mmmm");
   ("smmls", "0111 0101 dddd aaaa ssss 11r1 mmmm");
   ("smlald", "0111 0100 hhhh llll ssss 00x1 mmmm");
   ("smlsld", "0111 0100 hhhh llll ssss 01x1 mmmm");
   ("stm", "100p u0w0 nnnn llll llll llll llll");
   ("stm", "100p u100 nnnn llll llll llll llll");
   ("ldm", "100p u0w1 nnnn llll llll llll llll");
   ("ldm", "100p u101 nnnn 0lll llll llll llll");
   ("ldm", "100p u1w1 nnnn 1lll llll llll llll");
   ("bbl", "101l iiii iiii iiii iiii iiii iiii");
   ("swi", "1111 iiii iiii iiii iiii iiii iiii");
   ("cdp", "1110 oooo nnnn dddd 1111 ooo0 mmmm");
   ("mcr", "1110 ooo0 nnnn dddd 1111 ooo1 mmmm");
   ("mrc", "1110 ooo1 nnnn dddd 1111 ooo1 mmmm");
   ("mcrr", "1100 0100 nnnn dddd 1111 oooo mmmm");
   ("mrrc", "1100 0101 nnnn dddd 1111 oooo mmmm");
   ("stc", "1101 udw0 nnnn dddd 1111 iiii iiii");
   ("ldc", "1101 udw1 nnnn dddd 1111 iiii iiii")]%string.

Definition unconditional_diagrams : list (string * string) :=
  [("blx", "1111 101h iiii iiii iiii iiii iiii iiii");
   ("cps", "1111 0001 0000 jjm0 0000 000a if0k kkkk");
   ("setend", "1111 0001 0000 0001 0000 00e0 0000 0000");
   ("clrex", "1111 0101 0111 1111 1111 0000 0001 1111");
   ("pld", "1111 0101 u101 nnnn 1111 iiii iiii iiii");
   ("pld", "1111 0111 u101 nnnn 1111 iiii itt0 mmmm");
   ("rfe", "1111 100p u0w1 nnnn 0000 1010 0000 0000");
   ("srs", "1111 100p u1w0 1101 0000 0101 000k kkkk");
   ("ldr", "1110 0101 u0w1 nnnn dddd iiii iiii iiii");
   ("ldr", "1110 0111 u0w1 nnnn dddd iiii itt0 mmmm");
   ("ldr", "1110 0100 u001 nnnn dddd iiii iiii iiii");
   ("ldr", "1110 0110 u001 nnnn dddd iiii itt0 mmmm")]%string.

(** Loads of a word under a condition have an entry of their own. *)
Definition conditional_loads : list (string * string) :=
  [("ldrcond", "0101 u0w1 nnnn dddd iiii iiii iiii");
   ("ldrcond", "0111 u0w1 nnnn dddd iiii itt0 mmmm");
   ("ldrcond", "0100 u001 nnnn dddd iiii iiii iiii");
   ("ldrcond", "0110 u001 nnnn dddd iiii itt0 mmmm")]%string.

Definition condition_bits (c : nat) : pattern := map Some [Nat.testbit c 0; Nat.testbit c 1; Nat.testbit c 2; Nat.testbit c 3].
Definition with_conditions (n : nat) (l : list (string * string)) : list (string * pattern) :=
  '(name, d) ← l; (λ c, (name, pattern_of d ++ condition_bits c)) <$> seq 0 n.
Definition arm_diagrams : list (string * pattern) :=
  with_conditions 15 conditional_diagrams ++ with_conditions 14 conditional_loads ++ (prod_map id pattern_of <$> unconditional_diagrams).

Definition diagram_decodes (d : string * pattern) : bool :=
  Nat.eqb (length d.2) 32 &&
  match sym_decode d.2 0 (length arm_instruction) with Some i => String.eqb (name_of i) d.1 | None => false end.
Lemma diagrams_decode : forallb diagram_decodes arm_diagrams = true.
Proof. vm_compute. reflexivity. Qed.

(** C21: Every instruction of the manual is decoded as itself: a word that fits the diagram of an instruction, under any of the
    conditions that the diagram allows, is decoded to the entry of the tables with the name of the instruction, although the
    decoder takes the first pattern that matches and most patterns test a part of the fixed bits only. *)
Theorem decodes_the_manual name d instr :
  (name, d) ∈ arm_diagrams → word instr → fits d instr → name_of <$> DecodeARMInstruction instr = Some name.
Proof.
  intros Hd Hw Hf. pose proof diagrams_decode as H. rewrite forallb_forall in H. specialize (H (name, d)).
  rewrite <- list_elem_of_In in H. specialize (H Hd). unfold diagram_decodes in H. cbn [fst snd] in H.
  apply andb_true_iff in H as [Hl%Nat.eqb_eq H]. destruct (sym_decode d 0 (length arm_instruction)) as [i|] eqn:E; [|done].
  apply String.eqb_eq in H as <-. unfold DecodeARMInstruction. by rewrite (sym_decode_sound d instr Hl Hf Hw _ _ _ E).
Qed.

(** A word that is decoded as a data-processing instruction has a routine of the shifter: the pointer is never null. *)
Definition shifter_names : list string :=
  ["adc"; "add"; "and"; "bic"; "cmn"; "cmp"; "cpy"; "eor"; "mov"; "mvn"; "orr"; "rsb"; "rsc"; "sbc"; "sub"; "teq"; "tst"]%string.

Definition shifter_guarded (i : nat) : bool :=
  negb (existsb (String.eqb (name_of i)) shifter_names) ||
  match arm_instruction !! i, arm_exclusion_code !! i with
  | Some e, Some x =>
      bool_decide (content x = [4; 4; 1; 7; 7; 1; 25; 25; 0] ∧ attribute_value x = 3%nat) ||
      bool_decide (content e = [20; 27; 0x1a; 4; 11; 0] ∧ attribute_value e = 2%nat)
  | _, _ => false
  end.
Lemma shifters_guarded : forallb shifter_guarded (seq 0 (length arm_instruction)) = true.
Proof. vm_compute. reflexivity. Qed.

Lemma decode_from_Some instr i fuel k :
  decode_from instr i fuel = Some k → entry_matches instr k = true ∧ (i <= k < i + fuel)%nat.
Proof.
  revert i. induction fuel as [|fuel IH]; intros i; simpl; [done|]. destruct (entry_matches instr i) eqn:E.
  - intros [= <-]. split; [done|lia].
  - intros H. apply IH in H as [? ?]. split; [done|lia].
Qed.

Theorem data_processing_never_null instr i :
  word instr → DecodeARMInstruction instr = Some i → name_of i ∈ shifter_names → is_Some (GetShifterOp instr).
Proof.
  intros Hw Hd Hn. apply decode_from_Some in Hd as [Hm Hi]. pose proof shifters_guarded as Hg. rewrite forallb_forall in Hg.
  specialize (Hg i). rewrite in_seq in Hg. specialize (Hg ltac:(lia)). unfold shifter_guarded in Hg.
  assert (existsb (String.eqb (name_of i)) shifter_names = true) as E.
  { apply existsb_exists. exists (name_of i). split; [by apply list_elem_of_In|apply String.eqb_refl]. }
  rewrite E in Hg. cbn [negb orb] in Hg. unfold entry_matches in Hm.
  destruct (arm_instruction !! i) as [e|]; [|done]. destruct (arm_exclusion_code !! i) as [x|]; [|done].
  rewrite !andb_true_iff in Hm. destruct Hm as [[_ Hm] Hx]. rewrite shifter_select by done. unfold shifter_routine.
  destruct (field instr 25 25 =? 1) eqn:EI; [eauto|]. destruct (field instr 4 4 =? 0) eqn:E4; [eauto|].
  destruct (field instr 7 7 =? 0) eqn:E7; [eauto|]. exfalso.
  pose proof (field_range instr 25 25 ltac:(lia)). pose proof (field_range instr 4 4 ltac:(lia)). pose proof (field_range instr 7 7 ltac:(lia)).
  apply Z.eqb_neq in EI, E4, E7. apply orb_true_iff in Hg as [[Hc Ha]%bool_decide_eq_true_1|[Hc Ha]%bool_decide_eq_true_1].
  - rewrite Hc, Ha in Hx. cbn [all_excluded at_ lookup list_lookup default id Nat.add Nat.eqb negb andb] in Hx.
    rewrite !BITS_field in Hx by (done || lia).
    replace (field instr 4 4) with 1 in Hx by lia. replace (field instr 7 7) with 1 in Hx by lia. replace (field instr 25 25) with 0 in Hx by lia. done.
  - rewrite Hc, Ha in Hm. cbn in Hm. rewrite !andb_true_iff, !Z.eqb_eq in Hm. destruct Hm as (_ & Hm & _).
    rewrite BITS_field, (field_split instr 4 4 11) in Hm by (done || lia). pose proof (field_range instr (4 + 1) 11 ltac:(lia)). lia.
Qed.

(** ** Examples *)

Module Examples.

(** [ADDS r0, r1, r2]. *)
Lemma decodes_the_manual_witness : name_of <$> DecodeARMInstruction 0xE0910002 = Some "add"%string.
Proof.
  apply (decodes_the_manual "add" (pattern_of "000 0100 s nnnn dddd iiii itt0 mmmm"%string ++ condition_bits 14)).
  - apply (bool_decide_eq_true_1 _). vm_compute. reflexivity.
  - unfold word. lia.
  - apply fits_mask. vm_compute. reflexivity.
Defined.

Lemma data_processing_never_null_witness : is_Some (GetShifterOp 0xE0910002).
Proof.
  apply (data_processing_never_null _ (default O (DecodeARMInstruction 0xE0910002))).
  - unfold word. lia.
  - vm_compute. reflexivity.
  - apply (bool_decide_eq_true_1 _). vm_compute. reflexivity.
Defined.

End Examples.
