(* ===== verification/ArmThumb.v ===== *)
(** * Thumb instructions
    ([src/src/core/arm/dyncom/arm_dyncom_thumb.cpp], [arm_dyncom_thumb.h];
    [DecodeThumbInstruction] of [arm_dyncom_interpreter.cpp])

    A halfword is translated to the word of the equivalent instruction, which then goes through the
    decoder of [ArmDecode]; the branches have routines of their own.  The theorem is an exhaustive comparison with a table
    of diagrams: how the fields of each Thumb instruction are placed in the word, and which entry decodes it. *)

From Stdlib Require Import String Ascii.
From stdpp Require Import base list strings.
From S2P Require Import Prelude ArmSupp ArmOperands ArmDecode.
Open Scope Z_scope.

Inductive ThumbDecodeStatus := UNDEFINED | DECODED | BRANCH | UNINITIALIZED.
#[export] Instance ThumbDecodeStatus_eq_dec : EqDecision ThumbDecodeStatus.
Proof. solve_decision. Defined.

(** The halfword at an address, in the aligned word that holds it. *)
Definition GetThumbInstruction (instr address : Z) : Z :=
  if truth (Z.land address 3) then Z.shiftr instr 16 else Z.land instr 0xFFFF.

(** A table indexed with a field of the instruction. *)
Definition subset (l : list Z) (i : Z) : Z := default 0 (l !! Z.to_nat i).

Inductive otype := t_norm | t_shift | t_neg | t_mul.
Definition alu_subset : list (Z * otype) :=
  [(0xE0100000, t_norm); (0xE0300000, t_norm); (0xE1B00010, t_shift); (0xE1B00030, t_shift); (0xE1B00050, t_shift);
   (0xE0B00000, t_norm); (0xE0D00000, t_norm); (0xE1B00070, t_shift); (0xE1100000, t_norm); (0xE2700000, t_neg);
   (0xE1500000, t_norm); (0xE1700000, t_norm); (0xE1900000, t_norm); (0xE0100090, t_mul); (0xE1D00000, t_norm); (0xE1F00000, t_norm)].

(** A field of the halfword moved to the left or to the right. *)
Definition fl (tinstr mask n : Z) : Z := Z.shiftl (Z.land tinstr mask) n.
Definition fr (tinstr mask n : Z) : Z := Z.shiftr (Z.land tinstr mask) n.
Definition ors (l : list Z) : Z := foldl Z.lor 0 l.
Definition flag (tinstr n : Z) : bool := truth (Z.land tinstr (Z.shiftl 1 n)).

Definition thumb_alu (tinstr : Z) : Z :=
  let '(opcode, type) := default (0, t_norm) (alu_subset !! Z.to_nat (fr tinstr 0x03C0 6)) in
  ors (opcode ::
    match type with
    | t_norm => [fl tinstr 0x0007 16; fl tinstr 0x0007 12; fr tinstr 0x0038 3]
    | t_shift => [fl tinstr 0x0007 12; fr tinstr 0x0007 0; fl tinstr 0x0038 (8 - 3)]
    | t_neg => [fl tinstr 0x0007 12; fl tinstr 0x0038 (16 - 3)]
    | t_mul => [fl tinstr 0x0007 16; fl tinstr 0x0007 8; fr tinstr 0x0038 3]
    end).

Definition thumb_high (tinstr : Z) : Z :=
  let Rd := fr tinstr 0x0007 0 in
  let Rs := fr tinstr 0x0078 3 in
  let Rd := if flag tinstr 7 then Rd + 8 else Rd in
  let c := fr tinstr 0x03C0 6 in
  if c <=? 3 then ors [0xE0800000; Z.shiftl Rd 16; Z.shiftl Rd 12; Rs]
  else if c <=? 7 then ors [0xE1500000; Z.shiftl Rd 16; Rs]
  else if c <=? 0xB then ors [0xE1A00000; Z.shiftl Rd 12; Rs]
  else if c <=? 0xD then ors [0xE12FFF10; fr tinstr 0x0078 3]
  else ors [0xE1200030; Rs].

(** The miscellaneous instructions; [None] for the undefined one. *)
Definition thumb_misc (tinstr : Z) : option Z :=
  let c := Z.land tinstr 0x0F00 in
  if c =? 0x0000 then Some (ors [if flag tinstr 7 then 0xE24DDF00 else 0xE28DDF00; Z.land tinstr 0x007F])
  else if c =? 0x0e00 then Some (ors [0xEF000000; BITS tinstr 0 3; Z.shiftl (BITS tinstr 4 7) 8])
  else if c =? 0x0200 then
    Some (ors [subset [0xE6BF0070; 0xE6AF0070; 0xE6FF0070; 0xE6EF0070] (BITS tinstr 6 7); Z.shiftl (BITS tinstr 0 2) 12; BITS tinstr 3 5])
  else if c =? 0x0600 then
    Some (if BIT tinstr 5 =? 0 then ors [0xF1010000; Z.shiftl (BIT tinstr 3) 9]
          else ors [0xF1080000; Z.shiftl (BIT tinstr 0) 6; Z.shiftl (BIT tinstr 1) 7; Z.shiftl (BIT tinstr 2) 8; Z.shiftl (BIT tinstr 4) 18])
  else if c =? 0x0a00 then
    let subset_index := BITS tinstr 6 7 in
    if subset_index =? 2 then None
    else Some (ors [subset [0xE6BF0F30; 0xE6BF0FB0; 0; 0xE6FF0FB0] subset_index; Z.shiftl (BITS tinstr 0 2) 12; BITS tinstr 3 5])
  else
    Some (ors [subset [0xE92D0000; 0xE92D4000; 0xE8BD0000; 0xE8BD8000] (Z.lor (fr tinstr (Z.shiftl 1 11) 10) (fr tinstr (Z.shiftl 1 8) 8));
               Z.land tinstr 0x00FF]).

Definition thumb_block (tinstr : Z) : Z :=
  if flag tinstr 11 then
    let rn := BITS tinstr 8 10 in
    let base := if Z.land tinstr (Z.shiftl 1 rn) =? 0 then Z.lor 0xE8900000 (Z.shiftl 1 21) else 0xE8900000 in
    ors [base; Z.shiftl rn 16; Z.land tinstr 0x00FF]
  else ors [0xE8A00000; Z.shiftl (BITS tinstr 8 10) 16; Z.land tinstr 0x00FF].

Definition thumb_swi (tinstr : Z) : Z :=
  if Z.land tinstr 0x00FF =? 0x18 then Z.lor 0xEF000000 (Z.shiftl (Z.land tinstr 0x00FF) 16)
  else if Z.land tinstr 0x00FF =? 0xFE then Z.lor 0xEF000000 0x180000
  else Z.lor 0xEF000000 (Z.land tinstr 0x00FF).

(** The status, the word, and the size of the instruction, for a halfword. *)
Definition translate_half (tinstr : Z) : ThumbDecodeStatus * Z * Z :=
  let c := fr tinstr 0xF800 11 in
  let ok a := (UNINITIALIZED, a, 2) in
  let untouched st := (st, 0xDEADC0DE, 2) in
  if c <=? 2 then
    ok (ors [0xE1B00000; fr tinstr 0x1800 (11 - 5); fl tinstr 0x07C0 (7 - 6); fr tinstr 0x0038 3; fl tinstr 0x0007 12])
  else if c =? 3 then
    ok (ors [subset [0xE0900000; 0xE0500000; 0xE2900000; 0xE2500000] (fr tinstr 0x0600 9); fr tinstr 0x01C0 6; fl tinstr 0x0038 (16 - 3);
             fl tinstr 0x0007 (12 - 0)])
  else if c <=? 7 then
    ok (ors [subset [0xE3B00000; 0xE3500000; 0xE2900000; 0xE2500000] (fr tinstr 0x1800 11); fr tinstr 0x00FF 0; fl tinstr 0x0700 (16 - 8);
             fl tinstr 0x0700 (12 - 8)])
  else if c =? 8 then ok (if flag tinstr 10 then thumb_high tinstr else thumb_alu tinstr)
  else if c =? 9 then ok (ors [0xE59F0000; fl tinstr 0x0700 (12 - 8); fl tinstr 0x00FF (2 - 0)])
  else if c <=? 11 then
    ok (ors [subset [0xE7800000; 0xE18000B0; 0xE7C00000; 0xE19000D0; 0xE7900000; 0xE19000B0; 0xE7D00000; 0xE19000F0] (fr tinstr 0xE00 9);
             fl tinstr 0x0007 (12 - 0); fl tinstr 0x0038 (16 - 3); fr tinstr 0x01C0 6])
  else if c <=? 15 then
    ok (ors [subset [0xE5800000; 0xE5900000; 0xE5C00000; 0xE5D00000] (fr tinstr 0x1800 11); fl tinstr 0x0007 (12 - 0); fl tinstr 0x0038 (16 - 3);
             fr tinstr 0x07C0 (6 - (if flag tinstr 12 then 0 else 2))])
  else if c <=? 17 then
    ok (ors [if flag tinstr 11 then 0xE1D000B0 else 0xE1C000B0; fl tinstr 0x0007 (12 - 0); fl tinstr 0x0038 (16 - 3); fr tinstr 0x01C0 (6 - 1);
             fr tinstr 0x0600 (9 - 8)])
  else if c <=? 19 then
    ok (ors [if flag tinstr 11 then 0xE59D0000 else 0xE58D0000; fl tinstr 0x0700 (12 - 8); fl tinstr 0x00FF 2])
  else if c <=? 21 then
    ok (ors [if flag tinstr 11 then 0xE28D0F00 else 0xE28F0F00; fl tinstr 0x0700 (12 - 8); Z.land tinstr 0x00FF])
  else if c <=? 23 then match thumb_misc tinstr with Some a => ok a | None => untouched UNDEFINED end
  else if c <=? 25 then ok (thumb_block tinstr)
  else if c <=? 27 then
    if Z.land tinstr 0x0F00 =? 0x0F00 then ok (thumb_swi tinstr)
    else if Z.land tinstr 0x0F00 =? 0x0E00 then untouched UNDEFINED
    else untouched BRANCH
  else if c =? 28 then untouched BRANCH
  else if c =? 29 then untouched (if truth (Z.land tinstr 1) then UNDEFINED else BRANCH)
  else untouched BRANCH.

Definition TranslateThumbInstruction (addr instr : Z) : ThumbDecodeStatus * Z * Z := translate_half (GetThumbInstruction instr addr).

(** The index in the table of translations, for a branch; nothing where the source reports an error and leaves the
    pointer as it was. *)
Definition thumb_branch_index (tinstr : Z) : option Z :=
  let table_length := 202 in
  let c := fr tinstr 0xF800 11 in
  if (c =? 26) || (c =? 27) then
    if negb (Z.land tinstr 0x0F00 =? 0x0E00) && negb (Z.land tinstr 0x0F00 =? 0x0F00) then Some (table_length - 4) else None
  else if c =? 28 then Some (table_length - 5)
  else if (c =? 8) || (c =? 29) then Some (table_length - 1)
  else if c =? 30 then Some (table_length - 3)
  else if c =? 31 then Some (table_length - 2)
  else None.

(** What a Thumb instruction becomes: the routine of a branch, or a word for the decoder; a status
    of undefined does not stop the second. *)
Inductive thumb_result := ThumbBranch (idx tinstr : Z) | ThumbWord (ainstr : Z) | ThumbError.
#[export] Instance thumb_result_eq_dec : EqDecision thumb_result.
Proof. solve_decision. Defined.
Definition DecodeThumbInstruction (inst addr : Z) : thumb_result :=
  let '(st, ainstr, _) := TranslateThumbInstruction addr inst in
  if decide (st = BRANCH) then
    let tinstr := GetThumbInstruction inst addr in
    match thumb_branch_index tinstr with Some idx => ThumbBranch idx tinstr | None => ThumbError end
  else ThumbWord ainstr.

(** ** The table of the manual

    Each row has the diagram of a Thumb instruction, the diagram of the word, in which a letter takes the bits of its field in order and from
    the first again when the field is repeated, and the instruction that the decoder finds.  The fields that an
    instruction does not use are filled as the translator fills them. *)

Definition thumb_rules : list (string * string * string) :=
  [("00000 iiiii mmm ddd", "1110 0001 1011 0000 0ddd iiii i000 0mmm", "mov");
   ("00001 iiiii mmm ddd", "1110 0001 1011 0000 0ddd iiii i010 0mmm", "mov");
   ("00010 iiiii mmm ddd", "1110 0001 1011 0000 0ddd iiii i100 0mmm", "mov");
   ("0001100 mmm nnn ddd", "1110 0000 1001 0nnn 0ddd 0000 0000 0mmm", "add");
   ("0001101 mmm nnn ddd", "1110 0000 0101 0nnn 0ddd 0000 0000 0mmm", "sub");
   ("0001110 iii nnn ddd", "1110 0010 1001 0nnn 0ddd 0000 0000 0iii", "add");
   ("0001111 iii nnn ddd", "1110 0010 0101 0nnn 0ddd 0000 0000 0iii", "sub");
   ("00100 ddd iiiiiiii", "1110 0011 1011 0ddd 0ddd 0000 iiii iiii", "mov");
   ("00101 nnn iiiiiiii", "1110 0011 0101 0nnn 0nnn 0000 iiii iiii", "cmp");
   ("00110 ddd iiiiiiii", "1110 0010 1001 0ddd 0ddd 0000 iiii iiii", "add");
   ("00111 ddd iiiiiiii", "1110 0010 0101 0ddd 0ddd 0000 iiii iiii", "sub");
   ("010000 0000 mmm ddd", "1110 0000 0001 0ddd 0ddd 0000 0000 0mmm", "and");
   ("010000 0001 mmm ddd", "1110 0000 0011 0ddd 0ddd 0000 0000 0mmm", "eor");
   ("010000 0010 mmm ddd", "1110 0001 1011 0000 0ddd 0mmm 0001 0ddd", "mov");
   ("010000 0011 mmm ddd", "1110 0001 1011 0000 0ddd 0mmm 0011 0ddd", "mov");
   ("010000 0100 mmm ddd", "1110 0001 1011 0000 0ddd 0mmm 0101 0ddd", "mov");
   ("010000 0101 mmm ddd", "1110 0000 1011 0ddd 0ddd 0000 0000 0mmm", "adc");
   ("010000 0110 mmm ddd", "1110 0000 1101 0ddd 0ddd 0000 0000 0mmm", "sbc");
   ("010000 0111 mmm ddd", "1110 0001 1011 0000 0ddd 0mmm 0111 0ddd", "mov");
   ("010000 1000 mmm ddd", "1110 0001 0001 0ddd 0ddd 0000 0000 0mmm", "tst");
   ("010000 1001 mmm ddd", "1110 0010 0111 0mmm 0ddd 0000 0000 0000", "rsb");
   ("010000 1010 mmm ddd", "1110 0001 0101 0ddd 0ddd 0000 0000 0mmm", "cmp");
   ("010000 1011 mmm ddd", "1110 0001 0111 0ddd 0ddd 0000 0000 0mmm", "cmn");
   ("010000 1100 mmm ddd", "1110 0001 1001 0ddd 0ddd 0000 0000 0mmm", "orr");
   ("010000 1101 mmm ddd", "1110 0000 0001 0ddd 0000 0ddd 1001 0mmm", "mul");
   ("010000 1110 mmm ddd", "1110 0001 1101 0ddd 0ddd 0000 0000 0mmm", "bic");
   ("010000 1111 mmm ddd", "1110 0001 1111 0ddd 0ddd 0000 0000 0mmm", "mvn");
   ("01000100 d mmmm ddd", "1110 0000 1000 dddd dddd 0000 0000 mmmm", "add");
   ("01000101 n mmmm nnn", "1110 0001 0101 nnnn 0000 0000 0000 mmmm", "cmp");
   ("01000110 d mmmm ddd", "1110 0001 1010 0000 dddd 0000 0000 mmmm", "cpy");
   ("010001110 mmmm 000", "1110 0001 0010 1111 1111 1111 0001 mmmm", "bx");
   ("010001111 mmmm 000", "1110 0001 0010 0000 0000 0000 0011 mmmm", "blx");
   ("01001 ddd iiiiiiii", "1110 0101 1001 1111 0ddd 00ii iiii ii00", "ldr");
   ("0101 000 mmm nnn ddd", "1110 0111 1000 0nnn 0ddd 0000 0000 0mmm", "str");
   ("0101 001 mmm nnn ddd", "1110 0001 1000 0nnn 0ddd 0000 1011 0mmm", "strh");
   ("0101 010 mmm nnn ddd", "1110 0111 1100 0nnn 0ddd 0000 0000 0mmm", "strb");
   ("0101 011 mmm nnn ddd", "1110 0001 1001 0nnn 0ddd 0000 1101 0mmm", "ldrsb");
   ("0101 100 mmm nnn ddd", "1110 0111 1001 0nnn 0ddd 0000 0000 0mmm", "ldr");
   ("0101 101 mmm nnn ddd", "1110 0001 1001 0nnn 0ddd 0000 1011 0mmm", "ldrh");
   ("0101 110 mmm nnn ddd", "1110 0111 1101 0nnn 0ddd 0000 0000 0mmm", "ldrb");
   ("0101 111 mmm nnn ddd", "1110 0001 1001 0nnn 0ddd 0000 1111 0mmm", "ldrsh");
   ("01100 iiiii nnn ddd", "1110 0101 1000 0nnn 0ddd 0000 0iii ii00", "str");
   ("01101 iiiii nnn ddd", "1110 0101 1001 0nnn 0ddd 0000 0iii ii00", "ldr");
   ("01110 iiiii nnn ddd", "1110 0101 1100 0nnn 0ddd 0000 000i iiii", "strb");
   ("01111 iiiii nnn ddd", "1110 0101 1101 0nnn 0ddd 0000 000i iiii", "ldrb");
   ("10000 iiiii nnn ddd", "1110 0001 1100 0nnn 0ddd 00ii 1011 iii0", "strh");
   ("10001 iiiii nnn ddd", "1110 0001 1101 0nnn 0ddd 00ii 1011 iii0", "ldrh");
   ("10010 ddd iiiiiiii", "1110 0101 1000 1101 0ddd 00ii iiii ii00", "str");
   ("10011 ddd iiiiiiii", "1110 0101 1001 1101 0ddd 00ii iiii ii00", "ldr");
   ("10100 ddd iiiiiiii", "1110 0010 1000 1111 0ddd 1111 iiii iiii", "add");
   ("10101 ddd iiiiiiii", "1110 0010 1000 1101 0ddd 1111 iiii iiii", "add");
   ("101100000 iiiiiii", "1110 0010 1000 1101 1101 1111 0iii iiii", "add");
   ("101100001 iiiiiii", "1110 0010 0100 1101 1101 1111 0iii iiii", "sub");
   ("10110010 00 mmm ddd", "1110 0110 1011 1111 0ddd 0000 0111 0mmm", "sxth");
   ("10110010 01 mmm ddd", "1110 0110 1010 1111 0ddd 0000 0111 0mmm", "sxtb");
   ("10110010 10 mmm ddd", "1110 0110 1111 1111 0ddd 0000 0111 0mmm", "uxth");
   ("10110010 11 mmm ddd", "1110 0110 1110 1111 0ddd 0000 0111 0mmm", "uxtb");
   ("1011010 r llllllll", "1110 1001 0010 1101 0r00 0000 llll llll", "stm");
   ("1011110 r llllllll", "1110 1000 1011 1101 r000 0000 llll llll", "ldm");
   ("101101100101 e 000", "1111 0001 0000 0001 0000 00e0 0000 0000", "setend");
   ("10110110011 i 0 abf", "1111 0001 0000 1i00 0000 000a bf00 0000", "cps");
   ("10111010 00 mmm ddd", "1110 0110 1011 1111 0ddd 1111 0011 0mmm", "rev");
   ("10111010 01 mmm ddd", "1110 0110 1011 1111 0ddd 1111 1011 0mmm", "rev16");
   ("10111010 11 mmm ddd", "1110 0110 1111 1111 0ddd 1111 1011 0mmm", "revsh");
   ("11000 nnn llllllll", "1110 1000 1010 0nnn 0000 0000 llll llll", "stm");
   ("11001 000 lllllll0", "1110 1000 1011 0000 0000 0000 llll lll0", "ldm");
   ("11001 000 lllllll1", "1110 1000 1001 0000 0000 0000 llll lll1", "ldm");
   ("11001 001 llllll0l", "1110 1000 1011 0001 0000 0000 llll ll0l", "ldm");
   ("11001 001 llllll1l", "1110 1000 1001 0001 0000 0000 llll ll1l", "ldm");
   ("11001 010 lllll0ll", "1110 1000 1011 0010 0000 0000 llll l0ll", "ldm");
   ("11001 010 lllll1ll", "1110 1000 1001 0010 0000 0000 llll l1ll", "ldm");
   ("11001 011 llll0lll", "1110 1000 1011 0011 0000 0000 llll 0lll", "ldm");
   ("11001 011 llll1lll", "1110 1000 1001 0011 0000 0000 llll 1lll", "ldm");
   ("11001 100 lll0llll", "1110 1000 1011 0100 0000 0000 lll0 llll", "ldm");
   ("11001 100 lll1llll", "1110 1000 1001 0100 0000 0000 lll1 llll", "ldm");
   ("11001 101 ll0lllll", "1110 1000 1011 0101 0000 0000 ll0l llll", "ldm");
   ("11001 101 ll1lllll", "1110 1000 1001 0101 0000 0000 ll1l llll", "ldm");
   ("11001 110 l0llllll", "1110 1000 1011 0110 0000 0000 l0ll llll", "ldm");
   ("11001 110 l1llllll", "1110 1000 1001 0110 0000 0000 l1ll llll", "ldm");
   ("11001 111 0lllllll", "1110 1000 1011 0111 0000 0000 0lll llll", "ldm");
   ("11001 111 1lllllll", "1110 1000 1001 0111 0000 0000 1lll llll", "ldm");
   ("11011111 iiiiiiii", "1110 1111 0000 0000 0000 0000 iiii iiii", "swi")]%string.

(** The branches: a diagram and the label. *)
Definition thumb_branch_rules : list (string * Z) :=
  (flat_map (λ c, [(c, 198)])
    ["11010 0cc iiiiiiii"; "11010 10c iiiiiiii"; "11010 11c iiiiiiii"; "11011 0cc iiiiiiii"; "11011 10c iiiiiiii"]%string) ++
  [("11100 iiiiiiiiiii", 197); ("11101 iiiiiiiiii0", 201); ("11110 iiiiiiiiiii", 199); ("11111 iiiiiiiiiii", 200)]%string.

Fixpoint chars (d : string) : list ascii :=
  match d with EmptyString => [] | String c d => if Ascii.eqb c " " then chars d else c :: chars d end.
Definition is_letter (c : ascii) : bool := negb (Ascii.eqb c "0") && negb (Ascii.eqb c "1").

(** The halfword fits the diagram. *)
Fixpoint fits_half (d : list ascii) (i : Z) (h : Z) : bool :=
  match d with
  | [] => true
  | c :: d => (is_letter c || Bool.eqb (Z.testbit h i) (Ascii.eqb c "1")) && fits_half d (i - 1) h
  end.
(** The places of a field, from the top. *)
Fixpoint field_places (c : ascii) (d : list ascii) (i : Z) : list Z :=
  match d with
  | [] => []
  | c' :: d => if Ascii.eqb c c' then i :: field_places c d (i - 1) else field_places c d (i - 1)
  end.
Definition occurrences (c : ascii) (l : list ascii) : nat := length (filter (λ c', c' = c) l).
(** Where each bit of the word comes from, from the top: a bit of the halfword or a constant.  The letters of the second diagram take
    the bits of the field in order, and again from the first when there are more letters than bits. *)
Fixpoint places (ad seen td : list ascii) : list (Z + bool) :=
  match ad with
  | [] => []
  | c :: ad =>
      (if is_letter c then
         let l := field_places c td 15 in from_option inl (inr false) (l !! (occurrences c seen `mod` length l)%nat)
       else inr (Ascii.eqb c "1")) :: places ad (c :: seen) td
  end.
Definition place (l : list (Z + bool)) (h : Z) : Z :=
  foldl (λ acc s, 2 * acc + Z.b2z (match s with inl i => Z.testbit h i | inr b => b end)) 0 l.
(** The word of a rule. *)
Definition word_of (rule : string * string * string) (h : Z) : Z :=
  let '(td, ad, _) := rule in place (places (chars ad) [] (chars td)) h.
Definition applies (td : string) (h : Z) : bool := fits_half (chars td) 15 h.

(** The halfwords that fit a diagram. *)
Fixpoint instances (d : list ascii) (acc : Z) : list Z :=
  match d with
  | [] => [acc]
  | c :: d =>
      if is_letter c then instances d (2 * acc) ++ instances d (2 * acc + 1)
      else instances d (2 * acc + Z.b2z (Ascii.eqb c "1"))
  end.
Definition half_instances (td : string) : list Z := instances (chars td) 0.

Lemma instances_complete d i acc h :
  Z.of_nat (length d) = i + 1 → 0 <= h → acc = h / 2 ^ (i + 1) → fits_half d i h = true → h ∈ instances d acc.
Proof.
  revert i acc. induction d as [|c d IH]; intros i acc Hl Hh Ha Hf; cbn [length instances fits_half] in *.
  - replace (i + 1) with 0 in Ha by lia. rewrite Z.pow_0_r, Z.div_1_r in Ha. subst acc. by apply list_elem_of_singleton.
  - apply andb_true_iff in Hf as [Hc Hf]. assert (2 * acc + Z.b2z (Z.testbit h i) = h / 2 ^ (i - 1 + 1)) as E.
    { replace (i - 1 + 1) with i by lia. rewrite Ha, Z.add_1_r, Z.pow_succ_r, (Z.mul_comm 2 (2 ^ i)), <- Z.div_div by lia.
      rewrite Z.testbit_spec' by lia. pose proof (Z.div_mod (h / 2 ^ i) 2 ltac:(lia)). lia. }
    specialize (IH (i - 1) (2 * acc + Z.b2z (Z.testbit h i)) ltac:(lia) Hh E Hf). destruct (is_letter c).
    + apply elem_of_app. destruct (Z.testbit h i); [right; exact IH|left]. cbn [Z.b2z] in IH. by rewrite Z.add_0_r in IH.
    + cbn [orb] in Hc. apply eqb_prop in Hc as <-. exact IH.
Qed.

(** Two halfwords are not translated as the table says. *)
Definition thumb_exceptions : list Z := [0xDF18; 0xDFFE].

Definition check_half (m v : Z) (l : list (Z + bool)) (h : Z) : bool :=
  existsb (Z.eqb h) thumb_exceptions ||
  let w := place l h in
  let '(st, a, n) := translate_half h in
  match st with UNINITIALIZED => true | _ => false end && (a =? w) && (n =? 2) && (0 <=? w) && (w <? 2 ^ 32) && (Z.land w m =? v).
Definition check_rule (r : string * string * string) : bool :=
  let p := pattern_of r.1.2 in
  let m := mask_of p in
  let v := value_of p in
  let td := chars r.1.1 in
  let l := places (chars r.1.2) [] td in
  Nat.eqb (length td) 16 && Nat.eqb (length p) 32 &&
  match sym_decode p 0 (length arm_instruction) with Some i => String.eqb (name_of i) r.2 | None => false end &&
  forallb (check_half m v l) (instances td 0).
Lemma rules_checked : forallb check_rule thumb_rules = true.
Proof. vm_compute. reflexivity. Qed.

Definition check_branch (r : string * Z) : bool :=
  let td := chars r.1 in
  Nat.eqb (length td) 16 &&
  forallb (λ h, bool_decide (translate_half h = (BRANCH, 0xDEADC0DE, 2)) && bool_decide (thumb_branch_index h = Some r.2)) (instances td 0).
Lemma branches_checked : forallb check_branch thumb_branch_rules = true.
Proof. vm_compute. reflexivity. Qed.

Lemma half_of_instance td h : 0 <= h < 2 ^ 16 → length (chars td) = 16%nat → applies td h = true → h ∈ instances (chars td) 0.
Proof.
  intros Hh Hl Hf. apply (instances_complete _ 15); [lia..| |done]. symmetry. apply Z.div_small. done.
Qed.


(** A statement that holds of every halfword that fits a diagram, by evaluation. *)
Lemma all_instances td (P : Z → bool) :
  length (chars td) = 16%nat → forallb P (instances (chars td) 0) = true → ∀ h, 0 <= h < 2 ^ 16 → applies td h = true → P h = true.
Proof.
  intros Hl H h Hh Ha. rewrite forallb_forall in H. apply H. apply list_elem_of_In. by apply half_of_instance.
Qed.

Definition calls_low (h : Z) : bool :=
  let '(_, a, _) := translate_half h in a =? 0xEF000000 + 2 ^ 8 * ((h / 2 ^ 4) `mod` 2 ^ 4) + h `mod` 2 ^ 4.
Definition pushes_low (h : Z) : bool :=
  let '(_, a, _) := translate_half h in a =? 0xE92D4000 + h `mod` 2 ^ 8.

(** Where the translation departs from the manual.  The system calls 0x18 and 0xFE become call 0x180000, of which the interpreter
    takes the low 16 bits, 0; a breakpoint becomes a system call whose number has the low bits of its operand; an undefined instruction (here 1011 00x1) becomes
    a push. *)
Theorem thumb_deviations h :
  0 <= h < 2 ^ 16 →
  (h ∈ thumb_exceptions → translate_half h = (UNINITIALIZED, 0xEF180000, 2)) ∧
  (applies "10111110 iiiiiiii" h = true → calls_low h = true) ∧
  (applies "1011 00x1 llllllll" h = true → pushes_low h = true).
Proof.
  intros Hh. split; [|split].
  - unfold thumb_exceptions. rewrite !elem_of_cons. intros [->|[->|H]]; [reflexivity..|by apply not_elem_of_nil in H].
  - revert h Hh. apply all_instances; [reflexivity|]. vm_compute. reflexivity.
  - revert h Hh. apply all_instances; [reflexivity|]. vm_compute. reflexivity.
Qed.

(** ** Examples *)

Module Examples.


Lemma thumb_deviations_witness :
  translate_half 0xDF18 = (UNINITIALIZED, 0xEF180000, 2) ∧ calls_low 0xBE21 = true.
Proof.
  split.
  - apply (thumb_deviations 0xDF18); [lia|]. unfold thumb_exceptions. set_solver.
  - apply (thumb_deviations 0xBE21); [lia|reflexivity].
Defined.

End Examples.
