(* ===== verification/ArmTyped.v ===== *)
(** * Every instruction keeps the machine well formed

    A typing of the state of the processor: the arrays have their lengths, the registers hold words, the flags bits.  Every
    routine of [ArmExec] keeps it, on a bus whose reads give words, and leaves the budget of instructions alone.  The
    proof is a traversal of the routines by a tactic, which knows the shapes of expressions that
    are words. *)

From stdpp Require Import base list.
From S2P Require Import Prelude ArmSupp Memory ArmState ArmOperands ArmExec.

Definition words (n : nat) (l : list Z) : Prop := length l = n ∧ Forall word l.
Definition is_bit (x : Z) : Prop := 0 <= x <= 1.

Record arm_typed (s : ARMul_State) : Prop := {
  ty_reg : words 16 (Reg s);
  ty_usr : words 2 (Reg_usr s);
  ty_svc : words 2 (Reg_svc s);
  ty_abort : words 2 (Reg_abort s);
  ty_undef : words 2 (Reg_undef s);
  ty_irq : words 2 (Reg_irq s);
  ty_firq : words 7 (Reg_firq s);
  ty_spsr : words 7 (Spsr s);
  ty_cp15 : words (Z.to_nat CP15_REGISTER_COUNT) (CP15 s);
  ty_cpsr : word (Cpsr s);
  ty_spsr_copy : word (Spsr_copy s);
  ty_mode : word (Mode s);
  ty_n : is_bit (NFlag s);
  ty_z : is_bit (ZFlag s);
  ty_c : is_bit (CFlag s);
  ty_v : is_bit (VFlag s);
  ty_sc : is_bit (shifter_carry_out s);
  ty_t : is_bit (TFlag s) }.

(** The invariant, with the budget. *)
Definition typed (N : Z) (s : ARMul_State) : Prop := arm_typed s ∧ NumInstrsToExecute s = N.

(** ** Words *)

Lemma word_bits x : word x ↔ 0 <= x ∧ ∀ i, 32 <= i → Z.testbit x i = false.
Proof.
  unfold word. split.
  - intros Hx. split; [lia|]. intros i Hi. rewrite <- (Z.mod_small x (2 ^ 32)) by done. by apply Z.mod_pow2_bits_high.
  - intros [H0 H]. split; [done|]. destruct (Z.lt_ge_cases x (2 ^ 32)) as [|Hge]; [done|].
    pose proof (Z.log2_le_mono _ _ Hge) as Hl. rewrite Z.log2_pow2 in Hl by lia.
    pose proof (Z.bit_log2 x ltac:(lia)) as Hb. by rewrite H in Hb.
Qed.
Lemma word_lor a b : word a → word b → word (Z.lor a b).
Proof.
  rewrite !word_bits. intros [? Ha] [? Hb]. split; [by apply Z.lor_nonneg|]. intros i Hi. rewrite Z.lor_spec, Ha, Hb by done. done.
Qed.
Lemma word_land_l a b : word a → word (Z.land a b).
Proof. rewrite !word_bits. intros [? Ha]. split; [apply Z.land_nonneg; auto|]. intros i Hi. by rewrite Z.land_spec, Ha by done. Qed.
Lemma word_land_r a b : word b → word (Z.land a b).
Proof. rewrite Z.land_comm. apply word_land_l. Qed.
Lemma word_lxor a b : word a → word b → word (Z.lxor a b).
Proof.
  rewrite !word_bits. intros [? Ha] [? Hb]. split; [by apply Z.lxor_nonneg|]. intros i Hi. rewrite Z.lxor_spec, Ha, Hb by done. done.
Qed.
Lemma word_shiftr a n : word a → 0 <= n → word (Z.shiftr a n).
Proof.
  rewrite !word_bits. intros [? Ha] Hn. split; [by apply Z.shiftr_nonneg|]. intros i Hi. rewrite Z.shiftr_spec by lia. apply Ha. lia.
Qed.
Lemma word_u32 x : word (u32 x).
Proof. apply u32_range. Qed.
Lemma word_not32 x : word (not32 x).
Proof. apply u32_range. Qed.
Lemma word_const x : (0 <=? x) && (x <? 2 ^ 32) = true → word x.
Proof. unfold word. lia. Qed.
Lemma word_if (c : bool) a b : word a → word b → word (if c then a else b).
Proof. by destruct c. Qed.
Lemma word_byte x n : 0 <= n <= 24 → word (Z.shiftl (Z.land x 0xFF) n).
Proof.
  intros Hn. change 0xFF with (Z.ones 8). rewrite Z.land_ones, Z.shiftl_mul_pow2 by lia. unfold word.
  pose proof (Z.mod_pos_bound x (2 ^ 8) ltac:(lia)). pose proof (Z.pow_le_mono_r 2 n 24 ltac:(lia) ltac:(lia)). nia.
Qed.
Lemma word_bit x : is_bit x → word x.
Proof. unfold is_bit, word. lia. Qed.
Lemma word_BITS s a b : 0 <= a → a <= b <= 31 → word (BITS s a b).
Proof.
  intros Ha Hb. pose proof (BITS_range s a b Ha Hb). unfold word. pose proof (Z.pow_le_mono_r 2 (b - a + 1) 32 ltac:(lia) ltac:(lia)). lia.
Qed.
Lemma bit_land s : is_bit (Z.land s 1).
Proof. change 1 with (Z.ones 1). rewrite Z.land_ones by lia. pose proof (Z.mod_pos_bound s (2 ^ 1) ltac:(lia)). unfold is_bit. lia. Qed.
Lemma bit_BIT s n : is_bit (BIT s n).
Proof. apply bit_land. Qed.
Lemma bit_b2z b : is_bit (Z.b2z b).
Proof. destruct b; unfold is_bit; simpl; lia. Qed.
Lemma bit_if (c : bool) a b : is_bit a → is_bit b → is_bit (if c then a else b).
Proof. by destruct c. Qed.
Lemma bit_shiftr x : word x → is_bit (Z.shiftr x 31).
Proof. unfold word, is_bit. rewrite Z.shiftr_div_pow2 by lia. intros. pose proof (Z.div_pos x (2 ^ 31)). pose proof (Z.div_lt_upper_bound x (2 ^ 31) 2). lia. Qed.
Lemma bit_0 : is_bit 0. Proof. unfold is_bit. lia. Qed.
Lemma bit_1 : is_bit 1. Proof. unfold is_bit. lia. Qed.
Lemma word_swap_bytes v : word (swap_bytes 4 v).
Proof.
  unfold swap_bytes, word. assert (∀ n v, Forall (λ x, 0 <= x < 2 ^ 8) (le_bytes n v)) as H.
  { induction n as [|n IH]; intros w; simpl; constructor; [apply Z.mod_pos_bound; lia|apply IH]. }
  pose proof (le_value_range (rev (le_bytes 4 v))) as Hr. rewrite length_rev, le_bytes_length in Hr. apply Hr. by apply Forall_rev.
Qed.

(** ** The setters *)

Lemma words_insert n l i v : words n l → word v → words n (<[i := v]> l).
Proof. intros [Hl Hw] Hv. split; [by rewrite length_insert|]. by apply Forall_insert. Qed.
Lemma words_lookup n l i : words n l → word (l !!! i).
Proof.
  intros [_ Hw]. rewrite list_lookup_total_alt. destruct (l !! i) as [v|] eqn:E; simpl; [|unfold word; lia].
  by apply (Forall_lookup_1 _ _ _ _ Hw E).
Qed.
Lemma word_reg N n s : typed N s → word (reg n s).
Proof. intros [Ht _]. eapply words_lookup, ty_reg, Ht. Qed.

Ltac setter := intros; match goal with H : typed _ _ |- _ => destruct H as [[] ?] end; split; [split; cbn; assumption|cbn; assumption].

Lemma typed_Reg N l s : words 16 l → typed N s → typed N (set_Reg l s).
Proof. setter. Qed.
Lemma typed_Reg_usr N l s : words 2 l → typed N s → typed N (set_Reg_usr l s).
Proof. setter. Qed.
Lemma typed_Reg_svc N l s : words 2 l → typed N s → typed N (set_Reg_svc l s).
Proof. setter. Qed.
Lemma typed_Reg_abort N l s : words 2 l → typed N s → typed N (set_Reg_abort l s).
Proof. setter. Qed.
Lemma typed_Reg_undef N l s : words 2 l → typed N s → typed N (set_Reg_undef l s).
Proof. setter. Qed.
Lemma typed_Reg_irq N l s : words 2 l → typed N s → typed N (set_Reg_irq l s).
Proof. setter. Qed.
Lemma typed_Reg_firq N l s : words 7 l → typed N s → typed N (set_Reg_firq l s).
Proof. setter. Qed.
Lemma typed_Spsr N l s : words 7 l → typed N s → typed N (set_Spsr l s).
Proof. setter. Qed.
Lemma typed_CP15 N l s : words (Z.to_nat CP15_REGISTER_COUNT) l → typed N s → typed N (set_CP15 l s).
Proof. setter. Qed.
Lemma typed_Cpsr N v s : word v → typed N s → typed N (set_Cpsr v s).
Proof. setter. Qed.
Lemma typed_Spsr_copy N v s : word v → typed N s → typed N (set_Spsr_copy v s).
Proof. setter. Qed.
Lemma typed_Mode N v s : word v → typed N s → typed N (set_Mode v s).
Proof. setter. Qed.
Lemma typed_Bank N v s : typed N s → typed N (set_Bank v s).
Proof. setter. Qed.
Lemma typed_NFlag N v s : is_bit v → typed N s → typed N (set_NFlag v s).
Proof. setter. Qed.
Lemma typed_ZFlag N v s : is_bit v → typed N s → typed N (set_ZFlag v s).
Proof. setter. Qed.
Lemma typed_CFlag N v s : is_bit v → typed N s → typed N (set_CFlag v s).
Proof. setter. Qed.
Lemma typed_VFlag N v s : is_bit v → typed N s → typed N (set_VFlag v s).
Proof. setter. Qed.
Lemma typed_TFlag N v s : is_bit v → typed N s → typed N (set_TFlag v s).
Proof. setter. Qed.
Lemma typed_shifter_carry_out N v s : is_bit v → typed N s → typed N (set_shifter_carry_out v s).
Proof. setter. Qed.
Lemma typed_exclusive_tag N v s : typed N s → typed N (set_exclusive_tag v s).
Proof. setter. Qed.
Lemma typed_exclusive_state N v s : typed N s → typed N (set_exclusive_state v s).
Proof. setter. Qed.

Lemma typed_put_reg N n v s : word v → typed N s → typed N (put_reg n v s).
Proof. intros Hv Ht. apply typed_Reg; [|done]. apply words_insert; [apply ty_reg, Ht|done]. Qed.
Lemma typed_put_cp15 N r v s : word v → typed N s → typed N (put_cp15 r v s).
Proof. intros Hv Ht. apply typed_CP15; [|done]. apply words_insert; [apply ty_cp15, Ht|done]. Qed.
Lemma typed_put_spsr N b s : typed N s → typed N (put_spsr b s).
Proof. intros Ht. apply typed_Spsr; [|done]. apply words_insert; [apply ty_spsr, Ht|apply ty_spsr_copy, Ht]. Qed.
Lemma typed_get_spsr N b s : typed N s → typed N (get_spsr b s).
Proof. intros Ht. apply typed_Spsr_copy; [|done]. eapply words_lookup, ty_spsr, Ht. Qed.
Lemma typed_if N (c : bool) s s' : typed N s → typed N s' → typed N (if c then s else s').
Proof. by destruct c. Qed.

Lemma word_Cpsr N s : typed N s → word (Cpsr s).
Proof. intros Ht. apply ty_cpsr, Ht. Qed.
Lemma word_Spsr_copy N s : typed N s → word (Spsr_copy s).
Proof. intros Ht. apply ty_spsr_copy, Ht. Qed.
Lemma word_Mode N s : typed N s → word (Mode s).
Proof. intros Ht. apply ty_mode, Ht. Qed.
Lemma bit_CFlag N s : typed N s → is_bit (CFlag s).
Proof. intros Ht. apply ty_c, Ht. Qed.
Lemma bit_sc N s : typed N s → is_bit (shifter_carry_out s).
Proof. intros Ht. apply ty_sc, Ht. Qed.
Lemma word_read15 N s n : typed N s → word (CHECK_READ_REG15 s n).
Proof. intros. unfold CHECK_READ_REG15. destruct (n =? 15); [apply word_u32|by eapply word_reg]. Qed.
Lemma word_read15_WA N s n : typed N s → word (CHECK_READ_REG15_WA s n).
Proof. intros. unfold CHECK_READ_REG15_WA. destruct (n =? 15); [apply word_u32|by eapply word_reg]. Qed.
Lemma word_rotate n i : word n → 0 <= i → word (ROTATE_RIGHT_32 n i).
Proof. intros. unfold ROTATE_RIGHT_32. apply word_lor; [apply word_u32|by apply word_shiftr]. Qed.

(** The search, directed by the syntax: words, bits, and states built by the setters; [typed_call] is
    extended below with the routines that the instructions share. *)
Ltac typed_call := fail.

Ltac word_step :=
  match goal with
  | H : word ?x |- word ?x => exact H
  | |- word (u32 _) => apply word_u32
  | |- word (not32 _) => apply word_not32
  | |- word (if _ then _ else _) => apply word_if
  | |- word (reg _ _) => eapply word_reg
  | |- word (Z.lor _ _) => apply word_lor
  | |- word (Z.lxor _ _) => apply word_lxor
  | |- word (Z.land _ ?b) => apply word_land_r; apply word_const; reflexivity
  | |- word (Z.land _ _) => apply word_land_l
  | |- word (Z.shiftr _ _) => apply word_shiftr
  | |- word (Z.shiftl (Z.land _ _) _) => apply word_byte
  | |- word (BITS _ _ _) => apply word_BITS
  | |- word (BIT _ _) => apply word_bit, bit_BIT
  | |- word (ROTATE_RIGHT_32 _ _) => apply word_rotate
  | |- word (CHECK_READ_REG15 _ _) => eapply word_read15
  | |- word (CHECK_READ_REG15_WA _ _) => eapply word_read15_WA
  | |- word (Cpsr _) => eapply word_Cpsr
  | |- word (Spsr_copy _) => eapply word_Spsr_copy
  | |- word (Mode _) => eapply word_Mode
  | |- word (swap_bytes 4 _) => apply word_swap_bytes
  | |- word _ => apply word_const; reflexivity
  | |- is_bit (BIT _ _) => apply bit_BIT
  | |- is_bit (Z.land _ 1) => apply bit_land
  | |- is_bit (Z.b2z _) => apply bit_b2z
  | |- is_bit (if _ then _ else _) => apply bit_if
  | |- is_bit (Z.shiftr _ 31) => apply bit_shiftr
  | |- is_bit (CFlag _) => eapply bit_CFlag
  | |- is_bit (shifter_carry_out _) => eapply bit_sc
  | |- is_bit _ => unfold is_bit; lia
  | |- 0 <= BITS _ ?a ?b => apply (BITS_range _ a b); lia
  | |- _ <= _ => lia
  | |- _ <= _ <= _ => lia
  end.
Ltac typed_step :=
  match goal with
  | H : typed ?N ?s |- typed ?N ?s => exact H
  | H : typed _ ?s |- typed _ ?s => exact H
  | |- typed _ (if _ then _ else _) => apply typed_if
  | |- typed _ (put_reg _ _ _) => apply typed_put_reg
  | |- typed _ (put_cp15 _ _ _) => apply typed_put_cp15
  | |- typed _ (put_spsr _ _) => apply typed_put_spsr
  | |- typed _ (get_spsr _ _) => apply typed_get_spsr
  | |- typed _ (set_Cpsr _ _) => apply typed_Cpsr
  | |- typed _ (set_Spsr_copy _ _) => apply typed_Spsr_copy
  | |- typed _ (set_Mode _ _) => apply typed_Mode
  | |- typed _ (set_Bank _ _) => apply typed_Bank
  | |- typed _ (set_NFlag _ _) => apply typed_NFlag
  | |- typed _ (set_ZFlag _ _) => apply typed_ZFlag
  | |- typed _ (set_CFlag _ _) => apply typed_CFlag
  | |- typed _ (set_VFlag _ _) => apply typed_VFlag
  | |- typed _ (set_TFlag _ _) => apply typed_TFlag
  | |- typed _ (set_shifter_carry_out _ _) => apply typed_shifter_carry_out
  | |- typed _ (set_exclusive_tag _ _) => apply typed_exclusive_tag
  | |- typed _ (set_exclusive_state _ _) => apply typed_exclusive_state
  end.
Ltac arm := intros; cbv zeta; repeat first [typed_step | typed_call | word_step].

(** ** The parts of the routines *)

Section Parts.
Context (N : Z).
Implicit Types s : ARMul_State.

Lemma typed_UPDATE_NFLAG d s : typed N s → typed N (UPDATE_NFLAG d s).
Proof. unfold UPDATE_NFLAG. arm. Qed.
Lemma typed_UPDATE_ZFLAG d s : typed N s → typed N (UPDATE_ZFLAG d s).
Proof. unfold UPDATE_ZFLAG. arm. Qed.
Lemma typed_UPDATE_CFLAG s : typed N s → typed N (UPDATE_CFLAG_WITH_SC s).
Proof. unfold UPDATE_CFLAG_WITH_SC. arm. Qed.
Lemma typed_SAVE_NZCVT s : typed N s → typed N (SAVE_NZCVT s).
Proof. unfold SAVE_NZCVT. arm. Qed.
Lemma typed_LOAD_NZCVT s : typed N s → typed N (LOAD_NZCVT s).
Proof. unfold LOAD_NZCVT. arm. Qed.
Lemma typed_next_pc s : typed N s → typed N (next_pc s).
Proof. unfold next_pc. arm. Qed.
Lemma typed_save_bank s : typed N s → typed N (save_bank s).
Proof.
  intros Ht. assert (words 2 [reg 13 s; reg 14 s]) as H by (split; [done|repeat constructor; by eapply word_reg]).
  unfold save_bank. cbv zeta.
  repeat apply typed_if; try apply typed_put_spsr; auto using typed_Reg_usr, typed_Reg_irq, typed_Reg_svc, typed_Reg_abort, typed_Reg_undef.
  apply typed_Reg_firq; [|done]. destruct (ty_reg _ (proj1 Ht)) as [Hl Hw]. split.
  - rewrite length_take, length_drop, Hl. done.
  - by apply Forall_take, Forall_drop.
Qed.
Lemma typed_load_sp_lr n bank s : words n bank → typed N s → typed N (load_sp_lr bank s).
Proof. intros Hb Ht. unfold load_sp_lr. apply typed_put_reg; [by eapply words_lookup|]. apply typed_put_reg; [by eapply words_lookup|done]. Qed.
Lemma typed_load_bank m s : typed N s → typed N (load_bank m s).
Proof.
  intros Ht. pose proof Ht as [[] _]. unfold load_bank. repeat apply typed_if; try apply typed_Bank; try apply typed_get_spsr;
    eauto using typed_load_sp_lr.
  apply typed_Reg; [|done]. destruct ty_reg0 as [Hl Hw], ty_firq0 as [Hl' Hw']. split.
  - rewrite !length_app, length_take, length_drop, Hl, Hl'. done.
  - apply Forall_app. split; [by apply Forall_take|]. apply Forall_app. split; [done|by apply Forall_drop].
Qed.
End Parts.

Ltac typed_call ::=
  match goal with
  | |- typed _ (UPDATE_NFLAG _ _) => apply typed_UPDATE_NFLAG
  | |- typed _ (UPDATE_ZFLAG _ _) => apply typed_UPDATE_ZFLAG
  | |- typed _ (UPDATE_CFLAG_WITH_SC _) => apply typed_UPDATE_CFLAG
  | |- typed _ (SAVE_NZCVT _) => apply typed_SAVE_NZCVT
  | |- typed _ (LOAD_NZCVT _) => apply typed_LOAD_NZCVT
  | |- typed _ (next_pc _) => apply typed_next_pc
  | |- typed _ (save_bank _) => apply typed_save_bank
  | |- typed _ (load_bank _ _) => apply typed_load_bank
  | |- typed _ (set_q _) => unfold set_q
  end.

Lemma typed_ChangePrivilegeMode N m s : word m → typed N s → typed N (ChangePrivilegeMode m s).
Proof. intros Hm. unfold ChangePrivilegeMode. arm. Qed.

Lemma typed_restore_cpsr N s : typed N s → typed N (restore_cpsr s).
Proof. unfold restore_cpsr. intros H. apply typed_if; [|done]. cbv zeta. apply typed_LOAD_NZCVT, typed_ChangePrivilegeMode; arm. Qed.
Lemma typed_Unset N s : typed N s → typed N (UnsetExclusiveMemoryAddress s).
Proof. unfold UnsetExclusiveMemoryAddress. arm. Qed.
Lemma typed_SetExclusive N a s : typed N s → typed N (SetExclusiveMemoryAddress a s).
Proof. unfold SetExclusiveMemoryAddress. arm. Qed.
Lemma typed_set_q_if N b s : typed N s → typed N (set_q_if b s).
Proof. unfold set_q_if. arm. Qed.
Lemma typed_update_nz N r s : typed N s → typed N (update_nz r s).
Proof. unfold update_nz. arm. Qed.
Lemma typed_result_nz N r s : typed N s → typed N (result_nz r s).
Proof. unfold result_nz. arm. Qed.
Lemma word_pow n : 0 <= n <= 31 → word (Z.shiftl 1 n).
Proof. intros Hn. unfold word. rewrite Z.shiftl_1_l. split; [lia|]. apply Z.pow_lt_mono_r; lia. Qed.
Lemma typed_set_bit N n b s : 0 <= n <= 31 → typed N s → typed N (set_bit n b s).
Proof. intros Hn Ht. unfold set_bit. apply typed_Cpsr; [|done]. apply word_if; [apply word_lor; [arm|by apply word_pow]|arm]. Qed.
Lemma typed_set_ge N a b c d s : typed N s → typed N (set_ge a b c d s).
Proof. intros. unfold set_ge. repeat (apply typed_set_bit; [lia|]). done. Qed.

Ltac typed_call ::=
  match goal with
  | |- typed _ (UPDATE_NFLAG _ _) => apply typed_UPDATE_NFLAG
  | |- typed _ (UPDATE_ZFLAG _ _) => apply typed_UPDATE_ZFLAG
  | |- typed _ (UPDATE_CFLAG_WITH_SC _) => apply typed_UPDATE_CFLAG
  | |- typed _ (SAVE_NZCVT _) => apply typed_SAVE_NZCVT
  | |- typed _ (LOAD_NZCVT _) => apply typed_LOAD_NZCVT
  | |- typed _ (next_pc _) => apply typed_next_pc
  | |- typed _ (ChangePrivilegeMode _ _) => apply typed_ChangePrivilegeMode
  | |- typed _ (restore_cpsr _) => apply typed_restore_cpsr
  | |- typed _ (UnsetExclusiveMemoryAddress _) => apply typed_Unset
  | |- typed _ (SetExclusiveMemoryAddress _ _) => apply typed_SetExclusive
  | |- typed _ (set_q_if _ _) => apply typed_set_q_if
  | |- typed _ (set_q _) => apply (typed_set_q_if _ true)
  | |- typed _ (update_nz _ _) => apply typed_update_nz
  | |- typed _ (result_nz _ _) => apply typed_result_nz
  | |- typed _ (set_ge _ _ _ _ _) => apply typed_set_ge
  | |- typed _ (set_bit _ _ _) => apply typed_set_bit; [lia|]
  end.

Lemma word_pack16 lo hi : word (pack16 lo hi).
Proof. unfold pack16. arm. Qed.
Lemma word_pack8 a b c d : word (pack8 a b c d).
Proof. unfold pack8. arm. Qed.
Lemma word_sext8 v : word v → word (sext8 v).
Proof. unfold sext8. arm. Qed.
Lemma word_sext16 v : word v → word (sext16 v).
Proof. unfold sext16. arm. Qed.
Lemma word_rotated N inst s : typed N s → word (rotated inst s).
Proof. unfold rotated. intros. apply word_rotate; [arm|]. pose proof (BITS_range inst 10 11). lia. Qed.
Lemma word_clz x : word x → word (clz x).
Proof.
  intros Hx. unfold clz. destruct (x =? 0); [arm|].
  assert (∀ (c : bool) n m y z, word y → word z → 1 <= n <= 31 - m → 0 <= m →
            ∃ n' y', (if c then (n + m, y) else (n, z)) = (n', y') ∧ word y' ∧ 1 <= n' <= n + m) as H.
  { intros [] n m y z; eauto 10 with lia. }
  destruct (H (Z.shiftr x 16 =? 0) 1 16 (u32 (Z.shiftl x 16)) x) as (n1 & x1 & -> & H1 & Hn1); [arm..|].
  destruct (H (Z.shiftr x1 24 =? 0) n1 8 (u32 (Z.shiftl x1 8)) x1) as (n2 & x2 & -> & H2 & Hn2); [arm..|].
  destruct (H (Z.shiftr x2 28 =? 0) n2 4 (u32 (Z.shiftl x2 4)) x2) as (n3 & x3 & -> & H3 & Hn3); [arm..|].
  destruct (H (Z.shiftr x3 30 =? 0) n3 2 (u32 (Z.shiftl x3 2)) x3) as (n4 & x4 & -> & H4 & Hn4); [arm..|].
  pose proof (bit_shiftr x4 H4) as Hb. unfold is_bit in Hb. unfold word. lia.
Qed.

(** A value and a state. *)
Definition valued (N : Z) (p : Z * ARMul_State) : Prop := word p.1 ∧ typed N p.2.
Lemma valued_pair N v s : word v → typed N s → valued N (v, s).
Proof. done. Qed.
Lemma valued_if N (c : bool) p q : valued N p → valued N q → valued N (if c then p else q).
Proof. by destruct c. Qed.
Lemma typed_let N p (f : Z → ARMul_State → ARMul_State) :
  valued N p → (∀ v s, word v → typed N s → typed N (f v s)) → typed N (let '(v, s) := p in f v s).
Proof. destruct p. intros []. auto. Qed.
Lemma valued_let N p (f : Z → ARMul_State → Z * ARMul_State) :
  valued N p → (∀ v s, word v → typed N s → valued N (f v s)) → valued N (let '(v, s) := p in f v s).
Proof. destruct p. intros []. auto. Qed.
Lemma typed_let_Z N (p : Z * Z) (f : Z → Z → ARMul_State) : (∀ v w, typed N (f v w)) → typed N (let '(v, w) := p in f v w).
Proof. destruct p. auto. Qed.
Lemma word_ReadCP15 N crn o1 crm o2 s : typed N s → word (ReadCP15Register crn o1 crm o2 s).
Proof.
  intros Ht. unfold ReadCP15Register. destruct (read_target (InAPrivilegedMode s) crn o1 crm o2); [|arm]. eapply words_lookup, ty_cp15, Ht.
Qed.
Lemma typed_WriteCP15 N v crn o1 crm o2 s : word v → typed N s → typed N (WriteCP15Register v crn o1 crm o2 s).
Proof.
  intros Hv Ht. unfold WriteCP15Register. cbv zeta.
  destruct (write_unprivileged crn o1 crm o2), (InAPrivilegedMode s), (write_privileged crn o1 crm o2); arm.
Qed.
Lemma typed_if_passed N inst f s : typed N (f s) → typed N s → typed N (if_passed inst f s).
Proof. unfold if_passed. arm. Qed.

Lemma word_bit_shiftl x n : is_bit x → 0 <= n <= 31 → word (Z.shiftl x n).
Proof. intros Hx Hn. unfold is_bit in Hx. assert (x = 0 ∨ x = 1) as [->| ->] by lia; [rewrite Z.shiftl_0_l; arm|by apply word_pow]. Qed.
Lemma word_usad a b c d e f g h :
  word (ARMul_UnsignedAbsoluteDifference a b + ARMul_UnsignedAbsoluteDifference c d + ARMul_UnsignedAbsoluteDifference e f +
        ARMul_UnsignedAbsoluteDifference g h).
Proof.
  assert (∀ x y, 0 <= ARMul_UnsignedAbsoluteDifference x y < 2 ^ 8) as H.
  { intros x y. unfold ARMul_UnsignedAbsoluteDifference. destruct (y <? x); apply Z.mod_pos_bound; lia. }
  pose proof (H a b). pose proof (H c d). pose proof (H e f). pose proof (H g h). unfold word. lia.
Qed.

Ltac let_step :=
  match goal with
  | |- valued _ (_, _) => apply valued_pair
  | |- valued _ (if _ then _ else _) => apply valued_if
  | |- valued _ (let '(_, _) := _ in _) => apply valued_let; [|intros]
  | |- typed _ (let '(_, _) := _ in _) => first [apply typed_let_Z; intros | apply typed_let; [|intros]]
  | |- typed _ (WriteCP15Register _ _ _ _ _ _) => apply typed_WriteCP15
  | |- typed _ (if_passed _ _ _) => apply typed_if_passed
  | |- word (ReadCP15Register _ _ _ _ _) => eapply word_ReadCP15
  | |- word (pack16 _ _) => apply word_pack16
  | |- word (pack8 _ _ _ _) => apply word_pack8
  | |- word (sext8 _) => apply word_sext8
  | |- word (sext16 _) => apply word_sext16
  | |- word (rotated _ _) => eapply word_rotated
  | |- word (clz _) => apply word_clz
  | |- word (Z.shiftl (BIT _ _) _) => apply word_bit_shiftl
  | |- word (ARMul_UnsignedAbsoluteDifference _ _ + _) => apply word_usad
  | |- word (_ + ARMul_UnsignedAbsoluteDifference _ _) => apply word_usad
  | |- 0 <= BITS ?s ?a ?b * 2 => pose proof (BITS_range s a b); lia
  end.
Ltac arm ::= intros; cbv beta zeta; repeat first [typed_step | typed_call | let_step | word_step].

(** ** The instructions *)

Section Instructions.
Context (N : Z) (inst : Z).
Implicit Types s : ARMul_State.

Lemma typed_MUL s : typed N s → typed N (MUL_INST inst s).
Proof. unfold MUL_INST. arm. Qed.
Lemma typed_MLA s : typed N s → typed N (MLA_INST inst s).
Proof. unfold MLA_INST. arm. Qed.
Lemma typed_UMULL s : typed N s → typed N (UMULL_INST inst s).
Proof. unfold UMULL_INST, long_flags, write_hi_lo. arm. Qed.
Lemma typed_SMULL s : typed N s → typed N (SMULL_INST inst s).
Proof. unfold SMULL_INST, long_flags, write_hi_lo. arm. Qed.
Lemma typed_UMLAL s : typed N s → typed N (UMLAL_INST inst s).
Proof. unfold UMLAL_INST, long_flags, write_lo_hi. arm. Qed.
Lemma typed_SMLAL s : typed N s → typed N (SMLAL_INST inst s).
Proof. unfold SMLAL_INST, long_flags, write_lo_hi. arm. Qed.
Lemma typed_UMAAL s : typed N s → typed N (UMAAL_INST inst s).
Proof. unfold UMAAL_INST, long_flags, write_lo_hi. arm. Qed.
Lemma typed_SMLA s : typed N s → typed N (SMLA_INST inst s).
Proof. unfold SMLA_INST. arm. Qed.
Lemma typed_SMUL s : typed N s → typed N (SMUL_INST inst s).
Proof. unfold SMUL_INST. arm. Qed.
Lemma typed_SMLALXY s : typed N s → typed N (SMLALXY_INST inst s).
Proof. unfold SMLALXY_INST, long_flags, write_lo_hi. arm. Qed.
Lemma typed_SMLAW s : typed N s → typed N (SMLAW_INST inst s).
Proof. unfold SMLAW_INST. arm. Qed.
Lemma typed_SMULW s : typed N s → typed N (SMULW_INST inst s).
Proof. unfold SMULW_INST. arm. Qed.
Lemma typed_SMLAD s : typed N s → typed N (SMLAD_INST inst s).
Proof. unfold SMLAD_INST. arm. Qed.
Lemma typed_SMLALD s : typed N s → typed N (SMLALD_INST inst s).
Proof. unfold SMLALD_INST, long_flags, write_lo_hi. arm. Qed.
Lemma typed_SMMUL s : typed N s → typed N (SMMUL_INST inst s).
Proof. unfold SMMUL_INST. arm. Qed.
Lemma typed_QADD s : typed N s → typed N (QADD_INST inst s).
Proof. unfold QADD_INST, saturate32. arm. Qed.
Lemma typed_SADD s : typed N s → typed N (SADD_INST inst s).
Proof. unfold SADD_INST. arm. Qed.
Lemma typed_UADD s : typed N s → typed N (UADD_INST inst s).
Proof. unfold UADD_INST. arm. Qed.
Lemma typed_SHADD s : typed N s → typed N (SHADD_INST inst s).
Proof. unfold SHADD_INST. arm. Qed.
Lemma typed_UHADD s : typed N s → typed N (UHADD_INST inst s).
Proof. unfold UHADD_INST. arm. Qed.
Lemma typed_QADD8 s : typed N s → typed N (QADD8_INST inst s).
Proof. unfold QADD8_INST. arm. Qed.
Lemma typed_UQADD s : typed N s → typed N (UQADD_INST inst s).
Proof. unfold UQADD_INST. arm. Qed.
Lemma typed_USAD8 s : typed N s → typed N (USAD8_INST inst s).
Proof. unfold USAD8_INST. arm. Qed.
Lemma typed_SEL s : typed N s → typed N (SEL_INST inst s).
Proof. unfold SEL_INST. arm. Qed.
Lemma typed_SXTB s : typed N s → typed N (SXTB_INST inst s).
Proof. unfold SXTB_INST. arm. Qed.
Lemma typed_SXTH s : typed N s → typed N (SXTH_INST inst s).
Proof. unfold SXTH_INST. arm. Qed.
Lemma typed_UXTB s : typed N s → typed N (UXTB_INST inst s).
Proof. unfold UXTB_INST. arm. Qed.
Lemma typed_UXTH s : typed N s → typed N (UXTH_INST inst s).
Proof. unfold UXTH_INST. arm. Qed.
Lemma typed_UXTAB s : typed N s → typed N (UXTAB_INST inst s).
Proof. unfold UXTAB_INST. arm. Qed.
Lemma typed_UXTAH s : typed N s → typed N (UXTAH_INST inst s).
Proof. unfold UXTAH_INST. arm. Qed.
Lemma typed_SXTAB s : typed N s → typed N (SXTAB_INST inst s).
Proof. unfold SXTAB_INST. arm. Qed.
Lemma typed_SXTAH s : typed N s → typed N (SXTAH_INST inst s).
Proof. unfold SXTAH_INST. arm. Qed.
Lemma typed_SXTAB16 s : typed N s → typed N (SXTAB16_INST inst s).
Proof. unfold SXTAB16_INST. arm. Qed.
Lemma typed_UXTAB16 s : typed N s → typed N (UXTAB16_INST inst s).
Proof. unfold UXTAB16_INST. arm. Qed.
Lemma typed_PKHBT s : typed N s → typed N (PKHBT_INST inst s).
Proof. unfold PKHBT_INST. arm. Qed.
Lemma typed_PKHTB s : typed N s → typed N (PKHTB_INST inst s).
Proof. unfold PKHTB_INST. arm. Qed.
Lemma typed_REV s : typed N s → typed N (REV_INST inst s).
Proof. unfold REV_INST. arm. Qed.
Lemma typed_CLZ s : typed N s → typed N (CLZ_INST inst s).
Proof. unfold CLZ_INST. arm. Qed.
Lemma typed_MRS s : typed N s → typed N (MRS_INST inst s).
Proof. unfold MRS_INST. arm. Qed.
Lemma typed_MSR s : typed N s → typed N (MSR_INST inst s).
Proof. unfold MSR_INST. arm. Qed.
Lemma typed_MCR s : typed N s → typed N (MCR_INST inst s).
Proof. unfold MCR_INST. arm. Qed.
Lemma typed_MRC s : typed N s → typed N (MRC_INST inst s).
Proof. unfold MRC_INST. arm. Qed.
Lemma typed_CPS s : typed N s → typed N (CPS_INST inst s).
Proof. unfold CPS_INST. arm. Qed.
Lemma typed_SETEND s : typed N s → typed N (SETEND_INST inst s).
Proof. unfold SETEND_INST. arm. Qed.
Lemma typed_BBL s : typed N s → typed N (BBL_INST inst s).
Proof. unfold BBL_INST. arm. Qed.
Lemma typed_BX s : typed N s → typed N (BX_INST inst s).
Proof. unfold BX_INST. arm. Qed.
Lemma typed_BLX s : typed N s → typed N (BLX_INST inst s).
Proof. unfold BLX_INST. arm. Qed.
Lemma typed_B_2_THUMB s : typed N s → typed N (B_2_THUMB inst s).
Proof. unfold B_2_THUMB. arm. Qed.
Lemma typed_B_COND_THUMB s : typed N s → typed N (B_COND_THUMB inst s).
Proof. unfold B_COND_THUMB. arm. Qed.
Lemma typed_BL_1_THUMB s : typed N s → typed N (BL_1_THUMB inst s).
Proof. unfold BL_1_THUMB. arm. Qed.
Lemma typed_BL_2_THUMB s : typed N s → typed N (BL_2_THUMB inst s).
Proof. unfold BL_2_THUMB. arm. Qed.
Lemma typed_BLX_1_THUMB s : typed N s → typed N (BLX_1_THUMB inst s).
Proof. unfold BLX_1_THUMB. arm. Qed.

(** *** Operands *)

Lemma valued_shifter f s op : typed N s → GetShifterOp inst = Some f → valued N (f s op).
Proof.
  intros Ht. unfold GetShifterOp.
  repeat (destruct (_ : bool); [intros [= <-]|]); try done;
    unfold DPO_Immediate, DPO_Register, DPO_LogicalShiftLeftByImmediate, DPO_LogicalShiftLeftByRegister, DPO_LogicalShiftRightByImmediate,
      DPO_LogicalShiftRightByRegister, DPO_ArithmeticShiftRightByImmediate, DPO_ArithmeticShiftRightByRegister, DPO_RotateRightByImmediate,
      DPO_RotateRightByRegister; arm.
Qed.
Lemma word_up_down a b : word (up_down inst a b).
Proof. unfold up_down. arm. Qed.
Lemma valued_addressing f s : typed N s → GetAddressingOp inst = Some f ∨ GetAddressingOpLoadStoreT inst = Some f → valued N (f s inst).
Proof.
  intros Ht. assert (∀ g s, typed N s → typed N (write_back inst g s)) as Hw by (intros; unfold write_back; arm).
  assert (∀ s n x y, typed N s → valued N (CHECK_READ_REG15_WA s n, put_reg (BITS inst 16 19) (up_down inst x y) s)) as H1.
  { intros. split; cbn; [arm|apply typed_put_reg; [apply word_up_down|done]]. }
  assert (∀ s (g : ARMul_State → ARMul_State), typed N s → typed N (g s) → typed N (if_passed inst g s)) as H2 by (intros; arm).
  unfold GetAddressingOp, GetAddressingOpLoadStoreT. intros [Hf|Hf]; revert Hf; cbv zeta;
  repeat (destruct (_ : bool); [intros [= <-]|]); try done;
    unfold LnSWoUB_ImmediateOffset, LnSWoUB_RegisterOffset, LnSWoUB_ImmediatePostIndexed, LnSWoUB_ImmediatePreIndexed, MLnS_RegisterPreIndexed,
      LnSWoUB_RegisterPreIndexed, LnSWoUB_ScaledRegisterPreIndexed, LnSWoUB_ScaledRegisterPostIndexed, LnSWoUB_RegisterPostIndexed,
      LnSWoUB_ScaledRegisterOffset, MLnS_ImmediateOffset, MLnS_RegisterOffset, MLnS_ImmediatePreIndexed, MLnS_ImmediatePostIndexed,
      MLnS_RegisterPostIndexed, LdnStM_DecrementBefore, LdnStM_IncrementBefore, LdnStM_IncrementAfter, LdnStM_DecrementAfter;
    split; cbn [fst snd];
    first [apply Hw; done | apply H2; [done|apply typed_put_reg; [apply word_up_down|done]]
          | apply typed_put_reg; [apply word_up_down|done] | apply word_up_down | arm].
Qed.

(** *** Data processing *)

(** The state of a result is typed. *)
Definition gives {A} (r : option (ARMul_State * A)) : Prop := ∀ s a, r = Some (s, a) → typed N s.

Lemma gives_bind {A B} (r : option (ARMul_State * A)) (f : ARMul_State → A → option (ARMul_State * B)) :
  gives r → (∀ s a, typed N s → gives (f s a)) → gives ('(s, a) ← r; f s a).
Proof. intros Hr Hf s b H. apply bind_Some in H as ([s' a] & E & H). eapply Hf; [by eapply Hr|exact H]. Qed.
Lemma gives_Some {A} s (a : A) : typed N s → gives (Some (s, a)).
Proof. by intros Hs ? ? [= <- <-]. Qed.
Lemma gives_pair {A} (p : ARMul_State * A) : typed N p.1 → gives (Some p).
Proof. destruct p. apply gives_Some. Qed.
Lemma gives_if {A} (c : bool) (r r' : option (ARMul_State * A)) : gives r → gives r' → gives (if c then r else r').
Proof. by destruct c. Qed.

Lemma with_operand {A} (s : ARMul_State) (k : Z → ARMul_State → option (ARMul_State * A)) :
  typed N s → (∀ v s, word v → typed N s → gives (k v s)) → gives ('(rop, s) ← SHIFTER_OPERAND inst s; k rop s).
Proof.
  intros Hs Hk s' a H. apply bind_Some in H as ([v s1] & E & H). unfold SHIFTER_OPERAND in E. apply bind_Some in E as (f & Ef & E).
  injection E as E. destruct (valued_shifter f s (BITS inst 0 11) Hs Ef) as [Hv Ht]. rewrite E in Hv, Ht. by eapply Hk.
Qed.

Lemma word_RN_ahead s : typed N s → word (RN_ahead inst s).
Proof. unfold RN_ahead. arm. Qed.
Lemma typed_logical_flags s : typed N s → typed N (logical_flags inst s).1.
Proof. unfold logical_flags. cbn [fst]. arm. Qed.
Lemma typed_arith_flags c v s : typed N s → typed N (arith_flags inst c v s).1.
Proof. unfold arith_flags. cbn [fst]. arm. Qed.

Lemma gives_logical f s : (∀ a b, word a → word b → word (f a b)) → typed N s → gives (logical inst f s).
Proof.
  intros Hf Hs. unfold logical. cbv zeta. apply with_operand; [done|]. intros v s1 Hv H1.
  apply gives_pair, typed_logical_flags, typed_put_reg; [|done]. apply Hf; [by apply word_RN_ahead|done].
Qed.
Lemma gives_arith rn f s : (∀ a b, word (f a b).1.1) → typed N s → gives (arith inst rn f s).
Proof.
  intros Hf Hs. unfold arith. apply with_operand; [done|]. intros v s1 Hv H1. specialize (Hf rn v).
  destruct (f rn v) as [[r c] o]. by apply gives_pair, typed_arith_flags, typed_put_reg.
Qed.
Lemma gives_compare f s : typed N s → gives (compare inst f s).
Proof.
  intros Hs. unfold compare. cbv zeta. apply with_operand; [done|]. intros v s1 Hv H1. destruct (f _ v) as [[r c] o].
  apply gives_Some. arm.
Qed.
Lemma gives_test f s : typed N s → gives (test inst f s).
Proof. intros Hs. unfold test. cbv zeta. apply with_operand; [done|]. intros v s1 Hv H1. apply gives_Some. arm. Qed.
Lemma word_AddWithCarry a b c : word (AddWithCarry a b c).1.1.
Proof. unfold AddWithCarry. cbn [fst]. arm. Qed.
Lemma gives_CPY s : typed N s → gives (CPY_INST inst s).
Proof. intros Hs. unfold CPY_INST. apply with_operand; [done|]. intros. apply gives_Some. arm. Qed.

Lemma sat_word v shift r b : 0 <= shift → ARMul_SignedSatQ v shift = Some (r, b) ∨ ARMul_UnsignedSatQ v shift = Some (r, b) → word r.
Proof.
  intros Hs. assert (∀ m, max_of shift = Some m → word m) as Hm.
  { unfold max_of. intros m. destruct (Z.ltb_spec shift 31); [|done]. intros [= <-]. rewrite Z.shiftl_1_l. unfold word.
    pose proof (Z.pow_le_mono_r 2 shift 31 ltac:(lia) ltac:(lia)). pose proof (Z.pow_pos_nonneg 2 shift ltac:(lia) ltac:(lia)). lia. }
  unfold ARMul_SignedSatQ, ARMul_UnsignedSatQ. destruct (max_of shift) as [m|]; [|by intros []]. specialize (Hm m eq_refl).
  assert (∀ (c1 c2 : bool) (x y z : Z) b1 b2 b3, word x → word y → word z →
            Some (if c1 then (x, b1) else if c2 then (y, b2) else (z, b3)) = Some (r, b) → word r) as H.
  { intros [] [] x y z b1 b2 b3 ? ? ? [= <- _]; done. }
  intros [E|E]; eapply H in E; arm.
Qed.

Lemma option_put (f : option (Z * bool)) (k : Z → bool → ARMul_State) s' :
  (∀ v b, f = Some (v, b) → typed N (k v b)) → ('(v, b) ← f; Some (k v b)) = Some s' → typed N s'.
Proof. intros H E. apply bind_Some in E as ([v b] & Ef & [= <-]). by apply H. Qed.
Lemma typed_SSAT s s' : typed N s → SSAT_INST inst s = Some s' → typed N s'.
Proof.
  intros Hs. apply option_put. intros v b E. apply typed_put_reg; [|arm]. eapply sat_word; [|left; exact E]. apply (BITS_range inst 16 20); lia.
Qed.
Lemma typed_USAT s s' : typed N s → USAT_INST inst s = Some s' → typed N s'.
Proof.
  intros Hs. apply option_put. intros v b E. apply typed_put_reg; [|arm]. eapply sat_word; [|right; exact E]. apply (BITS_range inst 16 20); lia.
Qed.
Lemma typed_SSAT16 s s' : typed N s → SSAT16_INST inst s = Some s' → typed N s'.
Proof.
  intros Hs E. apply bind_Some in E as ([lo b1] & _ & E). revert E. apply option_put. arm.
Qed.
Lemma typed_USAT16 s s' : typed N s → USAT16_INST inst s = Some s' → typed N s'.
Proof.
  intros Hs E. apply bind_Some in E as ([lo b1] & _ & E). revert E. apply option_put. arm.
Qed.

End Instructions.

(** *** Memory *)

(** The bus gives values of the width that is read. *)
Class CpuBusWords (M : Type) `{CpuBus M} :=
  bus_read_range n a m m' v : n ∈ [1; 2; 4; 8] → bus_read n a m = Some (m', v) → 0 <= v < 2 ^ (8 * n).

Section Memory.
Context `{CpuBusWords M} (N : Z) (inst : Z).
Implicit Types (s : ARMul_State) (m : M).

Lemma word_swap_bytes_2 v : word (swap_bytes 2 v).
Proof.
  unfold swap_bytes, le_bytes, rev, le_value, app, word. pose proof (Z.mod_pos_bound v (2 ^ 8) ltac:(lia)).
  pose proof (Z.mod_pos_bound (v / 2 ^ 8) (2 ^ 8) ltac:(lia)). lia.
Qed.
Lemma word_Read8 a s m m' v : ReadMemory8 a s m = Some (m', v) → word v.
Proof. intros E. apply bus_read_range in E; [|set_solver]. unfold word. lia. Qed.
Lemma word_Read16 a s m m' v : ReadMemory16 a s m = Some (m', v) → word v.
Proof.
  intros E. apply bind_Some in E as ([m1 d] & E & [= _ <-]). apply bus_read_range in E; [|set_solver].
  apply word_if; [apply word_swap_bytes_2|unfold word; lia].
Qed.
Lemma word_Read32 a s m m' v : ReadMemory32 a s m = Some (m', v) → word v.
Proof.
  intros E. apply bind_Some in E as ([m1 d] & E & [= _ <-]). apply bus_read_range in E; [|set_solver].
  apply word_if; [apply word_swap_bytes|unfold word; lia].
Qed.

Lemma typed_get_addr s a s' : typed N s → get_addr inst s = Some (a, s') ∨ get_addr_T inst s = Some (a, s') → typed N s'.
Proof.
  intros Hs [E|E]; apply bind_Some in E as (f & Ef & E); injection E as E.
  - pose proof (valued_addressing N inst f s Hs (or_introl Ef)) as [_ Ht]. by rewrite E in Ht.
  - pose proof (valued_addressing N inst f s Hs (or_intror Ef)) as [_ Ht]. by rewrite E in Ht.
Qed.

(** The steps of a routine, one bind at a time, with what each read and each address gives. *)
Ltac mem_step :=
  match goal with
  | E : get_addr inst ?s = Some (_, ?s'), Hs : typed N ?s |- _ => pose proof (typed_get_addr _ _ _ Hs (or_introl E)); clear E
  | E : get_addr_T inst ?s = Some (_, ?s'), Hs : typed N ?s |- _ => pose proof (typed_get_addr _ _ _ Hs (or_intror E)); clear E
  | E : ReadMemory8 _ _ _ = Some _ |- _ => apply word_Read8 in E
  | E : ReadMemory16 _ _ _ = Some _ |- _ => apply word_Read16 in E
  | E : ReadMemory32 _ _ _ = Some _ |- _ => apply word_Read32 in E
  | E : put_reg_at _ _ _ = Some _ |- _ => unfold put_reg_at in E
  | E : mbind _ _ = Some _ |- _ =>
      let x := fresh "x" in let Ex := fresh "E" in
      apply bind_Some in E as (x & Ex & E); repeat match type of x with prod _ _ => let y := fresh "y" in destruct x as [x y] end;
      cbv beta iota zeta in E
  | E : (if ?b then _ else _) = Some _ |- _ => destruct b; cbv beta zeta in E
  | E : Some (_, _, _) = Some (_, _, _) |- _ => injection E as <- <- <-
  | E : Some (_, _) = Some (_, _) |- _ => injection E as <- <-
  | E : Some _ = Some _ |- _ => injection E as <-
  end.
Ltac mem := intros Hs E; cbv zeta in E; repeat mem_step; arm.

Lemma typed_LDR s m s' m' j : typed N s → LDR_INST inst s m = Some (s', m', j) → typed N s'.
Proof. unfold LDR_INST. mem. Qed.
Lemma typed_load read f s m s' m' :
  (∀ a s m m' v, read a s m = Some (m', v) → word v) → (∀ v, word v → word (f v)) →
  typed N s → load_narrow read f inst s m = Some (s', m') → typed N s'.
Proof. intros Hr Hf. unfold load_narrow. mem. apply Hf. by eapply Hr. Qed.
Lemma typed_LDRD s m s' m' : typed N s → LDRD_INST inst s m = Some (s', m') → typed N s'.
Proof. unfold LDRD_INST. mem. Qed.
Lemma typed_load_T read s m s' m' :
  (∀ a s m m' v, read a s m = Some (m', v) → word v) → typed N s → load_T read inst s m = Some (s', m') → typed N s'.
Proof. intros Hr. unfold load_T. mem. by eapply Hr. Qed.
Lemma typed_STR s m s' m' : typed N s → STR_INST inst s m = Some (s', m') → typed N s'.
Proof. unfold STR_INST. mem. Qed.
Lemma typed_STRB s m s' m' : typed N s → STRB_INST inst s m = Some (s', m') → typed N s'.
Proof. unfold STRB_INST. mem. Qed.
Lemma typed_STRH s m s' m' : typed N s → STRH_INST inst s m = Some (s', m') → typed N s'.
Proof. unfold STRH_INST. mem. Qed.
Lemma typed_STRD s m s' m' : typed N s → STRD_INST inst s m = Some (s', m') → typed N s'.
Proof. unfold STRD_INST. mem. Qed.
Lemma typed_STRBT s m s' m' : typed N s → STRBT_INST inst s m = Some (s', m') → typed N s'.
Proof. unfold STRBT_INST. mem. Qed.
Lemma typed_STRT s m s' m' : typed N s → STRT_INST inst s m = Some (s', m') → typed N s'.
Proof. unfold STRT_INST. mem. Qed.
Lemma typed_SWP s m s' m' : typed N s → SWP_INST inst s m = Some (s', m') → typed N s'.
Proof. unfold SWP_INST. mem. Qed.
Lemma typed_SWPB s m s' m' : typed N s → SWPB_INST inst s m = Some (s', m') → typed N s'.
Proof. unfold SWPB_INST. mem. Qed.
Lemma typed_load_exclusive read s m s' m' :
  (∀ a s m m' v, read a s m = Some (m', v) → word v) → typed N s → load_exclusive read inst s m = Some (s', m') → typed N s'.
Proof. intros Hr. unfold load_exclusive. mem. by eapply Hr. Qed.
Lemma typed_LDREXD s m s' m' : typed N s → LDREXD_INST inst s m = Some (s', m') → typed N s'.
Proof. unfold LDREXD_INST. mem. Qed.
Lemma typed_store_exclusive write s m s' m' : typed N s → store_exclusive write inst s m = Some (s', m') → typed N s'.
Proof. unfold store_exclusive. mem. Qed.
Lemma typed_RFE s m s' m' : typed N s → RFE_INST inst s m = Some (s', m') → typed N s'.
Proof. unfold RFE_INST. mem. Qed.
Lemma typed_SRS s m s' m' : typed N s → SRS_INST inst s m = Some (s', m') → typed N s'.
Proof. unfold SRS_INST. mem. Qed.

Lemma typed_load_list write (Hw : ∀ i v s, word v → typed N s → typed N (write i v s)) regs addr s m a s' m' :
  typed N s → load_list regs inst write addr s m = Some (a, s', m') → typed N s'.
Proof.
  revert addr s m. induction regs as [|i regs IH]; intros addr s m Hs E; cbn [load_list] in E; [by injection E as <- <- <-|].
  destruct (truth (BIT inst i)); [|by eapply IH]. apply bind_Some in E as ([m1 v] & Er & E). eapply IH, E. apply Hw; [by eapply word_Read32|done].
Qed.
Lemma typed_put_user i v s : word v → typed N s → typed N (put_user i v s).
Proof.
  intros Hv Hs. unfold put_user. repeat apply typed_if; try (apply typed_put_reg; done).
  apply typed_Reg_usr; [|done]. apply words_insert; [apply ty_usr, Hs|done].
Qed.
Lemma typed_put_interworking i v s : word v → typed N s → typed N (put_interworking i v s).
Proof. unfold put_interworking. arm. Qed.
Lemma typed_LDM s m s' m' j : typed N s → LDM_INST inst s m = Some (s', m', j) → typed N s'.
Proof.
  intros Hs E. unfold LDM_INST in E. cbv zeta in E. apply bind_Some in E as ([a s1] & Ea & E). apply bind_Some in E as ([s2 m2] & E & E').
  injection E' as <- _ _. pose proof (typed_get_addr _ _ _ Hs (or_introl Ea)) as H1.
  destruct (_ && _); [|destruct (negb _)]; apply bind_Some in E as ([[a3 s3] m3] & El & E).
  - injection E as <- _. eapply typed_load_list in El; eauto using typed_put_user.
  - injection E as <- _. eapply typed_load_list in El; eauto using typed_put_interworking.
  - apply bind_Some in E as ([m4 v] & Er & [= <- _]). apply word_Read32 in Er. eapply typed_load_list in El; eauto using typed_put_reg. arm.
Qed.
Lemma typed_STM s m s' m' : typed N s → STM_INST inst s m = Some (s', m') → typed N s'.
Proof.
  intros Hs E. unfold STM_INST in E. cbv zeta in E. apply bind_Some in E as ([a s1] & Ea & E). apply bind_Some in E as ([a2 m2] & _ & E).
  pose proof (typed_get_addr _ _ _ Hs (or_introl Ea)) as H1. destruct (truth (BIT inst 15)); [apply bind_Some in E as (m3 & _ & E)|]; by injection E as <- _.
Qed.

(** *** The table of labels *)

(** What a label leaves: the state typed, and the budget as it was, unless the loop ends. *)
Definition leaves_typed (r : option (ARMul_State * M * next)) : Prop :=
  ∀ s' m' n, r = Some (s', m', n) → match n with RETURN => typed 0 s' | _ => typed N s' end.

Lemma leaves_pure cond f s m : typed N s → typed N (f s) → leaves_typed (pure_inst cond f s m).
Proof. intros Hs Hf s' m' n [= <- _ <-]. apply typed_next_pc. by apply typed_if. Qed.
Lemma leaves_option cond f s m : typed N s → (∀ s', f s = Some s' → typed N s') → leaves_typed (option_inst cond f s m).
Proof.
  intros Hs Hf s' m' n E. apply bind_Some in E as (s1 & E & [= <- _ <-]). apply typed_next_pc.
  destruct (passed cond s); [by apply Hf|by injection E as <-].
Qed.
Lemma leaves_mem cond f s m : typed N s → (∀ s' m', f s m = Some (s', m') → typed N s') → leaves_typed (mem_inst cond f s m).
Proof.
  intros Hs Hf s' m' n E. apply bind_Some in E as ([s1 m1] & E & [= <- _ <-]). apply typed_next_pc.
  destruct (passed cond s); [by eapply Hf|by injection E as <- _].
Qed.
Lemma leaves_jumps r : (∀ s' m' j, r = Some (s', m', j) → typed N s') → leaves_typed (jumps r).
Proof.
  intros Hr s' m' n E. apply bind_Some in E as ([[s1 m1] j] & E & E'). apply Hr in E.
  destruct j; injection E' as <- _ <-; [done|by apply typed_next_pc].
Qed.
Lemma leaves_next s m n : typed N s → n ≠ RETURN → leaves_typed (Some (s, m, n)).
Proof. intros Hs Hn s' m' n' [= <- _ <-]. by destruct n. Qed.
Lemma leaves_if (c : bool) r r' : leaves_typed r → leaves_typed r' → leaves_typed (if c then r else r').
Proof. by destruct c. Qed.
Lemma leaves_data cond f s m : typed N s → gives N (f s) → leaves_typed (data_inst cond f s m).
Proof.
  intros Hs Hf. unfold data_inst. apply leaves_if; [|apply leaves_next; [by apply typed_next_pc|done]]. apply leaves_jumps.
  intros s' m' j E. apply bind_Some in E as ([s1 j1] & E & [= <- _ _]). by eapply Hf.
Qed.
Lemma leaves_jump cond f s m : typed N s → (∀ s' m' j, f s m = Some (s', m', j) → typed N s') → leaves_typed (jump_inst cond f s m).
Proof. intros Hs Hf. unfold jump_inst. apply leaves_if; [by apply leaves_jumps, Hf|apply leaves_next; [by apply typed_next_pc|done]]. Qed.
Lemma leaves_branch cond f s m : typed N s → typed N (f s) → leaves_typed (branch_inst cond f s m).
Proof. intros Hs Hf. apply leaves_next; [|done]. apply typed_if; [done|by apply typed_next_pc]. Qed.

Lemma typed_budget n s : typed N s → typed n (set_NumInstrsToExecute n s).
Proof. intros [[] _]. split; [split; cbn; assumption|done]. Qed.
End Memory.

(** What is known of each routine, for the search over the labels. *)
Create HintDb arm discriminated.
#[export] Hint Resolve
  typed_MUL typed_MLA typed_UMULL typed_SMULL typed_UMLAL typed_SMLAL typed_UMAAL typed_SMLA typed_SMUL
  typed_SMLALXY typed_SMLAW typed_SMULW typed_SMLAD typed_SMLALD typed_SMMUL typed_QADD typed_SADD typed_UADD
  typed_SHADD typed_UHADD typed_QADD8 typed_UQADD typed_USAD8 typed_SEL typed_SXTB typed_SXTH typed_UXTB
  typed_UXTH typed_UXTAB typed_UXTAH typed_SXTAB typed_SXTAH typed_SXTAB16 typed_UXTAB16 typed_PKHBT
  typed_PKHTB typed_REV typed_CLZ typed_MRS typed_MSR typed_MCR typed_MRC typed_CPS typed_SETEND typed_BBL
  typed_BX typed_BLX typed_B_2_THUMB typed_B_COND_THUMB typed_BL_1_THUMB typed_BL_2_THUMB typed_BLX_1_THUMB : arm.

Section Labels.
Context `{CpuBusWords M} (N : Z).
Implicit Types (s : ARMul_State) (m : M).

Lemma leaves_LDRD inst cond s m :
  typed N s → leaves_typed N ('(s, m) ← (if passed cond s then LDRD_INST inst s m else Some (s, m)); Some (put_reg 15 (u32 (reg 15 s + 4)) s, m, NEXT)).
Proof.
  intros Hs s' m' n E. apply bind_Some in E as ([s1 m1] & E & [= <- _ <-]). apply typed_put_reg; [apply word_u32|].
  destruct (passed cond s); [by eapply typed_LDRD|by injection E as <- _].
Qed.
Lemma leaves_state (r : option (ARMul_State * M)) f n :
  (∀ s' m', r = Some (s', m') → typed N s') → (∀ s, typed N s → typed N (f s)) → n ≠ RETURN →
  leaves_typed N ('(s, m) ← r; Some (f s, m, n)).
Proof. intros Hr Hf Hn s' m' n' E. apply bind_Some in E as ([s1 m1] & E & [= <- _ <-]). apply Hr in E. apply Hf in E. by destruct n. Qed.
Lemma leaves_CDP cond s m : typed N s → leaves_typed N (Some (if passed cond s then (set_NumInstrsToExecute 0 s, m, RETURN) else (next_pc s, m, NEXT))).
Proof.
  intros Hs s' m' n E. destruct (passed cond s); injection E as <- _ <-; [by apply (typed_budget N)|by apply typed_next_pc].
Qed.

Ltac leaves :=
  lazymatch goal with
  | |- leaves_typed _ (pure_inst _ _ _ _) => apply leaves_pure; [assumption|]
  | |- leaves_typed _ (option_inst _ _ _ _) => apply leaves_option; [assumption|intros ?]
  | |- leaves_typed _ (mem_inst _ _ _ _) => apply leaves_mem; [assumption|intros ? ?]
  | |- leaves_typed _ (data_inst _ _ _ _) => apply leaves_data; [assumption|]
  | |- leaves_typed _ (jump_inst _ _ _ _) => apply leaves_jump; [assumption|intros ? ? ?]
  | |- leaves_typed _ (branch_inst _ _ _ _) => apply leaves_branch; [assumption|]
  | |- leaves_typed _ (jumps _) => apply leaves_jumps; intros ? ? ?
  | |- leaves_typed _ (if _ then _ else _) => apply leaves_if
  | |- leaves_typed _ (Some (if _ then _ else _)) => apply leaves_CDP; assumption
  | |- leaves_typed _ (Some (_, _, _)) => apply leaves_next; [|discriminate]
  | |- leaves_typed _ (mbind _ (if _ then _ else _)) => apply leaves_LDRD; assumption
  | |- leaves_typed _ (mbind _ _) => apply leaves_state; [intros ? ?|intros ?|discriminate]
  | |- leaves_typed _ None => done
  end.

Ltac routine :=
  lazymatch goal with
  | |- SSAT_INST _ _ = _ → _ => apply typed_SSAT
  | |- USAT_INST _ _ = _ → _ => apply typed_USAT
  | |- SSAT16_INST _ _ = _ → _ => apply typed_SSAT16
  | |- USAT16_INST _ _ = _ → _ => apply typed_USAT16
  | |- LDR_INST _ _ _ = _ → _ => apply typed_LDR
  | |- LDRB_INST _ _ _ = _ → _ => apply typed_load; [exact word_Read8|arm|]
  | |- LDRH_INST _ _ _ = _ → _ => apply typed_load; [exact word_Read16|arm|]
  | |- LDRSB_INST _ _ _ = _ → _ => apply typed_load; [exact word_Read8|arm|]
  | |- LDRSH_INST _ _ _ = _ → _ => apply typed_load; [exact word_Read16|arm|]
  | |- LDRD_INST _ _ _ = _ → _ => apply typed_LDRD
  | |- LDRBT_INST _ _ _ = _ → _ => apply typed_load_T; [exact word_Read8|]
  | |- LDRT_INST _ _ _ = _ → _ => apply typed_load_T; [exact word_Read32|]
  | |- STR_INST _ _ _ = _ → _ => apply typed_STR
  | |- STRB_INST _ _ _ = _ → _ => apply typed_STRB
  | |- STRH_INST _ _ _ = _ → _ => apply typed_STRH
  | |- STRD_INST _ _ _ = _ → _ => apply typed_STRD
  | |- STRBT_INST _ _ _ = _ → _ => apply typed_STRBT
  | |- STRT_INST _ _ _ = _ → _ => apply typed_STRT
  | |- SWP_INST _ _ _ = _ → _ => apply typed_SWP
  | |- SWPB_INST _ _ _ = _ → _ => apply typed_SWPB
  | |- LDREX_INST _ _ _ = _ → _ => apply typed_load_exclusive; [exact word_Read32|]
  | |- LDREXB_INST _ _ _ = _ → _ => apply typed_load_exclusive; [exact word_Read8|]
  | |- LDREXH_INST _ _ _ = _ → _ => apply typed_load_exclusive; [exact word_Read16|]
  | |- LDREXD_INST _ _ _ = _ → _ => apply typed_LDREXD
  | |- STREX_INST _ _ _ = _ → _ => apply typed_store_exclusive
  | |- STREXB_INST _ _ _ = _ → _ => apply typed_store_exclusive
  | |- STREXH_INST _ _ _ = _ → _ => apply typed_store_exclusive
  | |- STREXD_INST _ _ _ = _ → _ => apply typed_store_exclusive
  | |- RFE_INST _ _ _ = _ → _ => apply typed_RFE
  | |- SRS_INST _ _ _ = _ → _ => apply typed_SRS
  | |- LDM_INST _ _ _ = _ → _ => apply typed_LDM
  | |- STM_INST _ _ _ = _ → _ => apply typed_STM
  | |- gives _ (CPY_INST _ _) => apply gives_CPY
  | |- gives _ _ =>
      unfold CMN_INST, CMP_INST, TEQ_INST, TST_INST, AND_INST, BIC_INST, EOR_INST, ORR_INST, MOV_INST, MVN_INST, ADC_INST, ADD_INST, RSB_INST,
        RSC_INST, SBC_INST, SUB_INST; cbv zeta;
      lazymatch goal with
      | |- gives _ (compare _ _ _) => apply gives_compare
      | |- gives _ (test _ _ _) => apply gives_test
      | |- gives _ (logical _ _ _) => apply gives_logical; [arm|]
      | |- gives _ (arith _ _ _ _) => apply gives_arith; [intros; apply word_AddWithCarry|]
      end
  | |- typed _ _ → _ => intros ?
  | |- _ => idtac
  end.

Lemma exec_label_typed l cond inst s m : typed N s → leaves_typed N (exec_label l cond inst s m).
Proof.
  intros Hs. destruct l; cbn [exec_label]; repeat leaves; routine; eauto 3 using typed_next_pc, typed_Unset with arm.
Qed.
End Labels.


(** ** Examples *)

Module Examples.
Import ArmState.Examples.

(** A memory of bytes; the first page cannot be written. *)
#[export] Instance byte_bus : CpuBus (Z → Z) := {
  bus_read n a m := Some (m, le_value ((λ i, m (u32 (a + i)) `mod` 2 ^ 8) <$> seqZ 0 n));
  bus_write n a v m :=
    Some (λ x, let i := u32 (x - a) in if (i <? n) && (0x1000 <=? x) then (v / 2 ^ (8 * i)) `mod` 2 ^ 8 else m x) }.
#[export] Instance byte_bus_words : CpuBusWords (Z → Z).
Proof.
  intros n a m m' v Hn [= _ <-]. pose proof (le_value_range ((λ i, m (u32 (a + i)) `mod` 2 ^ 8) <$> seqZ 0 n)) as H.
  rewrite length_fmap, length_seqZ in H. assert (0 <= n) by (set_unfold; lia). rewrite Z2Nat.id in H by done. apply H.
  apply Forall_fmap, Forall_forall. intros x _. apply Z.mod_pos_bound. lia.
Defined.

Lemma words_test n l : (length l =? n)%nat && forallb (λ x, (0 <=? x) && (x <? 2 ^ 32)) l = true → words n l.
Proof.
  intros [Hl%Nat.eqb_eq Hw]%andb_true_iff. split; [done|]. apply Forall_forall. intros x Hx%list_elem_of_In.
  rewrite forallb_forall in Hw. by apply word_const, Hw.
Qed.
Lemma user_typed : arm_typed user.
Proof.
  split; try (apply words_test; vm_compute; reflexivity); try (apply word_const; vm_compute; reflexivity);
    vm_compute; split; discriminate.
Defined.


End Examples.
