(* ===== verification/ArmLoop.v ===== *)
(** * The main loop of the interpreter
    ([InterpreterMainLoop] and the translation of blocks in
    [src/src/core/arm/dyncom/arm_dyncom_interpreter.cpp]; [arm_dyncom.cpp])

    The loop runs translated instructions from a buffer.  A block is translated when its address is
    reached for the first time, up to an instruction that may jump or to the end of its page, and is found again
    in a cache.  Places in the buffer are counted in instructions: each routine steps over the size that
    its translation allocated.

    The theorems: the loop ends within its budget of instructions and charges no more ticks than it had; the cache is
    transparent, the loop does what an interpreter does that decodes every instruction when it comes to it, as
    long as the program keeps to rules that this interpreter checks; and a thread that is switched out and
    in resumes with its registers and flags.

    The system call and the floating-point instructions are an interface. *)

From stdpp Require Import base list gmap.
From S2P Require Import Prelude ArmSupp Memory ArmState ArmOperands ArmExec ArmDecode ArmThumb ArmTyped.
Open Scope Z_scope.

(** The result of a loop with fuel. *)
Inductive outcome (A : Type) := Done (a : A) | Stuck | OutOfFuel.
Arguments Done {A} a.
Arguments Stuck {A}.
Arguments OutOfFuel {A}.
Definition lift {A} (r : option A) : outcome A := match r with Some a => Done a | None => Stuck end.
Definition obind {A B} (r : outcome A) (f : A → outcome B) : outcome B :=
  match r with Done a => f a | Stuck => Stuck | OutOfFuel => OutOfFuel end.

(** What a system call and a floating-point instruction do; a system call may clear the instruction cache. *)
Class Supervisor (M : Type) := {
  CallSVC : Z → ARMul_State → M → option (ARMul_State * M * bool);
  exec_vfp : label → Z → Z → ARMul_State → M → option (ARMul_State * M * next) }.

Definition is_vfp (l : label) : bool :=
  match l with
  | L_VMLA | L_VMLS | L_VNMLA | L_VNMLS | L_VNMUL | L_VMUL | L_VADD | L_VSUB | L_VDIV | L_VMOVI | L_VMOVR | L_VABS | L_VNEG | L_VSQRT
  | L_VCMP | L_VCMP2 | L_VCVTBDS | L_VCVTBFF | L_VCVTBFI | L_VMOVBRS | L_VMSR | L_VMOVBRC | L_VMRS | L_VMOVBCR | L_VMOVBRRSS | L_VMOVBRRD
  | L_VSTR | L_VPUSH | L_VSTM | L_VPOP | L_VLDR | L_VLDM => true
  | _ => false
  end.

(** ** Translation *)

(** The instruction for the word at an address, and its size. *)
Definition decode_word (TFlag phys_addr inst : Z) : option (arm_inst * Z) :=
  if truth TFlag then
    match DecodeThumbInstruction inst phys_addr with
    | ThumbBranch idx tinstr => i ← arm_instruction_trans idx tinstr; Some (i, 2)
    | ThumbWord w => idx ← DecodeARMInstruction w; i ← arm_instruction_trans (Z.of_nat idx) w; Some (i, 2)
    | ThumbError => None
    end
  else idx ← DecodeARMInstruction inst; i ← arm_instruction_trans (Z.of_nat idx) inst; Some (i, 4).

Definition set_br (b : TransExtData) (i : arm_inst) : arm_inst := mkInst (ai_idx i) (ai_cond i) b (ai_word i).

(** The rounds for a block; 2048 halfwords are a page. *)
Definition page_fuel : nat := 2048.
Lemma page_fuel_value : Z.of_nat page_fuel = 2048.
Proof. reflexivity. Qed.
#[global] Opaque page_fuel.

Section Loop.
Context `{CpuBus M, !Supervisor M}.

Definition InterpreterTranslateInstruction (TFlag phys_addr : Z) (m : M) : option (M * arm_inst * Z) :=
  '(m, inst) ← bus_read 4 (Z.land phys_addr 0xFFFFFFFC) m;
  '(i, inst_size) ← decode_word TFlag phys_addr inst;
  Some (m, i, inst_size).

(** The instructions of a block. *)
Fixpoint translate_block (fuel : nat) (TFlag phys_addr : Z) (m : M) : outcome (M * list arm_inst) :=
  match fuel with
  | O => OutOfFuel
  | S fuel =>
      match InterpreterTranslateInstruction TFlag phys_addr m with
      | None => Stuck
      | Some (m, i, inst_size) =>
          let phys_addr := u32 (phys_addr + inst_size) in
          let i := if Z.land phys_addr 0xfff =? 0 then set_br END_OF_PAGE i else i in
          if decide (ai_br i = NON_BRANCH) then
            obind (translate_block fuel TFlag phys_addr m) (λ '(m, block), Done (m, i :: block))
          else Done (m, [i])
      end
  end.

(** ** The state of the loop *)

Record core := mkCore {
  cpu : ARMul_State;
  memory : M;
  instruction_cache : gmap Z nat;
  trans_cache_buf : list arm_inst;
  trans_cache_buf_top : nat;
  ticks : Z }.

Definition set_cpu (s : ARMul_State) (st : core) : core :=
  mkCore s (memory st) (instruction_cache st) (trans_cache_buf st) (trans_cache_buf_top st) (ticks st).
Definition ClearInstructionCache (st : core) : core := mkCore (cpu st) (memory st) ∅ (trans_cache_buf st) 0 (ticks st).

(** A block goes to the top of the buffer, over what a cleared cache has left there. *)
Definition install_block (m : M) (block : list arm_inst) (st : core) : core * nat :=
  let bb_start := trans_cache_buf_top st in
  (mkCore (cpu st) m (<[reg 15 (cpu st) := bb_start]> (instruction_cache st)) (take bb_start (trans_cache_buf st) ++ block)
     (bb_start + length block) (ticks st), bb_start).
Definition InterpreterTranslateBlock (st : core) : outcome (core * nat) :=
  obind (translate_block page_fuel (TFlag (cpu st)) (reg 15 (cpu st)) (memory st)) (λ '(m, block), Done (install_block m block st)).
Definition InterpreterTranslateSingle (st : core) : outcome (core * nat) :=
  obind (lift (InterpreterTranslateInstruction (TFlag (cpu st)) (reg 15 (cpu st)) (memory st))) (λ '(m, i, _),
    let i := if decide (ai_br i = NON_BRANCH) then set_br SINGLE_STEP i else i in Done (install_block m [i] st)).

(** ** One instruction *)

Definition align_pc (s : ARMul_State) : ARMul_State :=
  put_reg 15 (Z.land (reg 15 s) (if truth (TFlag s) then 0xfffffffe else 0xfffffffc)) s.

Record executed := mkExecuted {
  x_cpu : ARMul_State; x_memory : M; x_next : next; x_num : Z; x_ticks : Z; x_cleared : bool }.

(** The routine of an instruction, with the count of instructions: a system call charges it to the timer and
    starts it again. *)
Definition exec (i : arm_inst) (num_instrs : Z) (s : ARMul_State) (m : M) : option executed :=
  l ← InstLabel !! Z.to_nat (ai_idx i);
  if is_vfp l then
    '(s, m, n) ← exec_vfp l (ai_cond i) (ai_word i) s m; Some (mkExecuted s m n num_instrs 0 false)
  else
    match l with
    | L_SWI =>
        if passed (ai_cond i) s then
          let s := set_NumInstrsToExecute (if NumInstrsToExecute s <=? num_instrs then 0 else NumInstrsToExecute s - num_instrs) s in
          '(s, m, cleared) ← CallSVC (Z.land (BITS (ai_word i) 0 23) 0xFFFF) s m;
          Some (mkExecuted (next_pc (UnsetExclusiveMemoryAddress s)) m NEXT 0 num_instrs cleared)
        else Some (mkExecuted (next_pc s) m NEXT num_instrs 0 false)
    | _ => '(s, m, n) ← exec_label l (ai_cond i) (ai_word i) s m; Some (mkExecuted s m n num_instrs 0 false)
    end.

(** ** The loop *)

Definition dispatch (st : core) : outcome (option (core * nat)) :=
  if (NirqSig (cpu st) =? 0) && negb (truth (Z.land (Cpsr (cpu st)) 0x80)) then Done None
  else
    let st := set_cpu (align_pc (cpu st)) st in
    match instruction_cache st !! reg 15 (cpu st) with
    | Some ptr => Done (Some (st, ptr))
    | None =>
        obind (if negb (NumInstrsToExecute (cpu st) =? 1) then InterpreterTranslateBlock st else InterpreterTranslateSingle st)
          (λ r, Done (Some r))
    end.

(** The place of the next instruction, after a look-up when there is none. *)
Definition locate (st : core) (pos : option nat) : outcome (option (core * nat)) :=
  match pos with Some p => Done (Some (st, p)) | None => dispatch st end.

Definition end_loop (s : ARMul_State) : ARMul_State := set_NumInstrsToExecute 0 (SAVE_NZCVT s).
Definition after (st : core) (x : executed) : core :=
  let st' := mkCore (x_cpu x) (x_memory x) (instruction_cache st) (trans_cache_buf st) (trans_cache_buf_top st) (ticks st + x_ticks x) in
  if x_cleared x then ClearInstructionCache st' else st'.

Fixpoint loop (fuel : nat) (st : core) (pos : option nat) (num_instrs : Z) : outcome (core * Z) :=
  match fuel with
  | O => OutOfFuel
  | S fuel =>
      obind (locate st pos) (λ r,
        match r with
        | None => Done (set_cpu (end_loop (cpu st)) st, num_instrs)
        | Some (st, p) =>
            if NumInstrsToExecute (cpu st) <=? num_instrs then Done (set_cpu (end_loop (cpu st)) st, num_instrs)
            else
              obind (lift (trans_cache_buf st !! p)) (λ i,
                obind (lift (exec i (u32 (num_instrs + 1)) (cpu st) (memory st))) (λ x,
                  let st' := after st x in
                  match x_next x with
                  | NEXT => loop fuel st' (if decide (ai_br i = NON_BRANCH) then Some (S p) else None) (x_num x)
                  | DISPATCH => loop fuel st' None (x_num x)
                  | RETURN => Done (st', x_num x)
                  end))
        end)
  end.

Definition InterpreterMainLoop (fuel : nat) (st : core) : outcome (core * Z) := loop fuel (set_cpu (LOAD_NZCVT (cpu st)) st) None 0.

Definition ExecuteInstructions (fuel : nat) (num_instructions : Z) (st : core) : outcome core :=
  obind (InterpreterMainLoop fuel (set_cpu (set_NumInstrsToExecute num_instructions (cpu st)) st)) (λ '(st, ticks_executed),
    Done (mkCore (cpu st) (memory st) (instruction_cache st) (trans_cache_buf st) (trans_cache_buf_top st) (ticks st + ticks_executed))).
Definition Run (fuel : nat) (break_flag : bool) (downcount : Z) (st : core) : outcome core :=
  if break_flag then Done st else ExecuteInstructions fuel (Z.max downcount 0) st.
Definition Step (fuel : nat) (break_flag : bool) (st : core) : outcome core :=
  if break_flag then Done st else ExecuteInstructions fuel 1 st.

End Loop.
Arguments core : clear implicits.
Arguments executed : clear implicits.

(** ** Threads *)

Record ThreadContext := mkContext { cpu_registers : list Z; cpsr : Z; fpu_registers : list Z; fpscr : Z; fpexc : Z }.
Definition VFP_FPSCR : nat := 1.
Definition VFP_FPEXC : nat := 2.
Definition SaveContext (s : ARMul_State) : ThreadContext :=
  mkContext (Reg s) (Cpsr s) (ExtReg s) (VFP s !!! VFP_FPSCR) (VFP s !!! VFP_FPEXC).
Definition LoadContext (ctx : ThreadContext) (s : ARMul_State) : ARMul_State :=
  let s := set_ExtReg (fpu_registers ctx) (set_Cpsr (cpsr ctx) (set_Reg (cpu_registers ctx) s)) in
  let s := set_VFP (<[VFP_FPSCR := fpscr ctx]> (VFP s)) s in
  set_VFP (<[VFP_FPEXC := fpexc ctx]> (VFP s)) s.
Definition ARM_PrepareReschedule (s : ARMul_State) : ARMul_State := set_NumInstrsToExecute 0 s.

(** ** The loop ends *)

(** What the kernel keeps: the state well formed, and it never adds to the budget. *)
Class SupervisorTyped (M : Type) `{Supervisor M} := {
  svc_typed N k s m s' m' c : typed N s → 0 <= N → CallSVC k s m = Some (s', m', c) → ∃ N', 0 <= N' <= N ∧ typed N' s';
  vfp_typed N l cond inst s m : typed N s → leaves_typed N (exec_vfp l cond inst s m) }.

Lemma obind_Done {A B} (r : outcome A) (f : A → outcome B) b : obind r f = Done b → ∃ a, r = Done a ∧ f a = Done b.
Proof. destruct r; try done. intros H. by exists a. Qed.
Lemma obind_fuel {A B} (r : outcome A) (f : A → outcome B) :
  r ≠ OutOfFuel → (∀ a, r = Done a → f a ≠ OutOfFuel) → obind r f ≠ OutOfFuel.
Proof. destruct r; cbn; auto. Qed.
Lemma lift_fuel {A} (r : option A) : lift r ≠ OutOfFuel.
Proof. by destruct r. Qed.
Lemma lift_Done {A} (r : option A) a : lift r = Done a → r = Some a.
Proof. destruct r; [by intros [= ->]|done]. Qed.

Definition inst_size (TFlag : Z) : Z := if truth TFlag then 2 else 4.
Definition pc_mask (TFlag : Z) : Z := if truth TFlag then 0xfffffffe else 0xfffffffc.

Lemma decode_word_size t a w i n : decode_word t a w = Some (i, n) → n = inst_size t.
Proof.
  unfold decode_word, inst_size. destruct (truth t).
  - destruct (DecodeThumbInstruction w a) as [idx ti|wd|]; [|intros (idx & _ & H)%bind_Some; revert H|done];
      intros (i' & _ & [= _ <-])%bind_Some; done.
  - intros (idx & _ & (i' & _ & [= _ <-])%bind_Some)%bind_Some. done.
Qed.

Lemma land_mask x t : Z.land x (pc_mask t) = u32 x - u32 x `mod` inst_size t.
Proof.
  assert (∀ k, 0 <= k <= 32 → Z.land x (Z.shiftl (Z.ones (32 - k)) k) = u32 x - u32 x `mod` 2 ^ k) as H.
  { intros k Hk. pose proof (Z.pow_pos_nonneg 2 k ltac:(lia) ltac:(lia)) as Hp.
    replace (u32 x - u32 x `mod` 2 ^ k) with (Z.shiftl (Z.shiftr (u32 x) k) k).
    2:{ rewrite Z.shiftl_mul_pow2, Z.shiftr_div_pow2 by lia. pose proof (Z.div_mod (u32 x) (2 ^ k)). lia. }
    apply Z.bits_inj'. intros i Hi. rewrite Z.land_spec, !Z.shiftl_spec by lia.
    destruct (Z.ltb_spec i k) as [Hlt|Hge].
    - rewrite !(Z.testbit_neg_r _ (i - k)) by lia. apply andb_false_r.
    - rewrite Z.shiftr_spec by lia. replace (i - k + k) with i by lia. unfold u32. rewrite mod_pow2_testbit by lia.
      rewrite Z.testbit_ones_nonneg by lia. replace (i - k <? 32 - k) with (i <? 32) by (destruct (Z.ltb_spec i 32), (Z.ltb_spec (i - k) (32 - k)); lia).
      destruct (i <? 32); [by rewrite andb_true_r|by rewrite andb_false_r]. }
  unfold pc_mask, inst_size. destruct (truth t); [apply (H 1)|apply (H 2)]; lia.
Qed.
Lemma land_page x : Z.land x 0xfff = x `mod` 4096.
Proof. change 0xfff with (Z.ones 12). by rewrite Z.land_ones by lia. Qed.

Section Ends.
Context `{CpuBusWords M, !Supervisor M, !SupervisorTyped M}.

Lemma translate_block_ends fuel t a (m : M) :
  0 <= a < 2 ^ 32 → a `mod` inst_size t = 0 → 4096 - a `mod` 4096 <= Z.of_nat fuel * inst_size t → translate_block fuel t a m ≠ OutOfFuel.
Proof.
  intros Ha Hd. revert a m Ha Hd. induction fuel as [|fuel IH]; intros a m Ha Hd Hf; [pose proof (Z.mod_pos_bound a 4096); lia|].
  cbn [translate_block]. destruct (InterpreterTranslateInstruction t a m) as [[[m1 i] n]|] eqn:E; [|done].
  assert (n = inst_size t) as ->.
  { unfold InterpreterTranslateInstruction in E. apply bind_Some in E as ([m2 w] & _ & ([i' n'] & E & [= _ _ <-])%bind_Some). by eapply decode_word_size. }
  cbv zeta. rewrite land_page. destruct (Z.eqb_spec (u32 (a + inst_size t) `mod` 4096) 0) as [|Hp]; [by rewrite decide_False|].
  destruct (decide (ai_br i = NON_BRANCH)); [|done]. apply obind_fuel; [|by intros [] _].
  assert (u32 (a + inst_size t) = a + inst_size t ∧ (a + inst_size t) `mod` 4096 = a `mod` 4096 + inst_size t) as [E1 E2].
  { assert (inst_size t = 2 ∨ inst_size t = 4) as Hs by (unfold inst_size; destruct (truth t); auto).
    assert (u32 (a + inst_size t) = a + inst_size t) as E1.
    { unfold u32 in *. destruct (Z.eq_dec (a + inst_size t) (2 ^ 32)) as [Hw|Hw]; [by rewrite Hw in Hp|].
      apply Z.mod_small. change (2 ^ 32) with 4294967296 in *. destruct Hs as [Hs|Hs]; rewrite Hs in *; clear Hp Hf IH E; Z.to_euclidean_division_equations; lia. }
    split; [done|]. rewrite E1 in Hp. destruct Hs as [Hs|Hs]; rewrite Hs in *; clear IH E E1; Z.to_euclidean_division_equations; lia. }
  rewrite E1. apply IH; [unfold inst_size in *; pose proof (u32_range (a + (if truth t then 2 else 4))); lia| |].
  - rewrite <- Zplus_mod_idemp_l, Hd. unfold inst_size. by destruct (truth t).
  - rewrite E2. lia.
Qed.

(** What a routine does to the budget: ticks, count and what is left add up. *)
Lemma exec_budget N i num s (m : M) x :
  typed N s → 0 <= num <= N → exec i num s m = Some x →
  match x_next x with
  | RETURN => arm_typed (x_cpu x) ∧ 0 <= x_num x ∧ 0 <= x_ticks x ∧ x_ticks x + x_num x <= N
  | _ => ∃ N', typed N' (x_cpu x) ∧ 0 <= x_num x <= N' ∧ 0 <= x_ticks x ∧ x_ticks x + N' <= N ∧ N' - x_num x <= N - num
  end.
Proof.
  intros Hs Hn E. apply bind_Some in E as (l & _ & E).
  assert (∀ r, leaves_typed N r → ('(s, m, n) ← r; Some (mkExecuted s m n num 0 false)) = Some x →
    match x_next x with
    | RETURN => arm_typed (x_cpu x) ∧ 0 <= x_num x ∧ 0 <= x_ticks x ∧ x_ticks x + x_num x <= N
    | _ => ∃ N', typed N' (x_cpu x) ∧ 0 <= x_num x <= N' ∧ 0 <= x_ticks x ∧ x_ticks x + N' <= N ∧ N' - x_num x <= N - num
    end) as Hr.
  { intros r Hl ([[s1 m1] n] & Er & [= <-])%bind_Some. apply Hl in Er. cbn.
    destruct n; [exists N; split; [done|lia]..|split; [apply Er|lia]]. }
  destruct (is_vfp l); [by eapply Hr, E; apply vfp_typed|].
  destruct l; try (by eapply Hr, E; apply exec_label_typed).
  destruct (passed (ai_cond i) s); cbv zeta in E.
  - apply bind_Some in E as ([[s1 m1] c] & Er & [= <-]). destruct Hs as [Ht <-].
    set (N := NumInstrsToExecute s) in *. set (B := if N <=? num then 0 else N - num) in *.
    assert (B = N - num) as EB by (unfold B; destruct (Z.leb_spec N num); lia).
    apply (svc_typed B) in Er as (N' & HN & Hs'); [|by apply (typed_budget N)|lia]. cbn. exists N'.
    split; [by apply typed_next_pc, typed_Unset|lia].
  - injection E as <-. cbn. exists N. split; [by apply typed_next_pc|lia].
Qed.

Lemma align_typed N s : typed N s → typed N (align_pc s).
Proof. intros Hs. unfold align_pc. apply typed_put_reg; [|done]. apply word_land_l. by eapply word_reg. Qed.

Lemma dispatch_ends N (st : core M) :
  typed N (cpu st) →
  dispatch st ≠ OutOfFuel ∧
  ∀ st' p, dispatch st = Done (Some (st', p)) → cpu st' = align_pc (cpu st) ∧ ticks st' = ticks st.
Proof.
  intros Hs. unfold dispatch. destruct (_ && _); [by split|]. cbv zeta. destruct (instruction_cache _ !! _) as [ptr|].
  { split; [done|]. by intros st' p [= <- _]. }
  assert (reg 15 (align_pc (cpu st)) = Z.land (reg 15 (cpu st)) (pc_mask (TFlag (cpu st)))) as Epc.
  { unfold align_pc, reg, put_reg. cbn [Reg set_Reg]. destruct Hs as [Hs _]. pose proof (proj1 (ty_reg _ Hs)).
    rewrite list_lookup_total_insert_eq by (cbn; lia). done. }
  split.
  - apply obind_fuel; [|done]. destruct (negb _).
    + apply obind_fuel; [|by intros [] _]. cbn [cpu set_cpu TFlag]. change (TFlag (align_pc (cpu st))) with (TFlag (cpu st)).
      rewrite Epc, land_mask. pose proof (u32_range (reg 15 (cpu st))) as Hr.
      assert (inst_size (TFlag (cpu st)) = 2 ∨ inst_size (TFlag (cpu st)) = 4) as Hz by (unfold inst_size; destruct (truth _); auto).
      set (x := u32 (reg 15 (cpu st))) in *. clearbody x.
      apply translate_block_ends; rewrite ?page_fuel_value; destruct Hz as [Hz|Hz]; rewrite Hz; Z.to_euclidean_division_equations; lia.
    + apply obind_fuel; [apply lift_fuel|by intros [[] ?] _].
  - intros st' p E. apply obind_Done in E as ([st1 p1] & E & [= <- _]). destruct (negb _).
    + apply obind_Done in E as ([m b] & _ & [= <- _]). done.
    + apply obind_Done in E as ([[m i] n] & _ & [= <- _]). done.
Qed.

Lemma loop_ends fuel N (st : core M) pos num :
  typed N (cpu st) → 0 <= num <= N → N < 2 ^ 32 → N - num < Z.of_nat fuel →
  loop fuel st pos num ≠ OutOfFuel ∧
  ∀ st' ret, loop fuel st pos num = Done (st', ret) → arm_typed (cpu st') ∧ 0 <= ret ∧ ticks st <= ticks st' ∧ ticks st' + ret <= ticks st + N.
Proof.
  revert N st pos num. induction fuel as [|fuel IH]; intros N st pos num Hs Hn HN Hf; [lia|]. cbn [loop].
  assert (locate st pos ≠ OutOfFuel ∧ ∀ st1 p, locate st pos = Done (Some (st1, p)) → typed N (cpu st1) ∧ ticks st1 = ticks st) as [Hl1 Hl2].
  { destruct pos as [p|]; cbn [locate]; [split; [done|by intros ? ? [= <- _]]|].
    destruct (dispatch_ends N st Hs) as [H1 H2]. split; [done|]. intros st1 p E. apply H2 in E as [-> ->]. split; [by apply align_typed|done]. }
  assert (∀ s, typed N s → arm_typed (end_loop s)) as Hend.
  { intros s Ht. apply (typed_budget N 0 (SAVE_NZCVT s)). by apply typed_SAVE_NZCVT. }
  destruct (locate st pos) as [[[st1 p]|]| |]; cbn [obind]; [|split; [done|]|by split|done].
  2:{ intros st' ret [= <- <-]. cbn. split; [by apply Hend|lia]. }
  destruct (Hl2 st1 p eq_refl) as [Hs1 Et]. clear Hl1 Hl2 Hs. pose proof (proj2 Hs1) as EN. rewrite EN.
  destruct (Z.leb_spec N num) as [Hle|Hlt].
  { split; [done|]. intros st' ret [= <- <-]. cbn. split; [by apply Hend|lia]. }
  destruct (trans_cache_buf st1 !! p) as [i|]; cbn [lift obind]; [|by split].
  destruct (exec i (u32 (num + 1)) (cpu st1) (memory st1)) as [x|] eqn:Ex; cbn [lift obind]; [|by split].
  rewrite (u32_id (num + 1)) in Ex by lia. apply (exec_budget N) in Ex; [|done|lia].
  assert (cpu (after st1 x) = x_cpu x ∧ ticks (after st1 x) = ticks st1 + x_ticks x) as [Ec Ek] by (unfold after; by destruct (x_cleared x)).
  assert (∀ pos', (∃ N', typed N' (x_cpu x) ∧ 0 <= x_num x <= N' ∧ 0 <= x_ticks x ∧ x_ticks x + N' <= N ∧ N' - x_num x <= N - (num + 1)) →
    loop fuel (after st1 x) pos' (x_num x) ≠ OutOfFuel ∧
    ∀ st' ret, loop fuel (after st1 x) pos' (x_num x) = Done (st', ret) →
      arm_typed (cpu st') ∧ 0 <= ret ∧ ticks st <= ticks st' ∧ ticks st' + ret <= ticks st + N) as Hgo.
  { intros pos' (N' & Ht & Hx & Hk & Hb & Hm). destruct (IH N' (after st1 x) pos' (x_num x)) as [H1 H2]; [by rewrite Ec|lia..|].
    split; [done|]. intros st' ret E. apply H2 in E. rewrite Ek, Et in E. destruct E as (? & ? & ? & ?). split; [done|lia]. }
  destruct (x_next x); [by apply Hgo..|]. split; [done|]. intros st' ret [= <- <-]. rewrite Ec, Ek, Et. destruct Ex as (? & ? & ?). split; [done|lia].
Qed.
End Ends.


(** ** The cache is transparent *)

Section Transparent.
Context `{CpuBus M, !Supervisor M}.

(** The code of the program: its words, the addresses they are at, what it is for a memory to hold them, and the instruction set that each
    address is run in. *)
Context (code : Z → Z) (region : Z → bool) (kept : M → bool) (mode_of : Z → Z).

Definition decode_at (t a : Z) : option (arm_inst * Z) :=
  if region (Z.land a 0xFFFFFFFC) then decode_word t a (code (Z.land a 0xFFFFFFFC)) else None.
(** The instructions from an address to the next one that may jump or the end of the page. *)
Fixpoint straight (fuel : nat) (t a : Z) : option (list arm_inst) :=
  match fuel with
  | O => None
  | S fuel =>
      '(i, n) ← decode_at t a;
      let a := u32 (a + n) in
      let i := if Z.land a 0xfff =? 0 then set_br END_OF_PAGE i else i in
      if decide (ai_br i = NON_BRANCH) then rest ← straight fuel t a; Some (i :: rest) else Some [i]
  end.

(** An interpreter without blocks: it decodes each instruction where the program counter is, and runs it.  It gives up where the
    program leaves the rules: the code is changed, an address is run in two instruction sets, the instructions
    from here on do not decode, or one that is not marked as a jump goes elsewhere than to the next; and when an
    interrupt is signalled, which the loop looks for between blocks only. *)
Fixpoint ref_loop (fuel : nat) (s : ARMul_State) (m : M) (k num : Z) : outcome (ARMul_State * M * Z * Z) :=
  match fuel with
  | O => OutOfFuel
  | S fuel =>
      let s := align_pc s in
      let t := TFlag s in
      let pc := reg 15 s in
      if (NirqSig s =? 0) || negb (mode_of pc =? t) || negb (kept m) || negb (bool_decide (is_Some (straight page_fuel t pc))) then Stuck
      else if NumInstrsToExecute s <=? num then Done (end_loop s, m, k, num)
      else
        obind (lift (decode_at t pc)) (λ '(i, n),
          obind (lift (exec i (u32 (num + 1)) s m)) (λ x,
            match x_next x with
            | NEXT =>
                if bool_decide (ai_br i = NON_BRANCH) && negb ((reg 15 (x_cpu x) =? u32 (pc + n)) && (TFlag (x_cpu x) =? t)) then Stuck
                else ref_loop fuel (x_cpu x) (x_memory x) (k + x_ticks x) (x_num x)
            | DISPATCH => ref_loop fuel (x_cpu x) (x_memory x) (k + x_ticks x) (x_num x)
            | RETURN => Done (x_cpu x, x_memory x, k + x_ticks x, x_num x)
            end))
  end.

(** *** What the cache holds *)

Definition same_inst (i j : arm_inst) : Prop := ai_idx i = ai_idx j ∧ ai_cond i = ai_cond j ∧ ai_word i = ai_word j.
Fixpoint block_of (t a : Z) (b : list arm_inst) : Prop :=
  match b with
  | [] => False
  | i :: rest =>
      ∃ i0 n, decode_at t a = Some (i0, n) ∧ same_inst i i0 ∧
        (ai_br i = NON_BRANCH → ai_br i0 = NON_BRANCH ∧ block_of t (u32 (a + n)) rest)
  end.
Definition blocks_ok (st : core M) : Prop :=
  (trans_cache_buf_top st <= length (trans_cache_buf st))%nat ∧
  ∀ pc ptr, instruction_cache st !! pc = Some ptr →
    ∃ b sfx, drop ptr (trans_cache_buf st) = b ++ sfx ∧ (ptr + length b <= trans_cache_buf_top st)%nat ∧ block_of (mode_of pc) pc b.
Definition pos_ok (st : core M) (pos : option nat) : Prop :=
  match pos with
  | None => True
  | Some p => Z.land (reg 15 (cpu st)) (pc_mask (TFlag (cpu st))) = reg 15 (cpu st) ∧
      ∃ b sfx, drop p (trans_cache_buf st) = b ++ sfx ∧ block_of (TFlag (cpu st)) (reg 15 (cpu st)) b
  end.

Lemma exec_same i j num s (m : M) : same_inst i j → exec i num s m = exec j num s m.
Proof. intros (E1 & E2 & E3). unfold exec. by rewrite E1, E2, E3. Qed.
Lemma straight_block fuel t a b : straight fuel t a = Some b → block_of t a b.
Proof.
  revert a b. induction fuel as [|fuel IH]; intros a b E; [done|]. cbn [straight] in E.
  apply bind_Some in E as ([i n] & Ed & E). cbv zeta in E. set (j := if _ =? 0 then _ else _) in E.
  assert (same_inst j i) as Hj by (unfold j; by destruct (_ =? 0)).
  assert (ai_br j = NON_BRANCH → ai_br i = NON_BRANCH) as Hb by (unfold j; by destruct (_ =? 0)).
  destruct (decide (ai_br j = NON_BRANCH)) as [Ej|Ej].
  - apply bind_Some in E as (rest & Er & [= <-]). exists i, n. split; [done|]. split; [done|]. intros _. split; [by apply Hb|by apply IH].
  - injection E as <-. exists i, n. split; [done|]. by split.
Qed.

Lemma straight_first fuel t a b : straight fuel t a = Some b → ∃ i n, decode_at t a = Some (i, n).
Proof. destruct fuel; [done|]. cbn [straight]. intros ([i n] & Ed & _)%bind_Some. by exists i, n. Qed.
Lemma put_reg_same n s : put_reg n (reg n s) s = s.
Proof.
  unfold put_reg. assert (<[Z.to_nat n := reg n s]> (Reg s) = Reg s) as ->; [|by destruct s].
  unfold reg. destruct (decide (Z.to_nat n < length (Reg s))%nat) as [Hl|Hl].
  - apply list_insert_id. by apply list_lookup_lookup_total_lt.
  - apply list_insert_ge. lia.
Qed.
Lemma align_fixed s : Z.land (reg 15 s) (pc_mask (TFlag s)) = reg 15 s → align_pc s = s.
Proof. intros E. unfold align_pc. fold (pc_mask (TFlag s)). rewrite E. apply put_reg_same. Qed.
Lemma land_mask_idem x t : Z.land (Z.land x (pc_mask t)) (pc_mask t) = Z.land x (pc_mask t).
Proof. by rewrite <- Z.land_assoc, Z.land_diag. Qed.
Lemma align_aligned s : arm_typed s → Z.land (reg 15 (align_pc s)) (pc_mask (TFlag s)) = reg 15 (align_pc s).
Proof.
  intros Hs. unfold align_pc. fold (pc_mask (TFlag s)). unfold reg at 1 3, put_reg. cbn [Reg set_Reg].
  rewrite list_lookup_total_insert_eq by (cbn; rewrite (proj1 (ty_reg _ Hs)); lia). apply land_mask_idem.
Qed.
Lemma next_aligned x t : Z.land x (pc_mask t) = x → Z.land (u32 (x + inst_size t)) (pc_mask t) = u32 (x + inst_size t).
Proof.
  rewrite !land_mask. intros E. unfold u32 in *. change (2 ^ 32) with 4294967296 in *.
  assert (inst_size t = 2 ∨ inst_size t = 4) as [Hz|Hz] by (unfold inst_size; destruct (truth t); auto); rewrite Hz in *;
    Z.to_euclidean_division_equations; lia.
Qed.

Context (Hkept : ∀ m a, kept m = true → region a = true → bus_read 4 a m = Some (m, code a)).

Lemma translate_decode t a m i n : kept m = true → decode_at t a = Some (i, n) → InterpreterTranslateInstruction t a m = Some (m, i, n).
Proof.
  intros Hm E. unfold decode_at in E. destruct (region (Z.land a 0xFFFFFFFC)) eqn:Er; [|done].
  unfold InterpreterTranslateInstruction. rewrite (Hkept _ _ Hm Er). cbn [mbind option_bind]. by rewrite E.
Qed.
Lemma translate_straight fuel t a m b : kept m = true → straight fuel t a = Some b → translate_block fuel t a m = Done (m, b).
Proof.
  intros Hm. revert a b. induction fuel as [|fuel IH]; intros a b E; [done|]. cbn [straight translate_block] in *.
  apply bind_Some in E as ([i n] & Ed & E). rewrite (translate_decode _ _ _ _ _ Hm Ed). cbv zeta in *.
  destruct (decide _); [|by injection E as <-]. apply bind_Some in E as (rest & Er & [= <-]). by rewrite (IH _ _ Er).
Qed.

(** A block that is added keeps the blocks that were there. *)
Lemma cache_add m b (st : core M) :
  blocks_ok st → block_of (mode_of (reg 15 (cpu st))) (reg 15 (cpu st)) b →
  blocks_ok (install_block m b st).1 ∧ drop (install_block m b st).2 (trans_cache_buf (install_block m b st).1) = b ++ [].
Proof.
  intros [Ht Hc] Hb. unfold install_block. cbn [fst snd]. set (top := trans_cache_buf_top st) in *. set (buf := trans_cache_buf st) in *.
  assert (length (take top buf) = top) as Hl by (rewrite length_take; lia).
  assert (drop top (take top buf ++ b) = b) as Hd.
  { rewrite drop_app_ge by lia. by rewrite Hl, Nat.sub_diag, drop_0. }
  rewrite app_nil_r. split; [|exact Hd]. split; cbn.
  - rewrite length_app, Hl. lia.
  - intros pc ptr Hp. apply lookup_insert_Some in Hp as [[<- <-]|[_ Hp]].
    + exists b, []. rewrite app_nil_r. split; [exact Hd|]. split; [lia|done].
    + destruct (Hc pc ptr Hp) as (b' & sfx & Hd' & Hle & Hb'). exists b', (take (top - ptr - length b') sfx ++ b).
      split; [|split; [lia|done]]. rewrite drop_app_le by lia.
      rewrite skipn_firstn_comm. rewrite Hd', take_app_ge by lia. by rewrite <- app_assoc.
Qed.

Lemma locate_ok (st : core M) pos :
  let s := align_pc (cpu st) in
  arm_typed (cpu st) → blocks_ok st → pos_ok st pos → NirqSig s ≠ 0 → mode_of (reg 15 s) = TFlag s → kept (memory st) = true →
  is_Some (straight page_fuel (TFlag s) (reg 15 s)) →
  ∃ st1 p, locate st pos = Done (Some (st1, p)) ∧ cpu st1 = s ∧ memory st1 = memory st ∧ ticks st1 = ticks st ∧
    blocks_ok st1 ∧ pos_ok st1 (Some p).
Proof.
  cbv zeta. intros Hty Hc Hp Hirq Hm Hk [b0 Hb0]. destruct pos as [p|].
  { destruct Hp as [Ha Hp]. exists st, p. cbn [locate]. rewrite (align_fixed _ Ha). by repeat split; try apply Hc. }
  cbn [locate]. unfold dispatch. rewrite (proj2 (Z.eqb_neq _ _) Hirq : (NirqSig (cpu st) =? 0) = false). cbn [andb]. cbv zeta.
  pose proof (align_aligned (cpu st) Hty) as Ha. set (st0 := set_cpu (align_pc (cpu st)) st).
  assert (∃ s0, s0 = align_pc (cpu st)) as [s0 Es0] by eauto. assert (cpu st0 = s0) as E0 by done. assert (TFlag (cpu st) = TFlag s0) as Et by (by rewrite Es0).
  rewrite Et, <- Es0, <- E0 in *. clear Es0 Et. assert (blocks_ok st0) as Hc0 by exact Hc. clear E0 s0.
  destruct (instruction_cache st0 !! reg 15 (cpu st0)) as [ptr|] eqn:Ep.
  { exists st0, ptr. split; [done|]. do 4 (split; [done|]). split; [exact Ha|]. destruct (proj2 Hc0 _ _ Ep) as (b & sfx & Hd & _ & Hb).
    exists b, sfx. split; [done|]. by rewrite <- Hm. }
  assert (∀ b, block_of (TFlag (cpu st0)) (reg 15 (cpu st0)) b →
    ∃ st1 p, Done (Some (install_block (memory st) b st0)) = Done (Some (st1, p)) ∧ cpu st1 = cpu st0 ∧ memory st1 = memory st ∧ ticks st1 = ticks st ∧
      blocks_ok st1 ∧ pos_ok st1 (Some p)) as Hadd.
  { intros b Hb. rewrite <- Hm in Hb. destruct (cache_add (memory st) b st0 Hc0 Hb) as [H1 H2]. rewrite Hm in Hb.
    exists (install_block (memory st) b st0).1, (install_block (memory st) b st0).2. split; [done|]. do 3 (split; [done|]). split; [exact H1|].
    split; [exact Ha|]. by exists b, []. }
  destruct (negb _).
  - unfold InterpreterTranslateBlock. change (memory st0) with (memory st). rewrite (translate_straight _ _ _ _ _ Hk Hb0). cbn [obind].
    apply Hadd. by eapply straight_block.
  - unfold InterpreterTranslateSingle. change (memory st0) with (memory st). 
    destruct (straight_first _ _ _ _ Hb0) as (i & n & Ed). rewrite (translate_decode _ _ _ _ _ Hk Ed). cbn [lift obind]. cbv zeta. apply Hadd.
    exists i, n. split; [done|]. destruct (decide (ai_br i = NON_BRANCH)); [by split|]. by split.
Qed.

(** One instruction from a block is what the reference decodes there; the rest of the block is the next place. *)
Lemma at_place p (st : core M) :
  pos_ok st (Some p) → ∃ i i0 n b sfx, trans_cache_buf st !! p = Some i ∧ decode_at (TFlag (cpu st)) (reg 15 (cpu st)) = Some (i0, n) ∧ same_inst i i0 ∧
    drop (S p) (trans_cache_buf st) = b ++ sfx ∧
    (ai_br i = NON_BRANCH → ai_br i0 = NON_BRANCH ∧ block_of (TFlag (cpu st)) (u32 (reg 15 (cpu st) + n)) b).
Proof.
  intros (_ & b & sfx & Hd & Hb). destruct b as [|i b]; [done|]. destruct Hb as (i0 & n & Ed & Hs & Hn).
  exists i, i0, n, b, sfx. split; [|split; [done|split; [done|split; [|done]]]].
  - rewrite <- (Nat.add_0_r p), <- lookup_drop, Hd. done.
  - rewrite <- Nat.add_1_r, <- drop_drop, Hd. done.
Qed.
Lemma after_ok (st : core M) x :
  blocks_ok st → blocks_ok (after st x) ∧ trans_cache_buf (after st x) = trans_cache_buf st ∧ cpu (after st x) = x_cpu x ∧
    memory (after st x) = x_memory x ∧ ticks (after st x) = ticks st + x_ticks x.
Proof. intros Hc. unfold after. destruct (x_cleared x); repeat split; try apply Hc; cbn; (lia || done). Qed.

Context `{!CpuBusWords M, !SupervisorTyped M}.

Lemma loop_ref fuel N (st : core M) pos num s' m' k' ret :
  typed N (cpu st) → 0 <= num <= N → N < 2 ^ 32 → blocks_ok st → pos_ok st pos →
  ref_loop fuel (cpu st) (memory st) (ticks st) num = Done (s', m', k', ret) →
  ∃ st', loop fuel st pos num = Done (st', ret) ∧ cpu st' = s' ∧ memory st' = m' ∧ ticks st' = k' ∧ blocks_ok st'.
Proof.
  revert N st pos num. induction fuel as [|fuel IH]; intros N st pos num Hty Hn HN Hc Hp E; [done|]. cbn [ref_loop loop] in *.
  destruct (NirqSig _ =? 0) eqn:Hirq; [done|]. destruct (mode_of _ =? _) eqn:Hm; [|done]. apply Z.eqb_neq in Hirq. apply Z.eqb_eq in Hm.
  destruct (kept (memory st)) eqn:Hk; [|done]. cbn [negb orb] in E.
  destruct (bool_decide _) eqn:Hst; [|done]. apply bool_decide_eq_true in Hst. cbn [negb] in E.
  destruct (locate_ok st pos (proj1 Hty) Hc Hp Hirq Hm Hk Hst) as (st1 & p & -> & Ecpu & Em & Et & Hc1 & Hp1). cbn [obind].
  pose proof (align_typed N _ Hty) as Hty1. rewrite <- Ecpu, <- Em, <- Et in *. clear Hst Hirq Hm.
  destruct (NumInstrsToExecute (cpu st1) <=? num) eqn:Hle.
  { injection E as <- <- <- <-. exists (set_cpu (end_loop (cpu st1)) st1). repeat split; try apply Hc1. }
  apply Z.leb_gt in Hle. rewrite (proj2 Hty1) in Hle.
  destruct (at_place p st1 Hp1) as (i & i0 & n & b & sfx & Hi & Ed & Hs & Hd & Hb). rewrite Hi. cbn [lift obind]. rewrite Ed in E. cbn [lift obind] in E.
  rewrite (exec_same _ _ _ _ _ Hs). destruct (exec i0 (u32 (num + 1)) (cpu st1) (memory st1)) as [x|] eqn:Ex; [|done]. cbn [lift obind] in *.
  destruct (after_ok st1 x Hc1) as (Ha & Eb & Ec & Em' & Et').
  rewrite (u32_id (num + 1)) in Ex by lia. apply (exec_budget N) in Ex; [|done|lia].
  assert (∀ pos', pos_ok (after st1 x) pos' →
    (∃ N', typed N' (x_cpu x) ∧ 0 <= x_num x <= N' ∧ 0 <= x_ticks x ∧ x_ticks x + N' <= N ∧ N' - x_num x <= N - (num + 1)) →
    ref_loop fuel (x_cpu x) (x_memory x) (ticks st1 + x_ticks x) (x_num x) = Done (s', m', k', ret) →
    ∃ st', loop fuel (after st1 x) pos' (x_num x) = Done (st', ret) ∧ cpu st' = s' ∧ memory st' = m' ∧ ticks st' = k' ∧ blocks_ok st') as Hgo.
  { intros pos' Hpos (N' & Ht & Hx & Hk' & Hb' & Hm') E'. rewrite <- Ec, <- Em', <- Et' in E'. eapply (IH N'); try done; [by rewrite Ec|lia..]. }
  destruct (x_next x) eqn:En.
  - destruct (decide (ai_br i = NON_BRANCH)) as [Ei|Ei].
    + destruct (Hb Ei) as [Ei0 Hblk]. rewrite bool_decide_eq_true_2 in E by done. cbn [andb] in E.
      destruct (reg 15 (x_cpu x) =? _) eqn:Epc; [|done]. destruct (TFlag (x_cpu x) =? _) eqn:ET; [|done]. apply Z.eqb_eq in Epc, ET.
      cbn [andb negb] in E. apply Hgo; [|done|done]. split.
      * rewrite Ec, Epc, ET. assert (n = inst_size (TFlag (cpu st1))) as -> by (unfold decode_at in Ed; destruct (region _); [by eapply decode_word_size|done]).
        apply next_aligned. apply Hp1.
      * exists b, sfx. rewrite Eb, Ec, Epc, ET. by split.
    + destruct (bool_decide _ && _); [done|]. by apply Hgo.
  - by apply Hgo.
  - injection E as <- <- <- <-. exists (after st1 x). by rewrite Ec, Em', Et'.
Qed.
End Transparent.

(** A slice of the reference interpreter. *)
Definition ref_slice `{CpuBus M, !Supervisor M} code region (kept : M → bool) mode_of fuel n s (m : M) k : outcome (ARMul_State * M * Z) :=
  obind (ref_loop code region kept mode_of fuel (LOAD_NZCVT (set_NumInstrsToExecute n s)) m k 0) (λ '(s, m, k, ret), Done (s, m, k + ret)).

(** A cache that was cleared holds nothing that is wrong. *)
Lemma cleared_ok `{CpuBus M} code region mode_of (st : core M) : blocks_ok code region mode_of (ClearInstructionCache st).
Proof. split; cbn; [lia|]. intros pc ptr Hp. by rewrite lookup_empty in Hp. Qed.


(** ** Switching threads *)

Lemma save_bits s k :
  arm_typed s → 0 <= k → Z.testbit (Cpsr (SAVE_NZCVT s)) k =
    (Z.testbit (Cpsr s) k && Z.testbit 0x0fffffdf k) || ((k =? 31) && (NFlag s =? 1)) || ((k =? 30) && (ZFlag s =? 1)) ||
    ((k =? 29) && (CFlag s =? 1)) || ((k =? 28) && (VFlag s =? 1)) || ((k =? 5) && (TFlag s =? 1)).
Proof.
  intros [] Hk. unfold SAVE_NZCVT. cbn [Cpsr set_Cpsr]. rewrite !Z.lor_spec, Z.land_spec.
  assert (∀ x n, is_bit x → 0 <= n <= 31 → Z.testbit (u32 (Z.shiftl x n)) k = (k =? n) && (x =? 1)) as H.
  { intros x n Hx Hn. unfold is_bit in Hx. assert (x = 0 ∨ x = 1) as [->| ->] by lia.
    - rewrite Z.shiftl_0_l, andb_false_r. apply Z.testbit_0_l.
    - rewrite u32_id by (apply word_pow; done). rewrite Z.shiftl_1_l, Z.pow2_bits_eqb by lia. rewrite andb_true_r. apply Z.eqb_sym. }
  by rewrite !H by (done || lia).
Qed.
Lemma shiftr_top x : word x → Z.shiftr x 31 = Z.land (Z.shiftr x 31) 1.
Proof.
  intros Hx. pose proof (bit_shiftr x Hx) as Hb. unfold is_bit in Hb. assert (Z.shiftr x 31 = 0 ∨ Z.shiftr x 31 = 1) as [->| ->] by lia; done.
Qed.

(** C25: A thread that is switched out and in again resumes where it was: the loop has put the flags into the status register when it
    ended, and takes them from there when it starts, whatever the processor did in between. *)
Theorem context_switch_resumes s t :
  arm_typed s → (2 < length (VFP t))%nat →
  let u := LOAD_NZCVT (LoadContext (SaveContext (SAVE_NZCVT s)) t) in
  Reg u = Reg s ∧ ExtReg u = ExtReg s ∧ VFP u !!! VFP_FPSCR = VFP s !!! VFP_FPSCR ∧ VFP u !!! VFP_FPEXC = VFP s !!! VFP_FPEXC ∧
  NFlag u = NFlag s ∧ ZFlag u = ZFlag s ∧ CFlag u = CFlag s ∧ VFlag u = VFlag s ∧ TFlag u = TFlag s ∧
  (∀ k, 0 <= k → Z.testbit 0x0fffffdf k = true → Z.testbit (Cpsr u) k = Z.testbit (Cpsr s) k).
Proof.
  intros Hs Hl u. assert (Cpsr u = Cpsr (SAVE_NZCVT s)) as Ec by done.
  assert (word (Cpsr u)) as Hw by (rewrite Ec; by eapply word_Cpsr, typed_SAVE_NZCVT).
  assert (∀ k, 0 <= k → Z.land (Z.shiftr (Cpsr u) k) 1 = Z.b2z (Z.testbit (Cpsr (SAVE_NZCVT s)) k)) as Hbit.
  { intros k Hk. rewrite Ec. by rewrite <- BIT_b2z. }
  pose proof Hs as []. unfold is_bit in *.
  assert (∀ x, 0 <= x <= 1 → Z.b2z (x =? 1) = x) as Hb by (intros x Hx; assert (x = 0 ∨ x = 1) as [->| ->] by lia; done).
  split; [done|]. split; [done|]. split.
  { unfold u, LoadContext. cbn. rewrite list_lookup_total_insert_ne by done. rewrite list_lookup_total_insert_eq by (cbn; unfold VFP_FPSCR; lia). done. }
  split.
  { unfold u, LoadContext. cbn. rewrite list_lookup_total_insert_eq by (rewrite length_insert; unfold VFP_FPEXC; cbn; lia). done. }
  split; [change (NFlag u) with (Z.shiftr (Cpsr u) 31); rewrite shiftr_top by done|].
  { rewrite Hbit, save_bits by (done || lia). rewrite andb_false_r, !orb_false_r, !andb_true_l. by apply Hb. }
  split; [change (ZFlag u) with (Z.land (Z.shiftr (Cpsr u) 30) 1); rewrite Hbit, save_bits by (done || lia); rewrite andb_false_r; cbn; rewrite ?orb_false_r; by apply Hb|].
  split; [change (CFlag u) with (Z.land (Z.shiftr (Cpsr u) 29) 1); rewrite Hbit, save_bits by (done || lia); rewrite andb_false_r; cbn; rewrite ?orb_false_r; by apply Hb|].
  split; [change (VFlag u) with (Z.land (Z.shiftr (Cpsr u) 28) 1); rewrite Hbit, save_bits by (done || lia); rewrite andb_false_r; cbn; rewrite ?orb_false_r; by apply Hb|].
  split; [change (TFlag u) with (Z.land (Z.shiftr (Cpsr u) 5) 1); rewrite Hbit, save_bits by (done || lia); rewrite andb_false_r; cbn; rewrite ?orb_false_r; by apply Hb|].
  intros k Hk Hm. rewrite Ec, save_bits, Hm, andb_true_r by done.
  assert (∀ n, Z.testbit 0x0fffffdf n = false → (k =? n) = false) as Hn by (intros n Hf; apply Z.eqb_neq; congruence).
  by rewrite !Hn, !andb_false_l, !orb_false_r by done.
Qed.

(** ** Examples *)

Module Examples.
Import ArmState.Examples ArmTyped.Examples.

(** A kernel that does nothing. *)
#[export] Instance idle_kernel : Supervisor (Z → Z) := { CallSVC _ s m := Some (s, m, false); exec_vfp _ _ _ _ _ := None }.
#[export] Instance idle_kernel_typed : SupervisorTyped (Z → Z).
Proof.
  split.
  - intros N k s m s' m' c Hs HN [= <- _ _]. exists N. split; [lia|done].
  - intros N l cond inst s m Hs s' m' n [=].
Defined.

(** [MOV r0, #0; loop: ADD r0, r0, #1; STR r0, [r2]; B loop], with [r2] above the first page. *)
Definition program : list Z := [0xE3A00000; 0xE2800001; 0xE5820000; 0xEAFFFFFC].
Definition rom_word (a : Z) : Z := default 0 (program !! Z.to_nat (a / 4)).
Definition in_rom (a : Z) : bool := existsb (Z.eqb a) [0; 4; 8; 12].
Definition rom_kept (m : Z → Z) : bool := forallb (λ a, le_value ((λ i, m (u32 (a + i)) `mod` 2 ^ 8) <$> seqZ 0 4) =? rom_word a) [0; 4; 8; 12].
Definition rom : Z → Z := λ a, nth (Z.to_nat a) (mjoin (le_bytes 4 <$> program)) 0.
Definition boot : core (Z → Z) := mkCore (put_reg 2 0x2000 (put_reg 15 0 user)) rom ∅ [] 0 0.

Lemma start_typed : arm_typed (cpu boot).
Proof. apply (typed_put_reg (NumInstrsToExecute user)); [unfold word; lia|]. apply typed_put_reg; [unfold word; lia|]. split; [exact user_typed|done]. Qed.


(** Ten instructions: the counter is 3, also in memory. *)
Lemma counts : match ref_slice rom_word in_rom rom_kept (λ _, 0) 11 10 (cpu boot) (memory boot) (ticks boot) with
               | Done (s, m, k) => (reg 0 s =? 3) && (m 0x2000 =? 3) && (k =? 10) | _ => false end = true.
Proof. vm_compute. reflexivity. Qed.

Lemma context_switch_resumes_witness :
  let s := set_TFlag 1 (set_CFlag 1 user) in
  let u := LOAD_NZCVT (LoadContext (SaveContext (SAVE_NZCVT s)) user) in
  Reg u = Reg s ∧ CFlag u = 1 ∧ TFlag u = 1.
Proof.
  cbv zeta. set (s := set_TFlag 1 (set_CFlag 1 user)).
  destruct (context_switch_resumes s user) as (H1 & _ & _ & _ & _ & _ & H2 & _ & H3 & _); [|vm_compute; lia|by split].
  apply (typed_TFlag (NumInstrsToExecute user)); [unfold is_bit; lia|]. apply typed_CFlag; [unfold is_bit; lia|]. split; [exact user_typed|done].
Defined.

End Examples.
