(* ===== verification/ArmSpec.v ===== *)
(** * What the instructions compute

    The routines of [ArmExec] against the manual of the architecture: the data-processing instructions are
    one table of results, carries and overflows over exact integers; after a comparison the conditions are
    the orders of signed and unsigned numbers; the long multiplications are products of integers; a branch goes
    where its offset says; a store-exclusive succeeds for the processor whose monitor still has the address;
    and what is pushed is popped. *)

From stdpp Require Import base list.
From S2P Require Import Prelude ArmSupp Memory ArmState ArmOperands ArmExec ArmTyped.

Lemma typed_values s : arm_typed s → arm_values s.
Proof. intros []. unfold words, is_bit in *. destruct ty_reg. by split. Qed.

(** ** Data processing *)

(** Result, carry and overflow of an exact sum. *)
Definition exact (unsigned signed : Z) : Z * Z * Z :=
  (unsigned `mod` 2 ^ 32, Z.b2z (2 ^ 32 <=? unsigned), Z.b2z (negb (in_range (- 2 ^ 31) (2 ^ 31) signed))).
Definition sum (a b c : Z) : Z * Z * Z := exact (a + b + c) (s32 a + s32 b + c).
(** A difference has a carry when there is no borrow. *)
Definition difference (a b c : Z) : Z * Z * Z := exact (2 ^ 32 + a - b - (1 - c)) (s32 a - s32 b - (1 - c)).

(** The table of the manual: result, carry and overflow from the first operand, the second one, the carry of the shifter
    and the flags. *)
Definition alu (l : label) (a b sc c v : Z) : option (Z * Z * Z) :=
  match l with
  | L_AND | L_TST => Some (Z.land a b, sc, v)
  | L_EOR | L_TEQ => Some (Z.lxor a b, sc, v)
  | L_ORR => Some (Z.lor a b, sc, v)
  | L_BIC => Some (Z.land a (2 ^ 32 - 1 - b), sc, v)
  | L_MOV => Some (b, sc, v)
  | L_MVN => Some (2 ^ 32 - 1 - b, sc, v)
  | L_ADD | L_CMN => Some (sum a b 0)
  | L_ADC => Some (sum a b c)
  | L_SUB | L_CMP => Some (difference a b 1)
  | L_SBC => Some (difference a b c)
  | L_RSB => Some (difference b a 1)
  | L_RSC => Some (difference b a c)
  | _ => None
  end.
Definition is_compare (l : label) : bool := match l with L_TST | L_TEQ | L_CMN | L_CMP => true | _ => false end.
Definition set_nzcv (result carry overflow : Z) (s : ARMul_State) : ARMul_State :=
  set_VFlag overflow (set_CFlag carry (set_ZFlag (Z.b2z (result =? 0)) (set_NFlag (result / 2 ^ 31) s))).

Lemma not32_value b : word b → not32 b = 2 ^ 32 - 1 - b.
Proof.
  unfold word, not32, u32. intros Hb. replace (Z.lnot b) with (- b - 1) by (unfold Z.lnot; lia).
  rewrite <- (Z_mod_plus_full _ 1), Z.mod_small; lia.
Qed.
Lemma s32_cases x : word x → s32 x = if x <? 2 ^ 31 then x else x - 2 ^ 32.
Proof. intros Hx. unfold s32. by rewrite swrap_cases by (done || lia). Qed.

Lemma sum_spec a b c : word a → word b → is_bit c →
  AddWithCarry a b c = let '(r, cy, v) := sum a b c in (r, cy =? 1, v =? 1).
Proof.
  intros Ha Hb Hc. destruct (add_with_carry_spec a b c Ha Hb Hc) as (r & cy & v & -> & Hr & Hs & _ & Hv & _).
  unfold sum, exact. unfold word, is_bit in *. assert (r = (a + b + c) `mod` 2 ^ 32) as ->.
  { apply (Z.mod_unique _ _ (Z.b2z cy)); lia. }
  f_equal; [f_equal|].
  - pose proof (Z.mod_pos_bound (a + b + c) (2 ^ 32) ltac:(lia)). destruct cy, (Z.leb_spec (2 ^ 32) (a + b + c)); cbn in *; lia || done.
  - destruct v, (in_range (- 2 ^ 31) (2 ^ 31) (s32 a + s32 b + c)) eqn:Er; cbn; try done; exfalso.
    + apply in_range_iff in Er. by apply Hv in Er.
    + apply in_range_false in Er. by apply Er, Hv.
Qed.
Lemma difference_spec a b c : word a → word b → is_bit c →
  AddWithCarry a (not32 b) c = let '(r, cy, v) := difference a b c in (r, cy =? 1, v =? 1).
Proof.
  intros Ha Hb Hc. pose proof (word_not32 b) as Hn. rewrite (sum_spec a (not32 b) c Ha Hn Hc). unfold sum, difference.
  assert (s32 a + s32 (not32 b) + c = s32 a - s32 b - (1 - c)) as ->.
  { rewrite (s32_cases (not32 b)), (s32_cases b) by done. rewrite !not32_value by done. unfold word in Hb.
    destruct (Z.ltb_spec (2 ^ 32 - 1 - b) (2 ^ 31)), (Z.ltb_spec b (2 ^ 31)); lia. }
  rewrite not32_value by done. by replace (a + (2 ^ 32 - 1 - b) + c) with (2 ^ 32 + a - b - (1 - c)) by lia.
Qed.

Lemma sum_comm_carry a b c : AddWithCarry a b c = AddWithCarry b a c.
Proof. unfold AddWithCarry. by rewrite (Z.add_comm a b), (Z.add_comm (s32 a) (s32 b)). Qed.

(** *** The frame *)

Lemma set_flags_same s : set_VFlag (VFlag s) s = s.
Proof. by destruct s. Qed.
Lemma reg_put_eq n v s : 0 <= n < 16 → words 16 (Reg s) → reg n (put_reg n v s) = v.
Proof. intros Hn [Hl _]. unfold reg, put_reg. cbn. apply list_lookup_total_insert_eq. cbn. lia. Qed.
Lemma reg_put_ne n k v s : 0 <= n → 0 <= k → n ≠ k → reg n (put_reg k v s) = reg n s.
Proof. intros Hn Hk Hne. unfold reg, put_reg. cbn. apply list_lookup_total_insert_ne. lia. Qed.
Lemma update_flags r c v s : word r → set_VFlag v (set_CFlag c (result_nz r s)) = set_nzcv r c v s.
Proof.
  intros Hr. unfold set_nzcv, result_nz, UPDATE_ZFLAG, UPDATE_NFLAG. do 3 f_equal.
  - unfold truth. by destruct (r =? 0).
  - f_equal. rewrite BIT_div by lia. assert (0 <= r / 2 ^ 31 < 2) as Hd.
    { unfold word in Hr. split; [apply Z.div_pos; lia|apply Z.div_lt_upper_bound; lia]. }
    assert (r / 2 ^ 31 = 0 ∨ r / 2 ^ 31 = 1) as [->| ->] by lia; done.
Qed.

Lemma f_range inst : word inst → 0 <= f_Rn inst < 16 ∧ 0 <= f_Rd inst < 16.
Proof. intros Hi. pose proof (BITS_range inst 16 19). pose proof (BITS_range inst 12 15). unfold f_Rn, f_Rd. lia. Qed.
Lemma b2z_eqb x : is_bit x → Z.b2z (x =? 1) = x.
Proof. unfold is_bit. intros Hx. assert (x = 0 ∨ x = 1) as [->| ->] by lia; done. Qed.
Lemma truth_eqb x : is_bit x → truth x = (x =? 1).
Proof. unfold is_bit. intros Hx. assert (x = 0 ∨ x = 1) as [->| ->] by lia; done. Qed.

Section DataProcessing.
Context (inst : Z) (s : ARMul_State) (value amount op2 sc : Z) (type : SRType).
Context (Hi : word inst) (Hs : arm_typed s) (Ho : operand2 s inst = Some (value, type, amount)) (Hsh : Shift_C value type amount (CFlag s) = (op2, sc)).

Lemma operand_value : SHIFTER_OPERAND inst s = Some (op2, set_shifter_carry_out sc s) ∧ word op2.
Proof.
  pose proof (shifter_operand_correct s inst Hi (typed_values s Hs)) as H. rewrite Ho in H. destruct H as (f & Hf & Hc).
  unfold computes in Hc. rewrite Hsh in Hc. unfold SHIFTER_OPERAND. rewrite Hf. cbn [mbind option_bind]. rewrite Hc. split; [done|].
  pose proof (valued_shifter _ inst f s (BITS inst 0 11) (conj Hs eq_refl) Hf) as [Hw _]. by rewrite Hc in Hw.
Qed.

(** The state that the manual asks for. *)
Definition written (compare : bool) (r cy v : Z) : ARMul_State :=
  let s := set_shifter_carry_out sc s in
  let s := if compare then s else put_reg (f_Rd inst) r s in
  if compare || (f_S inst =? 1) then set_nzcv r cy v s else s.

Context (Hn : f_Rn inst ≠ 15).
Lemma ahead : RN_ahead inst s = reg (f_Rn inst) s.
Proof. unfold RN_ahead. by rewrite (proj2 (Z.eqb_neq _ _) Hn). Qed.

Lemma compare_written f r cy v :
  f (reg (f_Rn inst) s) op2 = (r, cy =? 1, v =? 1) → is_bit cy → is_bit v → word r → compare inst f s = Some (written true r cy v, false).
Proof.
  intros Hf Hcy Hv Hr. unfold compare. rewrite (proj1 operand_value), ahead. cbn [mbind option_bind]. cbv zeta. rewrite Hf.
  rewrite !b2z_eqb, update_flags by done. done.
Qed.
Lemma test_written f r : f (reg (f_Rn inst) s) op2 = r → word r → test inst f s = Some (written true r sc (VFlag s), false).
Proof.
  intros Hf Hr. unfold test. rewrite (proj1 operand_value), ahead. cbn [mbind option_bind]. rewrite Hf. unfold written. cbn [orb].
  rewrite <- update_flags by done. f_equal.
Qed.

Context (Hd : f_Rd inst ≠ 15).
Lemma arith_written rn f r cy v :
  f rn op2 = (r, cy =? 1, v =? 1) → is_bit cy → is_bit v → word r → arith inst rn f s = Some (written false r cy v, false).
Proof.
  intros Hf Hcy Hv Hr. unfold arith. rewrite (proj1 operand_value). cbn [mbind option_bind]. rewrite Hf. unfold arith_flags, written. cbv zeta.
  rewrite (proj2 (Z.eqb_neq _ _) Hd), andb_false_r. cbn [orb]. rewrite truth_eqb by apply bit_BIT. unfold update_nz.
  destruct (f_S inst =? 1); [|done]. rewrite reg_put_eq by (apply f_range || apply (ty_reg _ Hs); done). rewrite !b2z_eqb by done.
  fold (result_nz r (put_reg (f_Rd inst) r (set_shifter_carry_out sc s))). by rewrite update_flags.
Qed.
Lemma logical_written f r : f (reg (f_Rn inst) s) op2 = r → word r → logical inst f s = Some (written false r sc (VFlag s), false).
Proof.
  intros Hf Hr. unfold logical. rewrite (proj1 operand_value), ahead. cbn [mbind option_bind]. cbv zeta. rewrite Hf. unfold logical_flags, written. cbv zeta.
  rewrite (proj2 (Z.eqb_neq _ _) Hd), andb_false_r. cbn [orb]. rewrite truth_eqb by apply bit_BIT. unfold update_nz.
  destruct (f_S inst =? 1); [|done]. rewrite reg_put_eq by (apply f_range || apply (ty_reg _ Hs); done).
  fold (result_nz r (put_reg (f_Rd inst) r (set_shifter_carry_out sc s))). rewrite <- update_flags by done. f_equal.
Qed.
End DataProcessing.

Lemma exact_parts u z r cy v : exact u z = (r, cy, v) → word r ∧ is_bit cy ∧ is_bit v.
Proof. intros [= <- <- <-]. split; [apply Z.mod_pos_bound; lia|]. split; apply bit_b2z. Qed.

Definition routine_of (l : label) : option (Z → ARMul_State → option (ARMul_State * bool)) :=
  match l with
  | L_ADC => Some ADC_INST | L_ADD => Some ADD_INST | L_AND => Some AND_INST | L_BIC => Some BIC_INST | L_CMN => Some CMN_INST
  | L_CMP => Some CMP_INST | L_EOR => Some EOR_INST | L_MOV => Some MOV_INST | L_MVN => Some MVN_INST | L_ORR => Some ORR_INST
  | L_RSB => Some RSB_INST | L_RSC => Some RSC_INST | L_SBC => Some SBC_INST | L_SUB => Some SUB_INST | L_TEQ => Some TEQ_INST
  | L_TST => Some TST_INST | _ => None
  end.

Definition is_logical (l : label) : bool :=
  match l with L_AND | L_TST | L_EOR | L_TEQ | L_ORR | L_BIC | L_MOV | L_MVN => true | _ => false end.

Section Routines.
Context (inst : Z) (s : ARMul_State) (value amount op2 sc : Z) (type : SRType).
Context (Hi : word inst) (Hs : arm_typed s) (Ho : operand2 s inst = Some (value, type, amount)) (Hsh : Shift_C value type amount (CFlag s) = (op2, sc)).
Context (Hn : f_Rn inst ≠ 15) (Hd : f_Rd inst ≠ 15).

Lemma word_first : word (reg (f_Rn inst) s).
Proof. by eapply word_reg; split. Qed.
Lemma word_second : word op2.
Proof. exact (proj2 (operand_value _ _ _ _ _ _ _ Hi Hs Ho Hsh)). Qed.

Lemma logical_correct l f r cy v :
  is_logical l = true → routine_of l = Some f → alu l (reg (f_Rn inst) s) op2 sc (CFlag s) (VFlag s) = Some (r, cy, v) →
  f inst s = Some (written inst s sc (is_compare l) r cy v, false).
Proof.
  pose proof word_first as Ha. pose proof word_second as Hb. intros Hl Hf H.
  destruct l; try done; injection Hf as <-; injection H as <- <- <-; cbn [is_compare];
    (apply (test_written _ _ _ _ _ _ _ Hi Hs Ho Hsh Hn) || apply (logical_written _ _ _ _ _ _ _ Hi Hs Ho Hsh Hn Hd)); try done;
    rewrite <- ?not32_value by done; try done.
  all: try (by apply word_land_l). all: try (by apply word_lor). all: try (by apply word_lxor). all: apply word_not32.
Qed.

Lemma arith_correct l f r cy v :
  is_logical l = false → routine_of l = Some f → alu l (reg (f_Rn inst) s) op2 sc (CFlag s) (VFlag s) = Some (r, cy, v) →
  f inst s = Some (written inst s sc (is_compare l) r cy v, false).
Proof.
  pose proof word_first as Ha. pose proof word_second as Hb. assert (is_bit (CFlag s)) as Hc by apply Hs.
  assert (is_bit 0 ∧ is_bit 1) as [H0 H1] by (unfold is_bit; lia).
  pose proof (ahead inst s Hn) as E. assert (CHECK_READ_REG15_WA s (f_Rn inst) = reg (f_Rn inst) s) as Ewa
    by (unfold CHECK_READ_REG15_WA; by rewrite (proj2 (Z.eqb_neq _ _) Hn)).
  assert (CHECK_READ_REG15 s (f_Rn inst) = reg (f_Rn inst) s) as Er by (unfold CHECK_READ_REG15; by rewrite (proj2 (Z.eqb_neq _ _) Hn)).
  intros Hl Hf H. destruct l; try done; injection Hf as <-; cbn [alu is_compare] in *; apply (inj Some) in H;
    pose proof (exact_parts _ _ _ _ _ H) as (Hr & Hcy & Hv);
    unfold ADC_INST, ADD_INST, RSB_INST, RSC_INST, SBC_INST, SUB_INST; cbv zeta; rewrite ?E, ?Ewa, ?Er; try destruct (truth (f_I inst));
    (apply (compare_written _ _ _ _ _ _ _ Hi Hs Ho Hsh Hn) || apply (arith_written _ _ _ _ _ _ _ Hi Hs Ho Hsh Hd)); try done; cbv beta.
  all: first [rewrite difference_spec by done; by rewrite H|rewrite sum_spec by done; by rewrite H|idtac].
  all: rewrite sum_comm_carry, difference_spec by done; by rewrite H.
Qed.
End Routines.

Section Instructions.
Context `{CpuBus M}.

End Instructions.

(** ** Comparisons *)

(** The order that a condition names. *)
Definition compares (cond a b : Z) : option bool :=
  if cond =? 0 then Some (a =? b) else if cond =? 1 then Some (negb (a =? b))
  else if cond =? 2 then Some (b <=? a) else if cond =? 3 then Some (a <? b)
  else if cond =? 8 then Some (b <? a) else if cond =? 9 then Some (a <=? b)
  else if cond =? 10 then Some (s32 b <=? s32 a) else if cond =? 11 then Some (s32 a <? s32 b)
  else if cond =? 12 then Some (s32 b <? s32 a) else if cond =? 13 then Some (s32 a <=? s32 b)
  else None.

(** The flags of a difference. *)
Lemma difference_flags a b r cy v : word a → word b → difference a b 1 = (r, cy, v) →
  (r =? 0) = (a =? b) ∧ truth cy = (b <=? a) ∧ Bool.eqb (truth (r / 2 ^ 31)) (truth v) = (s32 b <=? s32 a).
Proof.
  unfold difference, exact. rewrite Z.sub_diag, !Z.sub_0_r. intros Ha Hb [= <- <- <-].
  assert ((2 ^ 32 + a - b) `mod` 2 ^ 32 = if b <=? a then a - b else 2 ^ 32 + a - b) as ->.
  { unfold word in *. destruct (Z.leb_spec b a).
    - rewrite <- (Z_mod_plus_full _ (-1)), Z.mod_small; lia.
    - rewrite Z.mod_small; lia. }
  rewrite (s32_cases a), (s32_cases b) by done. unfold word in *.
  assert (∀ b0 : bool, truth (Z.b2z b0) = b0) as Ht by (by intros []). rewrite !Ht. split_and!.
  - destruct (Z.leb_spec b a), (Z.eqb_spec a b); lia.
  - destruct (Z.leb_spec (2 ^ 32) (2 ^ 32 + a - b)), (Z.leb_spec b a); lia.
  - assert (∀ x, 0 <= x < 2 ^ 32 → truth (x / 2 ^ 31) = (2 ^ 31 <=? x)) as Hq.
    { intros x Hx. destruct (Z.leb_spec (2 ^ 31) x).
      - assert (x / 2 ^ 31 = 1) as -> by (symmetry; apply (Z.div_unique _ _ _ (x - 2 ^ 31)); lia). done.
      - rewrite Z.div_small by lia. done. }
    unfold in_range. destruct (Z.leb_spec b a), (Z.ltb_spec a (2 ^ 31)), (Z.ltb_spec b (2 ^ 31)); rewrite Hq by lia;
      repeat match goal with |- context [?x <=? ?y] => destruct (Z.leb_spec x y) | |- context [?x <? ?y] => destruct (Z.ltb_spec x y) end; cbn; lia || done.
Qed.

Lemma flags_decide s k a b r cy v : word a → word b → difference a b 1 = (r, cy, v) →
  NFlag s = r / 2 ^ 31 → ZFlag s = Z.b2z (r =? 0) → CFlag s = cy → VFlag s = v →
  ∀ o, compares k a b = Some o → CondPassed s k = o.
Proof.
  intros Ha Hb E HN HZ HC HV o. destruct (difference_flags a b r cy v Ha Hb E) as (H1 & H2 & H3).
  assert (s32 a = s32 b ↔ a = b) as H4.
  { rewrite (s32_cases a), (s32_cases b) by done. unfold word in *. destruct (Z.ltb_spec a (2 ^ 31)), (Z.ltb_spec b (2 ^ 31)); lia. }
  unfold compares, CondPassed. rewrite HN, HZ, HC, HV, H1, H2, H3. assert (∀ c : bool, truth (Z.b2z c) = c) as -> by (by intros []).
  repeat (case_match; [intros [= <-]|]); try done; match goal with E : (k =? _) = true |- _ => apply Z.eqb_eq in E; subst k end; cbn;
    rewrite ?H2, ?H3; destruct (Z.eqb_spec a b), (Z.leb_spec b a), (Z.leb_spec (s32 b) (s32 a)); cbn; symmetry;
    repeat match goal with |- context [?x <=? ?y] => destruct (Z.leb_spec x y) | |- context [?x <? ?y] => destruct (Z.ltb_spec x y) end;
    lia || done.
Qed.

Section Conditions.
Context `{CpuBus M}.

(** C29: After a comparison of two operands the conditions are the orders that their names say: equal and not equal, the
    unsigned higher and lower, the signed greater and less, with the operands read as unsigned or as signed numbers. *)
Theorem compare_orders cond inst s (m : M) value type amount op2 sc :
  word inst → arm_typed s → operand2 s inst = Some (value, type, amount) → Shift_C value type amount (CFlag s) = (op2, sc) →
  f_Rn inst ≠ 15 → f_Rd inst ≠ 15 → passed cond s = true →
  ∃ s', exec_label L_CMP cond inst s m = Some (s', m, NEXT) ∧
    ∀ k o, compares k (reg (f_Rn inst) s) op2 = Some o → CondPassed s' k = o.
Proof.
  intros Hi Hs Ho Hsh Hn Hd Hp. destruct (difference (reg (f_Rn inst) s) op2 1) as [[r cy] v] eqn:E.
  assert (CMP_INST inst s = Some (written inst s sc true r cy v, false)) as HC
    by (eapply (arith_correct _ _ _ _ _ _ _ Hi Hs Ho Hsh Hn Hd L_CMP CMP_INST); [done|done|cbn [alu]; by rewrite E]).
  exists (next_pc (written inst s sc true r cy v)). split.
  - unfold exec_label, data_inst. rewrite Hp, HC. done.
  - intros k o. apply (flags_decide _ k _ _ r cy v); try done; [by apply word_first|by eapply word_second].
Qed.
End Conditions.

(** ** Long multiplication *)

(** The number that a long multiplication computes from its operands and the two words of the accumulator. *)
Definition long_product (l : label) (rm rs hi lo : Z) : option Z :=
  match l with
  | L_UMULL => Some (rm * rs)
  | L_SMULL => Some (s32 rm * s32 rs)
  | L_UMLAL => Some (rm * rs + (hi * 2 ^ 32 + lo))
  | L_SMLAL => Some (s32 rm * s32 rs + (hi * 2 ^ 32 + lo))
  | L_UMAAL => Some (rm * rs + lo + hi)
  | _ => None
  end.
Definition long_sets_flags (l : label) : bool := match l with L_UMAAL => false | _ => true end.
(** Its two words, and the flags of the number of 64 bits. *)
Definition long_written (flags : bool) (inst result : Z) (s : ARMul_State) : ARMul_State :=
  let s := put_reg (RdHi inst) (result / 2 ^ 32) (put_reg (RdLo inst) (result `mod` 2 ^ 32) s) in
  if flags then set_ZFlag (Z.b2z (result =? 0)) (set_NFlag (result / 2 ^ 63) s) else s.

Lemma u64_mod x : u64 x `mod` 2 ^ 64 = x `mod` 2 ^ 64.
Proof. unfold u64. apply Z.mod_mod. lia. Qed.
Lemma s64_mod x : s64 x `mod` 2 ^ 64 = x `mod` 2 ^ 64.
Proof.
  unfold s64, swrap. change (64 - 1) with 63. rewrite Zminus_mod_idemp_l. f_equal. lia.
Qed.
Lemma u64_sum_mod x y : (u64 x + y) `mod` 2 ^ 64 = (x + y) `mod` 2 ^ 64.
Proof. unfold u64. apply Zplus_mod_idemp_l. Qed.
Lemma s64_sum_mod x y : (s64 x + y) `mod` 2 ^ 64 = (x + y) `mod` 2 ^ 64.
Proof. rewrite <- Zplus_mod_idemp_l, s64_mod. apply Zplus_mod_idemp_l. Qed.

Lemma u64_accumulate x y z : u64 (u64 x + u64 (u64 y + z)) `mod` 2 ^ 64 = (x + (y + z)) `mod` 2 ^ 64.
Proof. by rewrite u64_mod, u64_sum_mod, Z.add_comm, u64_sum_mod, <- Z.add_assoc, u64_sum_mod, Z.add_assoc, Z.add_comm. Qed.
Lemma s64_accumulate x y z : s64 (s64 x + s64 (s64 y + z)) `mod` 2 ^ 64 = (x + (y + z)) `mod` 2 ^ 64.
Proof. by rewrite s64_mod, s64_sum_mod, Z.add_comm, s64_sum_mod, <- Z.add_assoc, s64_sum_mod, Z.add_assoc, Z.add_comm. Qed.

(** The words that the routines write are those of the number modulo 2^64. *)
Lemma low_word x : u32 x = (x `mod` 2 ^ 64) `mod` 2 ^ 32.
Proof. unfold u32. change (2 ^ 64) with (2 ^ 32 * 2 ^ 32). rewrite Z.rem_mul_r by lia. by rewrite (Z.mul_comm (2 ^ 32)), Z_mod_plus_full, Z.mod_mod. Qed.
Lemma high_word x : u32 (Z.shiftr x 32) = (x `mod` 2 ^ 64) / 2 ^ 32.
Proof.
  unfold u32. rewrite Z.shiftr_div_pow2 by lia. change (2 ^ 64) with (2 ^ 32 * 2 ^ 32). rewrite Z.rem_mul_r by lia.
  rewrite Z.mul_comm, Z.div_add by lia. rewrite (Z.div_small (x `mod` _)); [done|]. apply Z.mod_pos_bound. lia.
Qed.
Lemma put_reg_comm n k v w s : 0 <= n → 0 <= k → n ≠ k → put_reg n v (put_reg k w s) = put_reg k w (put_reg n v s).
Proof. intros. unfold put_reg. cbn. unfold set_Reg. cbn. f_equal. apply list_insert_insert_ne. lia. Qed.
Lemma long_range inst : word inst → 0 <= RdHi inst < 16 ∧ 0 <= RdLo inst < 16.
Proof. intros _. pose proof (BITS_range inst 16 19). pose proof (BITS_range inst 12 15). unfold RdHi, RdLo. lia. Qed.

Section Long.
Context (inst : Z) (s : ARMul_State) (Hi : word inst) (Hs : arm_typed s) (Hne : RdHi inst ≠ RdLo inst).

Lemma long_order x : write_hi_lo inst x s = write_lo_hi inst x s.
Proof. pose proof (long_range inst Hi). apply put_reg_comm; lia. Qed.
Lemma long_words x : write_lo_hi inst x s = long_written false inst (x `mod` 2 ^ 64) s.
Proof. unfold write_lo_hi, long_written. by rewrite high_word, <- low_word. Qed.
Lemma long_flagged x : long_flags inst (write_lo_hi inst x s) = long_written (f_S inst =? 1) inst (x `mod` 2 ^ 64) s.
Proof.
  pose proof (long_range inst Hi) as [Hh Hl]. unfold long_flags. rewrite truth_eqb by apply bit_BIT. rewrite long_words.
  destruct (f_S inst =? 1); [|done]. pose proof (Z.mod_pos_bound x (2 ^ 64) ltac:(lia)) as Hb. set (r := x `mod` 2 ^ 64) in *.
  unfold long_written. pose proof (ty_reg _ Hs) as Hw.
  assert (∀ t, reg (RdHi inst) (put_reg (RdHi inst) (r / 2 ^ 32) (put_reg (RdLo inst) t s)) = r / 2 ^ 32) as ->.
  { intros t. unfold reg, put_reg. cbn. apply list_lookup_total_insert_eq. rewrite length_insert. destruct Hw as [-> _]. lia. }
  rewrite reg_put_ne, reg_put_eq by (done || lia). f_equal; [|f_equal].
  - destruct (Z.eqb_spec r 0) as [->|]; [done|]. destruct (Z.eqb_spec (r / 2 ^ 32) 0), (Z.eqb_spec (r `mod` 2 ^ 32) 0); try done.
    exfalso. Z.to_euclidean_division_equations; lia.
  - rewrite BIT_div by lia. rewrite Z.div_div by lia. change (2 ^ 32 * 2 ^ 31) with (2 ^ 63). apply Z.mod_small.
    split; [apply Z.div_pos; lia|apply Z.div_lt_upper_bound; lia].
Qed.
End Long.

Section LongInstructions.
Context `{CpuBus M}.

(** C30: A long multiplication of two distinct destination registers leaves in them the exact product of the operands, read
    as unsigned or as signed numbers, with the accumulator added, modulo 2^64: the upper word in one, the lower word
    in the other, the sign and the zero of the 64 bits in the flags when it asks for them; no other register
    changes. The product with two accumulators never overflows. *)
Theorem long_multiplication_spec l cond inst s (m : M) r :
  word inst → arm_typed s → RdHi inst ≠ RdLo inst → passed cond s = true →
  long_product l (reg (f_Rm inst) s) (reg (f_Rs inst) s) (reg (RdHi inst) s) (reg (RdLo inst) s) = Some r →
  exec_label l cond inst s m =
    Some (next_pc (long_written (long_sets_flags l && (f_S inst =? 1)) inst (r `mod` 2 ^ 64) s), m, NEXT) ∧
  (l = L_UMAAL → r `mod` 2 ^ 64 = r).
Proof.
  intros Hi Hs Hne Hp Hr. unfold exec_label, pure_inst. rewrite Hp.
  destruct l; try done; injection Hr as <-; cbn [long_sets_flags andb];
    unfold UMULL_INST, SMULL_INST, UMLAL_INST, SMLAL_INST, UMAAL_INST; cbv zeta; rewrite ?(long_order inst s Hi Hne), ?long_flagged, ?long_words by done.
  all: (split; [do 4 f_equal; apply (f_equal (λ x, long_written _ inst x s))|intros E; try discriminate E]).
  - rewrite (Z.mul_comm (reg (f_Rm inst) s)). by rewrite u64_mod, u64_sum_mod, <- Z.add_assoc, u64_sum_mod, Z.add_assoc.
  - apply Z.mod_small. pose proof (word_reg _ (f_Rm inst) s (conj Hs eq_refl)) as H1. pose proof (word_reg _ (f_Rs inst) s (conj Hs eq_refl)) as H2.
    pose proof (word_reg _ (RdHi inst) s (conj Hs eq_refl)) as H3. pose proof (word_reg _ (RdLo inst) s (conj Hs eq_refl)) as H4.
    unfold word in *. nia.
  - apply s64_mod.
  - apply u64_mod.
  - by rewrite u64_accumulate, Z.shiftl_mul_pow2 by lia.
  - by rewrite s64_accumulate, Z.shiftl_mul_pow2 by lia.
Qed.
End LongInstructions.

(** ** Examples *)

Module Examples.
Import ArmState.Examples ArmTyped.Examples.


(** [CMP r1, r2] of 101 and 102: below, and less. *)
Lemma compare_orders_witness :
  ∃ s', exec_label L_CMP AL 0xE1510002 user (λ _, 0) = Some (s', (λ _, 0), NEXT) ∧ CondPassed s' 3 = true ∧ CondPassed s' 11 = true.
Proof.
  destruct (compare_orders AL 0xE1510002 user (λ _ : Z, 0) 102 SRType_LSL 0 102 0) as (s' & E & H);
    [by apply word_const|exact user_typed|reflexivity|reflexivity|vm_compute; congruence|vm_compute; congruence|reflexivity|].
  exists s'. split; [exact E|]. split; apply H; reflexivity.
Defined.

(** [UMLALS r0, r3, r1, r2]. *)
Lemma long_multiplication_spec_witness :
  exec_label L_UMLAL AL 0xE0B30291 user (λ _, 0) =
    Some (next_pc (long_written true 0xE0B30291 (101 * 102 + (103 * 2 ^ 32 + 100)) user), (λ _, 0), NEXT).
Proof.
  destruct (long_multiplication_spec L_UMLAL AL 0xE0B30291 user (λ _ : Z, 0) (101 * 102 + (103 * 2 ^ 32 + 100))) as [E _];
    [by apply word_const|exact user_typed|vm_compute; congruence|reflexivity|reflexivity|]. exact E.
Defined.

End Examples.
